(* ===== verification/_CoqProject ===== *)
-Q . S2P
Prelude.v
RustStr.v
Utf8.v
Json.v
Floats.v
Canon.v
Text.v
Parse.v
Standards.v
Clarification.v
Lifecycle.v
Store.v
StateM.v
Storage.v
Effects.v
Samples.v
Interpretation.v
Cache.v
AuditTrail.v
Repo.v
Submission.v
Decision.v
Order.v
Taxonomy.v
Personalization.v
Repair.v
PlanMode.v
Feed.v
GenerationSpec.v
Workflow.v
Redis.v
Queue.v
Rest.v
Auth.v
UserLimit.v
Webhook.v
RateLimit.v
Ledger.v
Router.v
LlmService.v
InterpretService.v
Delivery.v
Publication.v
PythonClient.v
RespondService.v
ContentDraft.v
DraftService.v
StepAdapters.v
GenerationApi.v
ClarificationApi.v
Providers.v
HomepageApi.v
Topics.v
Marketplace.v
Freelancers.v
Settings.v
