(* ===== verification/Prelude.v ===== *)
(** * Klass API gateway: a verification development

    The gateway (Rust, src/src/) takes a teacher's request for a document,
    records it as a row of the PostgreSQL table [media_generations], puts a job
    on a Redis stream, and has a worker take the row through a pipeline of
    steps: interpretation by a language model, choice of the output type,
    drafting, submission to a Python renderer, publication and delivery. The
    renderer reports the end of a job to a webhook. Around that pipeline stand
    accounts and sessions, a homepage that recommends material, topics, the
    marketplace for freelancers and the settings. This development models these
    parts as executable definitions and proves what they promise. Where a
    promise of a comment or of a document does not hold, a theorem says how.

    ** Files

    Foundations:
    - Prelude.v: outcomes of a call ([Ok], [Err], panic), record update, machine
      integers, tactics and hint databases.
    - RustStr.v, Utf8.v, Json.v, Floats.v: the parts of the Rust standard
      library and of serde_json the gateway computes with: strings as lists of
      Unicode scalars, UTF-8, JSON values with [Value]'s indexing and its
      panics, IEEE doubles and [{:.4}].
    - Text.v, Parse.v: searching, slicing and replacing in strings; reading
      integers and doubles from text.
    - Order.v: comparators that order their elements, and the stable sort.
    - Canon.v (cache/mod.rs): JSON text, compact and with sorted keys.
    - StateM.v: computations over a state that fail or panic, and their weakest
      preconditions ([holds], [st_step], [zoom], [moves]).
    - Samples.v: concrete instances of the external functions, for witnesses.

    The generations and their pipeline:
    - Lifecycle.v (orchestrator/lifecycle.rs): the nine statuses, the transition
      matrix and the encodings.
    - Store.v (db/repositories/media_generations.rs, src/migrations): the row,
      its constraints, statements and transactions over the table, and a weakest
      precondition calculus for handlers ([wp], [wp_step], [wp_run]).
    - Effects.v: what an operation may do to the table ([preserves]), and the
      relation [advances] (no row is lost, statuses follow the matrix).
    - AuditTrail.v (orchestrator/audit_trail.rs): [initialize], [transition],
      [record_attempt_failure], [mark_failed], [get_payload], and the JSON audit
      payload with its history and timing.
    - Repo.v (db/repositories/media_generations.rs): the other statements, with
      the dynamically assembled UPDATE and the ancestor walk.
    - Submission.v (orchestrator/submission.rs): fingerprints, deduplication and
      regeneration.
    - Decision.v, GenerationSpec.v (orchestrator/decision.rs): ranking of output
      types, the generation spec, and [resolve].
    - Workflow.v (orchestrator/workflow.rs): [process] and its checkpointed
      steps; the steps are a record [Steps] whose contract is the class
      [StepsPreserve].
    - StepAdapters.v (llm/step_adapters.rs): the steps the worker runs, made of
      the LLM services, PythonClient.v (media_gen/python_client.rs,
      auth/signing.rs) and Publication.v (media_gen/publication.rs), the latter
      over the buckets of Storage.v (storage/r2.rs).
    - Redis.v, Queue.v (queue/): commands and replies, enqueueing, the
      dead-letter queue, the worker with retries, backoff and circuit breaker.
    - Webhook.v (api/rest/media_webhook.rs): the completion webhook, and its
      race with the worker.

    The language models:
    - Standards.v (standards/content_standards.rs), Clarification.v
      (llm/clarification.rs): what each type of document requires, what a prompt
      says of it, and the preflights that ask for the rest.
    - Interpretation.v, Repair.v, PlanMode.v (contracts/prompt_interpretation.rs),
      ContentDraft.v (contracts/content_draft.rs), Delivery.v
      (contracts/delivery.rs): the contracts with a model: types, serde in both
      directions, the repair of a reply, validation, fallbacks.
    - Cache.v (cache/mod.rs), RateLimit.v (governance/rate_limit.rs), Ledger.v
      (governance/price_catalog.rs, ledger.rs), Router.v (providers/router.rs):
      what stands between a service and a provider.
    - Providers.v (providers/openrouter.rs, fallback.rs): the two clients.
    - LlmService.v, InterpretService.v, DraftService.v, RespondService.v (llm/):
      the three services over all of these.

    Recommendation:
    - Taxonomy.v, Personalization.v, Feed.v (recommendation/): the subject of a
      prompt, who a homepage is for, what it shows.
    - HomepageApi.v (api/rest/homepage_recommendations.rs and the repositories it
      uses): the request from the section to the answer and the assignments.

    The interface:
    - Rest.v (error.rs, api/rest/response.rs, db/pagination.rs): answers, pages.
    - Auth.v (auth/, api/rest/auth.rs, db/repositories/users.rs): accounts,
      tokens and sessions; UserLimit.v (auth/middleware.rs): request counters.
    - GenerationApi.v (api/rest/media_generations.rs), ClarificationApi.v
      (api/rest/clarification.rs): the endpoints that start and show generations.
    - Topics.v (topics with what an administrator does to them, and the activity
      log), Marketplace.v (tasks), Settings.v (system settings): repositories and
      endpoints; Freelancers.v (matching/mod.rs, api/rest/freelancer.rs): scores,
      suggestions and hiring.

    Every file models the source it names: a Record per struct or table row, an
    Inductive per enum, a Definition or Fixpoint per function under the name it
    has in the source, composed as the source composes them.

    ** How the code is modelled

    A handler is a function of a state monad. [Store.St] holds the committed
    table, the table an open transaction sees with the instant at which it
    began ([NOW()] in a transaction), the clock and a schedule that says which
    statements fail and how long each takes; a theorem without a hypothesis on
    the schedule holds for every pattern of failures, one with [healthy] (or
    [answered], in the files over StateM.v) for a reachable database. A
    statement that fails has not been applied, a commit included; a transaction
    that is not committed leaves the committed tables alone; a row that cannot
    be decoded after a statement outside a transaction has been written all the
    same. A request to the object storage whose reply is lost may or may not
    have been applied. [Redis.World] adds the replies of Redis, the commands
    issued so far, among them the requests to the renderer, and the atomics of the
    worker; a provider's network is the
    list of replies to come, and what is posted and slept is recorded. The
    larger states are records of the smaller ones, entered with [zoom]. Errors
    are values of the source's error types; a panic is a third outcome that
    nothing catches, since the release profile aborts. Integers wrap at their
    width where the source computes with them, shifts are modulo the width
    (release build). Instants are nanoseconds, amounts of money rationals.

    Requests run one at a time. What others commit in between is an argument
    where it matters ([Submission.create_or_reuse], [Webhook.reporting], the
    endpoints that submit); calls that do not overlap are composed in
    RateLimit.v, scripts of cache operations and of administrators' requests in
    Cache.v and Marketplace.v, the worker's endless loop in Queue.v.

    Several repositories read instants into a type without a time zone, which
    the driver decodes from TIMESTAMP columns only, while the migrations declare
    TIMESTAMPTZ. Which of the two a database has is an argument of HomepageApi.v,
    Topics.v, Marketplace.v, Freelancers.v and Settings.v ([column_type]); the
    theorems speak of both.

    External functions are classes, instantiated by concrete functions in the
    witnesses; a class with "Laws" in its name states documented behaviour.
    UUIDs and instants as text: [UuidText], [UuidErrorText], [UuidPrint],
    [UuidPrintLaws], [UuidRoundtrip], [UuidSimple], [Rfc3339], [Rfc3339Laws],
    [Rfc3339Millis], [MicrosText], [NaiveText], [Timestamps]. Digests and secrets:
    [Sha256], [Sha256Hex], [HmacSha256Hex], [Blake2b512], [Passwords],
    [PasswordLaws], [AlphanumericTable], [Presigning]. Text: [CaseTables],
    [UnicodeClasses], [Regexes], [JsonPrint], [JsonLex], [JsonLexLaws], [SerdeJson],
    [JsonReader] (a text read as JSON with its entries in order; the typed
    decoders of a provider's reply are defined over it, so a part that serde skips
    must still be readable there), [SerdeErrorText], [WebhookJson], [GardeLength],
    [GardeLengthLaws] (at least the characters, for ASCII exactly those).
    Arithmetic of rust_decimal:
    [DecimalOps], [DecimalLaws]. The order in which a HashMap or a scan gives its
    entries: [HashOrder], [GroupOrder], [MapOrder], [HeapScan], [RowScan]. The
    database: [DbErrorText], [ForeignKeys], [Users], [LookupTables], [Ilike]; Redis:
    [RedisU32].

    ** What the theorems show

    - Lifecycle: the matrix and [next_statuses] agree, chains of transitions end,
      [status_before] is reachability but for one pair, encodings round-trip.
    - Audit trail: [transition] and [mark_failed] are atomic under every failure,
      only make allowed moves, keep the payload well formed and account for
      every millisecond; [initialize] is idempotent; context is bounded.
    - Repository: the dynamic UPDATE is a field-by-field overlay; the ancestor
      walk ends on cyclic data; relations are those of the foreign keys.
    - Submission: deduplication under races and failures, and the canonical form
      determines the request.
    - Decision and spec: an answer for every interpretation, independence of the
      hash order when scores are apart, and the shape and the bounds of the spec:
      one section for each given, blank titles left empty.
    - Pipeline, worker, webhook: whatever fails and however long the worker runs,
      with the steps the gateway has, statuses only move forward; retries are
      bounded; the breaker counts failures and recovers; what is enqueued is
      what is read; the webhook changes only what a genuine report accounts for,
      once. Publication is all or nothing in the tables, and what it leaves in
      the buckets when it fails is said.
    - Contracts: payloads survive JSON; which nulls and lengths the repairs and
      the fallbacks can deal with; regenerating questions twice changes nothing;
      the questions of a preflight are what is missing.
    - Cache, governance, router, clients: every script of the cache behaves like a
      map with times to live; non-overlapping calls respect the request limit of
      a window; providers are called as documented, a bounded number of times; a
      reply without choices, whose other fields read, is an empty success.
    - Services: every run of a service is one of three (cache, provider, refusal),
      with what each leaves in the cache, the buckets and the ledger.
    - Recommendation: the feed is the selection its rules describe, in its order;
      the inferred subject is the first candidate; the homepage serves this feed
      where the columns of instants are of the type it reads.
    - Accounts: who is authenticated, tokens round-trip, ended sessions are
      refused whatever requests are served in between; the limit of a user is a
      fixed window.
    - Generation and clarification endpoints: what each answers, with which error
      it fails and what a failure leaves behind, on every branch; no request to the
      renderer for a regeneration, chains that are shown to other teachers,
      running jobs that are dropped.
    - Topics, marketplace, freelancers, settings: neighbours are exchanged; which
      statuses administrators can give; suggestions are the best freelancers;
      hiring creates one task for a finished generation; settings change
      together; and what TIMESTAMPTZ columns make of each.

    ** Bounds

    [Repo.walk_ancestors] has the fuel 50 of the source's own loop bound.
    [Utf8.lossy] has the number of bytes as fuel, and each call consumes one.
    [Router.try_attempts] and [Providers.attempts_from] count the attempts that
    are left. [Queue.iterate] takes the number of iterations of the worker's
    endless loop; its theorems hold for every number. [Cache.poll] has one unit
    for each sleep that fits before the deadline ([wait_for_entry_ends]: it is
    never used up); the services give it 202, which is ten seconds in steps of
    fifty milliseconds and two more. [Text.trim_start_matches] has the length of
    its text, each call drops a character. [Json] and string functions are
    structural.

    ** Not modelled

    JSONB's reordering of keys, collations other than the order of code points,
    logging and metrics. Two requests at the same time, beyond the interleavings
    named above; the tasks of one batch of the worker run one after the other.
    [find_all_admin] (a read). The texts of the prompts are modelled, what a
    model answers is not. The remaining endpoints and repositories (contents,
    gallery, media files and uploads, student progress, avatars, recommended
    projects and homepage sections as administrators edit them, the listing of
    the activity log, system health) decode a request, run their statements and
    encode the rows; they would repeat what Topics.v and Marketplace.v show.
    Three contracts are schemas of documents that no handler decodes. Reading the
    environment, wiring the routes, the OpenAPI description and the seed data
    are process set-up. *)

From stdpp Require Import base gmap list strings fin_maps.
From Stdlib Require Import ZArith Lia.

#[global] Set Default Goal Selector "!".

(** ** Notations of the development *)

Declare Scope klass_scope.
Delimit Scope klass_scope with klass.

(** ** Outcomes of a Rust call

    A Rust function either returns [Ok], returns [Err], or panics. Panics are
    kept apart from errors: they are not caught by [?] and, with the
    [panic = "abort"] release profile of [Cargo.toml], end the process. *)

Inductive outcome (E A : Type) : Type :=
| Ok (a : A)
| Err (e : E)
| Panic.
Arguments Ok {E A} a.
Arguments Err {E A} e.
Arguments Panic {E A}.

Definition outcome_bind {E A B} (m : outcome E A) (f : A -> outcome E B) : outcome E B :=
  match m with
  | Ok a => f a
  | Err e => Err e
  | Panic => Panic
  end.

(** The value of a computation that answers. *)
Definition ok_value {E A} (r : outcome E A) : option A := match r with Ok a => Some a | _ => None end.
Lemma ok_value_Some {E A} (r : outcome E A) a : ok_value r = Some a -> r = Ok a.
Proof. destruct r; [by intros [= ->]|done..]. Qed.
(** A panicking pure computation is an [option]: [None] is the panic. *)
Definition of_panicking {E A} (o : option A) : outcome E A :=
  match o with
  | Some a => Ok a
  | None => Panic
  end.

Definition map_err {E F A} (g : E -> F) (m : outcome E A) : outcome F A :=
  match m with
  | Ok a => Ok a
  | Err e => Err (g e)
  | Panic => Panic
  end.

Definition is_ok {E A} (m : outcome E A) : bool :=
  match m with Ok _ => true | _ => false end.

(** [Option::or]. *)
Definition option_or {A} (o o' : option A) : option A :=
  match o with Some _ => o | None => o' end.

(** ** Record update

    [eta] of a record type rebuilds a record from its projections; from it the
    update of one field is derived, so that a row with forty columns needs no
    forty hand-written setters. *)

Class Eta (R : Type) := eta : R -> R.
Class Update {R T : Type} (proj : R -> T) := update : (T -> T) -> R -> R.
Arguments update {R T} proj {_} _ _.

Ltac derive_update :=
  lazymatch goal with
  | |- @Update ?R ?T ?proj =>
      let f := fresh "f" in
      let r := fresh "r" in
      intros f r;
      let e := constr:(ltac:(typeclasses eauto) : Eta R) in
      let body := eval hnf in e in
      let applied := eval cbv beta in (body r) in
      let abstracted := eval pattern (proj r) in applied in
      lazymatch abstracted with
      | ?ctx _ => let v := eval cbv beta in (ctx (f (proj r))) in exact v
      end
  end.

#[export] Hint Extern 1 (Update _) => derive_update : typeclass_instances.

Notation "r <| p := v |>" := (update p (fun _ => v) r)
  (at level 1, left associativity, p at level 9,
   format "r  <| p  :=  v |>") : klass_scope.
(** A present value replaces the field. *)
Notation "r <| p ?:= o |>" := (update p (option_or o) r)
  (at level 1, left associativity, p at level 9,
   format "r  <| p  ?:=  o |>") : klass_scope.
Open Scope klass_scope.

(** ** Machine integers *)

Definition in_i64 (z : Z) : bool := ((- 2 ^ 63 <=? z) && (z <? 2 ^ 63))%Z.
Definition in_u64 (z : Z) : bool := ((0 <=? z) && (z <? 2 ^ 64))%Z.

(** Two's-complement wrap-around of a [w]-bit signed integer. *)
Definition swrap (w : Z) (z : Z) : Z :=
  ((z + 2 ^ (w - 1)) mod 2 ^ w - 2 ^ (w - 1))%Z.
Definition i64_wrap : Z -> Z := swrap 64.
Definition i32_wrap : Z -> Z := swrap 32.
Definition u64_wrap (z : Z) : Z := (z mod 2 ^ 64)%Z.
Definition u32_wrap (z : Z) : Z := (z mod 2 ^ 32)%Z.
Definition u64_max : Z := (2 ^ 64 - 1)%Z.
Definition i32_max : Z := (2 ^ 31 - 1)%Z.

Lemma swrap_id w z : (0 < w -> - 2 ^ (w - 1) <= z < 2 ^ (w - 1) -> swrap w z = z)%Z.
Proof.
  intros Hw Hz. unfold swrap.
  assert (2 ^ w = 2 * 2 ^ (w - 1))%Z as ->.
  { rewrite <- Z.pow_succ_r by lia. f_equal. lia. }
  rewrite Z.mod_small by lia. lia.
Qed.

Lemma i64_wrap_id z : in_i64 z = true -> i64_wrap z = z.
Proof.
  unfold in_i64, i64_wrap. intros [H1%Z.leb_le H2%Z.ltb_lt]%andb_true_iff.
  apply swrap_id; lia.
Qed.

(** ** Lists *)

(** First match of a Rust [match] on string (or any comparable) literals. *)
Fixpoint match_lit {K A} `{EqDecision K} (k : K) (arms : list (K * A)) : option A :=
  match arms with
  | [] => None
  | (k', a) :: rest => if decide (k = k') then Some a else match_lit k rest
  end.

(** The longest suffix of at most [n] elements: [v.split_off(v.len() - n)]. *)
Definition keep_last {A} (n : nat) (l : list A) : list A := drop (length l - n) l.

Lemma keep_last_length {A} n (l : list A) : length (keep_last n l) = min (length l) n.
Proof. unfold keep_last. rewrite length_drop. lia. Qed.

Lemma keep_last_snoc {A} n (l : list A) x :
  0 < n -> last (keep_last n (l ++ [x])) = Some x.
Proof.
  intros Hn. unfold keep_last. rewrite length_app. simpl.
  rewrite drop_app_le by lia. apply last_snoc.
Qed.

Lemma keep_last_suffix {A} n (l : list A) : keep_last n l `suffix_of` l.
Proof. exists (take (length l - n) l). symmetry. apply take_drop. Qed.

Lemma match_lit_Some {K A} `{EqDecision K} (k : K) (arms : list (K * A)) a :
  match_lit k arms = Some a -> (k, a) ∈ arms.
Proof.
  induction arms as [|[k' a'] arms IH]; simpl; [done|].
  case_decide; [intros [= <-]; subst; left | intros ?; right; auto].
Qed.

Lemma match_lit_None {K A} `{EqDecision K} (k : K) (arms : list (K * A)) :
  match_lit k arms = None <-> k ∉ arms.*1.
Proof.
  induction arms as [|[k' a'] arms IH]; simpl.
  - split; [intros _ ?%not_elem_of_nil; done|done].
  - case_decide; subst; [split; [done|intros H; destruct H; left]|].
    rewrite IH, not_elem_of_cons. tauto.
Qed.

(** ** Automation *)

(** Case analysis on the scrutinee of a [match] in the goal. *)
Ltac case_match_goal :=
  match goal with
  | |- context [match ?x with _ => _ end] => destruct x eqn:?
  end.

(** Destruct every conjunction, existential and pair equation of the context. *)
Ltac split_hyps :=
  repeat match goal with
  | H : _ /\ _ |- _ => destruct H
  | H : exists _, _ |- _ => destruct H
  | H : (_, _) = (_, _) |- _ => injection H as; subst
  | H : Ok _ = Ok _ |- _ => injection H as; subst
  | H : Err _ = Err _ |- _ => injection H as; subst
  | H : Some _ = Some _ |- _ => injection H as; subst
  end.

(** A closed goal decided by evaluation. *)
Ltac by_eval := first [vm_compute; reflexivity | vm_compute; discriminate | vm_compute; congruence].

Create HintDb klass.
Create Rewrite HintDb klass.
#[export] Hint Resolve keep_last_suffix : klass.
#[export] Hint Rewrite @keep_last_length : klass.
