(* ===== verification/RustStr.v ===== *)
(** * Rust strings

    A [&str] is a sequence of Unicode scalar values, here [list Z]; its length
    and its byte slices are those of its UTF-8 encoding. The file models the
    [str] and [char] methods the gateway calls ([trim], [to_lowercase],
    [contains], [len], [s[..n]], [join], decimal printing and parsing) and the
    whitespace-collapsing fold that several components repeat. The Unicode case
    tables, data of the Rust standard library, are the class [CaseTables]; the
    ASCII range is computed. *)

From stdpp Require Import base list strings.
From Stdlib Require Import ZArith Lia DecimalZ DecimalPos Decimal.
From S2P Require Import Prelude.
#[local] Open Scope Z_scope.

Notation str := (list Z).

(** A string literal of the source (ASCII). *)
Definition lit (s : string) : str := (λ a, Z.of_N (Ascii.N_of_ascii a)) <$> String.list_ascii_of_string s.
Arguments lit s%_string : simpl never.

(** [char::len_utf8]. *)
Definition utf8_len (c : Z) : nat :=
  if c <? 128 then 1 else if c <? 2048 then 2 else if c <? 65536 then 3 else 4.

(** [str::len]: the number of bytes. *)
Fixpoint str_len (s : str) : nat :=
  match s with [] => 0 | c :: s' => utf8_len c + str_len s' end.

(** The byte slice [&s[..n]]: it panics ([None]) past the end and inside a
    multi-byte character. *)
Fixpoint slice_to (n : nat) (s : str) : option str :=
  match n with
  | O => Some []
  | _ =>
      match s with
      | [] => None
      | c :: s' => if (utf8_len c <=? n)%nat then cons c <$> slice_to (n - utf8_len c) s' else None
      end
  end.

(** [char::is_whitespace]: the Unicode White_Space property. *)
Definition is_whitespace (c : Z) : bool :=
  ((9 <=? c) && (c <=? 13)) || (c =? 32) || (c =? 133) || (c =? 160) || (c =? 5760)
  || ((8192 <=? c) && (c <=? 8202)) || (c =? 8232) || (c =? 8233) || (c =? 8239)
  || (c =? 8287) || (c =? 12288).

Fixpoint trim_start (s : str) : str :=
  match s with
  | [] => []
  | c :: s' => if is_whitespace c then trim_start s' else s
  end.
Fixpoint trim_end (s : str) : str :=
  match s with
  | [] => []
  | c :: s' =>
      match trim_end s' with
      | [] => if is_whitespace c then [] else [c]
      | t => c :: t
      end
  end.
(** [str::trim]. *)
Definition trim (s : str) : str := trim_start (trim_end s).

Fixpoint starts_with (p s : str) : bool :=
  match p, s with
  | [], _ => true
  | c :: p', d :: s' => (c =? d) && starts_with p' s'
  | _ :: _, [] => false
  end.
(** [str::contains] with a string pattern. *)
Fixpoint str_contains (s p : str) : bool :=
  starts_with p s || match s with [] => false | _ :: s' => str_contains s' p end.

(** [<[String]>::join]. *)
Fixpoint join (sep : str) (l : list str) : str :=
  match l with
  | [] => []
  | [s] => s
  | s :: l' => s ++ sep ++ join sep l'
  end.

(** ** Hashes *)

(** [hex::encode(Sha256::digest(text))], of the sha2 and hex crates. *)
Class Sha256Hex := sha256_hex : str -> str.
(** A digest prints as 64 hexadecimal characters. *)
Class Sha256Laws `{Sha256Hex} := sha256_length : forall s, length (sha256_hex s) = 64%nat.

(** ** Case mapping *)

(** The case tables above ASCII, and the context test of [str::to_lowercase]
    for a final sigma (U+03A3). *)
Class CaseTables := {
  lower_table : Z -> str;
  upper_table : Z -> str;
  sigma_is_final : str -> str -> bool
}.

Section Case.
Context `{CaseTables}.

(** [char::to_lowercase]. *)
Definition char_to_lowercase (c : Z) : str :=
  if c <? 128 then [if (65 <=? c) && (c <=? 90) then c + 32 else c] else lower_table c.
Definition char_to_uppercase (c : Z) : str :=
  if c <? 128 then [if (97 <=? c) && (c <=? 122) then c - 32 else c] else upper_table c.

Fixpoint to_lowercase_from (before s : str) : str :=
  match s with
  | [] => []
  | c :: s' =>
      (if c =? 931 then [if sigma_is_final before s' then 962 else 963]
       else char_to_lowercase c) ++ to_lowercase_from (before ++ [c]) s'
  end.
(** [str::to_lowercase]. *)
Definition to_lowercase (s : str) : str := to_lowercase_from [] s.
Definition to_uppercase (s : str) : str := s ≫= char_to_uppercase.
End Case.

(** ** Decimal integers *)

Fixpoint uint_digits (u : Decimal.uint) : str :=
  match u with
  | Nil => []
  | D0 u => 48 :: uint_digits u | D1 u => 49 :: uint_digits u
  | D2 u => 50 :: uint_digits u | D3 u => 51 :: uint_digits u
  | D4 u => 52 :: uint_digits u | D5 u => 53 :: uint_digits u
  | D6 u => 54 :: uint_digits u | D7 u => 55 :: uint_digits u
  | D8 u => 56 :: uint_digits u | D9 u => 57 :: uint_digits u
  end.
(** [i64::to_string]. *)
Definition z_to_string (z : Z) : str :=
  match Z.to_int z with
  | Pos u => uint_digits u
  | Neg u => 45 :: uint_digits u
  end.

Definition digit_cons (c : Z) (u : Decimal.uint) : option Decimal.uint :=
  match_lit c [(48, D0 u); (49, D1 u); (50, D2 u); (51, D3 u); (52, D4 u);
               (53, D5 u); (54, D6 u); (55, D7 u); (56, D8 u); (57, D9 u)].
Fixpoint digits_uint (s : str) : option Decimal.uint :=
  match s with
  | [] => Some Nil
  | c :: s' => u ← digits_uint s'; digit_cons c u
  end.
Definition parse_digits (s : str) : option Z :=
  match s with [] => None | _ => Z.of_uint <$> digits_uint s end.
(** An optional sign and at least one digit. *)
Definition parse_decimal (s : str) : option Z :=
  match s with
  | 45 :: ds => Z.opp <$> parse_digits ds
  | 43 :: ds => parse_digits ds
  | ds => parse_digits ds
  end.
(** [str::parse::<i64>]: no overflow. *)
Definition parse_i64 (s : str) : option Z :=
  z ← parse_decimal s; if in_i64 z then Some z else None.

(** ** The whitespace-collapsing fold

    [s.chars().fold((String::new(), false), ...)]: a run of whitespace becomes
    one space, another character [c] becomes [f c]. *)
Definition collapse_step (f : Z -> str) (st : str * bool) (c : Z) : str * bool :=
  let '(acc, prev_ws) := st in
  if is_whitespace c then (if prev_ws then acc else acc ++ [32], true)
  else (acc ++ f c, false).
Definition collapse_ws (f : Z -> str) (s : str) : str := (foldl (collapse_step f) ([], false) s).1.

(** The character map of a fold that only collapses. *)
Definition singleton_char (c : Z) : str := [c].

(** [str::split_whitespace]. *)
Fixpoint words_from (cur s : str) : list str :=
  match s with
  | [] => match cur with [] => [] | _ => [cur] end
  | c :: s' =>
      if is_whitespace c then match cur with [] => words_from [] s' | _ => cur :: words_from [] s' end
      else words_from (cur ++ [c]) s'
  end.
Definition split_whitespace (s : str) : list str := words_from [] s.

(** ** Lemmas: byte slices *)

Lemma utf8_len_pos c : (1 <= utf8_len c <= 4)%nat.
Proof. unfold utf8_len. repeat case_match; lia. Qed.

Lemma str_len_app s t : str_len (s ++ t) = (str_len s + str_len t)%nat.
Proof. induction s as [|c s IH]; simpl; [done|]. rewrite IH. lia. Qed.

Lemma length_le_str_len s : (length s <= str_len s)%nat.
Proof. induction s as [|c s IH]; simpl; [lia|]. pose proof (utf8_len_pos c). lia. Qed.

Lemma slice_to_Some n s p :
  slice_to n s = Some p -> str_len p = n /\ p `prefix_of` s.
Proof.
  revert n p. induction s as [|c s IH]; intros [|n] p; simpl; try done.
  - intros [= <-]. split; [done|apply prefix_nil].
  - intros [= <-]. split; [done|apply prefix_nil].
  - case_match eqn:Hc; [|done]. apply Nat.leb_le in Hc.
    destruct (slice_to _ s) as [q|] eqn:Hq; simpl; [|done]. intros [= <-].
    apply IH in Hq as [Hlen Hpre]. simpl. split; [lia|]. by apply prefix_cons.
Qed.

Lemma slice_to_complete n s p : p `prefix_of` s -> str_len p = n -> slice_to n s = Some p.
Proof.
  revert n p. induction s as [|c s IH]; intros n p Hp Hn.
  - apply prefix_nil_inv in Hp as ->. by rewrite <- Hn.
  - destruct p as [|d p]; [by rewrite <- Hn|].
    pose proof (prefix_cons_inv_1 _ _ _ _ Hp) as ->. apply prefix_cons_inv_2 in Hp.
    simpl in Hn. pose proof (utf8_len_pos c). destruct n as [|n]; [lia|]. simpl.
    rewrite (proj2 (Nat.leb_le _ _)) by lia. by rewrite (IH _ p) by (done || lia).
Qed.

(** A byte slice panics exactly when the offset is past the end or inside a character. *)
Lemma slice_to_None n s :
  slice_to n s = None <-> forall p, p `prefix_of` s -> str_len p <> n.
Proof.
  split.
  - intros Hs p Hp Hn. by rewrite (slice_to_complete n s p Hp Hn) in Hs.
  - intros Hall. destruct (slice_to n s) as [p|] eqn:E; [|done].
    apply slice_to_Some in E as [Hn Hp]. by destruct (Hall p Hp).
Qed.

Definition ascii_str (s : str) : Prop := Forall (λ c, 0 <= c < 128) s.

Lemma ascii_str_len s : ascii_str s -> str_len s = length s.
Proof.
  induction 1 as [|c s Hc _ IH]; simpl; [done|]. rewrite IH.
  unfold utf8_len. rewrite (proj2 (Z.ltb_lt c 128)) by lia. done.
Qed.

Lemma slice_to_ascii n s : ascii_str s -> (n <= length s)%nat -> slice_to n s = Some (take n s).
Proof.
  intros Hs. revert n. induction Hs as [|c s Hc _ IH]; intros [|n] Hn; simpl in *; try done; [lia|].
  unfold utf8_len. rewrite (proj2 (Z.ltb_lt c 128)) by lia. simpl.
  rewrite Nat.sub_0_r, IH by lia. done.
Qed.

(** ** Lemmas: trimming *)

Lemma trim_end_app_nonws s c : is_whitespace c = false -> trim_end (s ++ [c]) = s ++ [c].
Proof.
  intros Hc. induction s as [|d s IH]; simpl; [by rewrite Hc|].
  rewrite IH. by destruct s.
Qed.

Lemma trim_end_prefix s : trim_end s `prefix_of` s.
Proof.
  induction s as [|c s IH]; simpl; [done|].
  destruct (trim_end s) eqn:E; [case_match; [apply prefix_nil|apply prefix_cons, prefix_nil]|].
  by apply prefix_cons.
Qed.

Lemma trim_start_nonws c s : is_whitespace c = false -> trim_start (c :: s) = c :: s.
Proof. simpl. by intros ->. Qed.

Lemma trim_end_idemp s : trim_end (trim_end s) = trim_end s.
Proof.
  induction s as [|c s IH]; [done|]. cbn [trim_end]. destruct (trim_end s) as [|d t] eqn:E.
  - destruct (is_whitespace c) eqn:Hc; [done|]. cbn [trim_end]. by rewrite Hc.
  - change (trim_end (c :: d :: t)) with
      (match trim_end (d :: t) with [] => if is_whitespace c then [] else [c] | t => c :: t end).
    by rewrite IH.
Qed.
Lemma trim_end_tail c s : trim_end (c :: s) = c :: s -> trim_end s = s.
Proof.
  cbn [trim_end]. destruct (trim_end s) as [|d t] eqn:E; [|congruence].
  destruct (is_whitespace c); congruence.
Qed.
Lemma trim_start_idemp s : trim_start (trim_start s) = trim_start s.
Proof. induction s as [|c s IH]; cbn; [done|]. destruct (is_whitespace c) eqn:Hc; [done|]. cbn. by rewrite Hc. Qed.
Lemma trim_idemp s : trim (trim s) = trim s.
Proof.
  unfold trim at 1. assert (forall t, trim_end t = t -> trim_end (trim_start t) = trim_start t) as Hfix.
  { induction t as [|c t IH]; [done|]. intros Ht. cbn [trim_start]. destruct (is_whitespace c); [|done].
    apply IH. by eapply trim_end_tail. }
  unfold trim. rewrite Hfix by apply trim_end_idemp. apply trim_start_idemp.
Qed.

Lemma trim_infix s : exists a b, s = a ++ trim s ++ b.
Proof.
  assert (forall s, exists b, s = trim_end s ++ b) as Hend.
  { clear. induction s as [|c s [b IH]]; simpl; [by exists []|].
    destruct (trim_end s) eqn:E; [destruct (is_whitespace c)|].
    - by exists (c :: s).
    - by exists s.
    - exists b. simpl. f_equal. exact IH. }
  assert (forall s, exists a, s = a ++ trim_start s) as Hstart.
  { clear. induction s as [|c s [a IH]]; simpl; [by exists []|].
    destruct (is_whitespace c); [exists (c :: a); simpl; by f_equal|by exists []]. }
  destruct (Hend s) as [b Hb]. destruct (Hstart (trim_end s)) as [a Ha]. exists a, b.
  unfold trim. rewrite app_assoc, <- Ha. exact Hb.
Qed.
Lemma trim_length s : (length (trim s) <= length s)%nat.
Proof. destruct (trim_infix s) as (a & b & Hs). rewrite Hs at 2. rewrite !length_app. lia. Qed.

(** ** Lemmas: decimal round trip *)

Lemma digits_uint_digits u : digits_uint (uint_digits u) = Some u.
Proof. induction u as [|u IH|u IH|u IH|u IH|u IH|u IH|u IH|u IH|u IH|u IH]; simpl; rewrite ?IH; done. Qed.

Lemma uint_digits_head u c s : uint_digits u = c :: s -> 48 <= c <= 57.
Proof. destruct u; simpl; intros [= <- _]; lia. Qed.

Lemma parse_digits_uint u : u <> Nil -> parse_digits (uint_digits u) = Some (Z.of_uint u).
Proof.
  intros Hu. unfold parse_digits. rewrite digits_uint_digits. by destruct u.
Qed.

Lemma parse_decimal_unsigned s z :
  (forall c s', s = c :: s' -> 48 <= c <= 57) -> parse_digits s = Some z -> parse_decimal s = Some z.
Proof.
  intros Hhd Hp. unfold parse_decimal. destruct s as [|c s']; [done|].
  specialize (Hhd c s' eq_refl).
  assert (c <> 45 /\ c <> 43) as [H1 H2] by lia.
  destruct c as [|p|p]; try lia.
  repeat (destruct p as [p|p|]; try exact Hp; try lia).
Qed.

Lemma z_to_int_norm_pos u z : Z.to_int z = Pos u -> u <> Nil.
Proof.
  destruct z as [|p|p]; simpl; [by intros [= <-]| |done].
  intros [= <-] Hnil. pose proof (Unsigned.of_to p) as Hp. rewrite Hnil in Hp. done.
Qed.

Lemma z_to_int_norm_neg u z : Z.to_int z = Neg u -> u <> Nil.
Proof.
  destruct z as [|p|p]; simpl; [done|done|].
  intros [= <-] Hnil. pose proof (Unsigned.of_to p) as Hp. rewrite Hnil in Hp. done.
Qed.

Lemma parse_decimal_to_string z : parse_decimal (z_to_string z) = Some z.
Proof.
  pose proof (DecimalZ.of_to z) as Hrt. unfold z_to_string.
  destruct (Z.to_int z) as [u|u] eqn:Hu; simpl in Hrt; unfold Z.of_int in Hrt.
  - apply parse_decimal_unsigned; [apply uint_digits_head|].
    rewrite parse_digits_uint by eauto using z_to_int_norm_pos. by rewrite Hrt.
  - unfold parse_decimal. rewrite parse_digits_uint by eauto using z_to_int_norm_neg. simpl.
    by rewrite Hrt.
Qed.

Lemma z_to_string_nonempty z : z_to_string z <> [].
Proof.
  intros Hz. pose proof (parse_decimal_to_string z) as Hp. by rewrite Hz in Hp.
Qed.

(** [i64::to_string] followed by [parse::<i64>] is the identity. *)
Lemma parse_i64_to_string z : in_i64 z = true -> parse_i64 (z_to_string z) = Some z.
Proof. intros Hz. unfold parse_i64. rewrite parse_decimal_to_string. simpl. by rewrite Hz. Qed.

(** ** Lemmas: whitespace collapsing

    Trimming the collapsed string gives the whitespace-separated words, mapped
    and joined by single spaces, provided the character map never yields
    whitespace nor the empty string. *)

Section Collapse.
Variable f : Z -> str.
Hypothesis f_nonempty : forall c, is_whitespace c = false -> f c <> [].
Hypothesis f_nonws :
  forall c, is_whitespace c = false -> Forall (λ d, is_whitespace d = false) (f c).

Let nonws_str (s : str) : Prop := Forall (λ d, is_whitespace d = false) s.

Fixpoint collapse_rec (prev : bool) (s : str) : str :=
  match s with
  | [] => []
  | c :: s' => if is_whitespace c then (if prev then [] else [32]) ++ collapse_rec true s'
               else f c ++ collapse_rec false s'
  end.

Lemma collapse_foldl s acc prev :
  (foldl (collapse_step f) (acc, prev) s).1 = acc ++ collapse_rec prev s.
Proof.
  revert acc prev. induction s as [|c s IH]; intros acc prev; simpl; [by rewrite app_nil_r|].
  destruct (is_whitespace c), prev; rewrite IH; simpl; by rewrite <- ?app_assoc.
Qed.

Lemma nonws_bind s : nonws_str s -> nonws_str (s ≫= f).
Proof.
  induction 1 as [|c s Hc _ IH]; simpl; [constructor|].
  apply Forall_app. split; [by apply f_nonws|done].
Qed.

Lemma nonempty_bind s : nonws_str s -> s <> [] -> s ≫= f <> [].
Proof.
  destruct 1 as [|c s Hc _]; [done|]. intros _ Hnil. apply app_eq_nil in Hnil as [Hnil _].
  by apply (f_nonempty c).
Qed.

Lemma trim_end_app s t : trim_end t <> [] -> trim_end (s ++ t) = s ++ trim_end t.
Proof.
  intros Ht. induction s as [|c s IH]; simpl; [done|]. rewrite IH.
  destruct (s ++ trim_end t) eqn:E; [by apply app_eq_nil in E as [_ ?]|done].
Qed.

Lemma trim_end_app_nil s t : trim_end t = [] -> trim_end (s ++ t) = trim_end s.
Proof. intros Ht. induction s as [|c s IH]; simpl; [done|]. by rewrite IH. Qed.

Lemma trim_end_nonws s : nonws_str s -> trim_end s = s.
Proof.
  induction 1 as [|c s Hc _ IH]; simpl; [done|]. rewrite IH. destruct s; [by rewrite Hc|done].
Qed.

Lemma trim_end_nonws_space s t :
  nonws_str s -> s <> [] ->
  trim_end (s ++ 32 :: t) = match trim_end t with [] => s | t' => s ++ 32 :: t' end.
Proof.
  intros Hs Hne. destruct (trim_end t) eqn:E.
  - rewrite trim_end_app_nil; [by apply trim_end_nonws|]. simpl. by rewrite E.
  - rewrite trim_end_app; simpl; rewrite E; done.
Qed.

Lemma words_from_nonnil cur s : cur <> [] -> words_from cur s <> [].
Proof.
  revert cur. induction s as [|c s IH]; intros cur Hc; simpl; [by destruct cur|].
  destruct (is_whitespace c); [by destruct cur|]. apply IH. by destruct cur.
Qed.

Lemma join_cons sep w ws : ws <> [] -> join sep (w :: ws) = w ++ sep ++ join sep ws.
Proof. by destruct ws. Qed.

Lemma join_words_nonnil cur s :
  nonws_str cur -> words_from cur s <> [] -> join [32] ((λ w, w ≫= f) <$> words_from cur s) <> [].
Proof.
  revert cur. induction s as [|c s IH]; intros cur Hcur; simpl.
  - destruct cur; [done|]. intros _. by apply nonempty_bind.
  - destruct (is_whitespace c) eqn:Hc.
    + destruct cur as [|d cur]; [by apply IH|]. intros _. rewrite fmap_cons.
      destruct (words_from [] s) eqn:E; [by apply nonempty_bind|].
      rewrite join_cons by done. intros [Hnil _]%app_eq_nil. by apply nonempty_bind in Hnil.
    + intros _. apply IH; [by apply Forall_app_2; [|constructor]|].
      apply words_from_nonnil. by destruct cur.
Qed.

Lemma trim_end_collapse s :
  trim_end (collapse_rec true s) = join [32] ((λ w, w ≫= f) <$> words_from [] s) /\
  forall cur, nonws_str cur -> cur <> [] ->
    trim_end ((cur ≫= f) ++ collapse_rec false s)
    = join [32] ((λ w, w ≫= f) <$> words_from cur s).
Proof.
  induction s as [|c s [IH1 IH2]]; simpl.
  - split; [done|]. intros cur Hcur Hne. rewrite app_nil_r.
    destruct cur; [done|]. rewrite trim_end_nonws by auto using nonws_bind. done.
  - destruct (is_whitespace c) eqn:Hc; simpl.
    + split; [exact IH1|]. intros cur Hcur Hne.
      rewrite trim_end_nonws_space by auto using nonws_bind, nonempty_bind.
      rewrite IH1. destruct cur as [|d cur]; [done|]. rewrite fmap_cons.
      destruct (words_from [] s) as [|w ws] eqn:E; [done|].
      rewrite join_cons by done.
      destruct (join [32] _) eqn:J; [|done].
      exfalso. revert J. rewrite <- E. apply join_words_nonnil; [constructor|by rewrite E].
    + split.
      * rewrite <- (IH2 [c]); [by rewrite bind_cons, app_nil_r|by constructor|done].
      * intros cur Hcur Hne. rewrite <- (IH2 (cur ++ [c])).
        -- rewrite bind_app, bind_cons, app_nil_r, <- app_assoc. done.
        -- by apply Forall_app_2; [|constructor].
        -- by destruct cur.
Qed.

Lemma trim_start_join cur s :
  nonws_str cur ->
  trim_start (join [32] ((λ w, w ≫= f) <$> words_from cur s))
  = join [32] ((λ w, w ≫= f) <$> words_from cur s).
Proof.
  assert (Hhd : forall w t, nonws_str w -> w <> [] -> trim_start ((w ≫= f) ++ t) = (w ≫= f) ++ t).
  { intros w t Hw Hne. pose proof (nonempty_bind w Hw Hne). pose proof (nonws_bind w Hw) as Hf.
    destruct Hf as [|d l Hd]; [done|]. simpl. by rewrite Hd. }
  revert cur. induction s as [|c s IH]; intros cur Hcur; simpl.
  - destruct cur as [|d cur]; [done|]. simpl. rewrite <- (app_nil_r (_ ++ _)). by apply (Hhd (d :: cur)).
  - destruct (is_whitespace c) eqn:Hc; [|apply IH; by apply Forall_app_2; [|constructor]].
    destruct cur as [|d cur]; [by apply IH|]. rewrite fmap_cons.
    destruct (words_from [] s) as [|w ws]; simpl.
    + rewrite <- (app_nil_r (_ ++ _)). by apply (Hhd (d :: cur)).
    + by apply (Hhd (d :: cur)).
Qed.

Lemma trim_collapse_ws s :
  trim (collapse_ws f s) = join [32] ((λ w, w ≫= f) <$> split_whitespace s).
Proof.
  unfold trim, collapse_ws. rewrite collapse_foldl. simpl.
  destruct (trim_end_collapse s) as [Ht _].
  destruct s as [|c s]; [done|]. simpl in *.
  destruct (is_whitespace c) eqn:Hc; simpl in *.
  - unfold split_whitespace. simpl. rewrite Hc. rewrite <- (trim_start_join [] s) by constructor.
    rewrite <- Ht. destruct (trim_end (collapse_rec true s)); done.
  - rewrite Ht. unfold split_whitespace. simpl. rewrite Hc.
    apply (trim_start_join [c]). by constructor.
Qed.
End Collapse.

(** Collapsing characters to themselves never lengthens a string. *)

Lemma bind_singleton_char s : s ≫= singleton_char = s.
Proof. induction s as [|c s IH]; [done|]. rewrite bind_cons, IH. done. Qed.

Lemma trim_collapse_singleton s :
  trim (collapse_ws singleton_char s) = join [32] (split_whitespace s).
Proof.
  rewrite trim_collapse_ws; [|done|by intros c Hc; repeat constructor].
  f_equal. induction (split_whitespace s) as [|w ws IH]; [done|].
  rewrite fmap_cons, bind_singleton_char, IH. done.
Qed.

Lemma str_len_trim_end s : (str_len (trim_end s) <= str_len s)%nat.
Proof. destruct (trim_end_prefix s) as [t Ht]. rewrite Ht at 2. rewrite str_len_app. lia. Qed.
Lemma str_len_trim_start s : (str_len (trim_start s) <= str_len s)%nat.
Proof. induction s as [|c s IH]; simpl; [lia|]. destruct (is_whitespace c); simpl; lia. Qed.
Lemma str_len_trim s : (str_len (trim s) <= str_len s)%nat.
Proof.
  unfold trim. pose proof (str_len_trim_start (trim_end s)). pose proof (str_len_trim_end s). lia.
Qed.

Lemma str_len_collapse s : (str_len (collapse_ws singleton_char s) <= str_len s)%nat.
Proof.
  unfold collapse_ws. rewrite collapse_foldl. simpl.
  enough (forall prev, (str_len (collapse_rec singleton_char prev s) <= str_len s)%nat) as Hall by apply Hall.
  induction s as [|c s IH]; intros prev; simpl; [lia|]. pose proof (utf8_len_pos c).
  destruct (is_whitespace c); [specialize (IH true); destruct prev; simpl; lia|].
  specialize (IH false). simpl. lia.
Qed.

Lemma ascii_trim s : ascii_str s -> ascii_str (trim s).
Proof.
  intros Hs. unfold trim. destruct (trim_end_prefix s) as [t Ht].
  assert (ascii_str (trim_end s)) as He by (unfold ascii_str in *; rewrite Ht, Forall_app in Hs; tauto).
  revert He. generalize (trim_end s). clear. intros s Hs.
  induction Hs as [|c s Hc Hs IH]; simpl; [constructor|]. destruct (is_whitespace c); [done|by constructor].
Qed.

Lemma ascii_collapse s : ascii_str s -> ascii_str (collapse_ws singleton_char s).
Proof.
  intros Hs. unfold collapse_ws. rewrite collapse_foldl. simpl.
  enough (forall prev, ascii_str (collapse_rec singleton_char prev s)) as Hall by apply Hall.
  induction Hs as [|c s Hc Hs IH]; intros prev; simpl; [constructor|].
  destruct (is_whitespace c), prev; simpl; try apply IH; constructor; try lia; apply IH.
Qed.

(** ** Decimal text *)

Lemma z_to_string_inj x y : z_to_string x = z_to_string y -> x = y.
Proof.
  intros Hxy. apply (f_equal parse_decimal) in Hxy. rewrite !parse_decimal_to_string in Hxy. by injection Hxy.
Qed.

Lemma uint_digits_range u : Forall (λ c, 48 <= c <= 57)%Z (uint_digits u).
Proof. induction u; simpl; constructor; (done || lia). Qed.

Lemma z_to_string_range z : Forall (λ c, c = 45 \/ 48 <= c <= 57)%Z (z_to_string z).
Proof.
  unfold z_to_string. destruct (Z.to_int z) as [u|u]; [|constructor; [by left|]];
    (eapply Forall_impl; [apply uint_digits_range|]; simpl; lia).
Qed.
