(* ===== verification/Utf8.v ===== *)
(** * UTF-8

    The bytes of a string, and [String::from_utf8_lossy], which reads them
    back. *)

From stdpp Require Import base list.
From Stdlib Require Import ZArith Lia.
From S2P Require Import Prelude RustStr.

(** ** Decoding *)

(** [String::from_utf8_lossy]: a maximal ill-formed prefix becomes U+FFFD. *)
Definition in_range (lo hi b : Z) : bool := ((lo <=? b) && (b <=? hi))%Z.
Definition cont_byte (b : Z) : bool := in_range 128 191 b.
Definition second_byte_ok (b0 b1 : Z) : bool :=
  if (b0 =? 224)%Z then in_range 160 191 b1
  else if (b0 =? 237)%Z then in_range 128 159 b1
  else if (b0 =? 240)%Z then in_range 144 191 b1
  else if (b0 =? 244)%Z then in_range 128 143 b1
  else cont_byte b1.
Fixpoint lossy (fuel : nat) (d : list Z) : str :=
  match fuel, d with
  | O, _ | _, [] => []
  | S fuel, b0 :: rest =>
      if (b0 <? 128)%Z then b0 :: lossy fuel rest
      else if in_range 194 223 b0 then
        match rest with
        | b1 :: rest1 => if cont_byte b1 then ((b0 - 192) * 64 + (b1 - 128))%Z :: lossy fuel rest1
                         else 65533%Z :: lossy fuel rest
        | [] => [65533%Z]
        end
      else if in_range 224 239 b0 then
        match rest with
        | b1 :: rest1 =>
            if second_byte_ok b0 b1 then
              match rest1 with
              | b2 :: rest2 =>
                  if cont_byte b2
                  then ((b0 - 224) * 4096 + (b1 - 128) * 64 + (b2 - 128))%Z :: lossy fuel rest2
                  else 65533%Z :: lossy fuel rest1
              | [] => [65533%Z]
              end
            else 65533%Z :: lossy fuel rest
        | [] => [65533%Z]
        end
      else if in_range 240 244 b0 then
        match rest with
        | b1 :: rest1 =>
            if second_byte_ok b0 b1 then
              match rest1 with
              | b2 :: rest2 =>
                  if cont_byte b2 then
                    match rest2 with
                    | b3 :: rest3 =>
                        if cont_byte b3
                        then ((b0 - 240) * 262144 + (b1 - 128) * 4096 + (b2 - 128) * 64 + (b3 - 128))%Z
                               :: lossy fuel rest3
                        else 65533%Z :: lossy fuel rest2
                    | [] => [65533%Z]
                    end
                  else 65533%Z :: lossy fuel rest1
              | [] => [65533%Z]
              end
            else 65533%Z :: lossy fuel rest
        | [] => [65533%Z]
        end
      else 65533%Z :: lossy fuel rest
  end.
Definition from_utf8_lossy (d : list Z) : str := lossy (length d) d.

(** ** Encoding *)

(** [str::as_bytes]. *)
Definition utf8_char (c : Z) : list Z :=
  (if c <? 128 then [c]
   else if c <? 2048 then [192 + c / 64; 128 + c mod 64]
   else if c <? 65536 then [224 + c / 4096; 128 + (c / 64) mod 64; 128 + c mod 64]
   else [240 + c / 262144; 128 + (c / 4096) mod 64; 128 + (c / 64) mod 64; 128 + c mod 64])%Z.
Definition utf8_encode (s : str) : list Z := s ≫= utf8_char.

(** A Unicode scalar value. *)
Definition scalar_value (c : Z) : Prop := (0 <= c < 55296 \/ 57344 <= c <= 1114111)%Z.

(** The continuation digits of a scalar, as variables. *)
Ltac byte_digits c :=
  let d1 := fresh "d1" in let d2 := fresh "d2" in let d3 := fresh "d3" in
  pose proof (Z.div_mod c 64 ltac:(lia)); pose proof (Z.mod_pos_bound c 64 ltac:(lia));
  pose proof (Z.div_mod (c / 64) 64 ltac:(lia)); pose proof (Z.mod_pos_bound (c / 64) 64 ltac:(lia));
  pose proof (Z.div_mod (c / 64 / 64) 64 ltac:(lia)); pose proof (Z.mod_pos_bound (c / 64 / 64) 64 ltac:(lia));
  replace (c / 262144)%Z with (c / 64 / 64 / 64)%Z by (rewrite !Z.div_div; done);
  replace (c / 4096)%Z with (c / 64 / 64)%Z by (rewrite !Z.div_div; done);
  set (d1 := (c mod 64)%Z) in *; set (d2 := ((c / 64) mod 64)%Z) in *;
  set (d3 := ((c / 64 / 64) mod 64)%Z) in *;
  generalize dependent d3; generalize dependent d2; generalize dependent d1;
  generalize (c / 64 / 64 / 64)%Z; generalize (c / 64 / 64)%Z; generalize (c / 64)%Z; intros.
Ltac decide_bytes :=
  repeat match goal with
  | |- context [if ?b then _ else _] =>
      first [ replace b with true by (symmetry; unfold second_byte_ok, cont_byte, in_range;
                repeat case_match; lia)
            | replace b with false by (symmetry; unfold in_range; lia) ]; cbv iota
  end.

Lemma lossy_char fuel c rest :
  scalar_value c -> lossy (S fuel) (utf8_char c ++ rest) = c :: lossy fuel rest.
Proof.
  intros Hc. unfold scalar_value in Hc. unfold utf8_char. byte_digits c.
  destruct (Z.ltb_spec c 128); [|destruct (Z.ltb_spec c 2048); [|destruct (Z.ltb_spec c 65536)]];
    cbn [app lossy]; decide_bytes; f_equal; lia.
Qed.

Lemma utf8_char_length c : (1 <= length (utf8_char c))%nat.
Proof. unfold utf8_char. repeat case_match; simpl; lia. Qed.

Lemma lossy_encode s fuel :
  Forall scalar_value s -> (length (utf8_encode s) <= fuel)%nat -> lossy fuel (utf8_encode s) = s.
Proof.
  intros Hs. revert fuel. induction Hs as [|c s Hc Hs IH]; intros fuel; [by destruct fuel|].
  unfold utf8_encode in *. cbn [mbind list_bind]. rewrite length_app. pose proof (utf8_char_length c).
  destruct fuel as [|fuel]; [lia|]. intros Hf. rewrite lossy_char by done. f_equal. apply IH. lia.
Qed.

Lemma from_utf8_lossy_encode s : Forall scalar_value s -> from_utf8_lossy (utf8_encode s) = s.
Proof. intros Hs. by apply lossy_encode. Qed.
