(* ===== verification/Json.v ===== *)
(** * JSON values

    [serde_json::Value] with the [preserve_order] feature ([Cargo.toml]): an
    object is an association list in insertion order. The file models the
    accessors and the in-place updates the gateway uses. Indexing for
    assignment ([v["k"] = x]) panics, here [None], on a value that is neither
    an object nor null. *)

From stdpp Require Import base list option strings sets relations.
From Stdlib Require Import ZArith Lia Floats.SpecFloat.
From S2P Require Import Prelude RustStr.

(** A JSON number: an integer, or an IEEE binary64 float. *)
Inductive number := NInt (z : Z) | NFloat (f : spec_float).

Inductive value :=
| Null
| Bool (b : bool)
| Number (n : number)
| String (s : str)
| Array (l : list value)
| Object (m : list (str * value)).

(** [json!({ "k": v, ... })]. *)
Definition obj (l : list (string * value)) : value := Object ((λ '(k, v), (lit k, v)) <$> l).
Definition jstr (s : string) : value := String (lit s).
Arguments jstr s%_string.
Definition jint (z : Z) : value := Number (NInt z).
(** [json!(option)]: [None] serialises to null. *)
Definition jopt {A} (f : A -> value) (o : option A) : value :=
  match o with Some a => f a | None => Null end.

(** ** Objects: [serde_json::Map] *)

Fixpoint map_get (k : str) (m : list (str * value)) : option value :=
  match m with
  | [] => None
  | (k', v) :: m' => if decide (k = k') then Some v else map_get k m'
  end.

(** [Map::insert]: replace in place, or append. *)
Fixpoint map_insert (k : str) (v : value) (m : list (str * value)) : list (str * value) :=
  match m with
  | [] => [(k, v)]
  | (k', v') :: m' => if decide (k = k') then (k', v) :: m' else (k', v') :: map_insert k v m'
  end.

Definition keys (m : list (str * value)) : list str := m.*1.

(** ** Accessors *)

Definition get (k : str) (v : value) : option value :=
  match v with Object m => map_get k m | _ => None end.
(** [Value::pointer] on a path of non-numeric tokens: an array has no such element. *)
Definition pointer (path : list string) (v : value) : option value :=
  foldl (λ o k, o ≫= get (lit k)) (Some v) path.
Definition as_str (v : value) : option str := match v with String s => Some s | _ => None end.
Definition as_bool (v : value) : option bool := match v with Bool b => Some b | _ => None end.
Definition as_array (v : value) : option (list value) := match v with Array l => Some l | _ => None end.
Definition as_i64 (v : value) : option Z :=
  match v with Number (NInt z) => if in_i64 z then Some z else None | _ => None end.
#[global] Arguments as_i64 : simpl never.
#[global] Arguments jint : simpl never.
Definition is_null (v : value) : bool := match v with Null => true | _ => false end.
Definition is_object (v : value) : bool := match v with Object _ => true | _ => false end.
Definition is_scalar (v : value) : bool :=
  match v with Number _ | Bool _ | String _ => true | _ => false end.

(** ** In-place updates *)

(** [IndexMut]: the place [v["k"]], created null when missing, is rewritten by [g]. *)
Definition index_mut (k : string) (g : value -> option value) (v : value) : option value :=
  match v with
  | Null => x ← g Null; Some (Object [(lit k, x)])
  | Object m => x ← g (default Null (map_get (lit k) m)); Some (Object (map_insert (lit k) x m))
  | _ => None
  end.
Arguments index_mut k%_string g v.
(** [v["k"] = x]. *)
Definition index_set (k : string) (x : value) (v : value) : option value :=
  index_mut k (λ _, Some x) v.
Arguments index_set k%_string x v.
(** [if let Some(p) = v.get_mut("k") { ... }]: nothing happens when the key is missing. *)
Definition with_key (k : string) (g : value -> option value) (v : value) : option value :=
  match get (lit k) v with
  | Some cur => index_mut k g v
  | None => Some v
  end.
Arguments with_key k%_string g v.

(** ** Lemmas *)

Lemma map_get_insert_eq k v m : map_get k (map_insert k v m) = Some v.
Proof.
  induction m as [|[k' v'] m IH]; simpl; [by rewrite decide_True|].
  destruct (decide (k = k')) as [->|]; simpl; by case_decide.
Qed.

Lemma map_get_insert_ne k k' v m : k <> k' -> map_get k (map_insert k' v m) = map_get k m.
Proof.
  intros Hne. induction m as [|[k1 v1] m IH]; simpl; [by rewrite decide_False|].
  destruct (decide (k' = k1)); simpl; destruct (decide (k = k1)); by subst.
Qed.

Lemma map_insert_keys k v m k' : k' ∈ keys (map_insert k v m) <-> k' = k \/ k' ∈ keys m.
Proof.
  unfold keys. induction m as [|[k1 v1] m IH]; simpl; [set_solver|].
  case_decide; subst; simpl; set_solver.
Qed.

Lemma index_mut_object k g v v' : index_mut k g v = Some v' -> is_object v' = true.
Proof.
  destruct v; simpl; try done.
  - destruct (g Null); simpl; [by intros [= <-]|done].
  - destruct (g _); simpl; [by intros [= <-]|done].
Qed.

Lemma get_index_mut_eq k g v v' :
  index_mut k g v = Some v' -> get (lit k) v' = g (default Null (get (lit k) v)).
Proof.
  destruct v; simpl; try done.
  - destruct (g Null); simpl; [|done]. intros [= <-]. simpl. by rewrite decide_True.
  - destruct (g _); simpl; [|done]. intros [= <-]. simpl. apply map_get_insert_eq.
Qed.

Lemma get_index_mut_ne k g v v' k' :
  index_mut k g v = Some v' -> k' <> lit k -> get k' v' = get k' v.
Proof.
  intros H Hne. destruct v; simpl in *; try done.
  - destruct (g Null); simpl in *; [|done]. injection H as <-. simpl. by rewrite decide_False.
  - destruct (g _); simpl in *; [|done]. injection H as <-. simpl. by apply map_get_insert_ne.
Qed.

Lemma index_set_spec k x v v' :
  index_set k x v = Some v' ->
  get (lit k) v' = Some x /\ is_object v' = true /\ forall k', k' <> lit k -> get k' v' = get k' v.
Proof.
  unfold index_set. intros H. split; [exact (get_index_mut_eq _ _ _ _ H)|].
  split; [exact (index_mut_object _ _ _ _ H)|]. intros k'. exact (get_index_mut_ne _ _ _ _ _ H).
Qed.

Lemma index_set_is_Some k x v : is_object v = true -> is_Some (index_set k x v).
Proof. by destruct v. Qed.

Lemma with_key_ne k g v v' k' :
  with_key k g v = Some v' -> k' <> lit k -> get k' v' = get k' v.
Proof.
  unfold with_key. destruct (get (lit k) v); [by apply get_index_mut_ne|]. by intros [= <-].
Qed.

Lemma with_key_eq k g v v' :
  with_key k g v = Some v' -> get (lit k) v' = get (lit k) v ≫= g.
Proof.
  unfold with_key. destruct (get (lit k) v) as [x|] eqn:E.
  - intros Hg. rewrite (get_index_mut_eq _ _ _ _ Hg), E. done.
  - intros [= <-]. by rewrite E.
Qed.

Lemma with_key_object k g v v' : with_key k g v = Some v' -> is_object v = true -> is_object v' = true.
Proof.
  unfold with_key. destruct (get (lit k) v); [intros Hg _; by eapply index_mut_object|by intros [= <-]].
Qed.

(** Two literal keys are different: decided by evaluation. *)
Ltac key_ne := let H := fresh in intro H; vm_compute in H; discriminate H.

(** Look a literal key up through a chain of insertions of literal keys. *)
Ltac map_get_simpl :=
  repeat first [rewrite map_get_insert_eq | rewrite map_get_insert_ne by key_ne].

Lemma get_Some_object k v x : get k v = Some x -> is_object v = true.
Proof. by destruct v. Qed.

Lemma index_set_run k x v :
  is_object v = true ->
  exists v', index_set k x v = Some v' /\ get (lit k) v' = Some x /\ is_object v' = true /\
    forall k', k' <> lit k -> get k' v' = get k' v.
Proof.
  intros Hv. destruct (index_set_is_Some k x v Hv) as [v' Hs].
  exists v'. split; [done|]. by apply index_set_spec.
Qed.

Lemma with_key_run k g v x x' :
  get (lit k) v = Some x -> g x = Some x' ->
  exists v', with_key k g v = Some v' /\ get (lit k) v' = Some x' /\ is_object v' = true /\
    forall k', k' <> lit k -> get k' v' = get k' v.
Proof.
  intros Hx Hg. unfold with_key. rewrite Hx.
  assert (index_mut k g v = Some (Object (map_insert (lit k) x' match v with Object m => m | _ => [] end)))
    as Hm.
  { destruct v; try done. simpl in *. by rewrite Hx; simpl; rewrite Hg. }
  eexists. split; [exact Hm|]. split; [by rewrite (get_index_mut_eq _ _ _ _ Hm), Hx|].
  split; [done|]. intros k'. exact (get_index_mut_ne _ _ _ _ _ Hm).
Qed.

Lemma lit_inj s t : lit s = lit t -> s = t.
Proof.
  unfold lit. intros Heq. rewrite <- (String.string_of_list_ascii_of_string s),
    <- (String.string_of_list_ascii_of_string t). f_equal.
  revert Heq. generalize (String.list_ascii_of_string t).
  induction (String.list_ascii_of_string s) as [|a l IH]; intros [|b l']; try done.
  intros [= Hab Hl]. f_equal; [|by apply IH]. revert Hab.
  clear. intros Hab. rewrite <- (Ascii.ascii_N_embedding a), <- (Ascii.ascii_N_embedding b).
  f_equal. by apply N2Z.inj.
Qed.

(** A literal key of a literal object is found by comparing the literals. *)
Lemma map_get_obj k (l : list (string * value)) :
  map_get (lit k) ((λ '(k, v), (lit k, v)) <$> l) = match_lit k l.
Proof.
  induction l as [|[k' v] l IH]; simpl; [done|].
  destruct (decide (k = k')) as [->|Hne]; [by rewrite decide_True|].
  rewrite decide_False by (intros ?%lit_inj; done). exact IH.
Qed.
Lemma get_obj k (l : list (string * value)) : get (lit k) (obj l) = match_lit k l.
Proof. apply map_get_obj. Qed.

#[export] Hint Resolve map_get_insert_eq index_set_is_Some : klass.
#[export] Hint Rewrite map_get_insert_eq : klass.
