(* ===== verification/Floats.v ===== *)
(** * IEEE binary64 arithmetic

    The [f64] operations of the gateway on the Standard Library's specification
    floats: correctly rounded arithmetic, decimal literals, [round] and the
    [{:.n}] format. *)

From stdpp Require Import base list strings.
From Stdlib Require Import ZArith Lia Floats.SpecFloat.
From S2P Require Import Prelude RustStr Json.
#[local] Open Scope Z_scope.

Notation f64 := spec_float.

Definition f64_add : f64 -> f64 -> f64 := SFadd 53 1024.
Definition f64_sub : f64 -> f64 -> f64 := SFsub 53 1024.
Definition f64_mul : f64 -> f64 -> f64 := SFmul 53 1024.
Definition f64_div : f64 -> f64 -> f64 := SFdiv 53 1024.
Definition f64_abs : f64 -> f64 := SFabs.
Definition f64_zero : f64 := S754_zero false.

(** [z as f64]. *)
Definition f64_of_z (z : Z) : f64 := binary_normalize 53 1024 z 0 false.

(** The literal [m / 10^k]: the double nearest to it. *)
Definition f64_lit (m : Z) (k : Z) : f64 := f64_div (f64_of_z m) (f64_of_z (10 ^ k)).

(** [f64::partial_cmp], [>=] and [<]: false on a NaN. *)
Definition f64_cmp (a b : f64) : option comparison := SFcompare a b.
Definition f64_ge (a b : f64) : bool :=
  match f64_cmp a b with Some Gt | Some Eq => true | _ => false end.
Definition f64_lt (a b : f64) : bool :=
  match f64_cmp a b with Some Lt => true | _ => false end.
Definition f64_le (a b : f64) : bool :=
  match f64_cmp a b with Some Lt | Some Eq => true | _ => false end.

(** [f64::round]: halfway cases away from zero. *)
Definition f64_round (f : f64) : f64 :=
  match f with
  | S754_finite s m e =>
      if 0 <=? e then f
      else
        let d := 2 ^ (- e) in
        let q := Z.pos m / d in
        let r := Z.pos m mod d in
        let n := if d <=? 2 * r then q + 1 else q in
        binary_normalize 53 1024 (if s then - n else n) 0 s
  | _ => f
  end.

(** [n] digits, padded with zeros on the left. *)
Fixpoint pad_digits (n : nat) (z : Z) : str :=
  match n with
  | O => []
  | S n' => pad_digits n' (z / 10) ++ [48 + z mod 10]
  end.

(** [format!("{:.n}", f)]: the exact value rounded to [n] decimals, ties to even. *)
Definition format_fixed (n : nat) (f : f64) : str :=
  let print (s : bool) (scaled : Z) : str :=
    let p := 10 ^ Z.of_nat n in
    (if s then [45] else []) ++ z_to_string (scaled / p) ++ lit "." ++ pad_digits n (scaled mod p) in
  match f with
  | S754_nan => lit "NaN"
  | S754_infinity s => (if s then [45] else []) ++ lit "inf"
  | S754_zero s => print s 0
  | S754_finite s m e =>
      let v := Z.pos m * 10 ^ Z.of_nat n in
      if 0 <=? e then print s (v * 2 ^ e)
      else
        let d := 2 ^ (- e) in
        let q := v / d in
        let r := v mod d in
        print s (if (d <? 2 * r) || ((d =? 2 * r) && Z.odd q) then q + 1 else q)
  end.

(** [Value::as_f64]. *)
Definition as_f64 (v : value) : option f64 :=
  match v with
  | Number (NInt z) => Some (f64_of_z z)
  | Number (NFloat f) => Some f
  | _ => None
  end.

(** [json!(f)]: a float that is not finite serialises to null. *)
Definition jfloat (f : f64) : value :=
  match f with
  | S754_nan | S754_infinity _ => Null
  | _ => Number (NFloat f)
  end.

(** [(x * 10000.0).round() / 10000.0]. *)
Definition round4 (x : f64) : f64 := f64_div (f64_round (f64_mul x (f64_of_z 10000))) (f64_of_z 10000).

Lemma pad_digits_length n z : length (pad_digits n z) = n.
Proof.
  revert z. induction n as [|n IH]; intros z; simpl; [done|].
  rewrite length_app, IH. simpl. lia.
Qed.

Example format_examples :
  format_fixed 4 (f64_lit 35 2) = lit "0.3500" /\ format_fixed 4 f64_zero = lit "0.0000" /\
  format_fixed 4 (f64_add (f64_lit 35 2) (f64_lit 12 2)) = lit "0.4700" /\
  round4 (f64_lit 123456 5) = f64_lit 12346 4 /\
  format_fixed 1 (f64_lit 25 2) = lit "0.2" /\ f64_round (f64_lit (-25) 1) = f64_of_z (-3).
Proof. repeat split; vm_compute; reflexivity. Qed.
