(* ===== verification/Canon.v ===== *)
(** * Canonical JSON text

    [to_canonical_json_string] (src/src/cache/mod.rs) prints a value with the
    keys of every object in alphabetical order. Two values have the same text
    exactly when they differ only in the order of their keys. The escapes of a
    string and the digits of a number are serde_json's: the class [JsonLex], with
    the laws that make JSON text readable again. *)

From stdpp Require Import base list option strings sets.
From Stdlib Require Import ZArith Lia Floats.SpecFloat.
From S2P Require Import Prelude RustStr Json.
#[local] Open Scope Z_scope.

(** [serde_json::to_string] on a string and on a number. *)
Class JsonLex := {
  json_quote : str -> str;
  json_number : number -> str
}.

(** A character of a JSON number. *)
Definition number_char (c : Z) : bool :=
  (48 <=? c) && (c <=? 57) || (c =? 43) || (c =? 45) || (c =? 46) || (c =? 101) || (c =? 69).

(** A string literal starts with a quotation mark and shows where it ends; a number is made of
    number characters and starts with a digit or a sign. Numbers are those that are finite:
    serde_json has no other. *)
Class JsonLexLaws `{JsonLex} := {
  quote_starts : forall s, head (json_quote s) = Some 34;
  quote_ends : forall s s' x x', json_quote s ++ x = json_quote s' ++ x' -> s = s' /\ x = x';
  number_chars : forall n, Forall (λ c, number_char c = true) (json_number n);
  number_nonempty : forall n, json_number n <> [];
  number_inj : forall n n', json_number n = json_number n' -> n = n'
}.

(** ** The order of strings: [Ord for String] compares UTF-8 bytes, which is the order of the
    scalars. *)

Fixpoint str_cmp (a b : str) : comparison :=
  match a, b with
  | [], [] => Eq
  | [], _ => Lt
  | _, [] => Gt
  | x :: a', y :: b' => match x ?= y with Eq => str_cmp a' b' | c => c end
  end.

(** [BTreeMap::insert], on the list of its entries in order. *)
Fixpoint btree_insert {A} (k : str) (v : A) (m : list (str * A)) : list (str * A) :=
  match m with
  | [] => [(k, v)]
  | (k', v') :: m' =>
      match str_cmp k k' with
      | Lt => (k, v) :: m
      | Eq => (k, v) :: m'
      | Gt => (k', v') :: btree_insert k v m'
      end
  end.
(** [map.iter().collect::<BTreeMap<_, _>>()]. *)
Definition btree_collect {A} (m : list (str * A)) : list (str * A) :=
  foldl (λ t '(k, v), btree_insert k v t) [] m.

Section Canonical.
Context `{JsonLex}.

Definition entry_text (e : str * str) : str := json_quote e.1 ++ lit ":" ++ e.2.

Fixpoint to_canonical_json_string (v : value) : str :=
  match v with
  | Object map =>
      let sorted := btree_collect ((λ '(k, v), (k, to_canonical_json_string v)) <$> map) in
      lit "{" ++ join (lit ",") (entry_text <$> sorted) ++ lit "}"
  | Array arr => lit "[" ++ join (lit ",") (to_canonical_json_string <$> arr) ++ lit "]"
  | String s => json_quote s
  | Number n => json_number n
  | Bool b => if b then lit "true" else lit "false"
  | Null => lit "null"
  end.
End Canonical.

(** ** The abstract form: a value with its keys in order *)

Fixpoint normal (v : value) : value :=
  match v with
  | Object map => Object (btree_collect ((λ '(k, v), (k, normal v)) <$> map))
  | Array arr => Array (normal <$> arr)
  | _ => v
  end.

(** Text of a value in the order it has. *)
Fixpoint json_text `{JsonLex} (v : value) : str :=
  match v with
  | Object map =>
      lit "{" ++ join (lit ",") ((λ '(k, v), json_quote k ++ lit ":" ++ json_text v) <$> map) ++ lit "}"
  | Array arr => lit "[" ++ join (lit ",") (json_text <$> arr) ++ lit "]"
  | String s => json_quote s
  | Number n => json_number n
  | Bool b => if b then lit "true" else lit "false"
  | Null => lit "null"
  end.

Section ValueInd.
Variable P : value -> Prop.
Hypothesis HNull : P Null.
Hypothesis HBool : forall b, P (Bool b).
Hypothesis HNumber : forall n, P (Number n).
Hypothesis HString : forall s, P (String s).
Hypothesis HArray : forall l, Forall P l -> P (Array l).
Hypothesis HObject : forall m, Forall (λ e, P e.2) m -> P (Object m).

(** Induction through the lists of arrays and objects. *)
Fixpoint value_ind' (v : value) : P v :=
  match v with
  | Null => HNull
  | Bool b => HBool b
  | Number n => HNumber n
  | String s => HString s
  | Array l =>
      HArray l ((fix go (l : list value) : Forall P l :=
        match l with
        | [] => Forall_nil_2 P
        | x :: l' => Forall_cons_2 P x l' (value_ind' x) (go l')
        end) l)
  | Object m =>
      HObject m ((fix go (m : list (str * value)) : Forall (λ e, P e.2) m :=
        match m with
        | [] => Forall_nil_2 _
        | e :: m' => Forall_cons_2 (λ e, P e.2) e m' (value_ind' e.2) (go m')
        end) m)
  end.
End ValueInd.

Lemma btree_insert_fmap {A B} (f : A -> B) k v m :
  btree_insert k (f v) ((λ e, (e.1, f e.2)) <$> m) = (λ e, (e.1, f e.2)) <$> btree_insert k v m.
Proof.
  induction m as [|[k' v'] m IH]; simpl; [done|]. destruct (str_cmp k k'); simpl; [done|done|exact (f_equal (cons _) IH)].
Qed.

Lemma btree_collect_fmap {A B} (f : A -> B) m :
  btree_collect ((λ '(k, v), (k, f v)) <$> m) = (λ e, (e.1, f e.2)) <$> btree_collect m.
Proof.
  unfold btree_collect. change (@nil (str * B)) with ((λ e : str * A, (e.1, f e.2)) <$> []) at 1.
  generalize (@nil (str * A)). induction m as [|[k v] m IH]; intros t; simpl; [done|].
  by rewrite btree_insert_fmap, IH.
Qed.

Lemma fmap_Forall_ext {A B} (f g : A -> B) l : Forall (λ x, f x = g x) l -> f <$> l = g <$> l.
Proof. induction 1 as [|x l Hx _ IH]; [done|]. rewrite !fmap_cons. by rewrite Hx, IH. Qed.

Lemma canonical_text `{JsonLex} v : to_canonical_json_string v = json_text (normal v).
Proof.
  induction v as [| | | |l IH|m IH] using value_ind'; simpl; try done.
  - do 2 f_equal. f_equal. rewrite <- list_fmap_compose. by apply fmap_Forall_ext.
  - do 2 f_equal. f_equal.
    assert (((λ '(k, v), (k, to_canonical_json_string v)) <$> m) =
            ((λ '(k, v), (k, json_text v)) <$> ((λ '(k, v), (k, normal v)) <$> m))) as ->.
    { rewrite <- list_fmap_compose. apply fmap_Forall_ext. eapply Forall_impl; [exact IH|].
      intros [k v] Hv. simpl in *. by rewrite Hv. }
    rewrite btree_collect_fmap, <- list_fmap_compose. apply fmap_Forall_ext, Forall_true.
    by intros [k v].
Qed.

(** ** The text determines the value *)

(** What may follow a value inside JSON text. *)
Definition delimited (x : str) : Prop :=
  match x with [] => True | c :: _ => number_char c = false end.

Lemma span_inj (P : Z -> bool) (a a' x x' : str) :
  Forall (λ c, P c = true) a -> Forall (λ c, P c = true) a' ->
  match x with [] => True | c :: _ => P c = false end ->
  match x' with [] => True | c :: _ => P c = false end ->
  a ++ x = a' ++ x' -> a = a' /\ x = x'.
Proof.
  intros Ha. revert a'. induction Ha as [|c a Hc Ha IH]; intros a' Ha' Hx Hx'; simpl.
  - destruct Ha' as [|c' a' Hc']; simpl; [done|]. intros ->. by rewrite Hc' in Hx.
  - destruct Ha' as [|c' a' Hc']; simpl; [intros <-; by rewrite Hc in Hx'|].
    intros [= <- Heq]. destruct (IH a' Ha' Hx Hx' Heq) as [-> ->]. done.
Qed.

Section Lists.
Context {A : Type} (p : A -> str) (close : Z).
Hypothesis Hclose : number_char close = false.
Hypothesis Hcomma : close <> 44.
Hypothesis Hstart : forall a, exists c r, p a = c :: r /\ c <> close.

Lemma join_text_inj l l' x y :
  Forall (λ a, forall b x y, delimited x -> delimited y -> p a ++ x = p b ++ y -> a = b /\ x = y) l ->
  join (lit ",") (p <$> l) ++ close :: x = join (lit ",") (p <$> l') ++ close :: y ->
  l = l' /\ x = y.
Proof.
  assert (forall a l x, join (lit ",") (p <$> a :: l) ++ close :: x =
    p a ++ match l with [] => close :: x | _ => 44 :: (join (lit ",") (p <$> l) ++ close :: x) end) as Hcons.
  { intros a [|b t] z; simpl; [done|]. by rewrite <- app_assoc. }
  assert (forall (t : list A) z, delimited (match t with
    | [] => close :: z | _ => 44 :: (join (lit ",") (p <$> t) ++ close :: z) end)) as Hdel.
  { intros [|b t] z; simpl; done. }
  intros Hl. revert l'. induction Hl as [|a l Ha Hl IH]; intros [|a' l'].
  - simpl. by intros [= ->].
  - rewrite Hcons. destruct (Hstart a') as (c & r & -> & Hc). simpl. by intros [= <- _].
  - rewrite Hcons. destruct (Hstart a) as (c & r & -> & Hc). simpl. by intros [= -> _].
  - rewrite !Hcons. intros Heq. apply Ha in Heq as [-> Heq]; [|apply Hdel|apply Hdel].
    destruct l as [|b l], l' as [|b' l'].
    + by injection Heq as ->.
    + by injection Heq as -> _.
    + by injection Heq as <- _.
    + destruct (IH (b' :: l') (f_equal tail Heq)) as [-> ->]. done.
Qed.
End Lists.

Section Injective.
Context `{JsonLexLaws}.

Lemma quote_cons s : exists r, json_quote s = 34 :: r.
Proof.
  pose proof (quote_starts s) as Hq. destruct (json_quote s) as [|c r]; [done|].
  injection Hq as ->. by eexists.
Qed.

(** The first character tells the kind of a value. *)
Definition first_of (v : value) : str -> Prop :=
  match v with
  | Null => λ x, head x = Some 110
  | Bool b => λ x, head x = Some (if b then 116 else 102)
  | Number _ => λ x, exists c, head x = Some c /\ number_char c = true
  | String _ => λ x, head x = Some 34
  | Array _ => λ x, head x = Some 91
  | Object _ => λ x, head x = Some 123
  end.

Lemma json_text_first v x : first_of v (json_text v ++ x).
Proof.
  destruct v as [|[]|n|s|l|m]; simpl; try done.
  - pose proof (number_nonempty n) as Hn. pose proof (number_chars n) as Hc.
    destruct Hc as [|c r Hc]; [done|]. simpl. eauto.
  - by destruct (quote_cons s) as [r ->].
Qed.

Lemma json_text_cons v : exists c r, json_text v = c :: r /\ c <> 93 /\ c <> 125.
Proof.
  pose proof (json_text_first v []) as Hf. rewrite app_nil_r in Hf.
  destruct v as [|[]|n|s|l|m]; cbn [first_of] in Hf;
    try (destruct (json_text _) as [|c r]; [done|]; injection Hf as ->; eexists _, _; done).
  destruct Hf as (c & Hf & Hc). destruct (json_text _) as [|c' r]; [done|].
  injection Hf as ->. eexists _, _. split; [done|]. split; by intros ->.
Qed.

Lemma json_text_inj v : forall w x y,
  delimited x -> delimited y -> json_text v ++ x = json_text w ++ y -> v = w /\ x = y.
Proof.
  induction v as [|b|n|s|l IH|m IH] using value_ind'; intros w x y Hx Hy Heq;
    pose proof (json_text_first w y) as Hw; rewrite <- Heq in Hw.
  - destruct w as [|[]|n'|s'|l'|m']; try done.
    + simpl in Heq. by injection Heq as ->.
    + by destruct Hw as (c & [= <-] & Hc).
  - destruct b, w as [|[]|n'|s'|l'|m']; try done;
      try (simpl in Heq; injection Heq as ->; done); by destruct Hw as (c & [= <-] & Hc).
  - pose proof (json_text_first (Number n) x) as (c & Hc & Hnum).
    destruct w as [|[]|n'|s'|l'|m']; cbn [first_of] in Hw;
      try (rewrite Hw in Hc; injection Hc as <-; done).
    simpl in Heq. apply span_inj with (P := number_char) in Heq as [Heq ->];
      [|apply number_chars|apply number_chars|by destruct x|by destruct y].
    by apply number_inj in Heq as ->.
  - destruct (quote_cons s) as [r Hr]. simpl in Hw. rewrite Hr in Hw.
    destruct w as [|[]|n'|s'|l'|m']; try done.
    + by destruct Hw as (c & [= <-] & Hc).
    + simpl in Heq. by apply quote_ends in Heq as [-> ->].
  - destruct w as [|[]|n'|s'|l'|m']; try done; [by destruct Hw as (c & [= <-] & Hc)|].
    simpl in Heq. injection Heq as Heq. rewrite <- !app_assoc in Heq. simpl in Heq.
    apply join_text_inj in Heq as [-> ->]; [done|done|done| |exact IH].
    intros a. destruct (json_text_cons a) as (c & r & ? & ? & ?). eauto.
  - destruct w as [|[]|n'|s'|l'|m']; try done; [by destruct Hw as (c & [= <-] & Hc)|].
    simpl in Heq. injection Heq as Heq. rewrite <- !app_assoc in Heq. simpl in Heq.
    apply join_text_inj in Heq as [-> ->]; [done|done|done| |].
    + intros [k v]. destruct (quote_cons k) as [r ->]. simpl. by eexists _, _.
    + eapply Forall_impl; [exact IH|]. intros [k v] Hv [k' v'] x0 y0 Hx0 Hy0.
      cbn beta iota. rewrite <- !app_assoc. intros [-> Hrest]%quote_ends. simpl in Hrest.
      injection Hrest as Hrest. apply Hv in Hrest as [[= ->] ->]; done.
Qed.

(** Values have the same canonical text exactly when they differ only in the order of keys. *)
Lemma canonical_text_iff v w :
  to_canonical_json_string v = to_canonical_json_string w <-> normal v = normal w.
Proof.
  rewrite !canonical_text. split; [|by intros ->]. intros Heq.
  rewrite <- (app_nil_r (json_text (normal v))), <- (app_nil_r (json_text (normal w))) in Heq.
  by apply json_text_inj in Heq as [? _].
Qed.
End Injective.

(** ** The order of keys does not matter *)

Lemma str_cmp_eq a b : str_cmp a b = Eq <-> a = b.
Proof.
  revert b. induction a as [|x a IH]; intros [|y b]; simpl; try done.
  destruct (x ?= y) eqn:C; [apply Z.compare_eq in C as ->|..].
  - rewrite IH. split; [by intros ->|by intros [= ->]].
  - split; [done|]. intros [= -> _]. by rewrite Z.compare_refl in C.
  - split; [done|]. intros [= -> _]. by rewrite Z.compare_refl in C.
Qed.

Lemma str_cmp_antisym a b : str_cmp b a = CompOpp (str_cmp a b).
Proof.
  revert b. induction a as [|x a IH]; intros [|y b]; simpl; try done.
  rewrite Z.compare_antisym. destruct (x ?= y); simpl; [apply IH|done|done].
Qed.

Lemma str_cmp_trans a b c : str_cmp a b = Lt -> str_cmp b c = Lt -> str_cmp a c = Lt.
Proof.
  revert b c. induction a as [|x a IH]; intros [|y b] [|z c]; simpl; try done.
  destruct (x ?= y) eqn:Cxy; [apply Z.compare_eq in Cxy as ->| |done].
  - destruct (y ?= z); [apply IH|done|done].
  - apply (proj1 (Z.compare_lt_iff _ _)) in Cxy. intros _.
    destruct (y ?= z) eqn:Cyz; [apply Z.compare_eq in Cyz as <-| |done].
    + by rewrite (proj2 (Z.compare_lt_iff x y)).
    + apply (proj1 (Z.compare_lt_iff _ _)) in Cyz. by rewrite (proj2 (Z.compare_lt_iff x z)) by lia.
Qed.

Lemma str_cmp_gt a b : str_cmp a b = Gt <-> str_cmp b a = Lt.
Proof. rewrite (str_cmp_antisym a b). by destruct (str_cmp a b). Qed.

Lemma btree_insert_comm {A} k1 (v1 : A) k2 v2 m :
  str_cmp k1 k2 = Lt ->
  btree_insert k1 v1 (btree_insert k2 v2 m) = btree_insert k2 v2 (btree_insert k1 v1 m).
Proof.
  intros Hlt. assert (str_cmp k2 k1 = Gt) as Hgt by by apply str_cmp_gt.
  induction m as [|[k v] m IH]; simpl; [by rewrite Hlt, Hgt|].
  destruct (str_cmp k2 k) eqn:C2.
  - apply str_cmp_eq in C2 as ->. rewrite Hlt. simpl. rewrite Hlt, Hgt. simpl.
    by rewrite (proj2 (str_cmp_eq k k) eq_refl).
  - rewrite (str_cmp_trans _ _ _ Hlt C2). simpl. by rewrite Hlt, Hgt; simpl; rewrite C2.
  - simpl. destruct (str_cmp k1 k) eqn:C1; simpl.
    + apply str_cmp_eq in C1 as ->. by rewrite Hgt.
    + rewrite Hgt. simpl. by rewrite C2.
    + rewrite C2. by rewrite IH.
Qed.

(** A [BTreeMap] forgets the order in which distinct keys were inserted. *)
Lemma btree_collect_perm {A} (m m' : list (str * A)) :
  NoDup m.*1 -> m ≡ₚ m' -> btree_collect m = btree_collect m'.
Proof.
  intros Hnd Hp. unfold btree_collect. generalize (@nil (str * A)).
  revert Hnd. induction Hp as [|[k v] m m' Hp IH|[k v] [k' v'] m|m1 m2 m3 H1 IH1 H2 IH2]; intros Hnd t.
  - done.
  - simpl. apply IH. by apply NoDup_cons in Hnd as [_ ?].
  - simpl. f_equal. apply NoDup_cons in Hnd as [Hk _]. simpl in Hk.
    destruct (str_cmp k k') eqn:C.
    + apply str_cmp_eq in C as ->. destruct Hk. by left.
    + by rewrite btree_insert_comm.
    + by rewrite <- btree_insert_comm by by apply str_cmp_gt.
  - rewrite IH1 by done. apply IH2. by rewrite <- H1.
Qed.

Lemma normal_perm (m m' : list (str * value)) :
  NoDup m.*1 -> m ≡ₚ m' -> normal (Object m) = normal (Object m').
Proof.
  intros Hnd Hp. simpl. f_equal. apply btree_collect_perm; [|by rewrite Hp].
  rewrite <- list_fmap_compose. erewrite list_fmap_ext; [exact Hnd|]. by intros _ [k v] _.
Qed.

(** Looking a key up in the sorted object. *)
Lemma map_get_btree_insert k k' v m :
  map_get k (btree_insert k' v m) = if decide (k = k') then Some v else map_get k m.
Proof.
  induction m as [|[k1 v1] m IH]; simpl; [done|]. destruct (str_cmp k' k1) eqn:C; simpl.
  - apply str_cmp_eq in C as ->. by case_decide.
  - done.
  - rewrite IH. destruct (decide (k = k1)) as [->|]; [|done]. rewrite decide_False; [done|].
    intros ->. by rewrite (proj2 (str_cmp_eq k' k') eq_refl) in C.
Qed.

Lemma map_get_btree_collect k m : NoDup m.*1 -> map_get k (btree_collect m) = map_get k m.
Proof.
  intros Hnd. unfold btree_collect.
  assert (forall t, map_get k (foldl (λ t '(k, v), btree_insert k v t) t m) =
    match map_get k m with Some v => Some v | None => map_get k t end) as Hfold.
  { induction m as [|[k1 v1] m IH]; intros t; simpl; [done|].
    apply NoDup_cons in Hnd as [Hk Hnd]. rewrite IH, map_get_btree_insert by done.
    case_decide; subst; [|done]. destruct (map_get k1 m) eqn:E; [|done].
    destruct Hk. clear -E. induction m as [|[k' v'] m IH]; simpl in *; [done|].
    case_decide; subst; [by left|]. right. auto. }
  rewrite Hfold. by destruct (map_get k m).
Qed.
