(* ===== verification/Text.v ===== *)
(** * More of [str]: searching, slicing and replacing

    The parts of Rust's string library that the LLM services use on prompts.
    Positions are byte offsets; slicing inside a character or past the end
    panics, here [None]. *)

From stdpp Require Import base list option strings.
From Stdlib Require Import ZArith Lia.
From S2P Require Import Prelude RustStr.
#[local] Open Scope Z_scope.

(** [s.find(p)]: the byte offset of the first occurrence. *)
Fixpoint find (s p : str) : option nat :=
  if starts_with p s then Some 0%nat
  else match s with [] => None | c :: s' => Nat.add (utf8_len c) <$> find s' p end.

(** [s.rfind(c)]: the byte offset of the last occurrence. *)
Fixpoint rfind_char (s : str) (c : Z) : option nat :=
  match s with
  | [] => None
  | d :: s' =>
      match rfind_char s' c with
      | Some n => Some (utf8_len d + n)%nat
      | None => if d =? c then Some 0%nat else None
      end
  end.

(** [&s[n..]]. *)
Fixpoint slice_from (n : nat) (s : str) : option str :=
  match n with
  | O => Some s
  | _ =>
      match s with
      | [] => None
      | c :: s' => if (utf8_len c <=? n)%nat then slice_from (n - utf8_len c) s' else None
      end
  end.

(** [s.find(|c| ...)]. *)
Fixpoint find_where (p : Z -> bool) (s : str) : option nat :=
  match s with
  | [] => None
  | c :: s' => if p c then Some 0%nat else Nat.add (utf8_len c) <$> find_where p s'
  end.

Definition ends_with (p s : str) : bool := starts_with (reverse p) (reverse s).

(** [s.replace(p, to)] for a pattern that is not empty: occurrences from the left, not
    overlapping. [skip] characters belong to the occurrence just replaced. *)
Fixpoint replace_from (p to : str) (skip : nat) (s : str) : str :=
  match s with
  | [] => []
  | c :: s' =>
      match skip with
      | S k => replace_from p to k s'
      | O => if starts_with p s then to ++ replace_from p to (length p - 1) s'
             else c :: replace_from p to 0 s'
      end
  end.
Definition replace (p to s : str) : str := replace_from p to 0 s.
(** [s.replace(c, to)] for a character. *)
Definition replace_char (c : Z) (to s : str) : str := s ≫= λ d, if d =? c then to else [d].

(** [s.trim_start_matches(p)], [s.trim_end_matches(p)] for a pattern that is not empty. *)
Fixpoint trim_start_matches_fuel (fuel : nat) (p s : str) : str :=
  match fuel with
  | O => s
  | S fuel => if starts_with p s then trim_start_matches_fuel fuel p (drop (length p) s) else s
  end.
Definition trim_start_matches (p s : str) : str := trim_start_matches_fuel (length s) p s.
Definition trim_end_matches (p s : str) : str := reverse (trim_start_matches (reverse p) (reverse s)).

(** [s.strip_prefix(p)], and [s.split_once(c)] at a character. *)
Definition strip_prefix (p s : str) : option str := if starts_with p s then Some (drop (length p) s) else None.
Fixpoint split_once (c : Z) (s : str) : option (str * str) :=
  match s with
  | [] => None
  | d :: rest => if d =? c then Some ([], rest) else '(a, b) ← split_once c rest; Some (d :: a, b)
  end.

Definition is_ascii_digit (c : Z) : bool := (48 <=? c) && (c <=? 57).

(** ** Lemmas *)

Lemma slice_from_app a b : slice_from (str_len a) (a ++ b) = Some b.
Proof.
  induction a as [|c a IH]; simpl; [by destruct b|]. pose proof (utf8_len_pos c).
  destruct (utf8_len c + str_len a)%nat as [|n] eqn:E; [lia|]. rewrite <- E.
  rewrite (proj2 (Nat.leb_le _ _)) by lia. replace (_ + _ - _)%nat with (str_len a) by lia. exact IH.
Qed.

Lemma starts_with_iff p s : starts_with p s = true <-> exists q, s = p ++ q.
Proof.
  split.
  - revert s. induction p as [|c p IH]; intros s; [by exists s|].
    destruct s as [|d s]; simpl; [done|]. intros [Hcd%Z.eqb_eq Hs]%andb_true_iff. subst.
    destruct (IH s Hs) as [q ->]. by exists q.
  - intros [q ->]. induction p as [|c p IH]; simpl; [done|]. by rewrite Z.eqb_refl.
Qed.

Lemma find_Some s p n : find s p = Some n -> exists a b, s = a ++ p ++ b /\ n = str_len a.
Proof.
  revert n. induction s as [|c s IH]; intros n; cbn [find].
  - destruct (starts_with p []) eqn:E; [|done]. apply starts_with_iff in E as [q ->].
    intros [= <-]. by exists [], q.
  - destruct (starts_with p (c :: s)) eqn:E.
    + apply starts_with_iff in E as [q ->]. intros [= <-]. by exists [], q.
    + destruct (find s p) as [m|]; [|done]. simpl. intros [= <-].
      destruct (IH m eq_refl) as (a & b & -> & ->). by exists (c :: a), b.
Qed.

Lemma find_contains s p : str_contains s p = true <-> is_Some (find s p).
Proof.
  induction s as [|c s IH]; cbn [str_contains find].
  - rewrite orb_false_r. destruct (starts_with p []); (split; intros Hx; [by exists 0%nat|by destruct Hx]).
  - destruct (starts_with p (c :: s)); simpl; [split; [eauto|done]|]. rewrite IH. by rewrite fmap_is_Some.
Qed.

Lemma find_where_Some f s n :
  find_where f s = Some n -> exists a c b, s = a ++ c :: b /\ n = str_len a /\ f c = true /\ forallb (λ d, negb (f d)) a = true.
Proof.
  revert n. induction s as [|c s IH]; intros n; simpl; [done|]. destruct (f c) eqn:Hc.
  - intros [= <-]. by exists [], c, s.
  - destruct (find_where f s) as [m|]; [|done]. simpl. intros [= <-].
    destruct (IH m eq_refl) as (a & d & b & -> & -> & Hd & Ha). exists (c :: a), d, b. simpl. by rewrite Hc.
Qed.

Lemma slice_to_app a b : slice_to (str_len a) (a ++ b) = Some a.
Proof.
  induction a as [|c a IH]; simpl; [by destruct b|]. pose proof (utf8_len_pos c).
  destruct (utf8_len c + str_len a)%nat as [|n] eqn:E; [lia|]. rewrite <- E.
  rewrite (proj2 (Nat.leb_le _ _)) by lia. replace (_ + _ - _)%nat with (str_len a) by lia. by rewrite IH.
Qed.

Lemma slice_to_all s : slice_to (str_len s) s = Some s.
Proof. rewrite <- (app_nil_r s) at 2. apply slice_to_app. Qed.

Lemma ends_with_iff p s : ends_with p s = true <-> exists q, s = q ++ p.
Proof.
  unfold ends_with. rewrite starts_with_iff. split; intros [q Hq].
  - exists (reverse q). rewrite <- (reverse_involutive s), Hq, reverse_app, reverse_involutive. done.
  - exists (reverse q). by rewrite Hq, reverse_app.
Qed.

(** ** Trimming a pattern *)

Lemma trim_start_matches_None p s : starts_with p s = false -> trim_start_matches p s = s.
Proof. intros Hs. unfold trim_start_matches. destruct s; [done|]. cbn [length trim_start_matches_fuel]. by rewrite Hs. Qed.

Lemma trim_start_matches_char_fuel c s n :
  (length s <= n)%nat ->
  exists k, s = replicate k c ++ trim_start_matches_fuel n [c] s /\
    starts_with [c] (trim_start_matches_fuel n [c] s) = false.
Proof.
  revert s. induction n as [|n IH]; intros s Hs.
  { destruct s; [|simpl in Hs; lia]. by exists 0%nat. }
  cbn [trim_start_matches_fuel]. destruct (starts_with [c] s) eqn:E; [|by exists 0%nat].
  apply starts_with_iff in E as [q ->]. simpl in *. destruct (IH q) as (k & Hk & Hf); [lia|].
  exists (S k). simpl. rewrite drop_0. split; [by f_equal|done].
Qed.

(** Without its leading [c]s a text does not start with [c]. *)
Lemma trim_start_matches_char c s :
  exists k, s = replicate k c ++ trim_start_matches [c] s /\ starts_with [c] (trim_start_matches [c] s) = false.
Proof. by apply trim_start_matches_char_fuel. Qed.

Lemma trim_start_matches_replicate c k s :
  starts_with [c] s = false -> trim_start_matches [c] (replicate k c ++ s) = s.
Proof.
  intros Hs. destruct (trim_start_matches_char c (replicate k c ++ s)) as (n & Hn & Hf).
  assert (Hgen : forall a b (x y : str), starts_with [c] x = false -> starts_with [c] y = false ->
    replicate a c ++ x = replicate b c ++ y -> x = y).
  { induction a as [|a IH]; intros [|b] x y Hx Hy; simpl; [done|intros ->|intros <-|].
    - simpl in Hx. by rewrite Z.eqb_refl in Hx.
    - simpl in Hy. by rewrite Z.eqb_refl in Hy.
    - intros [= Heq]. eauto. }
  symmetry. by eapply Hgen.
Qed.
