(* ===== verification/Parse.v ===== *)
(** * Reading numbers from text

    [str::parse::<i32>] and [str::parse::<f64>]: the grammar of the Rust standard
    library, and the double nearest to the decimal value. *)

From stdpp Require Import base list option strings.
From Stdlib Require Import ZArith Lia Floats.SpecFloat.
From S2P Require Import Prelude RustStr Json Floats Text.
#[local] Open Scope Z_scope.

Definition in_i32 (z : Z) : bool := (- 2 ^ 31 <=? z) && (z <? 2 ^ 31).
Definition parse_i32 (s : str) : option Z :=
  z ← parse_decimal s; if in_i32 z then Some z else None.

(** The double nearest to [p / q], ties to even: enough bits of the quotient, and one that says
    whether anything is left. *)
Definition round_ratio (neg : bool) (p q : Z) : f64 :=
  let k := Z.max 0 (64 + Z.log2 q - Z.log2 p) in
  let m := p * 2 ^ k / q in
  let sticky := if (p * 2 ^ k) mod q =? 0 then 0 else 1 in
  let n := 2 * m + sticky in
  binary_normalize 53 1024 (if neg then - n else n) (- (k + 1)) neg.

(** [digits * 10^e]; past the range of a double the result is known from the number of digits. *)
Definition decimal_to_f64 (neg : bool) (digits e : Z) : f64 :=
  let len := Z.of_nat (length (z_to_string digits)) in
  if digits =? 0 then S754_zero neg
  else if 310 <? e + len then S754_infinity neg
  else if e + len <? -330 then S754_zero neg
  else if 0 <=? e then round_ratio neg (digits * 10 ^ e) 1
  else round_ratio neg digits (10 ^ (- e)).

Fixpoint span_digits (s : str) : str * str :=
  match s with
  | c :: s' => if is_ascii_digit c then let '(d, r) := span_digits s' in (c :: d, r) else ([], s)
  | [] => ([], [])
  end.
Definition digits_value (s : str) : Z := foldl (λ z c, z * 10 + (c - 48)) 0 s.

Definition lower_ascii_char (c : Z) : Z := if (65 <=? c) && (c <=? 90) then c + 32 else c.

(** The part after the mantissa: nothing, or an exponent. *)
Definition parse_exponent (s : str) : option Z :=
  match s with
  | [] => Some 0
  | c :: s' =>
      if (c =? 101) || (c =? 69) then
        let '(neg, ds) := match s' with
                          | 45 :: ds => (true, ds)
                          | 43 :: ds => (false, ds)
                          | ds => (false, ds)
                          end in
        match span_digits ds with
        | ([], _) => None
        | (d, []) => Some (if neg : bool then - digits_value d else digits_value d)
        | _ => None
        end
      else None
  end.

Definition parse_f64_unsigned (neg : bool) (s : str) : option f64 :=
  let word := lower_ascii_char <$> s in
  if bool_decide (word = lit "inf") || bool_decide (word = lit "infinity") then Some (S754_infinity neg)
  else if bool_decide (word = lit "nan") then Some S754_nan
  else
    let '(int, rest) := span_digits s in
    let '(frac, rest) := match rest with 46 :: rest' => span_digits rest' | _ => ([], rest) end in
    if bool_decide (int ++ frac = []) then None
    else
      e ← parse_exponent rest;
      Some (decimal_to_f64 neg (digits_value (int ++ frac)) (e - Z.of_nat (length frac))).

Definition parse_f64 (s : str) : option f64 :=
  match s with
  | 45 :: s' => parse_f64_unsigned true s'
  | 43 :: s' => parse_f64_unsigned false s'
  | _ => parse_f64_unsigned false s
  end.

Example parse_f64_examples :
  parse_f64 (lit "0.8") = Some (f64_lit 8 1) /\ parse_f64 (lit "-12.50e-1") = Some (f64_lit (-125) 2) /\
  parse_f64 (lit ".5") = Some (f64_lit 5 1) /\ parse_f64 (lit "5.") = Some (f64_of_z 5) /\
  parse_f64 (lit ".") = None /\ parse_f64 (lit "1e") = None /\ parse_f64 (lit "Infinity") = Some (S754_infinity false) /\
  parse_f64 (lit "1e400") = Some (S754_infinity false) /\ parse_f64 (lit "high") = None /\
  parse_f64 (lit "5e-324") = Some (S754_finite false 1 (-1074)).
Proof. repeat split; vm_compute; reflexivity. Qed.
