(* ===== verification/Standards.v ===== *)
(** * Content standards (src/src/standards/content_standards.rs)

    Which fields a request for each type of document must, should or may give,
    and the rules that recognise the type and the fields in the text of a
    prompt. The tables are those of the source; regular expressions are run by
    the regex crate, the class [Regexes]. *)

From stdpp Require Import base list option strings sets sorting.
From Stdlib Require Import ZArith Lia Floats.SpecFloat.
From S2P Require Import Prelude RustStr Json Floats Text.
#[local] Open Scope Z_scope.

(** ** Types *)

Inductive FieldPriority := Required | Recommended | Optional.
#[export] Instance field_priority_eq_dec : EqDecision FieldPriority.
Proof. solve_decision. Defined.
Definition priority_as_str (p : FieldPriority) : str :=
  match p with
  | Required => lit "required" | Recommended => lit "recommended" | Optional => lit "optional"
  end.

Inductive InputType := Select | MultiSelect | TextInput | NumberInput.
Definition input_type_as_str (t : InputType) : str :=
  match t with
  | Select => lit "select" | MultiSelect => lit "multi_select"
  | TextInput => lit "text_input" | NumberInput => lit "number_input"
  end.

Record SuggestionChip := { chip_value : str; chip_label : str }.
Record FieldDefinition := {
  fd_field_id : str;
  fd_label_id : str;
  fd_label_en : str;
  fd_input_type : InputType;
  fd_priority : FieldPriority;
  fd_suggestions : list SuggestionChip
}.

Inductive ContentType :=
| MateriPembelajaran | SlidePresentasi | Rpp | LembarKerja | Silabus | Penilaian | Unknown.
#[export] Instance content_type_eq_dec : EqDecision ContentType.
Proof. solve_decision. Defined.
Definition content_type_as_str (c : ContentType) : str :=
  match c with
  | MateriPembelajaran => lit "materi_pembelajaran" | SlidePresentasi => lit "slide_presentasi"
  | Rpp => lit "rpp" | LembarKerja => lit "lembar_kerja" | Silabus => lit "silabus"
  | Penilaian => lit "penilaian" | Unknown => lit "unknown"
  end.

Record ContentGap := {
  gap_field_id : str;
  gap_question : str;
  gap_priority : str;
  gap_input_type : str;
  gap_suggestions : list SuggestionChip;
  gap_detected_value : option str
}.

Record MinimumRequirementField := {
  mr_field_id : str;
  mr_field_label : str;
  mr_priority : str;
  mr_input_type : str;
  mr_description : str;
  mr_suggestions : list SuggestionChip
}.
Record MinimumRequirements := {
  req_content_type : str;
  req_content_type_label : str;
  required_fields : list MinimumRequirementField;
  recommended_fields : list MinimumRequirementField
}.

(** The literals of the tables. *)
Definition chip (v l : string) : SuggestionChip := {| chip_value := lit v; chip_label := lit l |}.
Definition field (i l e : string) (t : InputType) (p : FieldPriority) (s : list SuggestionChip) :
    FieldDefinition :=
  {| fd_field_id := lit i; fd_label_id := lit l; fd_label_en := lit e; fd_input_type := t;
     fd_priority := p; fd_suggestions := s |}.
Definition min_field (i l p t d : string) (s : list SuggestionChip) : MinimumRequirementField :=
  {| mr_field_id := lit i; mr_field_label := lit l; mr_priority := lit p; mr_input_type := lit t;
     mr_description := lit d; mr_suggestions := s |}.
Definition requirements (c l : string) (q r : list MinimumRequirementField) : MinimumRequirements :=
  {| req_content_type := lit c; req_content_type_label := lit l; required_fields := q;
     recommended_fields := r |}.
Arguments chip v%_string l%_string.
Arguments field i%_string l%_string e%_string t p s.
Arguments min_field i%_string l%_string p%_string t%_string d%_string s.
Arguments requirements c%_string l%_string q r.

(** ** The tables *)

Definition grade_level_suggestions : list SuggestionChip :=
  [chip "SD_Kelas_1" "SD Kelas 1";
   chip "SD_Kelas_2" "SD Kelas 2";
   chip "SD_Kelas_3" "SD Kelas 3";
   chip "SD_Kelas_4" "SD Kelas 4";
   chip "SD_Kelas_5" "SD Kelas 5";
   chip "SD_Kelas_6" "SD Kelas 6";
   chip "SMP_Kelas_7" "SMP Kelas 7";
   chip "SMP_Kelas_8" "SMP Kelas 8";
   chip "SMP_Kelas_9" "SMP Kelas 9";
   chip "SMA_Kelas_10" "SMA Kelas 10";
   chip "SMA_Kelas_11" "SMA Kelas 11";
   chip "SMA_Kelas_12" "SMA Kelas 12"].

Definition output_type_suggestions : list SuggestionChip :=
  [chip "pdf" "PDF (Untuk Dicetak)";
   chip "docx" "Word (Bisa Diedit)";
   chip "pptx" "PowerPoint (Presentasi)"].

Definition page_count_suggestions : list SuggestionChip :=
  [chip "short" "Singkat (2-3 halaman)";
   chip "medium" "Sedang (5-7 halaman)";
   chip "long" "Lengkap (10+ halaman)"].

Definition slide_count_suggestions : list SuggestionChip :=
  [chip "short" "Singkat (8-10 slide)";
   chip "medium" "Sedang (15-20 slide)";
   chip "long" "Lengkap (25+ slide)"].

Definition meeting_duration_suggestions : list SuggestionChip :=
  [chip "35" "35 Menit";
   chip "40" "40 Menit";
   chip "45" "45 Menit";
   chip "2x45" "2 x 45 Menit (1 JP)"].

Definition teaching_method_suggestions : list SuggestionChip :=
  [chip "ceramah" "Ceramah";
   chip "diskusi" "Diskusi";
   chip "praktik" "Praktik";
   chip "inquiry" "Inkuiri";
   chip "problem_based" "Problem Based Learning";
   chip "project_based" "Project Based Learning"].

Definition assessment_method_suggestions : list SuggestionChip :=
  [chip "written_test" "Tes Tertulis";
   chip "oral" "Tes Lisan";
   chip "practical" "Penilaian Praktik";
   chip "portfolio" "Portofolio";
   chip "observation" "Observasi"].

Definition difficulty_level_suggestions : list SuggestionChip :=
  [chip "mudah" "Mudah";
   chip "sedang" "Sedang";
   chip "sulit" "Sulit";
   chip "campuran" "Campuran"].

Definition visual_density_suggestions : list SuggestionChip :=
  [chip "visual" "Banyak Gambar/Visual";
   chip "balanced" "Seimbang Teks & Visual";
   chip "text_focused" "Fokus Teks"].

Definition materi_pembelajaran_standards : list FieldDefinition :=
  [field "target_audience" "Jenjang/Kelas" "Grade Level" Select Required
     grade_level_suggestions;
   field "output_type" "Format File" "File Format" Select Required
     output_type_suggestions;
   field "learning_objectives" "Tujuan Pembelajaran" "Learning Objectives" TextInput Recommended
     [];
   field "page_count" "Jumlah Halaman" "Page Count" Select Recommended
     page_count_suggestions;
   field "include_activities" "Sertakan Latihan?" "Include Exercises?" Select Recommended
     [chip "yes" "Ya, sertakan latihan";
        chip "no" "Tidak, materi saja"]].

Definition slide_presentasi_standards : list FieldDefinition :=
  [field "target_audience" "Jenjang/Kelas" "Grade Level" Select Required
     grade_level_suggestions;
   field "output_type" "Format File" "File Format" Select Required
     [chip "pptx" "PowerPoint (Presentasi)"];
   field "slide_count" "Jumlah Slide" "Slide Count" Select Recommended
     slide_count_suggestions;
   field "visual_density" "Tampilan Slide" "Slide Style" Select Recommended
     visual_density_suggestions;
   field "speaker_notes" "Catatan Presenter" "Speaker Notes" Select Optional
     [chip "yes" "Ya, sertakan catatan";
        chip "no" "Tidak"]].

Definition rpp_standards : list FieldDefinition :=
  [field "target_audience" "Jenjang/Kelas" "Grade Level" Select Required
     grade_level_suggestions;
   field "learning_objectives" "Tujuan Pembelajaran" "Learning Objectives" TextInput Required
     [];
   field "meeting_duration" "Durasi Pertemuan" "Meeting Duration" Select Recommended
     meeting_duration_suggestions;
   field "teaching_method" "Metode Pembelajaran" "Teaching Method" MultiSelect Recommended
     teaching_method_suggestions;
   field "assessment_method" "Cara Penilaian" "Assessment Method" MultiSelect Recommended
     assessment_method_suggestions].

Definition lembar_kerja_standards : list FieldDefinition :=
  [field "target_audience" "Jenjang/Kelas" "Grade Level" Select Required
     grade_level_suggestions;
   field "difficulty_level" "Tingkat Kesulitan" "Difficulty Level" Select Required
     difficulty_level_suggestions;
   field "page_count" "Jumlah Halaman" "Page Count" Select Recommended
     page_count_suggestions;
   field "question_count" "Jumlah Soal" "Question Count" NumberInput Recommended
     [];
   field "output_type" "Format File" "File Format" Select Optional
     output_type_suggestions].

Definition silabus_standards : list FieldDefinition :=
  [field "target_audience" "Jenjang/Kelas" "Grade Level" Select Required
     grade_level_suggestions;
   field "learning_objectives" "Tujuan Pembelajaran" "Learning Objectives" TextInput Recommended
     [];
   field "output_type" "Format File" "File Format" Select Optional
     output_type_suggestions].

Definition penilaian_standards : list FieldDefinition :=
  [field "target_audience" "Jenjang/Kelas" "Grade Level" Select Required
     grade_level_suggestions;
   field "difficulty_level" "Tingkat Kesulitan" "Difficulty Level" Select Required
     difficulty_level_suggestions;
   field "question_count" "Jumlah Soal" "Question Count" NumberInput Required
     [];
   field "question_type" "Jenis Soal" "Question Type" MultiSelect Recommended
     [chip "pilihan_ganda" "Pilihan Ganda";
        chip "essay" "Essay";
        chip "uraian" "Uraian";
        chip "benar_salah" "Benar/Salah";
        chip "isian_singkat" "Isian Singkat"];
   field "output_type" "Format File" "File Format" Select Optional
     output_type_suggestions].

Definition default_standards : list FieldDefinition := materi_pembelajaran_standards.

Definition materi_requirements : MinimumRequirements :=
  requirements "materi_pembelajaran" "Materi Pembelajaran"
       [min_field "target_audience" "Jenjang/Kelas" "required" "select"
         "Jenjang dan kelas siswa yang dituju (misal: SD Kelas 5, SMP Kelas 7)"
         grade_level_suggestions;
        min_field "output_type" "Format File" "required" "select"
         "Format file output: PDF untuk cetak, DOCX untuk diedit, PPTX untuk presentasi"
         output_type_suggestions]
       [min_field "learning_objectives" "Tujuan Pembelajaran" "recommended" "text_input"
         "Apa yang harus dipahami/dikuasai siswa setelah mempelajari materi ini"
         [];
        min_field "page_count" "Jumlah Halaman" "recommended" "select"
         "Panjangnya materi: singkat (2-3 hal), sedang (5-7 hal), atau lengkap (10+ hal)"
         page_count_suggestions;
        min_field "include_activities" "Sertakan Latihan?" "recommended" "select"
         "Apakah perlu disertakan latihan/soal di akhir materi"
         [chip "yes" "Ya, sertakan latihan";
           chip "no" "Tidak, materi saja"]].

Definition slide_requirements : MinimumRequirements :=
  requirements "slide_presentasi" "Slide Presentasi"
       [min_field "target_audience" "Jenjang/Kelas" "required" "select"
         "Jenjang dan kelas siswa yang dituju"
         grade_level_suggestions;
        min_field "output_type" "Format File" "required" "select"
         "Format output: PPTX untuk presentasi"
         [chip "pptx" "PowerPoint (Presentasi)"]]
       [min_field "slide_count" "Jumlah Slide" "recommended" "select"
         "Jumlah slide: singkat (8-10), sedang (15-20), atau lengkap (25+)"
         slide_count_suggestions;
        min_field "visual_density" "Tampilan Slide" "recommended" "select"
         "Gaya tampilan: banyak visual, seimbang, atau fokus teks"
         visual_density_suggestions;
        min_field "speaker_notes" "Catatan Presenter" "recommended" "select"
         "Apakah perlu disertakan catatan untuk presenter"
         [chip "yes" "Ya, sertakan catatan";
           chip "no" "Tidak"]].

Definition rpp_requirements : MinimumRequirements :=
  requirements "rpp" "RPP (Rencana Pelaksanaan Pembelajaran)"
       [min_field "target_audience" "Jenjang/Kelas" "required" "select"
         "Jenjang dan kelas siswa yang dituju"
         grade_level_suggestions;
        min_field "learning_objectives" "Tujuan Pembelajaran" "required" "text_input"
         "Tujuan pembelajaran yang ingin dicapai"
         []]
       [min_field "meeting_duration" "Durasi Pertemuan" "recommended" "select"
         "Lama durasi pertemuan pembelajaran"
         meeting_duration_suggestions;
        min_field "teaching_method" "Metode Pembelajaran" "recommended" "multi_select"
         "Metode yang digunakan: ceramah, diskusi, praktik, dll"
         teaching_method_suggestions;
        min_field "assessment_method" "Cara Penilaian" "recommended" "multi_select"
         "Cara menilai pemahaman siswa"
         assessment_method_suggestions].

Definition worksheet_requirements : MinimumRequirements :=
  requirements "lembar_kerja" "Lembar Kerja"
       [min_field "target_audience" "Jenjang/Kelas" "required" "select"
         "Jenjang dan kelas siswa yang dituju"
         grade_level_suggestions;
        min_field "difficulty_level" "Tingkat Kesulitan" "required" "select"
         "Tingkat kesulitan soal: mudah, sedang, sulit, atau campuran"
         difficulty_level_suggestions]
       [min_field "page_count" "Jumlah Halaman" "recommended" "select"
         "Panjangnya lembar kerja"
         page_count_suggestions;
        min_field "question_count" "Jumlah Soal" "recommended" "number_input"
         "Jumlah soal yang diinginkan"
         [];
        min_field "output_type" "Format File" "recommended" "select"
         "Format file output"
         output_type_suggestions].

Definition syllabus_requirements : MinimumRequirements :=
  requirements "silabus" "Silabus"
       [min_field "target_audience" "Jenjang/Kelas" "required" "select"
         "Jenjang dan kelas siswa yang dituju"
         grade_level_suggestions]
       [min_field "learning_objectives" "Tujuan Pembelajaran" "recommended" "text_input"
         "Tujuan pembelajaran yang ingin dicapai"
         [];
        min_field "output_type" "Format File" "recommended" "select"
         "Format file output"
         output_type_suggestions].

Definition assessment_requirements : MinimumRequirements :=
  requirements "penilaian" "Penilaian"
       [min_field "target_audience" "Jenjang/Kelas" "required" "select"
         "Jenjang dan kelas siswa yang dituju"
         grade_level_suggestions;
        min_field "difficulty_level" "Tingkat Kesulitan" "required" "select"
         "Tingkat kesulitan soal"
         difficulty_level_suggestions;
        min_field "question_count" "Jumlah Soal" "required" "number_input"
         "Jumlah soal yang diinginkan"
         []]
       [min_field "question_type" "Jenis Soal" "recommended" "multi_select"
         "Jenis soal: pilihan ganda, essay, uraian, dll"
         [chip "pilihan_ganda" "Pilihan Ganda";
           chip "essay" "Essay";
           chip "uraian" "Uraian";
           chip "benar_salah" "Benar/Salah";
           chip "isian_singkat" "Isian Singkat"];
        min_field "output_type" "Format File" "recommended" "select"
         "Format file output"
         output_type_suggestions].

Definition unknown_requirements : MinimumRequirements :=
  requirements "unknown" "Tidak Diketahui"
       [min_field "target_audience" "Jenjang/Kelas" "required" "select"
         "Jenjang dan kelas siswa yang dituju"
         grade_level_suggestions;
        min_field "output_type" "Format File" "required" "select"
         "Format file output"
         output_type_suggestions]
       [].

Definition get_minimum_requirements (content_type : ContentType) : MinimumRequirements :=
  match content_type with
  | MateriPembelajaran => materi_requirements
  | SlidePresentasi => slide_requirements
  | Rpp => rpp_requirements
  | LembarKerja => worksheet_requirements
  | Silabus => syllabus_requirements
  | Penilaian => assessment_requirements
  | Unknown => unknown_requirements
  end.

Definition get_standards_for_content_type (content_type : ContentType) : list FieldDefinition :=
  match content_type with
  | MateriPembelajaran => materi_pembelajaran_standards
  | SlidePresentasi => slide_presentasi_standards
  | Rpp => rpp_standards
  | LembarKerja => lembar_kerja_standards
  | Silabus => silabus_standards
  | Penilaian => penilaian_standards
  | Unknown => default_standards
  end.

Definition priority_rank (p : FieldPriority) : nat :=
  match p with Required => 0 | Recommended => 1 | Optional => 2 end.
(** [sort_by_key], which is stable. *)
Fixpoint insert_by_rank (f : FieldDefinition) (l : list FieldDefinition) : list FieldDefinition :=
  match l with
  | [] => [f]
  | g :: l' => if (priority_rank (fd_priority f) <=? priority_rank (fd_priority g))%nat then f :: l
               else g :: insert_by_rank f l'
  end.
Definition get_clarification_fields (content_type : ContentType) : list FieldDefinition :=
  let all := get_standards_for_content_type content_type in
  let filtered := take 5 (filter (λ f, fd_priority f <> Optional) all) in
  foldr insert_by_rank [] filtered.

(** ** Detection *)

(** Matching with a regular expression: whether the text matches, and the first group of the
    leftmost match. *)
Class Regexes := {
  re_is_match : str -> str -> bool;
  re_captures1 : str -> str -> option str
}.

Definition count_signals (text : str) (signals : list string) : f64 :=
  let total := f64_of_z (Z.of_nat (length signals)) in
  let matched := f64_of_z (Z.of_nat (length (filter (λ s, str_contains text (lit s) = true) signals))) in
  if decide (signals = []) then f64_zero else f64_div matched total.

(** [f64::max], on numbers. *)
Definition f64_max (a b : f64) : f64 := if f64_lt a b then b else a.
(** [Iterator::max_by]: the last of the greatest. *)
Definition max_by_score (best x : ContentType * f64) : ContentType * f64 :=
  match default Eq (f64_cmp best.2 x.2) with Gt => best | _ => x end.

Section Detection.
Context `{CaseTables} `{Regexes}.

Definition slide_signals : list string := ["slide"; "presentasi"; "pptx"; "powerpoint"; "slideshow"]%string.
Definition rpp_signals : list string :=
  ["rpp"; "lesson plan"; "rencana pelaksanaan"; "rencana pembelajaran"]%string.
Definition worksheet_signals : list string :=
  ["lembar kerja"; "worksheet"; "latihan"; "soal"; "ujian"; "tes"; "assessment"; "penilaian"]%string.
Definition syllabus_signals : list string := ["silabus"; "syllabus"; "kurikulum"]%string.
Definition materi_signals : list string :=
  ["materi"; "modul"; "belajar"; "pembelajaran"; "handout"; "bahan ajar"]%string.

Definition content_scores (lower : str) : list (ContentType * f64) :=
  [(SlidePresentasi, count_signals lower slide_signals);
   (Rpp, count_signals lower rpp_signals);
   (LembarKerja, count_signals lower worksheet_signals);
   (Silabus, count_signals lower syllabus_signals);
   (MateriPembelajaran, count_signals lower materi_signals)].

Definition detect_content_type (prompt : str) : ContentType * f64 :=
  let lower := to_lowercase prompt in
  let scores := content_scores lower in
  let max_score := foldl f64_max f64_zero scores.*2 in
  if f64_lt max_score (f64_lit 15 2) then (Unknown, f64_zero)
  else
    match scores with
    | [] => (Unknown, f64_zero)
    | x :: rest => foldl max_by_score x rest
    end.

Definition detect_output_type (prompt : str) : option str :=
  let lower := to_lowercase prompt in
  let has k := str_contains lower (lit k) in
  if has "pptx" || has "ppt" || has "powerpoint" || has "slide presentasi"
     || (has "slide" && negb (has "handout")) || has "presentasi"
  then Some (lit "pptx")
  else if has "pdf" || has "cetak" || has "print" then Some (lit "pdf")
  else if has "docx" || has "doc" || has "word" || has "dokumen" || has "edit" then Some (lit "docx")
  else None.

Definition grade_patterns : list (string * string) :=
  [("kelas 1", "SD Kelas 1"); ("kelas 2", "SD Kelas 2"); ("kelas 3", "SD Kelas 3");
   ("kelas 4", "SD Kelas 4"); ("kelas 5", "SD Kelas 5"); ("kelas 6", "SD Kelas 6");
   ("kelas 7", "SMP Kelas 7"); ("kelas 8", "SMP Kelas 8"); ("kelas 9", "SMP Kelas 9");
   ("kelas 10", "SMA Kelas 10"); ("kelas 11", "SMA Kelas 11"); ("kelas 12", "SMA Kelas 12");
   ("kelas x", "SMA Kelas 10"); ("kelas xi", "SMA Kelas 11"); ("kelas xii", "SMA Kelas 12");
   ("grade 1", "SD Kelas 1"); ("grade 2", "SD Kelas 2"); ("grade 3", "SD Kelas 3");
   ("grade 4", "SD Kelas 4"); ("grade 5", "SD Kelas 5"); ("grade 6", "SD Kelas 6");
   ("grade 7", "SMP Kelas 7"); ("grade 8", "SMP Kelas 8"); ("grade 9", "SMP Kelas 9");
   ("grade 10", "SMA Kelas 10"); ("grade 11", "SMA Kelas 11"); ("grade 12", "SMA Kelas 12")]%string.
Definition standalone_levels : list (string * string) :=
  [("sd", "SD"); ("smp", "SMP"); ("sma", "SMA"); ("smk", "SMK"); ("paud", "PAUD"); ("tk", "TK")]%string.

(** [for (pattern, label) in &table { if ... { return Some(label) } }]. *)
Fixpoint first_label (test : str -> bool) (table : list (string * string)) : option str :=
  match table with
  | [] => None
  | (pattern, label) :: table' => if test (lit pattern) then Some (lit label) else first_label test table'
  end.
(** [\b...\b]. *)
Definition word_regex (w : str) : str := lit "\b" ++ w ++ lit "\b".

Definition detect_target_audience (prompt : str) : option str :=
  let lower := to_lowercase prompt in
  match first_label (str_contains lower) grade_patterns with
  | Some label => Some label
  | None => first_label (λ p, re_is_match (word_regex p) lower) standalone_levels
  end.

(** A number before one of the words of [re], or one of the keywords. *)
Definition number_or_keyword (re : string) (keywords : list string) (prompt : str) : option str :=
  let lower := to_lowercase prompt in
  match re_captures1 (lit re) lower with
  | Some num => Some num
  | None => if existsb (λ k, str_contains lower (lit k)) keywords then Some (lit "specified") else None
  end.
Definition detect_page_count : str -> option str :=
  number_or_keyword "(\d+)\s*(?:halaman|hal|lembar|pages?)"
    ["jumlah halaman"; "2-3 halaman"; "5-7 halaman"; "10+ halaman"]%string.
Definition detect_slide_count : str -> option str :=
  number_or_keyword "(\d+)\s*(?:slides?)"
    ["jumlah slide"; "8-10 slide"; "15-20 slide"; "25+ slide"]%string.
Definition detect_question_count : str -> option str :=
  number_or_keyword "(\d+)\s*(?:soal|pertanyaan|item|nomor)" ["jumlah soal"]%string.

Definition difficulty_levels : list (string * string) :=
  [("mudah", "mudah"); ("easy", "mudah"); ("sedang", "sedang"); ("medium", "sedang");
   ("sulit", "sulit"); ("hard", "sulit"); ("hots", "sulit"); ("campuran", "campuran");
   ("mixed", "campuran")]%string.
Definition detect_difficulty_level (prompt : str) : option str :=
  let lower := to_lowercase prompt in
  match first_label (λ p, re_is_match (word_regex p) lower) difficulty_levels with
  | Some v => Some v
  | None =>
      if str_contains lower (lit "tingkat kesulitan") || str_contains lower (lit "kesulitan")
      then Some (lit "specified") else None
  end.

Definition detect_meeting_duration (prompt : str) : option str :=
  let lower := to_lowercase prompt in
  if re_is_match (lit "(\d+)\s*(?:menit|jp)") lower then Some (lit "specified")
  else if str_contains lower (lit "2x45") || str_contains lower (lit "durasi pertemuan")
  then Some (lit "specified") else None.

Definition detect_include_activities (prompt : str) : option str :=
  let lower := to_lowercase prompt in
  if existsb (λ k, str_contains lower (lit k))
       ["sertakan latihan"; "dengan latihan"; "ada latihan"; "tanpa latihan"; "latihan soal"]%string
  then Some (lit "yes") else None.

Definition detect_teaching_method (prompt : str) : option str :=
  let lower := to_lowercase prompt in
  if existsb (λ k, str_contains lower (lit k))
       ["metode"; "ceramah"; "diskusi"; "inquiry"; "inkuiri"; "pbl"; "pjbl"; "problem based"; "project based"]%string
  then Some (lit "specified") else None.

Definition detect_assessment_method (prompt : str) : option str :=
  let lower := to_lowercase prompt in
  if existsb (λ k, str_contains lower (lit k))
       ["tes tertulis"; "tes lisan"; "portofolio"; "observasi"; "cara penilaian"]%string
  then Some (lit "specified") else None.

Definition detect_question_type (prompt : str) : option str :=
  let lower := to_lowercase prompt in
  if existsb (λ k, str_contains lower (lit k))
       ["pilihan ganda"; "pg"; "essay"; "esai"; "uraian"; "benar/salah"; "benar salah"; "isian singkat"; "mcq"]%string
  then Some (lit "specified") else None.

Definition detect_learning_objectives (prompt : str) : option str :=
  let lower := to_lowercase prompt in
  if existsb (λ k, str_contains lower (lit k))
       ["tujuan pembelajaran"; "tujuan:"; "agar siswa"; "supaya siswa"; "capaian pembelajaran"]%string
  then Some (lit "specified") else None.

Definition detect_visual_density (prompt : str) : option str :=
  let lower := to_lowercase prompt in
  if existsb (λ k, str_contains lower (lit k))
       ["banyak gambar"; "fokus teks"; "tampilan slide"; "seimbang visual"]%string
  then Some (lit "specified") else None.

Definition detect_speaker_notes (prompt : str) : option str :=
  let lower := to_lowercase prompt in
  if existsb (λ k, str_contains lower (lit k))
       ["catatan presenter"; "catatan pembicara"; "speaker notes"]%string
  then Some (lit "specified") else None.

Definition detect_field_value_from_prompt (field_id prompt : str) : option str :=
  match match_lit field_id
    [(lit "target_audience", detect_target_audience); (lit "output_type", detect_output_type);
     (lit "page_count", detect_page_count); (lit "slide_count", detect_slide_count);
     (lit "question_count", detect_question_count); (lit "difficulty_level", detect_difficulty_level);
     (lit "include_activities", detect_include_activities);
     (lit "meeting_duration", detect_meeting_duration); (lit "teaching_method", detect_teaching_method);
     (lit "assessment_method", detect_assessment_method); (lit "question_type", detect_question_type);
     (lit "learning_objectives", detect_learning_objectives);
     (lit "visual_density", detect_visual_density); (lit "speaker_notes", detect_speaker_notes)] with
  | Some detect => detect prompt
  | None => None
  end.
End Detection.

(** ** Lemmas: scores *)

Definition signal_count (text : str) (signals : list string) : nat :=
  length (filter (λ s, str_contains text (lit s) = true) signals).
(** The score of [k] signals out of [n]. *)
Definition score_of (k n : nat) : f64 := f64_div (f64_of_z (Z.of_nat k)) (f64_of_z (Z.of_nat n)).

Lemma count_signals_score text signals :
  signals <> [] -> count_signals text signals = score_of (signal_count text signals) (length signals).
Proof. intros Hne. unfold count_signals. by rewrite decide_False. Qed.

Lemma signal_count_le text signals : (signal_count text signals <= length signals)%nat.
Proof. apply length_filter. Qed.

(** [detect_content_type], on the scores. *)
Definition scores_of (a b c d e : f64) : list (ContentType * f64) :=
  [(SlidePresentasi, a); (Rpp, b); (LembarKerja, c); (Silabus, d); (MateriPembelajaran, e)].
Definition best_of (threshold : f64) (scores : list (ContentType * f64)) : ContentType * f64 :=
  if f64_lt (foldl f64_max f64_zero scores.*2) threshold then (Unknown, f64_zero)
  else match scores with [] => (Unknown, f64_zero) | x :: rest => foldl max_by_score x rest end.

Lemma detect_content_type_scores `{CaseTables} prompt :
  let n signals := signal_count (to_lowercase prompt) signals in
  detect_content_type prompt =
  best_of (f64_lit 15 2) (scores_of (score_of (n slide_signals) 5) (score_of (n rpp_signals) 4)
    (score_of (n worksheet_signals) 8) (score_of (n syllabus_signals) 3) (score_of (n materi_signals) 6)).
Proof.
  unfold detect_content_type, content_scores. rewrite !count_signals_score by done. reflexivity.
Qed.

(** What holds of the choice for every combination of counts, by evaluation. *)
Definition choice_ok (best : ContentType * f64) (scores : list (ContentType * f64)) (weak : bool) : bool :=
  Bool.eqb (bool_decide (best.1 = Unknown)) weak
  && negb (bool_decide (best.1 = Penilaian))
  && (weak || existsb (λ x, bool_decide (x.1 = best.1) && f64_le x.2 best.2 && f64_le best.2 x.2) scores
              && forallb (λ x, f64_le x.2 best.2) scores).
Definition weak_counts (a b c d e : nat) : bool :=
  (a =? 0)%nat && (b =? 0)%nat && (c <=? 1)%nat && (d =? 0)%nat && (e =? 0)%nat.

Section Choices.
Variable sc : nat -> nat -> f64.
Definition scored (n total : nat) : list (nat * f64) := (λ k, (k, sc k total)) <$> seq 0 n.
Definition all_choices_ok (threshold : f64) : bool :=
  let sa := scored 6 5 in let sb := scored 5 4 in let sc := scored 9 8 in let sd := scored 4 3 in
  let se := scored 7 6 in
  forallb (λ a, forallb (λ b, forallb (λ c, forallb (λ d, forallb (λ e,
    let scores := scores_of a.2 b.2 c.2 d.2 e.2 in
    choice_ok (best_of threshold scores) scores (weak_counts a.1 b.1 c.1 d.1 e.1)) se) sd) sc) sb) sa.

Lemma scored_in k n total : (k < n)%nat -> In (k, sc k total) (scored n total).
Proof. intros Hk. apply (in_map (λ k, (k, sc k total))), in_seq. lia. Qed.

Lemma all_choices_each threshold a b c d e :
  all_choices_ok threshold = true ->
  (a <= 5 /\ b <= 4 /\ c <= 8 /\ d <= 3 /\ e <= 6)%nat ->
  let scores := scores_of (sc a 5) (sc b 4) (sc c 8) (sc d 3) (sc e 6) in
  choice_ok (best_of threshold scores) scores (weak_counts a b c d e) = true.
Proof.
  intros Hall (Ha & Hb & Hc & Hd & He) scores. unfold all_choices_ok in Hall.
  rewrite forallb_forall in Hall. specialize (Hall _ (scored_in a 6 5 ltac:(lia))).
  rewrite forallb_forall in Hall. specialize (Hall _ (scored_in b 5 4 ltac:(lia))).
  rewrite forallb_forall in Hall. specialize (Hall _ (scored_in c 9 8 ltac:(lia))).
  rewrite forallb_forall in Hall. specialize (Hall _ (scored_in d 4 3 ltac:(lia))).
  rewrite forallb_forall in Hall. exact (Hall _ (scored_in e 7 6 ltac:(lia))).
Qed.
End Choices.

Lemma all_choices : all_choices_ok score_of (f64_lit 15 2) = true.
Proof. vm_compute. reflexivity. Qed.

(** ** Lemmas: substrings *)

Lemma starts_with_app p q s : starts_with (p ++ q) s = true -> starts_with p s = true.
Proof.
  revert s. induction p as [|c p IH]; intros [|d s]; simpl; try done.
  destruct (c =? d); simpl; [apply IH|done].
Qed.
Lemma str_contains_app s p q : str_contains s (p ++ q) = true -> str_contains s p = true.
Proof.
  induction s as [|c s IH]; intros Hs; cbn [str_contains] in *; apply orb_true_iff in Hs as [Hs|Hs];
    apply orb_true_iff; [left; by eapply starts_with_app|done|left; by eapply starts_with_app|right; auto].
Qed.

(** The patterns that can be the first to match: one that starts with an earlier pattern cannot. *)
Fixpoint prune (earlier table : list (string * string)) : list (string * string) :=
  match table with
  | [] => []
  | pl :: table' =>
      if existsb (λ e, starts_with (lit e.1) (lit pl.1)) earlier then prune earlier table'
      else pl :: prune (pl :: earlier) table'
  end.

Lemma first_label_prune lower earlier table :
  Forall (λ e, str_contains lower (lit e.1) = false) earlier ->
  first_label (str_contains lower) table = first_label (str_contains lower) (prune earlier table).
Proof.
  revert earlier. induction table as [|[p l] table IH]; intros earlier He; simpl; [done|].
  destruct (existsb _ earlier) eqn:Hex.
  - apply existsb_exists in Hex as (e & Hin & Hpre). simpl in Hpre.
    apply starts_with_iff in Hpre as [q Hq]. rewrite Hq.
    destruct (str_contains lower (lit e.1 ++ q)) eqn:Hp; [|by apply IH].
    apply str_contains_app in Hp. rewrite Forall_forall in He.
    rewrite (He e) in Hp by by apply list_elem_of_In. done.
  - simpl. destruct (str_contains lower (lit p)) eqn:Hp; [done|]. apply IH. by constructor.
Qed.

Lemma first_label_in test table l : first_label test table = Some l -> l ∈ (λ pl, lit pl.2) <$> table.
Proof.
  induction table as [|[p l1] table IH]; simpl; [done|].
  destruct (test (lit p)); [intros [= <-]; left|intros Hl; right; auto].
Qed.

(** ** Properties *)

(** The two tables agree, and a clarification dialogue is bounded: for every type of document,
    the fields a dialogue may ask for are at most five, required ones first, none optional, the
    required ones are exactly those of the minimum requirements, in the same order and with the
    same suggestions, and every recommended field of the minimum requirements is a field of the
    standards. *)
Lemma requirements_agree (content_type : ContentType) :
  let fields := get_clarification_fields content_type in
  let minimum := get_minimum_requirements content_type in
  (length fields <= 5)%nat /\
  Sorted (λ f g, priority_rank (fd_priority f) <= priority_rank (fd_priority g))%nat fields /\
  Forall (λ f, fd_priority f <> Optional) fields /\
  ((λ f, (fd_field_id f, fd_suggestions f)) <$> filter (λ f, fd_priority f = Required) fields =
   (λ r, (mr_field_id r, mr_suggestions r)) <$> required_fields minimum) /\
  Forall (λ r, mr_field_id r ∈ fd_field_id <$> get_standards_for_content_type content_type)
    (recommended_fields minimum).
Proof.
  destruct content_type; (split; [vm_compute; lia|]); (split; [repeat constructor|]);
    (split; [repeat constructor; discriminate|]); (split; [reflexivity|]);
    (apply (bool_decide_unpack _); vm_compute; exact I).
Qed.

(** The grades ten to twelve are not recognised: a prompt that mentions "kelas 1", and so one
    that mentions "kelas 10", "kelas 11" or "kelas 12", is for "SD Kelas 1", and no prompt whatever
    is for "SMA Kelas 11" or "SMA Kelas 12". *)
Lemma target_audience_misses_upper_grades `{CaseTables} `{Regexes} (prompt q : str) :
  let lower := to_lowercase prompt in
  (str_contains lower (lit "kelas 1" ++ q) = true -> detect_target_audience prompt = Some (lit "SD Kelas 1")) /\
  detect_target_audience prompt <> Some (lit "SMA Kelas 11") /\
  detect_target_audience prompt <> Some (lit "SMA Kelas 12").
Proof.
  intros lower. unfold detect_target_audience. fold lower. split.
  - intros Hc%str_contains_app. unfold grade_patterns. cbn [first_label]. by rewrite Hc.
  - rewrite (first_label_prune lower [] grade_patterns) by constructor.
    destruct (first_label (str_contains lower) _) as [l|] eqn:Hl.
    + apply first_label_in in Hl. revert Hl. clear.
      split; intros [= ->]; revert Hl; apply (bool_decide_unpack _); vm_compute; exact I.
    + destruct (first_label _ standalone_levels) as [l'|] eqn:Hl'; [|done].
      apply first_label_in in Hl'. split; intros [= ->]; revert Hl'; apply (bool_decide_unpack _); vm_compute; exact I.
Qed.

(** The detected type of document has the highest score; it is never an assessment; and it is
    unknown exactly when no signal is found, or only one, of a worksheet. *)
Lemma detect_content_type_spec `{CaseTables} (prompt : str) :
  let lower := to_lowercase prompt in
  let n := signal_count lower in
  let result := detect_content_type prompt in
  result.1 <> Penilaian /\
  (result.1 = Unknown <->
   n slide_signals = 0%nat /\ n rpp_signals = 0%nat /\ (n worksheet_signals <= 1)%nat /\
   n syllabus_signals = 0%nat /\ n materi_signals = 0%nat) /\
  (result.1 = Unknown \/
   Exists (λ x, x.1 = result.1 /\ f64_le x.2 result.2 = true /\ f64_le result.2 x.2 = true) (content_scores lower) /\
   Forall (λ x, f64_le x.2 result.2 = true) (content_scores lower)).
Proof.
  intros lower n result.
  assert (content_scores lower = scores_of (score_of (n slide_signals) 5) (score_of (n rpp_signals) 4)
    (score_of (n worksheet_signals) 8) (score_of (n syllabus_signals) 3) (score_of (n materi_signals) 6)) as ->.
  { unfold content_scores. by rewrite !count_signals_score. }
  pose proof (detect_content_type_scores prompt) as Hd. cbv zeta in Hd. fold lower in Hd.
  pose proof (all_choices_each score_of (f64_lit 15 2) (n slide_signals) (n rpp_signals) (n worksheet_signals) (n syllabus_signals)
    (n materi_signals) all_choices (conj (signal_count_le _ _) (conj (signal_count_le _ _) (conj (signal_count_le _ _)
      (conj (signal_count_le _ _) (signal_count_le _ _)))))) as Hok. cbv zeta in Hok.
  unfold result. rewrite Hd. fold n. revert Hok. generalize (scores_of (score_of (n slide_signals) 5)
    (score_of (n rpp_signals) 4) (score_of (n worksheet_signals) 8) (score_of (n syllabus_signals) 3)
    (score_of (n materi_signals) 6)). intros scores. generalize (best_of (f64_lit 15 2) scores). intros best.
  unfold choice_ok, weak_counts. rewrite !andb_true_iff, negb_true_iff, bool_decide_eq_false, orb_true_iff.
  intros ((Hw & Hp) & Hm). split; [done|]. apply eqb_prop in Hw.
  rewrite <- (bool_decide_eq_true (best.1 = Unknown)), Hw.
  rewrite !andb_true_iff, !Nat.eqb_eq, Nat.leb_le. split; [tauto|].
  destruct Hm as [Hm|Hm]; [left; rewrite !andb_true_iff, !Nat.eqb_eq, Nat.leb_le in Hm; tauto|right].
  apply andb_true_iff in Hm as [He Ha]. split.
  - apply existsb_exists in He as (x & Hin & Hx). rewrite !andb_true_iff, bool_decide_eq_true in Hx.
    apply Exists_exists. exists x. split; [by apply list_elem_of_In|]. tauto.
  - rewrite forallb_forall in Ha. apply Forall_forall. intros x Hx%list_elem_of_In. by apply Ha.
Qed.

(** ** Witnesses *)

Module StandardsWitness.
#[local] Instance ascii_case : CaseTables :=
  {| lower_table c := [c]; upper_table c := [c]; sigma_is_final _ _ := false |}.
#[local] Instance no_regexes : Regexes := {| re_is_match _ _ := false; re_captures1 _ _ := None |}.

Lemma target_audience_misses_upper_grades_witness :
  str_contains (to_lowercase (lit "Soal Kelas 12 IPA")) (lit "kelas 1" ++ lit "2") = true /\
  detect_target_audience (lit "Soal Kelas 12 IPA") = Some (lit "SD Kelas 1").
Proof.
  assert (str_contains (to_lowercase (lit "Soal Kelas 12 IPA")) (lit "kelas 1" ++ lit "2") = true) as Hc
    by (vm_compute; reflexivity).
  split; [exact Hc|].
  exact (proj1 (target_audience_misses_upper_grades (lit "Soal Kelas 12 IPA") (lit "2")) Hc).
Defined.

(** An exam is of no known type, and a prompt without exercises asks for exercises. *)
Example lone_exam_unknown : (detect_content_type (lit "Buatkan ujian pecahan")).1 = Unknown.
Proof. vm_compute. reflexivity. Qed.
Example no_exercises_means_exercises : detect_include_activities (lit "Modul tanpa latihan") = Some (lit "yes").
Proof. vm_compute. reflexivity. Qed.
End StandardsWitness.
