(* ===== verification/Clarification.v ===== *)
(** * Prompt clarification (src/src/llm/clarification.rs)

    Before a generation starts, the prompt is compared with the content
    standards: what it does not say becomes a question. [preflight] looks at the
    prompt alone, [preflight_with_interpretation] at what a language model made
    of it; [enrich_prompt] puts the answers back into the prompt. *)

From stdpp Require Import base gmap list option strings sorting.
From Stdlib Require Import ZArith Lia Floats.SpecFloat.
From S2P Require Import Prelude RustStr Json Floats Text Standards.
#[local] Open Scope Z_scope.

(** ** Types *)

Record DetectedInfo := {
  di_output_type : option str;
  di_subject : option str;
  di_subject_id : option Z;
  di_audience : option str;
  di_topic : option str;
  di_content_type : str;
  di_confidence : f64
}.

Record ClarificationResponse := {
  cl_generation_id : str;
  cl_detected : DetectedInfo;
  cl_gaps : list ContentGap;
  cl_suggested_prompt : str;
  cl_is_ready : bool;
  cl_total_required_gaps : nat;
  cl_total_recommended_gaps : nat
}.

Record PreflightInput := {
  pf_raw_prompt : str;
  pf_preferred_output_type : option str;
  pf_subject_id : option Z;
  pf_sub_subject_id : option Z
}.

Record PreflightWithInterpretationInput := {
  pi_raw_prompt : str;
  pi_detected_content_type : option str;
  pi_interpreted_fields : value;
  pi_confidence_score : option f64;
  pi_llm_requires_clarification : option bool;
  pi_preferred_output_type : option str;
  pi_subject_id : option Z;
  pi_sub_subject_id : option Z
}.

(** ** Gaps *)

Definition is_field_present_in_json (v : option value) : bool :=
  match v with
  | None | Some Null => false
  | Some (String s) =>
      let trimmed := trim s in
      negb (bool_decide (trimmed = [])) && negb (bool_decide (trimmed = lit "auto"))
  | Some (Array arr) => match arr with [] => false | _ => true end
  | Some (Object m) => match m with [] => false | _ => true end
  | Some (Bool _) => true
  | Some (Number _) => true
  end.

Definition build_question (f : FieldDefinition) : str :=
  default (lit "Informasi tambahan untuk " ++ fd_label_id f ++ lit "?")
    (match_lit (fd_field_id f)
      [(lit "target_audience", lit "Untuk jenjang/kelas berapa?");
       (lit "output_type", lit "Format file apa yang Anda inginkan?");
       (lit "page_count", lit "Berapa jumlah halaman yang diinginkan?");
       (lit "slide_count", lit "Berapa jumlah slide yang diinginkan?");
       (lit "learning_objectives", lit "Apa tujuan pembelajaran dari konten ini?");
       (lit "include_activities", lit "Apakah perlu disertakan latihan/soal?");
       (lit "meeting_duration", lit "Berapa lama durasi pertemuan?");
       (lit "teaching_method", lit "Metode pembelajaran apa yang digunakan?");
       (lit "assessment_method", lit "Bagaimana cara penilaian siswa?");
       (lit "difficulty_level", lit "Tingkat kesulitan materi ini?");
       (lit "question_count", lit "Berapa jumlah soal yang diinginkan?");
       (lit "visual_density", lit "Bagaimana tampilan slide yang diinginkan?");
       (lit "speaker_notes", lit "Apakah perlu disertakan catatan presenter?")]).

Definition build_question_from_requirement (f : MinimumRequirementField) : str :=
  default (lit "Informasi tambahan untuk " ++ mr_field_label f ++ lit "?")
    (match_lit (mr_field_id f)
      [(lit "target_audience", lit "Untuk jenjang/kelas berapa materi ini ditujukan?");
       (lit "output_type", lit "Format file apa yang Anda inginkan? (PDF, Word, PowerPoint)");
       (lit "learning_objectives", lit "Apa tujuan pembelajaran dari konten ini?");
       (lit "page_count", lit "Berapa jumlah halaman yang diinginkan?");
       (lit "slide_count", lit "Berapa jumlah slide yang diinginkan?");
       (lit "include_activities", lit "Apakah perlu disertakan latihan/soal?");
       (lit "meeting_duration", lit "Berapa lama durasi pertemuan?");
       (lit "teaching_method", lit "Metode pembelajaran apa yang digunakan?");
       (lit "assessment_method", lit "Bagaimana cara penilaian siswa?");
       (lit "difficulty_level", lit "Tingkat kesulitan materi ini?");
       (lit "question_count", lit "Berapa jumlah soal yang diinginkan?");
       (lit "visual_density", lit "Bagaimana tampilan slide yang diinginkan?");
       (lit "speaker_notes", lit "Apakah perlu disertakan catatan presenter?");
       (lit "question_type", lit "Jenis soal apa yang diinginkan?")]).

Section Clarification.
Context `{CaseTables} `{Regexes}.

(** The guards of the loop that [continue]. *)
Definition given_field (raw_prompt : str) (audience output_type : option str) (subject_id : option Z)
    (id : str) : bool :=
  bool_decide (id = lit "target_audience" /\ is_Some audience)
  || bool_decide (id = lit "output_type" /\ is_Some output_type)
  || bool_decide (id = lit "subject" /\ is_Some subject_id)
  || bool_decide (is_Some (detect_field_value_from_prompt id raw_prompt)).

Definition gap_of_field (f : FieldDefinition) : ContentGap :=
  {| gap_field_id := fd_field_id f; gap_question := build_question f;
     gap_priority := priority_as_str (fd_priority f); gap_input_type := input_type_as_str (fd_input_type f);
     gap_suggestions := fd_suggestions f; gap_detected_value := None |}.

Fixpoint compute_gaps (standards : list FieldDefinition) (raw_prompt : str)
    (audience output_type : option str) (subject_id : option Z) : list ContentGap :=
  match standards with
  | [] => []
  | f :: rest =>
      if given_field raw_prompt audience output_type subject_id (fd_field_id f)
      then compute_gaps rest raw_prompt audience output_type subject_id
      else gap_of_field f :: compute_gaps rest raw_prompt audience output_type subject_id
  end.

(** One of the two loops: the fields neither present in the interpretation nor found in the prompt. *)
Definition requirement_gaps (priority : str) (fields : list MinimumRequirementField) (interpreted : value)
    (raw_prompt : str) : list ContentGap :=
  fields ≫= λ f,
    if is_field_present_in_json (get (mr_field_id f) interpreted) then []
    else match detect_field_value_from_prompt (mr_field_id f) raw_prompt with
         | Some _ => []
         | None =>
             [{| gap_field_id := mr_field_id f; gap_question := build_question_from_requirement f;
                 gap_priority := priority; gap_input_type := mr_input_type f;
                 gap_suggestions := mr_suggestions f; gap_detected_value := None |}]
         end.
Definition compute_gaps_from_interpretation (required recommended : list MinimumRequirementField)
    (interpreted : value) (raw_prompt : str) : list ContentGap :=
  let gaps := requirement_gaps (lit "required") required interpreted raw_prompt in
  let recommended_limit := (5 - length gaps)%nat in
  gaps ++ requirement_gaps (lit "recommended") (take recommended_limit recommended) interpreted raw_prompt.

(** ** The suggested prompt *)

Definition format_mentions (output : str) : list string :=
  default [] (match_lit (to_lowercase output)
    [(lit "pptx", ["ppt"; "pptx"; "powerpoint"; "slide"; "presentasi"; "slideshow"]);
     (lit "pdf", ["pdf"]); (lit "docx", ["docx"; "doc"; "word"; "dokumen"])]%string).

Definition with_audience (lower result : str) (audience : option str) : str :=
  match audience with
  | Some audience =>
      let audience_lower := to_lowercase (replace_char 95 (lit " ") audience) in
      if forallb (str_contains lower) (split_whitespace audience_lower) then result
      else result ++ lit " untuk " ++ audience
  | None => result
  end.
Definition with_format (lower result : str) (output_type : option str) : str :=
  match output_type with
  | Some output =>
      if existsb (λ s, str_contains lower (lit s)) (format_mentions output) then result
      else result ++ lit " dalam format " ++ to_uppercase output
  | None => result
  end.
Definition capitalised (result : str) : str :=
  match result with
  | [] => []
  | first :: chars =>
      let output := char_to_uppercase first ++ chars in
      if ends_with (lit ".") output || ends_with (lit "?") output || ends_with (lit "!") output
      then output else output ++ lit "."
  end.
Definition build_suggested_prompt (raw_prompt : str) (audience output_type : option str) : str :=
  let raw := trim raw_prompt in
  let lower := to_lowercase raw in
  capitalised (with_format lower (with_audience lower raw audience) output_type).

(** ** The topic *)

Definition topic_markers : list string := ["tentang "; "about "; "materi "; "topik "; "topic "]%string.
Definition ends_topic (c : Z) : bool := (c =? 46) || (c =? 44) || (c =? 33) || (c =? 63).

(** The offset is found in the lower-case text and used on the prompt: slicing may panic. *)
Fixpoint extract_topic_from (markers : list string) (lower prompt : str) : option (option str) :=
  match markers with
  | [] => Some None
  | marker :: rest_markers =>
      match find lower (lit marker) with
      | Some pos =>
          let start := (pos + str_len (lit marker))%nat in
          rest ← slice_from start prompt;
          let end_ := default (str_len rest) (find_where ends_topic rest) in
          text ← slice_to end_ rest;
          let topic := trim text in
          if negb (bool_decide (topic = [])) && (2 <? str_len topic)%nat then Some (Some topic)
          else extract_topic_from rest_markers lower prompt
      | None => extract_topic_from rest_markers lower prompt
      end
  end.
Definition extract_topic (prompt : str) : option (option str) :=
  extract_topic_from topic_markers (to_lowercase prompt) prompt.

(** ** Preflight *)

Definition chosen_output_type (preferred : option str) : option str :=
  s ← preferred; if (bool_decide (s = []) || bool_decide (s = lit "auto") : bool) then None else Some s.
Definition priority_total (p : FieldPriority) (gaps : list ContentGap) : nat :=
  length (filter (λ g, gap_priority g = priority_as_str p) gaps).

(** [new_id] is the [Uuid::new_v4()] of the call; a panic is [None]. *)
Definition preflight (new_id : str) (input : PreflightInput) : option ClarificationResponse :=
  let prompt := pf_raw_prompt input in
  let '(content_type, confidence) := detect_content_type prompt in
  let detected_audience := detect_target_audience prompt in
  let detected_output_type :=
    option_or (chosen_output_type (pf_preferred_output_type input)) (detect_output_type prompt) in
  let standards := get_clarification_fields content_type in
  let gaps := compute_gaps standards prompt detected_audience detected_output_type (pf_subject_id input) in
  let total_required_gaps := priority_total Required gaps in
  let total_recommended_gaps := priority_total Recommended gaps in
  let suggested_prompt := build_suggested_prompt prompt detected_audience detected_output_type in
  topic ← extract_topic prompt;
  Some {| cl_generation_id := new_id;
          cl_detected := {| di_output_type := detected_output_type; di_subject := None;
                            di_subject_id := pf_subject_id input; di_audience := detected_audience;
                            di_topic := topic; di_content_type := content_type_as_str content_type;
                            di_confidence := confidence |};
          cl_gaps := gaps; cl_suggested_prompt := suggested_prompt;
          cl_is_ready := (total_required_gaps =? 0)%nat;
          cl_total_required_gaps := total_required_gaps;
          cl_total_recommended_gaps := total_recommended_gaps |}.

Definition named_content_type (ct : str) (raw_prompt : str) : ContentType :=
  match match_lit ct
    [(lit "materi_pembelajaran", MateriPembelajaran); (lit "slide_presentasi", SlidePresentasi);
     (lit "rpp", Rpp); (lit "lembar_kerja", LembarKerja); (lit "silabus", Silabus);
     (lit "penilaian", Penilaian)] with
  | Some c => c
  | None => (detect_content_type raw_prompt).1
  end.

Definition interpreted_type (input : PreflightWithInterpretationInput) : ContentType * f64 :=
  match pi_detected_content_type input with
  | Some ct => (named_content_type ct (pi_raw_prompt input), default (f64_lit 6 1) (pi_confidence_score input))
  | None => detect_content_type (pi_raw_prompt input)
  end.

Definition preflight_with_interpretation (new_id : str) (input : PreflightWithInterpretationInput) :
    option ClarificationResponse :=
  let prompt := pi_raw_prompt input in
  let fields := pi_interpreted_fields input in
  let '(content_type, confidence) := interpreted_type input in
  let requirements := get_minimum_requirements content_type in
  let gaps := compute_gaps_from_interpretation (required_fields requirements)
                (recommended_fields requirements) fields prompt in
  let total_required_gaps := priority_total Required gaps in
  let total_recommended_gaps := priority_total Recommended gaps in
  let detected_audience :=
    option_or (get (lit "target_audience") fields ≫= as_str) (detect_target_audience prompt) in
  let detected_output_type :=
    option_or (chosen_output_type (pi_preferred_output_type input))
      (option_or (chosen_output_type (get (lit "output_type") fields ≫= as_str)) (detect_output_type prompt)) in
  let suggested_prompt := build_suggested_prompt prompt detected_audience detected_output_type in
  topic ← match get (lit "topic") fields ≫= as_str with
          | Some t => Some (Some t)
          | None => extract_topic prompt
          end;
  Some {| cl_generation_id := new_id;
          cl_detected := {| di_output_type := detected_output_type; di_subject := None;
                            di_subject_id := pi_subject_id input; di_audience := detected_audience;
                            di_topic := topic; di_content_type := content_type_as_str content_type;
                            di_confidence := confidence |};
          cl_gaps := gaps; cl_suggested_prompt := suggested_prompt;
          cl_is_ready := (total_required_gaps =? 0)%nat;
          cl_total_required_gaps := total_required_gaps;
          cl_total_recommended_gaps := total_recommended_gaps |}.

(** ** Enriching the prompt *)

Definition contains_all_tokens (haystack needle : str) : bool :=
  let tokens := split_whitespace (to_lowercase (replace_char 95 (lit " ") needle)) in
  match tokens with [] => false | _ => forallb (str_contains haystack) tokens end.
Definition prompt_has_quantity (haystack : str) (unit_synonyms : list string) : bool :=
  existsb is_ascii_digit haystack
  && existsb (λ syn, str_contains haystack (to_lowercase (lit syn))) unit_synonyms.
Definition mentions (haystack : str) (words : list string) : bool :=
  existsb (λ s, str_contains haystack (lit s)) words.

Notation answers := (gmap str str).
(** A label of the tables [match ... { "short" => ..., _ => answer }]. *)
Definition length_label (table : list (string * string)) (answer : str) : str :=
  default answer (lit <$> match_lit answer ((λ '(k, v), (lit k, v)) <$> table)).

Definition audience_part (h : str) (audience : str) : list str :=
  let audience_clean := replace_char 95 (lit " ") audience in
  if contains_all_tokens h audience_clean then [] else [lit "untuk jenjang " ++ audience_clean].
Definition format_part (h : str) (output : str) : list str :=
  let has_format :=
    match match_lit (to_lowercase output)
      [(lit "pptx", ["ppt"; "pptx"; "powerpoint"; "slide"; "slides"; "presentasi"; "presentation"; "slideshow"]);
       (lit "pdf", ["pdf"; "dokumen pdf"]);
       (lit "docx", ["docx"; "doc"; "word"; "dokumen word"; "lembar kerja"])]%string with
    | Some words => mentions h words
    | None => str_contains h (to_lowercase output)
    end in
  if has_format then [] else [lit "dalam format " ++ to_uppercase output].
Definition pages_part (h : str) (pages : str) : list str :=
  let label := length_label [("short", "2-3 halaman"); ("medium", "5-7 halaman"); ("long", "10+ halaman")]%string pages in
  if prompt_has_quantity h ["halaman"; "hal"; "page"; "pages"; "pg"; "pgs"]%string then []
  else [lit "sebanyak " ++ label].
Definition slides_part (h : str) (slides : str) : list str :=
  let label := length_label [("short", "8-10 slide"); ("medium", "15-20 slide"); ("long", "25+ slide")]%string slides in
  if prompt_has_quantity h ["slide"; "slides"; "halaman"; "hal"; "ppt"; "pptx"; "deck"; "presentasi"]%string then []
  else [lit "sebanyak " ++ label].
Definition objectives_part (h : str) (objectives : str) : list str :=
  let t := trim objectives in
  if bool_decide (t = []) then []
  else if str_contains h (to_lowercase t) then [] else [lit "dengan tujuan pembelajaran: " ++ t].
Definition difficulty_part (h : str) (difficulty : str) : list str :=
  if str_contains h (to_lowercase difficulty) then [] else [lit "tingkat kesulitan " ++ difficulty].
Definition count_part (h : str) (count : str) : list str :=
  if prompt_has_quantity h ["soal"; "pertanyaan"; "kuis"; "quiz"; "question"; "questions"]%string then []
  else [lit "dengan " ++ count ++ lit " soal"].
Definition method_part (h : str) (method : str) : list str :=
  let method_clean := replace_char 95 (lit " ") method in
  if str_contains h (to_lowercase method_clean) then [] else [lit "dengan metode " ++ method_clean].
Definition activities_part (h : str) (activities : str) : list str :=
  if bool_decide (activities = lit "yes") then
    if mentions h ["latihan"; "soal"; "kuis"; "aktivitas"; "activity"; "exercise"; "quiz"]%string then []
    else [lit "sertakan latihan/soal"]
  else [].

(** [if let Some(a) = answers.get(key) { ... }]. *)
Definition answered (ans : answers) (key : string) (part : str -> list str) : list str :=
  match ans !! lit key with Some a => part a | None => [] end.

(** The line of one slide: the answer under the first key hides the second. *)
Definition slide_content (ans : answers) (i : nat) : list str :=
  let n := z_to_string (Z.of_nat i) in
  let line content := if bool_decide (trim content = []) then [] else [lit "Slide " ++ n ++ lit ": " ++ content] in
  match ans !! (lit "slide_" ++ n) with
  | Some content => line content
  | None =>
      match ans !! (lit "slide_" ++ n ++ lit "_content") with
      | Some content => line content
      | None => []
      end
  end.

Definition answer_parts (h : str) (ans : answers) : list str :=
  answered ans "target_audience" (audience_part h) ++ answered ans "output_type" (format_part h)
  ++ answered ans "page_count" (pages_part h) ++ answered ans "slide_count" (slides_part h)
  ++ answered ans "learning_objectives" (objectives_part h)
  ++ answered ans "difficulty_level" (difficulty_part h) ++ answered ans "question_count" (count_part h)
  ++ answered ans "teaching_method" (method_part h)
  ++ answered ans "include_activities" (activities_part h).

(** Joining [parts[0]], the comma parts [parts[1..=other_parts_count]] and the slide details; the
    first part and the last are indexed. *)
Definition join_parts (parts : list str) (has_slide_details : bool) : option str :=
  enriched ← head parts;
  if (1 <? length parts)%nat then
    let other_parts_count := (length parts - (if has_slide_details then 2 else 1))%nat in
    let enriched :=
      if (0 <? other_parts_count)%nat
      then enriched ++ lit ", " ++ join (lit ", ") (take other_parts_count (drop 1 parts))
      else enriched in
    if has_slide_details then l ← last parts; Some (enriched ++ lit ". " ++ l) else Some enriched
  else Some enriched.

Definition clean_punctuation (s : str) : str :=
  replace (lit "..") (lit ".") (replace (lit ",.") (lit ".") (replace (lit ", ,") (lit ",") s)).

Definition enrich_prompt (raw_prompt : str) (ans : answers) : option str :=
  let raw_prompt_trimmed := trim raw_prompt in
  let h_lower := to_lowercase raw_prompt_trimmed in
  let slide_contents := seq 1 20 ≫= slide_content ans in
  let details := match slide_contents with
                 | [] => []
                 | _ => [lit "Rincian isi per slide:" ++ [10] ++ join [10] slide_contents]
                 end in
  let parts := [raw_prompt_trimmed] ++ answer_parts h_lower ans ++ details in
  enriched ← join_parts parts (match slide_contents with [] => false | _ => true end);
  Some (clean_punctuation enriched).
End Clarification.

(** ** Lemmas *)

Section Facts.
Context `{CaseTables} `{Regexes}.

Lemma compute_gaps_filter fields prompt audience output_type subject_id :
  compute_gaps fields prompt audience output_type subject_id =
  gap_of_field <$> filter (λ f, given_field prompt audience output_type subject_id (fd_field_id f) = false) fields.
Proof.
  induction fields as [|f fields IH]; simpl; [done|]. rewrite filter_cons, IH.
  by destruct (given_field _ _ _ _ (fd_field_id f)).
Qed.

Lemma priority_as_str_inj p q : priority_as_str p = priority_as_str q -> p = q.
Proof. destruct p, q; done || (intros Heq; vm_compute in Heq; discriminate Heq). Qed.

Lemma priority_total_gaps p fields :
  priority_total p (gap_of_field <$> fields) = length (filter (λ f, fd_priority f = p) fields).
Proof.
  unfold priority_total. induction fields as [|f fields IH]; [done|]. rewrite fmap_cons.
  destruct (decide (fd_priority f = p)) as [<-|Hne].
  - rewrite !filter_cons_True by done. cbn [length]. by rewrite IH.
  - rewrite !filter_cons_False; [exact IH|done|]. by intros ?%priority_as_str_inj.
Qed.

Lemma length_zero_none {A} (P : A -> Prop) `{!forall x, Decision (P x)} (l : list A) :
  length (filter P l) = 0%nat <-> Forall (λ x, ~ P x) l.
Proof.
  induction l as [|x l IH]; simpl; [split; [constructor|done]|]. rewrite filter_cons, Forall_cons.
  case_decide; simpl; [split; [done|tauto]|]. tauto.
Qed.

(** A field the model gave or the prompt shows. *)
Definition known_field (interpreted : value) (prompt : str) (f : MinimumRequirementField) : bool :=
  is_field_present_in_json (get (mr_field_id f) interpreted)
  || bool_decide (is_Some (detect_field_value_from_prompt (mr_field_id f) prompt)).

Lemma requirement_gaps_filter priority fields interpreted prompt :
  (λ g, (gap_field_id g, gap_priority g)) <$> requirement_gaps priority fields interpreted prompt =
  (λ f, (mr_field_id f, priority)) <$> filter (λ f, known_field interpreted prompt f = false) fields.
Proof.
  unfold requirement_gaps. induction fields as [|f fields IH]; [done|]. rewrite bind_cons, fmap_app, IH.
  destruct (known_field interpreted prompt f) eqn:Hk.
  - rewrite filter_cons_False by by rewrite Hk. unfold known_field in Hk.
    destruct (is_field_present_in_json _); [done|].
    by destruct (detect_field_value_from_prompt _ _).
  - rewrite filter_cons_True, fmap_cons by done. unfold known_field in Hk.
    destruct (is_field_present_in_json _); [done|].
    by destruct (detect_field_value_from_prompt _ _).
Qed.

Lemma requirement_gaps_length priority fields interpreted prompt :
  length (requirement_gaps priority fields interpreted prompt) =
  length (filter (λ f, known_field interpreted prompt f = false) fields).
Proof. by rewrite <- (length_fmap (λ g, (gap_field_id g, gap_priority g))), requirement_gaps_filter, length_fmap. Qed.

Lemma priority_total_requirement p q fields interpreted prompt :
  priority_total p (requirement_gaps (priority_as_str q) fields interpreted prompt) =
  if decide (p = q) then length (filter (λ f, known_field interpreted prompt f = false) fields) else 0%nat.
Proof.
  rewrite <- (requirement_gaps_length (priority_as_str q)). unfold priority_total.
  assert (Forall (λ g, gap_priority g = priority_as_str q)
    (requirement_gaps (priority_as_str q) fields interpreted prompt)) as Hall.
  { pose proof (requirement_gaps_filter (priority_as_str q) fields interpreted prompt) as Heq.
    revert Heq. generalize (requirement_gaps (priority_as_str q) fields interpreted prompt).
    generalize (filter (λ f, known_field interpreted prompt f = false) fields).
    intros fs gs. revert fs. induction gs as [|g gs IH]; intros [|f fs]; simpl; try done.
    intros [= _ Hp Hrest]. constructor; [done|]. by apply (IH fs). }
  revert Hall. generalize (requirement_gaps (priority_as_str q) fields interpreted prompt). intros gs Hall.
  destruct (decide (p = q)) as [->|Hne].
  - induction Hall as [|g gs Hg Hgs IH]; [done|]. rewrite filter_cons_True by done. simpl. by rewrite IH.
  - apply length_zero_none. eapply Forall_impl; [exact Hall|]. intros g -> Heq%priority_as_str_inj. done.
Qed.

Lemma lower_ascii s : ascii_str s -> to_lowercase s = (λ c, if (65 <=? c) && (c <=? 90) then c + 32 else c) <$> s.
Proof.
  unfold to_lowercase. generalize (@nil Z). intros before Hs. revert before.
  induction Hs as [|c s Hc Hs IH]; intros before; simpl; [done|]. rewrite IH.
  rewrite (proj2 (Z.eqb_neq c 931)) by lia. simpl. unfold char_to_lowercase.
  by rewrite (proj2 (Z.ltb_lt c 128)) by lia.
Qed.

Lemma lower_ascii_length s : ascii_str s -> str_len (to_lowercase s) = length s.
Proof.
  intros Hs. rewrite lower_ascii by done. rewrite ascii_str_len, length_fmap; [done|].
  apply Forall_fmap. eapply Forall_impl; [exact Hs|]. intros c Hc. unfold compose. cbn beta in *.
  destruct (Z.leb_spec 65 c), (Z.leb_spec c 90); simpl; lia.
Qed.

(** A byte offset within an ASCII text is a character boundary. *)
Lemma slice_from_ascii s n : ascii_str s -> (n <= length s)%nat -> slice_from n s = Some (drop n s).
Proof.
  intros Hs. revert n. induction Hs as [|c s Hc Hs IH]; intros [|n] Hn; simpl in *; try done; [lia|].
  assert (utf8_len c = 1%nat) as ->.
  { unfold utf8_len. by rewrite (proj2 (Z.ltb_lt c 128)) by lia. }
  simpl. rewrite Nat.sub_0_r. apply IH. lia.
Qed.

(** The markers are lower-case ASCII: an occurrence ends inside the prompt. *)
Lemma extract_topic_ascii markers prompt :
  ascii_str prompt ->
  exists r, extract_topic_from markers (to_lowercase prompt) prompt = Some r /\
    forall t, r = Some t -> (2 < str_len t)%nat /\ exists a b, prompt = a ++ t ++ b.
Proof.
  intros Hp. induction markers as [|m markers IH]; cbn [extract_topic_from]; [by eexists|].
  destruct (find (to_lowercase prompt) (lit m)) as [pos|] eqn:Hf; [|exact IH].
  apply find_Some in Hf as (a & b & Hab & ->).
  pose proof (lower_ascii_length prompt Hp) as Hlen. rewrite Hab in Hlen.
  rewrite !str_len_app in Hlen. rewrite slice_from_ascii by (done || lia). simpl.
  set (rest := drop _ prompt).
  assert (exists p, prompt = p ++ rest) as [p Hrest] by (eexists; symmetry; apply take_drop).
  assert (exists text, slice_to (default (str_len rest) (find_where ends_topic rest)) rest = Some text /\
    exists q, rest = text ++ q) as (text & -> & q & Hq).
  { destruct (find_where ends_topic rest) as [n|] eqn:Hw; simpl.
    - apply find_where_Some in Hw as (x & c & y & -> & -> & _). rewrite slice_to_app. eauto.
    - rewrite slice_to_all. exists rest. split; [done|]. exists []. by rewrite app_nil_r. }
  simpl. destruct (negb _ && _) eqn:Hok; [|exact IH]. eexists. split; [done|]. intros t [= <-].
  apply andb_true_iff in Hok as [_ Hlen2%Nat.ltb_lt]. split; [done|].
  destruct (trim_infix text) as (x & y & Hxy). exists (p ++ x), (y ++ q).
  rewrite Hrest, Hq. rewrite Hxy at 1. by rewrite <- !app_assoc.
Qed.
End Facts.

(** ** Properties *)

Section Properties.
Context `{CaseTables} `{Regexes}.

(** C21. Preflight asks for exactly what the prompt does not say: the questions are the fields of the
    detected type of document that are neither given nor found in the prompt, in the order of the
    standards and at most five, and the prompt is ready exactly when every required field is known. *)
Theorem preflight_asks_what_is_missing new_id input r (Hrun : preflight new_id input = Some r) :
  let prompt := pf_raw_prompt input in
  let fields := get_clarification_fields (detect_content_type prompt).1 in
  let given f := given_field prompt (di_audience (cl_detected r)) (di_output_type (cl_detected r))
                   (pf_subject_id input) (fd_field_id f) in
  (gap_field_id <$> cl_gaps r) = (fd_field_id <$> filter (λ f, given f = false) fields) /\
  (length (cl_gaps r) <= 5)%nat /\
  cl_total_required_gaps r = length (filter (λ f, fd_priority f = Required) (filter (λ f, given f = false) fields)) /\
  (cl_is_ready r = true <-> Forall (λ f, fd_priority f = Required -> given f = true) fields).
Proof.
  intros prompt fields. unfold preflight in Hrun. fold prompt in Hrun.
  destruct (detect_content_type prompt) as [ct confidence] eqn:Ect. simpl in fields.
  destruct (extract_topic prompt) as [topic|]; [|done]. injection Hrun as <-. cbn.
  rewrite compute_gaps_filter. fold fields.
  set (given := given_field _ _ _ _). clearbody given. split.
  { rewrite <- list_fmap_compose. reflexivity. }
  assert (length fields <= 5)%nat as Hlen by (unfold fields; destruct ct; vm_compute; lia).
  split.
  { rewrite length_fmap. etransitivity; [apply length_filter|exact Hlen]. }
  rewrite priority_total_gaps. split; [done|]. rewrite Nat.eqb_eq, length_zero_none.
  rewrite !Forall_forall. split.
  - intros Hall f Hf Hreq. destruct (given (fd_field_id f)) eqn:Hg; [done|]. exfalso.
    apply (Hall f); [|done]. by apply list_elem_of_filter.
  - intros Hall f [Hg Hf]%list_elem_of_filter Hreq. by rewrite (Hall f Hf Hreq) in Hg.
Qed.

(** Preflight over an interpretation: at most five questions, those of required fields before
    those of recommended ones; the required questions are the required fields that the model did not
    give and the prompt does not show, and the prompt is ready exactly when there are none. *)
Lemma interpretation_preflight_spec new_id input r
    (Hrun : preflight_with_interpretation new_id input = Some r) :
  let known := known_field (pi_interpreted_fields input) (pi_raw_prompt input) in
  let minimum := get_minimum_requirements (interpreted_type input).1 in
  let missing := filter (λ f, known f = false) (required_fields minimum) in
  let optional := filter (λ f, known f = false) (take (5 - length missing) (recommended_fields minimum)) in
  (length (cl_gaps r) <= 5)%nat /\
  ((λ g, (gap_field_id g, gap_priority g)) <$> cl_gaps r) =
    ((λ f, (mr_field_id f, lit "required")) <$> missing) ++
    ((λ f, (mr_field_id f, lit "recommended")) <$> optional) /\
  cl_total_required_gaps r = length missing /\
  (cl_is_ready r = true <-> Forall (λ f, known f = true) (required_fields minimum)).
Proof.
  intros known minimum missing optional. unfold preflight_with_interpretation in Hrun.
  destruct (interpreted_type input) as [ct confidence]. simpl in minimum. fold minimum in Hrun.
  destruct (match _ ≫= as_str with Some _ => _ | None => _ end) as [topic|]; [|done].
  injection Hrun as <-. cbn. unfold compute_gaps_from_interpretation.
  rewrite requirement_gaps_length. fold known missing.
  assert (length missing <= 3)%nat as H3.
  { etransitivity; [apply length_filter|]. unfold minimum. destruct ct; vm_compute; lia. }
  assert (priority_total Required (requirement_gaps (lit "required") (required_fields minimum)
      (pi_interpreted_fields input) (pi_raw_prompt input) ++
    requirement_gaps (lit "recommended") (take (5 - length missing) (recommended_fields minimum))
      (pi_interpreted_fields input) (pi_raw_prompt input)) = length missing) as Htotal.
  { unfold priority_total. rewrite filter_app, length_app.
    pose proof (priority_total_requirement Required Required (required_fields minimum)
      (pi_interpreted_fields input) (pi_raw_prompt input)) as Hr.
    pose proof (priority_total_requirement Required Recommended (take (5 - length missing) (recommended_fields minimum))
      (pi_interpreted_fields input) (pi_raw_prompt input)) as Ho.
    unfold priority_total in Hr, Ho. cbn [priority_as_str] in Hr, Ho |- *. rewrite Hr, Ho. simpl. fold known missing. lia. }
  split.
  { rewrite length_app, !requirement_gaps_length. fold known missing.
    pose proof (length_filter (λ f, known f = false) (take (5 - length missing) (recommended_fields minimum))) as Hf.
    rewrite length_take in Hf. lia. }
  split; [by rewrite fmap_app, !requirement_gaps_filter|]. rewrite Htotal. split; [done|].
  rewrite Nat.eqb_eq. unfold missing. rewrite length_zero_none, !Forall_forall.
  split; intros Hall f Hf; specialize (Hall f Hf); by destruct (known f).
Qed.

(** The topic of an ASCII prompt is found without a panic, is longer than two bytes and is part of
    the prompt. The offsets are those of the lower-case text, though: once a letter grows when it is
    lowered, as the dotted capital I does, a short prompt makes the slice panic and takes the
    process down. *)
Lemma topic_offsets new_id :
  (forall prompt, ascii_str prompt -> exists r, extract_topic prompt = Some r /\
     forall t, r = Some t -> (2 < str_len t)%nat /\ exists a b, prompt = a ++ t ++ b) /\
  (lower_table 304 = [105; 775] -> forall preferred subject sub,
     preflight new_id {| pf_raw_prompt := 304 :: lit "tentang "; pf_preferred_output_type := preferred;
                         pf_subject_id := subject; pf_sub_subject_id := sub |} = None).
Proof.
  split; [intros prompt Hp; by apply extract_topic_ascii|]. intros Htable preferred subject sub.
  assert (extract_topic (304 :: lit "tentang ") = None) as Hnone.
  { unfold extract_topic. assert (to_lowercase (304 :: lit "tentang ") = 105 :: 775 :: lit "tentang ") as ->.
    { unfold to_lowercase. cbn -[lower_table]. by rewrite Htable. }
    reflexivity. }
  unfold preflight. simpl pf_raw_prompt. rewrite Hnone. by destruct (detect_content_type _).
Qed.

(** Enriching never panics, and keeps the prompt: before its punctuation is cleaned, the result is
    the trimmed prompt followed by what the answers add, which is nothing without answers. *)
Lemma enrich_prompt_keeps_prompt raw_prompt ans :
  exists added, enrich_prompt raw_prompt ans = Some (clean_punctuation (trim raw_prompt ++ added)) /\
    (ans = ∅ -> added = []).
Proof.
  unfold enrich_prompt.
  assert (forall parts details, exists added,
    join_parts ((trim raw_prompt :: parts) ++ match details with [] => [] | _ => [lit "Rincian isi per slide:" ++ [10] ++ join [10] details] end)
      (match details with [] => false | _ => true end) = Some (trim raw_prompt ++ added) /\
    (parts = [] -> details = [] -> added = [])) as Hjoin.
  { intros parts [|d details].
    - rewrite app_nil_r. unfold join_parts. cbn [head mbind option_bind].
      destruct (1 <? _)%nat eqn:Hlen; [destruct (0 <? _)%nat|].
      + eexists. split; [reflexivity|]. by intros -> _.
      + exists []. by rewrite app_nil_r.
      + exists []. by rewrite app_nil_r.
    - unfold join_parts. rewrite last_snoc. cbn [head app mbind option_bind].
      rewrite (proj2 (Nat.ltb_lt 1 _)) by (cbn [length]; rewrite length_app; cbn [length]; lia).
      destruct (0 <? _)%nat; eexists; (split; [rewrite <- ?app_assoc; reflexivity|done]). }
  destruct (Hjoin (answer_parts (to_lowercase (trim raw_prompt)) ans) (seq 1 20 ≫= slide_content ans))
    as (added & Heq & Hempty).
  simpl app in Heq |- *. rewrite Heq. exists added. split; [done|]. intros ->. apply Hempty; reflexivity.
Qed.
End Properties.

(** ** Witnesses *)

Module ClarificationWitness.
#[local] Instance dotted_case : CaseTables :=
  {| lower_table c := if c =? 304 then [105; 775] else [c]; upper_table c := [c]; sigma_is_final _ _ := false |}.
#[local] Instance no_regexes : Regexes := {| re_is_match _ _ := false; re_captures1 _ _ := None |}.

Definition sample_input : PreflightInput :=
  {| pf_raw_prompt := lit "Materi pecahan untuk kelas 5"; pf_preferred_output_type := Some (lit "auto");
     pf_subject_id := None; pf_sub_subject_id := None |}.
Lemma sample_preflight : exists r, preflight (lit "id") sample_input = Some r.
Proof. vm_compute. eexists. reflexivity. Qed.

Lemma preflight_asks_what_is_missing_witness :
  exists r, preflight (lit "id") sample_input = Some r /\ (length (cl_gaps r) <= 5)%nat.
Proof.
  destruct sample_preflight as [r Hrun]. exists r. split; [exact Hrun|].
  exact (proj1 (proj2 (preflight_asks_what_is_missing (lit "id") sample_input r Hrun))).
Defined.

(** The audience is missing, so the prompt is not ready; the format is missing too. *)
Example sample_gaps :
  (λ r, (gap_field_id <$> cl_gaps r, cl_is_ready r)) <$>
    preflight (lit "id") {| pf_raw_prompt := lit "Materi pecahan"; pf_preferred_output_type := None;
                            pf_subject_id := None; pf_sub_subject_id := None |} =
  Some ([lit "target_audience"; lit "output_type"; lit "learning_objectives"; lit "page_count";
         lit "include_activities"], false).
Proof. vm_compute. reflexivity. Qed.

Definition sample_interpretation : PreflightWithInterpretationInput :=
  {| pi_raw_prompt := lit "Buatkan penilaian"; pi_detected_content_type := Some (lit "penilaian");
     pi_interpreted_fields := obj [("target_audience"%string, jstr "SMP"); ("question_count"%string, jint 10)];
     pi_confidence_score := None; pi_llm_requires_clarification := None; pi_preferred_output_type := None;
     pi_subject_id := None; pi_sub_subject_id := None |}.
Lemma sample_interpreted : exists r, preflight_with_interpretation (lit "id") sample_interpretation = Some r.
Proof. vm_compute. eexists. reflexivity. Qed.

Lemma interpretation_preflight_spec_witness :
  exists r, preflight_with_interpretation (lit "id") sample_interpretation = Some r /\ (length (cl_gaps r) <= 5)%nat.
Proof.
  destruct sample_interpreted as [r Hrun]. exists r. split; [exact Hrun|].
  exact (proj1 (interpretation_preflight_spec (lit "id") sample_interpretation r Hrun)).
Defined.

Lemma topic_offsets_witness :
  preflight (lit "id") {| pf_raw_prompt := 304 :: lit "tentang "; pf_preferred_output_type := None;
                          pf_subject_id := None; pf_sub_subject_id := None |} = None.
Proof. exact (proj2 (topic_offsets (lit "id")) eq_refl None None None). Defined.

Example sample_enriched :
  enrich_prompt (lit " Materi pecahan ") {[ lit "target_audience" := lit "SD_Kelas_5"; lit "slide_1" := lit "Judul" ]} =
  Some (lit "Materi pecahan, untuk jenjang SD Kelas 5. Rincian isi per slide:" ++ [10] ++ lit "Slide 1: Judul").
Proof. vm_compute. reflexivity. Qed.
End ClarificationWitness.
