(* ===== verification/Lifecycle.v ===== *)
(** * The media-generation lifecycle (src/src/orchestrator/lifecycle.rs)

    The nine statuses, their string and proto encodings, the transition matrix
    and the [StatusBefore] order. *)

From stdpp Require Import base list option strings sets relations.
From Stdlib Require Import ZArith Lia.
From S2P Require Import Prelude RustStr.

Inductive MediaGenerationStatus :=
| Queued | Interpreting | Classified | Generating | Uploading | Publishing
| Completed | Failed | Cancelled.

#[export] Instance MediaGenerationStatus_eq_dec : EqDecision MediaGenerationStatus.
Proof. solve_decision. Defined.

Definition ALL : list MediaGenerationStatus :=
  [Queued; Interpreting; Classified; Generating; Uploading; Publishing; Completed; Failed; Cancelled].

Definition MINIMUM : list MediaGenerationStatus :=
  [Queued; Interpreting; Classified; Generating; Uploading; Publishing; Completed; Failed].

Definition TERMINAL : list MediaGenerationStatus := [Completed; Failed; Cancelled].

Definition is_terminal (s : MediaGenerationStatus) : bool :=
  match s with Completed | Failed | Cancelled => true | _ => false end.

Definition can_transition (from to : MediaGenerationStatus) : bool :=
  match from with
  | Queued => match to with Interpreting | Failed | Cancelled => true | _ => false end
  | Interpreting => match to with Classified | Failed | Cancelled => true | _ => false end
  | Classified => match to with Generating | Failed | Cancelled => true | _ => false end
  | Generating => match to with Uploading | Failed | Cancelled => true | _ => false end
  | Uploading => match to with Publishing | Failed | Cancelled => true | _ => false end
  | Publishing => match to with Completed | Failed => true | _ => false end
  | Completed => false
  | Failed => false
  | Cancelled => false
  end.

Definition next_statuses (s : MediaGenerationStatus) : list MediaGenerationStatus :=
  match s with
  | Queued => [Interpreting; Failed; Cancelled]
  | Interpreting => [Classified; Failed; Cancelled]
  | Classified => [Generating; Failed; Cancelled]
  | Generating => [Uploading; Failed; Cancelled]
  | Uploading => [Publishing; Failed; Cancelled]
  | Publishing => [Completed; Failed]
  | Completed => []
  | Failed => []
  | Cancelled => []
  end.

Definition retry_behavior (s : MediaGenerationStatus) : str :=
  match s with
  | Queued => lit "requeue_pending_job"
  | Interpreting => lit "resume_current_step"
  | Classified => lit "continue_to_next_step"
  | Generating => lit "resume_current_step"
  | Uploading => lit "resume_current_step"
  | Publishing => lit "resume_current_step"
  | Completed => lit "forbidden"
  | Failed => lit "restart_from_interpreting"
  | Cancelled => lit "manual_requeue_only"
  end.

Definition order_index (s : MediaGenerationStatus) : nat :=
  match s with
  | Queued => 0 | Interpreting => 1 | Classified => 2 | Generating => 3 | Uploading => 4
  | Publishing => 5 | Completed => 6 | Failed => 7 | Cancelled => 8
  end.

Definition from_proto_value (value : Z) : option MediaGenerationStatus :=
  match value with
  | 1 => Some Queued
  | 2 => Some Interpreting
  | 3 => Some Classified
  | 4 => Some Generating
  | 5 => Some Uploading
  | 6 => Some Publishing
  | 7 => Some Completed
  | 8 => Some Failed
  | 9 => Some Cancelled
  | _ => None
  end%Z.

(** [*self as i32]: the discriminants of the enum declaration. *)
Definition to_proto_value (s : MediaGenerationStatus) : Z :=
  match s with
  | Queued => 1 | Interpreting => 2 | Classified => 3 | Generating => 4 | Uploading => 5
  | Publishing => 6 | Completed => 7 | Failed => 8 | Cancelled => 9
  end%Z.

Definition from_str (s : str) : option MediaGenerationStatus :=
  match_lit s
    [ (lit "queued", Queued); (lit "interpreting", Interpreting); (lit "classified", Classified);
      (lit "generating", Generating); (lit "uploading", Uploading); (lit "publishing", Publishing);
      (lit "completed", Completed); (lit "failed", Failed); (lit "cancelled", Cancelled) ].

Definition as_str (s : MediaGenerationStatus) : str :=
  match s with
  | Queued => lit "queued"
  | Interpreting => lit "interpreting"
  | Classified => lit "classified"
  | Generating => lit "generating"
  | Uploading => lit "uploading"
  | Publishing => lit "publishing"
  | Completed => lit "completed"
  | Failed => lit "failed"
  | Cancelled => lit "cancelled"
  end.

(** The trait [StatusBefore], implemented for a status and for an optional one. *)
Class StatusBefore (S : Type) := status_before : S -> MediaGenerationStatus -> bool.

#[export] Instance status_before_status : StatusBefore MediaGenerationStatus := λ self checkpoint,
  if is_terminal self then false else (order_index self <? order_index checkpoint)%nat.

#[export] Instance status_before_option : StatusBefore (option MediaGenerationStatus) :=
  λ self checkpoint,
    match self with
    | Some status => status_before status checkpoint
    | None => true
    end.

(** [TryFrom<i32>], [TryFrom<&str>] and the [Deserialize] impl: the error carries the
    offending input. *)
Definition try_from_i32 (value : Z) : outcome str MediaGenerationStatus :=
  match from_proto_value value with
  | Some s => Ok s
  | None => Err (lit "Unknown MediaGenerationStatus proto value: " ++ z_to_string value)
  end.
Definition try_from_str (value : str) : outcome str MediaGenerationStatus :=
  match from_str value with
  | Some s => Ok s
  | None => Err (lit "Unknown MediaGenerationStatus string: " ++ value)
  end.
Definition deserialize (s : str) : outcome str MediaGenerationStatus :=
  match from_str s with
  | Some st => Ok st
  | None => Err (lit "Unknown status: " ++ s)
  end.

(** The transition matrix as a relation. *)
Definition step (s t : MediaGenerationStatus) : Prop := can_transition s t = true.

(** ** Lemmas *)

Lemma elem_of_ALL s : s ∈ ALL.
Proof. destruct s; repeat (first [left | right]). Qed.

Lemma step_order s t : step s t -> order_index s < order_index t.
Proof. unfold step. destruct s, t; simpl; intros H; try discriminate H; lia. Qed.

Lemma step_not_terminal s t : step s t -> is_terminal s = false.
Proof. unfold step. by destruct s. Qed.

Lemma tc_step_order s t : tc step s t -> order_index s < order_index t.
Proof. induction 1 as [s t H|s u t H _ IH]; apply step_order in H; lia. Qed.

Lemma tc_step_not_terminal s t : tc step s t -> is_terminal s = false.
Proof. destruct 1 as [s t H|s u t H _]; by eapply step_not_terminal. Qed.

Lemma from_str_as_str s : from_str (as_str s) = Some s.
Proof. by destruct s. Qed.

Lemma from_str_Some x s : from_str x = Some s -> x = as_str s.
Proof.
  intros H%match_lit_Some. rewrite !elem_of_cons in H.
  repeat destruct H as [[= -> ->]|H]; try done. by apply not_elem_of_nil in H.
Qed.

Lemma as_str_inj s t : as_str s = as_str t -> s = t.
Proof.
  intros H. apply (f_equal from_str) in H. rewrite !from_str_as_str in H. by injection H.
Qed.
#[export] Instance as_str_Inj : Inj (=) (=) as_str := as_str_inj.

(** The number of happy-path steps already made; failing or being cancelled counts as one more. *)
Definition step_rank (s : MediaGenerationStatus) : nat :=
  match s with Failed | Cancelled => 6 | _ => order_index s end.

Lemma step_rank_lt s t : step s t -> step_rank s < step_rank t.
Proof. unfold step. destruct s, t; simpl; intros H; try discriminate H; lia. Qed.

(** The successor of a non-terminal status on the happy path. *)
Definition main_next (s : MediaGenerationStatus) : MediaGenerationStatus :=
  match s with
  | Queued => Interpreting | Interpreting => Classified | Classified => Generating
  | Generating => Uploading | Uploading => Publishing | _ => Completed
  end.

Lemma main_step s : is_terminal s = false -> step s (main_next s).
Proof. by destruct s. Qed.

#[export] Hint Resolve step_order step_not_terminal from_str_as_str : klass.

(** ** Properties *)

(** The transition matrix [can_transition] and the table [next_statuses] agree on all
    pairs, no status may follow itself, and exactly the terminal statuses have no successor. *)
Lemma can_transition_next_statuses s t :
  (can_transition s t = true <-> t ∈ next_statuses s) /\
  can_transition s s = false /\
  (next_statuses s = [] <-> is_terminal s = true) /\
  (is_terminal s = true <-> s ∈ TERMINAL).
Proof.
  repeat split; destruct s, t; simpl; try intros H; try done; set_solver.
Qed.

(** Every chain of allowed transitions is finite: the reverse of the transition relation
    is well founded, and no chain takes more than six steps (the length of the happy path). *)
Lemma lifecycle_terminates :
  well_founded (flip step) /\ (forall n s t, nsteps step n s t -> n <= 6) /\ nsteps step 6 Queued Completed.
Proof.
  split; [|split].
  - apply (well_founded_lt_compat _ (λ s, 8 - order_index s)).
    intros t s H. unfold flip in H. pose proof (step_order _ _ H). destruct t; simpl in *; lia.
  - assert (Hlen : forall n s t, nsteps step n s t -> step_rank s + n <= step_rank t).
    { induction 1 as [s|n s u t H _ IH]; [lia|].
      apply step_rank_lt in H. lia. }
    intros n s t H. apply Hlen in H. destruct t; simpl in *; lia.
  - repeat (eapply nsteps_l; [by apply main_step|simpl]). constructor.
Qed.

(** [status_before s c] holds exactly when [c] can be reached from [s] by one or more allowed
    transitions, with one exception: a publishing generation is before [Cancelled] in the order,
    but cannot be cancelled. *)
Lemma status_before_reachable s c :
  status_before s c = true <-> tc step s c \/ (s = Publishing /\ c = Cancelled).
Proof.
  split.
  - destruct s, c; intros H; try discriminate H; try (by right);
      left; repeat first [apply tc_once; reflexivity | eapply tc_l; [by apply main_step|simpl]].
  - intros [H|[-> ->]]; [|done]. unfold status_before, status_before_status.
    rewrite (tc_step_not_terminal _ _ H). apply Nat.ltb_lt. by apply tc_step_order.
Qed.

(** The string and the proto encodings of a status are inverse to their parsers: parsing what
    was printed gives the status back, a parsed value prints to itself, and no two statuses share
    an encoding; [TryFrom] fails exactly on the values that are no encoding. *)
Lemma status_encodings_roundtrip :
  (forall s, from_str (as_str s) = Some s) /\
  (forall x s, from_str x = Some s -> as_str s = x) /\
  (forall s, from_proto_value (to_proto_value s) = Some s) /\
  (forall v s, from_proto_value v = Some s -> to_proto_value s = v) /\
  (forall v, is_ok (try_from_i32 v) = bool_decide (1 <= v <= 9)%Z).
Proof.
  split; [apply from_str_as_str|]. split; [intros x s H; symmetry; by apply from_str_Some|].
  split; [by intros []|].
  assert (Hinv : forall v s, from_proto_value v = Some s -> to_proto_value s = v).
  { intros v s. unfold from_proto_value.
    repeat case_match; intros Hs; try discriminate Hs; by injection Hs as <-. }
  split; [exact Hinv|]. intros v. unfold try_from_i32.
  destruct (from_proto_value v) as [s|] eqn:E; simpl; symmetry.
  - apply Hinv in E as <-. apply bool_decide_eq_true. destruct s; simpl; lia.
  - apply bool_decide_eq_false. intros Hv.
    assert (v ∈ [1; 2; 3; 4; 5; 6; 7; 8; 9]%Z) as Hin.
    { rewrite !elem_of_cons. lia. }
    rewrite !elem_of_cons in Hin. repeat destruct Hin as [->|Hin]; try discriminate E.
    by apply not_elem_of_nil in Hin.
Qed.
