(* ===== verification/Store.v ===== *)
(** * The media_generations table and the statements on it

    The row type, the constraints the migrations put on it, and a monad in
    which a handler runs its SQL statements. Every statement first consumes one
    [tick] of the schedule: the clock advances, and the statement may fail
    (connection lost, timeout). Quantifying over schedules quantifies over
    every pattern of infrastructure failure. *)

From stdpp Require Import base gmap list option strings fin_maps.
From Stdlib Require Import ZArith Lia.
From S2P Require Import Prelude RustStr Json.

(** A [Uuid]: 128 bits. *)
Notation uuid := Z.

(** [MediaGeneration] (src/src/db/repositories/media_generations.rs). Instants
    are nanoseconds since the epoch. *)
Record MediaGeneration := mkMediaGeneration {
  id : uuid;
  generated_from_id : option uuid;
  is_regeneration : bool;
  teacher_id : Z;
  subject_id : option Z;
  sub_subject_id : option Z;
  topic_id : option uuid;
  content_id : option uuid;
  recommended_project_id : option Z;
  raw_prompt : str;
  request_fingerprint : str;
  active_duplicate_key : option str;
  preferred_output_type : str;
  resolved_output_type : option str;
  status : str;
  llm_provider : option str;
  llm_model : option str;
  generator_provider : option str;
  generator_model : option str;
  interpretation_payload : option value;
  interpretation_audit_payload : option value;
  generation_spec_payload : option value;
  decision_payload : option value;
  orchestration_audit_payload : option value;
  delivery_payload : option value;
  generator_service_response : option value;
  storage_path : option str;
  file_url : option str;
  thumbnail_url : option str;
  mime_type : option str;
  error_code : option str;
  error_message : option str;
  generation_job_id : option uuid;
  generation_status : option str;
  s3_object_key : option str;
  presigned_download_url : option str;
  presigned_url_expires_at : option Z;
  generation_error_code : option str;
  generation_error_message : option str;
  clarification_state : option value;
  clarified_at : option Z;
  clarification_skipped : bool;
  created_at : option Z;
  updated_at : option Z
}.

#[export] Instance MediaGeneration_eta : Eta MediaGeneration := λ r,
  mkMediaGeneration (id r) (generated_from_id r) (is_regeneration r) (teacher_id r) (subject_id r)
    (sub_subject_id r) (topic_id r) (content_id r) (recommended_project_id r) (raw_prompt r)
    (request_fingerprint r) (active_duplicate_key r) (preferred_output_type r)
    (resolved_output_type r) (status r) (llm_provider r) (llm_model r) (generator_provider r)
    (generator_model r) (interpretation_payload r) (interpretation_audit_payload r)
    (generation_spec_payload r) (decision_payload r) (orchestration_audit_payload r)
    (delivery_payload r) (generator_service_response r) (storage_path r) (file_url r)
    (thumbnail_url r) (mime_type r) (error_code r) (error_message r) (generation_job_id r)
    (generation_status r) (s3_object_key r) (presigned_download_url r) (presigned_url_expires_at r)
    (generation_error_code r) (generation_error_message r) (clarification_state r) (clarified_at r)
    (clarification_skipped r) (created_at r) (updated_at r).

(** ** Column constraints (src/migrations) *)

Definition varchar (n : nat) (s : str) : bool := (length s <=? n)%nat.
Definition varchar_null (n : nat) (o : option str) : bool :=
  match o with Some s => varchar n s | None => true end.

(** [chk_media_generations_generation_status]. *)
Definition generation_status_check (o : option str) : bool :=
  match o with
  | None => true
  | Some s => bool_decide (s ∈ [lit "pending"; lit "processing"; lit "completed"; lit "failed"])
  end.

Arguments varchar : simpl never.
Arguments varchar_null : simpl never.
Arguments generation_status_check : simpl never.

(** The length and check constraints of 20260712000013_create_media_generations_table.sql and
    20260712000107_add_generation_job_tracking.sql. *)
Definition row_ok (r : MediaGeneration) : bool :=
  varchar 64 (request_fingerprint r) && varchar_null 64 (active_duplicate_key r)
  && varchar 10 (preferred_output_type r) && varchar_null 10 (resolved_output_type r)
  && varchar 20 (status r) && varchar_null 100 (llm_provider r) && varchar_null 200 (llm_model r)
  && varchar_null 100 (generator_provider r) && varchar_null 200 (generator_model r)
  && varchar_null 1024 (storage_path r) && varchar_null 255 (mime_type r)
  && varchar_null 100 (error_code r) && varchar_null 20 (generation_status r)
  && generation_status_check (generation_status r) && varchar_null 1024 (s3_object_key r)
  && varchar_null 100 (generation_error_code r).

Notation DB := (gmap uuid MediaGeneration).

(** The unique index on [active_duplicate_key], which ignores NULL. *)
Definition duplicate_key_taken (k : option str) (db : DB) : bool :=
  match k with
  | None => false
  | Some _ => existsb (λ '(_, r), bool_decide (active_duplicate_key r = k)) (map_to_list db)
  end.

(** ** Constraints and updates *)

(** Columns without a constraint. *)
Lemma row_ok_audit r v : row_ok (r <| orchestration_audit_payload := v |>) = row_ok r.
Proof. reflexivity. Qed.
Lemma row_ok_updated r v : row_ok (r <| updated_at := v |>) = row_ok r.
Proof. reflexivity. Qed.
Lemma row_ok_created r v : row_ok (r <| created_at := v |>) = row_ok r.
Proof. reflexivity. Qed.
Lemma row_ok_error_message r v : row_ok (r <| error_message := v |>) = row_ok r.
Proof. reflexivity. Qed.
#[export] Hint Rewrite row_ok_audit row_ok_updated row_ok_error_message : klass.

Ltac row_ok_split :=
  intros Hrow; unfold row_ok in *;
  repeat match goal with H : (_ && _) = true |- _ => apply andb_true_iff in H as [? ?] end;
  repeat (apply andb_true_iff; split); done.

Lemma row_ok_status r v : varchar 20 v = true -> row_ok r = true -> row_ok (r <| status := v |>) = true.
Proof. intros Hv. destruct r. row_ok_split. Qed.
Lemma row_ok_error_code r v :
  varchar_null 100 v = true -> row_ok r = true -> row_ok (r <| error_code := v |>) = true.
Proof. intros Hv. destruct r. row_ok_split. Qed.

(** ** Errors of a statement *)

(** [sqlx::Error], as far as the gateway tells them apart. *)
Inductive db_error :=
| Unavailable        (* connection or server failure *)
| ColumnDecode       (* NULL read into a non-optional type *)
| CheckViolation     (* CHECK or length constraint *)
| UniqueViolation    (* SQLSTATE 23505 *)
| ForeignKeyViolation
| RowNotFound
| UndefinedColumn (column : string)   (* SQLSTATE 42703 *)
| Protocol (msg : str).

#[export] Instance db_error_eq_dec : EqDecision db_error.
Proof. solve_decision. Defined.

(** ** The statement monad *)

Record tick := mkTick { fails : bool; elapsed : N }.

Record St := mkSt {
  committed : DB;
  working : DB;         (* what the open transaction sees *)
  began : Z;            (* NOW() of the open transaction *)
  time : Z;
  schedule : list tick
}.
#[export] Instance St_eta : Eta St := λ s, mkSt (committed s) (working s) (began s) (time s) (schedule s).

Definition M (E A : Type) : Type := St -> outcome E A * St.

#[export] Instance M_ret {E} : MRet (M E) := λ A a s, (Ok a, s).
#[export] Instance M_bind {E} : MBind (M E) := λ A B k m s,
  match m s with
  | (Ok a, s') => k a s'
  | (Err e, s') => (Err e, s')
  | (Panic, s') => (Panic, s')
  end.

Definition action {E A} (f : St -> outcome E A * St) : M E A := f.
Definition throw {E A} (e : E) : M E A := λ s, (Err e, s).
(** A pure computation that may panic. *)
Definition panicking {E A} (o : option A) : M E A := λ s, (of_panicking o, s).
Definition lift {E A} (m : outcome E A) : M E A := λ s, (m, s).
(** [.map_err(f)]. *)
Definition mapping {E F A} (f : E -> F) (m : M E A) : M F A := λ s,
  let '(r, s') := m s in (map_err f r, s').
(** [let _ = m.await]: an error is dropped, a panic is not. *)
Definition ignoring_errors {E F A} (m : M E A) : M F (outcome E A) := λ s,
  match m s with
  | (Panic, s') => (Panic, s')
  | (r, s') => (Ok r, s')
  end.

(** [Utc::now()]. *)
Definition utc_now {E} : M E Z := λ s, (Ok (time s), s).

(** Consume one tick of the schedule. *)
Definition take_tick : M db_error unit := λ s,
  match schedule s with
  | [] => (Ok (), s)
  | t :: rest =>
      let s' := s <| schedule := rest |> <| time := (time s + Z.of_N (elapsed t))%Z |> in
      if fails t then (Err Unavailable, s') else (Ok (), s')
  end.

(** A statement: its result, and the table after it. *)
Definition statement A : Type := Z -> DB -> outcome db_error (A * DB).

(** A statement outside a transaction commits by itself. *)
Definition execute {A} (q : statement A) : M db_error A :=
  _ ← take_tick;
  action (λ s, match q (time s) (committed s) with
       | Ok (a, db) => (Ok a, s <| committed := db |>)
       | Err e => (Err e, s)
       | Panic => (Panic, s)
       end).

(** [pool.begin()], a statement of the open transaction, and [tx.commit()]. A transaction that
    is dropped without commit leaves [committed] alone: that is its rollback. *)
Definition begin_tx : M db_error unit :=
  _ ← take_tick; action (λ s, (Ok (), s <| working := committed s |> <| began := time s |>)).
Definition execute_tx {A} (q : statement A) : M db_error A :=
  _ ← take_tick;
  action (λ s, match q (began s) (working s) with
       | Ok (a, db) => (Ok a, s <| working := db |>)
       | Err e => (Err e, s)
       | Panic => (Panic, s)
       end).
Definition commit_tx : M db_error unit :=
  _ ← take_tick; action (λ s, (Ok (), s <| committed := working s |>)).
Definition rollback_tx : M db_error unit := take_tick.

(** ** Statement shapes *)

(** [SELECT f FROM media_generations WHERE id = $1] with [fetch_optional]. *)
Definition select_by_id {A} (f : MediaGeneration -> A) (i : uuid) : statement (option A) :=
  λ _ db, Ok (f <$> db !! i, db).
(** The same, decoding a nullable column into a non-optional Rust type. *)
Definition select_not_null {A} (f : MediaGeneration -> option A) (i : uuid) : statement (option A) :=
  λ _ db,
    match db !! i with
    | None => Ok (None, db)
    | Some r => match f r with Some a => Ok (Some a, db) | None => Err ColumnDecode end
    end.
(** [UPDATE media_generations SET ..., updated_at = NOW() WHERE id = $1 RETURNING ...]: the new
    row, or none when no row has the id; the constraints of the table are checked. *)
Definition update_by_id (f : MediaGeneration -> MediaGeneration) (i : uuid) :
    statement (option MediaGeneration) :=
  λ now db,
    match db !! i with
    | None => Ok (None, db)
    | Some r =>
        let r' := (f r) <| updated_at := Some now |> in
        if row_ok r' then Ok (Some r', <[i := r']> db) else Err CheckViolation
    end.

(** ** External functions *)

(** [Uuid::parse_str], of the uuid crate. *)
Class UuidText := parse_uuid_str : str -> option uuid.
(** The text of the error of [Uuid::parse_str]. *)
Class UuidErrorText := uuid_error_text : str -> str.
(** [Uuid::to_string]. *)
Class UuidPrint := uuid_to_string : uuid -> str.

(** [sqlx::Error::to_string]. *)
Class DbErrorText := db_error_text : db_error -> str.

(** chrono's RFC 3339 printer and parser; an instant is in nanoseconds. *)
Class Rfc3339 := {
  to_rfc3339 : Z -> str;
  parse_from_rfc3339 : str -> option Z
}.

(** What the documented behaviour of chrono gives: printing an instant and parsing it back is the
    identity. *)
Class Rfc3339Laws `{Rfc3339} := {
  rfc3339_roundtrip : forall t, parse_from_rfc3339 (to_rfc3339 t) = Some t;
  rfc3339_nonempty : forall t, to_rfc3339 t <> []
}.

(** The order in which a scan of the table yields its rows. *)
Class HeapScan := scan : DB -> list MediaGeneration.
Class HeapScanLaws `{HeapScan} := scan_rows : forall db, scan db ≡ₚ (map_to_list db).*2.

(** The rows of the tables that [media_generations] refers to. *)
Class ForeignKeys := fk_ok : MediaGeneration -> bool.

(** ** Reasoning: weakest preconditions *)

Definition wp {E A} (m : M E A) (Q : outcome E A -> St -> Prop) (s : St) : Prop := Q (m s).1 (m s).2.

(** No statement of the schedule fails. *)
Definition healthy (s : St) : Prop := Forall (λ t, fails t = false) (schedule s).

(** What a tick leaves alone. *)
Record same_data (s s' : St) : Prop := {
  same_committed : committed s' = committed s;
  same_working : working s' = working s;
  time_mono : (time s <= time s')%Z;
  healthy_kept : healthy s -> healthy s';
  same_began : began s' = began s
}.

Lemma wp_intro {E A} (m : M E A) Q s r s' : wp m Q s -> m s = (r, s') -> Q r s'.
Proof. unfold wp. intros H Hm. by rewrite Hm in H. Qed.

Lemma wp_mono {E A} (m : M E A) (Q Q' : outcome E A -> St -> Prop) s :
  wp m Q s -> (forall r s', Q r s' -> Q' r s') -> wp m Q' s.
Proof. unfold wp. auto. Qed.

Lemma wp_ret {E A} (a : A) (Q : outcome E A -> St -> Prop) s : Q (Ok a) s -> wp (mret a) Q s.
Proof. done. Qed.

Lemma wp_action {E A} (f : St -> outcome E A * St) (Q : outcome E A -> St -> Prop) s :
  Q (f s).1 (f s).2 -> wp (action f) Q s.
Proof. done. Qed.

Lemma wp_throw {E A} (e : E) (Q : outcome E A -> St -> Prop) s : Q (Err e) s -> wp (throw e) Q s.
Proof. done. Qed.

Lemma wp_lift {E A} (m : outcome E A) (Q : outcome E A -> St -> Prop) s : Q m s -> wp (lift m) Q s.
Proof. done. Qed.

Lemma wp_panicking {E A} (o : option A) (Q : outcome E A -> St -> Prop) s :
  Q (of_panicking o) s -> wp (panicking o) Q s.
Proof. done. Qed.

Lemma wp_now {E} (Q : outcome E Z -> St -> Prop) s : Q (Ok (time s)) s -> wp utc_now Q s.
Proof. done. Qed.

Lemma wp_bind {E A B} (m : M E A) (k : A -> M E B) (Q : outcome E B -> St -> Prop) s :
  wp m (λ r s', match r with Ok a => wp (k a) Q s' | Err e => Q (Err e) s' | Panic => Q Panic s' end) s ->
  wp (m ≫= k) Q s.
Proof. unfold wp, mbind, M_bind. destruct (m s) as [[] ?]; simpl; auto. Qed.

Lemma wp_mapping {E F A} (f : E -> F) (m : M E A) (Q : outcome F A -> St -> Prop) s :
  wp m (λ r s', Q (map_err f r) s') s -> wp (mapping f m) Q s.
Proof. unfold wp, mapping. by destruct (m s). Qed.

Lemma wp_ignoring {E F A} (m : M E A) (Q : outcome F (outcome E A) -> St -> Prop) s :
  wp m (λ r s', match r with Panic => Q Panic s' | _ => Q (Ok r) s' end) s ->
  wp (ignoring_errors m) Q s.
Proof. unfold wp, ignoring_errors. destruct (m s) as [[] ?]; simpl; auto. Qed.

Lemma wp_tick (Q : outcome db_error unit -> St -> Prop) s :
  (forall s', same_data s s' -> Q (Ok ()) s' /\ (¬ healthy s -> Q (Err Unavailable) s')) ->
  wp take_tick Q s.
Proof.
  intros H. unfold wp, take_tick. destruct (schedule s) as [|t rest] eqn:E; simpl.
  - apply H. split; [done|done|lia|done|done].
  - assert (Hs : same_data s (s <| schedule := rest |> <| time := (time s + Z.of_N (elapsed t))%Z |>)).
    { split; simpl; [done|done|lia| |done]. unfold healthy. rewrite E. by inversion 1. }
    destruct (fails t) eqn:Ef; simpl; apply H; [done| |done].
    unfold healthy. rewrite E. inversion 1. congruence.
Qed.

Lemma wp_execute {A} (q : statement A) (Q : outcome db_error A -> St -> Prop) s :
  (forall s', same_data s s' ->
    (¬ healthy s -> Q (Err Unavailable) s') /\
    match q (time s') (committed s) with
    | Ok (a, db) => Q (Ok a) (s' <| committed := db |>)
    | Err e => Q (Err e) s'
    | Panic => Q Panic s'
    end) ->
  wp (execute q) Q s.
Proof.
  intros H. unfold execute. apply wp_bind, wp_tick. intros s' Hs.
  destruct (H s' Hs) as [H1 H2]. split; [|done].
  unfold wp, action. rewrite (same_committed _ _ Hs). by repeat case_match.
Qed.

Lemma wp_execute_tx {A} (q : statement A) (Q : outcome db_error A -> St -> Prop) s :
  (forall s', same_data s s' ->
    (¬ healthy s -> Q (Err Unavailable) s') /\
    match q (began s) (working s) with
    | Ok (a, db) => Q (Ok a) (s' <| working := db |>)
    | Err e => Q (Err e) s'
    | Panic => Q Panic s'
    end) ->
  wp (execute_tx q) Q s.
Proof.
  intros H. unfold execute_tx. apply wp_bind, wp_tick. intros s' Hs.
  destruct (H s' Hs) as [H1 H2]. split; [|done].
  unfold wp, action. rewrite (same_working _ _ Hs), (same_began _ _ Hs). by repeat case_match.
Qed.

Lemma wp_begin (Q : outcome db_error unit -> St -> Prop) s :
  (forall s', same_data s s' ->
    (¬ healthy s -> Q (Err Unavailable) s') /\ Q (Ok ()) (s' <| working := committed s |> <| began := time s' |>)) ->
  wp begin_tx Q s.
Proof.
  intros H. unfold begin_tx. apply wp_bind, wp_tick. intros s' Hs.
  destruct (H s' Hs) as [H1 H2]. split; [|done].
  unfold wp, action. by rewrite (same_committed _ _ Hs).
Qed.

Lemma wp_commit (Q : outcome db_error unit -> St -> Prop) s :
  (forall s', same_data s s' ->
    (¬ healthy s -> Q (Err Unavailable) s') /\ Q (Ok ()) (s' <| committed := working s |>)) ->
  wp commit_tx Q s.
Proof.
  intros H. unfold commit_tx. apply wp_bind, wp_tick. intros s' Hs.
  destruct (H s' Hs) as [H1 H2]. split; [|done].
  unfold wp, action. by rewrite (same_working _ _ Hs).
Qed.

Lemma same_data_refl s : same_data s s.
Proof. split; [done|done|lia|done|done]. Qed.

Lemma same_data_trans s1 s2 s3 : same_data s1 s2 -> same_data s2 s3 -> same_data s1 s3.
Proof.
  intros [] []. split; [congruence|congruence|lia|auto|congruence].
Qed.

(** One step of symbolic execution of a handler. *)
Ltac wp_step :=
  lazymatch goal with
  | |- wp (mbind _ _) _ _ => apply wp_bind
  | |- wp (mret _) _ _ => apply wp_ret
  | |- wp (throw _) _ _ => apply wp_throw
  | |- wp (lift _) _ _ => apply wp_lift
  | |- wp (panicking _) _ _ => apply wp_panicking
  | |- wp utc_now _ _ => apply wp_now
  | |- wp (mapping _ _) _ _ => apply wp_mapping
  | |- wp (ignoring_errors _) _ _ => apply wp_ignoring
  | |- wp begin_tx _ _ => apply wp_begin; intros ? ?; split; [intros ?|]; simpl
  | |- wp commit_tx _ _ => apply wp_commit; intros ? ?; split; [intros ?|]; simpl
  | |- wp rollback_tx _ _ => apply wp_tick; intros ? ?; split; [|intros ?]; simpl
  | |- wp take_tick _ _ => apply wp_tick; intros ? ?; split; [|intros ?]; simpl
  | |- wp (execute_tx _) _ _ => apply wp_execute_tx; intros ? ?; split; [intros ?|]; simpl
  | |- wp (execute _) _ _ => apply wp_execute; intros ? ?; split; [intros ?|]; simpl
  end.

(** Rewrite a table that ticks have left alone to the one it came from. *)
Ltac same_data_simpl :=
  repeat match goal with
  | H : same_data ?s ?s' |- context [committed ?s'] => rewrite (same_committed _ _ H); simpl
  | H : same_data ?s ?s' |- context [working ?s'] => rewrite (same_working _ _ H); simpl
  | H : same_data ?s ?s' |- context [began ?s'] => rewrite (same_began _ _ H); simpl
  end; simpl.

(** Run a handler symbolically: execute statements, split on every test, close the branches that
    leave the table alone. *)
Ltac wp_case :=
  lazymatch goal with
  | |- wp (match ?x with _ => _ end) _ _ => destruct x eqn:?; simplify_eq
  | |- match ?x with _ => _ end => destruct x eqn:?; simplify_eq
  | |- context [match of_panicking ?x with _ => _ end] => destruct x eqn:?; simpl
  | |- context [match update_by_id _ _ _ _ with _ => _ end] => unfold update_by_id at 1
  end.
Ltac wp_run :=
  repeat first [wp_step | progress same_data_simpl | wp_case]; same_data_simpl; try done.

(** Healthy schedules refute a failure branch. *)
Ltac by_healthy :=
  match goal with
  | Hn : ¬ healthy _ |- _ =>
      exfalso; apply Hn; clear Hn;
      repeat first [assumption
                   | match goal with H : same_data _ _ |- _ => apply (healthy_kept _ _ H); clear H end]
  end.
(** Symbolic execution along the healthy path. *)
Ltac wp_healthy := repeat (wp_step; simpl; try solve [by_healthy]); same_data_simpl.

(** ** Inversion of statements *)

Lemma update_by_id_Ok f i now db o db' :
  update_by_id f i now db = Ok (o, db') ->
  (db !! i = None /\ o = None /\ db' = db) \/
  (exists r, db !! i = Some r /\ row_ok ((f r) <| updated_at := Some now |>) = true /\
     o = Some ((f r) <| updated_at := Some now |>) /\
     db' = <[i := (f r) <| updated_at := Some now |>]> db).
Proof.
  unfold update_by_id. destruct (db !! i) as [r|]; [|intros [= <- <-]; by left].
  destruct (row_ok _) eqn:Hr; [|done]. intros [= <- <-]. right. by exists r.
Qed.

Lemma update_by_id_present f i now db o db' r :
  update_by_id f i now db = Ok (o, db') -> db !! i = Some r ->
  row_ok ((f r) <| updated_at := Some now |>) = true /\
  o = Some ((f r) <| updated_at := Some now |>) /\ db' = <[i := (f r) <| updated_at := Some now |>]> db.
Proof.
  intros [(Hn & _)|(r' & Hr' & Hrest)]%update_by_id_Ok Hr; [congruence|].
  by assert (r' = r) as -> by congruence.
Qed.

Lemma select_not_null_Ok {A} (f : MediaGeneration -> option A) i now db (o : option A) db' :
  select_not_null f i now db = Ok (o, db') ->
  db' = db /\ ((db !! i = None /\ o = None) \/ exists r a, db !! i = Some r /\ f r = Some a /\ o = Some a).
Proof.
  unfold select_not_null. destruct (db !! i) as [r|]; [|intros [= <- <-]; auto].
  destruct (f r) as [a|] eqn:E; [|done]. intros [= <- <-]. split; [done|]. right. eauto.
Qed.

Lemma of_panicking_Ok {E A} (o : option A) (a : A) : of_panicking (E:=E) o = Ok a -> o = Some a.
Proof. by destruct o; intros [= ->]. Qed.

(** Turn the equations that symbolic execution leaves into facts about rows. *)
Ltac sql_inv :=
  repeat match goal with
  | Hq : _ <$> ?db !! _ = Some _ |- _ =>
      apply fmap_Some in Hq as (? & ? & ?); simplify_eq
  | Hq : _ <$> ?db !! _ = None |- _ => apply fmap_None in Hq
  | Hq : of_panicking _ = Ok _ |- _ => apply of_panicking_Ok in Hq
  | Hq : update_by_id _ ?i _ ?db = Ok (_, _), Hr : ?db !! ?i = Some _ |- _ =>
      apply (update_by_id_present _ _ _ _ _ _ _ Hq) in Hr as Hq'; clear Hq;
      destruct Hq' as (? & ? & ?); simplify_eq
  end.
