(* ===== verification/StateM.v ===== *)
(** * Computations over a state that fail or panic

    The services outside the [media_generations] table run in one monad over a state of their own:
    object storage, then publication over object storage, the renderer and the tables. [zoom] runs a
    computation on a part of a larger state. [holds] is the weakest precondition of a computation
    and [st_step] its symbolic execution. *)

From stdpp Require Import base gmap list option.
From S2P Require Import Prelude.

Definition ST (S E A : Type) : Type := S -> outcome E A * S.

#[export] Instance ST_ret S E : MRet (ST S E) := λ A a s, (Ok a, s).
#[export] Instance ST_bind S E : MBind (ST S E) := λ A B k m s,
  match m s with
  | (Ok a, s') => k a s'
  | (Err e, s') => (Err e, s')
  | (Panic, s') => (Panic, s')
  end.

Section Operations.
Context {S E : Type}.

Definition failing {A} (e : E) : ST S E A := λ s, (Err e, s).
Definition returning {A} (r : outcome E A) : ST S E A := λ s, (r, s).
Definition stepping {A} (f : S -> outcome E A * S) : ST S E A := f.
(** [.ok_or(e)?]. *)
Definition ok_or {A} (e : E) (o : option A) : ST S E A := λ s,
  (match o with Some a => Ok a | None => Err e end, s).
(** [let _ = m.await]: an error becomes a value. *)
Definition attempt {F A} (m : ST S F A) : ST S E (outcome F A) := λ s,
  match m s with (Panic, s') => (Panic, s') | (r, s') => (Ok r, s') end.

(** [m] on the part [get] of the state, its errors through [f]. *)
Definition zoom {T F A} (get : S -> T) (set : T -> S -> S) (f : F -> E) (m : T -> outcome F A * T) :
    ST S E A := λ s,
  let '(r, t) := m (get s) in (map_err f r, set t s).
End Operations.

(** ** Weakest preconditions *)

Section Rules.
Context {S E : Type}.
Implicit Types s : S.

Definition holds {A} (m : ST S E A) (Q : outcome E A -> S -> Prop) s : Prop := Q (m s).1 (m s).2.

Lemma holds_run {A} (m : ST S E A) Q s r s' : holds m Q s -> m s = (r, s') -> Q r s'.
Proof. unfold holds. intros H Hm. by rewrite Hm in H. Qed.

Lemma run_holds {A} (m : ST S E A) (Q : outcome E A -> S -> Prop) s r s' :
  m s = (r, s') -> Q r s' -> holds m Q s.
Proof. unfold holds. by intros ->. Qed.

Lemma holds_mono {A} (m : ST S E A) (Q Q' : outcome E A -> S -> Prop) s :
  holds m Q s -> (forall r s', Q r s' -> Q' r s') -> holds m Q' s.
Proof. unfold holds. auto. Qed.

Lemma holds_ret {A} (a : A) (Q : outcome E A -> S -> Prop) s : Q (Ok a) s -> holds (mret a) Q s.
Proof. done. Qed.
Lemma holds_failing {A} (e : E) (Q : outcome E A -> S -> Prop) s : Q (Err e) s -> holds (failing e) Q s.
Proof. done. Qed.
Lemma holds_returning {A} (r : outcome E A) (Q : outcome E A -> S -> Prop) s : Q r s -> holds (returning r) Q s.
Proof. done. Qed.
Lemma holds_stepping {A} (f : S -> outcome E A * S) (Q : outcome E A -> S -> Prop) s :
  Q (f s).1 (f s).2 -> holds (stepping f) Q s.
Proof. done. Qed.
Lemma holds_ok_or {A} (e : E) (o : option A) (Q : outcome E A -> S -> Prop) s :
  match o with Some a => Q (Ok a) s | None => Q (Err e) s end -> holds (ok_or e o) Q s.
Proof. by destruct o. Qed.

Lemma holds_bind {A B} (m : ST S E A) (k : A -> ST S E B) (Q : outcome E B -> S -> Prop) s :
  holds m (λ r s', match r with Ok a => holds (k a) Q s' | Err e => Q (Err e) s' | Panic => Q Panic s' end) s ->
  holds (m ≫= k) Q s.
Proof. unfold holds, mbind, ST_bind. destruct (m s) as [[] ?]; simpl; auto. Qed.

Lemma holds_attempt {F A} (m : ST S F A) (Q : outcome E (outcome F A) -> S -> Prop) s :
  Q (match (m s).1 with Panic => Panic | r => Ok r end) (m s).2 -> holds (attempt m) Q s.
Proof. unfold holds, attempt. by destruct (m s) as [[] ?]. Qed.

Lemma holds_zoom {T F A} (get : S -> T) (set : T -> S -> S) (f : F -> E) (m : T -> outcome F A * T)
    (Q : outcome E A -> S -> Prop) s :
  Q (map_err f (m (get s)).1) (set (m (get s)).2 s) -> holds (zoom get set f m) Q s.
Proof. unfold holds, zoom. by destruct (m (get s)). Qed.

(** A computation whose state only moves along [R]. *)
Definition moves {A} (R : S -> S -> Prop) (m : ST S E A) : Prop := forall s, R s (m s).2.

Section Moves.
Context (R : S -> S -> Prop) `{!PreOrder R}.
Lemma moves_ret {A} (a : A) : moves R (mret a).
Proof. intros s. reflexivity. Qed.
Lemma moves_failing {A} (e : E) : moves R (failing (A:=A) e).
Proof. intros s. reflexivity. Qed.
Lemma moves_returning {A} (r : outcome E A) : moves R (returning r).
Proof. intros s. reflexivity. Qed.
Lemma moves_ok_or {A} (e : E) (o : option A) : moves R (ok_or e o).
Proof. intros s. reflexivity. Qed.
Lemma moves_attempt {F A} (m : ST S F A) :
  (forall s, R s (m s).2) -> moves R (attempt m).
Proof. intros Hm s. specialize (Hm s). unfold attempt. by destruct (m s) as [[] ?]. Qed.
Lemma moves_bind {A B} (m : ST S E A) (k : A -> ST S E B) :
  moves R m -> (forall a, moves R (k a)) -> moves R (m ≫= k).
Proof.
  intros Hm Hk s. specialize (Hm s). unfold mbind, ST_bind.
  destruct (m s) as [[a|e|] s']; simpl in *; [|done..]. etransitivity; [exact Hm|apply Hk].
Qed.
End Moves.
End Rules.

Ltac st_step :=
  lazymatch goal with
  | |- holds (mbind _ _) _ _ => apply holds_bind
  | |- holds (mret _) _ _ => apply holds_ret
  | |- holds (failing _) _ _ => apply holds_failing
  | |- holds (returning _) _ _ => apply holds_returning
  | |- holds (ok_or _ _) _ _ => apply holds_ok_or
  end.

Create HintDb moves.
#[export] Hint Resolve moves_ret moves_failing moves_returning moves_ok_or : moves.
Ltac moves_step :=
  lazymatch goal with
  | |- moves _ (mbind _ _) => apply moves_bind; [typeclasses eauto| |intros ?]
  | |- moves _ (match ?x with _ => _ end) => destruct x eqn:?
  end.
Ltac moves_auto := repeat first [moves_step | solve [eauto with moves typeclass_instances]].
