(* ===== verification/Storage.v ===== *)
(** * Object storage (src/src/storage/r2.rs)

    The upload categories, the names of the objects, and the four calls on a bucket. A bucket is a map
    from keys to objects; the requests of a run are answered from a schedule, where a request whose
    answer is lost may or may not have taken effect. *)

From stdpp Require Import base gmap list option strings.
From Stdlib Require Import ZArith Lia.
From S2P Require Import Prelude RustStr Text Store StateM.
#[local] Open Scope Z_scope.

(** ** Categories *)

Record UploadCategory := mkUploadCategory {
  uc_name : str;
  uc_path : str;
  uc_allowed_extensions : list str;
  uc_max_size_kb : Z
}.

Definition UPLOAD_CATEGORIES : list UploadCategory :=
  [ mkUploadCategory (lit "avatars") (lit "avatars") (lit <$> ["jpg"; "jpeg"; "png"; "webp"]%string) 2048;
    mkUploadCategory (lit "gallery") (lit "gallery")
      (lit <$> ["jpg"; "jpeg"; "png"; "webp"; "gif"; "svg"]%string) 5120;
    mkUploadCategory (lit "materials") (lit "materials")
      (lit <$> ["pdf"; "doc"; "docx"; "ppt"; "pptx"; "xls"; "xlsx"; "txt"; "md"]%string) 10240;
    mkUploadCategory (lit "attachments") (lit "attachments")
      (lit <$> ["jpg"; "jpeg"; "png"; "webp"; "gif"; "pdf"; "doc"; "docx"; "zip"]%string) 10240 ].

Definition get_category (name : str) : option UploadCategory :=
  List.find (λ c, bool_decide (uc_name c = name)) UPLOAD_CATEGORIES.

Definition mime_to_extension (mime : str) : option str :=
  let named s := bool_decide (mime = lit s) in
  if named "image/jpeg"%string then Some (lit "jpg")
  else if named "image/png"%string then Some (lit "png")
  else if named "image/webp"%string then Some (lit "webp")
  else if named "image/gif"%string then Some (lit "gif")
  else if named "image/svg+xml"%string then Some (lit "svg")
  else if named "application/pdf"%string then Some (lit "pdf")
  else if named "application/msword"%string then Some (lit "doc")
  else if named "application/vnd.openxmlformats-officedocument.wordprocessingml.document"%string then Some (lit "docx")
  else if named "application/vnd.ms-powerpoint"%string then Some (lit "ppt")
  else if named "application/vnd.openxmlformats-officedocument.presentationml.presentation"%string then Some (lit "pptx")
  else if named "application/vnd.ms-excel"%string then Some (lit "xls")
  else if named "application/vnd.openxmlformats-officedocument.spreadsheetml.sheet"%string then Some (lit "xlsx")
  else if named "text/plain"%string then Some (lit "txt")
  else if named "text/markdown"%string then Some (lit "md")
  else if named "application/zip"%string then Some (lit "zip")
  else None.

(** ** Names and addresses *)

(** [char::is_alphanumeric] beyond ASCII. *)
Class AlphanumericTable := alphanumeric_table : Z -> bool.
Definition is_alphanumeric `{AlphanumericTable} (c : Z) : bool :=
  if c <? 128 then is_ascii_digit c || ((65 <=? c) && (c <=? 90)) || ((97 <=? c) && (c <=? 122))
  else alphanumeric_table c.

(** [Uuid::new_v4()] and [SystemTime::now()] are arguments; the instant is in nanoseconds. *)
Definition sanitise_filename `{UuidPrint} `{AlphanumericTable} (id : uuid) (now : Z) (stem extension : str) :
    option str :=
  random ← slice_to 8 (uuid_to_string id);
  let timestamp := Z.max 0 now `div` 1000000 in
  let slug := trim (join [32] (split_whitespace
    ((λ c, if is_alphanumeric c || (c =? 46) then c else 32) <$> stem))) in
  let slug := match slug with [] => lit "untitled" | _ => slug end in
  let ext := match extension with [] => lit "bin" | _ => extension end in
  Some (random ++ lit "_" ++ z_to_string timestamp ++ lit "_" ++ slug ++ lit "." ++ ext).

Definition generate_public_url (public_url_base path : str) : str :=
  trim_end_matches (lit "/") public_url_base ++ lit "/" ++ path.

Definition extract_object_key (public_url public_url_base : str) : option str :=
  let base := trim_end_matches (lit "/") public_url_base in
  trim_start_matches (lit "/") <$> strip_prefix base public_url.

(** ** A bucket store and its answers *)

Record StoredObject := mkStoredObject { so_bytes : list Z; so_content_type : str }.
#[export] Instance StoredObject_eq_dec : EqDecision StoredObject.
Proof. solve_decision. Defined.
Notation Objects := (gmap (str * str) StoredObject).

(** How a request ends: it is answered, or an error comes back while it may have been carried out. *)
Inductive reply := Answered | Lost (applied : bool) (error : str).

Record R2 := mkR2 {
  objects : Objects;             (* by bucket and key *)
  replies : list reply;          (* of the next requests; then all are answered *)
  fresh_ids : list uuid;         (* what [Uuid::new_v4] will give *)
  clock : list Z                 (* what [SystemTime::now] will read *)
}.
#[export] Instance R2_eta : Eta R2 := λ s, mkR2 (objects s) (replies s) (fresh_ids s) (clock s).

Notation SM := (ST R2 str).

Definition new_id : SM uuid := λ s,
  match fresh_ids s with i :: rest => (Ok i, s <| fresh_ids := rest |>) | [] => (Ok 0, s) end.
Definition system_now : SM Z := λ s,
  match clock s with t :: rest => (Ok t, s <| clock := rest |>) | [] => (Ok 0, s) end.

(** A request that changes the objects, and one that reads them. *)
Definition send (change : Objects -> Objects) : SM unit := λ s,
  match replies s with
  | [] => (Ok (), s <| objects := change (objects s) |>)
  | Answered :: rest => (Ok (), s <| objects := change (objects s) |> <| replies := rest |>)
  | Lost applied error :: rest =>
      (Err error, s <| objects := if applied then change (objects s) else objects s |> <| replies := rest |>)
  end.
Definition ask {A} (read : Objects -> A) : SM A := λ s,
  let a := read (objects s) in
  let '(r, s') := send (λ objs, objs) s in (outcome_bind r (λ _, Ok a), s').
(** [.map_err(|e| anyhow!("...{e}"))]. *)
Definition context {A} (what : str) (m : SM A) : SM A := λ s,
  let '(r, s') := m s in (map_err (app what) r, s').

Record UploadResult := mkUploadResult { ur_path : str; ur_public_url : str }.

(** [{:?}] of a list of names without special characters. *)
Definition debug_names (l : list str) : str :=
  lit "[" ++ join (lit ", ") ((λ s, [34] ++ s ++ [34]) <$> l) ++ lit "]".

Section Calls.
Context `{UuidPrint} `{AlphanumericTable}.

(** The checks of [upload]: the category and the extension of the object. *)
Definition check_upload (category : str) (size : Z) (content_type : str) : outcome str (UploadCategory * str) :=
  match get_category category with
  | None => Err (lit "unknown upload category '" ++ category ++ lit "'; valid: "
                 ++ debug_names (uc_name <$> UPLOAD_CATEGORIES))
  | Some cat =>
      let max_bytes := uc_max_size_kb cat * 1024 in
      if max_bytes <? size then
        Err (lit "file too large for category '" ++ category ++ lit "': " ++ z_to_string size
             ++ lit " bytes (max " ++ z_to_string max_bytes ++ lit " bytes / " ++ z_to_string (uc_max_size_kb cat)
             ++ lit " KB)")
      else
        match mime_to_extension content_type with
        | None => Err (lit "unsupported content type '" ++ content_type ++ lit "' for category '" ++ category ++ lit "'")
        | Some ext =>
            if negb (bool_decide (ext ∈ uc_allowed_extensions cat)) then
              Err (lit "content type '" ++ content_type ++ lit "' (" ++ [8594] ++ lit " " ++ ext
                   ++ lit ") not allowed in category '" ++ category ++ lit "'; allowed extensions: "
                   ++ debug_names (uc_allowed_extensions cat))
            else Ok (cat, ext)
        end
  end.

Definition upload (bucket public_url_base category : str) (bytes : list Z) (content_type : str) : SM UploadResult :=
  '(cat, ext) ← returning (check_upload category (Z.of_nat (length bytes)) content_type);
  random ← new_id;
  now ← system_now;
  filename ← returning (of_panicking (sanitise_filename random now (lit "file") ext));
  let object_key := uc_path cat ++ lit "/" ++ filename in
  _ ← context (lit "failed to upload '" ++ object_key ++ lit "' to R2: ")
        (send <[(bucket, object_key) := mkStoredObject bytes content_type]>);
  mret (mkUploadResult object_key (generate_public_url public_url_base object_key)).

(** An error is logged and reported as [false]. *)
Definition delete (bucket path : str) : SM bool := λ s,
  match send (base.delete (bucket, path)) s with
  | (Ok _, s') => (Ok true, s')
  | (Err _, s') => (Ok false, s')
  | (Panic, s') => (Panic, s')
  end.

Definition exists_ (bucket path : str) : SM bool :=
  context (lit "failed to check existence of '" ++ path ++ lit "': ")
    (ask (λ objs, bool_decide (is_Some (objs !! (bucket, path))))).
End Calls.

(** ** Presigned addresses, computed by the SDK without a request *)

Class Presigning := {
  presigning_config : Z -> option str;                (* the error for a duration, in seconds *)
  presigned_uri : str -> str -> Z -> str + str        (* bucket, key, seconds: the error or the address *)
}.
Definition generate_presigned_url `{Presigning} (bucket path : str) (expires_in : Z) : outcome str str :=
  match presigning_config expires_in with
  | Some e => Err (lit "failed to build presigning config: " ++ e)
  | None =>
      match presigned_uri bucket path expires_in with
      | inl e => Err (lit "failed to generate presigned URL for '" ++ path ++ lit "': " ++ e)
      | inr uri => Ok uri
      end
  end.

(** ** Lemmas: requests *)

(** [s'] differs from [s] in the objects for which [P] holds, at most. *)
Definition touches (P : str * str -> Prop) (s s' : R2) : Prop :=
  forall k, objects s' !! k <> objects s !! k -> P k.

#[export] Instance touches_preorder P : PreOrder (touches P).
Proof.
  split; [by intros s k []|]. intros s1 s2 s3 H12 H23 k Hk.
  destruct (decide (objects s2 !! k = objects s1 !! k)) as [He|He]; [|by apply H12].
  apply H23. by rewrite He.
Qed.

Lemma touches_weaken (P Q : str * str -> Prop) s s' : (forall k, P k -> Q k) -> touches P s s' -> touches Q s s'.
Proof. intros HPQ Ht k Hk. by apply HPQ, Ht. Qed.

Lemma touches_same P s s' : objects s' = objects s -> touches P s s'.
Proof. intros He k Hk. by rewrite He in Hk. Qed.

(** All requests are answered. *)
Definition reachable (s : R2) : Prop := Forall (eq Answered) (replies s).

Lemma send_spec change s :
  match (send change s).1 with
  | Ok _ => objects (send change s).2 = change (objects s)
  | Err _ => ¬ reachable s /\ (objects (send change s).2 = objects s \/ objects (send change s).2 = change (objects s))
  | Panic => False
  end /\
  (reachable s -> reachable (send change s).2) /\
  fresh_ids (send change s).2 = fresh_ids s /\ clock (send change s).2 = clock s.
Proof.
  unfold send, reachable. destruct (replies s) as [|[|applied e] rest] eqn:Er; simpl.
  - by rewrite Er.
  - repeat split; try done. by inversion 1.
  - split; [|repeat split; by inversion 1].
    split; [by inversion 1|]. destruct applied; auto.
Qed.

Lemma send_touches (P : str * str -> Prop) change s :
  (forall objs k, change objs !! k <> objs !! k -> P k) -> touches P s (send change s).2.
Proof.
  intros Hc. pose proof (send_spec change s) as [Hs _]. destruct (send change s).1.
  - intros k. rewrite Hs. apply Hc.
  - destruct Hs as [_ [Hs|Hs]]; [by apply touches_same|]. intros k. rewrite Hs. apply Hc.
  - done.
Qed.

Lemma delete_runs bucket path s :
  exists b, delete bucket path s = (Ok b, (send (base.delete (bucket, path)) s).2).
Proof.
  unfold delete. pose proof (send_spec (base.delete (bucket, path)) s) as [Hs _].
  destruct (send (base.delete (bucket, path)) s) as [[] s']; simpl in *; eauto; done.
Qed.

(** A deletion touches its key only; when the request is answered the object is gone. *)
Lemma delete_spec bucket path s :
  touches (eq (bucket, path)) s (delete bucket path s).2 /\
  (reachable s -> (delete bucket path s).1 = Ok true /\ reachable (delete bucket path s).2 /\
     objects (delete bucket path s).2 = base.delete (bucket, path) (objects s)).
Proof.
  destruct (delete_runs bucket path s) as [b Hb]. split.
  - rewrite Hb. apply send_touches. intros objs k Hk. destruct (decide ((bucket, path) = k)) as [->|Hne]; [done|].
    by rewrite lookup_delete_ne in Hk.
  - intros Hr. unfold delete. pose proof (send_spec (base.delete (bucket, path)) s) as (Hs & Hre & _).
    destruct (send (base.delete (bucket, path)) s) as [[] s']; simpl in *; [by auto|by destruct Hs|done].
Qed.

(** ** Lemmas: names *)

(** What [Uuid]'s documentation says of its text. *)
Class UuidPrintLaws `{UuidPrint} :=
  uuid_print : forall u, ascii_str (uuid_to_string u) /\ length (uuid_to_string u) = 36%nat.

Lemma mime_to_extension_nonempty mime ext : mime_to_extension mime = Some ext -> exists c t, ext = c :: t.
Proof. unfold mime_to_extension. repeat case_match; intros [= <-]; vm_compute; eauto. Qed.

Definition object_name `{UuidPrint} (id : uuid) (now : Z) (ext : str) : str :=
  take 8 (uuid_to_string id) ++ lit "_" ++ z_to_string (Z.max 0 now `div` 1000000) ++ lit "_file." ++ ext.

Lemma sanitise_filename_file `{UuidPrintLaws} `{AlphanumericTable} id now c t :
  sanitise_filename id now (lit "file") (c :: t) = Some (object_name id now (c :: t)).
Proof.
  unfold sanitise_filename, object_name. destruct (uuid_print id) as [Ha Hl].
  rewrite slice_to_ascii; [|done|by rewrite Hl; lia]. cbn [mbind option_bind].
  reflexivity.
Qed.

Lemma get_category_Some name cat :
  get_category name = Some cat -> cat ∈ UPLOAD_CATEGORIES /\ uc_name cat = name /\ uc_path cat = name.
Proof.
  unfold get_category. intros Hf. apply List.find_some in Hf as [Hin Hn].
  apply bool_decide_eq_true in Hn as <-. split; [by apply list_elem_of_In|]. split; [done|].
  repeat destruct Hin as [<-|Hin]; done.
Qed.

(** The address of an object gives back its key. *)
Lemma extract_public_url base path :
  starts_with (lit "/") path = false -> extract_object_key (generate_public_url base path) base = Some path.
Proof.
  intros Hp. unfold extract_object_key, generate_public_url, strip_prefix.
  rewrite (proj2 (starts_with_iff _ _)) by eauto. simpl. rewrite drop_app_length.
  f_equal. exact (trim_start_matches_replicate 47 1 path Hp).
Qed.

(** ** Uploads *)

(** What an upload has to satisfy. *)
Definition acceptable (category : str) (size : Z) (content_type : str) (cat : UploadCategory) (ext : str) : Prop :=
  get_category category = Some cat /\ size <= uc_max_size_kb cat * 1024 /\
  mime_to_extension content_type = Some ext /\ ext ∈ uc_allowed_extensions cat.

Lemma check_upload_spec category size content_type :
  match check_upload category size content_type with
  | Ok (cat, ext) => acceptable category size content_type cat ext
  | Err _ => forall cat ext, ¬ acceptable category size content_type cat ext
  | Panic => False
  end.
Proof.
  unfold check_upload, acceptable. destruct (get_category category) as [cat|]; [|by intros ? ? [? _]].
  destruct (_ <? size) eqn:Hs; [intros ? ? (? & ? & _); simplify_eq; lia|].
  destruct (mime_to_extension content_type) as [ext|]; [|by intros ? ? (_ & _ & ? & _)].
  destruct (bool_decide (ext ∈ uc_allowed_extensions cat)) eqn:He.
  - apply bool_decide_eq_true in He. simpl. repeat split; [lia|done].
  - apply bool_decide_eq_false in He. simpl. intros ? ? (? & _ & ? & Hin). by simplify_eq.
Qed.

Lemma reaching_step (s : R2) ids now : reachable s -> reachable (s <| fresh_ids := ids |> <| clock := now |>).
Proof. done. Qed.

Section UploadFacts.
Context `{UuidPrintLaws} `{AlphanumericTable}.

Definition upload_name (s : R2) (ext : str) : str := object_name (default 0 (head (fresh_ids s))) (default 0 (head (clock s))) ext.
Definition drawn (s : R2) : R2 := s <| fresh_ids := tail (fresh_ids s) |> <| clock := tail (clock s) |>.

(** An acceptable upload is one request, under a name of its own. *)
Lemma upload_run bucket base category bytes content_type cat ext s :
  check_upload category (Z.of_nat (length bytes)) content_type = Ok (cat, ext) ->
  let key := category ++ lit "/" ++ upload_name s ext in
  upload bucket base category bytes content_type s =
    (let '(r, s') := send <[(bucket, key) := mkStoredObject bytes content_type]> (drawn s) in
     (outcome_bind (map_err (app (lit "failed to upload '" ++ key ++ lit "' to R2: ")) r)
        (λ _, Ok (mkUploadResult key (generate_public_url base key))), s')).
Proof.
  intros Hc key. pose proof (check_upload_spec category (Z.of_nat (length bytes)) content_type) as Ha.
  rewrite Hc in Ha. destruct Ha as (Hcat & _ & Hext & _).
  apply mime_to_extension_nonempty in Hext as (c & t & ->). apply get_category_Some in Hcat as (_ & _ & Hpath).
  unfold upload, mbind, ST_bind, returning. rewrite Hc.
  assert (Hn : new_id s = (Ok (default 0 (head (fresh_ids s))), s <| fresh_ids := tail (fresh_ids s) |>)).
  { unfold new_id. by destruct s as [o r [|i l] cl]. }
  rewrite Hn.
  assert (Ht : system_now (s <| fresh_ids := tail (fresh_ids s) |>) = (Ok (default 0 (head (clock s))), drawn s)).
  { unfold system_now, drawn. by destruct s as [o r l [|i cl]]. }
  rewrite Ht, sanitise_filename_file. cbn [of_panicking]. rewrite Hpath. fold (upload_name s (c :: t)).
  unfold context. fold key. destruct (send _ (drawn s)) as [[] s']; reflexivity.
Qed.

Lemma upload_rejected bucket base category bytes content_type e s :
  check_upload category (Z.of_nat (length bytes)) content_type = Err e ->
  upload bucket base category bytes content_type s = (Err e, s).
Proof. intros Hc. unfold upload, mbind, ST_bind, returning. by rewrite Hc. Qed.

Lemma category_key category bytes content_type cat ext name :
  check_upload category bytes content_type = Ok (cat, ext) ->
  starts_with (lit "/") (category ++ lit "/" ++ name) = false.
Proof.
  intros Hc. pose proof (check_upload_spec category bytes content_type) as Ha. rewrite Hc in Ha.
  destruct Ha as (Hcat & _). apply get_category_Some in Hcat as (Hin & <- & _).
  repeat (apply elem_of_cons in Hin as [->|Hin]; [reflexivity|]). by apply elem_of_nil in Hin.
Qed.

(** [upload] never panics. It answers only for a known category, a size within its limit and a
    content type whose extension it allows; then the object is stored as sent under a key of the
    category, nothing else in the store changes, and the public address gives the key back. It refuses
    exactly what is not acceptable, without a request; any other error is a request that was lost, which
    may have left the object under the category. *)
Lemma upload_spec bucket base category bytes content_type s :
  let '(r, s') := upload bucket base category bytes content_type s in
  match r with
  | Ok u => exists cat ext,
      acceptable category (Z.of_nat (length bytes)) content_type cat ext /\
      ur_path u = category ++ lit "/" ++ upload_name s ext /\
      objects s' = <[(bucket, ur_path u) := mkStoredObject bytes content_type]> (objects s) /\
      ur_public_url u = generate_public_url base (ur_path u) /\
      extract_object_key (ur_public_url u) base = Some (ur_path u)
  | Err _ =>
      (s' = s /\ forall cat ext, ¬ acceptable category (Z.of_nat (length bytes)) content_type cat ext) \/
      (¬ reachable s /\ (exists cat ext, acceptable category (Z.of_nat (length bytes)) content_type cat ext) /\
       touches (λ k, exists ext, k = (bucket, category ++ lit "/" ++ upload_name s ext)) s s')
  | Panic => False
  end.
Proof.
  pose proof (check_upload_spec category (Z.of_nat (length bytes)) content_type) as Ha.
  destruct (check_upload category (Z.of_nat (length bytes)) content_type) as [[cat ext]|e|] eqn:Hc; [| |done].
  - rewrite (upload_run _ _ _ _ _ _ _ _ Hc). set (key := category ++ _).
    set (change := insert (bucket, key) _). pose proof (send_spec change (drawn s)) as [Hs _].
    pose proof (send_touches (eq (bucket, key)) change (drawn s)) as Ht.
    destruct (send change (drawn s)) as [[u|e|] s']; simpl in *; [| |done].
    + exists cat, ext. split; [done|]. split; [done|]. split; [exact Hs|]. split; [done|].
      apply extract_public_url. by eapply category_key.
    + right. split; [by destruct Hs|]. split; [by exists cat, ext|].
      eapply touches_weaken; [|apply Ht]; [intros k <-; by exists ext|].
      intros objs k Hk. destruct (decide ((bucket, key) = k)) as [|Hne]; [done|].
      by unfold change in Hk; rewrite lookup_insert_ne in Hk.
  - rewrite (upload_rejected _ _ _ _ _ _ _ Hc). by left.
Qed.

(** Whatever it answers, [upload] changes objects of its category only. *)
Lemma upload_moves bucket base category bytes content_type s :
  touches (λ k, exists name, k = (bucket, category ++ lit "/" ++ name)) s
    (upload bucket base category bytes content_type s).2 /\
  (reachable s -> reachable (upload bucket base category bytes content_type s).2).
Proof.
  destruct (check_upload category (Z.of_nat (length bytes)) content_type) as [[cat ext]|e|] eqn:Hc.
  - rewrite (upload_run _ _ _ _ _ _ _ _ Hc). set (key := category ++ _).
    set (change := insert (bucket, key) _). pose proof (send_spec change (drawn s)) as (_ & Hre & _).
    pose proof (send_touches (eq (bucket, key)) change (drawn s)) as Ht.
    destruct (send change (drawn s)) as [r s']; simpl in *. split; [|exact Hre].
    eapply touches_weaken; [|apply Ht]; [intros k <-; by eexists|].
    intros objs k Hk. destruct (decide ((bucket, key) = k)) as [|Hne]; [done|].
    by unfold change in Hk; rewrite lookup_insert_ne in Hk.
  - rewrite (upload_rejected _ _ _ _ _ _ _ Hc). split; [reflexivity|done].
  - pose proof (check_upload_spec category (Z.of_nat (length bytes)) content_type) as Ha. by rewrite Hc in Ha.
Qed.
End UploadFacts.

(** ** Witnesses *)

Module StorageWitness.
Definition padded_uuid : UuidPrint := λ u, replicate 36 48.
#[local] Existing Instance padded_uuid.
Definition no_letters : AlphanumericTable := λ _, false.
#[local] Existing Instance no_letters.
#[local] Instance padded_uuid_laws : UuidPrintLaws.
Proof. intros u. split; [|done]. apply Forall_replicate. lia. Qed.
Definition empty_store : R2 := mkR2 ∅ [] [] [].
Definition cut_off : R2 := mkR2 ∅ [Lost true (lit "timeout")] [] [].

(** The name of an uploaded object is always [file]; other stems keep their words. *)
Example names :
  sanitise_filename 7 1700000000123456789 (lit "  Worksheet (draft).v2 ") (lit "pdf")
    = Some (lit "00000000_1700000000123_Worksheet draft .v2.pdf") /\
  sanitise_filename 7 (-5) (lit "???") [] = Some (lit "00000000_0_untitled.bin").
Proof. split; vm_compute; reflexivity. Qed.

(** A prefix of a longer host name is taken for the base. *)
Example extraction_ignores_host_boundary :
  extract_object_key (lit "https://cdn.example.community/a.pdf") (lit "https://cdn.example.com/")
    = Some (lit "munity/a.pdf").
Proof. reflexivity. Qed.

(** The same upload answered, refused, and lost with the object stored. *)
Example uploads :
  (upload (lit "b") (lit "https://cdn/") (lit "gallery") [60] (lit "image/svg+xml") empty_store).1
    = Ok (mkUploadResult (lit "gallery/00000000_0_file.svg") (lit "https://cdn/gallery/00000000_0_file.svg")) /\
  is_ok (upload (lit "b") (lit "https://cdn/") (lit "materials") [60] (lit "image/svg+xml") empty_store).1 = false /\
  (upload (lit "b") (lit "https://cdn/") (lit "gallery") [60] (lit "image/svg+xml") cut_off).1
    = Err (lit "failed to upload 'gallery/00000000_0_file.svg' to R2: timeout") /\
  objects (upload (lit "b") (lit "https://cdn/") (lit "gallery") [60] (lit "image/svg+xml") cut_off).2
    !! (lit "b", lit "gallery/00000000_0_file.svg") = Some (mkStoredObject [60] (lit "image/svg+xml")).
Proof. repeat split; vm_compute; reflexivity. Qed.

Lemma upload_spec_witness :
  exists r s' u cat ext,
    upload (lit "b") (lit "https://cdn/") (lit "gallery") [60] (lit "image/svg+xml") empty_store = (Ok r, s') /\
    r = u /\ acceptable (lit "gallery") 1 (lit "image/svg+xml") cat ext /\ ext = lit "svg" /\
    extract_object_key (ur_public_url u) (lit "https://cdn/") = Some (lit "gallery/00000000_0_file.svg").
Proof.
  pose proof (upload_spec (lit "b") (lit "https://cdn/") (lit "gallery") [60] (lit "image/svg+xml") empty_store) as Hs.
  assert (Hr : ok_value (upload (lit "b") (lit "https://cdn/") (lit "gallery") [60] (lit "image/svg+xml") empty_store).1
    = Some (mkUploadResult (lit "gallery/00000000_0_file.svg") (lit "https://cdn/gallery/00000000_0_file.svg")))
    by (vm_compute; reflexivity).
  destruct (upload _ _ _ _ _ _) as [r s']. apply ok_value_Some in Hr. simpl in Hr. rewrite Hr in Hs |- *.
  destruct Hs as (cat & ext & Ha & _ & _ & _ & He). do 5 eexists. split; [reflexivity|]. split; [reflexivity|].
  split; [exact Ha|]. split; [|exact He].
  destruct Ha as (_ & _ & Hm & _). apply (inj Some). rewrite <- Hm. reflexivity.
Defined.
End StorageWitness.
