(* ===== verification/Effects.v ===== *)
(** * What an operation may do to the table

    A relation between the table before and the table after, closed under
    composition, is kept by a handler when it is kept by each of its
    statements: [preserves R m]. The relation used throughout is [advances]: no
    row disappears, and statuses only move along the transition matrix. *)

From stdpp Require Import base gmap list option strings fin_maps relations.
From Stdlib Require Import ZArith Lia.
From S2P Require Import Prelude RustStr Json Lifecycle Store.

Definition preserves (R : DB -> DB -> Prop) {E A} (m : M E A) : Prop :=
  forall s, R (committed s) (committed (m s).2).

Section Preserves.
Context (R : DB -> DB -> Prop) `{!PreOrder R}.

Lemma preserves_ret {E A} (a : A) : preserves R (mret (M:=M E) a).
Proof. intros s. simpl. reflexivity. Qed.
Lemma preserves_throw {E A} (e : E) : preserves R (throw (A:=A) e).
Proof. intros s. simpl. reflexivity. Qed.
Lemma preserves_lift {E A} (o : outcome E A) : preserves R (lift o).
Proof. intros s. simpl. reflexivity. Qed.
Lemma preserves_panicking {E A} (o : option A) : preserves R (panicking (E:=E) o).
Proof. intros s. simpl. reflexivity. Qed.
Lemma preserves_now {E} : preserves R (utc_now (E:=E)).
Proof. intros s. simpl. reflexivity. Qed.

Lemma preserves_bind {E A B} (m : M E A) (k : A -> M E B) :
  preserves R m -> (forall a, preserves R (k a)) -> preserves R (m ≫= k).
Proof.
  intros Hm Hk s. specialize (Hm s). unfold mbind, M_bind.
  destruct (m s) as [[a|e|] s1]; simpl in *; [|done|done].
  etransitivity; [exact Hm|]. apply Hk.
Qed.

Lemma preserves_mapping {E F A} (f : E -> F) (m : M E A) : preserves R m -> preserves R (mapping f m).
Proof. intros Hm s. specialize (Hm s). unfold mapping. by destruct (m s). Qed.

Lemma preserves_ignoring {E F A} (m : M E A) : preserves R m -> preserves R (ignoring_errors (F:=F) m).
Proof. intros Hm s. specialize (Hm s). unfold ignoring_errors. by destruct (m s) as [[] ?]. Qed.

Lemma preserves_execute {A} (q : statement A) :
  (forall now db a db', q now db = Ok (a, db') -> R db db') -> preserves R (execute q).
Proof.
  intros Hq s.
  apply (wp_execute q (λ _ s', R (committed s) (committed s')) s). intros s' Hs.
  split; [intros _; rewrite (same_committed _ _ Hs); reflexivity|].
  destruct (q (time s') (committed s)) as [[a db]|e|] eqn:E; simpl.
  - by eapply Hq.
  - rewrite (same_committed _ _ Hs). reflexivity.
  - rewrite (same_committed _ _ Hs). reflexivity.
Qed.

(** A handler whose weakest precondition is known. *)
Lemma preserves_wp {E A} (m : M E A) :
  (forall s, wp m (λ _ s', R (committed s) (committed s')) s) -> preserves R m.
Proof. intros Hm s. apply Hm. Qed.
End Preserves.

Lemma wp_keeps {E A} (R : DB -> DB -> Prop) (m : M E A) s :
  preserves R m -> wp m (λ _ s', R (committed s) (committed s')) s.
Proof. intros Hm. apply Hm. Qed.

Lemma wp_true {E A} (m : M E A) s : wp m (λ _ _, True) s.
Proof. done. Qed.

(** Statements that read. *)
Lemma select_by_id_reads {A} (f : MediaGeneration -> A) i now db a db' :
  select_by_id f i now db = Ok (a, db') -> db' = db.
Proof. by intros [= _ <-]. Qed.

(** ** The relation [advances] *)

(** A status column moves along the matrix, or stays. *)
Definition moved (x y : str) : Prop :=
  x = y \/ exists a b, x = as_str a /\ y = as_str b /\ rtc Lifecycle.step a b.

#[export] Instance moved_preorder : PreOrder moved.
Proof.
  split; [by left|]. intros x y z [->|(a & b & -> & -> & Hab)]; [done|].
  intros [<-|(c & d & Hbc & -> & Hcd)]; [right; eauto|].
  apply as_str_inj in Hbc as ->. right. exists a, d. split; [done|]. split; [done|]. by etransitivity.
Qed.

Definition advances (db db' : DB) : Prop :=
  (forall i r, db !! i = Some r -> exists r', db' !! i = Some r' /\ moved (status r) (status r')).

#[export] Instance advances_preorder : PreOrder advances.
Proof.
  split; [intros db i r Hr; by exists r|].
  intros d1 d2 d3 H12 H23 i r Hr.
  destruct (H12 i r Hr) as (r2 & Hr2 & Hm2). destruct (H23 i r2 Hr2) as (r3 & Hr3 & Hm3).
  exists r3. split; [done|]. by etransitivity.
Qed.

Lemma advances_insert db i r r' :
  db !! i = Some r -> moved (status r) (status r') -> advances db (<[i := r']> db).
Proof.
  intros Hi Hm j x Hj. destruct (decide (i = j)) as [<-|Hne].
  - exists r'. rewrite lookup_insert_eq. split; [done|]. by simplify_eq.
  - exists x. by rewrite lookup_insert_ne.
Qed.

Lemma advances_insert_new db i r : db !! i = None -> advances db (<[i := r]> db).
Proof.
  intros Hi j x Hj. exists x. rewrite lookup_insert_ne; [done|]. intros ->. congruence.
Qed.

Lemma moved_step a b : can_transition a b = true -> moved (as_str a) (as_str b).
Proof. intros Hab. right. exists a, b. split; [done|]. split; [done|]. by apply rtc_once. Qed.

(** An update that leaves the status column alone. *)
Lemma update_keeps_status f i now db o db' :
  (forall r, status (f r) = status r) ->
  update_by_id f i now db = Ok (o, db') -> advances db db'.
Proof.
  intros Hf [(_ & _ & ->)|(r & Hr & _ & _ & ->)]%update_by_id_Ok; [done|].
  eapply advances_insert; [done|]. simpl. rewrite Hf. reflexivity.
Qed.

(** A finished row keeps its status under [advances]. *)
Lemma advances_terminal db db' i r st :
  advances db db' -> db !! i = Some r -> status r = as_str st -> is_terminal st = true ->
  exists r', db' !! i = Some r' /\ status r' = as_str st.
Proof.
  intros Ha Hr Hst Hterm. destruct (Ha i r Hr) as (r' & Hr' & Hm). exists r'. split; [done|].
  destruct Hm as [<-|(a & b & Ha' & -> & Hab)]; [done|].
  rewrite Hst in Ha'. apply as_str_inj in Ha' as <-.
  destruct Hab as [|a c b Hstep]; [done|]. apply step_not_terminal in Hstep. congruence.
Qed.

(** Compose [preserves] along the structure of a handler. *)
Create HintDb preserves.
#[export] Hint Resolve preserves_ret preserves_throw preserves_lift preserves_panicking preserves_now
  : preserves.
Ltac preserves_step :=
  lazymatch goal with
  | |- preserves _ (mbind _ _) => apply preserves_bind; [typeclasses eauto| |intros ?]
  | |- preserves _ (mapping _ _) => apply preserves_mapping
  | |- preserves _ (ignoring_errors _) => apply preserves_ignoring
  | |- preserves _ (execute (select_by_id _ _)) =>
      apply preserves_execute; [typeclasses eauto|
        let H := fresh in intros ? ? ? ? H; apply select_by_id_reads in H as ->; reflexivity]
  | |- preserves _ (match ?x with _ => _ end) => destruct x eqn:?
  end.
Ltac preserves_auto := repeat first [preserves_step | solve [eauto with preserves typeclass_instances]].
