(* ===== verification/Samples.v ===== *)
(** * Sample instances

    Concrete external functions and a concrete table, on which the witnesses
    of the properties are evaluated. Nothing else uses them. *)

From stdpp Require Import base gmap list option strings fin_maps.
From Stdlib Require Import ZArith Lia Floats.SpecFloat.
From S2P Require Import Prelude RustStr Json Canon Store.

(** Identifiers and instants printed in decimal. *)
Definition decimal_uuid : UuidText := parse_decimal.
Definition decimal_uuid_error : UuidErrorText := λ s, lit "invalid number: " ++ s.
Definition decimal_print : UuidPrint := z_to_string.
Definition decimal_time : Rfc3339 := {|
  to_rfc3339 := z_to_string;
  parse_from_rfc3339 := parse_decimal
|}.
Lemma decimal_time_laws : @Rfc3339Laws decimal_time.
Proof. split; [apply parse_decimal_to_string|apply z_to_string_nonempty]. Qed.

(** A queued generation of teacher 7. *)
Definition sample_row : MediaGeneration :=
  mkMediaGeneration 1 None false 7 None None None None None (lit "make a quiz") (lit "fp")
    (Some (lit "k1")) (lit "pdf") None (lit "queued") None None None None None None None None None
    None None None None None None None None None None None None None None None None None false
    (Some 0%Z) (Some 0%Z).

Definition sample_db : DB := {[ 1%Z := sample_row ]}.

(** A store at instant [now] whose statements each take a second and succeed. *)
Definition sample_state (db : DB) (now : Z) : St := mkSt db ∅ now now (replicate 20 (mkTick false 1000000000)).

Lemma sample_healthy db now : healthy (sample_state db now).
Proof. unfold healthy, sample_state. simpl. repeat constructor. Qed.

(** A scan in key order. *)
Definition table_scan : HeapScan := λ db, (map_to_list db).*2.
Lemma table_scan_laws : @HeapScanLaws table_scan.
Proof. intros db. reflexivity. Qed.

(** All references are valid. *)
Definition no_foreign_keys : ForeignKeys := λ _, true.

(** ASCII only: characters above the range stay as they are. *)
Definition plain_case : CaseTables := {|
  lower_table c := [c]; upper_table c := [c]; sigma_is_final _ _ := false
|}.

(** JSON text: strings with their quotation marks and backslashes escaped, floats by mantissa and
    exponent. *)
Definition escape_char (c : Z) : str := if (c =? 34)%Z || (c =? 92)%Z then [92; c]%Z else [c].
Definition float_text (f : spec_float) : str :=
  match f with
  | S754_zero s => if s then lit "-0.0" else lit "0.0"
  | S754_infinity s => if s then lit "-1.0" else lit "1.0"
  | S754_nan => lit "2.0"
  | S754_finite s m e => z_to_string (if s then Z.neg m else Z.pos m) ++ lit "e" ++ z_to_string e
  end.
Definition plain_lex : JsonLex := {|
  json_quote s := [34%Z] ++ (s ≫= escape_char) ++ [34%Z];
  json_number n := match n with NInt z => z_to_string z | NFloat f => float_text f end
|}.

Lemma escape_ends s s' x x' :
  (s ≫= escape_char) ++ 34%Z :: x = (s' ≫= escape_char) ++ 34%Z :: x' -> s = s' /\ x = x'.
Proof.
  revert s'. induction s as [|c s IH]; intros [|c' s']; simpl.
  - by intros [= ->].
  - unfold escape_char at 1. destruct ((c' =? 34)%Z || (c' =? 92)%Z) eqn:E; simpl; [done|].
    intros [= <- _]. done.
  - unfold escape_char at 1. destruct ((c =? 34)%Z || (c =? 92)%Z) eqn:E; simpl; [done|].
    intros [= -> _]. done.
  - unfold escape_char at 1 3.
    destruct ((c =? 34)%Z || (c =? 92)%Z) eqn:E, ((c' =? 34)%Z || (c' =? 92)%Z) eqn:E'; simpl.
    + intros [= -> [-> ->]%IH]. done.
    + intros [= <- _]. by rewrite orb_true_r in E'.
    + intros [= -> _]. by rewrite orb_true_r in E.
    + intros [= -> [-> ->]%IH]. done.
Qed.

Lemma decimal_chars (P : Z -> Prop) z :
  P 45%Z -> (forall c, (48 <= c <= 57)%Z -> P c) -> Forall P (z_to_string z).
Proof. intros H45 Hd. eapply Forall_impl; [apply z_to_string_range|]. intros c [->|Hc]; auto. Qed.

Lemma decimal_no (c : Z) z : c <> 45%Z -> ~ (48 <= c <= 57)%Z -> c ∉ z_to_string z.
Proof. intros H45 Hd Hin. destruct (proj1 (Forall_forall _ _) (z_to_string_range z) c Hin); auto. Qed.

Lemma float_text_inj f f' : float_text f = float_text f' -> f = f'.
Proof.
  assert (forall s m e x, 101%Z ∉ x -> float_text (S754_finite s m e) <> x) as Hfin.
  { intros s m e x Hx Heq. apply Hx. rewrite <- Heq. simpl. apply elem_of_app. right. by left. }
  assert (forall c : Z, c = 101%Z -> forall f, (match f with S754_finite _ _ _ => False | _ => True end) ->
    c ∉ float_text f) as Hno.
  { intros c -> [[]|[]| |]; simpl; intros ?; [..|done]; apply (bool_decide_unpack _); vm_compute; exact I. }
  destruct f as [[]|[]| |s m e], f' as [[]|[]| |s' m' e'];
    try (intros Heq; first
      [ exfalso; eapply Hfin; [|exact Heq]; apply (Hno _ eq_refl); exact I
      | exfalso; eapply Hfin; [|symmetry; exact Heq]; apply (Hno _ eq_refl); exact I
      | vm_compute in Heq; discriminate Heq | reflexivity ]).
  simpl. intros Heq. apply span_inj with (P := λ c, negb (c =? 101)%Z) in Heq as [Hm He].
  - apply z_to_string_inj in Hm. injection He as He%z_to_string_inj. subst. by destruct s, s'; try discriminate Hm; injection Hm as ->.
  - apply decimal_chars; [done|]. intros c Hc. by rewrite (proj2 (Z.eqb_neq c 101)) by lia.
  - apply decimal_chars; [done|]. intros c Hc. by rewrite (proj2 (Z.eqb_neq c 101)) by lia.
  - done.
  - done.
Qed.

Lemma plain_lex_laws : @JsonLexLaws plain_lex.
Proof.
  split.
  - done.
  - intros s s' x x'. simpl. rewrite <- !app_assoc. intros [= Heq]. by apply escape_ends.
  - intros [z|f]; simpl.
    + apply decimal_chars; [done|]. intros c Hc. unfold number_char.
      by rewrite (proj2 (Z.leb_le 48 c)), (proj2 (Z.leb_le c 57)) by lia.
    + destruct f as [[]|[]| |s m e]; simpl; try (repeat constructor).
      apply Forall_app. split; [|constructor; [done|]]; (apply decimal_chars; [done|]); intros c Hc;
        unfold number_char; by rewrite (proj2 (Z.leb_le 48 c)), (proj2 (Z.leb_le c 57)) by lia.
  - intros [z|f]; simpl; [apply z_to_string_nonempty|].
    destruct f as [[]|[]| |s m e]; cbn [float_text]; [discriminate..|].
    intros [_ Hnil]%app_eq_nil. discriminate Hnil.
  - intros [z|f] [z'|f']; simpl; intros Heq.
    + by apply z_to_string_inj in Heq as ->.
    + exfalso. assert (46%Z ∈ float_text f' \/ 101%Z ∈ float_text f') as [Hin|Hin].
      { destruct f' as [[]|[]| |s m e]; simpl; [left..|right];
          try (apply (bool_decide_unpack _); vm_compute; exact I). apply elem_of_app. right. by left. }
      * rewrite <- Heq in Hin. revert Hin. apply decimal_no; lia.
      * rewrite <- Heq in Hin. revert Hin. apply decimal_no; lia.
    + exfalso. assert (46%Z ∈ float_text f \/ 101%Z ∈ float_text f) as [Hin|Hin].
      { destruct f as [[]|[]| |s m e]; simpl; [left..|right];
          try (apply (bool_decide_unpack _); vm_compute; exact I). apply elem_of_app. right. by left. }
      * rewrite Heq in Hin. revert Hin. apply decimal_no; lia.
      * rewrite Heq in Hin. revert Hin. apply decimal_no; lia.
    + by apply float_text_inj in Heq as ->.
Qed.
