(* ===== verification/Interpretation.v ===== *)
(** * The interpretation contract (src/src/contracts/prompt_interpretation.rs)

    What a language model made of a teacher's prompt, schema
    media_prompt_understanding.v1: the types, their JSON form in both directions
    (serde's derived code, with the lenient field decoders of the source), and
    the validation. A payload is stored in the cache and in the row of the
    generation as JSON and read back: [decode] after [encode] is known for every
    payload. *)

From stdpp Require Import base list option strings.
From Stdlib Require Import ZArith Lia Floats.SpecFloat.
From S2P Require Import Prelude RustStr Json Floats Canon Text Parse Samples.
#[local] Open Scope Z_scope.

Definition SCHEMA_VERSION : str := lit "media_prompt_understanding.v1".

(** ** Types *)

Record TeacherIntent := mkTeacherIntent {
  ti_type : str;
  ti_goal : str;
  ti_preferred_delivery_mode : str;
  ti_requires_clarification : bool
}.

#[export] Instance TeacherIntent_eta : Eta TeacherIntent := λ p,   mkTeacherIntent (ti_type p)
    (ti_goal p) (ti_preferred_delivery_mode p) (ti_requires_clarification p).

Record InterpretationConstraints := mkInterpretationConstraints {
  ic_preferred_output_type : str;
  ic_max_duration_minutes : option Z;
  ic_must_include : list str;
  ic_avoid : list str;
  ic_tone : option str
}.

Record OutputCandidate := mkOutputCandidate {
  oc_type : str;
  oc_score : f64;
  oc_reason : str
}.

Record BlueprintSection := mkBlueprintSection {
  bs_title : str;
  bs_purpose : str;
  bs_bullets : list str;
  bs_estimated_length : str
}.

Record DocumentBlueprint := mkDocumentBlueprint {
  bp_title : str;
  bp_summary : str;
  bp_sections : list BlueprintSection
}.

Record SubjectContext := mkSubjectContext {
  sc_subject_name : str;
  sc_subject_slug : option str
}.

Record SubSubjectContext := mkSubSubjectContext {
  ssc_sub_subject_name : str;
  ssc_sub_subject_slug : option str
}.

Record TargetAudience := mkTargetAudience {
  ta_label : str;
  ta_level : option str;
  ta_age_range : option str
}.

Record RequestedMediaCharacteristics := mkRequestedMediaCharacteristics {
  rm_tone : option str;
  rm_format_preferences : list str;
  rm_visual_density : option str
}.

Record Asset := mkAsset {
  asset_type : str;
  asset_description : str;
  asset_required : bool
}.

Record AssessmentBlock := mkAssessmentBlock {
  ab_title : str;
  ab_type : str;
  ab_instructions : str
}.

Record Confidence := mkConfidence {
  cf_score : f64;
  cf_label : str;
  cf_rationale : option str
}.

Record ContentIntegrity := mkContentIntegrity {
  ci_integrity_score : f64;
  ci_violations : list value;
  ci_classification_source : str;
  ci_meta_repairs : option value
}.

Record PlanMode := mkPlanMode {
  pm_active : bool;
  pm_reason : option str;
  pm_detected_content_type : option str;
  pm_content_type_confidence : option f64
}.

#[export] Instance PlanMode_eta : Eta PlanMode := λ p,   mkPlanMode (pm_active p) (pm_reason p)
    (pm_detected_content_type p) (pm_content_type_confidence p).

Record InterpretedFields := mkInterpretedFields {
  if_target_audience : option str;
  if_output_type : option str;
  if_subject : option str;
  if_topic : option str;
  if_learning_objectives : option (list str);
  if_page_count : option str;
  if_difficulty_level : option str;
  if_include_activities : option bool;
  if_slide_count : option str;
  if_question_count : option Z;
  if_meeting_duration : option str;
  if_teaching_method : option str;
  if_assessment_method : option str;
  if_visual_density : option str;
  if_speaker_notes : option str;
  if_question_type : option str
}.

Record MissingField := mkMissingField {
  mf_field_id : str;
  mf_field_label : str;
  mf_priority : str;
  mf_question : str;
  mf_suggestions : list value;
  mf_input_type : str
}.

Record InterpretationFallback := mkInterpretationFallback {
  fb_triggered : bool;
  fb_reason_code : option str;
  fb_action : option str
}.

Record InterpretationPayload := mkInterpretationPayload {
  ip_schema_version : str;
  ip_teacher_prompt : str;
  ip_language : str;
  ip_teacher_intent : TeacherIntent;
  ip_learning_objectives : list str;
  ip_constraints : InterpretationConstraints;
  ip_output_type_candidates : list OutputCandidate;
  ip_resolved_output_type_reasoning : str;
  ip_document_blueprint : DocumentBlueprint;
  ip_subject_context : option SubjectContext;
  ip_sub_subject_context : option SubSubjectContext;
  ip_target_audience : option TargetAudience;
  ip_requested_media_characteristics : RequestedMediaCharacteristics;
  ip_assets : list Asset;
  ip_assessment_or_activity_blocks : list AssessmentBlock;
  ip_teacher_delivery_summary : str;
  ip_confidence : Confidence;
  ip_fallback : InterpretationFallback;
  ip_content_integrity : option ContentIntegrity;
  ip_meta_repairs : option value;
  ip_plan_mode : PlanMode;
  ip_interpreted_fields : option InterpretedFields;
  ip_missing_fields : list MissingField
}.

#[export] Instance InterpretationPayload_eta : Eta InterpretationPayload := λ p,
    mkInterpretationPayload (ip_schema_version p) (ip_teacher_prompt p) (ip_language p)
    (ip_teacher_intent p) (ip_learning_objectives p) (ip_constraints p) (ip_output_type_candidates
    p) (ip_resolved_output_type_reasoning p) (ip_document_blueprint p) (ip_subject_context p)
    (ip_sub_subject_context p) (ip_target_audience p) (ip_requested_media_characteristics p)
    (ip_assets p) (ip_assessment_or_activity_blocks p) (ip_teacher_delivery_summary p)
    (ip_confidence p) (ip_fallback p) (ip_content_integrity p) (ip_meta_repairs p) (ip_plan_mode p)
    (ip_interpreted_fields p) (ip_missing_fields p).

Definition default_characteristics : RequestedMediaCharacteristics := mkRequestedMediaCharacteristics None [] None.
Definition default_plan_mode : PlanMode := mkPlanMode false None None None.
Definition default_fallback : InterpretationFallback := mkInterpretationFallback false None None.

(** ** Decoding: serde *)

(** The value of one field of an object, under any of its names: twice is an error. *)
Definition field_in (m : list (str * value)) (names : list string) : option (option value) :=
  match omap (λ k, map_get (lit k) m) names with
  | [] => Some None
  | [v] => Some (Some v)
  | _ => None
  end.
(** The derived [Deserialize] of a struct: an object by name, unknown keys ignored, or an array by
    position; a missing field is [None]. *)
Definition struct_fields (names : list (list string)) (v : value) : option (list (option value)) :=
  match v with
  | Object m => mapM (field_in m) names
  | Array l =>
      if (length l <=? length names)%nat
      then Some ((Some <$> l) ++ replicate (length names - length l) None) else None
  | _ => None
  end.
Definition required {A} (dec : value -> option A) (o : option value) : option A := v ← o; dec v.
Definition defaulted {A} (d : A) (dec : value -> option A) (o : option value) : option A :=
  match o with None => Some d | Some v => dec v end.

Definition d_string (v : value) : option str := as_str v.
Definition d_bool (v : value) : option bool := as_bool v.
Definition d_value (v : value) : option value := Some v.
Definition d_vec {A} (dec : value -> option A) (v : value) : option (list A) := l ← as_array v; mapM dec l.
Definition d_opt {A} (dec : value -> option A) (v : value) : option (option A) :=
  if is_null v then Some None else Some <$> dec v.
Definition d_i32 (v : value) : option Z :=
  match v with Number (NInt z) => if in_i32 z then Some z else None | _ => None end.

(** The lenient decoders, which accept any value. *)
Definition deserialize_optional_i32 (v : value) : option Z :=
  match v with
  | Number _ => i32_wrap <$> as_i64 v
  | String s => parse_i32 (trim s)
  | _ => None
  end.
Definition deserialize_f64_lenient (v : value) : f64 :=
  match v with
  | Number _ => default (f64_lit 6 1) (as_f64 v)
  | String s => default (f64_lit 6 1) (parse_f64 (trim s))
  | _ => f64_lit 6 1
  end.
Definition deserialize_optional_f64 (v : value) : option f64 :=
  match v with
  | Number _ => as_f64 v
  | String s => parse_f64 (trim s)
  | _ => None
  end.
Definition number_true (v : value) : bool :=
  match f64_cmp (default f64_zero (as_f64 v)) f64_zero with Some Eq => false | _ => true end.

Section Lenient.
Context `{CaseTables} `{JsonLex}.

Definition deserialize_bool_lenient (v : value) : bool :=
  match v with
  | Bool b => b
  | String s => bool_decide (to_lowercase s = lit "true")
  | Number _ => number_true v
  | _ => false
  end.
Definition deserialize_bool_lenient_option (v : value) : option bool :=
  match v with
  | Bool b => Some b
  | String s => Some (bool_decide (to_lowercase s = lit "true"))
  | Number _ => Some (number_true v)
  | _ => None
  end.

Definition text_keys : list string :=
  ["text"; "content"; "label"; "name"; "subject_name"; "title"; "value"]%string.
(** [m.get("text").or_else(|| m.get("content"))...]. *)
Definition first_present (m : list (str * value)) (names : list string) : option value :=
  head (omap (λ k, map_get (lit k) m) names).
Definition scalar_text (v : value) : option str :=
  match v with String s => Some s | Number n => Some (json_number n) | _ => None end.
Definition deserialize_optional_string_lenient (v : value) : option str :=
  match v with
  | Null => None
  | String s => let trimmed := trim s in if bool_decide (trimmed = []) then None else Some trimmed
  | Number n => Some (json_number n)
  | Bool b => Some (lit (if b then "true" else "false"))
  | Object m =>
      match first_present m text_keys ≫= as_str with
      | Some s => Some s
      | None => Some (json_text v)
      end
  | Array arr =>
      match omap scalar_text arr with
      | [] => Some (json_text v)
      | strings => Some (join (lit ", ") strings)
      end
  end.

Definition d_optional_i32 (v : value) : option (option Z) := Some (deserialize_optional_i32 v).
Definition d_f64_lenient (v : value) : option f64 := Some (deserialize_f64_lenient v).
Definition d_optional_f64 (v : value) : option (option f64) := Some (deserialize_optional_f64 v).
Definition d_bool_lenient (v : value) : option bool := Some (deserialize_bool_lenient v).
Definition d_bool_lenient_option (v : value) : option (option bool) := Some (deserialize_bool_lenient_option v).
Definition d_optional_string (v : value) : option (option str) := Some (deserialize_optional_string_lenient v).

Definition TeacherIntent_keys : list (list string) :=
  [["type"]; ["goal"]; ["preferred_delivery_mode"]; ["requires_clarification"]]%string.
Definition decode_TeacherIntent (v : value) : option TeacherIntent :=
  fs ← struct_fields TeacherIntent_keys v;
  match fs with
  | [f0; f1; f2; f3] =>
      type_ ← required d_string f0;
      goal ← required d_string f1;
      preferred_delivery_mode ← required d_string f2;
      requires_clarification ← required d_bool_lenient f3;
      Some (mkTeacherIntent type_ goal preferred_delivery_mode requires_clarification)
  | _ => None
  end.

Definition InterpretationConstraints_keys : list (list string) :=
  [["preferred_output_type"]; ["max_duration_minutes"]; ["must_include"]; ["avoid"]; ["tone"]]%string.
Definition decode_InterpretationConstraints (v : value) : option InterpretationConstraints :=
  fs ← struct_fields InterpretationConstraints_keys v;
  match fs with
  | [f0; f1; f2; f3; f4] =>
      preferred_output_type ← defaulted (lit "auto") d_string f0;
      max_duration_minutes ← defaulted None d_optional_i32 f1;
      must_include ← defaulted [] (d_vec d_string) f2;
      avoid ← defaulted [] (d_vec d_string) f3;
      tone ← defaulted None (d_opt d_string) f4;
            Some (mkInterpretationConstraints preferred_output_type max_duration_minutes must_include
        avoid tone)
  | _ => None
  end.

Definition OutputCandidate_keys : list (list string) :=
  [["type"]; ["score"]; ["reason"]]%string.
Definition decode_OutputCandidate (v : value) : option OutputCandidate :=
  fs ← struct_fields OutputCandidate_keys v;
  match fs with
  | [f0; f1; f2] =>
      type_ ← required d_string f0;
      score ← required d_f64_lenient f1;
      reason ← required d_string f2;
      Some (mkOutputCandidate type_ score reason)
  | _ => None
  end.

Definition BlueprintSection_keys : list (list string) :=
  [["title"]; ["purpose"]; ["bullets"]; ["estimated_length"]]%string.
Definition decode_BlueprintSection (v : value) : option BlueprintSection :=
  fs ← struct_fields BlueprintSection_keys v;
  match fs with
  | [f0; f1; f2; f3] =>
      title ← required d_string f0;
      purpose ← required d_string f1;
      bullets ← required (d_vec d_string) f2;
      estimated_length ← required d_string f3;
      Some (mkBlueprintSection title purpose bullets estimated_length)
  | _ => None
  end.

Definition DocumentBlueprint_keys : list (list string) :=
  [["title"]; ["summary"]; ["sections"]]%string.
Definition decode_DocumentBlueprint (v : value) : option DocumentBlueprint :=
  fs ← struct_fields DocumentBlueprint_keys v;
  match fs with
  | [f0; f1; f2] =>
      title ← required d_string f0;
      summary ← required d_string f1;
      sections ← required (d_vec decode_BlueprintSection) f2;
      Some (mkDocumentBlueprint title summary sections)
  | _ => None
  end.

Definition SubjectContext_keys : list (list string) :=
  [["subject_name"]; ["subject_slug"]]%string.
Definition decode_SubjectContext (v : value) : option SubjectContext :=
  fs ← struct_fields SubjectContext_keys v;
  match fs with
  | [f0; f1] =>
      subject_name ← required d_string f0;
      subject_slug ← defaulted None (d_opt d_string) f1;
      Some (mkSubjectContext subject_name subject_slug)
  | _ => None
  end.

Definition SubSubjectContext_keys : list (list string) :=
  [["sub_subject_name"]; ["sub_subject_slug"]]%string.
Definition decode_SubSubjectContext (v : value) : option SubSubjectContext :=
  fs ← struct_fields SubSubjectContext_keys v;
  match fs with
  | [f0; f1] =>
      sub_subject_name ← required d_string f0;
      sub_subject_slug ← defaulted None (d_opt d_string) f1;
      Some (mkSubSubjectContext sub_subject_name sub_subject_slug)
  | _ => None
  end.

Definition TargetAudience_keys : list (list string) :=
  [["label"]; ["level"]; ["age_range"]]%string.
Definition decode_TargetAudience (v : value) : option TargetAudience :=
  fs ← struct_fields TargetAudience_keys v;
  match fs with
  | [f0; f1; f2] =>
      label ← required d_string f0;
      level ← defaulted None (d_opt d_string) f1;
      age_range ← defaulted None (d_opt d_string) f2;
      Some (mkTargetAudience label level age_range)
  | _ => None
  end.

Definition RequestedMediaCharacteristics_keys : list (list string) :=
  [["tone"]; ["format_preferences"]; ["visual_density"]]%string.
Definition decode_RequestedMediaCharacteristics (v : value) : option RequestedMediaCharacteristics :=
  fs ← struct_fields RequestedMediaCharacteristics_keys v;
  match fs with
  | [f0; f1; f2] =>
      tone ← defaulted None (d_opt d_string) f0;
      format_preferences ← defaulted [] (d_vec d_string) f1;
      visual_density ← defaulted None (d_opt d_string) f2;
      Some (mkRequestedMediaCharacteristics tone format_preferences visual_density)
  | _ => None
  end.

Definition Asset_keys : list (list string) :=
  [["type"]; ["description"]; ["required"]]%string.
Definition decode_Asset (v : value) : option Asset :=
  fs ← struct_fields Asset_keys v;
  match fs with
  | [f0; f1; f2] =>
      type_ ← required d_string f0;
      description ← required d_string f1;
      required ← required d_bool_lenient f2;
      Some (mkAsset type_ description required)
  | _ => None
  end.

Definition AssessmentBlock_keys : list (list string) :=
  [["title"]; ["type"]; ["instructions"]]%string.
Definition decode_AssessmentBlock (v : value) : option AssessmentBlock :=
  fs ← struct_fields AssessmentBlock_keys v;
  match fs with
  | [f0; f1; f2] =>
      title ← required d_string f0;
      type_ ← required d_string f1;
      instructions ← required d_string f2;
      Some (mkAssessmentBlock title type_ instructions)
  | _ => None
  end.

Definition Confidence_keys : list (list string) :=
  [["score"]; ["label"]; ["rationale"]]%string.
Definition decode_Confidence (v : value) : option Confidence :=
  fs ← struct_fields Confidence_keys v;
  match fs with
  | [f0; f1; f2] =>
      score ← required d_f64_lenient f0;
      label ← required d_string f1;
      rationale ← defaulted None (d_opt d_string) f2;
      Some (mkConfidence score label rationale)
  | _ => None
  end.

Definition ContentIntegrity_keys : list (list string) :=
  [["integrity_score"]; ["violations"]; ["classification_source"]; ["meta_repairs"]]%string.
Definition decode_ContentIntegrity (v : value) : option ContentIntegrity :=
  fs ← struct_fields ContentIntegrity_keys v;
  match fs with
  | [f0; f1; f2; f3] =>
      integrity_score ← required d_f64_lenient f0;
      violations ← defaulted [] (d_vec d_value) f1;
      classification_source ← required d_string f2;
      meta_repairs ← defaulted None (d_opt d_value) f3;
      Some (mkContentIntegrity integrity_score violations classification_source meta_repairs)
  | _ => None
  end.

Definition PlanMode_keys : list (list string) :=
  [["active"]; ["reason"]; ["detected_content_type"]; ["content_type_confidence"]]%string.
Definition decode_PlanMode (v : value) : option PlanMode :=
  fs ← struct_fields PlanMode_keys v;
  match fs with
  | [f0; f1; f2; f3] =>
      active ← required d_bool_lenient f0;
      reason ← defaulted None (d_opt d_string) f1;
      detected_content_type ← defaulted None (d_opt d_string) f2;
      content_type_confidence ← defaulted None d_optional_f64 f3;
      Some (mkPlanMode active reason detected_content_type content_type_confidence)
  | _ => None
  end.

Definition InterpretedFields_keys : list (list string) :=
  [["target_audience"]; ["output_type"]; ["subject"]; ["topic"]; ["learning_objectives"];
      ["page_count"]; ["difficulty_level"]; ["include_activities"]; ["slide_count"];
      ["question_count"]; ["meeting_duration"]; ["teaching_method"]; ["assessment_method"];
      ["visual_density"]; ["speaker_notes"]; ["question_type"]]%string.
Definition decode_InterpretedFields (v : value) : option InterpretedFields :=
  fs ← struct_fields InterpretedFields_keys v;
  match fs with
  | [f0; f1; f2; f3; f4; f5; f6; f7; f8; f9; f10; f11; f12; f13; f14; f15] =>
      target_audience ← defaulted None d_optional_string f0;
      output_type ← defaulted None d_optional_string f1;
      subject ← defaulted None d_optional_string f2;
      topic ← defaulted None d_optional_string f3;
      learning_objectives ← defaulted None (d_opt (d_vec d_string)) f4;
      page_count ← defaulted None d_optional_string f5;
      difficulty_level ← defaulted None d_optional_string f6;
      include_activities ← defaulted None d_bool_lenient_option f7;
      slide_count ← defaulted None d_optional_string f8;
      question_count ← defaulted None (d_opt d_i32) f9;
      meeting_duration ← defaulted None d_optional_string f10;
      teaching_method ← defaulted None d_optional_string f11;
      assessment_method ← defaulted None d_optional_string f12;
      visual_density ← defaulted None d_optional_string f13;
      speaker_notes ← defaulted None d_optional_string f14;
      question_type ← defaulted None d_optional_string f15;
            Some (mkInterpretedFields target_audience output_type subject topic learning_objectives
        page_count difficulty_level include_activities slide_count question_count meeting_duration
        teaching_method assessment_method visual_density speaker_notes question_type)
  | _ => None
  end.

Definition MissingField_keys : list (list string) :=
  [["field_id"]; ["field_label"]; ["priority"]; ["question"]; ["suggestions"]; ["input_type"]]%string.
Definition decode_MissingField (v : value) : option MissingField :=
  fs ← struct_fields MissingField_keys v;
  match fs with
  | [f0; f1; f2; f3; f4; f5] =>
      field_id ← required d_string f0;
      field_label ← required d_string f1;
      priority ← required d_string f2;
      question ← required d_string f3;
      suggestions ← defaulted [] (d_vec d_value) f4;
      input_type ← required d_string f5;
      Some (mkMissingField field_id field_label priority question suggestions input_type)
  | _ => None
  end.

Definition InterpretationFallback_keys : list (list string) :=
  [["triggered"]; ["reason_code"]; ["action"]]%string.
Definition decode_InterpretationFallback (v : value) : option InterpretationFallback :=
  fs ← struct_fields InterpretationFallback_keys v;
  match fs with
  | [f0; f1; f2] =>
      triggered ← defaulted false d_bool f0;
      reason_code ← defaulted None (d_opt d_string) f1;
      action ← defaulted None (d_opt d_string) f2;
      Some (mkInterpretationFallback triggered reason_code action)
  | _ => None
  end.

Definition InterpretationPayload_keys : list (list string) :=
  [["schema_version"]; ["teacher_prompt"]; ["language"]; ["teacher_intent"];
      ["learning_objectives"]; ["constraints"]; ["output_type_candidates"];
      ["resolved_output_type_reasoning"]; ["document_blueprint"]; ["subject_context"];
      ["sub_subject_context"]; ["target_audience"]; ["requested_media_characteristics"];
      ["assets"]; ["assessment_or_activity_blocks"]; ["teacher_delivery_summary"];
      ["confidence"]; ["fallback"]; ["content_integrity"]; ["meta_repairs"; "_meta_repairs"];
      ["plan_mode"]; ["interpreted_fields"]; ["missing_fields"]]%string.
Definition decode_InterpretationPayload (v : value) : option InterpretationPayload :=
  fs ← struct_fields InterpretationPayload_keys v;
  match fs with
    | [f0; f1; f2; f3; f4; f5; f6; f7; f8; f9; f10; f11; f12; f13; f14; f15; f16; f17; f18; f19; f20;
    f21; f22] =>
      schema_version ← required d_string f0;
      teacher_prompt ← required d_string f1;
      language ← required d_string f2;
      teacher_intent ← required decode_TeacherIntent f3;
      learning_objectives ← defaulted [] (d_vec d_string) f4;
      constraints ← required decode_InterpretationConstraints f5;
      output_type_candidates ← required (d_vec decode_OutputCandidate) f6;
      resolved_output_type_reasoning ← required d_string f7;
      document_blueprint ← required decode_DocumentBlueprint f8;
      subject_context ← defaulted None (d_opt decode_SubjectContext) f9;
      sub_subject_context ← defaulted None (d_opt decode_SubSubjectContext) f10;
      target_audience ← defaulted None (d_opt decode_TargetAudience) f11;
            requested_media_characteristics ← defaulted default_characteristics
        decode_RequestedMediaCharacteristics f12;
      assets ← defaulted [] (d_vec decode_Asset) f13;
      assessment_or_activity_blocks ← defaulted [] (d_vec decode_AssessmentBlock) f14;
      teacher_delivery_summary ← required d_string f15;
      confidence ← required decode_Confidence f16;
      fallback ← defaulted default_fallback decode_InterpretationFallback f17;
      content_integrity ← defaulted None (d_opt decode_ContentIntegrity) f18;
      meta_repairs ← defaulted None (d_opt d_value) f19;
      plan_mode ← defaulted default_plan_mode decode_PlanMode f20;
      interpreted_fields ← defaulted None (d_opt decode_InterpretedFields) f21;
      missing_fields ← defaulted [] (d_vec decode_MissingField) f22;
            Some (mkInterpretationPayload schema_version teacher_prompt language teacher_intent
        learning_objectives constraints output_type_candidates resolved_output_type_reasoning
        document_blueprint subject_context sub_subject_context target_audience
        requested_media_characteristics assets assessment_or_activity_blocks teacher_delivery_summary
        confidence fallback content_integrity meta_repairs plan_mode interpreted_fields
        missing_fields)
  | _ => None
  end.
End Lenient.

(** ** Encoding: [serde_json::to_value], with [skip_serializing_if = "Option::is_none"] *)

Definition struct_value (entries : list (string * option value)) : value :=
  Object (omap (λ '(k, o), pair (lit k) <$> o) entries).
Definition jlist {A} (f : A -> value) (l : list A) : value := Array (f <$> l).
Definition jstrings (l : list str) : value := jlist String l.

Definition TeacherIntent_entries (p : TeacherIntent) : list (string * option value) :=
  [("type", Some (String (ti_type p)));
   ("goal", Some (String (ti_goal p)));
   ("preferred_delivery_mode", Some (String (ti_preferred_delivery_mode p)));
   ("requires_clarification", Some (Bool (ti_requires_clarification p)))]%string.
Definition encode_TeacherIntent (p : TeacherIntent) : value := struct_value (TeacherIntent_entries p).

Definition InterpretationConstraints_entries (p : InterpretationConstraints) : list (string * option value) :=
  [("preferred_output_type", Some (String (ic_preferred_output_type p)));
   ("max_duration_minutes", jint <$> ic_max_duration_minutes p);
   ("must_include", Some (jstrings (ic_must_include p)));
   ("avoid", Some (jstrings (ic_avoid p)));
   ("tone", String <$> ic_tone p)]%string.
Definition encode_InterpretationConstraints (p : InterpretationConstraints) : value := struct_value (InterpretationConstraints_entries p).

Definition OutputCandidate_entries (p : OutputCandidate) : list (string * option value) :=
  [("type", Some (String (oc_type p)));
   ("score", Some (jfloat (oc_score p)));
   ("reason", Some (String (oc_reason p)))]%string.
Definition encode_OutputCandidate (p : OutputCandidate) : value := struct_value (OutputCandidate_entries p).

Definition BlueprintSection_entries (p : BlueprintSection) : list (string * option value) :=
  [("title", Some (String (bs_title p)));
   ("purpose", Some (String (bs_purpose p)));
   ("bullets", Some (jstrings (bs_bullets p)));
   ("estimated_length", Some (String (bs_estimated_length p)))]%string.
Definition encode_BlueprintSection (p : BlueprintSection) : value := struct_value (BlueprintSection_entries p).

Definition DocumentBlueprint_entries (p : DocumentBlueprint) : list (string * option value) :=
  [("title", Some (String (bp_title p)));
   ("summary", Some (String (bp_summary p)));
   ("sections", Some ((jlist encode_BlueprintSection) (bp_sections p)))]%string.
Definition encode_DocumentBlueprint (p : DocumentBlueprint) : value := struct_value (DocumentBlueprint_entries p).

Definition SubjectContext_entries (p : SubjectContext) : list (string * option value) :=
  [("subject_name", Some (String (sc_subject_name p)));
   ("subject_slug", String <$> sc_subject_slug p)]%string.
Definition encode_SubjectContext (p : SubjectContext) : value := struct_value (SubjectContext_entries p).

Definition SubSubjectContext_entries (p : SubSubjectContext) : list (string * option value) :=
  [("sub_subject_name", Some (String (ssc_sub_subject_name p)));
   ("sub_subject_slug", String <$> ssc_sub_subject_slug p)]%string.
Definition encode_SubSubjectContext (p : SubSubjectContext) : value := struct_value (SubSubjectContext_entries p).

Definition TargetAudience_entries (p : TargetAudience) : list (string * option value) :=
  [("label", Some (String (ta_label p)));
   ("level", String <$> ta_level p);
   ("age_range", String <$> ta_age_range p)]%string.
Definition encode_TargetAudience (p : TargetAudience) : value := struct_value (TargetAudience_entries p).

Definition RequestedMediaCharacteristics_entries (p : RequestedMediaCharacteristics) : list (string * option value) :=
  [("tone", String <$> rm_tone p);
   ("format_preferences", Some (jstrings (rm_format_preferences p)));
   ("visual_density", String <$> rm_visual_density p)]%string.
Definition encode_RequestedMediaCharacteristics (p : RequestedMediaCharacteristics) : value := struct_value (RequestedMediaCharacteristics_entries p).

Definition Asset_entries (p : Asset) : list (string * option value) :=
  [("type", Some (String (asset_type p)));
   ("description", Some (String (asset_description p)));
   ("required", Some (Bool (asset_required p)))]%string.
Definition encode_Asset (p : Asset) : value := struct_value (Asset_entries p).

Definition AssessmentBlock_entries (p : AssessmentBlock) : list (string * option value) :=
  [("title", Some (String (ab_title p)));
   ("type", Some (String (ab_type p)));
   ("instructions", Some (String (ab_instructions p)))]%string.
Definition encode_AssessmentBlock (p : AssessmentBlock) : value := struct_value (AssessmentBlock_entries p).

Definition Confidence_entries (p : Confidence) : list (string * option value) :=
  [("score", Some (jfloat (cf_score p)));
   ("label", Some (String (cf_label p)));
   ("rationale", String <$> cf_rationale p)]%string.
Definition encode_Confidence (p : Confidence) : value := struct_value (Confidence_entries p).

Definition ContentIntegrity_entries (p : ContentIntegrity) : list (string * option value) :=
  [("integrity_score", Some (jfloat (ci_integrity_score p)));
   ("violations", Some (Array (ci_violations p)));
   ("classification_source", Some (String (ci_classification_source p)));
   ("meta_repairs", ci_meta_repairs p)]%string.
Definition encode_ContentIntegrity (p : ContentIntegrity) : value := struct_value (ContentIntegrity_entries p).

Definition PlanMode_entries (p : PlanMode) : list (string * option value) :=
  [("active", Some (Bool (pm_active p)));
   ("reason", String <$> pm_reason p);
   ("detected_content_type", String <$> pm_detected_content_type p);
   ("content_type_confidence", jfloat <$> pm_content_type_confidence p)]%string.
Definition encode_PlanMode (p : PlanMode) : value := struct_value (PlanMode_entries p).

Definition InterpretedFields_entries (p : InterpretedFields) : list (string * option value) :=
  [("target_audience", String <$> if_target_audience p);
   ("output_type", String <$> if_output_type p);
   ("subject", String <$> if_subject p);
   ("topic", String <$> if_topic p);
   ("learning_objectives", jstrings <$> if_learning_objectives p);
   ("page_count", String <$> if_page_count p);
   ("difficulty_level", String <$> if_difficulty_level p);
   ("include_activities", Bool <$> if_include_activities p);
   ("slide_count", String <$> if_slide_count p);
   ("question_count", jint <$> if_question_count p);
   ("meeting_duration", String <$> if_meeting_duration p);
   ("teaching_method", String <$> if_teaching_method p);
   ("assessment_method", String <$> if_assessment_method p);
   ("visual_density", String <$> if_visual_density p);
   ("speaker_notes", String <$> if_speaker_notes p);
   ("question_type", String <$> if_question_type p)]%string.
Definition encode_InterpretedFields (p : InterpretedFields) : value := struct_value (InterpretedFields_entries p).

Definition MissingField_entries (p : MissingField) : list (string * option value) :=
  [("field_id", Some (String (mf_field_id p)));
   ("field_label", Some (String (mf_field_label p)));
   ("priority", Some (String (mf_priority p)));
   ("question", Some (String (mf_question p)));
   ("suggestions", Some (Array (mf_suggestions p)));
   ("input_type", Some (String (mf_input_type p)))]%string.
Definition encode_MissingField (p : MissingField) : value := struct_value (MissingField_entries p).

Definition InterpretationFallback_entries (p : InterpretationFallback) : list (string * option value) :=
  [("triggered", Some (Bool (fb_triggered p)));
   ("reason_code", String <$> fb_reason_code p);
   ("action", String <$> fb_action p)]%string.
Definition encode_InterpretationFallback (p : InterpretationFallback) : value := struct_value (InterpretationFallback_entries p).

Definition InterpretationPayload_entries (p : InterpretationPayload) : list (string * option value) :=
  [("schema_version", Some (String (ip_schema_version p)));
   ("teacher_prompt", Some (String (ip_teacher_prompt p)));
   ("language", Some (String (ip_language p)));
   ("teacher_intent", Some (encode_TeacherIntent (ip_teacher_intent p)));
   ("learning_objectives", Some (jstrings (ip_learning_objectives p)));
   ("constraints", Some (encode_InterpretationConstraints (ip_constraints p)));
   ("output_type_candidates", Some ((jlist encode_OutputCandidate) (ip_output_type_candidates p)));
   ("resolved_output_type_reasoning", Some (String (ip_resolved_output_type_reasoning p)));
   ("document_blueprint", Some (encode_DocumentBlueprint (ip_document_blueprint p)));
   ("subject_context", encode_SubjectContext <$> ip_subject_context p);
   ("sub_subject_context", encode_SubSubjectContext <$> ip_sub_subject_context p);
   ("target_audience", encode_TargetAudience <$> ip_target_audience p);
   ("requested_media_characteristics", Some (encode_RequestedMediaCharacteristics (ip_requested_media_characteristics p)));
   ("assets", Some ((jlist encode_Asset) (ip_assets p)));
   ("assessment_or_activity_blocks", Some ((jlist encode_AssessmentBlock) (ip_assessment_or_activity_blocks p)));
   ("teacher_delivery_summary", Some (String (ip_teacher_delivery_summary p)));
   ("confidence", Some (encode_Confidence (ip_confidence p)));
   ("fallback", Some (encode_InterpretationFallback (ip_fallback p)));
   ("content_integrity", encode_ContentIntegrity <$> ip_content_integrity p);
   ("meta_repairs", ip_meta_repairs p);
   ("plan_mode", Some (encode_PlanMode (ip_plan_mode p)));
   ("interpreted_fields", encode_InterpretedFields <$> ip_interpreted_fields p);
   ("missing_fields", Some ((jlist encode_MissingField) (ip_missing_fields p)))]%string.
Definition encode_InterpretationPayload (p : InterpretationPayload) : value := struct_value (InterpretationPayload_entries p).

(** ** Validation: garde *)

(** The length that [length(min, max)] measures a string by, of the garde crate. *)
Class GardeLength := simple_length : str -> nat.
(** It counts at least the characters, and an ASCII text by its characters. *)
Class GardeLengthLaws `{GardeLength} := {
  simple_length_chars : forall s, (length s <= simple_length s)%nat;
  simple_length_ascii : forall s, ascii_str s -> simple_length s = length s
}.

Section Validation.
Context `{GardeLength}.

Definition len_ok (lo hi : nat) (s : str) : bool :=
  (lo <=? simple_length s)%nat && (simple_length s <=? hi)%nat.
Definition validate_TeacherIntent (p : TeacherIntent) : bool :=
  len_ok 1 100 (ti_type p) && len_ok 1 500 (ti_goal p) && len_ok 1 100 (ti_preferred_delivery_mode p).
Definition validate_OutputCandidate (p : OutputCandidate) : bool :=
  len_ok 1 100 (oc_type p) && len_ok 1 500 (oc_reason p).
Definition validate_DocumentBlueprint (p : DocumentBlueprint) : bool :=
  len_ok 1 200 (bp_title p) && len_ok 1 1000 (bp_summary p) && (1 <=? length (bp_sections p))%nat.
Definition validate_Confidence (p : Confidence) : bool := len_ok 1 100 (cf_label p).

(** [payload.validate().is_ok()]: only the fields marked [dive] are entered. *)
Definition validate_payload (p : InterpretationPayload) : bool :=
  (1 <=? simple_length (ip_schema_version p))%nat && len_ok 1 5000 (ip_teacher_prompt p)
  && len_ok 1 32 (ip_language p) && validate_TeacherIntent (ip_teacher_intent p)
  && (1 <=? length (ip_output_type_candidates p))%nat
  && forallb validate_OutputCandidate (ip_output_type_candidates p)
  && len_ok 1 1000 (ip_resolved_output_type_reasoning p)
  && validate_DocumentBlueprint (ip_document_blueprint p)
  && len_ok 1 1000 (ip_teacher_delivery_summary p) && validate_Confidence (ip_confidence p).
End Validation.

(** ** What a payload becomes when it is stored and read back

    A score that is not a number or not finite is stored as null and read back as the default; the
    texts of the interpreted fields are trimmed, blank ones dropped. *)

Definition settle_f64 (f : f64) : f64 :=
  match f with S754_nan | S754_infinity _ => f64_lit 6 1 | _ => f end.
Definition settle_optional_f64 (o : option f64) : option f64 :=
  f ← o; match f with S754_nan | S754_infinity _ => None | _ => Some f end.
Definition settle_text (s : str) : option str :=
  let trimmed := trim s in if bool_decide (trimmed = []) then None else Some trimmed.
Definition settle_value (v : value) : option value := if is_null v then None else Some v.

Definition settle_OutputCandidate (p : OutputCandidate) : OutputCandidate :=
  mkOutputCandidate (oc_type p) (settle_f64 (oc_score p)) (oc_reason p).

Definition settle_Confidence (p : Confidence) : Confidence :=
  mkConfidence (settle_f64 (cf_score p)) (cf_label p) (cf_rationale p).

Definition settle_ContentIntegrity (p : ContentIntegrity) : ContentIntegrity :=
  mkContentIntegrity (settle_f64 (ci_integrity_score p)) (ci_violations p) (ci_classification_source
    p) ((ci_meta_repairs p) ≫= settle_value).

Definition settle_PlanMode (p : PlanMode) : PlanMode :=
  mkPlanMode (pm_active p) (pm_reason p) (pm_detected_content_type p) (settle_optional_f64
    (pm_content_type_confidence p)).

Definition settle_InterpretedFields (p : InterpretedFields) : InterpretedFields :=
  mkInterpretedFields ((if_target_audience p) ≫= settle_text) ((if_output_type p) ≫= settle_text)
    ((if_subject p) ≫= settle_text) ((if_topic p) ≫= settle_text) (if_learning_objectives p)
    ((if_page_count p) ≫= settle_text) ((if_difficulty_level p) ≫= settle_text)
    (if_include_activities p) ((if_slide_count p) ≫= settle_text) (if_question_count p)
    ((if_meeting_duration p) ≫= settle_text) ((if_teaching_method p) ≫= settle_text)
    ((if_assessment_method p) ≫= settle_text) ((if_visual_density p) ≫= settle_text)
    ((if_speaker_notes p) ≫= settle_text) ((if_question_type p) ≫= settle_text).

Definition settle_InterpretationPayload (p : InterpretationPayload) : InterpretationPayload :=
  mkInterpretationPayload (ip_schema_version p) (ip_teacher_prompt p) (ip_language p)
    (ip_teacher_intent p) (ip_learning_objectives p) (ip_constraints p) (settle_OutputCandidate <$>
    (ip_output_type_candidates p)) (ip_resolved_output_type_reasoning p) (ip_document_blueprint p)
    (ip_subject_context p) (ip_sub_subject_context p) (ip_target_audience p)
    (ip_requested_media_characteristics p) (ip_assets p) (ip_assessment_or_activity_blocks p)
    (ip_teacher_delivery_summary p) (settle_Confidence (ip_confidence p)) (ip_fallback p)
    (settle_ContentIntegrity <$> (ip_content_integrity p)) ((ip_meta_repairs p) ≫= settle_value)
    (settle_PlanMode (ip_plan_mode p)) (settle_InterpretedFields <$> (ip_interpreted_fields p))
    (ip_missing_fields p).

(** Integers of the type [i32]. *)
Definition i32_opt (o : option Z) : bool := match o with Some z => in_i32 z | None => true end.
Definition payload_i32 (p : InterpretationPayload) : bool :=
  i32_opt (ic_max_duration_minutes (ip_constraints p))
  && match ip_interpreted_fields p with Some f => i32_opt (if_question_count f) | None => true end.

(** ** Lemmas: fields *)

(** The keys of a struct, and the names it accepts. *)
Definition keys_fit (names : list (list string)) (keys : list string) : bool :=
  bool_decide (NoDup keys)
  && bool_decide (Forall2 (λ ns k, head ns = Some k /\ Forall (λ a, a ∉ keys) (tail ns)) names keys).

Lemma struct_value_get entries k :
  NoDup entries.*1 ->
  map_get (lit k) (omap (λ '(k, o), pair (lit k) <$> o) entries) = match_lit k entries ≫= id.
Proof.
  induction entries as [|[k' o] entries IH]; cbn [omap list_omap match_lit]; [done|].
  intros [Hk Hnd]%NoDup_cons. destruct (decide (k = k')) as [->|Hne].
  - destruct o as [v|]; cbn; [by rewrite decide_True|]. change (list_omap _ _ _ entries) with (omap (λ '(k, o), pair (lit k) <$> o) entries).
    rewrite IH by done. by rewrite (proj2 (match_lit_None k' entries) Hk).
  - destruct o as [v|]; cbn; [|exact (IH Hnd)].
    rewrite decide_False by (intros Heq; by apply lit_inj in Heq). exact (IH Hnd).
Qed.

Lemma field_in_single m k : field_in m [k] = Some (map_get (lit k) m).
Proof. unfold field_in. cbn. by destruct (map_get (lit k) m). Qed.
Lemma field_in_aliases m k names :
  Forall (λ a, map_get (lit a) m = None) names -> field_in m (k :: names) = Some (map_get (lit k) m).
Proof.
  intros Hall. unfold field_in. assert (omap (λ k, map_get (lit k) m) names = []) as Hnil.
  { induction Hall as [|a names Ha _ IH]; cbn; [done|]. rewrite Ha. exact IH. }
  cbn. change (list_omap _ _ _ names) with (omap (λ k, map_get (lit k) m) names). rewrite Hnil.
  by destruct (map_get (lit k) m).
Qed.

Lemma struct_fields_entries names entries :
  keys_fit names entries.*1 = true -> struct_fields names (struct_value entries) = Some entries.*2.
Proof.
  intros [Hnd%bool_decide_eq_true Hfit%bool_decide_eq_true]%andb_true_iff. cbn [struct_fields struct_value].
  set (m := omap _ entries).
  assert (forall a, a ∉ entries.*1 -> map_get (lit a) m = None) as Hnone.
  { intros a Ha. unfold m. rewrite struct_value_get by done. by rewrite (proj2 (match_lit_None a entries) Ha). }
  assert (forall k o, (k, o) ∈ entries -> map_get (lit k) m = o) as Hsome.
  { intros k o Hin. unfold m. rewrite struct_value_get by done. clear -Hnd Hin.
    induction entries as [|[k' o'] entries IH]; [by apply not_elem_of_nil in Hin|].
    apply NoDup_cons in Hnd as [Hk Hnd]. cbn [match_lit].
    destruct (decide (k = k')) as [->|Hne].
    - apply elem_of_cons in Hin as [[= ->]|Hin]; [done|]. destruct Hk. apply list_elem_of_fmap. by exists (k', o).
    - apply IH; [done|]. apply elem_of_cons in Hin as [[= -> ->]|Hin]; done. }
  clearbody m.
  assert (forall es, Forall (λ e, e ∈ entries) es -> forall ns,
    Forall2 (λ ns k, head ns = Some k /\ Forall (λ a, a ∉ entries.*1) (tail ns)) ns es.*1 ->
    mapM (field_in m) ns = Some es.*2) as Hgen.
  { induction 1 as [|[k o] es Hin Hes IH]; intros ns Hns.
    - inversion Hns; subst. done.
    - cbn [fmap list_fmap] in Hns. inversion Hns as [|n k' ns' es' [Hhead Htail] Hrest]; subst.
      destruct n as [|k' al]; [done|]. injection Hhead as ->. cbn [tail] in Htail. cbn [mapM].
      rewrite field_in_aliases by (eapply Forall_impl; [exact Htail|]; exact Hnone).
      rewrite (Hsome k o Hin). cbn. by rewrite (IH ns' Hrest). }
  apply Hgen; [|exact Hfit]. by apply Forall_forall.
Qed.

Lemma vec_roundtrip {A B} (dec : value -> option B) (enc : A -> value) (f : A -> B) l :
  (forall a, a ∈ l -> dec (enc a) = Some (f a)) -> d_vec dec (jlist enc l) = Some (f <$> l).
Proof.
  intros Hall. unfold d_vec, jlist. cbn [as_array mbind option_bind].
  induction l as [|a l IH]; [done|]. cbn. rewrite (Hall a) by left. cbn.
  change (list_fmap _ _ enc l) with (enc <$> l). rewrite IH; [done|]. intros b Hb. apply Hall. by right.
Qed.
Lemma required_vec_roundtrip {A} (dec : value -> option A) (enc : A -> value) l :
  (forall a, a ∈ l -> dec (enc a) = Some a) -> d_vec dec (jlist enc l) = Some l.
Proof. intros Hall. rewrite (vec_roundtrip dec enc id) by done. by rewrite list_fmap_id. Qed.

Lemma strings_roundtrip l : d_vec d_string (jstrings l) = Some l.
Proof. by apply required_vec_roundtrip. Qed.
Lemma values_roundtrip l : d_vec d_value (Array l) = Some l.
Proof.
  unfold d_vec, d_value. cbn. induction l as [|v l IH]; cbn; [done|].
  change (mapM _ l) with (mapM (λ v, Some v) l) in *. by rewrite IH.
Qed.
Lemma opt_string_roundtrip o : defaulted None (d_opt d_string) (String <$> o) = Some o.
Proof. by destruct o. Qed.
Lemma opt_strings_roundtrip o : defaulted None (d_opt (d_vec d_string)) (jstrings <$> o) = Some o.
Proof. destruct o as [l|]; cbn [fmap option_fmap option_map defaulted d_opt]; [|done]. unfold d_opt. cbn [is_null jstrings jlist]. change (Array (String <$> l)) with (jstrings l). by rewrite strings_roundtrip. Qed.
Lemma opt_value_roundtrip o : defaulted None (d_opt d_value) o = Some (o ≫= settle_value).
Proof. destruct o as [v|]; [|done]. cbn. unfold d_opt, settle_value. by destruct (is_null v). Qed.
Lemma opt_i32_roundtrip o : i32_opt o = true -> defaulted None (d_opt d_i32) (jint <$> o) = Some o.
Proof. destruct o as [z|]; [|done]. cbn. intros Hz. unfold jint, d_opt. cbn. by rewrite Hz. Qed.
Lemma in_i32_range z : in_i32 z = true -> - 2 ^ 31 <= z < 2 ^ 31.
Proof. unfold in_i32. rewrite andb_true_iff, Z.leb_le, Z.ltb_lt. done. Qed.
Lemma optional_i32_roundtrip o : i32_opt o = true -> defaulted None d_optional_i32 (jint <$> o) = Some o.
Proof.
  destruct o as [z|]; [|done]. cbn. intros Hz%in_i32_range. unfold d_optional_i32, jint. cbn.
  unfold as_i64, in_i64. rewrite (proj2 (Z.leb_le _ _)), (proj2 (Z.ltb_lt _ _)) by lia. cbn.
  unfold i32_wrap. rewrite swrap_id; [done|lia|]. exact Hz.
Qed.
Lemma f64_roundtrip f : d_f64_lenient (jfloat f) = Some (settle_f64 f).
Proof. by destruct f. Qed.
Lemma optional_f64_roundtrip o : defaulted None d_optional_f64 (jfloat <$> o) = Some (settle_optional_f64 o).
Proof. destruct o as [[]|]; done. Qed.
Lemma opt_struct_roundtrip {A B} (dec : value -> option B) (enc : A -> value) (f : A -> B) o :
  (forall a, o = Some a -> dec (enc a) = Some (f a) /\ is_null (enc a) = false) ->
  defaulted None (d_opt dec) (enc <$> o) = Some (f <$> o).
Proof.
  destruct o as [a|]; [|done]. intros Ha. destruct (Ha a eq_refl) as [Hd Hn]. cbn. unfold d_opt. by rewrite Hn, Hd.
Qed.
Lemma opt_struct_id {A} (dec : value -> option A) (enc : A -> value) o :
  (forall a, dec (enc a) = Some a /\ is_null (enc a) = false) ->
  defaulted None (d_opt dec) (enc <$> o) = Some o.
Proof. intros Ha. rewrite (opt_struct_roundtrip dec enc id) by (intros a _; apply Ha). by destruct o. Qed.

Section RoundTrip.
Context `{CaseTables} `{JsonLex}.

Lemma opt_bool_roundtrip o : defaulted None d_bool_lenient_option (Bool <$> o) = Some o.
Proof. by destruct o. Qed.
Lemma optional_text_roundtrip o : defaulted None d_optional_string (String <$> o) = Some (o ≫= settle_text).
Proof. by destruct o. Qed.

#[local] Hint Rewrite opt_string_roundtrip opt_strings_roundtrip opt_value_roundtrip f64_roundtrip
  optional_f64_roundtrip opt_bool_roundtrip optional_text_roundtrip values_roundtrip strings_roundtrip : decode.

(** The fields of an encoded struct are found; each is decoded by its lemma. *)
Ltac settle_fields :=
  cbn [fmap list_fmap snd mbind option_bind required defaulted d_string d_bool d_bool_lenient as_str as_bool
       deserialize_bool_lenient option_fmap option_map];
  autorewrite with decode;
  cbn [fmap list_fmap snd mbind option_bind required defaulted d_string d_bool d_bool_lenient as_str as_bool
       deserialize_bool_lenient].

Lemma TeacherIntent_roundtrip p : decode_TeacherIntent (encode_TeacherIntent p) = Some (p).
Proof.
  unfold decode_TeacherIntent, encode_TeacherIntent.
  rewrite (struct_fields_entries _ (TeacherIntent_entries p)) by reflexivity. unfold TeacherIntent_entries.
  settle_fields. by destruct p.
Qed.
Lemma InterpretationConstraints_roundtrip p : i32_opt (ic_max_duration_minutes p) = true -> decode_InterpretationConstraints (encode_InterpretationConstraints p) = Some (p).
Proof.
  intros Hp. unfold decode_InterpretationConstraints, encode_InterpretationConstraints.
  rewrite (struct_fields_entries _ (InterpretationConstraints_entries p)) by reflexivity. unfold InterpretationConstraints_entries.
  settle_fields.
  rewrite optional_i32_roundtrip by done. cbn [mbind option_bind]. clear Hp. by destruct p.
Qed.
Lemma OutputCandidate_roundtrip p : decode_OutputCandidate (encode_OutputCandidate p) = Some (settle_OutputCandidate p).
Proof.
  unfold decode_OutputCandidate, encode_OutputCandidate.
  rewrite (struct_fields_entries _ (OutputCandidate_entries p)) by reflexivity. unfold OutputCandidate_entries.
  settle_fields. reflexivity.
Qed.
Lemma BlueprintSection_roundtrip p : decode_BlueprintSection (encode_BlueprintSection p) = Some (p).
Proof.
  unfold decode_BlueprintSection, encode_BlueprintSection.
  rewrite (struct_fields_entries _ (BlueprintSection_entries p)) by reflexivity. unfold BlueprintSection_entries.
  settle_fields. by destruct p.
Qed.
Lemma DocumentBlueprint_roundtrip p : decode_DocumentBlueprint (encode_DocumentBlueprint p) = Some (p).
Proof.
  unfold decode_DocumentBlueprint, encode_DocumentBlueprint.
  rewrite (struct_fields_entries _ (DocumentBlueprint_entries p)) by reflexivity. unfold DocumentBlueprint_entries.
  settle_fields.
  rewrite required_vec_roundtrip by (intros; apply BlueprintSection_roundtrip). cbn [mbind option_bind]. by destruct p.
Qed.
Lemma SubjectContext_roundtrip p : decode_SubjectContext (encode_SubjectContext p) = Some (p).
Proof.
  unfold decode_SubjectContext, encode_SubjectContext.
  rewrite (struct_fields_entries _ (SubjectContext_entries p)) by reflexivity. unfold SubjectContext_entries.
  settle_fields. by destruct p.
Qed.
Lemma SubSubjectContext_roundtrip p : decode_SubSubjectContext (encode_SubSubjectContext p) = Some (p).
Proof.
  unfold decode_SubSubjectContext, encode_SubSubjectContext.
  rewrite (struct_fields_entries _ (SubSubjectContext_entries p)) by reflexivity. unfold SubSubjectContext_entries.
  settle_fields. by destruct p.
Qed.
Lemma TargetAudience_roundtrip p : decode_TargetAudience (encode_TargetAudience p) = Some (p).
Proof.
  unfold decode_TargetAudience, encode_TargetAudience.
  rewrite (struct_fields_entries _ (TargetAudience_entries p)) by reflexivity. unfold TargetAudience_entries.
  settle_fields. by destruct p.
Qed.
Lemma RequestedMediaCharacteristics_roundtrip p : decode_RequestedMediaCharacteristics (encode_RequestedMediaCharacteristics p) = Some (p).
Proof.
  unfold decode_RequestedMediaCharacteristics, encode_RequestedMediaCharacteristics.
  rewrite (struct_fields_entries _ (RequestedMediaCharacteristics_entries p)) by reflexivity. unfold RequestedMediaCharacteristics_entries.
  settle_fields. by destruct p.
Qed.
Lemma Asset_roundtrip p : decode_Asset (encode_Asset p) = Some (p).
Proof.
  unfold decode_Asset, encode_Asset.
  rewrite (struct_fields_entries _ (Asset_entries p)) by reflexivity. unfold Asset_entries.
  settle_fields. by destruct p.
Qed.
Lemma AssessmentBlock_roundtrip p : decode_AssessmentBlock (encode_AssessmentBlock p) = Some (p).
Proof.
  unfold decode_AssessmentBlock, encode_AssessmentBlock.
  rewrite (struct_fields_entries _ (AssessmentBlock_entries p)) by reflexivity. unfold AssessmentBlock_entries.
  settle_fields. by destruct p.
Qed.
Lemma Confidence_roundtrip p : decode_Confidence (encode_Confidence p) = Some (settle_Confidence p).
Proof.
  unfold decode_Confidence, encode_Confidence.
  rewrite (struct_fields_entries _ (Confidence_entries p)) by reflexivity. unfold Confidence_entries.
  settle_fields. reflexivity.
Qed.
Lemma ContentIntegrity_roundtrip p : decode_ContentIntegrity (encode_ContentIntegrity p) = Some (settle_ContentIntegrity p).
Proof.
  unfold decode_ContentIntegrity, encode_ContentIntegrity.
  rewrite (struct_fields_entries _ (ContentIntegrity_entries p)) by reflexivity. unfold ContentIntegrity_entries.
  settle_fields. reflexivity.
Qed.
Lemma PlanMode_roundtrip p : decode_PlanMode (encode_PlanMode p) = Some (settle_PlanMode p).
Proof.
  unfold decode_PlanMode, encode_PlanMode.
  rewrite (struct_fields_entries _ (PlanMode_entries p)) by reflexivity. unfold PlanMode_entries.
  settle_fields. reflexivity.
Qed.
Lemma InterpretedFields_roundtrip p : i32_opt (if_question_count p) = true -> decode_InterpretedFields (encode_InterpretedFields p) = Some (settle_InterpretedFields p).
Proof.
  intros Hp. unfold decode_InterpretedFields, encode_InterpretedFields.
  rewrite (struct_fields_entries _ (InterpretedFields_entries p)) by reflexivity. unfold InterpretedFields_entries.
  settle_fields.
  rewrite opt_i32_roundtrip by done. cbn [mbind option_bind]. clear Hp. reflexivity.
Qed.
Lemma MissingField_roundtrip p : decode_MissingField (encode_MissingField p) = Some (p).
Proof.
  unfold decode_MissingField, encode_MissingField.
  rewrite (struct_fields_entries _ (MissingField_entries p)) by reflexivity. unfold MissingField_entries.
  settle_fields. by destruct p.
Qed.
Lemma InterpretationFallback_roundtrip p : decode_InterpretationFallback (encode_InterpretationFallback p) = Some (p).
Proof.
  unfold decode_InterpretationFallback, encode_InterpretationFallback.
  rewrite (struct_fields_entries _ (InterpretationFallback_entries p)) by reflexivity. unfold InterpretationFallback_entries.
  settle_fields. by destruct p.
Qed.
#[local] Hint Rewrite (λ p, TeacherIntent_roundtrip p) (λ p, DocumentBlueprint_roundtrip p)
  (λ p, RequestedMediaCharacteristics_roundtrip p) (λ p, Confidence_roundtrip p)
  (λ p, InterpretationFallback_roundtrip p) (λ p, PlanMode_roundtrip p) : nested.

Lemma payload_decodes p :
  payload_i32 p = true ->
  decode_InterpretationPayload (encode_InterpretationPayload p) = Some (settle_InterpretationPayload p).
Proof.
  intros [Hc Hf]%andb_true_iff. unfold decode_InterpretationPayload, encode_InterpretationPayload.
  rewrite (struct_fields_entries _ (InterpretationPayload_entries p)) by reflexivity.
  unfold InterpretationPayload_entries. settle_fields. autorewrite with nested.
  rewrite InterpretationConstraints_roundtrip by done. cbn [mbind option_bind].
  rewrite (vec_roundtrip _ _ settle_OutputCandidate) by (intros; apply OutputCandidate_roundtrip).
  rewrite (opt_struct_id _ _ (ip_subject_context p)) by (split; [apply SubjectContext_roundtrip|done]).
  rewrite (opt_struct_id _ _ (ip_sub_subject_context p)) by (split; [apply SubSubjectContext_roundtrip|done]).
  rewrite (opt_struct_id _ _ (ip_target_audience p)) by (split; [apply TargetAudience_roundtrip|done]).
  rewrite (required_vec_roundtrip _ _ (ip_assets p)) by (intros; apply Asset_roundtrip).
  rewrite (required_vec_roundtrip _ _ (ip_assessment_or_activity_blocks p))
    by (intros; apply AssessmentBlock_roundtrip).
  rewrite (required_vec_roundtrip _ _ (ip_missing_fields p)) by (intros; apply MissingField_roundtrip).
  rewrite (opt_struct_roundtrip _ _ settle_ContentIntegrity)
    by (split; [apply ContentIntegrity_roundtrip|done]).
  rewrite (opt_struct_roundtrip _ _ settle_InterpretedFields)
    by (intros f Hfs; rewrite Hfs in Hf; split; [by apply InterpretedFields_roundtrip|done]).
  reflexivity.
Qed.

Lemma settle_f64_idemp f : settle_f64 (settle_f64 f) = settle_f64 f.
Proof. by destruct f. Qed.
Lemma settle_bind_idemp {A} (f : A -> option A) o :
  (forall a b, f a = Some b -> f b = Some b) -> (o ≫= f) ≫= f = o ≫= f.
Proof. intros Hf. destruct o as [a|]; [|done]. cbn. destruct (f a) as [b|] eqn:E; [|done]. cbn. by eapply Hf. Qed.
Lemma settle_text_idemp a b : settle_text a = Some b -> settle_text b = Some b.
Proof.
  unfold settle_text. case_bool_decide as Ha; [done|]. intros [= <-]. rewrite trim_idemp.
  by rewrite bool_decide_false.
Qed.
Lemma settle_value_idemp a b : settle_value a = Some b -> settle_value b = Some b.
Proof. unfold settle_value. intros Hab. by destruct a; simplify_eq/=. Qed.
Lemma settle_optional_f64_idemp o : settle_optional_f64 (settle_optional_f64 o) = settle_optional_f64 o.
Proof. apply settle_bind_idemp. intros [] b Hab; cbn in *; by inversion Hab. Qed.
#[local] Hint Resolve settle_text_idemp settle_value_idemp : decode.
#[local] Hint Rewrite settle_f64_idemp settle_optional_f64_idemp : decode.

Lemma settle_payload_idemp p :
  settle_InterpretationPayload (settle_InterpretationPayload p) = settle_InterpretationPayload p.
Proof.
  assert (forall A (f : A -> A) (l : list A), (forall a, f (f a) = f a) -> f <$> (f <$> l) = f <$> l) as Hl.
  { intros A f l Hf. rewrite <- list_fmap_compose. apply list_fmap_ext. intros i a _. apply Hf. }
  assert (forall A (f : A -> A) (o : option A), (forall a, f (f a) = f a) -> f <$> (f <$> o) = f <$> o) as Ho.
  { intros A f [a|] Hf; cbn; by rewrite ?Hf. }
  assert (forall o, (o ≫= settle_text) ≫= settle_text = o ≫= settle_text) as Ht
    by (intros; apply settle_bind_idemp, settle_text_idemp).
  assert (forall o, (o ≫= settle_value) ≫= settle_value = o ≫= settle_value) as Hv
    by (intros; apply settle_bind_idemp, settle_value_idemp).
  unfold settle_InterpretationPayload; cbn [ip_output_type_candidates ip_confidence ip_content_integrity
    ip_meta_repairs ip_plan_mode ip_interpreted_fields ip_schema_version ip_teacher_prompt ip_language
    ip_teacher_intent ip_learning_objectives ip_constraints ip_resolved_output_type_reasoning
    ip_document_blueprint ip_subject_context ip_sub_subject_context ip_target_audience
    ip_requested_media_characteristics ip_assets ip_assessment_or_activity_blocks
    ip_teacher_delivery_summary ip_fallback ip_missing_fields].
  f_equal; [apply Hl|unfold settle_Confidence; cbn|apply Ho|apply Hv|unfold settle_PlanMode; cbn|apply Ho].
  - intros c. unfold settle_OutputCandidate. cbn. by rewrite settle_f64_idemp.
  - by rewrite settle_f64_idemp.
  - intros c. unfold settle_ContentIntegrity. cbn [ci_integrity_score ci_violations ci_classification_source ci_meta_repairs]. by rewrite settle_f64_idemp, Hv.
  - by rewrite settle_optional_f64_idemp.
  - intros f. unfold settle_InterpretedFields. cbn [if_target_audience if_output_type if_subject if_topic
      if_learning_objectives if_page_count if_difficulty_level if_include_activities if_slide_count
      if_question_count if_meeting_duration if_teaching_method if_assessment_method if_visual_density
      if_speaker_notes if_question_type]. by rewrite !Ht.
Qed.
Lemma settle_payload_i32 p : payload_i32 p = true -> payload_i32 (settle_InterpretationPayload p) = true.
Proof. unfold payload_i32. cbn. by destruct (ip_interpreted_fields p). Qed.

(** C17. A payload stored as JSON and read back is the payload, up to what its columns cannot hold:
    every text, list, option, flag and nested struct is the same, a number that is not finite is the
    default 0.6 (or absent), a JSON null is absent, and the interpreted fields are trimmed. Reading
    what was read back changes nothing more. *)
Theorem payload_roundtrip (p : InterpretationPayload) :
  payload_i32 p = true ->
  decode_InterpretationPayload (encode_InterpretationPayload p) = Some (settle_InterpretationPayload p)
  /\ decode_InterpretationPayload (encode_InterpretationPayload (settle_InterpretationPayload p))
     = Some (settle_InterpretationPayload p).
Proof.
  intros Hp. rewrite !payload_decodes; [|by apply settle_payload_i32|done].
  by rewrite settle_payload_idemp.
Qed.
End RoundTrip.

Module InterpretationWitness.
#[local] Existing Instances plain_case plain_lex.

(** A payload with a score that is not finite, a null and an untrimmed text. *)
Definition sample_payload : InterpretationPayload :=
  mkInterpretationPayload SCHEMA_VERSION (lit "Buat modul pecahan") (lit "id")
    (mkTeacherIntent (lit "generate_learning_media") (lit "goal") (lit "digital_download") true)
    [lit "memahami pecahan"] (mkInterpretationConstraints (lit "docx") (Some 45) [] [] None)
    [mkOutputCandidate (lit "docx") S754_nan (lit "reason")] (lit "reasoning")
    (mkDocumentBlueprint (lit "Pecahan") (lit "summary")
      [mkBlueprintSection (lit "Inti") (lit "purpose") [lit "a"] (lit "short")])
    None None (Some (mkTargetAudience (lit "SD Kelas 4") None None)) default_characteristics [] []
    (lit "summary") (mkConfidence (f64_lit 6 1) (lit "medium") None) default_fallback None (Some Null)
    default_plan_mode
    (Some (mkInterpretedFields None None (Some (lit "  IPA ")) (Some (lit " ")) None None None None None
      (Some 10) None None None None None None)) [].

Lemma payload_roundtrip_witness :
  payload_i32 sample_payload = true
  /\ decode_InterpretationPayload (encode_InterpretationPayload sample_payload)
     = Some (settle_InterpretationPayload sample_payload)
  /\ ip_meta_repairs (settle_InterpretationPayload sample_payload) = None
  /\ (f ← ip_interpreted_fields (settle_InterpretationPayload sample_payload); if_subject f) = Some (lit "IPA").
Proof.
  split; [reflexivity|]. split; [exact (proj1 (payload_roundtrip sample_payload eq_refl))|].
  split; reflexivity.
Defined.
End InterpretationWitness.
