(* ===== verification/Cache.v ===== *)
(** * The response cache of the LLM services (src/src/cache/mod.rs)

    The table [llm_cache_entries] keeps one response per key. [lookup] counts a
    hit, [peek] does not, [store] replaces; what is expired is deleted lazily,
    by key or in batches. A session-level advisory lock of PostgreSQL is meant to
    keep a second request from calling the provider for the same key. The
    specification is a map whose entries expire and are never deleted: the
    statements implement it in every interleaving. *)

From stdpp Require Import base gmap list option strings fin_maps sorting.
From Stdlib Require Import ZArith Lia.
From S2P Require Import Prelude RustStr Utf8 Json Canon Store Samples.
#[local] Open Scope Z_scope.

(** ** Types *)

Inductive CacheRoute := Interpret | Respond.
#[export] Instance cache_route_eq_dec : EqDecision CacheRoute.
Proof. solve_decision. Defined.
Definition cache_route_as_str (r : CacheRoute) : str :=
  match r with Interpret => lit "interpret" | Respond => lit "respond" end.
Definition default_ttl_seconds (r : CacheRoute) : Z :=
  match r with Interpret => 3600 | Respond => 86400 end.

Record CacheEntry := mkCacheEntry {
  ce_cache_key : str;
  ce_request_payload : value;
  ce_response_payload : value;
  ce_created_at : Z;
  ce_expires_at : Z;
  ce_hit_count : Z;
  ce_last_hit_at : option Z
}.
#[export] Instance CacheEntry_eta : Eta CacheEntry := λ e,
  mkCacheEntry (ce_cache_key e) (ce_request_payload e) (ce_response_payload e) (ce_created_at e)
    (ce_expires_at e) (ce_hit_count e) (ce_last_hit_at e).

Record CleanupResult := { cr_route : CacheRoute; deleted_count : Z }.

(** ** Keys *)

(** The first eight bytes of [Blake2b512], of the blake2 crate. *)
Class Blake2b512 := blake2b512 : list Z -> list Z.
Class Blake2b512Laws `{Blake2b512} := {
  blake2b512_length : forall d, length (blake2b512 d) = 64%nat;
  blake2b512_bytes : forall d, Forall (λ b, 0 <= b < 256) (blake2b512 d)
}.

(** [i64::from_ne_bytes] on a little-endian machine. *)
Fixpoint le_bytes (l : list Z) : Z :=
  match l with [] => 0 | b :: l' => b + 256 * le_bytes l' end.
Definition i64_from_ne_bytes (l : list Z) : Z := i64_wrap (le_bytes l).

Section Keys.
Context `{CaseTables} `{JsonLex} `{Sha256Hex} `{Blake2b512}.

Definition cache_document (route : CacheRoute) (provider model request_type instruction : str)
    (input_payload : value) : value :=
  obj [("schema_version", jstr "llm_adapter_cache.v1");
       ("route", String (cache_route_as_str route));
       ("request_type", String request_type);
       ("provider", String (to_lowercase provider));
       ("model", String model);
       ("instruction", String instruction);
       ("input", input_payload)]%string.

Definition build_cache_key (route : CacheRoute) (provider model request_type instruction : str)
    (input_payload : value) : str :=
  sha256_hex (to_canonical_json_string
    (cache_document route provider model request_type instruction input_payload)).

Definition build_lock_id (route : CacheRoute) (cache_key : str) : Z :=
  let payload := cache_route_as_str route ++ lit ":" ++ trim cache_key in
  let bytes := take 8 (blake2b512 (utf8_encode payload)) in
  let lock_id := i64_from_ne_bytes bytes in
  if lock_id <=? 0 then 1 else lock_id.
End Keys.

(** ** The table llm_cache_entries *)

(** A value of the column [cache_key CHAR(64)]: padded with blanks, cut only of blanks. *)
Definition bpchar64 (k : str) : option str :=
  if (length k <=? 64)%nat then Some (k ++ replicate (64 - length k) 32)
  else if forallb (Z.eqb 32) (drop 64 k) then Some (take 64 k) else None.
Fixpoint strip_blanks (k : str) : str :=
  match k with
  | [] => []
  | c :: k' => match strip_blanks k' with [] => if c =? 32 then [] else [c] | r => c :: r end
  end.

Record CacheRow := mkCacheRow {
  row_id : Z;
  row_route : str;
  row_entry : CacheEntry
}.

(** One tick of the schedule per statement: whether it fails, how long it takes, and the session
    of the pool that runs it. *)
Record cache_tick := mkCacheTick { ct_fails : bool; ct_elapsed : N; ct_session : Z }.

Record CS := mkCS {
  entries : gmap str CacheRow;        (* by the key without its padding: the unique index *)
  next_entry_id : Z;
  pg_clock : Z;                       (* NOW() *)
  clock_skew : Z;                     (* Utc::now() of the process, less NOW() *)
  lazy_cleanup_last : option Z;
  advisory : gmap Z (Z * Z);          (* lock id: session and number of acquisitions *)
  cache_ticks : list cache_tick
}.
#[export] Instance CS_eta : Eta CS := λ s,
  mkCS (entries s) (next_entry_id s) (pg_clock s) (clock_skew s) (lazy_cleanup_last s) (advisory s)
    (cache_ticks s).

Definition CM (A : Type) : Type := CS -> outcome db_error A * CS.
#[export] Instance CM_ret : MRet CM := λ A a s, (Ok a, s).
#[export] Instance CM_bind : MBind CM := λ A B k m s,
  match m s with
  | (Ok a, s') => k a s'
  | (Err e, s') => (Err e, s')
  | (Panic, s') => (Panic, s')
  end.
Definition cm_panicking {A} (o : option A) : CM A := λ s, (of_panicking o, s).
(** [if let Err(e) = m.await { warn!(...) }]. *)
Definition cm_ignoring {A} (m : CM A) : CM unit := λ s,
  match m s with (Panic, s') => (Panic, s') | (_, s') => (Ok (), s') end.

(** A statement: an error leaves the table alone. *)
Definition cache_statement {A} (q : Z -> CS -> outcome db_error (A * CS)) : CM A := λ s,
  let '(t, rest) := match cache_ticks s with t :: rest => (t, rest) | [] => (mkCacheTick false 0 0, []) end in
  let s := s <| cache_ticks := rest |> <| pg_clock := pg_clock s + Z.of_N (ct_elapsed t) |> in
  if ct_fails t then (Err Unavailable, s)
  else
    match q (ct_session t) s with
    | Ok (a, s') => (Ok a, s')
    | Err e => (Err e, s)
    | Panic => (Panic, s)
    end.

Definition matches_route (route : CacheRoute) (r : CacheRow) : bool :=
  bool_decide (row_route r = cache_route_as_str route).
Definition live (now : Z) (r : CacheRow) : bool := now <? ce_expires_at (row_entry r).

(** [lookup_sql]. *)
Definition lookup_sql (cache_key : str) (route : CacheRoute) (s : CS) :
    outcome db_error (option CacheEntry * CS) :=
  Ok (r ← entries s !! cache_key;
      if (matches_route route r && live (pg_clock s) r : bool) then Some (row_entry r) else None, s).

(** [hit_count + 1, last_hit_at = NOW()]. *)
Definition touched (now : Z) (e : CacheEntry) : CacheEntry :=
  e <| ce_hit_count := ce_hit_count e + 1 |> <| ce_last_hit_at := Some now |>.
(** [touch_sql]. *)
Definition touch_sql (cache_key : str) (route : CacheRoute) (s : CS) :
    outcome db_error (option CacheEntry * CS) :=
  match entries s !! cache_key with
  | Some r =>
      if matches_route route r && live (pg_clock s) r then
        let e := touched (pg_clock s) (row_entry r) in
        if in_i64 (ce_hit_count e)
        then Ok (Some e, s <| entries := <[cache_key := mkCacheRow (row_id r) (row_route r) e]> (entries s) |>)
        else Err CheckViolation
      else Ok (None, s)
  | None => Ok (None, s)
  end.

(** [upsert_sql]: a conflict on the key keeps the row's id and its route. *)
Definition upsert_sql (cache_key : str) (route : CacheRoute) (request_payload response_payload : value)
    (expires_at : Z) (s : CS) : outcome db_error (CacheEntry * CS) :=
  match bpchar64 cache_key with
  | None => Err CheckViolation
  | Some k =>
      let e := mkCacheEntry k request_payload response_payload (pg_clock s) expires_at 0 None in
      let r := match entries s !! strip_blanks cache_key with
               | Some old => mkCacheRow (row_id old) (row_route old) e
               | None => mkCacheRow (next_entry_id s) (cache_route_as_str route) e
               end in
      Ok (e, s <| entries := <[strip_blanks cache_key := r]> (entries s) |>
               <| next_entry_id := next_entry_id s + 1 |>)
  end.

(** [delete_expired_by_key_sql]. *)
Definition delete_expired_by_key_sql (cache_key : str) (s : CS) : outcome db_error (unit * CS) :=
  match entries s !! cache_key with
  | Some r => if live (pg_clock s) r then Ok ((), s)
              else Ok ((), s <| entries := delete cache_key (entries s) |>)
  | None => Ok ((), s)
  end.

Definition expires_before (a b : str * CacheRow) : Prop :=
  ce_expires_at (row_entry a.2) <= ce_expires_at (row_entry b.2).
#[export] Instance expires_before_dec : RelDecision expires_before.
Proof. intros a b. unfold expires_before. apply _. Defined.
(** The rows [cleanup_sql] selects: the order among rows that expire together is the server's. *)
Definition expired_rows (route : CacheRoute) (limit : Z) (s : CS) : list (str * CacheRow) :=
  take (Z.to_nat limit) (merge_sort expires_before
    (filter (λ kr, matches_route route kr.2 && negb (live (pg_clock s) kr.2) = true)
      (map_to_list (entries s)))).
(** [cleanup_sql]: the ids of the deleted rows. *)
Definition cleanup_sql (route : CacheRoute) (limit : Z) (s : CS) : outcome db_error (list Z * CS) :=
  if limit <? 0 then Err (Protocol (lit "LIMIT must not be negative"))
  else
    let gone := expired_rows route limit s in
    Ok ((λ kr, row_id kr.2) <$> gone, s <| entries := foldr delete (entries s) gone.*1 |>).

(** ** LlmCacheRepo *)

Definition cm_now : CM Z := λ s, (Ok (pg_clock s), s).
Definition cm_utc_now : CM Z := λ s, (Ok (pg_clock s + clock_skew s), s).

(** [Utc::now() + chrono::Duration::seconds(ttl)]: panics past the range of a duration
    (milliseconds in an i64) or of a date. *)
Definition chrono_max_seconds : Z := 8210266876799.
Definition chrono_min_seconds : Z := -8334601228800.
Definition expires_after (now ttl : Z) : option Z :=
  if Z.abs ttl * 1000 <=? 2 ^ 63 - 1 then
    let t := now + ttl * 1000000000 in
    if (chrono_min_seconds * 1000000000 <=? t) && (t <? (chrono_max_seconds + 1) * 1000000000)
    then Some t else None
  else None.

(** [cleanup_expired]: [fetch_optional] reads the first returned id. *)
Definition cleanup_expired (route : CacheRoute) (limit : Z) : CM CleanupResult :=
  ids ← cache_statement (λ _, cleanup_sql route limit);
  let deleted := default 0 (head ids) in
  mret {| cr_route := route; deleted_count := u64_wrap deleted |}.

Definition maybe_run_lazy_cleanup (route : CacheRoute) : CM unit := λ s,
  let now := pg_clock s in
  let due := match lazy_cleanup_last s with None => true | Some t => 60000000000 <=? now - t end in
  let s := if due then s <| lazy_cleanup_last := Some now |> else s in
  if due then cm_ignoring (cleanup_expired route 100) s else (Ok (), s).

Definition lookup_entry (route : CacheRoute) (cache_key : str) : CM (option CacheEntry) :=
  maybe_run_lazy_cleanup route ≫= λ _,
  cache_statement (λ _, delete_expired_by_key_sql cache_key) ≫= λ _,
  cache_statement (λ _, touch_sql cache_key route).

Definition peek (route : CacheRoute) (cache_key : str) : CM (option CacheEntry) :=
  cache_statement (λ _, lookup_sql cache_key route).

Definition store (route : CacheRoute) (cache_key : str) (request_payload response_payload : value)
    (ttl_seconds : option Z) : CM CacheEntry :=
  maybe_run_lazy_cleanup route ≫= λ _,
  cm_utc_now ≫= λ now,
  let ttl := default (default_ttl_seconds route) ttl_seconds in
  cm_panicking (expires_after now ttl) ≫= λ expires_at,
  cache_statement (λ _, upsert_sql cache_key route request_payload response_payload expires_at).

(** [pg_try_advisory_lock]: a session that holds the lock gets it again. *)
Definition pg_try_advisory_lock (lock_id session : Z) (s : CS) : outcome db_error (bool * CS) :=
  match advisory s !! lock_id with
  | None => Ok (true, s <| advisory := <[lock_id := (session, 1)]> (advisory s) |>)
  | Some (holder, n) =>
      if holder =? session
      then Ok (true, s <| advisory := <[lock_id := (holder, n + 1)]> (advisory s) |>)
      else Ok (false, s)
  end.
(** [pg_advisory_unlock]: false, with a warning, for a session that does not hold the lock. *)
Definition pg_advisory_unlock (lock_id session : Z) (s : CS) : outcome db_error (bool * CS) :=
  match advisory s !! lock_id with
  | None => Ok (false, s)
  | Some (holder, n) =>
      if holder =? session
      then Ok (true, s <| advisory := if n <=? 1 then delete lock_id (advisory s)
                                      else <[lock_id := (holder, n - 1)]> (advisory s) |>)
      else Ok (false, s)
  end.

Section Locks.
Context `{Blake2b512}.
Definition try_acquire_lock (route : CacheRoute) (cache_key : str) : CM bool :=
  cache_statement (pg_try_advisory_lock (build_lock_id route cache_key)).
Definition release_lock (route : CacheRoute) (cache_key : str) : CM bool :=
  cache_statement (pg_advisory_unlock (build_lock_id route cache_key)).
End Locks.

(** [wait_for_entry], with a bound on the iterations; [None] is running out of it. The intervals
    are nanoseconds. *)
Definition cm_sleep (ns : Z) : CM unit := λ s, (Ok (), s <| pg_clock := pg_clock s + ns |>).
Fixpoint poll (fuel : nat) (route : CacheRoute) (cache_key : str) (interval deadline : Z) :
    CM (option (option CacheEntry)) :=
  match fuel with
  | O => mret None
  | S fuel' =>
      entry ← peek route cache_key;
      match entry with
      | Some e => mret (Some (Some e))
      | None =>
          now ← cm_now;
          if deadline <=? now then mret (Some None)
          else cm_sleep interval ≫= λ _, poll fuel' route cache_key interval deadline
      end
  end.
Definition wait_for_entry (fuel : nat) (route : CacheRoute) (cache_key : str)
    (poll_interval timeout : option Z) : CM (option (option CacheEntry)) :=
  let interval := default 50000000 poll_interval in
  now ← cm_now;
  poll fuel route cache_key interval (now + default 10000000000 timeout).

(** ** The specification: a map whose entries expire *)

(** The state of the specification: what was last stored under each key, however old. *)
Record TTL := mkTTL {
  contents : gmap str (str * CacheEntry);
  ttl_clock : Z;
  ttl_ticks : list cache_tick
}.
#[export] Instance TTL_eta : Eta TTL := λ a, mkTTL (contents a) (ttl_clock a) (ttl_ticks a).

(** What the map shows of an entry at an instant. *)
Definition live_at (now : Z) (o : option (str * CacheEntry)) : option (str * CacheEntry) :=
  p ← o; if (now <? ce_expires_at p.2 : bool) then Some p else None.
Definition visible (route : CacheRoute) (k : str) (a : TTL) : option CacheEntry :=
  p ← live_at (ttl_clock a) (contents a !! k);
  if (bool_decide (p.1 = cache_route_as_str route) : bool) then Some p.2 else None.

(** A statement of any request, or time that passes. *)
Inductive cache_stmt :=
| StTouch (k : str) (route : CacheRoute)
| StLookup (k : str) (route : CacheRoute)
| StUpsert (k : str) (route : CacheRoute) (request response : value) (expires_at : Z)
| StDeleteExpired (k : str)
| StCleanup (route : CacheRoute) (limit : Z)
| StSleep (ns : N).

(** The statement on the table; the deletions answer nothing. *)
Definition run_stmt (st : cache_stmt) : CM (option CacheEntry) :=
  match st with
  | StTouch k route => cache_statement (λ _, touch_sql k route)
  | StLookup k route => cache_statement (λ _, lookup_sql k route)
  | StUpsert k route req resp exp =>
      cache_statement (λ _, upsert_sql k route req resp exp) ≫= λ e, mret (Some e)
  | StDeleteExpired k => cache_statement (λ _, delete_expired_by_key_sql k) ≫= λ _, mret None
  | StCleanup route limit => cache_statement (λ _, cleanup_sql route limit) ≫= λ _, mret None
  | StSleep ns => cm_sleep (Z.of_N ns) ≫= λ _, mret None
  end.

(** The same statement on the specification: nothing is ever deleted. *)
Definition spec_tick (f : TTL -> outcome db_error (option CacheEntry) * TTL) (a : TTL) :
    outcome db_error (option CacheEntry) * TTL :=
  let '(t, rest) := match ttl_ticks a with t :: rest => (t, rest) | [] => (mkCacheTick false 0 0, []) end in
  let a := a <| ttl_ticks := rest |> <| ttl_clock := ttl_clock a + Z.of_N (ct_elapsed t) |> in
  if ct_fails t then (Err Unavailable, a) else f a.
Definition spec_stmt (st : cache_stmt) : TTL -> outcome db_error (option CacheEntry) * TTL :=
  match st with
  | StTouch k route => spec_tick (λ a,
      match visible route k a with
      | Some e =>
          let e' := touched (ttl_clock a) e in
          if in_i64 (ce_hit_count e')
          then (Ok (Some e'), a <| contents := <[k := (cache_route_as_str route, e')]> (contents a) |>)
          else (Err CheckViolation, a)
      | None => (Ok None, a)
      end)
  | StLookup k route => spec_tick (λ a, (Ok (visible route k a), a))
  | StUpsert k route req resp exp => spec_tick (λ a,
      match bpchar64 k with
      | Some padded =>
          let e := mkCacheEntry padded req resp (ttl_clock a) exp 0 None in
          (Ok (Some e), a <| contents := <[strip_blanks k := (cache_route_as_str route, e)]> (contents a) |>)
      | None => (Err CheckViolation, a)
      end)
  | StDeleteExpired _ => spec_tick (λ a, (Ok None, a))
  | StCleanup _ limit => spec_tick (λ a,
      if limit <? 0 then (Err (Protocol (lit "LIMIT must not be negative")), a) else (Ok None, a))
  | StSleep ns => λ a, (Ok None, a <| ttl_clock := ttl_clock a + Z.of_N ns |>)
  end.

(** The answers of a script of statements. *)
Fixpoint run_script {S} (f : cache_stmt -> S -> outcome db_error (option CacheEntry) * S)
    (script : list cache_stmt) (s : S) : list (outcome db_error (option CacheEntry)) * S :=
  match script with
  | [] => ([], s)
  | st :: script' =>
      let '(r, s') := f st s in
      let '(rs, s'') := run_script f script' s' in
      (r :: rs, s'')
  end.

(** ** Lemmas: the specification and the table *)

Lemma live_at_later now now' x y : now <= now' -> live_at now x = live_at now y -> live_at now' x = live_at now' y.
Proof.
  intros Hle. unfold live_at. destruct x as [p|], y as [q|]; simpl; [|..|done].
  - destruct (Z.ltb_spec now (ce_expires_at p.2)), (Z.ltb_spec now (ce_expires_at q.2)); try done.
    + by intros [= ->].
    + intros _. by rewrite !(proj2 (Z.ltb_ge _ _)) by lia.
  - destruct (Z.ltb_spec now (ce_expires_at p.2)); [done|]. intros _. by rewrite (proj2 (Z.ltb_ge _ _)) by lia.
  - destruct (Z.ltb_spec now (ce_expires_at q.2)); [done|]. intros _. by rewrite (proj2 (Z.ltb_ge _ _)) by lia.
Qed.

Section Refinement.
(** Every key is used with one route: [build_cache_key] hashes the route into the key. *)
Context (route_of : str -> CacheRoute).

Definition keyed (st : cache_stmt) : Prop :=
  match st with
  | StTouch k route | StLookup k route => route = route_of k
  | StUpsert k route _ _ _ => route = route_of (strip_blanks k)
  | _ => True
  end.

Definition shown (r : CacheRow) : str * CacheEntry := (row_route r, row_entry r).

Record related (s : CS) (a : TTL) : Prop := {
  rel_clock : pg_clock s = ttl_clock a;
  rel_ticks : cache_ticks s = ttl_ticks a;
  rel_live : forall k, live_at (pg_clock s) (shown <$> entries s !! k) = live_at (pg_clock s) (contents a !! k);
  rel_route : forall k r, entries s !! k = Some r -> row_route r = cache_route_as_str (route_of k)
}.

Lemma related_later (s : CS) (a : TTL) d l :
  related s a -> 0 <= d ->
  related (s <| cache_ticks := l |> <| pg_clock := pg_clock s + d |>)
    (a <| ttl_ticks := l |> <| ttl_clock := ttl_clock a + d |>).
Proof.
  intros [Hc Ht Hl Hr] Hd. split; simpl; [by rewrite Hc|done| |done].
  intros k. eapply live_at_later; [|apply Hl]. lia.
Qed.

(** A simulation of what a statement does once its tick is taken. *)
Lemma statement_sim {A} (q : CS -> outcome db_error (A * CS)) (g : A -> option CacheEntry) f s a :
  related s a ->
  (forall s a, related s a ->
    match q s with
    | Ok (x, s') => (f a).1 = Ok (g x) /\ related s' (f a).2
    | Err e => f a = (Err e, a)
    | Panic => False
    end) ->
  let '(r, s') := (cache_statement (λ _, q) ≫= λ x, mret (g x)) s in
  let '(r', a') := spec_tick f a in
  r = r' /\ related s' a'.
Proof.
  intros Hrel Hq. unfold mbind, CM_bind, mret, CM_ret, cache_statement, spec_tick.
  rewrite <- (rel_ticks _ _ Hrel).
  destruct (match cache_ticks s with [] => _ | _ => _ end) as [t rest].
  pose proof (related_later s a (Z.of_N (ct_elapsed t)) rest Hrel (N2Z.is_nonneg _)) as Hrel'.
  destruct (ct_fails t); [done|]. specialize (Hq _ _ Hrel').
  destruct (q _) as [[x s']|e|]; [|by rewrite Hq|done].
  destruct (f _) as [r' a']. simpl in Hq. destruct Hq as [-> Hq]. done.
Qed.

Lemma statement_sim_id (q : CS -> outcome db_error (option CacheEntry * CS)) f s a :
  related s a ->
  (forall s a, related s a ->
    match q s with
    | Ok (x, s') => (f a).1 = Ok x /\ related s' (f a).2
    | Err e => f a = (Err e, a)
    | Panic => False
    end) ->
  let '(r, s') := cache_statement (λ _, q) s in
  let '(r', a') := spec_tick f a in
  r = r' /\ related s' a'.
Proof.
  intros Hrel Hq. pose proof (statement_sim q (λ x, x) f s a Hrel Hq) as Hsim.
  unfold mbind, CM_bind in Hsim. by destruct (cache_statement _ s) as [[] ?].
Qed.

(** Deleting rows that have expired changes nothing that is shown. *)
Lemma related_delete (s : CS) (a : TTL) (m : gmap str CacheRow) :
  related s a ->
  (forall k, m !! k = entries s !! k \/
    m !! k = None /\ exists r, entries s !! k = Some r /\ live (pg_clock s) r = false) ->
  related (s <| entries := m |>) a.
Proof.
  intros [Hc Ht Hl Hr] Hm. split; simpl; [done|done| |].
  - intros k. destruct (Hm k) as [->|(-> & r & Hk & Hd)]; [apply Hl|].
    rewrite <- Hl, Hk. simpl. unfold live in Hd. unfold live_at. simpl. by rewrite Hd.
  - intros k r Hk. destruct (Hm k) as [Heq|[Hn _]]; [|by rewrite Hn in Hk].
    apply (Hr k). by rewrite <- Heq.
Qed.

Lemma related_insert (s : CS) (a : TTL) k r p id' :
  related s a -> row_route r = cache_route_as_str (route_of k) -> shown r = p ->
  related (s <| entries := <[k := r]> (entries s) |> <| next_entry_id := id' |>)
    (a <| contents := <[k := p]> (contents a) |>).
Proof.
  intros [Hc Ht Hl Hr] Hroute Hp. split; simpl; [done|done| |].
  - intros k'. destruct (decide (k' = k)) as [->|].
    + by rewrite !lookup_insert_eq, <- Hp.
    + rewrite !lookup_insert_ne by done. apply Hl.
  - intros k' r'. destruct (decide (k' = k)) as [->|].
    + rewrite lookup_insert_eq. intros [= <-]. exact Hroute.
    + rewrite lookup_insert_ne by done. apply Hr.
Qed.

(** What a reader of the table sees is what the specification shows. *)
Lemma visible_row (s : CS) (a : TTL) route k :
  related s a ->
  visible route k a =
    (r ← entries s !! k; if (matches_route route r && live (pg_clock s) r : bool) then Some (row_entry r) else None).
Proof.
  intros [Hc Ht Hl Hr]. unfold visible. rewrite <- Hc, <- Hl.
  destruct (entries s !! k) as [r|]; simpl; [|done]. unfold live_at, live, matches_route. simpl.
  destruct (pg_clock s <? ce_expires_at (row_entry r)); simpl; [|by rewrite andb_false_r].
  by case_bool_decide.
Qed.

Lemma foldr_delete_lookup (ks : list str) (m : gmap str CacheRow) k :
  foldr delete m ks !! k = if decide (k ∈ ks) then None else m !! k.
Proof.
  induction ks as [|k' ks IH]; simpl; [done|].
  destruct (decide (k = k')) as [->|Hne].
  - rewrite lookup_delete_eq, decide_True; [done|]. by left.
  - rewrite lookup_delete_ne, IH by done.
    destruct (decide (k ∈ ks)); [rewrite decide_True; [done|by right]|].
    rewrite decide_False; [done|]. by intros [?|?]%elem_of_cons.
Qed.

Lemma expired_rows_dead route limit s k r :
  (k, r) ∈ expired_rows route limit s -> entries s !! k = Some r /\ live (pg_clock s) r = false.
Proof.
  unfold expired_rows. intros Hin%elem_of_take. destruct Hin as (i & Hin & _).
  apply list_elem_of_lookup_2 in Hin.
  rewrite (merge_sort_Permutation expires_before), list_elem_of_filter in Hin.
  destruct Hin as [Hp Hin%elem_of_map_to_list]. split; [done|].
  apply andb_true_iff in Hp as [_ Hp]. simpl in Hp. by destruct (live _ r).
Qed.

(** Each statement of the table does what the specification's statement does. *)
Lemma stmt_sim st (s : CS) (a : TTL) :
  related s a -> keyed st ->
  let '(r, s') := run_stmt st s in
  let '(r', a') := spec_stmt st a in
  r = r' /\ related s' a'.
Proof.
  intros Hrel Hkey. destruct st as [k route|k route|k route req resp exp|k|route limit|ns]; simpl in Hkey; subst;
    cbn [run_stmt spec_stmt].
  - apply statement_sim_id; [done|]. clear s a Hrel. intros s a Hrel.
    rewrite (visible_row s) by done. unfold touch_sql. destruct (entries s !! k) as [r|] eqn:Ek; simpl; [|done].
    destruct (matches_route _ r && live _ r) eqn:Hm; [|done]. rewrite <- (rel_clock _ _ Hrel).
    destruct (in_i64 _) eqn:E; [|done]. simpl. split; [done|].
    apply (related_insert s a k _ _ (next_entry_id s)); [done|simpl; by apply (rel_route _ _ Hrel)|].
    unfold shown. simpl. f_equal. by apply (rel_route _ _ Hrel).
  - apply statement_sim_id; [done|]. clear s a Hrel. intros s a Hrel. simpl.
    by rewrite (visible_row s).
  - apply statement_sim; [done|]. clear s a Hrel. intros s a Hrel. unfold upsert_sql.
    destruct (bpchar64 k) as [padded|]; [|done]. rewrite <- (rel_clock _ _ Hrel). simpl. split; [done|].
    apply related_insert; [done| |]; destruct (entries s !! strip_blanks k) as [old|] eqn:Ek; simpl; try done.
    + by apply (rel_route _ _ Hrel).
    + unfold shown. simpl. f_equal. by apply (rel_route _ _ Hrel).
  - apply (statement_sim _ (λ _, None)); [done|]. clear s a Hrel. intros s a Hrel.
    unfold delete_expired_by_key_sql. destruct (entries s !! k) as [r|] eqn:Ek; [|done].
    destruct (live (pg_clock s) r) eqn:Hl; [done|]. split; [done|]. apply related_delete; [done|].
    intros k'. destruct (decide (k' = k)) as [->|]; [right|left].
    + rewrite lookup_delete_eq. eauto.
    + by rewrite lookup_delete_ne.
  - apply (statement_sim _ (λ _, None)); [done|]. clear s a Hrel. intros s a Hrel.
    unfold cleanup_sql. destruct (limit <? 0); [done|]. split; [done|]. apply related_delete; [done|].
    intros k. rewrite foldr_delete_lookup. case_decide as Hk; [right|by left]. split; [done|].
    apply list_elem_of_fmap in Hk as ([k' r] & -> & Hin). exists r. by eapply expired_rows_dead.
  - split; [done|].
    destruct (related_later s a (Z.of_N ns) (cache_ticks s) Hrel (N2Z.is_nonneg _)) as [Hc _ Hl Hr].
    split; [exact Hc|exact (rel_ticks _ _ Hrel)|exact Hl|exact Hr].
Qed.

Lemma script_sim script (s : CS) (a : TTL) :
  related s a -> Forall keyed script ->
  (run_script run_stmt script s).1 = (run_script spec_stmt script a).1 /\
  related (run_script run_stmt script s).2 (run_script spec_stmt script a).2.
Proof.
  intros Hrel Hk. revert s a Hrel. induction Hk as [|st script Hst Hk IH]; intros s a Hrel; simpl; [done|].
  pose proof (stmt_sim st s a Hrel Hst) as Hsim.
  destruct (run_stmt st s) as [r s1], (spec_stmt st a) as [r' a1]. destruct Hsim as [-> Hrel1].
  specialize (IH s1 a1 Hrel1). destruct (run_script run_stmt script s1), (run_script spec_stmt script a1).
  simpl in *. destruct IH as [-> ?]. done.
Qed.
End Refinement.

(** The handlers are scripts of those statements. *)

Definition cleanup_script (route : CacheRoute) (s : CS) : list cache_stmt :=
  match lazy_cleanup_last s with
  | Some t => if 60000000000 <=? pg_clock s - t then [StCleanup route 100] else []
  | None => [StCleanup route 100]
  end.

(** ** Lemmas: what a stored entry becomes *)

Section Serving.
Context (route_of : str -> CacheRoute).

(** The entry under [k] is [e], but for its hits. *)
Definition served (k : str) (e : CacheEntry) (a : TTL) : Prop :=
  exists n l, 0 <= n /\ contents a !! k =
    Some (cache_route_as_str (route_of k), e <| ce_hit_count := n |> <| ce_last_hit_at := l |>).

Definition upserts (k : str) (st : cache_stmt) : Prop :=
  match st with StUpsert k' _ _ _ _ => strip_blanks k' = k | _ => False end.

Lemma spec_tick_cases f (a : TTL) (P : TTL -> Prop) :
  (forall c t, P (a <| ttl_ticks := t |> <| ttl_clock := c |>)) ->
  (forall a', P a' -> P (f a').2) -> P (spec_tick f a).2.
Proof.
  intros Ha Hf. unfold spec_tick. destruct (match ttl_ticks a with [] => _ | _ => _ end) as [t rest].
  destruct (ct_fails t); simpl; [apply Ha|]. apply Hf, Ha.
Qed.

Lemma served_stmt k e st (a : TTL) :
  keyed route_of st -> ~ upserts k st -> served k e a -> served k e (spec_stmt st a).2.
Proof.
  intros Hkey Hk He. destruct st as [k' route|k' route|k' route req resp exp|k'|route limit|ns];
    cbn [spec_stmt]; simpl in Hkey; subst;
    try (apply spec_tick_cases; [intros c t; exact He|clear He; intros a' He]); try exact He.
  - destruct (visible _ k' a') as [e'|] eqn:Hv; simpl; [|done]. destruct (in_i64 _); simpl; [|done].
    destruct (decide (k' = k)) as [->|Hne].
    + destruct He as (n & last & Hn & He). unfold visible in Hv. rewrite He in Hv. unfold live_at in Hv. simpl in Hv.
      destruct (_ <? _); simpl in Hv; [|done]. rewrite bool_decide_true in Hv by done. injection Hv as <-.
      exists (n + 1), (Some (ttl_clock a')). split; [lia|]. simpl. by rewrite lookup_insert_eq.
    + destruct He as (n & l & Hn & He). exists n, l. split; [done|]. simpl. by rewrite lookup_insert_ne.
  - destruct (bpchar64 k') as [padded|]; simpl; [|done]. destruct He as (n & l & Hn & He). exists n, l. split; [done|].
    simpl. rewrite lookup_insert_ne; [done|]. intros Heq. by apply Hk.
  - by destruct (limit <? 0).
Qed.

Lemma served_script k e script (a : TTL) :
  Forall (keyed route_of) script -> Forall (λ st, ~ upserts k st) script -> served k e a ->
  served k e (run_script spec_stmt script a).2.
Proof.
  intros Hkey Hup. revert a. induction script as [|st script IH]; intros a He; simpl; [done|].
  apply Forall_cons in Hkey as [Hkey1 Hkey], Hup as [Hup1 Hup].
  pose proof (served_stmt k e st a Hkey1 Hup1 He) as He1. destruct (spec_stmt st a) as [r a1].
  specialize (IH Hkey Hup a1 He1). by destruct (run_script spec_stmt script a1).
Qed.

(** A touch of an entry that is served. *)
Lemma touch_served k e (a : TTL) o a' :
  served k e a -> spec_stmt (StTouch k (route_of k)) a = (Ok o, a') ->
  o = if ttl_clock a' <? ce_expires_at e
      then (λ p, p.2) <$> contents a' !! k else None.
Proof.
  intros (n & l & Hn & He). cbn [spec_stmt]. unfold spec_tick.
  destruct (match ttl_ticks a with [] => _ | _ => _ end) as [t rest].
  destruct (ct_fails t); [done|]. unfold visible, live_at. simpl. rewrite He. simpl.
  destruct (_ <? ce_expires_at e) eqn:Hlive; simpl.
  - rewrite bool_decide_true by done. destruct (in_i64 _); [|done]. intros [= <- <-]. simpl.
    by rewrite Hlive, lookup_insert_eq.
  - intros Heq. injection Heq as Ho Ha. rewrite <- Ho, <- Ha. simpl. by rewrite Hlive.
Qed.

(** The batch deletion changes nothing that is shown, whether it succeeds or not. *)
Lemma lazy_cleanup_sim route (s : CS) (a : TTL) :
  related route_of s a ->
  exists (script : list cache_stmt), Forall (λ st, keyed route_of st /\ forall k, ~ upserts k st) script /\
    (maybe_run_lazy_cleanup route s).1 = Ok () /\
    related route_of (maybe_run_lazy_cleanup route s).2 (run_script spec_stmt script a).2.
Proof.
  intros Hrel. unfold maybe_run_lazy_cleanup.
  destruct (match lazy_cleanup_last s with None => true | _ => _ end); [|by exists []].
  exists [StCleanup route 100]. split; [constructor; [split; [exact I|intros k []]|constructor]|].
  set (s0 := s <| lazy_cleanup_last := Some (pg_clock s) |>).
  assert (related route_of s0 a) as Hrel0 by (destruct Hrel as [? ? ? ?]; by split).
  pose proof (stmt_sim route_of (StCleanup route 100) s0 a Hrel0 I) as Hsim. cbn [run_script].
  destruct (spec_stmt (StCleanup route 100) a) as [r' a'].
  cbn [run_stmt] in Hsim. unfold cm_ignoring, cleanup_expired, mbind, CM_bind, mret, CM_ret in *.
  destruct (cache_statement _ s0) as [[ids|er|] s1] eqn:Est; simpl in Hsim |- *; destruct Hsim as [Hr Hsim];
    [by split|by split|].
  exfalso. revert Est. unfold cache_statement. destruct (match cache_ticks s0 with [] => _ | _ => _ end).
  destruct (ct_fails _); [done|]. by unfold cleanup_sql.
Qed.

(** [lookup_entry], on the specification. *)
Lemma lookup_sim k (s : CS) (a : TTL) o s' e :
  related route_of s a -> served k e a -> lookup_entry (route_of k) k s = (Ok o, s') ->
  exists a', related route_of s' a' /\ served k e a' /\
    o = if pg_clock s' <? ce_expires_at e then (λ p, p.2) <$> contents a' !! k else None.
Proof.
  intros Hrel He. destruct (lazy_cleanup_sim (route_of k) s a Hrel) as (script & Hs & Hok & Hrel1).
  apply (served_script k e script) in He;
    [|eapply Forall_impl; [exact Hs|]; by intros st [? _]
     |eapply Forall_impl; [exact Hs|]; intros st [_ Hno]; exact (Hno k)].
  unfold lookup_entry, mbind, CM_bind. destruct (maybe_run_lazy_cleanup _ s) as [r1 s1]. simpl in Hok, Hrel1.
  rewrite Hok. set (a1 := (run_script spec_stmt script a).2) in *. clearbody a1.
  pose proof (stmt_sim route_of (StDeleteExpired k) s1 a1 Hrel1 I) as Hdel.
  pose proof (served_stmt k e (StDeleteExpired k) a1 I (λ x, x) He) as He2.
  destruct (spec_stmt (StDeleteExpired k) a1) as [rd a2].
  cbn [run_stmt] in Hdel. unfold mbind, CM_bind, mret, CM_ret in Hdel.
  destruct (cache_statement _ s1) as [[[]|er|] s2]; [|done|done]. destruct Hdel as [_ Hrel2].
  pose proof (stmt_sim route_of (StTouch k (route_of k)) s2 a2 Hrel2 eq_refl) as Htouch. cbn [run_stmt] in Htouch.
  intros Hrun. rewrite Hrun in Htouch.
  pose proof (served_stmt k e (StTouch k (route_of k)) a2 eq_refl (λ x, x) He2) as He3.
  destruct (spec_stmt (StTouch k (route_of k)) a2) as [rt a3] eqn:Est. destruct Htouch as [<- Hrel3].
  exists a3. split; [done|]. split; [done|].
  rewrite (rel_clock _ _ _ Hrel3). exact (touch_served k e a2 o a3 He2 Est).
Qed.

Lemma store_sim k req resp ttl (s : CS) (a : TTL) e s' :
  related route_of s a -> strip_blanks k = k -> store (route_of k) k req resp ttl s = (Ok e, s') ->
  exists a', related route_of s' a' /\ served k e a' /\ ce_response_payload e = resp /\
    ce_request_payload e = req.
Proof.
  intros Hrel Hk. destruct (lazy_cleanup_sim (route_of k) s a Hrel) as (script & Hs & Hok & Hrel1).
  unfold store, mbind, CM_bind. destruct (maybe_run_lazy_cleanup _ s) as [r1 s1]. simpl in Hok, Hrel1.
  rewrite Hok. simpl. unfold cm_panicking, of_panicking. destruct (expires_after _ _) as [exp|]; [|done].
  set (a1 := (run_script spec_stmt script a).2) in *. clearbody a1.
  assert (keyed route_of (StUpsert k (route_of k) req resp exp)) as Hkey by (simpl; by rewrite Hk).
  pose proof (stmt_sim route_of _ s1 a1 Hrel1 Hkey) as Hsim. intros Hrun.
  cbn [run_stmt] in Hsim. unfold mbind, CM_bind, mret, CM_ret in Hsim. rewrite Hrun in Hsim.
  cbn [spec_stmt] in Hsim. unfold spec_tick in Hsim.
  destruct (match ttl_ticks a1 with [] => _ | _ => _ end) as [t rest]. destruct (ct_fails t); [by destruct Hsim|].
  destruct (bpchar64 k) as [p|]; [|by destruct Hsim]. destruct Hsim as [[= ->] Hsim].
  eexists. split; [exact Hsim|]. split; [|done]. exists 0, None. split; [done|]. simpl.
  by rewrite Hk, lookup_insert_eq.
Qed.
End Serving.

(** ** Lemmas: keys, locks, waiting *)

Lemma le_bytes_range l : Forall (λ b, 0 <= b < 256) l -> 0 <= le_bytes l < 256 ^ Z.of_nat (length l).
Proof.
  induction 1 as [|b l Hb Hl IH]; simpl; [lia|]. rewrite Nat2Z.inj_succ, Z.pow_succ_r by lia. lia.
Qed.

Lemma build_lock_id_range `{Blake2b512} route k : 1 <= build_lock_id route k < 2 ^ 63.
Proof.
  unfold build_lock_id, i64_from_ne_bytes, i64_wrap, swrap. cbv zeta.
  destruct (Z.leb_spec ((le_bytes (take 8 (blake2b512 (utf8_encode (cache_route_as_str route ++ lit ":" ++ trim k))))
    + 2 ^ (64 - 1)) mod 2 ^ 64 - 2 ^ (64 - 1)) 0); [lia|].
  pose proof (Z.mod_pos_bound (le_bytes (take 8 (blake2b512 (utf8_encode (cache_route_as_str route ++ lit ":" ++ trim k))))
    + 2 ^ (64 - 1)) (2 ^ 64)). lia.
Qed.

Lemma cache_route_as_str_inj r r' : cache_route_as_str r = cache_route_as_str r' -> r = r'.
Proof. by destruct r, r'. Qed.

(** The canonical text of the document determines its fields. *)
Lemma cache_document_inj `{CaseTables} `{JsonLexLaws} route route' p p' m m' t t' i i' v v' :
  to_canonical_json_string (cache_document route p m t i v) =
    to_canonical_json_string (cache_document route' p' m' t' i' v') ->
  route = route' /\ to_lowercase p = to_lowercase p' /\ m = m' /\ t = t' /\ i = i' /\ normal v = normal v'.
Proof.
  intros Heq%canonical_text_iff.
  assert (forall k, k ∈ ["route"; "request_type"; "provider"; "model"; "instruction"; "input"]%string ->
    normal <$> get (lit k) (cache_document route p m t i v) =
    normal <$> get (lit k) (cache_document route' p' m' t' i' v')) as Hget.
  { intros k Hk. unfold cache_document, obj in Heq |- *. cbn [normal] in Heq.
    apply (f_equal (get (lit k))) in Heq. cbn [get] in Heq.
    rewrite !map_get_btree_collect in Heq by (apply (bool_decide_unpack _); vm_compute; exact I).
    rewrite !elem_of_cons in Hk.
    destruct Hk as [->|[->|[->|[->|[->|[->|[]%not_elem_of_nil]]]]]]; exact Heq. }
  pose proof (Hget "route"%string ltac:(set_solver)) as E1.
  pose proof (Hget "request_type"%string ltac:(set_solver)) as E2.
  pose proof (Hget "provider"%string ltac:(set_solver)) as E3.
  pose proof (Hget "model"%string ltac:(set_solver)) as E4.
  pose proof (Hget "instruction"%string ltac:(set_solver)) as E5.
  pose proof (Hget "input"%string ltac:(set_solver)) as E6.
  cbv -[cache_route_as_str to_lowercase normal] in E1, E2, E3, E4, E5, E6.
  injection E1 as E1%cache_route_as_str_inj. injection E2 as E2. injection E3 as E3.
  injection E4 as E4. injection E5 as E5. injection E6 as E6. done.
Qed.

Lemma peek_clock route k s r s' :
  peek route k s = (r, s') -> pg_clock s <= pg_clock s' /\ entries s' = entries s /\
    forall o, r = Ok o -> o = (r ← entries s' !! k;
      if (matches_route route r && live (pg_clock s') r : bool) then Some (row_entry r) else None).
Proof.
  unfold peek, cache_statement. destruct (match cache_ticks s with [] => _ | _ => _ end) as [t rest].
  destruct (ct_fails t); intros [= <- <-]; simpl; (split; [lia|]); (split; [done|]); [done|].
  by intros o [= <-].
Qed.

(** Enough iterations reach the deadline. *)
Lemma poll_spec fuel route k interval deadline s r s' :
  0 < interval -> deadline - pg_clock s <= interval * (Z.of_nat fuel - 1) -> (0 < fuel)%nat ->
  poll fuel route k interval deadline s = (r, s') ->
  match r with
  | Ok (Some (Some e)) =>
      exists row, entries s' !! k = Some row /\ row_entry row = e /\ matches_route route row = true /\
        pg_clock s' < ce_expires_at e
  | Ok (Some None) => deadline <= pg_clock s'
  | Ok None | Panic => False
  | Err _ => True
  end.
Proof.
  intros Hi. revert s. induction fuel as [|fuel IH]; intros s Hd Hf; [lia|].
  cbn [poll]. unfold mbind, CM_bind. destruct (peek route k s) as [[o|e|] s1] eqn:Ep.
  - apply peek_clock in Ep as (Hc & He & Ho). specialize (Ho o eq_refl).
    destruct o as [e|].
    + intros [= <- <-]. destruct (entries s1 !! k) as [row|]; [|done]. simpl in Ho. exists row.
      destruct (matches_route route row) eqn:Hm; [|done]. destruct (live (pg_clock s1) row) eqn:Hl; [|done].
      simpl in Ho. injection Ho as ->. apply Z.ltb_lt in Hl. done.
    + cbn [cm_now]. destruct (Z.leb_spec deadline (pg_clock s1)); [by intros [= <- <-]|].
      simpl. apply IH; simpl; [lia|]. destruct fuel; lia.
  - by intros [= <- <-].
  - exfalso. revert Ep. unfold peek, cache_statement, lookup_sql.
    destruct (match cache_ticks s with [] => _ | _ => _ end) as [t rest]. by destruct (ct_fails t).
Qed.

(** The state and the session of the next statement. *)
Definition next_session (s : CS) : Z := match cache_ticks s with t :: _ => ct_session t | [] => 0 end.
Definition next_fails (s : CS) : bool := match cache_ticks s with t :: _ => ct_fails t | [] => false end.

(** ** Properties *)

Section Properties.
Context `{CaseTables} `{JsonLexLaws} `{Sha256Hex} `{Blake2b512}.

(** C16. The cache is a map whose entries expire: whatever statements any number of requests run, in
    whatever order, however long each takes and whichever of them fail, every answer of the table
    (lazily cleaned, entry by entry and in batches) is the answer of a map from which nothing is
    ever deleted and that hides what has expired. *)
Theorem cache_refines_ttl_map (route_of : str -> CacheRoute) (script : list cache_stmt) (s : CS)
    (Hempty : entries s = ∅) (Hkeys : Forall (keyed route_of) script) :
  (run_script run_stmt script s).1 =
  (run_script spec_stmt script (mkTTL ∅ (pg_clock s) (cache_ticks s))).1.
Proof.
  apply (script_sim route_of); [|done]. split; simpl; [done|done| |].
  - intros k. by rewrite Hempty.
  - intros k r. by rewrite Hempty.
Qed.

(** What is stored is served: after [store] has answered, and whatever other requests do short
    of storing under the same key, a [lookup] that answers gives the stored request and response
    until the entry expires, with a hit counted at the instant of the lookup, and nothing from the
    instant it expires on. *)
Lemma stored_response_is_served (route_of : str -> CacheRoute) k req resp ttl script s e s1 o s3
    (Hk : strip_blanks k = k) (Hempty : entries s = ∅)
    (Hstore : store (route_of k) k req resp ttl s = (Ok e, s1))
    (Hkeys : Forall (keyed route_of) script) (Hother : Forall (λ st, ~ upserts k st) script)
    (Hlookup : lookup_entry (route_of k) k (run_script run_stmt script s1).2 = (Ok o, s3)) :
  ce_request_payload e = req /\ ce_response_payload e = resp /\
  (if pg_clock s3 <? ce_expires_at e
   then exists n l, 0 <= n /\ o = Some (e <| ce_hit_count := n |> <| ce_last_hit_at := l |>)
   else o = None).
Proof.
  assert (related route_of s (mkTTL ∅ (pg_clock s) (cache_ticks s))) as Hrel.
  { split; simpl; [done|done| |]; intros k'; by rewrite Hempty. }
  destruct (store_sim route_of k req resp ttl s _ e s1 Hrel Hk Hstore) as (a1 & Hrel1 & He1 & Hresp & Hreq).
  destruct (script_sim route_of script s1 a1 Hrel1 Hkeys) as [_ Hrel2].
  apply (served_script route_of k e script) in He1; [|done|done].
  destruct (lookup_sim route_of k _ _ o s3 e Hrel2 He1 Hlookup) as (a3 & Hrel3 & (n & l & Hn & He3) & Ho).
  split; [done|]. split; [done|]. rewrite Ho, He3. destruct (_ <? _); [|done]. exists n, l. done.
Qed.

(** The cache key loses nothing: unless SHA-256 collides on the two documents, requests with the
    same key have the same route, provider (up to case), model, request type and instruction, and
    inputs that differ at most in the order of their keys. *)
Lemma cache_key_faithful route route' p p' m m' t t' i i' v v'
    (Hsha : forall x y, sha256_hex x = sha256_hex y -> x ∈ [to_canonical_json_string (cache_document route p m t i v)] ->
      y ∈ [to_canonical_json_string (cache_document route' p' m' t' i' v')] -> x = y)
    (Hkey : build_cache_key route p m t i v = build_cache_key route' p' m' t' i' v') :
  route = route' /\ to_lowercase p = to_lowercase p' /\ m = m' /\ t = t' /\ i = i' /\ normal v = normal v'.
Proof. apply cache_document_inj. apply Hsha; [exact Hkey|set_solver|set_solver]. Qed.

(** The advisory lock excludes other sessions only: its id is a positive bigint, a request gets
    the lock exactly when it is free or already held by the session the pool hands it, and a release
    that another session runs answers false and leaves the lock held. *)
Lemma advisory_lock_spec route k s (Hup : next_fails s = false) :
  1 <= build_lock_id route k < 2 ^ 63 /\
  (try_acquire_lock route k s).1 = Ok (match advisory s !! build_lock_id route k with
                                       | None => true
                                       | Some (holder, _) => holder =? next_session s
                                       end) /\
  (forall holder n, advisory s !! build_lock_id route k = Some (holder, n) -> holder <> next_session s ->
    (release_lock route k s).1 = Ok false /\
    advisory (release_lock route k s).2 = advisory s).
Proof.
  split; [apply build_lock_id_range|]. unfold try_acquire_lock, release_lock, cache_statement.
  unfold next_fails, next_session in *.
  set (lock := build_lock_id route k). clearbody lock.
  assert (exists t rest, (match cache_ticks s with t :: rest => (t, rest) | [] => (mkCacheTick false 0 0, []) end) = (t, rest)
    /\ ct_fails t = false /\ ct_session t = match cache_ticks s with t :: _ => ct_session t | [] => 0 end)
    as (t & rest & -> & Hf & <-).
  { destruct (cache_ticks s) as [|t rest]; [by eexists _, _|]. by exists t, rest. }
  rewrite Hf. unfold pg_try_advisory_lock, pg_advisory_unlock. simpl. split.
  - destruct (advisory s !! lock) as [[holder n]|]; [|done]. by destruct (holder =? ct_session t).
  - intros holder n -> Hne. rewrite (proj2 (Z.eqb_neq _ _) Hne). done.
Qed.

(** Waiting ends: with a positive interval, [timeout / interval + 2] iterations are enough for
    [wait_for_entry]; it answers an entry that is live at that instant, or nothing, and then only
    once the timeout has elapsed. *)
Lemma wait_for_entry_ends fuel route k poll_interval timeout s r s'
    (Hi : 0 < default 50000000 poll_interval) (Ht : 0 <= default 10000000000 timeout)
    (Hfuel : default 10000000000 timeout / default 50000000 poll_interval + 2 <= Z.of_nat fuel)
    (Hrun : wait_for_entry fuel route k poll_interval timeout s = (r, s')) :
  match r with
  | Ok (Some (Some e)) =>
      exists row, entries s' !! k = Some row /\ row_entry row = e /\ matches_route route row = true /\
        pg_clock s' < ce_expires_at e
  | Ok (Some None) => pg_clock s + default 10000000000 timeout <= pg_clock s'
  | Ok None | Panic => False
  | Err _ => True
  end.
Proof.
  unfold wait_for_entry, mbind, CM_bind, cm_now in Hrun.
  set (i := default 50000000 poll_interval) in *. set (d := default 10000000000 timeout) in *. clearbody i d.
  assert (0 <= d / i) as Hdiv by (apply Z.div_pos; lia).
  refine (poll_spec fuel route k i (pg_clock s + d) s r s' Hi _ _ Hrun); [|lia].
  pose proof (Z.mul_succ_div_gt d i Hi). nia.
Qed.
End Properties.

(** ** Witnesses *)

Module CacheWitness.
#[local] Existing Instances plain_case plain_lex.
#[local] Instance length_sha : Sha256Hex := λ s, s.
#[local] Instance constant_blake : Blake2b512 := λ _, replicate 64 7.

(** An empty table, one second per statement, every statement on session 1; the third fails. *)
Definition fresh_cache : CS :=
  mkCS ∅ 1 0 0 None ∅
    [mkCacheTick false 1000000000 1; mkCacheTick false 1000000000 1; mkCacheTick true 1000000000 1;
     mkCacheTick false 1000000000 1; mkCacheTick false 1000000000 1; mkCacheTick false 1000000000 1].
Definition sample_script : list cache_stmt :=
  [StUpsert (lit "k1") Interpret (obj []) (jint 42) 10000000000; StTouch (lit "k1") Interpret;
   StTouch (lit "k1") Interpret; StDeleteExpired (lit "k1"); StLookup (lit "k1") Interpret;
   StSleep 20000000000; StCleanup Interpret 100; StLookup (lit "k1") Interpret].

Lemma cache_refines_ttl_map_witness :
  entries fresh_cache = ∅ /\
  (run_script run_stmt sample_script fresh_cache).1 =
  (run_script spec_stmt sample_script (mkTTL ∅ 0 (cache_ticks fresh_cache))).1.
Proof.
  split; [reflexivity|]. apply (cache_refines_ttl_map (λ _, Interpret) sample_script fresh_cache); [reflexivity|].
  unfold sample_script. repeat (constructor; [done|]). constructor.
Defined.

Definition sample_entry : CacheEntry :=
  mkCacheEntry (lit "k1" ++ replicate 62 32) (obj []) (jint 42) 2000000000 3601000000000 0 None.
Definition busy_cache : CS := mkCS ∅ 1 0 0 None ∅ (replicate 20 (mkCacheTick false 1000000000 1)).
Definition stored_cache : CS := (store Interpret (lit "k1") (obj []) (jint 42) None busy_cache).2.
Definition other_script : list cache_stmt :=
  [StTouch (lit "k1") Interpret; StUpsert (lit "k2") Interpret Null Null 0; StCleanup Interpret 5].
Definition one_route (k : str) : CacheRoute := Interpret.

Lemma sample_store :
  store (one_route (lit "k1")) (lit "k1") (obj []) (jint 42) None busy_cache = (Ok sample_entry, stored_cache).
Proof. vm_compute. reflexivity. Qed.
Lemma sample_lookup : exists o s3,
  lookup_entry (one_route (lit "k1")) (lit "k1") (run_script run_stmt other_script stored_cache).2 = (Ok o, s3).
Proof. vm_compute. eexists _, _. reflexivity. Qed.
Lemma other_keyed : Forall (keyed one_route) other_script.
Proof. unfold other_script. repeat (constructor; [done|]). constructor. Qed.
Lemma other_elsewhere : Forall (λ st, ~ upserts (lit "k1") st) other_script.
Proof.
  unfold other_script. constructor; [intros []|]. constructor; [intros Heq; vm_compute in Heq; discriminate Heq|].
  constructor; [intros []|]. constructor.
Qed.
Lemma sample_key_stripped : strip_blanks (lit "k1") = lit "k1".
Proof. reflexivity. Qed.

Lemma stored_response_is_served_witness :
  exists o s3,
  lookup_entry (one_route (lit "k1")) (lit "k1") (run_script run_stmt other_script stored_cache).2 = (Ok o, s3) /\
  ce_request_payload sample_entry = obj [] /\ ce_response_payload sample_entry = jint 42 /\
  (if pg_clock s3 <? ce_expires_at sample_entry
   then exists n l, 0 <= n /\ o = Some (sample_entry <| ce_hit_count := n |> <| ce_last_hit_at := l |>)
   else o = None).
Proof.
  destruct sample_lookup as (o & s3 & Hrun). exists o, s3. split; [exact Hrun|].
  exact (stored_response_is_served one_route (lit "k1") (obj []) (jint 42) None other_script
    busy_cache sample_entry stored_cache o s3 sample_key_stripped eq_refl sample_store other_keyed
    other_elsewhere Hrun).
Defined.

Definition document_a : value := Object [(lit "a", jint 1); (lit "b", jint 2)].
Definition document_b : value := Object [(lit "b", jint 2); (lit "a", jint 1)].

Lemma cache_key_faithful_witness :
  build_cache_key Interpret (lit "OpenRouter") (lit "m") (lit "t") (lit "i") document_a =
  build_cache_key Interpret (lit "openrouter") (lit "m") (lit "t") (lit "i") document_b /\
  normal document_a = normal document_b.
Proof.
  assert (build_cache_key Interpret (lit "OpenRouter") (lit "m") (lit "t") (lit "i") document_a =
    build_cache_key Interpret (lit "openrouter") (lit "m") (lit "t") (lit "i") document_b) as Hkey
    by (vm_compute; reflexivity).
  split; [exact Hkey|].
  exact (proj2 (proj2 (proj2 (proj2 (proj2 (@cache_key_faithful plain_case plain_lex plain_lex_laws length_sha
    Interpret Interpret
    (lit "OpenRouter") (lit "openrouter") (lit "m") (lit "m") (lit "t") (lit "t") (lit "i") (lit "i")
    document_a document_b (λ x y Hxy _ _, Hxy) Hkey)))))).
Defined.

(** Session 1 holds the lock: a request that the pool sends to session 1 gets it too, one that it
    sends to session 2 cannot release it. *)
Definition held_cache (session : Z) : CS :=
  mkCS ∅ 1 0 0 None {[ build_lock_id Interpret (lit "k1") := (1, 1) ]} [mkCacheTick false 0 session].

Lemma advisory_lock_spec_witness :
  next_fails (held_cache 1) = false /\
  (try_acquire_lock Interpret (lit "k1") (held_cache 1)).1 = Ok true /\
  (try_acquire_lock Interpret (lit "k1") (held_cache 2)).1 = Ok false /\
  (release_lock Interpret (lit "k1") (held_cache 2)).1 = Ok false.
Proof.
  split; [reflexivity|].
  split; [exact (proj1 (proj2 (advisory_lock_spec Interpret (lit "k1") (held_cache 1) eq_refl)))|].
  split; [exact (proj1 (proj2 (advisory_lock_spec Interpret (lit "k1") (held_cache 2) eq_refl)))|].
  refine (proj1 (proj2 (proj2 (advisory_lock_spec Interpret (lit "k1") (held_cache 2) eq_refl)) 1 1 _ _)).
  - vm_compute. reflexivity.
  - intros Heq. vm_compute in Heq. discriminate Heq.
Defined.

Lemma sample_wait : exists s',
  wait_for_entry 12 Interpret (lit "k1") (Some 1000000000) None busy_cache = (Ok (Some None), s').
Proof. vm_compute. eexists. reflexivity. Qed.

Lemma wait_for_entry_ends_witness :
  exists s', wait_for_entry 12 Interpret (lit "k1") (Some 1000000000) None busy_cache = (Ok (Some None), s') /\
  10000000000 <= pg_clock s'.
Proof.
  destruct sample_wait as [s' Hrun]. exists s'. split; [exact Hrun|].
  exact (wait_for_entry_ends 12 Interpret (lit "k1") (Some 1000000000) None busy_cache (Ok (Some None)) s'
    ltac:(vm_compute; reflexivity) ltac:(vm_compute; discriminate) ltac:(vm_compute; discriminate) Hrun).
Defined.

(** [cleanup_expired] deletes two rows, with ids 7 and 9, and reports the id of one. *)
Definition two_expired : CS :=
  mkCS (<[lit "a" := mkCacheRow 7 (lit "interpret") (mkCacheEntry (lit "a") Null Null 0 5 0 None)]>
       (<[lit "b" := mkCacheRow 9 (lit "interpret") (mkCacheEntry (lit "b") Null Null 0 6 0 None)]> ∅)) 10 100 0 None ∅ [].
Example cleanup_reports_an_id :
  deleted_count <$> (match (cleanup_expired Interpret 100 two_expired).1 with Ok r => Some r | _ => None end) = Some 7 /\
  entries (cleanup_expired Interpret 100 two_expired).2 = ∅.
Proof. split; vm_compute; reflexivity. Qed.

(** Half of the digests are negative as an i64: all of them share lock 1. *)
Example negative_digests_share_a_lock :
  @build_lock_id (λ _, replicate 64 200) Interpret (lit "k1") = 1 /\
  @build_lock_id (λ _, replicate 64 255) Respond (lit "k2") = 1.
Proof. split; vm_compute; reflexivity. Qed.
End CacheWitness.
