(* ===== verification/AuditTrail.v ===== *)
(** * The audit trail (src/src/orchestrator/audit_trail.rs)

    Every status change of a generation goes through [transition] or
    [mark_failed]: each locks the row, edits the JSON audit payload and writes
    the row in one transaction. *)

From stdpp Require Import base gmap list option strings fin_maps.
From Stdlib Require Import ZArith Lia.
From S2P Require Import Prelude RustStr Json Lifecycle Store Samples.

Definition SCHEMA_VERSION : str := lit "media_generation_orchestration_audit.v1".
Definition HISTORY_LIMIT : nat := 50.

Inductive AuditTrailError :=
| NotFound (id : str)
| InvalidTransition (from to : MediaGenerationStatus)
| Database (e : db_error)
| Terminal (generation_id : str) (status : MediaGenerationStatus)
| Payload (msg : str).

(** [DateTime::timestamp_millis]. *)
Definition timestamp_millis (t : Z) : Z := (t / 1000000)%Z.

(** ** Payload helpers *)

(** Collapse whitespace, trim, keep at most 240 bytes. [None] is the panic of the byte slice. *)
Definition sanitize_message (message : str) : option str :=
  let collapsed := trim (collapse_ws singleton_char message) in
  if (240 <? str_len collapsed)%nat then slice_to 240 collapsed else Some collapsed.

(** [if t.len() > max { format!("{}...", &t[..max - 3]) } else { t.to_string() }]. *)
Definition ellipsize (max : nat) (t : str) : option str :=
  if (max <? str_len t)%nat then (λ p, p ++ lit "...") <$> slice_to (max - 3) t else Some t.

(** [arr.iter().filter_map(...).take(n)]: the iterator is lazy, elements past the [n]-th kept one
    are not mapped. *)
Fixpoint take_items (n : nat) (arr : list value) : option (list value) :=
  match n, arr with
  | O, _ | _, [] => Some []
  | S n', item :: rest =>
      match item with
      | Bool _ | Number _ => cons item <$> take_items n' rest
      | String s =>
          let t := trim s in
          if decide (t = []) then take_items n rest
          else truncated ← ellipsize 80 t; m ← sanitize_message truncated;
               cons (String m) <$> take_items n' rest
      | _ => take_items n rest
      end
  end.

(** The loop over the fields of an object; [recur] filters a nested object. *)
Definition filter_fields (recur : value -> option value) :=
  fix go (filtered m : list (str * value)) {struct m} : option (list (str * value)) :=
    match m with
    | [] => Some filtered
    | (key, val) :: m' =>
        match val with
        | Null => go filtered m'
        | Bool _ | Number _ => go (map_insert key val filtered) m'
        | String s =>
            let trimmed := trim s in
            if decide (trimmed = []) then go filtered m'
            else truncated ← ellipsize 160 trimmed; x ← sanitize_message truncated;
                 go (map_insert key (String x) filtered) m'
        | Array arr =>
            items ← take_items 8 arr;
            if decide (length items = 0) then go filtered m'
            else go (map_insert key (Array items) filtered) m'
        | Object _ =>
            nested ← recur val;
            if is_null nested then go filtered m'
            else go (map_insert key nested filtered) m'
        end
    end.

Fixpoint filter_context_inner (v : value) (depth : nat) {struct v} : option value :=
  if (1 <? depth)%nat then Some Null
  else
    match v with
    | Object map =>
        filtered ← filter_fields (λ val, filter_context_inner val (S depth)) [] map;
        Some (if decide (length filtered = 0) then Null else Object filtered)
    | _ => Some Null
    end.

Definition filter_context (context : option value) : option value :=
  match context with
  | None => Some Null
  | Some ctx => filter_context_inner ctx 0
  end.

Definition safe_context_keys : list str :=
  [ lit "http_status"; lit "config"; lit "kind"; lit "adapter_provider"; lit "adapter_model";
    lit "adapter_primary_provider"; lit "adapter_fallback_used"; lit "adapter_fallback_reason" ].

Definition safe_throwable_context (context : option value) : value :=
  match context with
  | Some (Object o) =>
      Object (foldl (λ safe key,
        match map_get key o with
        | Some v => if is_scalar v then map_insert key v safe else safe
        | None => safe
        end) [] safe_context_keys)
  | _ => Object []
  end.

Definition provider_trace_default : value :=
  obj [ ("interpretation", obj [("name", Null); ("model", Null)]);
        ("generator", obj [("name", Null); ("model", Null)]);
        ("delivery", obj [("name", Null); ("model", Null)]) ].

(** Append an event to [status_history], capped at [HISTORY_LIMIT]. *)
Definition append_history (event : value) (payload : value) : option value :=
  let history := default [] (get (lit "status_history") payload ≫= as_array) in
  let history := history ++ [event] in
  let history :=
    if (HISTORY_LIMIT <? length history)%nat then keep_last HISTORY_LIMIT history else history in
  index_set "status_history" (Array history) payload.

Definition update_provider_trace (payload : value) : option value :=
  match get (lit "provider_trace") payload with
  | None => index_set "provider_trace" provider_trace_default payload
  | Some _ => Some payload
  end.

Section Audit.
Context `{Rfc3339} `{UuidText}.

Definition build_base_payload (now : Z) : value :=
  let now_rfc := String (to_rfc3339 now) in
  obj [
    ("schema_version", String SCHEMA_VERSION);
    ("current_status", jstr "queued");
    ("resolved_output_type", Null);
    ("provider_trace", provider_trace_default);
    ("job", obj [ ("connection", Null); ("queue", Null); ("tries", Null); ("timeout_seconds", Null);
                  ("backoff_seconds", Null); ("attempt", jint 0); ("last_run_at", Null) ]);
    ("timing", obj [ ("queued_at", now_rfc); ("processing_started_at", Null);
                     ("last_transition_at", now_rfc); ("completed_at", Null);
                     ("total_duration_ms", Null); ("status_durations_ms", Object []) ]);
    ("latest_error", Null);
    ("status_history", Array [
       obj [ ("event_type", jstr "status_transition"); ("from_status", Null);
             ("to_status", jstr "queued"); ("attempt", jint 0); ("at", now_rfc);
             ("context", obj [("reason", jstr "generation_created")]) ] ])
  ].

(** The job fields copied from the job context: strings for the first two, any value for the
    others. *)
Definition merge_job_context (jc : value) (job : list (str * value)) : list (str * value) :=
  let put_str k m :=
    match get (lit k) jc ≫= Json.as_str with Some s => map_insert (lit k) (String s) m | None => m end in
  let put k m := match get (lit k) jc with Some v => map_insert (lit k) v m | None => m end in
  put "backoff_seconds" (put "timeout_seconds" (put "tries"
    (put_str "queue" (put_str "connection" job)))).

Definition apply_runtime_metadata (now : Z) (attempt : option Z) (job_context : option value)
    (payload : value) : option value :=
  let payload' :=
    match job_context, get (lit "job") payload with
    | Some jc, Some (Object job) => index_set "job" (Object (merge_job_context jc job)) payload
    | _, _ => Some payload
    end in
  payload ← payload';
  let current_attempt :=
    match attempt with
    | Some a => a
    | None => i32_wrap (default 0%Z ((get (lit "job") payload ≫= get (lit "attempt")) ≫= as_i64))
    end in
  with_key "job" (λ job,
    job ← index_set "attempt" (jint current_attempt) job;
    index_set "last_run_at" (String (to_rfc3339 now)) job) payload.

Definition parse_timestamp (s : str) : option Z :=
  if decide (s = []) then None else parse_from_rfc3339 s.

(** Milliseconds from [ts] to [now], never negative. *)
Definition elapsed_ms (ts now : Z) : Z := Z.max (timestamp_millis now - timestamp_millis ts) 0.

Definition calculate_total_duration (payload : value) (now : Z) : option Z :=
  queued_at_str ← pointer ["timing"; "queued_at"] payload ≫= Json.as_str;
  queued_ts ← parse_timestamp queued_at_str;
  Some (elapsed_ms queued_ts now).

(** Add the elapsed milliseconds to the entry of the status being left. *)
Definition charge_duration (from_status : MediaGenerationStatus) (duration_ms : Z) (sd : value) :
    option value :=
  let from_key := as_str from_status in
  let current := default 0%Z (get from_key sd ≫= as_i64) in
  let entry := jint (i64_wrap (current + duration_ms)) in
  match sd with
  | Null => Some (Object [(from_key, entry)])
  | Object m => Some (Object (map_insert from_key entry m))
  | _ => None
  end.

Definition apply_transition_timing (from_status to_status : MediaGenerationStatus) (now : Z)
    (payload : value) : option value :=
  let last_transition_at_str :=
    default [] (pointer ["timing"; "last_transition_at"] payload ≫= Json.as_str) in
  let ts := default now (parse_timestamp last_transition_at_str) in
  let duration_ms := elapsed_ms ts now in
  payload ← with_key "timing"
    (with_key "status_durations_ms" (charge_duration from_status duration_ms)) payload;
  payload ←
    (match pointer ["timing"; "processing_started_at"] payload ≫= Json.as_str with
     | None => if decide (to_status = Queued) then Some payload
               else with_key "timing"
                      (index_set "processing_started_at" (String (to_rfc3339 now))) payload
     | Some _ => Some payload
     end);
  let completed_at :=
    if is_terminal to_status then String (to_rfc3339 now)
    else default Null (pointer ["timing"; "completed_at"] payload) in
  let queued_at :=
    default (to_rfc3339 now) (pointer ["timing"; "queued_at"] payload ≫= Json.as_str) in
  let total_duration := calculate_total_duration payload now in
  with_key "timing" (λ timing,
    timing ← index_set "queued_at" (String queued_at) timing;
    timing ← index_set "last_transition_at" (String (to_rfc3339 now)) timing;
    timing ← index_set "completed_at" completed_at timing;
    index_set "total_duration_ms" (jopt jint total_duration) timing) payload.

Definition error_value (error_code error_message : str) (retryable : bool)
    (context : option value) : option value :=
  message ← sanitize_message error_message;
  Some (obj [ ("error_code", String error_code);
              ("error_class", jstr "orchestrator::AuditTrailService");
              ("message", String message); ("retryable", Bool retryable);
              ("safe_context", safe_throwable_context context) ]).

(** ** Service *)

Definition parse_uuid (s : str) : outcome AuditTrailError uuid :=
  match parse_uuid_str s with
  | Some u => Ok u
  | None => Err (Payload (lit "Invalid UUID: " ++ s))
  end.

Definition parse_status (s : str) : outcome AuditTrailError MediaGenerationStatus :=
  match from_str s with
  | Some st => Ok st
  | None => Err (Payload (lit "Unknown status: " ++ s))
  end.

(** A stored payload, or the base payload when the column is NULL or JSON null. *)
Definition payload_or_base (opt_payload : option value) (now : Z) : value :=
  match opt_payload with
  | Some v => if is_null v then build_base_payload now else v
  | None => build_base_payload now
  end.

(** The SQL guard of [initialize]. *)
Definition has_audit_payload (r : MediaGeneration) : option value :=
  v ← orchestration_audit_payload r;
  if decide (get (lit "schema_version") v ≫= Json.as_str = Some SCHEMA_VERSION
             /\ is_Some (get (lit "status_history") v))
  then Some v else None.
Definition initialize (generation_id : str) : M AuditTrailError value :=
  gen_id ← lift (parse_uuid generation_id);
  now ← utc_now;
  _ ← mapping Database begin_tx;
  exists_row ← mapping Database (execute_tx (select_by_id (λ _, ()) gen_id));
  match exists_row with
  | None => throw (NotFound generation_id)
  | Some _ =>
      existing_payload ← mapping Database (execute_tx (select_by_id has_audit_payload gen_id));
      match mjoin existing_payload with
      | Some payload =>
          _ ← mapping Database commit_tx;
          mret payload
      | None =>
          let base := build_base_payload now in
          _ ← mapping Database (execute_tx
                (update_by_id (λ r, r <| orchestration_audit_payload := Some base |>) gen_id));
          _ ← mapping Database commit_tx;
          mret base
      end
  end.

(** The payload written when the generation already has the target status. *)
Definition rerun_payload (to_status : MediaGenerationStatus) (payload : value) : option value :=
  payload ← index_set "current_status" (String (as_str to_status)) payload;
  index_set "latest_error" Null payload.

(** The payload written by an effective transition. *)
Definition transition_payload (from_status to_status : MediaGenerationStatus) (now : Z)
    (context : option value) (attempt : option Z) (payload : value) : option value :=
  payload ← apply_transition_timing from_status to_status now payload;
  payload ← index_set "current_status" (String (as_str to_status)) payload;
  payload ← update_provider_trace payload;
  payload ← index_set "latest_error" Null payload;
  context ← filter_context context;
  append_history (obj [ ("event_type", jstr "status_transition");
                        ("from_status", String (as_str from_status));
                        ("to_status", String (as_str to_status));
                        ("attempt", jint (default 0%Z attempt));
                        ("at", String (to_rfc3339 now));
                        ("context", context) ]) payload.

Definition transition (generation_id : str) (to_status : MediaGenerationStatus)
    (context : option value) (attempt : option Z) (job_context : option value) :
    M AuditTrailError value :=
  gen_id ← lift (parse_uuid generation_id);
  now ← utc_now;
  _ ← mapping Database begin_tx;
  row ← mapping Database (execute_tx
          (select_by_id (λ r, (status r, orchestration_audit_payload r)) gen_id));
  match row with
  | None => throw (NotFound generation_id)
  | Some (from_status_str, opt_payload) =>
      from_status ← lift (parse_status from_status_str);
      current_payload ← panicking
        (apply_runtime_metadata now attempt job_context (payload_or_base opt_payload now));
      if decide (from_status = to_status) then
        payload ← panicking (rerun_payload to_status current_payload);
        _ ← mapping Database (execute_tx
              (update_by_id (λ r, r <| orchestration_audit_payload := Some payload |>
                                    <| error_code := None |> <| error_message := None |>) gen_id));
        _ ← mapping Database commit_tx;
        mret payload
      else if can_transition from_status to_status then
        payload ← panicking
          (transition_payload from_status to_status now context attempt current_payload);
        _ ← mapping Database (execute_tx
              (update_by_id (λ r, r <| status := as_str to_status |>
                                    <| orchestration_audit_payload := Some payload |>
                                    <| error_code := None |> <| error_message := None |>) gen_id));
        _ ← mapping Database commit_tx;
        mret payload
      else throw (InvalidTransition from_status to_status)
  end.

Definition attempt_failure_payload (now : Z) (error_code error_message : str) (retryable : bool)
    (context : option value) (attempt : option Z) (payload : value) : option value :=
  error ← error_value error_code error_message retryable context;
  let total_dur := calculate_total_duration payload now in
  payload ← index_set "latest_error" error payload;
  payload ← index_mut "timing" (index_set "total_duration_ms" (jopt jint total_dur)) payload;
  context ← filter_context context;
  append_history (obj [ ("event_type", jstr "attempt_failed");
                        ("status", jopt (λ v, v) (get (lit "current_status") payload));
                        ("attempt", jint (default 0%Z attempt));
                        ("at", String (to_rfc3339 now));
                        ("context", context); ("error", error) ]) payload.

Definition record_attempt_failure (generation_id error_code error_message : str)
    (retryable : bool) (context : option value) (attempt : option Z)
    (job_context : option value) : M AuditTrailError value :=
  gen_id ← lift (parse_uuid generation_id);
  now ← utc_now;
  _ ← mapping Database begin_tx;
  opt_payload ← mapping Database (execute_tx
                  (select_not_null orchestration_audit_payload gen_id));
  payload ← panicking
    (apply_runtime_metadata now attempt job_context (payload_or_base opt_payload now));
  payload ← panicking
    (attempt_failure_payload now error_code error_message retryable context attempt payload);
  _ ← mapping Database (execute_tx
        (update_by_id (λ r, r <| orchestration_audit_payload := Some payload |>) gen_id));
  _ ← mapping Database commit_tx;
  mret payload.

(** The payload written by [mark_failed]. *)
Definition failed_payload (current_status : MediaGenerationStatus) (now : Z)
    (error_code error_message : str) (retryable : bool) (context : option value)
    (attempt : option Z) (payload : value) : option value :=
  error ← error_value error_code error_message retryable context;
  payload ←
    (if bool_decide (current_status <> Failed) && can_transition current_status Failed then
       payload ← apply_transition_timing current_status Failed now payload;
       context ← filter_context context;
       append_history (obj [ ("event_type", jstr "status_transition");
                             ("from_status", String (as_str current_status));
                             ("to_status", jstr "failed");
                             ("attempt", jint (default 0%Z attempt));
                             ("at", String (to_rfc3339 now));
                             ("context", context); ("error", error) ]) payload
     else Some payload);
  payload ← index_set "current_status" (jstr "failed") payload;
  payload ← update_provider_trace payload;
  index_set "latest_error" error payload.

Definition mark_failed (generation_id error_code' error_message' : str)
    (retryable : bool) (context : option value) (attempt : option Z)
    (job_context : option value) : M AuditTrailError value :=
  gen_id ← lift (parse_uuid generation_id);
  now ← utc_now;
  _ ← mapping Database begin_tx;
  row ← mapping Database (execute_tx
          (select_by_id (λ r, (status r, orchestration_audit_payload r)) gen_id));
  match row with
  | None => throw (NotFound generation_id)
  | Some (current_status_str, opt_payload) =>
      current_status ← lift (parse_status current_status_str);
      if decide (current_status = Completed \/ current_status = Cancelled) then
        _ ← mapping Database commit_tx;
        throw (Terminal generation_id current_status)
      else
        payload ← panicking
          (apply_runtime_metadata now attempt job_context (payload_or_base opt_payload now));
        payload ← panicking (failed_payload current_status now error_code' error_message'
                               retryable context attempt payload);
        message ← panicking (sanitize_message error_message');
        _ ← mapping Database (execute_tx
              (update_by_id (λ r,
                 r <| status := lit "failed" |> <| generation_status := Some (lit "failed") |>
                   <| orchestration_audit_payload := Some payload |>
                   <| error_code := Some error_code' |> <| error_message := Some message |>
                   <| generation_error_code := Some error_code' |>
                   <| generation_error_message := Some message |>) gen_id));
        _ ← mapping Database commit_tx;
        mret payload
  end.

Definition get_payload (generation_id : str) : M AuditTrailError value :=
  gen_id ← lift (parse_uuid generation_id);
  maybe ← mapping Database (execute (select_not_null orchestration_audit_payload gen_id));
  match maybe with
  | Some v => mret v
  | None => throw (NotFound generation_id)
  end.
End Audit.

(** ** Lemmas: the service *)

Section AuditFacts.
Context `{Rfc3339} `{UuidText}.

(** The row a transition writes. *)
Definition transitioned (to_status : MediaGenerationStatus) (payload : value) (now : Z)
    (r : MediaGeneration) : MediaGeneration :=
  r <| status := as_str to_status |> <| orchestration_audit_payload := Some payload |>
    <| error_code := None |> <| error_message := None |> <| updated_at := Some now |>.

(** The row [mark_failed] writes. *)
Definition failed_row (code message : str) (payload : value) (now : Z) (r : MediaGeneration) :
    MediaGeneration :=
  r <| status := lit "failed" |> <| generation_status := Some (lit "failed") |>
    <| orchestration_audit_payload := Some payload |>
    <| error_code := Some code |> <| error_message := Some message |>
    <| generation_error_code := Some code |> <| generation_error_message := Some message |>
    <| updated_at := Some now |>.

Lemma status_id (r : MediaGeneration) x : status r = x -> r <| status := x |> = r.
Proof. intros <-. by destruct r. Qed.

Lemma parse_uuid_Ok x u : parse_uuid x = Ok u -> parse_uuid_str x = Some u.
Proof. unfold parse_uuid. by destruct (parse_uuid_str x); intros [= ->]. Qed.

Lemma parse_status_Ok x st : parse_status x = Ok st -> x = as_str st.
Proof.
  unfold parse_status. destruct (from_str x) eqn:E; intros [= ->]. by apply from_str_Some.
Qed.

Lemma wp_transition generation_id to_status context attempt job_context s :
  wp (transition generation_id to_status context attempt job_context)
     (λ r s', match r with
      | Ok payload =>
          exists gid row from_status now,
            parse_uuid_str generation_id = Some gid /\ committed s !! gid = Some row /\
            status row = as_str from_status /\
            (from_status = to_status \/ can_transition from_status to_status = true) /\
            committed s' = <[gid := transitioned to_status payload now row]> (committed s)
      | _ => committed s' = committed s
      end) s.
Proof.
  unfold transition. wp_run; sql_inv.
  all: match goal with
       | Hu : parse_uuid _ = Ok ?g, Hs : parse_status (status ?row) = Ok ?from,
         Ht : row_ok (update updated_at (λ _, Some ?now) _) = true |- _ =>
           apply parse_uuid_Ok in Hu; apply parse_status_Ok in Hs;
           exists g, row, from, now; repeat split; auto
       end.
  f_equal. unfold transitioned. rewrite <- (status_id x (as_str to_status)) at 1 by done. done.
Qed.

Lemma wp_mark_failed generation_id code message retryable context attempt job_context s :
  wp (mark_failed generation_id code message retryable context attempt job_context)
     (λ r s', match r with
      | Ok payload =>
          exists gid row current_status msg now,
            parse_uuid_str generation_id = Some gid /\ committed s !! gid = Some row /\
            status row = as_str current_status /\
            (current_status = Failed \/ can_transition current_status Failed = true) /\
            sanitize_message message = Some msg /\
            committed s' = <[gid := failed_row code msg payload now row]> (committed s)
      | _ => committed s' = committed s
      end) s.
Proof.
  unfold mark_failed. wp_run; sql_inv.
  match goal with
  | Hu : parse_uuid _ = Ok ?g, Hs : parse_status (status ?row) = Ok ?cur,
    Hm : sanitize_message _ = Some ?m, Ht : row_ok (update updated_at (λ _, Some ?now) _) = true |- _ =>
      apply parse_uuid_Ok in Hu; apply parse_status_Ok in Hs;
      exists g, row, cur, m, now; repeat split; auto
  end.
  destruct a0; naive_solver.
Qed.

Lemma wp_record_attempt_failure generation_id code message retryable context attempt job_context s :
  wp (record_attempt_failure generation_id code message retryable context attempt job_context)
     (λ r s', match r with
      | Ok payload =>
          exists gid, parse_uuid_str generation_id = Some gid /\
          match committed s !! gid with
          | Some row => exists now, committed s' =
              <[gid := row <| orchestration_audit_payload := Some payload |>
                           <| updated_at := Some now |>]> (committed s)
          | None => committed s' = committed s
          end
      | _ => committed s' = committed s
      end) s.
Proof.
  unfold record_attempt_failure. wp_run; sql_inv.
  match goal with
  | Hu : parse_uuid _ = Ok ?g, Hq : update_by_id _ _ ?now _ = Ok _,
    Hn : select_not_null _ _ _ _ = Ok _ |- _ =>
      apply parse_uuid_Ok in Hu; exists g; split; [done|];
      apply select_not_null_Ok in Hn as [-> _];
      apply update_by_id_Ok in Hq as [(-> & _ & ->)|(r & -> & _ & _ & ->)]; [done|by exists now]
  end.
Qed.

Lemma wp_initialize generation_id s :
  wp (initialize generation_id)
     (λ r s', match r with
      | Ok payload =>
          exists gid row, parse_uuid_str generation_id = Some gid /\ committed s !! gid = Some row /\
          match has_audit_payload row with
          | Some stored => payload = stored /\ committed s' = committed s
          | None => payload = build_base_payload (time s) /\ exists now, committed s' =
              <[gid := row <| orchestration_audit_payload := Some payload |>
                           <| updated_at := Some now |>]> (committed s)
          end
      | _ => committed s' = committed s
      end) s.
Proof.
  unfold initialize. wp_run; sql_inv.
  all: match goal with
       | Hu : parse_uuid _ = Ok ?g, Hr : committed _ !! ?g = Some ?row, Hj : mjoin _ = _ |- _ =>
           apply parse_uuid_Ok in Hu; exists g, row; rewrite Hr in Hj; simpl in Hj; rewrite Hj
       end; eauto.
Qed.
End AuditFacts.

(** ** Lemmas: the payload *)

Lemma append_history_spec event payload payload' :
  append_history event payload = Some payload' ->
  exists h, get (lit "status_history") payload' = Some (Array h) /\
    length h <= HISTORY_LIMIT /\ last h = Some event /\
    h `suffix_of` default [] (get (lit "status_history") payload ≫= as_array) ++ [event] /\
    is_object payload' = true /\
    forall k, k <> lit "status_history" -> get k payload' = get k payload.
Proof.
  unfold append_history. set (h0 := default [] _). intros (Hg & Ho & Hk)%index_set_spec.
  eexists. split; [exact Hg|].
  destruct (HISTORY_LIMIT <? length (h0 ++ [event])) eqn:E.
  - rewrite keep_last_length. apply Nat.ltb_lt in E.
    repeat split; try done; [lia|by apply keep_last_snoc; unfold HISTORY_LIMIT; lia|apply keep_last_suffix].
  - apply Nat.ltb_ge in E. repeat split; try done. apply last_snoc.
Qed.

Lemma append_history_is_Some event payload :
  is_object payload = true -> is_Some (append_history event payload).
Proof. intros Ho. unfold append_history. by apply index_set_is_Some. Qed.

(** The milliseconds recorded in a [status_durations_ms] object. *)
Definition duration_of (v : value) : Z := default 0%Z (as_i64 v).
Definition sum_durations (m : list (str * value)) : Z := foldr (λ kv acc, duration_of kv.2 + acc)%Z 0%Z m.
Definition durations_ok (m : list (str * value)) : Prop :=
  Forall (λ kv : str * value, exists n, kv.2 = jint n /\ (0 <= n < 2 ^ 63)%Z) m.

Lemma as_i64_jint n : (0 <= n < 2 ^ 63)%Z -> as_i64 (jint n) = Some n.
Proof.
  intros Hn. unfold as_i64, jint, in_i64.
  by rewrite (proj2 (Z.leb_le _ _)), (proj2 (Z.ltb_lt _ _)) by lia.
Qed.
Lemma duration_of_jint n : (0 <= n < 2 ^ 63)%Z -> duration_of (jint n) = n.
Proof. intros Hn. unfold duration_of. by rewrite as_i64_jint. Qed.

Lemma durations_nonneg m : durations_ok m -> (0 <= sum_durations m)%Z.
Proof.
  induction 1 as [|[k v] m (n & Hv & Hn) _ IH]; simpl in *; [lia|]. subst v.
  rewrite duration_of_jint by lia. lia.
Qed.

(** The duration recorded for one status. *)
Definition duration_at (k : str) (m : list (str * value)) : Z := default 0%Z (map_get k m ≫= as_i64).

Lemma duration_at_bound k m : durations_ok m -> (0 <= duration_at k m <= sum_durations m)%Z.
Proof.
  unfold duration_at.
  induction 1 as [|[k' v] m (n & Hv & Hn) Hm IH]; simpl in *; [lia|].
  subst v. pose proof (durations_nonneg m Hm). rewrite duration_of_jint by lia.
  case_decide; [|lia]. simpl. rewrite as_i64_jint by lia. simpl. lia.
Qed.

(** Adding [d] to the duration of a status adds [d] to the sum. *)
Lemma sum_durations_insert k d m :
  durations_ok m -> (0 <= d)%Z -> (sum_durations m + d < 2 ^ 63)%Z ->
  durations_ok (map_insert k (jint (duration_at k m + d)) m) /\
  sum_durations (map_insert k (jint (duration_at k m + d)) m) = (sum_durations m + d)%Z.
Proof.
  intros Hm Hd Hlt. pose proof (duration_at_bound k m Hm) as Hb.
  revert Hlt Hb. unfold duration_at.
  induction Hm as [|[k' v] m (n & Hv & Hn) Hm IH]; simpl in *; intros Hlt Hb.
  - split; [constructor; [by eexists; split; [done|lia]|done]|].
    rewrite duration_of_jint by lia. lia.
  - subst v. pose proof (durations_nonneg m Hm). rewrite duration_of_jint in * by lia.
    case_decide; simpl in *.
    + rewrite as_i64_jint in * by lia. simpl in *.
      split; [constructor; [by eexists; split; [done|lia]|done]|].
      rewrite duration_of_jint by lia. lia.
    + pose proof (duration_at_bound k m Hm) as Hb'. unfold duration_at in Hb'.
      destruct IH as [Hok Hsum]; [lia|lia|]. rewrite Hsum, duration_of_jint by lia.
      split; [constructor; [by exists n|done]|lia].
Qed.

(** The timing block of a payload whose generation was queued at [q] and last moved at [last]. *)
Record timing_inv `{Rfc3339} (q last : Z) (payload : value) : Prop := {
  ti_order : (q <= last)%Z;
  ti_range : (timestamp_millis last - timestamp_millis q < 2 ^ 63)%Z;
  ti_timing : exists timing durations,
    get (lit "timing") payload = Some (Object timing) /\
    map_get (lit "queued_at") timing = Some (String (to_rfc3339 q)) /\
    map_get (lit "last_transition_at") timing = Some (String (to_rfc3339 last)) /\
    map_get (lit "status_durations_ms") timing = Some (Object durations) /\
    durations_ok durations /\
    sum_durations durations = (timestamp_millis last - timestamp_millis q)%Z
}.

Lemma timestamp_millis_mono t u : (t <= u)%Z -> (timestamp_millis t <= timestamp_millis u)%Z.
Proof. intros Htu. unfold timestamp_millis. by apply Z.div_le_mono; [lia|]. Qed.

Section TimingFacts.
Context `{Rfc3339Laws}.

Lemma parse_timestamp_print t : parse_timestamp (to_rfc3339 t) = Some t.
Proof.
  unfold parse_timestamp. rewrite decide_False by apply rfc3339_nonempty. apply rfc3339_roundtrip.
Qed.

Lemma timing_inv_base now : timing_inv now now (build_base_payload now).
Proof.
  split; [lia|lia|]. unfold build_base_payload. eexists _, [].
  split; [rewrite get_obj; reflexivity|].
  repeat (split; [rewrite map_get_obj; reflexivity|]).
  split; [constructor|]. simpl. lia.
Qed.

Lemma pointer2 a b v : pointer [a; b] v = get (lit a) v ≫= get (lit b).
Proof. done. Qed.

Lemma duration_charge from durations last now :
  durations_ok durations -> (sum_durations durations + elapsed_ms last now < 2 ^ 63)%Z ->
  i64_wrap (duration_at from durations + elapsed_ms last now)
  = (duration_at from durations + elapsed_ms last now)%Z.
Proof.
  intros Hd Hlt. pose proof (duration_at_bound from durations Hd).
  assert (0 <= elapsed_ms last now)%Z by (unfold elapsed_ms; lia).
  apply i64_wrap_id. unfold in_i64. apply andb_true_iff. rewrite Z.leb_le, Z.ltb_lt. lia.
Qed.

(** A transition charges the time since the last one to the status being left, moves the
    transition clock, and records the total; no other part of the payload changes. *)
Lemma apply_transition_timing_inv q last now from to payload :
  timing_inv q last payload -> (last <= now)%Z ->
  (timestamp_millis now - timestamp_millis q < 2 ^ 63)%Z ->
  exists payload' timing',
    apply_transition_timing from to now payload = Some payload' /\
    timing_inv q now payload' /\
    get (lit "timing") payload' = Some (Object timing') /\
    map_get (lit "total_duration_ms") timing'
      = Some (jint (timestamp_millis now - timestamp_millis q)) /\
    (is_terminal to = true -> map_get (lit "completed_at") timing' = Some (String (to_rfc3339 now))) /\
    forall k, k <> lit "timing" -> get k payload' = get k payload.
Proof.
  intros [Hord Hrange (tm & durs & Htm & Hq & Hlast & Hdurs & Hok & Hsum)] Hle Hlt.
  pose proof (timestamp_millis_mono _ _ Hle) as Hms.
  pose proof (timestamp_millis_mono _ _ Hord) as Hms'.
  assert (elapsed_ms last now = timestamp_millis now - timestamp_millis last)%Z as Hel
    by (unfold elapsed_ms; lia).
  destruct (sum_durations_insert (as_str from) (elapsed_ms last now) durs Hok) as [Hok' Hsum'];
    [lia|lia|].
  unfold apply_transition_timing. rewrite pointer2, Htm. simpl. rewrite Hlast. simpl.
  rewrite parse_timestamp_print. simpl.
  set (durs' := map_insert (as_str from) (jint (duration_at (as_str from) durs + elapsed_ms last now)) durs) in *.
  assert (charge_duration from (elapsed_ms last now) (Object durs) = Some (Object durs')) as Hch.
  { unfold charge_duration, durs'. do 3 f_equal. f_equal. apply duration_charge; [done|lia]. }
  destruct (with_key_run "status_durations_ms" _ (Object tm) _ _ Hdurs Hch)
    as (tm1 & Htm1 & Hd1 & Ho1 & Hk1).
  destruct (with_key_run "timing" _ payload _ _ Htm Htm1) as (p1 & Hp1 & Hg1 & _ & Hkp1).
  rewrite Hp1. simpl. clear Hp1 Htm1 Hch.
  destruct tm1 as [| | | | |m1]; try done. simpl in Hd1, Hk1.
  rewrite <- (Hk1 (lit "queued_at")) in Hq by key_ne.
  (* the start of processing *)
  assert (exists p2 m2,
    match pointer ["timing"; "processing_started_at"] p1 ≫= Json.as_str with
    | Some _ => Some p1
    | None => if decide (to = Queued) then Some p1
              else with_key "timing" (index_set "processing_started_at" (String (to_rfc3339 now))) p1
    end = Some p2 /\ get (lit "timing") p2 = Some (Object m2) /\
    map_get (lit "queued_at") m2 = Some (String (to_rfc3339 q)) /\
    map_get (lit "status_durations_ms") m2 = Some (Object durs') /\
    forall k, k <> lit "timing" -> get k p2 = get k p1) as (p2 & m2 & -> & Hg2 & Hq2 & Hd2 & Hk2).
  { case_match; [by exists p1, m1|]. case_decide; [by exists p1, m1|].
    destruct (with_key_run "timing" (index_set "processing_started_at" (String (to_rfc3339 now))) p1 _ _ Hg1 eq_refl)
      as (p2 & Hp2 & Hg2 & _ & Hk2).
    eexists p2, _. rewrite Hp2. split; [done|]. split; [exact Hg2|].
    split; [map_get_simpl; done|]. split; [map_get_simpl; done|]. done. }
  simpl.
  assert (calculate_total_duration p2 now = Some (timestamp_millis now - timestamp_millis q)%Z) as ->.
  { unfold calculate_total_duration. rewrite pointer2, Hg2. simpl. rewrite Hq2. simpl.
    rewrite parse_timestamp_print. simpl. f_equal. unfold elapsed_ms. lia. }
  rewrite !pointer2, Hg2. simpl. rewrite Hq2. simpl.
  match goal with |- context [with_key "timing" ?g p2] =>
    destruct (with_key_run "timing" g p2 _ _ Hg2 eq_refl) as (p3 & Hp3 & Hg3 & _ & Hk3) end.
  eexists p3, _. split; [exact Hp3|]. split.
  { split; [lia|lia|]. eexists _, durs'. split; [exact Hg3|].
    repeat (split; [map_get_simpl; done|]). lia. }
  split; [exact Hg3|]. split; [map_get_simpl; done|].
  split; [intros ->; map_get_simpl; done|].
  intros k Hk. by rewrite Hk3, Hk2, Hkp1.
Qed.
End TimingFacts.

(** ** Lemmas: the payload invariant *)

(** The shape every payload written by the service has: an object with a timing block, a job
    object, and at most [HISTORY_LIMIT] history entries. *)
Record audit_inv `{Rfc3339} (q last : Z) (payload : value) : Prop := {
  ai_timing : timing_inv q last payload;
  ai_job : exists job, get (lit "job") payload = Some (Object job);
  ai_history : exists h, get (lit "status_history") payload = Some (Array h) /\ length h <= HISTORY_LIMIT
}.

Section PayloadFacts.
Context `{Rfc3339Laws}.

Lemma timing_inv_frame q last p p' :
  timing_inv q last p -> get (lit "timing") p' = get (lit "timing") p -> timing_inv q last p'.
Proof.
  intros [Ho Hr (tm & ds & Ht & Hrest)] He. split; [done|done|]. exists tm, ds. by rewrite He.
Qed.

Lemma audit_inv_object q last p : audit_inv q last p -> is_object p = true.
Proof. intros [_ [job Hj] _]. by eapply get_Some_object. Qed.

Lemma audit_inv_base now : audit_inv now now (build_base_payload now).
Proof.
  split; [apply timing_inv_base| |].
  - eexists. unfold build_base_payload. rewrite get_obj. reflexivity.
  - eexists. unfold build_base_payload. rewrite get_obj. split; [reflexivity|].
    unfold HISTORY_LIMIT. simpl. lia.
Qed.

(** Setting a key the invariant does not speak of keeps it. *)
Lemma index_set_inv k x q last p :
  lit k <> lit "timing" -> lit k <> lit "job" -> lit k <> lit "status_history" ->
  audit_inv q last p ->
  exists p', index_set k x p = Some p' /\ audit_inv q last p' /\ get (lit k) p' = Some x /\
    forall k', k' <> lit k -> get k' p' = get k' p.
Proof.
  intros H1 H2 H3 Hp.
  destruct (index_set_run k x p (audit_inv_object _ _ _ Hp)) as (p' & Hs & Hg & Ho & Hk).
  exists p'. split; [done|]. split; [|done]. destruct Hp as [Ht Hj Hh].
  split; [by eapply timing_inv_frame; [|rewrite Hk]|by rewrite Hk|by rewrite Hk].
Qed.

Lemma apply_runtime_metadata_inv now attempt job_context q last p :
  audit_inv q last p ->
  exists p', apply_runtime_metadata now attempt job_context p = Some p' /\ audit_inv q last p' /\
    forall k, k <> lit "job" -> get k p' = get k p.
Proof.
  intros [Ht [job Hj] Hh]. unfold apply_runtime_metadata. rewrite Hj.
  assert (exists p1 job1, match job_context with
    | Some jc => index_set "job" (Object (merge_job_context jc job)) p | None => Some p end = Some p1 /\
    get (lit "job") p1 = Some (Object job1) /\ forall k, k <> lit "job" -> get k p1 = get k p)
    as (p1 & job1 & -> & Hj1 & Hk1).
  { destruct job_context as [jc|]; [|by exists p, job].
    destruct (index_set_run "job" (Object (merge_job_context jc job)) p) as (p1 & -> & Hg & _ & Hk);
      [by eapply get_Some_object|]. by exists p1, (merge_job_context jc job). }
  simpl. match goal with |- context [with_key "job" ?g p1] =>
    destruct (with_key_run "job" g p1 _ _ Hj1 eq_refl) as (p2 & -> & Hj2 & _ & Hk2) end.
  exists p2. split; [done|].
  assert (forall k, k <> lit "job" -> get k p2 = get k p) as Hk by (intros; by rewrite Hk2, Hk1).
  split; [|done]. split; [by eapply timing_inv_frame; [|rewrite Hk by key_ne]|by eexists|].
  by rewrite Hk by key_ne.
Qed.

Lemma update_provider_trace_inv q last p :
  audit_inv q last p ->
  exists p', update_provider_trace p = Some p' /\ audit_inv q last p' /\
    forall k, k <> lit "provider_trace" -> get k p' = get k p.
Proof.
  intros Hp. unfold update_provider_trace. case_match; [by exists p|].
  destruct (index_set_inv "provider_trace" provider_trace_default q last p) as (p' & -> & Hi & _ & Hk);
    [key_ne|key_ne|key_ne|done|by exists p'].
Qed.

Lemma append_history_inv event q last p :
  audit_inv q last p ->
  exists p' h, append_history event p = Some p' /\ audit_inv q last p' /\
    get (lit "status_history") p' = Some (Array h) /\ list.last h = Some event /\
    forall k, k <> lit "status_history" -> get k p' = get k p.
Proof.
  intros Hp. destruct (append_history_is_Some event p (audit_inv_object _ _ _ Hp)) as [p' Ha].
  destruct (append_history_spec _ _ _ Ha) as (h & Hg & Hlen & Hlast & _ & _ & Hk).
  exists p', h. split; [done|]. split; [|done]. destruct Hp as [Ht Hj Hh].
  split; [by eapply timing_inv_frame; [|rewrite Hk by key_ne]|by rewrite Hk by key_ne|eauto].
Qed.

Lemma apply_transition_timing_audit_inv q last now from to p :
  audit_inv q last p -> (last <= now)%Z -> (timestamp_millis now - timestamp_millis q < 2 ^ 63)%Z ->
  exists p' timing', apply_transition_timing from to now p = Some p' /\ audit_inv q now p' /\
    get (lit "timing") p' = Some (Object timing') /\
    map_get (lit "total_duration_ms") timing' = Some (jint (timestamp_millis now - timestamp_millis q)) /\
    forall k, k <> lit "timing" -> get k p' = get k p.
Proof.
  intros [Ht Hj Hh] Hle Hlt.
  destruct (apply_transition_timing_inv q last now from to p Ht Hle Hlt)
    as (p' & tm & Ha & Ht' & Hg & Htot & _ & Hk).
  exists p', tm. repeat (split; [done|]). split; [|done].
  split; [done|by rewrite Hk by key_ne|by rewrite Hk by key_ne].
Qed.

(** The payload of an effective transition. *)
Lemma transition_payload_inv q last now from to context attempt p :
  audit_inv q last p -> (last <= now)%Z -> (timestamp_millis now - timestamp_millis q < 2 ^ 63)%Z ->
  is_Some (filter_context context) ->
  exists p' timing' h event,
    transition_payload from to now context attempt p = Some p' /\ audit_inv q now p' /\
    get (lit "current_status") p' = Some (String (as_str to)) /\
    get (lit "latest_error") p' = Some Null /\
    get (lit "timing") p' = Some (Object timing') /\
    map_get (lit "total_duration_ms") timing' = Some (jint (timestamp_millis now - timestamp_millis q)) /\
    get (lit "status_history") p' = Some (Array h) /\ list.last h = Some event /\
    get (lit "to_status") event = Some (String (as_str to)).
Proof.
  intros Hp Hle Hlt [c Hc]. unfold transition_payload.
  destruct (apply_transition_timing_audit_inv q last now from to p Hp Hle Hlt)
    as (p1 & tm & -> & Hi1 & Htm & Htot & _). simpl.
  destruct (index_set_inv "current_status" (String (as_str to)) q now p1)
    as (p2 & -> & Hi2 & Hcs & Hk2); [key_ne|key_ne|key_ne|done|]. simpl.
  destruct (update_provider_trace_inv q now p2 Hi2) as (p3 & -> & Hi3 & Hk3). simpl.
  destruct (index_set_inv "latest_error" Null q now p3)
    as (p4 & -> & Hi4 & Hle4 & Hk4); [key_ne|key_ne|key_ne|done|]. simpl. rewrite Hc. simpl.
  match goal with |- context [append_history ?e p4] =>
    destruct (append_history_inv e q now p4 Hi4) as (p5 & h & -> & Hi5 & Hh & Hlast & Hk5) end.
  eexists p5, tm, h, _. split; [done|]. split; [done|].
  split; [by rewrite Hk5, Hk4, Hk3 by key_ne|]. split; [by rewrite Hk5 by key_ne|].
  split; [by rewrite Hk5, Hk4, Hk3, Hk2 by key_ne|]. split; [done|]. split; [done|].
  split; [exact Hlast|]. by rewrite get_obj.
Qed.
End PayloadFacts.

(** ** Lemmas: sanitising *)

Lemma sanitize_message_words m :
  sanitize_message m =
  let w := join [32%Z] (split_whitespace m) in
  if (240 <? str_len w)%nat then slice_to 240 w else Some w.
Proof. unfold sanitize_message. by rewrite trim_collapse_singleton. Qed.

Lemma sanitize_message_len m r : sanitize_message m = Some r -> str_len r <= Nat.min 240 (str_len m).
Proof.
  unfold sanitize_message. pose proof (str_len_trim (collapse_ws singleton_char m)).
  pose proof (str_len_collapse m). destruct (240 <? _) eqn:E.
  - apply Nat.ltb_lt in E. intros [Hlen _]%slice_to_Some. lia.
  - apply Nat.ltb_ge in E. intros [= <-]. lia.
Qed.

Lemma sanitize_message_ascii m : ascii_str m -> is_Some (sanitize_message m).
Proof.
  intros Hm. unfold sanitize_message. pose proof (ascii_trim _ (ascii_collapse m Hm)) as Ha.
  destruct (240 <? _) eqn:E; [|done]. apply Nat.ltb_lt in E.
  rewrite ascii_str_len in E by done. rewrite slice_to_ascii by (done || lia). done.
Qed.

Lemma ellipsize_len max t r : 3 <= max -> ellipsize max t = Some r -> str_len r <= max.
Proof.
  unfold ellipsize. intros Hmax. destruct (max <? str_len t) eqn:E.
  - destruct (slice_to (max - 3) t) as [p|] eqn:Hp; [|done]. simpl. intros [= <-].
    apply slice_to_Some in Hp as [Hlen _]. rewrite str_len_app, Hlen.
    change (str_len (lit "...")) with 3. lia.
  - apply Nat.ltb_ge in E. intros [= <-]. lia.
Qed.

(** ** Lemmas: context filtering *)

Definition item_ok (v : value) : Prop :=
  match v with Bool _ | Number _ => True | String s => str_len s <= 80 | _ => False end.

(** What may sit in a filtered object at nesting depth [d]. *)
Inductive context_entry : nat -> value -> Prop :=
| ce_bool d b : context_entry d (Bool b)
| ce_number d n : context_entry d (Number n)
| ce_string d s : str_len s <= 160 -> context_entry d (String s)
| ce_array d l : 0 < length l <= 8 -> Forall item_ok l -> context_entry d (Array l)
| ce_object d m : d < 1 -> m <> [] -> Forall (λ kv : str * value, context_entry (S d) kv.2) m ->
    context_entry d (Object m).

Definition context_result (d : nat) (r : value) : Prop :=
  r = Null \/ exists m, r = Object m /\ d <= 1 /\ m <> [] /\
    Forall (λ kv : str * value, context_entry d kv.2) m.

Lemma map_insert_Forall (P : value -> Prop) k v m :
  P v -> Forall (λ kv : str * value, P kv.2) m -> Forall (λ kv : str * value, P kv.2) (map_insert k v m).
Proof.
  intros Hv. induction 1 as [|[k' v'] m Hp Hm IH]; simpl; [by repeat constructor|].
  destruct (decide (k = k')); by constructor.
Qed.

Lemma take_items_ok n arr l : take_items n arr = Some l -> length l <= n /\ Forall item_ok l.
Proof.
  revert n l. induction arr as [|item arr IH]; intros [|n] l; simpl; try (intros [= <-]; split; [simpl; lia|constructor]).
  destruct item as [|b|x|s|a|o]; try apply (IH (S n)).
  - destruct (take_items n arr) eqn:E; simpl; [|done]. intros [= <-].
    apply IH in E as [? ?]. simpl. split; [lia|by constructor].
  - destruct (take_items n arr) eqn:E; simpl; [|done]. intros [= <-].
    apply IH in E as [? ?]. simpl. split; [lia|by constructor].
  - case_decide; [apply (IH (S n))|].
    destruct (ellipsize 80 (trim s)) as [t|] eqn:Et; simpl; [|done].
    destruct (sanitize_message t) as [m|] eqn:Em; simpl; [|done].
    destruct (take_items n arr) eqn:E; simpl; [|done]. intros [= <-].
    apply IH in E as [? ?]. simpl. split; [lia|]. constructor; [|done]. simpl.
    apply ellipsize_len in Et; [|lia]. apply sanitize_message_len in Em. lia.
Qed.

(** The loop over the fields of an object, given what the recursive call returns. *)
Lemma filter_fields_ok recur d :
  d <= 1 -> (forall v r, recur v = Some r -> context_result (S d) r) ->
  forall m filtered res,
    filter_fields recur filtered m = Some res ->
    Forall (λ kv : str * value, context_entry d kv.2) filtered ->
    Forall (λ kv : str * value, context_entry d kv.2) res.
Proof.
  intros Hd Hrec.
  induction m as [|[key val] m IH]; intros filtered res; simpl; [by intros [= <-]|].
  assert (Hins : forall v, context_entry d v -> filter_fields recur (map_insert key v filtered) m = Some res ->
    Forall (λ kv : str * value, context_entry d kv.2) filtered ->
    Forall (λ kv : str * value, context_entry d kv.2) res).
  { intros v Hv Hg Hf. eapply IH; [exact Hg|]. by apply map_insert_Forall. }
  destruct val as [|b|n|s|arr|o].
  - apply IH.
  - apply Hins. constructor.
  - apply Hins. constructor.
  - case_decide; [apply IH|]. destruct (ellipsize 160 (trim s)) as [t|] eqn:Et; simpl; [|done].
    destruct (sanitize_message t) as [x|] eqn:Ex; simpl; [|done]. apply Hins. constructor.
    apply ellipsize_len in Et; [|lia]. apply sanitize_message_len in Ex. lia.
  - destruct (take_items 8 arr) as [items|] eqn:Ei; simpl; [|done].
    apply take_items_ok in Ei as [Hlen Hok]. case_decide; [apply IH|]. apply Hins. constructor; [lia|done].
  - destruct (recur (Object o)) as [nested|] eqn:En; simpl; [|done].
    destruct (Hrec _ _ En) as [->|(o' & -> & Hd' & Hne & Hall)]; simpl; [apply IH|].
    apply Hins. constructor; [lia|done|done].
Qed.

Lemma filter_context_inner_step d :
  (forall v r, filter_context_inner v (S d) = Some r -> context_result (S d) r) ->
  forall v r, filter_context_inner v d = Some r -> context_result d r.
Proof.
  intros Hrec v r. destruct v as [| | | | |map]; cbn [filter_context_inner];
    (destruct (1 <? d) eqn:Ed; [intros [= <-]; by left|]);
    try (intros [= <-]; by left).
  apply Nat.ltb_ge in Ed as Hd.
  destruct (filter_fields _ [] map) as [filtered|] eqn:Eg; simpl; [|done]. intros [= <-].
  apply (filter_fields_ok _ d) in Eg; [|done|by intros v' r'; apply Hrec|constructor].
  case_decide; [by left|]. right. exists filtered. repeat split; try done. by destruct filtered.
Qed.

Lemma filter_context_inner_ok v r : filter_context_inner v 0 = Some r -> context_result 0 r.
Proof.
  apply filter_context_inner_step, filter_context_inner_step.
  intros v' r'. destruct v'; simpl; intros [= <-]; by left.
Qed.

(** ** Lemmas: total correctness *)

Lemma as_str_varchar st : varchar 20 (as_str st) = true.
Proof. by destruct st. Qed.

Section TotalFacts.
Context `{Rfc3339Laws} `{UuidText}.

Lemma transitioned_ok to payload now r :
  row_ok r = true -> row_ok (transitioned to payload now r) = true.
Proof.
  intros Hr. unfold transitioned. rewrite row_ok_updated, row_ok_error_message.
  apply row_ok_error_code; [done|]. rewrite row_ok_audit.
  apply row_ok_status; [apply as_str_varchar|done].
Qed.

Lemma payload_or_base_stored q last p now :
  audit_inv q last p -> payload_or_base (Some p) now = p.
Proof. intros Hp. apply audit_inv_object in Hp. by destruct p. Qed.

Lemma from_str_status st : parse_status (as_str st) = Ok st.
Proof. unfold parse_status. by rewrite from_str_as_str. Qed.

Lemma wp_transition_total generation_id gid to context attempt job_context row p q last from s :
  healthy s -> parse_uuid_str generation_id = Some gid -> committed s !! gid = Some row ->
  row_ok row = true -> status row = as_str from -> orchestration_audit_payload row = Some p ->
  audit_inv q last p -> (last <= time s)%Z ->
  (timestamp_millis (time s) - timestamp_millis q < 2 ^ 63)%Z ->
  is_Some (filter_context context) -> can_transition from to = true ->
  exists p0 p' now s',
    transition generation_id to context attempt job_context s = (Ok p', s') /\
    audit_inv q last p0 /\ transition_payload from to (time s) context attempt p0 = Some p' /\
    committed s' = <[gid := transitioned to p' now row]> (committed s).
Proof.
  intros Hs Hu Hr Hok Hst Hpay Hp Hle Hlt Hc Hcan.
  destruct (apply_runtime_metadata_inv (time s) attempt job_context q last p Hp) as (p0 & Hp0 & Hi0 & _).
  destruct (transition_payload_inv q last (time s) from to context attempt p0 Hi0 Hle Hlt Hc)
    as (p' & _ & _ & _ & Hp' & _).
  exists p0, p'.
  assert (wp (transition generation_id to context attempt job_context)
    (λ r s', r = Ok p' /\ exists now, committed s' = <[gid := transitioned to p' now row]> (committed s)) s)
    as (Hres & now & Hdb).
  { unfold transition, parse_uuid, select_by_id. rewrite Hu.
    wp_healthy. rewrite Hr. simpl.
    wp_healthy. rewrite Hst, Hpay, (payload_or_base_stored q last), from_str_status by done. simpl.
    wp_healthy. rewrite Hp0. simpl.
    rewrite decide_False by (intros ->; by destruct to). rewrite Hcan.
    wp_healthy. rewrite Hp'. simpl.
    wp_healthy. unfold update_by_id. rewrite Hr.
    match goal with |- context [row_ok ?x] => replace (row_ok x) with true
      by (symmetry; apply (transitioned_ok to p' _ row Hok)) end.
    wp_healthy. split; [done|]. eexists. same_data_simpl. reflexivity. }
  unfold wp in *. destruct (transition _ _ _ _ _ s) as [r s'] eqn:E. simpl in *. subst r.
  eexists now, s'. done.
Qed.
End TotalFacts.

Lemma has_audit_payload_base `{Rfc3339} r now :
  orchestration_audit_payload r = Some (build_base_payload now) ->
  has_audit_payload r = Some (build_base_payload now).
Proof.
  intros Hr. unfold has_audit_payload. rewrite Hr. cbn [mbind option_bind].
  rewrite decide_True; [done|]. unfold build_base_payload. rewrite !get_obj. split; [done|by eexists].
Qed.

(** ** Properties *)

(** C1. With a reachable database, an allowed transition of a generation whose payload is well
    formed succeeds: it stores the new status, clears the error columns and leaves every other
    column but the payload and [updated_at] and every other row alone; the new payload is again
    well formed, its history (at most [HISTORY_LIMIT] events) ends with the event of this
    transition, and the milliseconds charged to the statuses, like the recorded total duration,
    add up to the time since the generation was queued. *)
Theorem transition_effective `{Rfc3339Laws} `{UuidText} generation_id gid to context attempt
    job_context row p q last from s
  (Hs : healthy s) (Hid : parse_uuid_str generation_id = Some gid)
  (Hrow : committed s !! gid = Some row) (Hok : row_ok row = true)
  (Hstatus : status row = as_str from) (Hp : orchestration_audit_payload row = Some p)
  (Hinv : audit_inv q last p) (Hclock : (last <= time s)%Z)
  (Hrange : (timestamp_millis (time s) - timestamp_millis q < 2 ^ 63)%Z)
  (Hcontext : is_Some (filter_context context)) (Hcan : can_transition from to = true) :
  exists p' timing h event now s',
    transition generation_id to context attempt job_context s = (Ok p', s') /\
    committed s' = <[gid := transitioned to p' now row]> (committed s) /\
    audit_inv q (time s) p' /\
    get (lit "current_status") p' = Some (String (as_str to)) /\
    get (lit "timing") p' = Some (Object timing) /\
    map_get (lit "total_duration_ms") timing =
      Some (jint (timestamp_millis (time s) - timestamp_millis q)) /\
    get (lit "status_history") p' = Some (Array h) /\ list.last h = Some event /\
    get (lit "to_status") event = Some (String (as_str to)).
Proof.
  destruct (wp_transition_total generation_id gid to context attempt job_context row p q last from s)
    as (p0 & p' & now & s' & Hrun & Hi & Hpay & Hdb); try done.
  destruct (transition_payload_inv q last (time s) from to context attempt p0)
    as (p1 & timing & h & event & Hpay' & ? & ? & _ & ? & ? & ? & ? & ?); try done.
  simplify_eq. exists p', timing, h, event, now, s'. done.
Qed.

(** C3. Whatever statements fail, [transition] is atomic: when it does not return a payload the
    table is unchanged, and when it does, the move was allowed by the transition matrix (or the
    generation already had the target status) and exactly that row was rewritten. *)
Theorem transition_atomic `{Rfc3339} `{UuidText} generation_id to context attempt job_context s :
  match transition generation_id to context attempt job_context s with
  | (Ok payload, s') =>
      exists gid row from now,
        parse_uuid_str generation_id = Some gid /\ committed s !! gid = Some row /\
        status row = as_str from /\ (from = to \/ can_transition from to = true) /\
        committed s' = <[gid := transitioned to payload now row]> (committed s)
  | (_, s') => committed s' = committed s
  end.
Proof.
  pose proof (wp_transition generation_id to context attempt job_context s) as Hwp.
  unfold wp in Hwp. by destruct (transition _ _ _ _ _ s) as [[] ?].
Qed.

(** C5. [mark_failed] writes both status columns and the sanitised message, and only over a
    generation that has failed already or may fail: a completed or cancelled generation is never
    rewritten. Every other outcome, a panic included, leaves the table unchanged. *)
Theorem mark_failed_spec `{Rfc3339} `{UuidText} generation_id code message retryable context attempt
    job_context s :
  match mark_failed generation_id code message retryable context attempt job_context s with
  | (Ok payload, s') =>
      exists gid row current msg now,
        parse_uuid_str generation_id = Some gid /\ committed s !! gid = Some row /\
        status row = as_str current /\ current <> Completed /\ current <> Cancelled /\
        sanitize_message message = Some msg /\
        committed s' = <[gid := failed_row code msg payload now row]> (committed s)
  | (_, s') => committed s' = committed s
  end.
Proof.
  pose proof (wp_mark_failed generation_id code message retryable context attempt job_context s) as Hwp.
  unfold wp in Hwp. destruct (mark_failed _ _ _ _ _ _ _ s) as [[] s']; simpl in Hwp; [|done|done].
  destruct Hwp as (gid & row & cur & msg & now & ? & ? & ? & Hcur & ? & ?).
  exists gid, row, cur, msg, now. repeat split; try done; intros ->; by destruct Hcur.
Qed.

(** [record_attempt_failure] never changes a status: it rewrites the audit payload of the row
    (and [updated_at]), or nothing, and it succeeds without effect on a generation that does not
    exist. *)
Lemma record_attempt_failure_keeps_status `{Rfc3339} `{UuidText} generation_id code message
    retryable context attempt job_context s :
  match record_attempt_failure generation_id code message retryable context attempt job_context s with
  | (Ok payload, s') =>
      exists gid, parse_uuid_str generation_id = Some gid /\
      (committed s !! gid = None -> committed s' = committed s) /\
      forall row, committed s !! gid = Some row -> exists now, committed s' =
        <[gid := row <| orchestration_audit_payload := Some payload |> <| updated_at := Some now |>]>
          (committed s)
  | (_, s') => committed s' = committed s
  end.
Proof.
  pose proof (wp_record_attempt_failure generation_id code message retryable context attempt
    job_context s) as Hwp.
  unfold wp in Hwp. destruct (record_attempt_failure _ _ _ _ _ _ _ s) as [[] s']; simpl in Hwp; [|done|done].
  destruct Hwp as (gid & Hid & Hrow). exists gid. split; [done|].
  destruct (committed s !! gid); naive_solver.
Qed.

(** [initialize] is idempotent: after it has succeeded once, a second call that succeeds
    returns the same payload and does not touch the table, and the first call keeps a payload
    that is already there. *)
Lemma initialize_idempotent `{Rfc3339} `{UuidText} generation_id s payload s' payload' s''
  (Hfirst : initialize generation_id s = (Ok payload, s'))
  (Hsecond : initialize generation_id s' = (Ok payload', s'')) :
  payload' = payload /\ committed s'' = committed s' /\
  exists gid row row', parse_uuid_str generation_id = Some gid /\ committed s !! gid = Some row /\
    committed s' !! gid = Some row' /\ status row' = status row /\
    (has_audit_payload row = None -> payload = build_base_payload (time s)) /\
    (forall stored, has_audit_payload row = Some stored -> payload = stored /\ committed s' = committed s).
Proof.
  pose proof (wp_intro _ _ _ _ _ (wp_initialize generation_id s) Hfirst) as (gid & row & Hid & Hrow & H1).
  pose proof (wp_intro _ _ _ _ _ (wp_initialize generation_id s') Hsecond) as (gid' & row2 & Hid' & Hrow2 & H2).
  assert (gid' = gid) as -> by congruence.
  destruct (has_audit_payload row) as [stored|] eqn:Ha.
  - destruct H1 as [-> Hdb]. rewrite Hdb in Hrow2. simplify_eq. rewrite Ha in H2.
    destruct H2 as [-> ?]. split; [done|]. split; [done|]. exists gid, row, row.
    rewrite Hdb, Ha. naive_solver.
  - destruct H1 as (-> & now & Hdb). rewrite Hdb, lookup_insert_eq in Hrow2. simplify_eq.
    assert (has_audit_payload (row <| orchestration_audit_payload := Some (build_base_payload (time s)) |>
      <| updated_at := Some now |>) = Some (build_base_payload (time s))) as Hbase.
    { by apply has_audit_payload_base. }
    rewrite Hbase in H2. destruct H2 as [-> ?]. split; [done|]. split; [done|].
    exists gid, row. eexists. rewrite Hdb, lookup_insert_eq. naive_solver.
Qed.

(** [sanitize_message] returns the whitespace-separated words of the message joined by single
    spaces, cut to 240 bytes. It panics exactly when the joined message is longer and its 240-byte
    boundary falls inside a character, which cannot happen for an ASCII message. *)
Lemma sanitize_message_spec message :
  let words := join [32%Z] (split_whitespace message) in
  (str_len words <= 240 -> sanitize_message message = Some words) /\
  (240 < str_len words -> forall r, sanitize_message message = Some r <-> r `prefix_of` words /\ str_len r = 240) /\
  (sanitize_message message = None <->
     240 < str_len words /\ forall r, r `prefix_of` words -> str_len r <> 240) /\
  (ascii_str message -> is_Some (sanitize_message message)).
Proof.
  intros words. rewrite sanitize_message_words. simpl. fold words.
  split; [|split; [|split]].
  - intros Hle. by rewrite (proj2 (Nat.ltb_ge _ _)).
  - intros Hlt r. rewrite (proj2 (Nat.ltb_lt _ _)) by done. split.
    + intros ?%slice_to_Some. naive_solver.
    + intros [? ?]. by apply slice_to_complete.
  - destruct (240 <? str_len words) eqn:E; [apply Nat.ltb_lt in E|apply Nat.ltb_ge in E].
    + rewrite slice_to_None. naive_solver.
    + split; [done|]. intros [? _]. lia.
  - intros Ha. pose proof (sanitize_message_ascii message Ha) as Hs.
    by rewrite sanitize_message_words in Hs.
Qed.

(** What [filter_context] lets into the audit payload is bounded: null, or a non-empty object
    of scalars, strings of at most 160 bytes, non-empty arrays of at most 8 scalars (strings of at
    most 80 bytes), and one more level of such objects. *)
Lemma filter_context_bounded context r (Hr : filter_context context = Some r) : context_result 0 r.
Proof.
  destruct context as [ctx|]; simpl in Hr; [by eapply filter_context_inner_ok|].
  injection Hr as <-. by left.
Qed.

(** ** Witnesses *)

Module AuditWitness.
#[local] Existing Instance decimal_uuid.
#[local] Existing Instance decimal_time.
#[local] Existing Instance decimal_time_laws.

Definition row0 : MediaGeneration :=
  sample_row <| orchestration_audit_payload := Some (build_base_payload 1000) |>.
Definition state0 : St := sample_state {[ 1%Z := row0 ]} 5000000000.

(** The queued sample generation is picked up for interpretation. *)
Lemma transition_effective_witness :
  exists p' timing h event now s',
    transition (lit "1") Interpreting None (Some 1%Z) None state0 = (Ok p', s') /\
    committed s' = <[1%Z := transitioned Interpreting p' now row0]> (committed state0) /\
    audit_inv 1000 (time state0) p' /\
    get (lit "current_status") p' = Some (String (as_str Interpreting)) /\
    get (lit "timing") p' = Some (Object timing) /\
    map_get (lit "total_duration_ms") timing =
      Some (jint (timestamp_millis (time state0) - timestamp_millis 1000)) /\
    get (lit "status_history") p' = Some (Array h) /\ list.last h = Some event /\
    get (lit "to_status") event = Some (String (as_str Interpreting)).
Proof.
  eapply (transition_effective (lit "1") 1 Interpreting None (Some 1%Z) None row0
    (build_base_payload 1000) 1000 1000 Queued state0).
  - apply sample_healthy.
  - reflexivity.
  - reflexivity.
  - reflexivity.
  - reflexivity.
  - reflexivity.
  - apply audit_inv_base.
  - vm_compute. discriminate.
  - vm_compute. reflexivity.
  - eexists. reflexivity.
  - reflexivity.
Defined.

Lemma initialize_idempotent_witness :
  let s0 := sample_state sample_db 1000 in
  let s1 := (initialize (lit "1") s0).2 in
  exists payload, payload = build_base_payload 1000 /\ payload = payload /\
    committed (initialize (lit "1") s1).2 = committed s1.
Proof.
  intros s0 s1. exists (build_base_payload 1000).
  destruct (initialize_idempotent (lit "1") s0 (build_base_payload 1000) s1 (build_base_payload 1000)
    (initialize (lit "1") s1).2) as (H1 & H2 & _).
  - vm_compute. reflexivity.
  - vm_compute. reflexivity.
  - split; [reflexivity|]. split; [exact H1|exact H2].
Defined.

Lemma filter_context_bounded_witness :
  context_result 0 (Object [(lit "kind", String (lit "timeout"))]).
Proof.
  apply (filter_context_bounded
    (Some (obj [("kind", jstr "timeout"); ("trace", Null); ("body", jstr "  ")]))).
  vm_compute. reflexivity.
Defined.
End AuditWitness.
