(* ===== verification/Repo.v ===== *)
(** * The media-generations repository (src/src/db/repositories/media_generations.rs)

    The queries of [PgMediaGenerationsRepo]: the partial update built from the
    fields that are present, the job, S3, error and clarification updates, the
    reset for reprocessing, the walk along [generated_from_id] and the eager
    loading of related rows. *)

From stdpp Require Import base gmap list option strings fin_maps sorting.
From Stdlib Require Import ZArith Lia.
From S2P Require Import Prelude RustStr Json Store Samples.

(** The [anyhow::Error]s of the repository: what failed, the id the message names, and the error of
    the database, or a generation that is not there. *)
Inductive repo_error :=
| Context (what : str) (who : option uuid) (e : db_error)
| Missing (who : option uuid).

(** Their texts: "[what] [who]: [e]", "media generation [who] not found". *)
Section RepoErrorText.
Context `{DbErrorText} `{UuidPrint}.
Definition named (what : str) (who : option uuid) : str :=
  match who with Some i => what ++ lit " " ++ uuid_to_string i | None => what end.
Definition repo_error_text (e : repo_error) : str :=
  match e with
  | Context what who e => named what who ++ lit ": " ++ db_error_text e
  | Missing who => named (lit "media generation") who ++ lit " not found"
  end.
End RepoErrorText.

(** ** Payloads *)

Record CreateMediaGenerationPayload := {
  cp_teacher_id : Z;
  cp_raw_prompt : str;
  cp_request_fingerprint : str;
  cp_generated_from_id : option uuid;
  cp_is_regeneration : bool;
  cp_subject_id : option Z;
  cp_sub_subject_id : option Z;
  cp_preferred_output_type : str;
  cp_active_duplicate_key : option str
}.

Record UpdatePayloadsPayload := mkUpdatePayloads {
  up_interpretation_payload : option value;
  up_interpretation_audit_payload : option value;
  up_generation_spec_payload : option value;
  up_decision_payload : option value;
  up_orchestration_audit_payload : option value;
  up_delivery_payload : option value;
  up_generator_service_response : option value;
  up_resolved_output_type : option str;
  up_llm_provider : option str;
  up_llm_model : option str;
  up_generator_provider : option str;
  up_generator_model : option str;
  up_storage_path : option str;
  up_file_url : option str;
  up_thumbnail_url : option str;
  up_mime_type : option str;
  up_error_code : option str;
  up_error_message : option str
}.
#[export] Instance UpdatePayloads_eta : Eta UpdatePayloadsPayload := λ p,
  mkUpdatePayloads (up_interpretation_payload p) (up_interpretation_audit_payload p)
    (up_generation_spec_payload p) (up_decision_payload p) (up_orchestration_audit_payload p)
    (up_delivery_payload p) (up_generator_service_response p) (up_resolved_output_type p)
    (up_llm_provider p) (up_llm_model p) (up_generator_provider p) (up_generator_model p)
    (up_storage_path p) (up_file_url p) (up_thumbnail_url p) (up_mime_type p) (up_error_code p)
    (up_error_message p).
(** [UpdatePayloadsPayload::default()]. *)
Definition default_payloads : UpdatePayloadsPayload :=
  mkUpdatePayloads None None None None None None None None None None None None None None None None
    None None.

Record UpdateGenerationJobStatusPayload := {
  js_generation_job_id : option uuid;
  js_generation_status : str
}.
Record UpdateS3MetadataPayload := {
  s3_key : str;
  s3_presigned_download_url : str;
  s3_presigned_url_expires_at : Z
}.
Record UpdateGenerationErrorPayload := {
  ge_code : str;
  ge_message : str
}.
Record UpdateClarificationStatePayload := {
  cs_clarification_state : option value;
  cs_clarified_at : option Z;
  cs_clarification_skipped : bool
}.

(** ** Single-row statements *)

Definition find_raw (i : uuid) : M repo_error MediaGeneration :=
  row ← mapping (Context (lit "failed to fetch media generation") None) (execute (select_by_id (λ r, r) i));
  match row with
  | Some r => mret r
  | None => throw (Missing None)
  end.

(** [UPDATE ... WHERE id = $1 RETURNING ...] with [fetch_optional] and [ok_or_else]. *)
Definition update_returning (what : string) (who : option uuid) (f : MediaGeneration -> MediaGeneration)
    (i : uuid) : M repo_error MediaGeneration :=
  row ← mapping (Context (lit what) who) (execute (update_by_id f i));
  match row with
  | Some r => mret r
  | None => throw (Missing who)
  end.
Arguments update_returning what%_string who f i.

Definition update_status (i : uuid) (new_status : str) : M repo_error MediaGeneration :=
  update_returning "failed to update media generation status" None (λ r, r <| status := new_status |>) i.

Definition set_job_status (payload : UpdateGenerationJobStatusPayload) (r : MediaGeneration) :=
  r <| generation_job_id := js_generation_job_id payload |>
    <| generation_status := Some (js_generation_status payload) |>.
Definition update_generation_job_status (i : uuid) (payload : UpdateGenerationJobStatusPayload) :
    M repo_error MediaGeneration :=
  update_returning "failed to update generation job status for" (Some i) (set_job_status payload) i.

Definition set_s3_metadata (payload : UpdateS3MetadataPayload) (r : MediaGeneration) :=
  r <| s3_object_key := Some (s3_key payload) |>
    <| presigned_download_url := Some (s3_presigned_download_url payload) |>
    <| presigned_url_expires_at := Some (s3_presigned_url_expires_at payload) |>.
Definition update_s3_metadata (i : uuid) (payload : UpdateS3MetadataPayload) :
    M repo_error MediaGeneration :=
  update_returning "failed to update S3 metadata for" (Some i) (set_s3_metadata payload) i.

Definition set_generation_error (payload : UpdateGenerationErrorPayload) (r : MediaGeneration) :=
  r <| generation_error_code := Some (ge_code payload) |>
    <| generation_error_message := Some (ge_message payload) |>.
Definition update_generation_error (i : uuid) (payload : UpdateGenerationErrorPayload) :
    M repo_error MediaGeneration :=
  update_returning "failed to update generation error for" (Some i) (set_generation_error payload) i.

Definition set_clarification (payload : UpdateClarificationStatePayload) (r : MediaGeneration) :=
  r <| clarification_state := cs_clarification_state payload |>
    <| clarified_at := cs_clarified_at payload |>
    <| clarification_skipped := cs_clarification_skipped payload |>.
Definition update_clarification_state (i : uuid) (payload : UpdateClarificationStatePayload) :
    M repo_error MediaGeneration :=
  update_returning "failed to update clarification state for" (Some i) (set_clarification payload) i.

Definition reset_row (new_raw_prompt : str) (r : MediaGeneration) : MediaGeneration :=
  r <| raw_prompt := new_raw_prompt |>
    <| status := lit "queued" |>
    <| interpretation_payload := None |>
    <| interpretation_audit_payload := None |>
    <| generation_spec_payload := None |>
    <| decision_payload := None |>
    <| orchestration_audit_payload := None |>
    <| delivery_payload := None |>
    <| generator_service_response := None |>
    <| resolved_output_type := None |>
    <| llm_provider := None |>
    <| llm_model := None |>
    <| generator_provider := None |>
    <| generator_model := None |>
    <| error_code := None |>
    <| error_message := None |>
    <| generation_status := None |>
    <| generation_error_code := None |>
    <| generation_error_message := None |>.
Definition reset_for_reprocessing (i : uuid) (new_raw_prompt : str) : M repo_error MediaGeneration :=
  update_returning "failed to reset generation for reprocessing" (Some i) (reset_row new_raw_prompt) i.

(** ** The dynamic update *)

(** The columns [update_payloads] may set. *)
Inductive payload_column :=
| ColInterpretationPayload | ColInterpretationAuditPayload | ColGenerationSpecPayload
| ColDecisionPayload | ColOrchestrationAuditPayload | ColDeliveryPayload | ColGeneratorServiceResponse
| ColResolvedOutputType | ColLlmProvider | ColLlmModel | ColGeneratorProvider | ColGeneratorModel
| ColStoragePath | ColFileUrl | ColThumbnailUrl | ColMimeType | ColErrorCode | ColErrorMessage.
#[export] Instance payload_column_eq_dec : EqDecision payload_column.
Proof. solve_decision. Defined.

(** A bound parameter. *)
Inductive bind_value := BindJson (v : value) | BindText (s : str).

(** [add_col!]: append ["col = $idx"] and advance [idx] when the field is present. *)
Definition add_col {A} (field : option A) (col : payload_column)
    (st : list (payload_column * nat) * nat) : list (payload_column * nat) * nat :=
  let '(parts, idx) := st in
  match field with
  | Some _ => (parts ++ [(col, idx)], S idx)
  | None => (parts, idx)
  end.

Definition build_payload_set (p : UpdatePayloadsPayload) : list (payload_column * nat) :=
  let st := ([], 1) in
  let st := add_col (up_interpretation_payload p) ColInterpretationPayload st in
  let st := add_col (up_interpretation_audit_payload p) ColInterpretationAuditPayload st in
  let st := add_col (up_generation_spec_payload p) ColGenerationSpecPayload st in
  let st := add_col (up_decision_payload p) ColDecisionPayload st in
  let st := add_col (up_orchestration_audit_payload p) ColOrchestrationAuditPayload st in
  let st := add_col (up_delivery_payload p) ColDeliveryPayload st in
  let st := add_col (up_generator_service_response p) ColGeneratorServiceResponse st in
  let st := add_col (up_resolved_output_type p) ColResolvedOutputType st in
  let st := add_col (up_llm_provider p) ColLlmProvider st in
  let st := add_col (up_llm_model p) ColLlmModel st in
  let st := add_col (up_generator_provider p) ColGeneratorProvider st in
  let st := add_col (up_generator_model p) ColGeneratorModel st in
  let st := add_col (up_storage_path p) ColStoragePath st in
  let st := add_col (up_file_url p) ColFileUrl st in
  let st := add_col (up_thumbnail_url p) ColThumbnailUrl st in
  let st := add_col (up_mime_type p) ColMimeType st in
  let st := add_col (up_error_code p) ColErrorCode st in
  let st := add_col (up_error_message p) ColErrorMessage st in
  st.1.

(** [if let Some(ref val) = field { query = query.bind(val); }]. *)
Definition bind_json (field : option value) (q : list bind_value) : list bind_value :=
  match field with Some v => q ++ [BindJson v] | None => q end.
Definition bind_text (field : option str) (q : list bind_value) : list bind_value :=
  match field with Some s => q ++ [BindText s] | None => q end.

(** The parameters, in the order the code binds them. *)
Definition payload_binds (p : UpdatePayloadsPayload) : list bind_value :=
  let q := [] in
  let q := bind_json (up_interpretation_payload p) q in
  let q := bind_json (up_interpretation_audit_payload p) q in
  let q := bind_json (up_generation_spec_payload p) q in
  let q := bind_json (up_decision_payload p) q in
  let q := bind_json (up_orchestration_audit_payload p) q in
  let q := bind_json (up_delivery_payload p) q in
  let q := bind_json (up_generator_service_response p) q in
  let q := bind_text (up_resolved_output_type p) q in
  let q := bind_text (up_llm_provider p) q in
  let q := bind_text (up_llm_model p) q in
  let q := bind_text (up_generator_provider p) q in
  let q := bind_text (up_generator_model p) q in
  let q := bind_text (up_storage_path p) q in
  let q := bind_text (up_file_url p) q in
  let q := bind_text (up_thumbnail_url p) q in
  let q := bind_text (up_mime_type p) q in
  let q := bind_text (up_error_code p) q in
  let q := bind_text (up_error_message p) q in
  q.

(** What the server does with [col = $i]: the parameter must have the column's type. *)
Definition assign (c : payload_column) (b : bind_value) (r : MediaGeneration) : option MediaGeneration :=
  match c, b with
  | ColInterpretationPayload, BindJson v => Some (r <| interpretation_payload := Some v |>)
  | ColInterpretationAuditPayload, BindJson v => Some (r <| interpretation_audit_payload := Some v |>)
  | ColGenerationSpecPayload, BindJson v => Some (r <| generation_spec_payload := Some v |>)
  | ColDecisionPayload, BindJson v => Some (r <| decision_payload := Some v |>)
  | ColOrchestrationAuditPayload, BindJson v => Some (r <| orchestration_audit_payload := Some v |>)
  | ColDeliveryPayload, BindJson v => Some (r <| delivery_payload := Some v |>)
  | ColGeneratorServiceResponse, BindJson v => Some (r <| generator_service_response := Some v |>)
  | ColResolvedOutputType, BindText s => Some (r <| resolved_output_type := Some s |>)
  | ColLlmProvider, BindText s => Some (r <| llm_provider := Some s |>)
  | ColLlmModel, BindText s => Some (r <| llm_model := Some s |>)
  | ColGeneratorProvider, BindText s => Some (r <| generator_provider := Some s |>)
  | ColGeneratorModel, BindText s => Some (r <| generator_model := Some s |>)
  | ColStoragePath, BindText s => Some (r <| storage_path := Some s |>)
  | ColFileUrl, BindText s => Some (r <| file_url := Some s |>)
  | ColThumbnailUrl, BindText s => Some (r <| thumbnail_url := Some s |>)
  | ColMimeType, BindText s => Some (r <| mime_type := Some s |>)
  | ColErrorCode, BindText s => Some (r <| error_code := Some s |>)
  | ColErrorMessage, BindText s => Some (r <| error_message := Some s |>)
  | _, _ => None
  end.

(** The SET clause applied to a row: parameter [$i] is the [i]-th bound value. *)
Fixpoint apply_set (parts : list (payload_column * nat)) (binds : list bind_value)
    (r : MediaGeneration) : option MediaGeneration :=
  match parts with
  | [] => Some r
  | (c, i) :: rest => b ← binds !! pred i; r' ← assign c b r; apply_set rest binds r'
  end.

(** The statement text and its parameters [binds ++ [id]]: the id parameter is the last one, and
    the server refuses a parameter list that does not match the text. *)
Definition dynamic_update (parts : list (payload_column * nat)) (binds : list bind_value)
    (id_param : nat) (i : uuid) : statement (option MediaGeneration) :=
  λ now db,
    if decide (id_param = S (length binds)) then
      match db !! i with
      | None => Ok (None, db)
      | Some r =>
          match apply_set parts binds r with
          | None => Err (Protocol (lit "parameter type"))
          | Some r' => update_by_id (λ _, r') i now db
          end
      end
    else Err (Protocol (lit "parameter count")).

Definition update_payloads (i : uuid) (p : UpdatePayloadsPayload) : M repo_error MediaGeneration :=
  let set_parts := build_payload_set p in
  if decide (set_parts = []) then find_raw i
  else
    let id_param := S (length set_parts) in
    row ← mapping (Context (lit "failed to update media generation payloads") None)
            (execute (dynamic_update set_parts (payload_binds p) id_param i));
    match row with
    | Some r => mret r
    | None => throw (Missing None)
    end.

(** ** Chains, insertion and listing *)

(** [find_by_job_id]: [fetch_optional] keeps the first row of the scan. *)
Section Queries.
Context `{HeapScan}.

Definition select_where {A} (P : MediaGeneration -> bool) (f : list MediaGeneration -> A) : statement A :=
  λ _ db, Ok (f (filter (λ r, P r = true) (scan db)), db).

Definition find_by_job_id (job_id : uuid) : M repo_error (option MediaGeneration) :=
  mapping (Context (lit "failed to find media generation by job_id") (Some job_id))
    (execute (select_where (λ r, bool_decide (generation_job_id r = Some job_id)) head)).

(** [ORDER BY created_at ASC]: NULL sorts last; rows with the same instant keep the order of the
    scan. *)
Definition created_before (a b : MediaGeneration) : bool :=
  match created_at a, created_at b with
  | Some x, Some y => (x <=? y)%Z
  | Some _, None => true
  | None, Some _ => false
  | None, None => true
  end.
Fixpoint insert_by (le : MediaGeneration -> MediaGeneration -> bool) (r : MediaGeneration)
    (l : list MediaGeneration) : list MediaGeneration :=
  match l with
  | [] => [r]
  | x :: l' => if le r x then r :: l else x :: insert_by le r l'
  end.
Definition order_by (le : MediaGeneration -> MediaGeneration -> bool) (l : list MediaGeneration) :
    list MediaGeneration := foldr (insert_by le) [] l.

Record MediaGenerationChain := {
  ancestors : list MediaGeneration;
  children : list MediaGeneration
}.

(** The loop [for _ in 0..50]; [current_id] is what the next iteration looks up. An id of NULL
    matches no row. *)
Fixpoint walk_ancestors (fuel : nat) (current_id : option uuid) (acc : list MediaGeneration) :
    M repo_error (list MediaGeneration) :=
  match fuel with
  | O => mret acc
  | S fuel' =>
      gen ← mapping (Context (lit "failed to fetch ancestor in chain") None)
              (execute (match current_id with
                        | Some i => select_by_id (λ r, r) i
                        | None => λ _ db, Ok (None, db)
                        end));
      match gen with
      | Some g =>
          let acc := acc ++ [g] in
          match generated_from_id g with
          | None => mret acc
          | Some p => walk_ancestors fuel' (Some p) acc
          end
      | None => mret acc
      end
  end.

Definition find_chain (i : uuid) : M repo_error MediaGenerationChain :=
  found ← walk_ancestors 50 (Some i) [];
  let found := reverse found in
  kids ← mapping (Context (lit "failed to fetch children in chain") None)
           (execute (select_where (λ r, bool_decide (generated_from_id r = Some i))
                       (order_by created_before)));
  mret {| ancestors := found; children := kids |}.
End Queries.

Section Insert.
Context `{ForeignKeys}.

(** [INSERT INTO media_generations]: column constraints, then the primary key and the unique
    index, then the foreign keys. *)
Definition insert_row (r : MediaGeneration) : statement MediaGeneration :=
  λ now db,
    let r := r <| created_at := Some now |> <| updated_at := Some now |> in
    if negb (row_ok r) then Err CheckViolation
    else if bool_decide (is_Some (db !! id r)) || duplicate_key_taken (active_duplicate_key r) db
    then Err UniqueViolation
    else if negb (fk_ok r && match generated_from_id r with
                             | None => true
                             | Some p => bool_decide (is_Some (db !! p)) || bool_decide (p = id r)
                             end)
    then Err ForeignKeyViolation
    else Ok (r, <[id r := r]> db).

(** The column defaults of the migrations. *)
Definition blank_row (new_id : uuid) (teacher : Z) (prompt fingerprint : str) : MediaGeneration :=
  mkMediaGeneration new_id None false teacher None None None None None prompt fingerprint None
    (lit "auto") None (lit "queued") None None None None None None None None None None None None
    None None None None None None None None None None None None None None false None None.

(** [Uuid::new_v4()] is the argument [new_id]. *)
Definition insert (new_id : uuid) (payload : CreateMediaGenerationPayload) :
    M repo_error MediaGeneration :=
  mapping (Context (lit "failed to insert media generation") None)
    (execute (insert_row
      ((blank_row new_id (cp_teacher_id payload) (cp_raw_prompt payload)
          (cp_request_fingerprint payload))
         <| generated_from_id := cp_generated_from_id payload |>
         <| is_regeneration := cp_is_regeneration payload |>
         <| subject_id := cp_subject_id payload |>
         <| sub_subject_id := cp_sub_subject_id payload |>
         <| preferred_output_type := cp_preferred_output_type payload |>
         <| active_duplicate_key := cp_active_duplicate_key payload |>))).
End Insert.

(** ** Related rows *)

Record SubjectSummary := { subj_id : Z; subj_name : str; subj_slug : str }.
Record SubSubjectSummary := { ss_id : Z; ss_subject_id : Z; ss_name : str; ss_slug : str }.
Record TopicSummary := {
  topic_row_id : uuid; topic_title : str; topic_sub_subject_id : option Z;
  topic_thumbnail_url : option str; topic_is_published : bool }.
Record ContentSummary := {
  content_row_id : uuid; content_topic_id : uuid; content_type : str; content_title : option str;
  content_media_url : option str; content_is_published : bool }.
Record RecommendedProjectSummary := {
  rp_id : Z; rp_title : str; rp_thumbnail_url : option str; rp_project_file_url : option str;
  rp_source_type : str; rp_is_active : bool }.
Record SubSubjectWithSubject := { sub_subject : SubSubjectSummary; sub_subject_subject : SubjectSummary }.
Record MediaGenerationWithRelations := {
  generation : MediaGeneration;
  rel_subject : option SubjectSummary;
  rel_sub_subject : option SubSubjectWithSubject;
  rel_topic : option TopicSummary;
  rel_content : option ContentSummary;
  rel_recommended_project : option RecommendedProjectSummary
}.

(** The other tables, as the queries see them. *)
Record RelatedTables := {
  subjects : list SubjectSummary;
  sub_subjects : list SubSubjectSummary;
  topics : list TopicSummary;
  contents : list ContentSummary;
  recommended_projects : list RecommendedProjectSummary
}.

Definition no_subject : SubjectSummary := {| subj_id := 0; subj_name := []; subj_slug := [] |}.

(** [rows.into_iter().map(|r| (r.id, r)).collect::<HashMap<_, _>>()]. *)
Definition index_rows {A} (key : A -> Z) (rows : list A) : gmap Z A :=
  foldl (λ m r, <[key r := r]> m) ∅ rows.

(** [SELECT ... WHERE id = ANY($1)]; no statement is sent for an empty list. *)
Definition fetch_any {A} (what : string) (key : A -> Z) (table : list A) (ids : list Z) :
    M repo_error (list A) :=
  if decide (ids = []) then mret []
  else mapping (Context (lit what) None)
         (execute (λ _ db, Ok (filter (λ r, key r ∈ ids) table, db))).
Arguments fetch_any {A} what%_string key table ids.

Definition compose_relations (subject_map : gmap Z SubjectSummary)
    (sub_subject_map : gmap Z SubSubjectSummary) (topic_map : gmap Z TopicSummary)
    (content_map : gmap Z ContentSummary) (project_map : gmap Z RecommendedProjectSummary)
    (g : MediaGeneration) : MediaGenerationWithRelations :=
  {| generation := g;
     rel_subject := subject_id g ≫= λ i, subject_map !! i;
     rel_sub_subject :=
       i ← sub_subject_id g; ss ← sub_subject_map !! i;
       Some {| sub_subject := ss;
               sub_subject_subject := default no_subject (subject_map !! ss_subject_id ss) |};
     rel_topic := topic_id g ≫= λ i, topic_map !! i;
     rel_content := content_id g ≫= λ i, content_map !! i;
     rel_recommended_project := recommended_project_id g ≫= λ i, project_map !! i |}.

(** [attach_relations]: the five queries run to completion ([tokio::join!]); their errors are
    looked at afterwards, in this order. *)
Definition attach_relations (tables : RelatedTables) (generations : list MediaGeneration) :
    M repo_error (list MediaGenerationWithRelations) :=
  if decide (generations = []) then mret []
  else
    let subject_ids := omap subject_id generations in
    let sub_subject_ids := omap sub_subject_id generations in
    let topic_ids := omap topic_id generations in
    let content_ids := omap content_id generations in
    let recommended_project_ids := omap recommended_project_id generations in
    r1 ← ignoring_errors (fetch_any "failed to fetch subjects" subj_id (subjects tables) subject_ids);
    r2 ← ignoring_errors (fetch_any "failed to fetch sub_subjects" ss_id (sub_subjects tables) sub_subject_ids);
    r3 ← ignoring_errors (fetch_any "failed to fetch topics" topic_row_id (topics tables) topic_ids);
    r4 ← ignoring_errors (fetch_any "failed to fetch contents" content_row_id (contents tables) content_ids);
    r5 ← ignoring_errors (fetch_any "failed to fetch recommended projects" rp_id
                            (recommended_projects tables) recommended_project_ids);
    subjects ← lift r1; sub_subjects ← lift r2; topics ← lift r3; contents ← lift r4;
    recommended_projects ← lift r5;
    mret (compose_relations (index_rows subj_id subjects) (index_rows ss_id sub_subjects)
            (index_rows topic_row_id topics) (index_rows content_row_id contents)
            (index_rows rp_id recommended_projects) <$> generations).

Section Listing.
Context `{HeapScan}.

(** [ORDER BY created_at DESC LIMIT $2]: a negative limit is refused by the server. *)
Definition select_recent (teacher : Z) (limit : Z) : statement (list MediaGeneration) :=
  λ now db,
    if (limit <? 0)%Z then Err (Protocol (lit "LIMIT must not be negative"))
    else select_where (λ r, bool_decide (teacher_id r = teacher))
           (λ rows, take (Z.to_nat limit) (order_by (λ a b, created_before b a) rows)) now db.

Definition find_recent_for_teacher (tables : RelatedTables) (teacher : Z) (limit : Z) :
    M repo_error (list MediaGenerationWithRelations) :=
  generations ← mapping (Context (lit "failed to fetch recent media generations") None)
                  (execute (select_recent teacher limit));
  attach_relations tables generations.

Definition find_by_id_for_teacher (tables : RelatedTables) (i : uuid) (teacher : Z) :
    M repo_error (option MediaGenerationWithRelations) :=
  found ← mapping (Context (lit "failed to fetch media generation") (Some i))
            (execute (select_by_id (λ r, r) i));
  (* the WHERE clause also asks for the teacher *)
  match found ≫= (λ r, if decide (teacher_id r = teacher) then Some r else None) with
  | None => mret None
  | Some g => result ← attach_relations tables [g]; mret (head result)
  end.
End Listing.

(** ** Lemmas: the dynamic update *)

(** What [update_payloads] means: a present field replaces its column. *)
Definition overlay (p : UpdatePayloadsPayload) (r : MediaGeneration) : MediaGeneration :=
  r <| interpretation_payload ?:= up_interpretation_payload p |>
    <| interpretation_audit_payload ?:= up_interpretation_audit_payload p |>
    <| generation_spec_payload ?:= up_generation_spec_payload p |>
    <| decision_payload ?:= up_decision_payload p |>
    <| orchestration_audit_payload ?:= up_orchestration_audit_payload p |>
    <| delivery_payload ?:= up_delivery_payload p |>
    <| generator_service_response ?:= up_generator_service_response p |>
    <| resolved_output_type ?:= up_resolved_output_type p |>
    <| llm_provider ?:= up_llm_provider p |>
    <| llm_model ?:= up_llm_model p |>
    <| generator_provider ?:= up_generator_provider p |>
    <| generator_model ?:= up_generator_model p |>
    <| storage_path ?:= up_storage_path p |>
    <| file_url ?:= up_file_url p |>
    <| thumbnail_url ?:= up_thumbnail_url p |>
    <| mime_type ?:= up_mime_type p |>
    <| error_code ?:= up_error_code p |>
    <| error_message ?:= up_error_message p |>.

(** The SET clause and the parameters built so far: one parameter per column, numbered from one,
    with the effect [f]. *)
Definition lockstep (st : list (payload_column * nat) * nat) (q : list bind_value)
    (f : MediaGeneration -> MediaGeneration) : Prop :=
  st.2 = S (length q) /\ length st.1 = length q /\
  forall r more, apply_set st.1 (q ++ more) r = Some (f r).

Lemma apply_set_app parts parts' binds r r' :
  apply_set parts binds r = Some r' -> apply_set (parts ++ parts') binds r = apply_set parts' binds r'.
Proof.
  revert r. induction parts as [|[c i] parts IH]; intros r; simpl; [by intros [= ->]|].
  destruct (binds !! pred i) as [b|]; simpl; [|done].
  destruct (assign c b r) as [r1|]; simpl; [|done]. apply IH.
Qed.

Lemma lockstep_add {A} (mk : A -> bind_value) (field : option A) c st q f g :
  lockstep st q f ->
  (forall v r, field = Some v -> assign c (mk v) r = Some (g r)) ->
  (forall r, field = None -> g r = r) ->
  lockstep (add_col field c st) (match field with Some v => q ++ [mk v] | None => q end) (λ r, g (f r)).
Proof.
  destruct st as [parts idx]. intros (Hidx & Hlen & Happ) Hsome Hnone. simpl in *.
  destruct field as [v|]; simpl.
  - unfold lockstep. simpl. rewrite !length_app. simpl. split; [lia|]. split; [lia|].
    intros r more. simpl. rewrite <- app_assoc, (apply_set_app _ _ _ _ (f r)) by apply Happ. simpl.
    rewrite Hidx. simpl. rewrite list_lookup_middle by done. simpl. by rewrite Hsome.
  - split; [done|]. split; [done|]. intros r more. by rewrite Happ, Hnone.
Qed.

Lemma lockstep_json field c st q f g :
  lockstep st q f -> (forall v r, field = Some v -> assign c (BindJson v) r = Some (g r)) ->
  (forall r, field = None -> g r = r) ->
  lockstep (add_col field c st) (bind_json field q) (λ r, g (f r)).
Proof. apply (lockstep_add BindJson). Qed.

Lemma lockstep_text field c st q f g :
  lockstep st q f -> (forall v r, field = Some v -> assign c (BindText v) r = Some (g r)) ->
  (forall r, field = None -> g r = r) ->
  lockstep (add_col field c st) (bind_text field q) (λ r, g (f r)).
Proof. apply (lockstep_add BindText). Qed.

Ltac lockstep_col lem g :=
  eapply (lem _ _ _ _ _ g);
  [|let v := fresh in let r := fresh in let H := fresh in
    intros v r H; destruct r; cbn; rewrite H; reflexivity
   |let r := fresh in let H := fresh in intros r H; destruct r; cbn; rewrite H; reflexivity].

Lemma payload_lockstep p :
  exists idx f, lockstep (build_payload_set p, idx) (payload_binds p) f /\ forall r, f r = overlay p r.
Proof.
  unfold build_payload_set.
  match goal with |- context [add_col (up_error_message p) ?c ?st] => set (final := add_col (up_error_message p) c st) end.
  exists final.2. eexists. split.
  - replace (final.1, final.2) with final by (by destruct final). unfold final, payload_binds.
    lockstep_col lockstep_text (λ r, r <| error_message ?:= up_error_message p |>).
    lockstep_col lockstep_text (λ r, r <| error_code ?:= up_error_code p |>).
    lockstep_col lockstep_text (λ r, r <| mime_type ?:= up_mime_type p |>).
    lockstep_col lockstep_text (λ r, r <| thumbnail_url ?:= up_thumbnail_url p |>).
    lockstep_col lockstep_text (λ r, r <| file_url ?:= up_file_url p |>).
    lockstep_col lockstep_text (λ r, r <| storage_path ?:= up_storage_path p |>).
    lockstep_col lockstep_text (λ r, r <| generator_model ?:= up_generator_model p |>).
    lockstep_col lockstep_text (λ r, r <| generator_provider ?:= up_generator_provider p |>).
    lockstep_col lockstep_text (λ r, r <| llm_model ?:= up_llm_model p |>).
    lockstep_col lockstep_text (λ r, r <| llm_provider ?:= up_llm_provider p |>).
    lockstep_col lockstep_text (λ r, r <| resolved_output_type ?:= up_resolved_output_type p |>).
    lockstep_col lockstep_json (λ r, r <| generator_service_response ?:= up_generator_service_response p |>).
    lockstep_col lockstep_json (λ r, r <| delivery_payload ?:= up_delivery_payload p |>).
    lockstep_col lockstep_json (λ r, r <| orchestration_audit_payload ?:= up_orchestration_audit_payload p |>).
    lockstep_col lockstep_json (λ r, r <| decision_payload ?:= up_decision_payload p |>).
    lockstep_col lockstep_json (λ r, r <| generation_spec_payload ?:= up_generation_spec_payload p |>).
    lockstep_col lockstep_json (λ r, r <| interpretation_audit_payload ?:= up_interpretation_audit_payload p |>).
    lockstep_col lockstep_json (λ r, r <| interpretation_payload ?:= up_interpretation_payload p |>).
    instantiate (1 := λ r, r). by split.
  - intros r. reflexivity.
Qed.

Lemma dynamic_update_overlay p i now db :
  dynamic_update (build_payload_set p) (payload_binds p) (S (length (build_payload_set p))) i now db =
  update_by_id (overlay p) i now db.
Proof.
  destruct (payload_lockstep p) as (idx & f & (_ & Hlen & Happ) & Hf). simpl in *.
  unfold dynamic_update, update_by_id. rewrite decide_True by lia.
  destruct (db !! i) as [r|]; [|done].
  specialize (Happ r []). rewrite app_nil_r in Happ. by rewrite Happ, Hf.
Qed.

(** No present field: no column changes. *)
Lemma overlay_empty p r : build_payload_set p = [] -> overlay p r = r.
Proof.
  intros He. destruct (payload_lockstep p) as (idx & f & (_ & _ & Happ) & Hf). simpl in *.
  specialize (Happ r (payload_binds p)). rewrite He in Happ. simpl in Happ. rewrite <- Hf. congruence.
Qed.
#[global] Arguments overlay : simpl never.
#[global] Arguments build_payload_set : simpl never.
#[global] Arguments payload_binds : simpl never.
#[global] Arguments dynamic_update : simpl never.

(** ** Lemmas: ordering *)

Lemma insert_by_perm le r l : insert_by le r l ≡ₚ r :: l.
Proof.
  induction l as [|x l IH]; simpl; [done|]. case_match; [done|]. rewrite IH. apply Permutation_swap.
Qed.

Lemma order_by_perm le l : order_by le l ≡ₚ l.
Proof. induction l as [|r l IH]; simpl; [done|]. by rewrite insert_by_perm, IH. Qed.

Section Ordering.
Context (le : MediaGeneration -> MediaGeneration -> bool).
Hypothesis le_total : forall a b, le a b = false -> le b a = true.

Lemma insert_by_sorted r l :
  Sorted (λ a b, le a b = true) l -> Sorted (λ a b, le a b = true) (insert_by le r l).
Proof.
  induction 1 as [|x l Hl IH Hx]; simpl; [by repeat constructor|].
  destruct (le r x) eqn:E; [by repeat constructor|]. constructor; [done|].
  apply le_total in E. destruct l as [|y l]; simpl; [by constructor|].
  case_match; constructor; [done|]. by inversion Hx.
Qed.

Lemma order_by_sorted l : Sorted (λ a b, le a b = true) (order_by le l).
Proof. induction l as [|r l IH]; simpl; [constructor|]. by apply insert_by_sorted. Qed.
End Ordering.

Lemma created_before_total a b : created_before a b = false -> created_before b a = true.
Proof.
  unfold created_before. repeat case_match; try done.
  rewrite Z.leb_gt, Z.leb_le. lia.
Qed.

(** ** Lemmas: chains *)

(** The path along [generated_from_id] from [i], cut after [fuel] rows. *)
Fixpoint lineage (db : DB) (fuel : nat) (i : uuid) : list MediaGeneration :=
  match fuel with
  | O => []
  | S fuel' =>
      match db !! i with
      | None => []
      | Some r => r :: match generated_from_id r with None => [] | Some p => lineage db fuel' p end
      end
  end.

Lemma lineage_length db fuel i : length (lineage db fuel i) <= fuel.
Proof.
  revert i. induction fuel as [|fuel IH]; intros i; simpl; [lia|].
  repeat case_match; simpl; try lia. apply le_n_S, IH.
Qed.

Lemma wp_walk_ancestors fuel i acc s :
  wp (walk_ancestors fuel (Some i) acc)
     (λ r s', same_data s s' /\
       match r with
       | Ok found => found = acc ++ lineage (committed s) fuel i
       | Err _ => ¬ healthy s
       | Panic => False
       end) s.
Proof.
  revert i acc s. induction fuel as [|fuel IH]; intros i acc s; simpl.
  { apply wp_ret. rewrite app_nil_r. split; [apply same_data_refl|done]. }
  repeat wp_step; [done|].
  assert (Hs : s' <| committed := committed s |> = s').
  { destruct s'. unfold update. f_equal. by rewrite <- (same_committed _ _ H). }
  rewrite Hs. destruct (committed s !! i) as [g|] eqn:Eg; simpl; [|by wp_step; rewrite app_nil_r].
  destruct (generated_from_id g) as [p|]; [|by wp_step].
  eapply wp_mono; [apply IH|]. simpl. intros r s2 [Hs2 Hr]. split; [by eapply same_data_trans|].
  rewrite (same_committed _ _ H) in Hr. destruct r as [found|e|]; [|intros Hh|done].
  - by rewrite Hr, <- app_assoc.
  - apply Hr. by apply (healthy_kept _ _ H).
Qed.

#[global] Arguments lineage : simpl never.
#[global] Arguments walk_ancestors : simpl never.

(** ** Lemmas: related rows *)

(** The row a primary-key lookup finds. *)
Definition row_with {A} (key : A -> Z) (table : list A) (i : Z) : option A :=
  last (filter (λ r, key r = i) table).

Lemma index_rows_lookup {A} (key : A -> Z) rows i : index_rows key rows !! i = row_with key rows i.
Proof.
  unfold index_rows, row_with.
  induction rows as [|r rows IH] using rev_ind; [apply lookup_empty|].
  rewrite foldl_snoc, filter_app, (filter_singleton _ _ []). case_decide as Hi.
  - by rewrite <- Hi, lookup_insert_eq, last_snoc.
  - by rewrite lookup_insert_ne, app_nil_r.
Qed.

Lemma index_fetched {A} (key : A -> Z) table (ids : list Z) i :
  index_rows key (filter (λ r, key r ∈ ids) table) !! i =
  if decide (i ∈ ids) then row_with key table i else None.
Proof.
  rewrite index_rows_lookup. unfold row_with. rewrite list_filter_filter.
  case_decide as Hi.
  - f_equal. apply list_filter_iff. intros r. split; [by intros []|by intros <-].
  - induction table as [|r table IH]; [done|]. rewrite filter_cons_False; [done|]. by intros [<- ?].
Qed.

Lemma wp_fetch_any {A} what (key : A -> Z) table ids s :
  wp (fetch_any what key table ids)
     (λ r s', same_data s s' /\
       match r with
       | Ok rows => rows = filter (λ r, key r ∈ ids) table
       | Err _ => ¬ healthy s
       | Panic => False
       end) s.
Proof.
  unfold fetch_any. case_decide as Hids.
  - apply wp_ret. split; [apply same_data_refl|]. subst ids. induction table as [|r table IH]; [done|].
    rewrite filter_cons_False; [done|]. apply not_elem_of_nil.
  - repeat wp_step; [done|]. replace (s' <| committed := committed s |>) with s'; [done|].
    destruct s'. unfold update. f_equal. apply (same_committed _ _ H).
Qed.

Lemma wp_join_fetch {A B} what (key : A -> Z) table ids (k : outcome repo_error (list A) -> M repo_error B)
    (Q : outcome repo_error B -> St -> Prop) s0 s :
  same_data s0 s ->
  (forall o s', same_data s0 s' ->
     (o = Ok (filter (λ r, key r ∈ ids) table) \/ exists e, o = Err e /\ ¬ healthy s0) -> wp (k o) Q s') ->
  wp (ignoring_errors (fetch_any what key table ids) ≫= k) Q s.
Proof.
  intros Hs Hk. wp_step. wp_step. eapply wp_mono; [apply wp_fetch_any|].
  intros [rows|e|] s' [Hs' Hr]; simpl in *; [| |done].
  - apply Hk; [by eapply same_data_trans|]. left. by rewrite Hr.
  - apply Hk; [by eapply same_data_trans|]. right. exists e. split; [done|].
    intros Hh. apply Hr. by apply (healthy_kept _ _ Hs).
Qed.

(** What [attach_relations] promises for one generation of the batch: its related rows, looked up
    by primary key. The subject of the sub-subject is only looked up when some generation of the
    batch has that subject itself. *)
Definition related (tables : RelatedTables) (batch : list MediaGeneration) (g : MediaGeneration) :
    MediaGenerationWithRelations :=
  {| generation := g;
     rel_subject := subject_id g ≫= row_with subj_id (subjects tables);
     rel_sub_subject :=
       i ← sub_subject_id g; ss ← row_with ss_id (sub_subjects tables) i;
       Some {| sub_subject := ss;
               sub_subject_subject :=
                 if decide (ss_subject_id ss ∈ omap subject_id batch)
                 then default no_subject (row_with subj_id (subjects tables) (ss_subject_id ss))
                 else no_subject |};
     rel_topic := topic_id g ≫= row_with topic_row_id (topics tables);
     rel_content := content_id g ≫= row_with content_row_id (contents tables);
     rel_recommended_project := recommended_project_id g ≫= row_with rp_id (recommended_projects tables) |}.

Lemma index_column {A} (key : A -> Z) table (col : MediaGeneration -> option Z) (batch : list MediaGeneration) g :
  g ∈ batch ->
  (col g ≫= λ i, index_rows key (filter (λ r, key r ∈ omap col batch) table) !! i) =
  col g ≫= row_with key table.
Proof.
  intros Hg. destruct (col g) as [i|] eqn:E; simpl; [|done].
  rewrite index_fetched, decide_True; [done|]. apply list_elem_of_omap. by exists g.
Qed.

Lemma compose_related tables (batch : list MediaGeneration) g :
  g ∈ batch ->
  compose_relations
    (index_rows subj_id (filter (λ r, subj_id r ∈ omap subject_id batch) (subjects tables)))
    (index_rows ss_id (filter (λ r, ss_id r ∈ omap sub_subject_id batch) (sub_subjects tables)))
    (index_rows topic_row_id (filter (λ r, topic_row_id r ∈ omap topic_id batch) (topics tables)))
    (index_rows content_row_id (filter (λ r, content_row_id r ∈ omap content_id batch) (contents tables)))
    (index_rows rp_id (filter (λ r, rp_id r ∈ omap recommended_project_id batch)
                         (recommended_projects tables))) g
  = related tables batch g.
Proof.
  intros Hg. unfold compose_relations, related. rewrite !index_column by done. f_equal.
  destruct (sub_subject_id g) as [i|] eqn:E; simpl; [|done].
  rewrite index_fetched, decide_True by (apply list_elem_of_omap; by exists g).
  destruct (row_with ss_id _ i) as [ss|]; simpl; [|done]. do 2 f_equal.
  rewrite index_fetched. by case_decide.
Qed.

(** ** Properties *)

(** What an update of row [i] by [f] ends in: the new row, or an error and an unchanged table,
    for a failed statement, a missing row or a value the constraints refuse. *)
Definition row_updated (i : uuid) (f : MediaGeneration -> MediaGeneration) (s : St)
    (o : outcome repo_error MediaGeneration) (s' : St) : Prop :=
  (healthy s -> healthy s') /\ (time s <= time s')%Z /\
  match o with
  | Ok r' => exists r now, committed s !! i = Some r /\ r' = (f r) <| updated_at := Some now |> /\
      row_ok r' = true /\ committed s' = <[i := r']> (committed s)
  | Err e => committed s' = committed s /\
      (healthy s -> committed s !! i = None \/
         (exists what who, e = Context what who CheckViolation) /\
         exists r, committed s !! i = Some r /\ row_ok (f r) = false)
  | Panic => False
  end.

(** The statement both kinds of update share. *)
Lemma wp_update_row what who q i f s :
  (forall now db, q now db = update_by_id f i now db) ->
  wp (row ← mapping (Context what who) (execute q);
      match row with Some r => mret r | None => throw (Missing who) end)
    (row_updated i f s) s.
Proof.
  intros Hq. unfold row_updated. repeat wp_step.
  - split; [by eapply healthy_kept|]. split; [by apply time_mono|]. split; [by same_data_simpl|done].
  - match goal with H : same_data s ?s1 |- _ => destruct H as [Hc Hw Ht Hh]; rename s1 into s' end.
    rewrite Hq.
    destruct (update_by_id _ _ _ _) as [[o db]|e|] eqn:Eu; simpl.
    + apply update_by_id_Ok in Eu as [(Hn & -> & ->)|(r & Hr & Hok & -> & ->)]; wp_step; simpl.
      * split; [done|]. split; [done|]. split; [done|]. by left.
      * split; [done|]. split; [done|]. by exists r, (time s').
    + split; [done|]. split; [done|]. split; [done|]. intros _. right. unfold update_by_id in Eu.
      repeat case_match; simplify_eq. split; [by do 2 eexists|]. eexists. split; [done|].
      by rewrite <- (row_ok_updated _ (Some (time s'))).
    + unfold update_by_id in Eu. repeat case_match; simplify_eq.
Qed.

Lemma wp_find_raw i s :
  wp (find_raw i) (λ o s', committed s' = committed s /\ match o with
    | Ok r => committed s !! i = Some r
    | Err _ => healthy s -> committed s !! i = None
    | Panic => False
    end) s.
Proof.
  unfold find_raw, select_by_id. repeat wp_step; [by same_data_simpl|].
  destruct (committed s !! i) as [r|] eqn:Er; simpl; wp_step; same_data_simpl; done.
Qed.

Lemma wp_update_returning what who i f s : wp (update_returning what who f i) (row_updated i f s) s.
Proof. by apply wp_update_row. Qed.

Lemma wp_update_payloads i p s :
  build_payload_set p <> [] -> wp (update_payloads i p) (row_updated i (overlay p) s) s.
Proof.
  intros Hp. unfold update_payloads. rewrite decide_False by done.
  apply wp_update_row. intros now db. apply dynamic_update_overlay.
Qed.

(** C15. [update_payloads] assembles its SET clause and its parameter list separately; together
    they mean a field-by-field overlay: a present field replaces its column, every other column
    keeps its value, only [updated_at] moves with it, and no field at all is a read. The update
    fails only on a failed statement, on a missing row, or on a value the column constraints
    refuse, and then changes nothing. *)
Theorem update_payloads_overlay i p s :
  match update_payloads i p s with
  | (Ok r', s') =>
      exists r, committed s !! i = Some r /\
        ((build_payload_set p = [] /\ r' = overlay p r /\ committed s' = committed s) \/
         (build_payload_set p <> [] /\ exists now, r' = (overlay p r) <| updated_at := Some now |> /\
            row_ok r' = true /\ committed s' = <[i := r']> (committed s)))
  | (Err e, s') =>
      committed s' = committed s /\
      (healthy s -> committed s !! i = None \/ exists what who, e = Context what who CheckViolation)
  | (Panic, _) => False
  end.
Proof.
  destruct (decide (build_payload_set p = [])) as [He|He].
  - unfold update_payloads. rewrite decide_True by done.
    pose proof (wp_find_raw i s) as Hwp. unfold wp in Hwp.
    destruct (find_raw i s) as [[r|e|] s']; destruct Hwp as [Hdb Hres]; [|by auto|done].
    exists r. rewrite overlay_empty by done. auto.
  - pose proof (wp_update_payloads i p s He) as Hwp. unfold wp in Hwp.
    destruct (update_payloads i p s) as [[r'|e|] s']; destruct Hwp as (_ & _ & Hwp); [|naive_solver|done].
    destruct Hwp as (r & now & Hr & -> & Hok & Hdb). exists r. split; [done|]. right. split; [done|]. by exists now.
Qed.

Lemma wp_find_chain `{HeapScanLaws} i s :
  wp (find_chain i) (λ o s', match o with
    | Ok chain => committed s' = committed s /\
        reverse (ancestors chain) = lineage (committed s) 50 i /\
        children chain = order_by created_before
          (filter (λ r, bool_decide (generated_from_id r = Some i) = true) (scan (committed s)))
    | Err _ => committed s' = committed s /\ ¬ healthy s
    | Panic => False end) s.
Proof.
  unfold find_chain. wp_step. eapply wp_mono; [apply wp_walk_ancestors|].
  intros [found|e|] s1 [Hs Hr]; simpl in *; [|by split; [apply (same_committed _ _ Hs)|]|done].
  simpl in Hr. subst found. repeat wp_step; simpl; same_data_simpl.
  - split; [done|]. intros Hh. by_healthy.
  - by rewrite reverse_involutive.
Qed.

(** [find_chain] always ends: its ancestors are the path along [generated_from_id], oldest
    first and cut at 50 rows even when the links form a cycle, and its children are exactly the
    rows generated from the given one, oldest first. It fails only on a failed statement, and
    changes nothing. *)
Lemma find_chain_lineage `{HeapScanLaws} i s :
  match find_chain i s with
  | (Ok chain, s') =>
      committed s' = committed s /\
      reverse (ancestors chain) = lineage (committed s) 50 i /\
      length (ancestors chain) <= 50 /\
      (forall r, r ∈ children chain <->
         generated_from_id r = Some i /\ exists j, committed s !! j = Some r) /\
      Sorted (λ a b, created_before a b = true) (children chain)
  | (Err _, s') => committed s' = committed s /\ ¬ healthy s
  | (Panic, _) => False
  end.
Proof.
  pose proof (wp_find_chain i s) as Hwp.
  unfold wp in Hwp. destruct (find_chain i s) as [[chain|e|] s']; simpl in *; [|done|done].
  destruct Hwp as (Hdb & Hanc & Hch). split; [done|]. split; [done|]. split; [|split].
  - rewrite <- length_reverse, Hanc. apply lineage_length.
  - intros r. rewrite Hch, order_by_perm, list_elem_of_filter, bool_decide_eq_true, scan_rows.
    rewrite list_elem_of_fmap. split; intros [? Hr]; (split; [done|]).
    + destruct Hr as ([j r'] & -> & Hin). exists j. by apply elem_of_map_to_list.
    + destruct Hr as [j Hj]. exists (j, r). by rewrite elem_of_map_to_list.
  - rewrite Hch. apply order_by_sorted, created_before_total.
Qed.

Lemma wp_attach_relations tables batch s :
  wp (attach_relations tables batch) (λ o s', same_data s s' /\ match o with
    | Ok l => l = related tables batch <$> batch
    | Err _ => ¬ healthy s
    | Panic => False end) s.
Proof.
  unfold attach_relations. case_decide as He; [subst; wp_step; split; [apply same_data_refl|done]|].
  eapply wp_join_fetch; [apply same_data_refl|]; intros r1 s1 H1 Hr1.
  eapply wp_join_fetch; [exact H1|]; intros r2 s2 H2 Hr2.
  eapply wp_join_fetch; [exact H2|]; intros r3 s3 H3 Hr3.
  eapply wp_join_fetch; [exact H3|]; intros r4 s4 H4 Hr4.
  eapply wp_join_fetch; [exact H4|]; intros r5 s5 H5 Hr5.
  repeat match goal with
  | H : ?o = Ok _ \/ _ |- wp (lift ?o ≫= _) _ _ =>
      destruct H as [->|(e & -> & Hn)]; wp_step; wp_step; [|done]
  end.
  wp_step. split; [done|]. apply list_fmap_ext. intros j g Hj.
  apply compose_related. by eapply list_elem_of_lookup_2.
Qed.

(** [attach_relations] keeps the generations in order and gives each one the rows its foreign
    keys point to. The subject of a sub-subject is the exception: it is found only when a
    generation of the same batch has that subject as its own, and is an empty placeholder
    otherwise. The five queries change nothing, and an error means that one of them failed. *)
Lemma attach_relations_related tables batch s :
  match attach_relations tables batch s with
  | (Ok l, s') => l = related tables batch <$> batch /\ committed s' = committed s
  | (Err _, s') => ¬ healthy s /\ committed s' = committed s
  | (Panic, _) => False
  end.
Proof.
  pose proof (wp_attach_relations tables batch s) as [Hs Hwp]. pose proof (same_committed _ _ Hs) as Hc.
  by destruct (attach_relations tables batch s) as [[l|e|] s'].
Qed.

(** ** Witnesses *)

Module RepoWitness.
#[local] Existing Instance table_scan.
#[local] Existing Instance table_scan_laws.

(** The sample row and a regeneration of it. *)
Definition child : MediaGeneration :=
  sample_row <| Store.id := 2%Z |> <| generated_from_id := Some 1%Z |> <| is_regeneration := true |>.
Definition family : DB := <[2%Z := child]> sample_db.

Lemma find_chain_lineage_witness :
  match find_chain 2 (sample_state family 0) with
  | (Ok chain, s') =>
      committed s' = family /\
      reverse (ancestors chain) = [child; sample_row] /\
      length (ancestors chain) <= 50 /\
      (forall r, r ∈ children chain <->
         generated_from_id r = Some 2%Z /\ exists j, family !! j = Some r) /\
      Sorted (λ a b, created_before a b = true) (children chain)
  | (Err _, s') => committed s' = family /\ ¬ healthy (sample_state family 0)
  | (Panic, _) => False
  end.
Proof. exact (find_chain_lineage 2 (sample_state family 0)). Defined.
End RepoWitness.
