(* ===== verification/Submission.v ===== *)
(** * Submission and deduplication (src/src/orchestrator/submission.rs)

    A request is identified by a fingerprint of its normalised content. The
    service reuses the teacher's unfinished generation with the same
    fingerprint, or inserts a new one; the unique index on
    [active_duplicate_key] decides races between two submissions. *)

From stdpp Require Import base gmap list option strings fin_maps.
From Stdlib Require Import ZArith Lia.
From S2P Require Import Prelude RustStr Json Lifecycle Store Repo Samples.

Definition ALLOWED_OUTPUT_TYPES : list str := [lit "auto"; lit "docx"; lit "pdf"; lit "pptx"].

Inductive SubmissionError :=
| TeacherNotFound (id : str)
| Database (e : db_error)
| InvalidUuid (msg : str).

Record ProviderMetadata := {
  pm_llm_provider : option str;
  pm_llm_model : option str;
  pm_generator_provider : option str;
  pm_generator_model : option str
}.
Record CreateInput := {
  in_teacher_id : Z;
  in_raw_prompt : str;
  in_preferred_output_type : option str;
  in_subject_id : option Z;
  in_sub_subject_id : option Z;
  in_provider_metadata : ProviderMetadata
}.
Record CreateResult := {
  res_id : uuid;
  was_created : bool;
  res_request_fingerprint : str
}.

Section Submission.
Context `{CaseTables} `{Sha256Hex}.

Definition normalize_preferred_output_type (preferred_output_type : option str) : str :=
  match preferred_output_type with
  | None => lit "auto"
  | Some raw =>
      let trimmed := trim raw in
      if decide (trimmed = []) then lit "auto"
      else
        let normalized := to_lowercase trimmed in
        if decide (normalized ∈ ALLOWED_OUTPUT_TYPES) then normalized else lit "auto"
  end.

Definition squish_and_lower (s : str) : str := trim (collapse_ws char_to_lowercase s).

Definition id_or_none (o : option Z) : str :=
  match o with Some i => z_to_string i | None => lit "none" end.

(** [format!("{}|{}|{}|{}|{}", ...)]. *)
Definition canonical_request (teacher : Z) (raw_prompt' preferred : str) (subject sub : option Z) : str :=
  z_to_string teacher ++ lit "|" ++ preferred ++ lit "|" ++ id_or_none subject ++ lit "|"
    ++ id_or_none sub ++ lit "|" ++ squish_and_lower raw_prompt'.

Definition make_request_fingerprint (teacher : Z) (raw_prompt' preferred : str)
    (subject sub : option Z) : str :=
  sha256_hex (canonical_request teacher raw_prompt' preferred subject sub).

Definition is_terminal_status (st : str) : bool :=
  bool_decide (st ∈ [lit "completed"; lit "failed"; lit "cancelled"]).

Definition parse_uuid `{UuidText} `{UuidErrorText} (s : str) : outcome SubmissionError uuid :=
  match parse_uuid_str s with
  | Some u => Ok u
  | None => Err (InvalidUuid (uuid_error_text s))
  end.

Section Service.
Context `{HeapScan} `{ForeignKeys} `{UuidText} `{UuidErrorText}.

(** [ORDER BY created_at DESC, id DESC]. *)
Definition newer (a b : MediaGeneration) : bool :=
  match created_at a, created_at b with
  | Some x, Some y => (y <? x)%Z || ((x =? y)%Z && (id b <=? id a)%Z)
  | None, Some _ => true
  | Some _, None => false
  | None, None => (id b <=? id a)%Z
  end.
Definition active_duplicate (teacher : Z) (fingerprint : str) (r : MediaGeneration) : bool :=
  bool_decide (teacher_id r = teacher) && bool_decide (request_fingerprint r = fingerprint)
  && negb (is_terminal_status (status r)).
(** [SELECT id ... FOR UPDATE]. *)
Definition find_active (teacher : Z) (fingerprint : str) : statement (option uuid) :=
  select_where (active_duplicate teacher fingerprint) (λ rows, id <$> head (order_by newer rows)).

Definition new_generation (new_id : uuid) (input : CreateInput) (fingerprint preferred : str) :
    MediaGeneration :=
  let pm := in_provider_metadata input in
  (blank_row new_id (in_teacher_id input) (in_raw_prompt input) fingerprint)
    <| subject_id := in_subject_id input |>
    <| sub_subject_id := in_sub_subject_id input |>
    <| active_duplicate_key := Some fingerprint |>
    <| preferred_output_type := preferred |>
    <| llm_provider := pm_llm_provider pm |>
    <| llm_model := pm_llm_model pm |>
    <| generator_provider := pm_generator_provider pm |>
    <| generator_model := pm_generator_model pm |>.

(** What other transactions commit while a transaction of ours is open and has written
    nothing: its next statement sees it too (READ COMMITTED). *)
Definition others_commit (race : DB -> DB) : M SubmissionError unit :=
  action (λ s, (Ok (), s <| committed := race (committed s) |>
                         <| working := race (working s) |>)).

(** A fallible statement whose result is looked at: [match query.await]. *)
Definition attempt {E A} (m : M E A) : M SubmissionError (outcome E A) := ignoring_errors m.

(** [race] is what the others commit between our SELECT and our INSERT; [new_id] is
    [Uuid::new_v4()]. *)
Definition create_or_reuse (race : DB -> DB) (new_id : uuid) (input : CreateInput) :
    M SubmissionError CreateResult :=
  let normalized_type := normalize_preferred_output_type (in_preferred_output_type input) in
  let fingerprint := make_request_fingerprint (in_teacher_id input) (in_raw_prompt input)
    normalized_type (in_subject_id input) (in_sub_subject_id input) in
  let result i created :=
    {| res_id := i; was_created := created; res_request_fingerprint := fingerprint |} in
  _ ← mapping Database begin_tx;
  existing ← mapping Database (execute_tx (find_active (in_teacher_id input) fingerprint));
  match existing with
  | Some existing_id => _ ← mapping Database commit_tx; mret (result existing_id false)
  | None =>
      _ ← others_commit race;
      insert_result ← attempt (execute_tx
        (insert_row (new_generation new_id input fingerprint normalized_type)));
      match insert_result with
      | Ok r => _ ← mapping Database commit_tx; mret (result (id r) true)
      | Err UniqueViolation =>
          _ ← mapping Database rollback_tx;
          _ ← mapping Database begin_tx;
          duplicate ← mapping Database (execute_tx (find_active (in_teacher_id input) fingerprint));
          match duplicate with
          | Some dup_id => _ ← mapping Database commit_tx; mret (result dup_id false)
          | None => _ ← mapping Database rollback_tx; throw (Database UniqueViolation)
          end
      | Err e => _ ← mapping Database rollback_tx; throw (Database e)
      | Panic => panicking None
      end
  end.

Definition combined_prompt (parent additional : str) : str :=
  lit "Original Request:" ++ [10%Z] ++ parent ++ [10%Z; 10%Z]
    ++ lit "Refinement / Additional context:" ++ [10%Z] ++ additional.

(** The [INSERT ... SELECT ... FROM media_generations WHERE id = $1]. *)
Definition insert_regeneration (parent_id new_id : uuid) (subject sub : option Z)
    (prompt fingerprint preferred : str) : statement uuid :=
  λ now db,
    match db !! parent_id with
    | None => Err RowNotFound
    | Some parent =>
        match insert_row ((blank_row new_id (teacher_id parent) prompt fingerprint)
                 <| generated_from_id := Some parent_id |> <| is_regeneration := true |>
                 <| subject_id := subject |> <| sub_subject_id := sub |>
                 <| active_duplicate_key := Some fingerprint |>
                 <| preferred_output_type := preferred |>) now db with
        | Ok (r, db') => Ok (id r, db')
        | Err e => Err e
        | Panic => Panic
        end
    end.

Definition create_regeneration (new_id : uuid) (parent_generation_id additional_prompt : str) :
    M SubmissionError uuid :=
  parent_id ← lift (parse_uuid parent_generation_id);
  parent ← mapping Database (execute (select_by_id (λ r,
    (teacher_id r, raw_prompt r, subject_id r, sub_subject_id r, preferred_output_type r)) parent_id));
  match parent with
  | None => throw (InvalidUuid (lit "parent generation not found: " ++ parent_generation_id))
  | Some (teacher, prompt, subject, sub, normalized_type) =>
      let prompt := combined_prompt prompt additional_prompt in
      let fingerprint := make_request_fingerprint teacher prompt normalized_type subject sub in
      mapping Database (execute (insert_regeneration parent_id new_id subject sub prompt
                                   fingerprint normalized_type))
  end.
End Service.
End Submission.

(** ** Lemmas: the service *)

Section ServiceFacts.
Context `{CaseTables} `{Sha256Hex} `{HeapScan} `{ForeignKeys} `{UuidText} `{UuidErrorText}.

Definition input_type (input : CreateInput) : str :=
  normalize_preferred_output_type (in_preferred_output_type input).
Definition input_fingerprint (input : CreateInput) : str :=
  make_request_fingerprint (in_teacher_id input) (in_raw_prompt input) (input_type input)
    (in_subject_id input) (in_sub_subject_id input).

(** The unfinished generation the service reuses: the newest one. *)
Definition newest_active (teacher : Z) (fingerprint : str) (db : DB) : option uuid :=
  id <$> head (order_by newer (filter (λ r, active_duplicate teacher fingerprint r = true) (scan db))).

Lemma find_active_eq teacher fingerprint now db :
  find_active teacher fingerprint now db = Ok (newest_active teacher fingerprint db, db).
Proof. done. Qed.

Lemma newest_active_None teacher fingerprint db :
  newest_active teacher fingerprint db = None <->
  forall r, r ∈ scan db -> active_duplicate teacher fingerprint r = false.
Proof.
  unfold newest_active. set (l := filter _ _).
  assert (order_by newer l = [] <-> l = []) as Hnil.
  { pose proof (order_by_perm newer l) as Hp. split; intros E.
    - rewrite E in Hp. symmetry in Hp. by apply Permutation_nil_r in Hp.
    - by rewrite E. }
  assert (l = [] <-> forall r, r ∈ scan db -> active_duplicate teacher fingerprint r = false) as Hl.
  { unfold l. clear l Hnil. induction (scan db) as [|r rows IH].
    - split; [|reflexivity]. intros _ r ?%not_elem_of_nil. done.
    - destruct (active_duplicate teacher fingerprint r) eqn:E.
      + rewrite filter_cons_True by done. split; [done|]. intros Hall.
        rewrite Hall in E; [done|left].
      + rewrite filter_cons_False by (by rewrite E). rewrite IH. split.
        * intros Hall r' [->|Hr']%elem_of_cons; [done|auto].
        * intros Hall r' Hr'. apply Hall. by right. }
  rewrite <- Hl, <- Hnil. by destruct (order_by newer l).
Qed.

Lemma newest_active_Some teacher fingerprint db i :
  newest_active teacher fingerprint db = Some i ->
  exists r, r ∈ scan db /\ id r = i /\ active_duplicate teacher fingerprint r = true.
Proof.
  unfold newest_active. intros (r & Hr & ->)%fmap_Some.
  assert (r ∈ order_by newer (filter (λ r, active_duplicate teacher fingerprint r = true) (scan db))) as Hin.
  { destruct (order_by newer _) as [|x l]; [done|]. simpl in Hr. simplify_eq. left. }
  rewrite order_by_perm, list_elem_of_filter in Hin. exists r. naive_solver.
Qed.

Lemma insert_row_Ok r now db r' db' :
  insert_row r now db = Ok (r', db') ->
  r' = r <| created_at := Some now |> <| updated_at := Some now |> /\
  row_ok r = true /\ db !! id r = None /\ duplicate_key_taken (active_duplicate_key r) db = false /\
  fk_ok r' = true /\ db' = <[id r := r']> db.
Proof.
  unfold insert_row.
  destruct (row_ok _) eqn:E1; simpl; [|done].
  destruct (bool_decide _) eqn:E2; simpl; [done|].
  destruct (duplicate_key_taken _ _) eqn:E3; simpl; [done|].
  destruct (fk_ok _) eqn:E4; simpl; [|done].
  destruct (negb _); [done|]. intros [= <- <-].
  apply bool_decide_eq_false in E2.
  repeat split; try done. simpl in E2. destruct (db !! id r); [|done]. exfalso. apply E2. by eexists.
Qed.

Lemma insert_row_no_panic r now db : insert_row r now db <> Panic.
Proof. unfold insert_row. by repeat case_match. Qed.

#[local] Opaque insert_row.

Lemma wp_create_or_reuse race new_id input s :
  let fp := input_fingerprint input in
  let find db := newest_active (in_teacher_id input) fp db in
  wp (create_or_reuse race new_id input)
     (λ o s', match o with
      | Ok res =>
          res_request_fingerprint res = fp /\
          (was_created res = true /\ find (committed s) = None /\
             (exists now row, insert_row (new_generation new_id input fp (input_type input)) now
                (race (committed s)) = Ok (row, committed s') /\ res_id res = id row)
           \/ was_created res = false /\ find (committed s') = Some (res_id res) /\
             (committed s' = committed s \/ committed s' = race (committed s)))
      | Err e =>
          (committed s' = committed s \/ committed s' = race (committed s)) /\
          (healthy s -> find (committed s) = None /\
             exists now db_e, insert_row (new_generation new_id input fp (input_type input)) now
                (race (committed s)) = Err db_e /\ e = Database db_e /\
                (db_e = UniqueViolation -> find (race (committed s)) = None))
      | Panic => False
      end) s.
Proof.
  intros fp find. unfold create_or_reuse. fold (input_type input). fold (input_fingerprint input).
  fold fp.
  repeat wp_step; simpl; try solve [split; [left; by same_data_simpl|intros ?; by_healthy]].
  change (id <$> _) with (find (committed s)).
  destruct (find (committed s)) as [ex|] eqn:Ef.
  { repeat wp_step; simpl; try solve [split; [left; by same_data_simpl|intros ?; by_healthy]].
    split; [done|]. right. split; [done|]. same_data_simpl. auto. }
  wp_step. apply wp_action. simpl. unfold attempt. do 2 wp_step.
  apply wp_execute_tx. intros s2 Hs2. split.
  { intros Hn. repeat wp_step; simpl;
      (split; [right; same_data_simpl; done|intros ?; by_healthy]). }
  same_data_simpl.
  destruct (insert_row _ _ _) as [[row db]|db_e|] eqn:Ei; [| |by apply insert_row_no_panic in Ei].
  { repeat wp_step; simpl; try solve [split; [right; by same_data_simpl|intros ?; by_healthy]].
    split; [done|]. left. split; [done|]. split; [done|]. eexists _, row. split; [exact Ei|done]. }
  destruct (decide (db_e = UniqueViolation)) as [->|Hne].
  - repeat wp_step; simpl; try solve [split; [right; by same_data_simpl|intros ?; by_healthy]].
    same_data_simpl. change (id <$> _) with (find (race (committed s))).
    destruct (find (race (committed s))) as [dup|] eqn:Ef'.
    + repeat wp_step; simpl; try solve [split; [right; by same_data_simpl|intros ?; by_healthy]].
      split; [done|]. right. split; [done|]. same_data_simpl. auto.
    + repeat wp_step; simpl; try solve [split; [right; by same_data_simpl|intros ?; by_healthy]].
      split; [right; by same_data_simpl|]. intros _. split; [done|]. eexists _, _.
      split; [exact Ei|done].
  - destruct db_e; try done; repeat wp_step; simpl;
      try solve [split; [right; by same_data_simpl|intros ?; by_healthy]];
      (split; [right; by same_data_simpl|]); intros _; (split; [done|]); eexists _, _;
      (split; [exact Ei|done]).
Qed.
End ServiceFacts.

(** ** Lemmas: the canonical form *)

Lemma id_or_none_no_bar o : Forall (λ c, c <> 124)%Z (id_or_none o).
Proof.
  destruct o as [z|]; simpl; [|by repeat constructor].
  eapply Forall_impl; [apply z_to_string_range|]. simpl. lia.
Qed.

Lemma id_or_none_inj o o' : id_or_none o = id_or_none o' -> o = o'.
Proof.
  assert (forall z, z_to_string z <> lit "none") as Hnone.
  { intros z Hz. pose proof (z_to_string_range z) as Hr. rewrite Hz in Hr.
    change (lit "none") with [110; 111; 110; 101]%Z in Hr. inversion Hr. lia. }
  destruct o as [z|], o' as [z'|]; simpl; intros Heq; [f_equal; by apply z_to_string_inj| | |done].
  - by apply Hnone in Heq.
  - symmetry in Heq. by apply Hnone in Heq.
Qed.

(** A field without the separator ends at the first separator. *)
Lemma split_at_bar (a a' b b' : str) :
  Forall (λ c, c <> 124)%Z a -> Forall (λ c, c <> 124)%Z a' ->
  a ++ lit "|" ++ b = a' ++ lit "|" ++ b' -> a = a' /\ b = b'.
Proof.
  intros Ha. revert a'. induction Ha as [|c a Hc Ha IH]; intros a' Ha'; simpl.
  - destruct Ha' as [|c' a' Hc']; simpl; [intros [= ->]; done|]. intros [= <- _]. done.
  - destruct Ha' as [|c' a' Hc']; simpl; [intros [= -> _]; done|]. intros [= -> Heq].
    destruct (IH a' Ha' Heq) as [-> ->]. done.
Qed.

Lemma canonical_request_inj `{CaseTables} t t' p p' ty ty' a a' b b' :
  ty ∈ ALLOWED_OUTPUT_TYPES -> ty' ∈ ALLOWED_OUTPUT_TYPES ->
  canonical_request t p ty a b = canonical_request t' p' ty' a' b' ->
  t = t' /\ ty = ty' /\ a = a' /\ b = b' /\ squish_and_lower p = squish_and_lower p'.
Proof.
  intros Hty Hty'. unfold canonical_request.
  assert (forall x, x ∈ ALLOWED_OUTPUT_TYPES -> Forall (λ c, c <> 124)%Z x) as Hbar.
  { intros x. unfold ALLOWED_OUTPUT_TYPES. rewrite !elem_of_cons.
    intros [->|[->|[->|[->|[]%not_elem_of_nil]]]]; by repeat constructor. }
  intros [Ht Heq]%split_at_bar;
    [|eapply Forall_impl; [apply z_to_string_range|]; simpl; lia
     |eapply Forall_impl; [apply z_to_string_range|]; simpl; lia].
  apply split_at_bar in Heq as [Hp Heq]; [|by apply Hbar|by apply Hbar].
  apply split_at_bar in Heq as [Ha Heq]; [|apply id_or_none_no_bar|apply id_or_none_no_bar].
  apply split_at_bar in Heq as [Hb Heq]; [|apply id_or_none_no_bar|apply id_or_none_no_bar].
  apply z_to_string_inj in Ht. apply id_or_none_inj in Ha, Hb. done.
Qed.

Lemma lower_ascii_nonempty `{CaseTables} c : (0 <= c < 128)%Z -> char_to_lowercase c <> [].
Proof. intros Hc. unfold char_to_lowercase. by rewrite (proj2 (Z.ltb_lt c 128)) by lia. Qed.

Lemma normalized_allowed `{CaseTables} o : normalize_preferred_output_type o ∈ ALLOWED_OUTPUT_TYPES.
Proof.
  assert (lit "auto" ∈ ALLOWED_OUTPUT_TYPES) as Hauto by left.
  unfold normalize_preferred_output_type. destruct o as [raw|]; [|done].
  case_decide; [done|]. by case_decide.
Qed.

Lemma normalized_idempotent `{CaseTables} ty :
  ty ∈ ALLOWED_OUTPUT_TYPES -> normalize_preferred_output_type (Some ty) = ty.
Proof.
  unfold ALLOWED_OUTPUT_TYPES. rewrite !elem_of_cons.
  by intros [->|[->|[->|[->|[]%not_elem_of_nil]]]].
Qed.

(** ** Lemmas: the table *)

Section TableFacts.
Context `{HeapScanLaws}.

Lemma scan_lookup db r : r ∈ scan db <-> exists j, db !! j = Some r.
Proof.
  rewrite scan_rows, list_elem_of_fmap. split.
  - intros ([j r'] & -> & Hin). exists j. by apply elem_of_map_to_list.
  - intros [j Hj]. exists (j, r). by rewrite elem_of_map_to_list.
Qed.

(** The only row that satisfies [P] is the one just inserted. *)
Lemma filter_scan_insert (P : MediaGeneration -> bool) db i r :
  db !! i = None -> (forall j x, db !! j = Some x -> P x = false) -> P r = true ->
  filter (λ x, P x = true) (scan (<[i := r]> db)) = [r].
Proof.
  intros Hi Hdb Hr. apply Permutation_singleton_r.
  rewrite scan_rows, map_to_list_insert by done. simpl.
  rewrite filter_cons_True by done. f_equiv.
  assert (forall l : list (uuid * MediaGeneration), (forall j x, (j, x) ∈ l -> P x = false) ->
    filter (λ x, P x = true) l.*2 = []) as Hnil.
  { induction l as [|[j x] l IH]; intros Hl; simpl; [reflexivity|].
    rewrite filter_cons_False by (rewrite (Hl j x); [done|left]).
    apply IH. intros j' x' Hin. apply (Hl j'). by right. }
  rewrite Hnil; [done|]. intros j x Hin%elem_of_map_to_list. by eapply Hdb.
Qed.
End TableFacts.

Lemma duplicate_key_taken_intro k db j r :
  db !! j = Some r -> active_duplicate_key r = Some k -> duplicate_key_taken (Some k) db = true.
Proof.
  intros Hj Hk. unfold duplicate_key_taken. apply existsb_exists. exists (j, r).
  rewrite <- list_elem_of_In, elem_of_map_to_list. split; [done|]. by apply bool_decide_eq_true.
Qed.

Lemma duplicate_key_taken_elim k db j r :
  duplicate_key_taken (Some k) db = false -> db !! j = Some r -> active_duplicate_key r <> Some k.
Proof. intros Hf Hj Hk. by rewrite (duplicate_key_taken_intro k db j r Hj Hk) in Hf. Qed.

(** The unique index holds. *)
Definition keys_unique (db : DB) : Prop :=
  forall i j r r' k, db !! i = Some r -> db !! j = Some r' ->
    active_duplicate_key r = Some k -> active_duplicate_key r' = Some k -> i = j.

Lemma keys_unique_insert db i r :
  keys_unique db -> duplicate_key_taken (active_duplicate_key r) db = false ->
  keys_unique (<[i := r]> db).
Proof.
  intros Hu Hk i1 i2 r1 r2 k. rewrite !lookup_insert_Some.
  intros [[<- <-]|[_ H1]] [[<- <-]|[_ H2]] Hk1 Hk2; [done| | |by eapply Hu].
  - rewrite Hk1 in Hk. by destruct (duplicate_key_taken_elim _ _ _ _ Hk H2).
  - rewrite Hk2 in Hk. by destruct (duplicate_key_taken_elim _ _ _ _ Hk H1).
Qed.

Lemma key_stamped r a b :
  active_duplicate_key (r <| created_at := a |> <| updated_at := b |>) = active_duplicate_key r.
Proof. reflexivity. Qed.
Lemma active_stamped teacher fp r a b :
  active_duplicate teacher fp (r <| created_at := a |> <| updated_at := b |>) = active_duplicate teacher fp r.
Proof. reflexivity. Qed.
Lemma new_generation_active `{CaseTables} `{Sha256Hex} new_id input ty :
  active_duplicate (in_teacher_id input) (input_fingerprint input)
    (new_generation new_id input (input_fingerprint input) ty) = true.
Proof.
  unfold active_duplicate. rewrite !bool_decide_true by done. done.
Qed.

(** ** Properties *)

(** C2. [create_or_reuse], whatever statements fail and whatever other transactions commit
    between its SELECT and its INSERT: a reused generation is an unfinished generation of the
    teacher with the request's fingerprint; a new one is inserted under the new id only when the
    teacher had no such generation, leaves every other row alone and keeps the unique index; an
    error leaves our side of the table unchanged. *)
Theorem create_or_reuse_spec `{CaseTables} `{Sha256Hex} `{HeapScanLaws} `{ForeignKeys} race new_id input s :
  let fp := input_fingerprint input in
  let active := active_duplicate (in_teacher_id input) fp in
  match create_or_reuse race new_id input s with
  | (Ok res, s') =>
      res_request_fingerprint res = fp /\
      if was_created res then
        res_id res = new_id /\ race (committed s) !! new_id = None /\
        (forall j r, committed s !! j = Some r -> active r = false) /\
        (keys_unique (race (committed s)) -> keys_unique (committed s')) /\
        exists now, committed s' = <[new_id := (new_generation new_id input fp (input_type input))
          <| created_at := Some now |> <| updated_at := Some now |>]> (race (committed s))
      else
        (committed s' = committed s \/ committed s' = race (committed s)) /\
        exists j r, committed s' !! j = Some r /\ id r = res_id res /\ active r = true
  | (Err _, s') => committed s' = committed s \/ committed s' = race (committed s)
  | (Panic, _) => False
  end.
Proof.
  intros fp active. pose proof (wp_create_or_reuse race new_id input s) as Hwp. simpl in Hwp.
  fold fp in Hwp. unfold wp in Hwp.
  destruct (create_or_reuse race new_id input s) as [[res|e|] s']; simpl in Hwp; [|tauto|done].
  destruct Hwp as [Hfp [(-> & Hnone & now & row & Hins & Hid)|(-> & Hsome & Hdb)]]; (split; [done|]).
  - apply insert_row_Ok in Hins as (-> & _ & Hfree & Hkey & _ & Hdb).
    split; [done|]. split; [done|]. split; [|split].
    + intros j r Hj. pose proof (proj1 (newest_active_None _ _ _) Hnone) as Hall.
      apply Hall, scan_lookup. by exists j.
    + intros Hu. rewrite Hdb. apply keys_unique_insert; [exact Hu|]. rewrite key_stamped. exact Hkey.
    + exists now. exact Hdb.
  - split; [done|]. apply newest_active_Some in Hsome as (r & Hin & Hid & Hact).
    apply scan_lookup in Hin as [j Hj]. by exists j, r.
Qed.

(** Deduplication: once a submission has succeeded, a second one by the same teacher with the
    same fingerprint (nothing having happened in between) succeeds, creates nothing and returns
    the same generation. *)
Lemma resubmission_reuses `{CaseTables} `{Sha256Hex} `{HeapScanLaws} `{ForeignKeys}
    new_id new_id' input input' s res s'
  (Hteacher : in_teacher_id input' = in_teacher_id input)
  (Hfp : input_fingerprint input' = input_fingerprint input)
  (Hfirst : create_or_reuse (λ db, db) new_id input s = (Ok res, s'))
  (Hhealthy : healthy s') :
  exists s'', create_or_reuse (λ db, db) new_id' input' s' =
    (Ok {| res_id := res_id res; was_created := false;
           res_request_fingerprint := res_request_fingerprint res |}, s'') /\
    committed s'' = committed s'.
Proof.
  pose proof (wp_create_or_reuse (λ db, db) new_id input s) as Hone.
  pose proof (wp_create_or_reuse (λ db, db) new_id' input' s') as Htwo.
  unfold wp in Hone. rewrite Hfirst in Hone. simpl in Hone, Htwo. rewrite Hteacher, Hfp in Htwo. unfold wp in Htwo.
  assert (newest_active (in_teacher_id input) (input_fingerprint input) (committed s') = Some (res_id res))
    as Hfound.
  { destruct Hone as [_ [(_ & Hnone & now & row & Hins & ->)|(_ & Hsome & _)]]; [|done].
    apply insert_row_Ok in Hins as (-> & _ & Hfree & _ & _ & Hdb).
    unfold newest_active. rewrite Hdb, (filter_scan_insert _ _ _ _ Hfree); [done| |].
    - intros j x Hj. apply (proj1 (newest_active_None _ _ _) Hnone), scan_lookup. by exists j.
    - rewrite active_stamped. apply new_generation_active. }
  destruct (create_or_reuse (λ db, db) new_id' input' s') as [[res'|e|] s'']; simpl in Htwo; [| |done].
  - exists s''. destruct Hone as [Hres _], Htwo as [Hres' [(_ & Hnone & _)|(Hw & Hsome & Hdb)]]; [congruence|].
    assert (committed s'' = committed s') as Heq by (by destruct Hdb).
    split; [|done]. rewrite Heq, Hfound in Hsome. destruct res' as [ri rc rf]. simpl in *. congruence.
  - destruct Htwo as [_ Htwo]. destruct (Htwo Hhealthy) as [Hn _]. congruence.
Qed.

(** The unique index outlives the generation: when a finished generation still holds the
    request's [active_duplicate_key] and no unfinished one matches, a valid resubmission is
    refused with the unique violation even though every statement works. *)
Lemma finished_key_blocks_resubmission `{CaseTables} `{Sha256Hex} `{HeapScanLaws} `{ForeignKeys}
    new_id input s j r
  (Hhealthy : healthy s)
  (Hholder : committed s !! j = Some r)
  (Hkey : active_duplicate_key r = Some (input_fingerprint input))
  (Hnone : forall i x, committed s !! i = Some x ->
     active_duplicate (in_teacher_id input) (input_fingerprint input) x = false)
  (Hvalid : row_ok (new_generation new_id input (input_fingerprint input) (input_type input)) = true) :
  exists s', create_or_reuse (λ db, db) new_id input s = (Err (Database UniqueViolation), s') /\
    committed s' = committed s.
Proof.
  pose proof (wp_create_or_reuse (λ db, db) new_id input s) as Hwp. unfold wp in Hwp. simpl in Hwp.
  assert (newest_active (in_teacher_id input) (input_fingerprint input) (committed s) = None) as Hn.
  { apply newest_active_None. intros x [i Hi]%scan_lookup. by eapply Hnone. }
  assert (forall now, insert_row (new_generation new_id input (input_fingerprint input) (input_type input))
            now (committed s) = Err UniqueViolation) as Hins.
  { intros now. unfold insert_row. rewrite row_ok_updated, row_ok_created, Hvalid, key_stamped.
    change (active_duplicate_key (new_generation new_id input (input_fingerprint input)
      (input_type input))) with (Some (input_fingerprint input)).
    rewrite (duplicate_key_taken_intro _ _ j r Hholder Hkey). by rewrite orb_true_r. }
  destruct (create_or_reuse (λ db, db) new_id input s) as [[res|e|] s']; simpl in Hwp; [| |done].
  - destruct Hwp as [_ [(_ & _ & now & row & Hi & _)|(_ & Hs & [Hdb|Hdb])]];
      [by rewrite Hins in Hi|rewrite Hdb in Hs; congruence|rewrite Hdb in Hs; congruence].
  - destruct Hwp as [Hdb Hwp]. destruct (Hwp Hhealthy) as (_ & now & db_e & Hi & -> & _).
    rewrite Hins in Hi. injection Hi as <-. exists s'. split; [done|]. by destruct Hdb.
Qed.

(** The canonical form a fingerprint hashes loses nothing but letter case and whitespace: two
    requests with the same canonical form have the same teacher, output type, subject,
    sub-subject and squished prompt. The output type that enters it is always an allowed one, and
    normalising it again changes nothing. *)
Lemma canonical_request_faithful `{CaseTables} t t' p p' o o' a a' b b'
  (Heq : canonical_request t p (normalize_preferred_output_type o) a b =
         canonical_request t' p' (normalize_preferred_output_type o') a' b') :
  t = t' /\ normalize_preferred_output_type o = normalize_preferred_output_type o' /\
  a = a' /\ b = b' /\ squish_and_lower p = squish_and_lower p' /\
  normalize_preferred_output_type o ∈ ALLOWED_OUTPUT_TYPES /\
  normalize_preferred_output_type (Some (normalize_preferred_output_type o)) =
    normalize_preferred_output_type o.
Proof.
  apply canonical_request_inj in Heq; [|apply normalized_allowed|apply normalized_allowed].
  destruct Heq as (? & ? & ? & ? & ?). repeat (split; [done|]).
  split; [apply normalized_allowed|]. apply normalized_idempotent, normalized_allowed.
Qed.

(** ** Witnesses *)

Module SubmissionWitness.
#[local] Existing Instance table_scan.
#[local] Existing Instance table_scan_laws.
#[local] Existing Instance no_foreign_keys.
#[local] Existing Instance plain_case.

(** A stand-in digest: the first 64 characters, padded. *)
#[local] Instance prefix_digest : Sha256Hex := λ s, take 64 (s ++ replicate 64 48%Z).

Definition request (prompt : string) : CreateInput :=
  {| in_teacher_id := 7; in_raw_prompt := lit prompt; in_preferred_output_type := Some (lit " PDF ");
     in_subject_id := Some 3%Z; in_sub_subject_id := None;
     in_provider_metadata := {| pm_llm_provider := None; pm_llm_model := None;
                                pm_generator_provider := None; pm_generator_model := None |} |}.

Definition empty_state : St := sample_state ∅ 0.
Definition after_first : St := (create_or_reuse (λ db, db) 10 (request "Make a  Quiz") empty_state).2.

Lemma create_or_reuse_spec_witness :
  exists res, (create_or_reuse (λ db, db) 10 (request "Make a  Quiz") empty_state).1 = Ok res /\
    was_created res = true /\ res_id res = 10%Z.
Proof.
  pose proof (create_or_reuse_spec (λ db, db) 10 (request "Make a  Quiz") empty_state) as Hspec.
  simpl in Hspec.
  destruct (create_or_reuse (λ db, db) 10 (request "Make a  Quiz") empty_state) as [[res|e|] s'] eqn:E.
  - exists res. assert (was_created res = true) as Hc.
    { apply (f_equal fst) in E. vm_compute in E. by injection E as <-. }
    rewrite Hc in Hspec. destruct Hspec as (_ & Hid & _). done.
  - apply (f_equal fst) in E. vm_compute in E. done.
  - done.
Defined.

Lemma resubmission_reuses_witness :
  exists s'', create_or_reuse (λ db, db) 11 (request "make a quiz ") after_first =
    (Ok {| res_id := 10%Z; was_created := false;
           res_request_fingerprint := input_fingerprint (request "Make a  Quiz") |}, s'') /\
    committed s'' = committed after_first.
Proof.
  pose proof (resubmission_reuses 10 11 (request "Make a  Quiz") (request "make a quiz ") empty_state
    {| res_id := 10%Z; was_created := true;
       res_request_fingerprint := input_fingerprint (request "Make a  Quiz") |} after_first) as Hw.
  cbn [res_id res_request_fingerprint] in Hw. apply Hw.
  - reflexivity.
  - vm_compute. reflexivity.
  - vm_compute. reflexivity.
  - unfold healthy. vm_compute. repeat constructor.
Defined.

(** The first generation has completed; its key is still set. *)
Definition completed_db : DB := (λ r, r <| status := lit "completed" |>) <$> committed after_first.

Lemma finished_key_blocks_resubmission_witness :
  exists s', create_or_reuse (λ db, db) 11 (request "make a quiz ") (sample_state completed_db 0) =
    (Err (Database UniqueViolation), s') /\ committed s' = completed_db.
Proof.
  eapply (finished_key_blocks_resubmission 11 (request "make a quiz ") (sample_state completed_db 0) 10).
  - apply sample_healthy.
  - vm_compute. reflexivity.
  - vm_compute. reflexivity.
  - intros i x Hx. simpl in Hx. apply lookup_fmap_Some in Hx as (y & <- & _).
    unfold active_duplicate. simpl. by rewrite andb_false_r.
  - vm_compute. reflexivity.
Defined.

Lemma canonical_request_faithful_witness :
  canonical_request 7 (lit "Make a  Quiz") (lit "pdf") (Some 3%Z) None =
    canonical_request 7 (lit " make a quiz") (lit "pdf") (Some 3%Z) None /\
  squish_and_lower (lit "Make a  Quiz") = squish_and_lower (lit " make a quiz").
Proof.
  split; [vm_compute; reflexivity|].
  apply (canonical_request_faithful 7 7 (lit "Make a  Quiz") (lit " make a quiz") (Some (lit "PDF"))
    (Some (lit " pdf ")) (Some 3%Z) (Some 3%Z) None None).
  vm_compute. reflexivity.
Defined.
End SubmissionWitness.
