(* ===== verification/Decision.v ===== *)
(** * The output-type decision (src/src/orchestrator/decision.rs)

    Teacher override, then interpretation constraint, then a ranking of the
    three formats by model score and keyword signals. The iteration order of
    the score map, a randomly seeded HashMap, is a parameter. *)

From stdpp Require Import base gmap list option strings fin_maps sorting.
From Stdlib Require Import ZArith Lia Floats.SpecFloat.
From S2P Require Import Prelude RustStr Json Floats Store Samples Submission.

Definition VERSION : str := lit "media_output_decision.v1".
Definition ALLOWED_FORMATS : list str := [lit "docx"; lit "pdf"; lit "pptx"].

Definition type_priority (format : str) : Z :=
  default i32_max (match_lit format [(lit "pptx", 0%Z); (lit "pdf", 1%Z); (lit "docx", 2%Z)]).

Record KeywordSignalDef := {
  ks_output_type : str;
  ks_weight : f64;
  ks_reason_code : str;
  ks_keywords : list str
}.

Definition KEYWORD_SIGNALS : list KeywordSignalDef := [
  {| ks_output_type := lit "pptx"; ks_weight := f64_lit 35 2;
     ks_reason_code := lit "slide_intent_detected";
     ks_keywords := [lit "slide"; lit "slides"; lit "deck"; lit "presentasi"; lit "presentation";
                     lit "slideshow"; lit "ppt"; lit "pptx"] |};
  {| ks_output_type := lit "pdf"; ks_weight := f64_lit 25 2;
     ks_reason_code := lit "printable_intent_detected";
     ks_keywords := [lit "handout"; lit "printable"; lit "print"; lit "cetak"; lit "pdf"; lit "booklet"] |};
  {| ks_output_type := lit "docx"; ks_weight := f64_lit 25 2;
     ks_reason_code := lit "editable_document_intent_detected";
     ks_keywords := [lit "editable"; lit "edit"; lit "docx"; lit "word"; lit "worksheet";
                     lit "lembar kerja"; lit "template"] |} ].

Record MatchedSignal := {
  ms_output_type : str;
  ms_reason_code : str;
  ms_weight : f64;
  ms_matched_keyword : option str;
  ms_reason : str
}.

Record RankedCandidate := mkRanked {
  output_type : str;
  score : f64;
  candidate_score : f64;
  reason_code : str;
  matched_signals : list MatchedSignal;
  reasons : list str
}.
#[export] Instance RankedCandidate_eta : Eta RankedCandidate := λ r,
  mkRanked (output_type r) (score r) (candidate_score r) (reason_code r) (matched_signals r) (reasons r).

Record DecideInput := {
  di_interpretation : value;
  di_preferred_output_type : option str
}.

Record DecisionOutput := {
  do_schema_version : str;
  do_preferred_output_type : str;
  do_constraint_preferred_output_type : str;
  do_resolved_output_type : str;
  do_decision_source : str;
  do_reason_code : str;
  do_reasoning : str;
  do_ranked_candidates : list RankedCandidate;
  do_tie_breaker_applied : bool;
  do_resolved_at : str
}.

Inductive DecisionError :=
| MissingInterpretation (msg : str)
| Database (e : db_error)
| InvalidUuid (msg : str).

(** The iteration order of the score map. *)
Class HashOrder := format_order : list str.
Class HashOrderLaws `{HashOrder} := format_order_perm : format_order ≡ₚ ALLOWED_FORMATS.

(** chrono's [to_rfc3339_opts(Millis, true)]. *)
Class Rfc3339Millis := to_rfc3339_millis : Z -> str.

Definition str_field (k : string) (v : value) : option str := get (lit k) v ≫= as_str.
Arguments str_field k%_string v.
Definition str_at (path : list string) (v : value) : option str := pointer path v ≫= as_str.
Definition array_field (k : string) (v : value) : option (list value) := get (lit k) v ≫= as_array.
Arguments array_field k%_string v.
Definition array_at (path : list string) (v : value) : option (list value) := pointer path v ≫= as_array.

Definition format_type_label (format_type : str) : str :=
  default (lit "document") (match_lit format_type
    [(lit "pptx", lit "slide deck or presentation"); (lit "pdf", lit "stable printable document");
     (lit "docx", lit "editable document")]).

(** [scores.get_mut(key)]: the entries of the map, in its iteration order. *)
Definition with_entry (key : str) (f : RankedCandidate -> RankedCandidate) (scores : list RankedCandidate) :
    list RankedCandidate :=
  (λ e, if decide (output_type e = key) then f e else e) <$> scores.

(** One entry of [output_type_candidates]. *)
Definition add_candidate (candidate : value) (scores : list RankedCandidate) : list RankedCandidate :=
  let ctype := default [] (str_field "type" candidate) in
  let cscore := default f64_zero (get (lit "score") candidate ≫= as_f64) in
  let reason := default [] (str_field "reason" candidate) in
  let rounded_score := round4 cscore in
  with_entry ctype (λ e,
    e <| score := f64_add (score e) rounded_score |>
      <| candidate_score := rounded_score |>
      <| reasons := reasons e ++ [lit "LLM candidate score " ++ format_fixed 4 rounded_score ++ lit ": "
                                    ++ reason] |>) scores.

Definition add_signal (signal : MatchedSignal) (scores : list RankedCandidate) : list RankedCandidate :=
  with_entry (ms_output_type signal) (λ e,
    e <| score := f64_add (score e) (ms_weight signal) |>
      <| reason_code := ms_reason_code signal |>
      <| matched_signals := matched_signals e ++ [signal] |>
      <| reasons := reasons e ++ [ms_reason signal] |>) scores.

(** The comparator of the ranking. *)
Definition compare_candidates (a b : RankedCandidate) : comparison :=
  let score_diff := f64_abs (f64_sub (score a) (score b)) in
  if f64_ge score_diff (f64_lit 1 4) then default Eq (f64_cmp (score b) (score a))
  else (type_priority (output_type a) ?= type_priority (output_type b))%Z.

(** [sort_by] on a slice of at most twenty elements: each element moves left past the greater ones. *)
Section InsertionSort.
Context {A} (cmp : A -> A -> comparison).
Definition is_less (a b : A) : bool := match cmp a b with Lt => true | _ => false end.
(** Insert [x] at the end of the reversed prefix [rev_prefix]. *)
Fixpoint insert_tail (x : A) (rev_prefix : list A) : list A :=
  match rev_prefix with
  | [] => [x]
  | y :: rest => if is_less x y then y :: insert_tail x rest else x :: rev_prefix
  end.
Definition sort_by (l : list A) : list A := reverse (foldl (λ acc x, insert_tail x acc) [] l).
End InsertionSort.

Section Decide.
Context `{CaseTables} `{HashOrder} `{Rfc3339Millis}.

(** Lower-cased text of an interpretation, joined by spaces. *)
Definition decision_haystack (interpretation : value) : str :=
  let segment (o : option str) : list str :=
    match o with
    | Some v => if decide (trim v = []) then [] else [to_lowercase v]
    | None => []
    end in
  let lowered (o : option str) : list str := match o with Some v => [to_lowercase v] | None => [] end in
  let sections := default [] (array_at ["document_blueprint"; "sections"] interpretation) in
  let prefs := default [] (array_at ["requested_media_characteristics"; "format_preferences"]
                             interpretation) in
  join (lit " ")
    (segment (str_field "teacher_prompt" interpretation)
     ++ segment (str_at ["teacher_intent"; "goal"] interpretation)
     ++ segment (str_field "resolved_output_type_reasoning" interpretation)
     ++ segment (str_at ["document_blueprint"; "title"] interpretation)
     ++ segment (str_at ["document_blueprint"; "summary"] interpretation)
     ++ (sections ≫= λ section,
           lowered (str_field "title" section) ++ lowered (str_field "purpose" section)
           ++ (default [] (array_field "bullets" section) ≫= λ bullet, lowered (as_str bullet)))
     ++ (prefs ≫= λ pref, lowered (as_str pref))).

(** The first keyword of a definition that occurs in the haystack. *)
Definition keyword_signal (haystack_lower : str) (d : KeywordSignalDef) : list MatchedSignal :=
  match list_find (λ keyword, str_contains haystack_lower keyword = true) (ks_keywords d) with
  | Some (_, keyword) =>
      [ {| ms_output_type := ks_output_type d; ms_reason_code := ks_reason_code d;
           ms_weight := ks_weight d; ms_matched_keyword := Some keyword;
           ms_reason := lit "Keyword " ++ [34%Z] ++ keyword ++ [34%Z] ++ lit " indicates a "
                        ++ format_type_label (ks_output_type d) ++ lit " format." |} ]
  | None => []
  end.

Definition keyword_signals (interpretation : value) : list MatchedSignal :=
  let haystack_lower := to_lowercase (decision_haystack interpretation) in
  let signals := KEYWORD_SIGNALS ≫= keyword_signal haystack_lower in
  let visual_density := str_at ["requested_media_characteristics"; "visual_density"] interpretation in
  let has_assets := match array_field "assets" interpretation with
                    | Some a => negb (bool_decide (a = [])) | None => false end in
  signals ++
  (if bool_decide (visual_density = Some (lit "high")) && has_assets then
     [ {| ms_output_type := lit "pptx"; ms_reason_code := lit "visual_density_signal";
          ms_weight := f64_lit 12 2; ms_matched_keyword := None;
          ms_reason := lit "High visual density with explicit assets favors slide-oriented output." |} ]
   else []).

Definition initial_candidate (fmt : str) : RankedCandidate :=
  mkRanked fmt f64_zero f64_zero (lit "highest_candidate_score") [] [].

(** The score map once every candidate and signal has been added. *)
Definition score_candidates (interpretation : value) : list RankedCandidate :=
  let scores := initial_candidate <$> format_order in
  let scores := foldl (λ s c, add_candidate c s) scores
                  (default [] (array_field "output_type_candidates" interpretation)) in
  foldl (λ s g, add_signal g s) scores (keyword_signals interpretation).

Definition rank_candidates (interpretation : value) : list RankedCandidate :=
  (λ c, c <| score := round4 (score c) |>)
    <$> sort_by compare_candidates (score_candidates interpretation).

Definition build_ranking_reasoning (selected : RankedCandidate) (runner_up : option RankedCandidate)
    (tie_breaker_applied : bool) (interpretation_reasoning : str) : str :=
  let reasoning := lit "Auto resolution selected " ++ to_uppercase (output_type selected)
    ++ lit " with score " ++ format_fixed 4 (score selected) ++ lit ". "
    ++ join (lit " ") (take 2 (reasons selected)) in
  let reasoning :=
    match runner_up with
    | Some runner => reasoning ++ lit " Runner-up was " ++ to_uppercase (output_type runner)
                       ++ lit " at score " ++ format_fixed 4 (score runner) ++ lit "."
    | None => reasoning
    end in
  let reasoning :=
    if tie_breaker_applied then
      reasoning ++ lit " Scores tied, so the deterministic priority order PDF > DOCX > PPTX was applied."
    else reasoning in
  let reasoning :=
    if decide (trim interpretation_reasoning = []) then reasoning
    else reasoning ++ lit " " ++ trim interpretation_reasoning in
  trim reasoning.

(** [now] is the instant [Utc::now()] returns. *)
Definition build_decision (now : Z) (preferred resolved source code reasoning constraint : str)
    (ranked_candidates : list RankedCandidate) (tie_breaker_applied : bool) : DecisionOutput :=
  {| do_schema_version := VERSION;
     do_preferred_output_type := preferred;
     do_constraint_preferred_output_type := constraint;
     do_resolved_output_type := resolved;
     do_decision_source := source;
     do_reason_code := code;
     do_reasoning := reasoning;
     do_ranked_candidates := ranked_candidates;
     do_tie_breaker_applied := tie_breaker_applied;
     do_resolved_at := to_rfc3339_millis now |}.

(** [None] is the panic of [ranked_candidates[0]]. *)
Definition decide_output_type (now : Z) (input : DecideInput) : option DecisionOutput :=
  let interpretation := di_interpretation input in
  let normalized_preferred := normalize_preferred_output_type (di_preferred_output_type input) in
  let constraint_preferred := normalize_preferred_output_type
    (str_at ["constraints"; "preferred_output_type"] interpretation) in
  let ranked_candidates := rank_candidates interpretation in
  if decide (normalized_preferred <> lit "auto") then
    Some (build_decision now normalized_preferred normalized_preferred
            (lit "teacher_override") (lit "teacher_override")
            (lit "Teacher override selected " ++ to_uppercase normalized_preferred
               ++ lit ", so automatic classification was bypassed.")
            constraint_preferred ranked_candidates false)
  else if decide (constraint_preferred <> lit "auto") then
    Some (build_decision now normalized_preferred constraint_preferred
            (lit "interpretation_constraint") (lit "interpretation_constraint")
            (lit "Interpretation payload explicitly constrained the output to "
               ++ to_uppercase constraint_preferred ++ lit ".")
            constraint_preferred ranked_candidates false)
  else
    selected ← head ranked_candidates;
    let runner_up := ranked_candidates !! 1 in
    let tie_breaker_applied :=
      match runner_up with
      | Some r => f64_lt (f64_abs (f64_sub (score selected) (score r))) (f64_lit 1 4)
      | None => false
      end in
    let reasoning := build_ranking_reasoning selected runner_up tie_breaker_applied
      (default [] (str_at ["resolved_output_type_reasoning"] interpretation)) in
    Some (build_decision now normalized_preferred (output_type selected) (lit "candidate_ranking")
            (reason_code selected) reasoning constraint_preferred ranked_candidates
            tie_breaker_applied).
End Decide.

(** ** Lemmas: scoring *)

Lemma perm3 {A} (l : list A) a b c :
  l ≡ₚ [a; b; c] ->
  l = [a; b; c] \/ l = [a; c; b] \/ l = [b; a; c] \/ l = [c; a; b] \/ l = [b; c; a] \/ l = [c; b; a].
Proof.
  intros Hl. destruct (Permutation_vs_cons_inv Hl) as (l1 & l2 & ->).
  rewrite <- Permutation_middle in Hl. apply Permutation_cons_inv in Hl. symmetry in Hl.
  apply Permutation_length_2_inv in Hl as [Hl|Hl];
    (destruct l1 as [|x [|y [|? ?]]]; simpl in Hl; simplify_eq/=; tauto).
Qed.

Lemma insert_tail_perm {A} (cmp : A -> A -> comparison) x l : insert_tail cmp x l ≡ₚ x :: l.
Proof.
  induction l as [|y l IH]; simpl; [done|]. destruct (is_less cmp x y); [|done].
  rewrite IH. apply Permutation_swap.
Qed.

Lemma sort_by_perm {A} (cmp : A -> A -> comparison) l : sort_by cmp l ≡ₚ l.
Proof.
  unfold sort_by. rewrite reverse_Permutation.
  assert (forall acc, foldl (λ acc x, insert_tail cmp x acc) acc l ≡ₚ l ++ acc) as Hgen.
  { induction l as [|x l IH]; intros acc; simpl; [done|].
    rewrite IH, insert_tail_perm. by rewrite Permutation_middle. }
  by rewrite Hgen, app_nil_r.
Qed.

(** Three elements that the comparator orders linearly are sorted whatever order they come in. *)
Lemma sort_by_three {A} (cmp : A -> A -> comparison) l a b c :
  l ≡ₚ [a; b; c] ->
  is_less cmp a b = true -> is_less cmp b a = false -> is_less cmp a c = true ->
  is_less cmp c a = false -> is_less cmp b c = true -> is_less cmp c b = false ->
  sort_by cmp l = [a; b; c].
Proof.
  intros Hl Hab Hba Hac Hca Hbc Hcb. unfold sort_by.
  destruct (perm3 l a b c Hl) as [->|[->|[->|[->|[->| ->]]]]]; cbn [foldl insert_tail];
    rewrite ?Hab, ?Hba, ?Hac, ?Hca, ?Hbc, ?Hcb; cbn [insert_tail];
    rewrite ?Hab, ?Hba, ?Hac, ?Hca, ?Hbc, ?Hcb; reflexivity.
Qed.

(** The entry of one format, computed by itself. *)
Definition step_entry (key : str) (f : RankedCandidate -> RankedCandidate) (e : RankedCandidate) :
    RankedCandidate :=
  if decide (output_type e = key) then f e else e.

Section Scoring.
Context `{CaseTables}.

Definition candidate_step (c : value) (e : RankedCandidate) : RankedCandidate :=
  default e (head (add_candidate c [e])).
Definition signal_step (g : MatchedSignal) (e : RankedCandidate) : RankedCandidate :=
  default e (head (add_signal g [e])).
Definition scored (interpretation : value) (fmt : str) : RankedCandidate :=
  foldl (λ e g, signal_step g e)
    (foldl (λ e c, candidate_step c e) (initial_candidate fmt)
       (default [] (array_field "output_type_candidates" interpretation)))
    (keyword_signals interpretation).

Lemma foldl_fmap_pointwise {A B C} (f : C -> A -> A) (F : C -> list A -> list A) (g : B -> A) cs l :
  (forall c l, F c l = f c <$> l) ->
  foldl (λ s c, F c s) (g <$> l) cs = (λ x, foldl (λ e c, f c e) (g x) cs) <$> l.
Proof.
  intros HF. revert g. induction cs as [|c cs IH]; intros g; simpl; [done|].
  rewrite HF, <- list_fmap_compose. apply (IH (f c ∘ g)).
Qed.

Lemma score_candidates_pointwise `{HashOrder} interpretation :
  score_candidates interpretation = scored interpretation <$> format_order.
Proof.
  unfold score_candidates, scored.
  rewrite (foldl_fmap_pointwise candidate_step add_candidate) by done.
  rewrite (foldl_fmap_pointwise signal_step add_signal) by done. done.
Qed.

Lemma scored_output_type interpretation fmt : output_type (scored interpretation fmt) = fmt.
Proof.
  unfold scored.
  assert (forall cs e, output_type (foldl (λ e c, candidate_step c e) e cs) = output_type e) as Hc.
  { induction cs as [|c cs IH]; intros e; simpl; [done|]. rewrite IH.
    unfold candidate_step, add_candidate, with_entry. simpl. by case_decide. }
  assert (forall gs e, output_type (foldl (λ e g, signal_step g e) e gs) = output_type e) as Hg.
  { induction gs as [|g gs IH]; intros e; simpl; [done|]. rewrite IH.
    unfold signal_step, add_signal, with_entry. simpl. by case_decide. }
  by rewrite Hg, Hc.
Qed.

Lemma rank_candidates_formats `{HashOrderLaws} interpretation :
  output_type <$> rank_candidates interpretation ≡ₚ ALLOWED_FORMATS.
Proof.
  unfold rank_candidates. rewrite <- list_fmap_compose.
  rewrite sort_by_perm, score_candidates_pointwise, <- list_fmap_compose.
  rewrite (list_fmap_ext _ Datatypes.id format_order).
  - by rewrite list_fmap_id, format_order_perm.
  - intros i fmt _. unfold compose. simpl. apply scored_output_type.
Qed.

Lemma rank_candidates_cons `{HashOrderLaws} interpretation :
  exists best rest, rank_candidates interpretation = best :: rest /\ output_type best ∈ ALLOWED_FORMATS.
Proof.
  pose proof (rank_candidates_formats interpretation) as Hp.
  destruct (rank_candidates interpretation) as [|best rest] eqn:E.
  - by apply Permutation_nil_l in Hp.
  - exists best, rest. split; [done|]. rewrite <- Hp. left.
Qed.
End Scoring.

Lemma resolved_allowed `{CaseTables} o :
  normalize_preferred_output_type o <> lit "auto" -> normalize_preferred_output_type o ∈ ALLOWED_FORMATS.
Proof.
  intros Hne. pose proof (normalized_allowed o) as Ha.
  unfold ALLOWED_OUTPUT_TYPES in Ha. apply elem_of_cons in Ha as [Ha|Ha]; [done|exact Ha].
Qed.

(** ** Properties *)

(** [decide] always returns a decision (the indexing of the ranking cannot panic), its output
    type is one of the three concrete formats, and the sources are tried in order: a concrete
    teacher preference, then a concrete constraint, then the first of the ranking. *)
Lemma decide_total `{CaseTables} `{HashOrderLaws} `{Rfc3339Millis} now interpretation preferred :
  let wanted := normalize_preferred_output_type preferred in
  let constraint := normalize_preferred_output_type
    (str_at ["constraints"; "preferred_output_type"] interpretation) in
  exists d,
    decide_output_type now {| di_interpretation := interpretation;
                              di_preferred_output_type := preferred |} = Some d /\
    do_resolved_output_type d ∈ ALLOWED_FORMATS /\
    output_type <$> do_ranked_candidates d ≡ₚ ALLOWED_FORMATS /\
    (wanted <> lit "auto" ->
       do_resolved_output_type d = wanted /\ do_decision_source d = lit "teacher_override") /\
    (wanted = lit "auto" -> constraint <> lit "auto" ->
       do_resolved_output_type d = constraint /\
       do_decision_source d = lit "interpretation_constraint") /\
    (wanted = lit "auto" -> constraint = lit "auto" ->
       Some (do_resolved_output_type d) = output_type <$> head (do_ranked_candidates d) /\
       do_decision_source d = lit "candidate_ranking").
Proof.
  intros wanted constraint. unfold decide_output_type. simpl. fold wanted. fold constraint.
  pose proof (rank_candidates_formats interpretation) as Hperm.
  destruct (decide (wanted <> lit "auto")) as [Hw|Hw].
  { eexists. split; [done|]. simpl. split; [by apply resolved_allowed|]. naive_solver. }
  destruct (decide (constraint <> lit "auto")) as [Hc|Hc].
  { eexists. split; [done|]. simpl. split; [by apply resolved_allowed|].
    apply dec_stable in Hw. naive_solver. }
  apply dec_stable in Hw, Hc.
  destruct (rank_candidates_cons interpretation) as (best & rest & Hr & Hin). rewrite Hr in *.
  eexists. split; [done|]. simpl. naive_solver.
Qed.

(** The ranking does not depend on the iteration order of the score map whenever the
    comparator orders the three entries linearly: if [x], [y], [z] are the formats and every
    earlier one beats every later one, the ranking is [x], [y], [z] for every order. *)
Lemma ranking_order_independent `{CaseTables} `{HashOrderLaws} interpretation x y z
  (Hformats : [x; y; z] ≡ₚ ALLOWED_FORMATS)
  (Hless : forall a b, (a, b) ∈ [(x, y); (x, z); (y, z)] ->
     is_less compare_candidates (scored interpretation a) (scored interpretation b) = true /\
     is_less compare_candidates (scored interpretation b) (scored interpretation a) = false) :
  rank_candidates interpretation =
  (λ fmt, (scored interpretation fmt) <| score := round4 (score (scored interpretation fmt)) |>)
    <$> [x; y; z].
Proof.
  destruct (Hless x y) as [Hxy Hyx]; [left|].
  destruct (Hless x z) as [Hxz Hzx]; [right; left|].
  destruct (Hless y z) as [Hyz Hzy]; [right; right; left|].
  unfold rank_candidates. rewrite score_candidates_pointwise.
  rewrite (sort_by_three _ _ (scored interpretation x) (scored interpretation y)
             (scored interpretation z)); try done.
  by rewrite format_order_perm, <- Hformats.
Qed.

(** Without that condition the ranking is not determined by its input: model scores 0.0022,
    0.0023 and 0.0024 for pptx, pdf and docx form a cycle of the comparator (neighbours count as
    tied, the ends do not), and two iteration orders of the score map resolve the same
    interpretation to different formats. *)
Lemma ranking_depends_on_hash_order :
  exists (CT : CaseTables) (interpretation : value) (o1 o2 : HashOrder) (T : Rfc3339Millis),
    @format_order o1 ≡ₚ ALLOWED_FORMATS /\ @format_order o2 ≡ₚ ALLOWED_FORMATS /\
    let input := {| di_interpretation := interpretation; di_preferred_output_type := None |} in
    do_resolved_output_type <$> @decide_output_type CT o1 T 0 input <>
    do_resolved_output_type <$> @decide_output_type CT o2 T 0 input.
Proof.
  set (cand := λ t n, obj [("type", jstr t); ("score", Number (NFloat (f64_lit n 4)))]).
  exists plain_case,
    (obj [("output_type_candidates", Array [cand "pptx" 22%Z; cand "pdf" 23%Z; cand "docx" 24%Z])]),
    [lit "docx"; lit "pdf"; lit "pptx"], [lit "pptx"; lit "docx"; lit "pdf"], z_to_string.
  split; [done|]. split; [exact (Permutation_app_comm [lit "pptx"] [lit "docx"; lit "pdf"])|].
  vm_compute. congruence.
Qed.

(** The tie break contradicts the reason it records: a candidate whose model score is higher
    by 0.0001 can count as tied, pptx then wins, and the reasoning says the priority order
    PDF > DOCX > PPTX was applied. *)
Lemma tie_break_contradicts_reasoning :
  exists (CT : CaseTables) (o : HashOrder) (T : Rfc3339Millis) (interpretation : value) d,
    array_field "output_type_candidates" interpretation =
      Some [obj [("type", jstr "pdf"); ("score", Number (NFloat (f64_lit 4501 4)))];
            obj [("type", jstr "pptx"); ("score", Number (NFloat (f64_lit 4500 4)))]] /\
    @decide_output_type CT o T 0 {| di_interpretation := interpretation;
                                    di_preferred_output_type := None |} = Some d /\
    do_resolved_output_type d = lit "pptx" /\ do_tie_breaker_applied d = true /\
    str_contains (do_reasoning d)
      (lit "the deterministic priority order PDF > DOCX > PPTX was applied") = true.
Proof.
  exists plain_case, ALLOWED_FORMATS, z_to_string,
    (obj [("output_type_candidates", Array
       [obj [("type", jstr "pdf"); ("score", Number (NFloat (f64_lit 4501 4)))];
        obj [("type", jstr "pptx"); ("score", Number (NFloat (f64_lit 4500 4)))]])]).
  eexists. split; [reflexivity|]. split; [vm_compute; reflexivity|].
  repeat split; vm_compute; reflexivity.
Qed.

(** ** Witnesses *)

Module DecisionWitness.
#[local] Existing Instance plain_case.
Definition listed_order : HashOrder := ALLOWED_FORMATS.
#[local] Existing Instance listed_order.
Lemma listed_order_laws : @HashOrderLaws listed_order.
Proof. exact (Permutation_refl ALLOWED_FORMATS). Qed.
#[local] Existing Instance listed_order_laws.
Definition millis : Rfc3339Millis := z_to_string.
#[local] Existing Instance millis.

Definition worksheet : value := obj [("teacher_prompt", jstr "Worksheet with slides, print it")].

Lemma decide_total_witness :
  exists d, decide_output_type 0 {| di_interpretation := worksheet;
                                    di_preferred_output_type := Some (lit "DOCX") |} = Some d /\
    do_resolved_output_type d = lit "docx".
Proof.
  destruct (decide_total 0 worksheet (Some (lit "DOCX"))) as (d & Hd & _ & _ & Hwanted & _).
  exists d. split; [exact Hd|]. apply Hwanted. vm_compute. discriminate.
Defined.

Lemma ranking_order_independent_witness :
  output_type <$> rank_candidates worksheet = [lit "pptx"; lit "pdf"; lit "docx"].
Proof.
  rewrite (ranking_order_independent worksheet (lit "pptx") (lit "pdf") (lit "docx")).
  - vm_compute. reflexivity.
  - unfold ALLOWED_FORMATS. apply (Permutation_rev [lit "pptx"; lit "pdf"; lit "docx"]).
  - intros a b Hin. rewrite !elem_of_cons in Hin.
    destruct Hin as [[= -> ->]|[[= -> ->]|[[= -> ->]|[]%not_elem_of_nil]]];
      split; vm_compute; reflexivity.
Defined.
End DecisionWitness.
