(* ===== verification/Order.v ===== *)
(** * Comparators and the stable sort

    A comparator that orders its elements ([Good]: reversing the arguments reverses the answer, and
    "not greater" is transitive) makes [sort_by] return the one sorted permutation that keeps equal
    elements in their order. Comparators are built from keys with [then_with]. *)

From stdpp Require Import base list option sorting.
From Stdlib Require Import ZArith Lia Floats.SpecFloat.
From S2P Require Import Prelude RustStr Floats Canon Decision.
#[local] Open Scope Z_scope.

(** [a.then_with(|| b)]. *)
Definition then_with (a b : comparison) : comparison := match a with Eq => b | _ => a end.

Class Good {A} (cmp : A -> A -> comparison) := {
  good_sym : forall a b, cmp b a = CompOpp (cmp a b);
  good_trans : forall a b c, cmp a b <> Gt -> cmp b c <> Gt -> cmp a c <> Gt
}.

Section Good.
Context {A : Type}.
Implicit Types cmp : A -> A -> comparison.

Lemma good_refl cmp `{!Good cmp} a : cmp a a = Eq.
Proof. pose proof (good_sym (cmp := cmp) a a) as H. by destruct (cmp a a). Qed.
Lemma good_lt_le cmp `{!Good cmp} a b c : cmp a b = Lt -> cmp b c <> Gt -> cmp a c = Lt.
Proof.
  intros Hab Hbc. destruct (cmp a c) eqn:Hac; [|done|].
  - assert (cmp c a <> Gt) as Hca by (rewrite (good_sym (cmp := cmp) a c), Hac; done).
    destruct (good_trans (cmp := cmp) b c a Hbc Hca). by rewrite (good_sym (cmp := cmp) a b), Hab.
  - destruct (good_trans (cmp := cmp) a b c); [by rewrite Hab|done|done].
Qed.
Lemma good_le_lt cmp `{!Good cmp} a b c : cmp a b <> Gt -> cmp b c = Lt -> cmp a c = Lt.
Proof.
  intros Hab Hbc. destruct (cmp a c) eqn:Hac; [|done|].
  - assert (cmp c a <> Gt) as Hca by (rewrite (good_sym (cmp := cmp) a c), Hac; done).
    destruct (good_trans (cmp := cmp) c a b Hca Hab). by rewrite (good_sym (cmp := cmp) b c), Hbc.
  - destruct (good_trans (cmp := cmp) a b c); [done|by rewrite Hbc|done].
Qed.
Lemma good_eq cmp `{!Good cmp} a b c : cmp a b = Eq -> cmp a c = cmp b c.
Proof.
  intros Hab. assert (cmp b a = Eq) as Hba by (by rewrite (good_sym (cmp := cmp) a b), Hab).
  destruct (cmp b c) eqn:Hbc.
  - destruct (cmp a c) eqn:Hac; [done| |].
    + apply (good_le_lt cmp b a c) in Hac; [congruence|by rewrite Hba].
    + destruct (good_trans (cmp := cmp) a b c); [by rewrite Hab|by rewrite Hbc|done].
  - by apply (good_le_lt cmp a b c); [rewrite Hab|].
  - destruct (cmp a c) eqn:Hac; [| |done].
    + destruct (good_trans (cmp := cmp) b a c); [by rewrite Hba|by rewrite Hac|done].
    + destruct (good_trans (cmp := cmp) b a c); [by rewrite Hba|by rewrite Hac|done].
Qed.

#[export] Instance good_then cmp1 cmp2 :
  Good cmp1 -> Good cmp2 -> Good (λ a b, then_with (cmp1 a b) (cmp2 a b)).
Proof.
  intros H1 H2. split.
  - intros a b. rewrite (good_sym (cmp := cmp1) a b), (good_sym (cmp := cmp2) a b). by destruct (cmp1 a b).
  - intros a b c. destruct (cmp1 a b) eqn:Hab; [| |done]; cbn [then_with].
    + rewrite (good_eq cmp1 a b c) by done. destruct (cmp1 b c); cbn [then_with]; [apply good_trans|done|done].
    + intros _ Hbc. rewrite (good_lt_le cmp1 a b c); [done|done|]. by destruct (cmp1 b c).
Qed.
End Good.

#[export] Instance good_key {A B} (cmp : B -> B -> comparison) (key : A -> B) :
  Good cmp -> Good (λ a b, cmp (key a) (key b)).
Proof. intros H. split; intros *; [apply good_sym|apply good_trans]. Qed.
(** [b.k.cmp(&a.k)]. *)
#[export] Instance good_flip {A} (cmp : A -> A -> comparison) : Good cmp -> Good (λ a b, cmp b a) | 10.
Proof.
  intros H. split; intros *; [apply good_sym|].
  intros Hba Hcb. by apply (good_trans (cmp := cmp) c b a).
Qed.
Lemma good_of_spec {A} (cmp : A -> A -> comparison) (lt : A -> A -> Prop) :
  (forall a b, CompareSpec (a = b) (lt a b) (lt b a) (cmp a b)) ->
  (forall a, ~ lt a a) -> (forall a b c, lt a b -> lt b c -> lt a c) -> Good cmp.
Proof.
  intros Hspec Hirr Htrans.
  assert (forall a b, lt a b -> cmp a b = Lt) as Hlt.
  { intros a b Hab. destruct (Hspec a b) as [->|_|Hba]; [by destruct (Hirr b)|done|].
    destruct (Hirr a). by apply (Htrans a b a). }
  assert (forall a, cmp a a = Eq) as Hrefl.
  { intros a. destruct (Hspec a a) as [_|H|H]; [done| |]; by destruct (Hirr a). }
  split.
  - intros a b. destruct (Hspec a b) as [->|Hab|Hba]; [by rewrite Hrefl| |].
    + destruct (Hspec b a) as [->|Hba|_]; [by destruct (Hirr a)| |done]. destruct (Hirr a). by apply (Htrans a b a).
    + by rewrite (Hlt b a).
  - intros a b c. destruct (Hspec a b) as [->|Hab|_]; [done| |done].
    destruct (Hspec b c) as [->|Hbc|_]; [by rewrite Hlt| |done]. by rewrite (Hlt a c) by by apply (Htrans a b c).
Qed.

#[export] Instance good_Z : Good Z.compare.
Proof. apply (good_of_spec _ Z.lt); [exact Z.compare_spec|lia|lia]. Qed.

Fixpoint str_lt (a b : str) : Prop :=
  match a, b with
  | _, [] => False
  | [], _ => True
  | x :: a, y :: b => x < y \/ x = y /\ str_lt a b
  end.
#[export] Instance good_str : Good str_cmp.
Proof.
  apply (good_of_spec _ str_lt).
  - intros a. induction a as [|x a IH]; intros [|y b]; cbn; try by constructor.
    destruct (Z.compare_spec x y) as [->|Hxy|Hxy]; [|constructor; by left|constructor; by left].
    destruct (IH b) as [->|H|H]; constructor; [done|right; split; [done|exact H]|right; split; [done|exact H]].
  - intros a. induction a as [|x a IH]; cbn; [by intros []|]. intros [|[_ H]]; [lia|exact (IH H)].
  - intros a. induction a as [|x a IH]; intros [|y b] [|z c]; cbn; try done.
    intros [|[-> Hab]] [|[-> Hbc]]; [left; lia|by left|by left|right; eauto].
Qed.

(** The doubles that are numbers, by sign, exponent and mantissa. *)
Definition f64_key (f : f64) : Z * (Z * Z) :=
  match f with
  | S754_nan => (3, (0, 0))
  | S754_infinity s => (if s then -2 else 2, (0, 0))
  | S754_zero _ => (0, (0, 0))
  | S754_finite s m e => if s then (-1, (- e, Zneg m)) else (1, (e, Zpos m))
  end.
Definition key_cmp (a b : Z * (Z * Z)) : comparison :=
  then_with (a.1 ?= b.1) (then_with (a.2.1 ?= b.2.1) (a.2.2 ?= b.2.2)).
#[export] Instance good_key_cmp : Good key_cmp.
Proof. unfold key_cmp. apply _. Qed.
Lemma f64_cmp_key a b : a <> S754_nan -> b <> S754_nan -> f64_cmp a b = Some (key_cmp (f64_key a) (f64_key b)).
Proof.
  intros Ha Hb. unfold f64_cmp. destruct a as [[]|[]| |[] m e], b as [[]|[]| |[] m' e']; try done; cbn.
  - unfold key_cmp. cbn [f64_key fst snd]. rewrite Z.compare_opp, (Z.compare_antisym e e').
    change (-1 ?= -1) with Eq. cbn [then_with]. by destruct (e ?= e').
  - unfold key_cmp. cbn. by destruct (e ?= e').
Qed.

(** ** The sort *)

Section Sort.
Context {A : Type} (cmp : A -> A -> comparison).

Lemma sort_by_ext (cmp' : A -> A -> comparison) l :
  (forall a b, a ∈ l -> b ∈ l -> cmp a b = cmp' a b) -> sort_by cmp l = sort_by cmp' l.
Proof.
  intros Hext. unfold sort_by. f_equal.
  assert (forall acc, (forall a b, a ∈ l -> b ∈ l ++ acc -> cmp a b = cmp' a b) ->
    foldl (λ acc x, insert_tail cmp x acc) acc l = foldl (λ acc x, insert_tail cmp' x acc) acc l) as Hgen.
  { clear Hext. induction l as [|x l IH]; intros acc Hext; [done|]. cbn [foldl].
    assert (insert_tail cmp x acc = insert_tail cmp' x acc) as <-.
    { assert (forall b, b ∈ acc -> cmp x b = cmp' x b) as Hacc
        by (intros b Hb; apply Hext; [by left|apply elem_of_app; by right]).
      clear -Hacc. induction acc as [|y acc IH]; cbn; [done|]. unfold is_less. rewrite Hacc by by left.
      rewrite IH; [done|]. intros b Hb. apply Hacc. by right. }
    apply IH. intros a b Ha Hb. apply Hext; [by right|]. rewrite insert_tail_perm in Hb.
    revert Hb. rewrite !elem_of_app, !elem_of_cons. tauto. }
  apply Hgen. intros a b Ha. rewrite app_nil_r. by apply Hext.
Qed.

Context `{!Good cmp}.
Notation le := (λ a b, cmp a b <> Gt).

Lemma sort_by_sorted l : StronglySorted le (sort_by cmp l).
Proof.
  assert (forall x acc, StronglySorted (λ a b, cmp b a <> Gt) acc ->
    StronglySorted (λ a b, cmp b a <> Gt) (insert_tail cmp x acc)) as Hins.
  { intros x acc. induction 1 as [|y acc Hacc IH Hy]; cbn; [constructor; constructor|].
    unfold is_less. destruct (cmp x y) eqn:Hxy.
    - constructor; [by constructor|]. constructor; [by rewrite (good_sym (cmp := cmp) x y), Hxy|].
      eapply Forall_impl; [exact Hy|]. cbn. intros z Hz. apply (good_trans (cmp := cmp) z y x); [done|].
      by rewrite (good_sym (cmp := cmp) x y), Hxy.
    - constructor; [done|]. rewrite Forall_forall in *. intros z. rewrite insert_tail_perm, elem_of_cons.
      intros [->|Hz]; [by rewrite Hxy|by apply Hy].
    - constructor; [by constructor|]. constructor; [by rewrite (good_sym (cmp := cmp) x y), Hxy|].
      eapply Forall_impl; [exact Hy|]. cbn. intros z Hz. apply (good_trans (cmp := cmp) z y x); [done|].
      by rewrite (good_sym (cmp := cmp) x y), Hxy. }
  unfold sort_by.
  assert (forall acc, StronglySorted (λ a b, cmp b a <> Gt) acc ->
    StronglySorted (λ a b, cmp b a <> Gt) (foldl (λ acc x, insert_tail cmp x acc) acc l)) as Hfold.
  { induction l as [|x l IH]; intros acc Hacc; [done|]. by apply IH, Hins. }
  specialize (Hfold [] (SSorted_nil _)). revert Hfold. generalize (foldl (λ acc x, insert_tail cmp x acc) [] l).
  clear. intros acc. induction 1 as [|y acc Hacc IH Hy]; [constructor|]. rewrite reverse_cons.
  revert IH. assert (forall z, z ∈ reverse acc -> cmp z y <> Gt) as Hz.
  { intros z Hz. rewrite elem_of_reverse in Hz. rewrite Forall_forall in Hy. by apply Hy. }
  clear Hy Hacc. induction (reverse acc) as [|z l IH]; intros Hl; cbn; [by repeat constructor|].
  inversion Hl as [|? ? Hl' Hall]; subst. constructor.
  - apply IH; [intros w Hw; apply Hz; by right|done].
  - apply Forall_app. split; [done|]. constructor; [|constructor]. apply Hz. by left.
Qed.

Definition same (z y : A) : bool := match cmp z y with Eq => true | _ => false end.

(** Equal elements keep their order. *)
Lemma sort_by_stable z l : List.filter (same z) (sort_by cmp l) = List.filter (same z) l.
Proof.
  assert (forall x acc, List.filter (same z) (insert_tail cmp x acc) = List.filter (same z) (x :: acc)) as Hins.
  { intros x acc. induction acc as [|y acc IH]; [done|]. cbn [insert_tail]. unfold is_less.
    destruct (cmp x y) eqn:Hxy; [done| |done]. cbn [List.filter] in *. rewrite IH.
    destruct (same z y) eqn:Hy, (same z x) eqn:Hx; try done. exfalso. unfold same in *.
    destruct (cmp z x) eqn:Ezx, (cmp z y) eqn:Ezy; try done.
    rewrite <- (good_eq cmp z x y) in Hxy by done. congruence. }
  unfold sort_by.
  assert (forall acc, List.filter (same z) (reverse (foldl (λ acc x, insert_tail cmp x acc) acc l))
    = List.filter (same z) (reverse acc ++ l)) as Hfold.
  { induction l as [|x l IH]; intros acc; cbn [foldl]; [by rewrite app_nil_r|]. rewrite IH.
    rewrite !List.filter_app.
    assert (forall m : list A, List.filter (same z) (reverse m) = reverse (List.filter (same z) m)) as Hrev.
    { intros m. unfold reverse. by rewrite <- !List.rev_alt, List.filter_rev. }
    rewrite !Hrev, Hins. cbn [List.filter]. destruct (same z x); [|done]. by rewrite reverse_cons, <- app_assoc. }
  apply (Hfold []).
Qed.

(** What is sorted is determined by the order of its equal elements. *)
Lemma sorted_unique l1 l2 :
  StronglySorted le l1 -> StronglySorted le l2 ->
  (forall z, List.filter (same z) l1 = List.filter (same z) l2) -> l1 = l2.
Proof.
  assert (forall a, same a a = true) as Hrefl by (intros a; unfold same; by rewrite good_refl).
  assert (forall (a : A) l, a ∈ List.filter (same a) l -> a ∈ l) as Hin.
  { intros a l Ha%list_elem_of_In. apply List.filter_In in Ha as [Ha _]. by apply list_elem_of_In. }
  intros H1. revert l2. induction H1 as [|a l1 Hs1 IH Ha]; intros l2 H2 Heq.
  - destruct l2 as [|b l2]; [done|]. specialize (Heq b). cbn in Heq. by rewrite Hrefl in Heq.
  - destruct H2 as [|b l2 Hs2 Hb].
    { specialize (Heq a). cbn in Heq. by rewrite Hrefl in Heq. }
    assert (cmp a b <> Gt) as Hab.
    { pose proof (Heq b) as Hb'. cbn [List.filter] in Hb'. rewrite Hrefl in Hb'.
      assert (b ∈ a :: l1) as [->|Hbl]%elem_of_cons; [|by rewrite good_refl|rewrite Forall_forall in Ha; by apply Ha].
      apply Hin. cbn [List.filter]. rewrite Hb'. by left. }
    assert (cmp b a <> Gt) as Hba.
    { pose proof (Heq a) as Ha'. cbn [List.filter] in Ha'. rewrite Hrefl in Ha'.
      assert (a ∈ b :: l2) as [->|Hal]%elem_of_cons; [|by rewrite good_refl|rewrite Forall_forall in Hb; by apply Hb].
      apply Hin. cbn [List.filter]. rewrite <- Ha'. by left. }
    assert (same a b = true) as Hsame.
    { unfold same. rewrite (good_sym (cmp := cmp) a b) in Hba. by destruct (cmp a b). }
    pose proof (Heq a) as Ha'. cbn [List.filter] in Ha'. rewrite Hrefl, Hsame in Ha'. injection Ha' as <- _.
    f_equal. apply IH; [done|]. intros z. specialize (Heq z). cbn [List.filter] in Heq.
    destruct (same z a); [by injection Heq|done].
Qed.

Lemma sort_by_unique l l' :
  (forall z, List.filter (same z) l = List.filter (same z) l') -> sort_by cmp l = sort_by cmp l'.
Proof.
  intros Heq. apply sorted_unique; [apply sort_by_sorted|apply sort_by_sorted|].
  intros z. by rewrite !sort_by_stable.
Qed.
End Sort.

(** ** Filters and permutations *)

Lemma filter_bool_perm {A} (f : A -> bool) l l' : l ≡ₚ l' -> List.filter f l ≡ₚ List.filter f l'.
Proof.
  induction 1 as [|x l l' _ IH|x y l|l l' l'' _ IH _ IH']; cbn; [done| | |by rewrite IH].
  - by destruct (f x); rewrite IH.
  - destruct (f x), (f y); [apply perm_swap|done|done|done].
Qed.
Lemma filter_comm {A} (f g : A -> bool) l : List.filter f (List.filter g l) = List.filter g (List.filter f l).
Proof.
  induction l as [|x l IH]; [done|]. cbn. destruct (g x) eqn:Eg, (f x) eqn:Ef; cbn; rewrite ?Eg, ?Ef; by rewrite IH.
Qed.

Section SortFilter.
Context {A : Type} (cmp : A -> A -> comparison) `{!Good cmp}.
Notation le := (λ a b, cmp a b <> Gt).

Lemma filter_sorted (f : A -> bool) l : StronglySorted le l -> StronglySorted le (List.filter f l).
Proof.
  induction 1 as [|a l Hl IH Ha]; cbn; [constructor|]. destruct (f a); [|done]. constructor; [done|].
  rewrite Forall_forall in *. intros b Hb%list_elem_of_In. apply List.filter_In in Hb as [Hb _].
  by apply Ha, list_elem_of_In.
Qed.
Lemma sort_by_filter (f : A -> bool) l : List.filter f (sort_by cmp l) = sort_by cmp (List.filter f l).
Proof.
  apply (sorted_unique cmp); [apply filter_sorted; by apply sort_by_sorted|by apply sort_by_sorted|].
  intros z. by rewrite filter_comm, !sort_by_stable, filter_comm by done.
Qed.
Lemma sort_by_id l : StronglySorted le l -> sort_by cmp l = l.
Proof.
  intros Hl. apply (sorted_unique cmp); [by apply sort_by_sorted|done|]. intros z. by apply sort_by_stable.
Qed.
Lemma take_sorted n l : StronglySorted le l -> StronglySorted le (take n l).
Proof.
  intros Hl. revert n. induction Hl as [|a l Hl IH Ha]; intros [|n]; cbn; try constructor; [apply IH|].
  by apply Forall_take.
Qed.
End SortFilter.

Lemma good_desc {A B} (cmp : B -> B -> comparison) (key : A -> B) : Good cmp -> Good (λ a b, cmp (key b) (key a)).
Proof. intros H. apply (good_flip (λ a b, cmp (key a) (key b))), (good_key cmp key), H. Qed.
