(* ===== verification/Taxonomy.v ===== *)
(** * Inferring the taxonomy of a prompt (src/src/recommendation/taxonomy.rs)

    A prompt is compared with the entries of the curriculum by phrases, shared words and the school
    level it names; the best entry is the subject of the prompt, and its sub-subject when the signals
    are strong enough. The rows of subjects.json are an argument. *)

From stdpp Require Import base list option strings sorting.
From Stdlib Require Import ZArith Lia Floats.SpecFloat.
From S2P Require Import Prelude RustStr Json Floats Canon Text Standards Decision Order.
#[local] Open Scope Z_scope.

Definition STOPWORDS : list string :=
  ["agar"; "ajar"; "aku"; "analisis"; "buat"; "buatkan"; "contoh"; "dan";
   "dengan"; "di"; "dokumen"; "file"; "guru"; "handout"; "kelas"; "kuis";
   "latihan"; "lembar"; "materi"; "modul"; "pada"; "pdf"; "pelajaran";
   "pembelajaran"; "ppt"; "pptx"; "ringkas"; "saya"; "semester"; "sebuah";
   "slide"; "siswa"; "soal"; "tentang"; "untuk"; "yang"]%string.
Definition SCORE_NORMALIZER : f64 := f64_of_z 24.
Definition MINIMUM_CONFIDENCE_SCORE : f64 := f64_lit 25 2.
Definition VERSION : str := lit "media_prompt_taxonomy_inference.v1".

(** ** Types *)

Record TaxonomyEntry := mkTaxonomyEntry {
  en_catalog_index : nat;
  en_jenjang : option str;
  en_subject_name : str;
  en_subject_slug : str;
  en_kelas : option Z;
  en_semester : option Z;
  en_bab : option Z;
  en_sub_subject_name : str;
  en_sub_subject_slug : str;
  en_description : str;
  en_is_active : bool;
  en_content_structure : str;
  en_structure_items : list str;
  en_normalized_subject : str;
  en_normalized_sub_subject : str
}.
Record PromptContext := mkPromptContext {
  pc_jenjang : option str;
  pc_kelas : option Z;
  pc_semester : option Z;
  pc_bab : option Z
}.
Record MatchSignal := mkMatchSignal {
  ms_subject_phrase_match : bool;
  ms_sub_subject_phrase_match : bool;
  ms_subject_overlap : nat;
  ms_sub_subject_overlap : nat;
  ms_description_overlap : nat;
  ms_structure_overlap : nat;
  ms_jenjang_match : option bool;
  ms_kelas_match : option bool;
  ms_semester_match : option bool;
  ms_bab_match : option bool
}.
Record CandidateScore := mkCandidateScore {
  ca_entry : TaxonomyEntry;
  ca_raw_score : f64;
  ca_normalized_score : f64;
  ca_signal : MatchSignal
}.
Record ConfidenceInfo := mkConfidenceInfo {
  ci_score : f64;
  ci_label : string;
  ci_sub_subject_attached : bool
}.
Record BestMatch := mkBestMatch {
  bm_jenjang : option str;
  bm_kelas : option Z;
  bm_semester : option Z;
  bm_bab : option Z;
  bm_subject_name : str;
  bm_subject_slug : str;
  bm_subject_id : option Z;
  bm_sub_subject_name : option str;
  bm_sub_subject_slug : option str;
  bm_sub_subject_id : option Z;
  bm_description : str;
  bm_content_structure : str;
  bm_structure_items : list str;
  bm_matched_signals : list string
}.
Record CandidateSummary := mkCandidateSummary {
  su_subject_name : str;
  su_subject_slug : str;
  su_sub_subject_name : str;
  su_sub_subject_slug : str;
  su_jenjang : option str;
  su_kelas : option Z;
  su_score : f64;
  su_label : string
}.
Record TaxonomyInferenceResult := mkTaxonomyInferenceResult {
  tr_schema_version : str;
  tr_source : string;
  tr_prompt_context : PromptContext;
  tr_confidence : ConfidenceInfo;
  tr_best_match : BestMatch;
  tr_candidate_matches : list CandidateSummary
}.

(** ** Text *)

(** [Regex::replace_all] with a class of characters and [+]: each run becomes [to]. *)
Fixpoint replace_runs (p : Z -> bool) (to : str) (in_run : bool) (s : str) : str :=
  match s with
  | [] => []
  | c :: s => if p c then (if in_run then [] else to) ++ replace_runs p to true s
              else c :: replace_runs p to false s
  end.

(** The classes \p{L} and \p{N} above ASCII, and [replace_all] of any other expression. *)
Class UnicodeClasses := {
  letter_or_number_table : Z -> bool;
  re_replace_all : str -> str -> str -> str
}.
(** No letter or number is white space. *)
Class UnicodeClassLaws `{UnicodeClasses} :=
  letters_visible : forall c, letter_or_number_table c = true -> is_whitespace c = false.

Definition ascii_alphanumeric (c : Z) : bool :=
  is_ascii_digit c || (65 <=? c) && (c <=? 90) || (97 <=? c) && (c <=? 122).
Definition letter_or_number `{UnicodeClasses} (c : Z) : bool :=
  if c <? 128 then ascii_alphanumeric c else letter_or_number_table c.

(** [slug.trim_matches(c)]. *)
Fixpoint trim_start_matches (c : Z) (s : str) : str :=
  match s with
  | d :: s' => if d =? c then trim_start_matches c s' else s
  | [] => []
  end.
Definition trim_matches (c : Z) (s : str) : str :=
  reverse (trim_start_matches c (reverse (trim_start_matches c s))).

(** [s.split(c)]: at least one part. *)
Fixpoint split_char (c : Z) (s : str) : list str :=
  match s with
  | [] => [[]]
  | d :: s' => if d =? c then [] :: split_char c s'
               else match split_char c s' with p :: ps => (d :: p) :: ps | [] => [[d]] end
  end.

(** [v.sort()] and [v.dedup()] on strings. *)
Definition sort_str (l : list str) : list str := sort_by str_cmp l.
Fixpoint dedup (l : list str) : list str :=
  match l with
  | [] => []
  | x :: l' => x :: match dedup l' with y :: r => if bool_decide (x = y) then r else y :: r | [] => [] end
  end.

Section Taxonomy.
Context `{CaseTables} `{Regexes} `{UnicodeClasses} `{JsonLex}.

Definition normalize_search_text (value : str) : str :=
  let normalized := to_lowercase value in
  let result := replace_runs (λ c, negb (letter_or_number c)) (lit " ") false normalized in
  let result := trim result in
  replace_runs is_whitespace (lit " ") false result.

Definition tokenize_search_text (value : str) : list str :=
  match normalize_search_text value with
  | [] => []
  | normalized => List.filter (λ t, negb (bool_decide (t = []))) (split_whitespace normalized)
  end.

Definition filtered_tokens (text : str) : list str :=
  List.filter (λ token,
    if bool_decide (token = []) || forallb is_ascii_digit token then false
    else if bool_decide (token ∈ (lit <$> STOPWORDS)) then false
    else (2 <=? length token)%nat) (tokenize_search_text text).

Definition slugify (value : str) : str :=
  let slug := replace_runs (λ c, negb (ascii_alphanumeric c)) (lit "-") false value in
  to_lowercase (trim_matches 45 slug).

Definition text_value (value : option value) : str :=
  match value with
  | Some (String s) => s
  | Some v => json_text v
  | None => []
  end.

Definition normalize_text_value (value : option value) : str :=
  match value with
  | Some (String s) => trim s
  | Some (Array arr) =>
      join (lit ", ") (omap (λ v, match text_value (Some v) with [] => None | t => Some t end) arr)
  | Some (Number n) => json_number n
  | Some (Bool b) => if b then lit "true" else lit "false"
  | _ => []
  end.

Definition structure_items (content_structure : str) : list str :=
  match content_structure with
  | [] => []
  | _ =>
      let normalized := re_replace_all (lit "\s+(dan|and)\s+") (lit ", ") content_structure in
      List.filter (λ part, negb (bool_decide (part = [])))
        ((λ part, replace_runs is_whitespace (lit " ") false (trim part)) <$> split_char 44 normalized)
  end.

(** ** The catalog *)

Definition normalize_entry (row : value) (index : nat) : option TaxonomyEntry :=
  subject ← get (lit "subject") row; subject ← as_str subject;
  let subject_name := trim subject in
  sub_subject ← get (lit "sub_subject") row; sub_subject ← as_str sub_subject;
  let sub_subject_name := trim sub_subject in
  if bool_decide (subject_name = []) || bool_decide (sub_subject_name = []) then None
  else
    let description :=
      normalize_text_value (option_or (get (lit "deskripsi_singkat") row) (get (lit "description") row)) in
    let raw_content_structure :=
      match option_or (get (lit "Structure of content") row) (get (lit "structure_of_content") row) with
      | Some v => text_value (Some v)
      | None => []
      end in
    let text key := get (lit key) row ≫= as_str in
    let number key := get (lit key) row ≫= as_i64 in
    Some (mkTaxonomyEntry (S index)
      (j ← text "jenjang"; let j := trim (to_uppercase j) in if bool_decide (j = []) then None else Some j)
      subject_name (slugify (default subject_name (text "subject_slug")))
      (number "kelas") (number "semester") (number "bab")
      sub_subject_name (slugify (default sub_subject_name (text "sub_subject_slug")))
      description (default true (get (lit "is_active") row ≫= as_bool))
      (normalize_text_value (Some (String raw_content_structure))) (structure_items raw_content_structure)
      (normalize_search_text subject_name) (normalize_search_text sub_subject_name)).

(** [entries] on the rows of subjects.json. *)
Definition entries (raw : list value) : list TaxonomyEntry :=
  omap (λ '(idx, row), normalize_entry row idx) (imap pair raw).

(** ** The context of a prompt *)

Definition contains_word (text word : str) : bool := re_is_match (word_regex word) text.
Definition detect_jenjang (text : str) : option str :=
  let normalized := normalize_search_text text in
  if contains_word normalized (lit "smk") || str_contains normalized (lit "sekolah menengah kejuruan")
  then Some (lit "SMK")
  else if contains_word normalized (lit "sma") || str_contains normalized (lit "sekolah menengah atas")
  then Some (lit "SMA")
  else if contains_word normalized (lit "smp") || str_contains normalized (lit "sekolah menengah pertama")
  then Some (lit "SMP")
  else if contains_word normalized (lit "sd") || str_contains normalized (lit "sekolah dasar")
  then Some (lit "SD")
  else None.

Definition roman_to_int (token : str) : option Z :=
  match_lit (to_uppercase token)
    ((λ '(s, n), (lit s, n)) <$>
     [("I", 1); ("II", 2); ("III", 3); ("IV", 4); ("V", 5); ("VI", 6); ("VII", 7); ("VIII", 8);
      ("IX", 9); ("X", 10); ("XI", 11); ("XII", 12)]%string).
Definition detect_class_number (text : str) : option Z :=
  token ← re_captures1
    (lit "(?i)\b(?:kelas|grade)\s+([0-9]{1,2}|xii|xi|ix|viii|vii|vi|x|v|iv|iii|ii|i)\b") text;
  let token := to_lowercase token in
  match parse_i64 token with Some n => Some n | None => roman_to_int token end.
Definition detect_number_by_label (text : str) (labels : list string) : option Z :=
  n ← re_captures1 (lit "(?i)\b(?:" ++ join (lit "|") (lit <$> labels) ++ lit ")\s+([0-9]{1,2})\b") text;
  parse_i64 n.
Definition prompt_context (text : str) : PromptContext :=
  mkPromptContext (detect_jenjang text) (detect_class_number text)
    (detect_number_by_label text ["semester"%string]) (detect_number_by_label text ["bab"; "chapter"]%string).

(** ** Scores *)

Definition contains_phrase (haystack needle : str) : bool :=
  let haystack := trim haystack in
  let needle := trim needle in
  if bool_decide (haystack = []) || bool_decide (needle = []) then false
  else str_contains (lit " " ++ haystack ++ lit " ") (lit " " ++ needle ++ lit " ").
Definition overlap_count (prompt_tokens candidate_tokens : list str) : nat :=
  if bool_decide (prompt_tokens = []) || bool_decide (candidate_tokens = []) then 0%nat
  else
    let deduped := dedup (sort_str candidate_tokens) in
    length (List.filter (λ t, bool_decide (t ∈ deduped)) prompt_tokens).
Definition matches_context (prompt_val entry_val : option str) : option bool :=
  match prompt_val, entry_val with
  | Some p, Some e => if bool_decide (p = []) then None else Some (bool_decide (to_lowercase p = to_lowercase e))
  | _, _ => None
  end.
Definition matches_context_i64 (prompt_val entry_val : option Z) : option bool :=
  match prompt_val, entry_val with
  | Some p, Some e => Some (p =? e)
  | _, _ => None
  end.
Definition f64_min (a b : f64) : f64 := if f64_lt b a then b else a.
Definition normalize_score (raw_score : f64) : f64 :=
  round4 (f64_min (f64_of_z 1) (f64_max f64_zero (f64_div raw_score SCORE_NORMALIZER))).

Definition signal_of (entry : TaxonomyEntry) (normalized_prompt : str) (prompt_tokens : list str)
    (prompt_ctx : PromptContext) : MatchSignal :=
  let structure_tokens := dedup (sort_str (en_structure_items entry ≫= filtered_tokens)) in
  mkMatchSignal
    (contains_phrase normalized_prompt (en_normalized_subject entry))
    (contains_phrase normalized_prompt (en_normalized_sub_subject entry))
    (overlap_count prompt_tokens (filtered_tokens (en_subject_name entry)))
    (overlap_count prompt_tokens (filtered_tokens (en_sub_subject_name entry)))
    (min 4 (overlap_count prompt_tokens (filtered_tokens (en_description entry))))
    (min 3 (overlap_count prompt_tokens structure_tokens))
    (matches_context (pc_jenjang prompt_ctx) (en_jenjang entry))
    (matches_context_i64 (pc_kelas prompt_ctx) (en_kelas entry))
    (matches_context_i64 (pc_semester prompt_ctx) (en_semester entry))
    (matches_context_i64 (pc_bab prompt_ctx) (en_bab entry)).

(** What agreement, disagreement and silence on a dimension add. *)
Definition context_score (m : option bool) (agree disagree : f64) : f64 :=
  match m with Some true => agree | Some false => disagree | None => f64_zero end.
Definition weighted (n : nat) (weight : f64) : f64 := f64_mul (f64_of_z (Z.of_nat n)) weight.
Definition raw_score_of (signal : MatchSignal) (prompt_ctx : PromptContext) : f64 :=
  let s := f64_zero in
  let s := if ms_subject_phrase_match signal then f64_add s (f64_of_z 7) else s in
  let s := if ms_sub_subject_phrase_match signal then f64_add s (f64_of_z 12) else s in
  let s := f64_add s (weighted (ms_subject_overlap signal) (f64_lit 15 1)) in
  let s := f64_add s (weighted (ms_sub_subject_overlap signal) (f64_lit 275 2)) in
  let s := f64_add s (weighted (ms_description_overlap signal) (f64_lit 75 2)) in
  let s := f64_add s (weighted (ms_structure_overlap signal) (f64_lit 35 2)) in
  let s := f64_add s (context_score (ms_jenjang_match signal) (f64_lit 45 1) (f64_of_z (-6))) in
  let s := f64_add s (context_score (ms_kelas_match signal) (f64_lit 55 1) (f64_of_z (-7))) in
  let s := f64_add s (context_score (ms_semester_match signal) (f64_lit 15 1) (f64_of_z (-1))) in
  let s := f64_add s (context_score (ms_bab_match signal) (f64_lit 15 1) (f64_lit (-75) 2)) in
  let s := if bool_decide (is_Some (pc_kelas prompt_ctx)) && bool_decide (ms_kelas_match signal = Some true)
              && ms_subject_phrase_match signal then f64_add s (f64_lit 15 1) else s in
  let s := if bool_decide (is_Some (pc_jenjang prompt_ctx)) && bool_decide (ms_jenjang_match signal = Some true)
              && (0 <? ms_subject_overlap signal)%nat then f64_add s (f64_of_z 1) else s in
  f64_max f64_zero (round4 s).
Definition score_entry (entry : TaxonomyEntry) (normalized_prompt : str) (prompt_tokens : list str)
    (prompt_ctx : PromptContext) : CandidateScore :=
  let signal := signal_of entry normalized_prompt prompt_tokens prompt_ctx in
  let raw_score := raw_score_of signal prompt_ctx in
  mkCandidateScore entry raw_score (normalize_score raw_score) signal.

(** ** The inference *)

Definition should_attach_sub_subject (best : CandidateScore) (runner_up : option CandidateScore) : bool :=
  let signal := ca_signal best in
  if ms_sub_subject_phrase_match signal then true
  else if (2 <=? ms_sub_subject_overlap signal)%nat || (2 <=? ms_description_overlap signal)%nat then true
  else if bool_decide (ms_semester_match signal = Some true) || bool_decide (ms_bab_match signal = Some true) then true
  else if negb (ms_subject_phrase_match signal) && (ms_subject_overlap signal =? 0)%nat then false
  else match runner_up with
       | None => false
       | Some runner_up =>
           f64_ge (ca_normalized_score best) (f64_lit 7 1)
           && f64_ge (f64_sub (ca_raw_score best) (ca_raw_score runner_up)) (f64_of_z 3)
           && negb (bool_decide (en_subject_slug (ca_entry best) = en_subject_slug (ca_entry runner_up)))
       end.

Definition matched_signals (signal : MatchSignal) : list string :=
  let push (b : bool) (name : string) := if b then [name] else [] in
  let dim (m : option bool) := bool_decide (m = Some true) in
  push (ms_subject_phrase_match signal) "subject_phrase"%string
  ++ push (ms_sub_subject_phrase_match signal) "sub_subject_phrase"%string
  ++ push (0 <? ms_subject_overlap signal)%nat "subject_tokens"%string
  ++ push (0 <? ms_sub_subject_overlap signal)%nat "sub_subject_tokens"%string
  ++ push (0 <? ms_description_overlap signal)%nat "description_tokens"%string
  ++ push (0 <? ms_structure_overlap signal)%nat "content_structure"%string
  ++ push (dim (ms_jenjang_match signal)) "jenjang"%string
  ++ push (dim (ms_kelas_match signal)) "kelas"%string
  ++ push (dim (ms_semester_match signal)) "semester"%string
  ++ push (dim (ms_bab_match signal)) "bab"%string.

Definition confidence_label (score : f64) : string :=
  if f64_ge score (f64_lit 75 2) then "high"
  else if f64_ge score (f64_lit 45 2) then "medium"
  else "low".

Definition compare_ranked (a b : CandidateScore) : comparison :=
  then_with (default Eq (f64_cmp (ca_raw_score b) (ca_raw_score a)))
    (Nat.compare (en_catalog_index (ca_entry a)) (en_catalog_index (ca_entry b))).
Definition candidates (raw : list value) (teacher_prompt : str) : list CandidateScore :=
  let prompt_ctx := prompt_context teacher_prompt in
  let normalized_prompt := normalize_search_text teacher_prompt in
  let prompt_tokens := filtered_tokens teacher_prompt in
  List.filter (λ c, f64_lt f64_zero (ca_raw_score c))
    ((λ entry, score_entry entry normalized_prompt prompt_tokens prompt_ctx) <$> entries raw).
Definition summary_of (c : CandidateScore) : CandidateSummary :=
  mkCandidateSummary (en_subject_name (ca_entry c)) (en_subject_slug (ca_entry c))
    (en_sub_subject_name (ca_entry c)) (en_sub_subject_slug (ca_entry c)) (en_jenjang (ca_entry c))
    (en_kelas (ca_entry c)) (ca_normalized_score c) (confidence_label (ca_normalized_score c)).
(** The best candidate is too weak to be believed. *)
Definition too_weak (best : CandidateScore) : bool :=
  f64_lt (ca_normalized_score best) MINIMUM_CONFIDENCE_SCORE
  && negb (ms_subject_phrase_match (ca_signal best)) && negb (ms_sub_subject_phrase_match (ca_signal best)).

Definition infer (raw : list value) (teacher_prompt : str) : option TaxonomyInferenceResult :=
  let teacher_prompt := trim teacher_prompt in
  if bool_decide (teacher_prompt = []) then None
  else
    let ranked := sort_by compare_ranked (candidates raw teacher_prompt) in
    match ranked with
    | [] => None
    | best :: rest =>
        if too_weak best then None
        else
          let best_subject :=
            default best (List.find (λ c, bool_decide (en_subject_slug (ca_entry c) = en_subject_slug (ca_entry best))) ranked) in
          let include_sub_subject := should_attach_sub_subject best (head rest) in
          let entry := ca_entry best in
          Some (mkTaxonomyInferenceResult VERSION "subjects.json" (prompt_context teacher_prompt)
            (mkConfidenceInfo (ca_normalized_score best) (confidence_label (ca_normalized_score best)) include_sub_subject)
            (mkBestMatch (en_jenjang entry) (en_kelas entry) (en_semester entry) (en_bab entry)
               (en_subject_name (ca_entry best_subject)) (en_subject_slug (ca_entry best_subject)) None
               (if include_sub_subject then Some (en_sub_subject_name entry) else None)
               (if include_sub_subject then Some (en_sub_subject_slug entry) else None) None
               (en_description entry) (en_content_structure entry) (en_structure_items entry)
               (matched_signals (ca_signal best)))
            (summary_of <$> take 3 ranked))
    end.
End Taxonomy.

(** ** Lemmas: texts as lists of words *)

Section Words.
Context `{CaseTables} `{UnicodeClasses} `{!UnicodeClassLaws}.

Definition word (w : str) : Prop := w <> [] /\ Forall (λ c, is_whitespace c = false) w.
Definition blank (p : Z -> bool) (s : str) : str := (λ c, if p c then 32 else c) <$> s.

Lemma words_from_word cur s : Forall (λ c, is_whitespace c = false) cur -> Forall word (words_from cur s).
Proof.
  revert cur. induction s as [|c s IH]; intros cur Hcur; cbn.
  - destruct cur; [constructor|]. constructor; [by split|constructor].
  - destruct (is_whitespace c) eqn:Hc.
    + destruct cur; [by apply IH|]. constructor; [by split|by apply IH].
    + apply IH, Forall_app. by repeat constructor.
Qed.
Lemma split_whitespace_words s : Forall word (split_whitespace s).
Proof. by apply words_from_word. Qed.

Lemma replace_runs_collapse p in_run s :
  (forall c, p c = false -> is_whitespace c = false) ->
  replace_runs p [32] in_run s = collapse_rec singleton_char in_run (blank p s).
Proof.
  intros Hp. revert in_run. induction s as [|c s IH]; intros in_run; [done|]. cbn.
  destruct (p c) eqn:Hc; [by rewrite IH|]. by rewrite (Hp c Hc), IH.
Qed.

Lemma collapse_ws_rec s : collapse_ws singleton_char s = collapse_rec singleton_char false s.
Proof. unfold collapse_ws. by rewrite collapse_foldl. Qed.
Lemma collapse_word in_run w s :
  Forall (λ c, is_whitespace c = false) w -> w <> [] ->
  collapse_rec singleton_char in_run (w ++ s) = w ++ collapse_rec singleton_char false s.
Proof.
  intros Hw. revert in_run. induction Hw as [|c w Hc Hw IH]; intros in_run; [done|]. intros _. cbn. rewrite Hc. cbn.
  f_equal. destruct w as [|d w]; [done|]. by apply IH.
Qed.
Lemma collapse_join ws : Forall word ws -> collapse_rec singleton_char false (join (lit " ") ws) = join (lit " ") ws.
Proof.
  induction 1 as [|w ws [Hne Hw] Hws IH]; [done|]. destruct ws as [|v ws].
  - cbn [join]. rewrite <- (app_nil_r w) at 1. rewrite collapse_word by done. cbn. apply app_nil_r.
  - assert (collapse_rec singleton_char true (join (lit " ") (v :: ws)) = join (lit " ") (v :: ws)) as Hj.
    { rewrite <- IH at 2. inversion Hws as [|? ? [Hv Hvw] ?]; subst. destruct Hvw as [|c v Hc Hvw]; [done|].
      destruct ws; cbn; by rewrite Hc. }
    rewrite join_cons by done. rewrite collapse_word by done. f_equal.
    change (32 :: collapse_rec singleton_char true (join (lit " ") (v :: ws)) = 32 :: join (lit " ") (v :: ws)).
    by rewrite Hj.
Qed.
Lemma blank_ws_join ws : Forall word ws -> blank is_whitespace (join (lit " ") ws) = join (lit " ") ws.
Proof.
  assert (forall w, Forall (λ c, is_whitespace c = false) w -> blank is_whitespace w = w) as Hw.
  { induction 1 as [|c w Hc Hw IH]; [done|]. cbn. rewrite Hc. by f_equal. }
  induction 1 as [|w ws [Hne Hws] Hall IH]; [done|]. destruct ws as [|v ws]; [by apply Hw|].
  rewrite join_cons by done. unfold blank in *. rewrite !fmap_app, Hw, IH by done. done.
Qed.

(** The words of a text. *)
Definition words (value : str) : list str :=
  split_whitespace (blank (λ c, negb (letter_or_number c)) (to_lowercase value)).

Lemma normalize_words value : normalize_search_text value = join (lit " ") (words value).
Proof.
  unfold normalize_search_text.
  assert (forall c, negb (letter_or_number c) = false -> is_whitespace c = false) as Hp.
  { intros c Hc%negb_false_iff. unfold letter_or_number in Hc. destruct (Z.ltb_spec c 128); [|by apply letters_visible].
    unfold ascii_alphanumeric, is_ascii_digit in Hc. unfold is_whitespace.
    rewrite !orb_true_iff, !andb_true_iff, !Z.leb_le in Hc. rewrite !orb_false_iff, !andb_false_iff, !Z.leb_gt, !Z.eqb_neq. lia. }
  change (lit " ") with [32]. rewrite (replace_runs_collapse (λ c, negb (letter_or_number c))) by done.
  rewrite <- collapse_ws_rec.
  rewrite trim_collapse_singleton. fold (words value). change [32] with (lit " ").
  rewrite replace_runs_collapse by (by intros c ->%negb_false_iff || done).
  rewrite blank_ws_join, collapse_join by apply split_whitespace_words. done.
Qed.

Lemma words_from_join cur w ws :
  Forall (λ c, is_whitespace c = false) w -> Forall word ws -> cur ++ w <> [] ->
  words_from cur (join (lit " ") (w :: ws)) = (cur ++ w) :: ws.
Proof.
  intros Hw Hws. revert cur w Hw. induction Hws as [|v ws [Hne Hv] Hws IH]; intros cur w Hw Hcw.
  - cbn [join]. revert cur Hcw. induction Hw as [|c w Hc Hw IHw]; intros cur Hcw; cbn.
    + rewrite app_nil_r in *. by destruct cur.
    + rewrite Hc, IHw; [by rewrite <- app_assoc|by destruct cur].
  - rewrite join_cons by done. revert cur Hcw. induction Hw as [|c w Hc Hw IHw]; intros cur Hcw.
    + rewrite app_nil_r in *. change ([] ++ lit " " ++ join (lit " ") (v :: ws)) with (32 :: join (lit " ") (v :: ws)).
      cbn [words_from]. change (is_whitespace 32) with true. destruct cur as [|c cur]; [done|].
      rewrite (IH [] v) by done. done.
    + cbn. rewrite Hc. cbn in IHw. rewrite IHw; [by rewrite <- app_assoc|by destruct cur].
Qed.
Lemma split_join ws : Forall word ws -> split_whitespace (join (lit " ") ws) = ws.
Proof.
  destruct 1 as [|w ws [Hne Hw] Hws]; [done|]. unfold split_whitespace. by rewrite (words_from_join [] w ws).
Qed.
Lemma tokenize_words value : tokenize_search_text value = words value.
Proof.
  unfold tokenize_search_text. rewrite normalize_words.
  pose proof (split_whitespace_words (blank (λ c, negb (letter_or_number c)) (to_lowercase value))) as Hw.
  fold (words value) in Hw. destruct (join (lit " ") (words value)) as [|c s] eqn:E.
  - destruct (words value) as [|w [|v ws]]; [done| |].
    + cbn in E. inversion Hw as [|? ? [Hne _]]; subst. done.
    + rewrite join_cons in E by done. by destruct w.
  - rewrite <- E, split_join by done. clear E. induction Hw as [|w ws [Hne _] Hws IH]; [done|]. cbn.
    rewrite bool_decide_false by done. cbn. by rewrite IH.
Qed.

(** A space before and after each word. *)
Fixpoint pad (ws : list str) : str :=
  match ws with
  | [] => [32]
  | w :: ws => 32 :: w ++ pad ws
  end.
Lemma pad_join ws : ws <> [] -> pad ws = lit " " ++ join (lit " ") ws ++ lit " ".
Proof.
  induction ws as [|w ws IH]; [done|]. intros _. destruct ws as [|v ws]; [done|].
  cbn [pad]. cbn [pad] in IH. rewrite IH by done. rewrite (join_cons _ w (v :: ws)) by done. rewrite <- !app_assoc. reflexivity.
Qed.
Lemma pad_app ws vs : exists x, pad (ws ++ vs) = x ++ pad vs.
Proof.
  induction ws as [|w ws [x IH]]; [by exists []|]. exists (32 :: w ++ x). cbn. by rewrite IH, <- app_assoc.
Qed.
Lemma pad_prefix ws vs : exists y, pad (ws ++ vs) = pad ws ++ y.
Proof.
  induction ws as [|w ws [y IH]]; cbn; [destruct vs; by eexists|]. exists y. by rewrite IH, <- !app_assoc.
Qed.

(** A word ends where the next space is. *)
Lemma word_split w v x y :
  Forall (λ c, is_whitespace c = false) w -> Forall (λ c, is_whitespace c = false) v ->
  w ++ 32 :: x = v ++ 32 :: y -> w = v /\ x = y.
Proof.
  intros Hw. revert v. induction Hw as [|c w Hc Hw IH]; intros v Hv Heq.
  - destruct Hv as [|d v Hd Hv]; [by injection Heq as <-|]. injection Heq as <- _. done.
  - destruct Hv as [|d v Hd Hv]; [by injection Heq as -> _|]. injection Heq as <- Heq.
    apply IH in Heq as [-> ->]; done.
Qed.
Lemma pad_space ws : exists x, pad ws = 32 :: x.
Proof. destruct ws; by eexists. Qed.
Lemma prefix_pad ws vs y :
  Forall word ws -> Forall word vs -> pad ws = pad vs ++ y -> exists us, ws = vs ++ us.
Proof.
  intros Hws Hvs. revert ws Hws. induction Hvs as [|v vs [Hne Hv] Hvs IH]; intros ws Hws Heq; [by exists ws|].
  destruct Hws as [|w ws [Hwne Hw] Hws].
  - cbn in Heq. injection Heq as Heq. by destruct v.
  - cbn in Heq. injection Heq as Heq. destruct (pad_space ws) as [x Hx], (pad_space vs) as [z Hz].
    rewrite <- app_assoc, Hx, Hz in Heq. apply word_split in Heq as [-> ->]; [|done|done].
    destruct (IH ws Hws) as [us ->]; [by rewrite Hx, Hz|]. by exists us.
Qed.
Lemma infix_pad ws vs x y :
  Forall word ws -> Forall word vs -> pad ws = x ++ pad vs ++ y -> exists a b, ws = a ++ vs ++ b.
Proof.
  intros Hws Hvs. revert x. induction Hws as [|w ws [Hne Hw] Hws IH]; intros x Heq.
  - destruct vs as [|v vs]; [by exists [], []|]. exfalso. destruct (pad_space vs) as [z Hz]. cbn [pad] in Heq. rewrite Hz in Heq.
    apply (f_equal length) in Heq. rewrite !length_app in Heq. cbn [length] in Heq. rewrite length_app in Heq.
    cbn [length] in Heq. lia.
  - destruct x as [|c x].
    + destruct (prefix_pad (w :: ws) vs y) as [us ->]; [by constructor|done|done|]. by exists [], us.
    + cbn in Heq. injection Heq as _ Heq.
      assert (exists x', x = w ++ x' /\ pad ws = x' ++ pad vs ++ y) as (x' & -> & Heq').
      { destruct (pad_space ws) as [s Hs], (pad_space vs) as [z Hz]. rewrite Hs, Hz in *. clear -Hw Heq.
        revert x Heq. induction Hw as [|d w Hd Hw IH]; intros x Heq; [by exists x|].
        destruct x as [|d' x]; [injection Heq as -> _; done|]. injection Heq as <- Heq.
        destruct (IH x Heq) as (x' & -> & Hx'). by exists x'. }
      destruct (IH x' Heq') as (a & b & ->). by exists (w :: a), b.
Qed.

Lemma str_contains_iff s p : str_contains s p = true <-> exists x y, s = x ++ p ++ y.
Proof.
  rewrite find_contains. split.
  - intros [n Hn]. apply find_Some in Hn as (x & y & -> & _). by exists x, y.
  - intros (x & y & ->). apply find_contains. induction x as [|c x IH].
    + assert (starts_with p (p ++ y) = true) as Hp by (apply starts_with_iff; by exists y).
      cbn. destruct (p ++ y); cbn; by rewrite Hp.
    + cbn. by rewrite IH, orb_true_r.
Qed.

Lemma trim_join ws : Forall word ws -> trim (join (lit " ") ws) = join (lit " ") ws.
Proof.
  intros Hws. pose proof (trim_collapse_singleton (join (lit " ") ws)) as Ht.
  rewrite collapse_ws_rec, collapse_join, split_join in Ht by done. exact Ht.
Qed.
Lemma join_nonempty ws : Forall word ws -> ws <> [] -> join (lit " ") ws <> [].
Proof.
  destruct 1 as [|w ws [Hne _] _]; [done|]. intros _. destruct ws; [done|]. rewrite join_cons by done. by destruct w.
Qed.

(** A phrase of the curriculum occurs in a prompt exactly when its words occur there one after
    the other: case, punctuation and spacing do not matter, and a part of a word is not a match. *)
Lemma phrase_match_is_word_infix (prompt phrase : str) :
  contains_phrase (normalize_search_text prompt) (normalize_search_text phrase) = true
  <-> tokenize_search_text phrase <> []
      /\ exists before after, tokenize_search_text prompt = before ++ tokenize_search_text phrase ++ after.
Proof.
  rewrite !normalize_words, !tokenize_words. unfold contains_phrase.
  assert (Forall word (words prompt)) as Hp by apply split_whitespace_words.
  assert (Forall word (words phrase)) as Hq by apply split_whitespace_words.
  generalize dependent (words prompt). generalize dependent (words phrase). intros vs Hvs ws Hws.
  rewrite !trim_join by done.
  destruct (decide (vs = [])) as [->|Hv]; [rewrite orb_true_r; naive_solver|].
  rewrite (bool_decide_false (join _ vs = [])) by by apply join_nonempty. rewrite orb_false_r.
  destruct (decide (ws = [])) as [->|Hw].
  { split; [done|]. intros (_ & a & b & Heq). by destruct a, vs. }
  rewrite bool_decide_false by by apply join_nonempty.
  rewrite <- !pad_join by done. rewrite str_contains_iff. split.
  - intros (x & y & Heq). split; [done|]. by apply (infix_pad ws vs x y).
  - intros (_ & a & b & ->). destruct (pad_app a (vs ++ b)) as [x ->], (pad_prefix vs b) as [y ->]. by exists x, y.
Qed.
End Words.

(** ** Lemmas: the ranking *)

Section Ranking.
Context `{CaseTables} `{Regexes} `{UnicodeClasses} `{JsonLex}.

Lemma f64_max_zero x : f64_max f64_zero x <> S754_nan.
Proof. unfold f64_max, f64_lt. by destruct x as [[]|[]| |[]]. Qed.
Lemma score_is_number entry normalized tokens ctx : ca_raw_score (score_entry entry normalized tokens ctx) <> S754_nan.
Proof. apply f64_max_zero. Qed.

Lemma good_nat : Good Nat.compare.
Proof. apply (good_of_spec _ lt); [exact Nat.compare_spec|lia|lia]. Qed.
Definition ranked_key (a b : CandidateScore) : comparison :=
  then_with (key_cmp (f64_key (ca_raw_score b)) (f64_key (ca_raw_score a)))
    (Nat.compare (en_catalog_index (ca_entry a)) (en_catalog_index (ca_entry b))).
#[local] Instance good_ranked : Good ranked_key.
Proof.
  apply (good_then (λ a b, key_cmp (f64_key (ca_raw_score b)) (f64_key (ca_raw_score a)))).
  - apply (good_desc key_cmp (λ c, f64_key (ca_raw_score c))), _.
  - apply (good_key Nat.compare (λ c, en_catalog_index (ca_entry c))), good_nat.
Qed.
Lemma compare_ranked_key a b :
  ca_raw_score a <> S754_nan -> ca_raw_score b <> S754_nan -> compare_ranked a b = ranked_key a b.
Proof. intros Ha Hb. unfold compare_ranked, ranked_key. by rewrite f64_cmp_key. Qed.

Lemma entries_nodup raw : NoDup (en_catalog_index <$> entries raw).
Proof.
  unfold entries.
  assert (forall (f : nat -> nat) l, (forall i j, f i = f j -> i = j) ->
    NoDup (en_catalog_index <$> omap (λ '(idx, row), normalize_entry row idx) (imap (λ i r, (f i, r)) l))
    /\ forall e, e ∈ omap (λ '(idx, row), normalize_entry row idx) (imap (λ i r, (f i, r)) l) ->
       exists i, en_catalog_index e = S (f i)) as Hgen; [|by apply (Hgen (λ i, i))].
  intros f l. revert f. induction l as [|row l IH]; intros f Hf; [split; [constructor|by intros e ?%not_elem_of_nil]|].
  assert (forall e, normalize_entry row (f 0%nat) = Some e -> en_catalog_index e = S (f 0%nat)) as Hi.
  { intros e. unfold normalize_entry. destruct (get (lit "subject") row ≫= as_str) as [s|] eqn:E1.
    - destruct (get (lit "subject") row) as [v|]; [|done]. cbn in *. rewrite E1. cbn.
      destruct (get (lit "sub_subject") row) as [v'|]; [|done]. cbn. destruct (as_str v') as [s'|]; [|done]. cbn.
      destruct (bool_decide _ || bool_decide _); [done|]. by intros [= <-].
    - destruct (get (lit "subject") row) as [v|]; [|done]. cbn in *. by rewrite E1. }
  destruct (IH (f ∘ S)) as [Hnd Hix]; [intros i j Hij; apply Hf in Hij; lia|].
  cbn [imap omap list_omap]. change (imap ((λ i r, (f i, r)) ∘ S) l) with (imap (λ i r, ((f ∘ S) i, r)) l).
  destruct (normalize_entry row (f 0%nat)) as [e|] eqn:E.
  - split.
    + cbn. apply NoDup_cons. split; [|done]. intros (e' & Heq & He')%list_elem_of_fmap.
      destruct (Hix e' He') as [i Hei]. rewrite (Hi e eq_refl), Hei in Heq. injection Heq as Heq. by apply Hf in Heq.
    + intros e' [->|He']%elem_of_cons; [exists 0%nat; by apply Hi|]. destruct (Hix e' He') as [i Hei]. by exists (S i).
  - split; [done|]. intros e' He'. destruct (Hix e' He') as [i Hei]. by exists (S i).
Qed.

Lemma candidates_numbers raw prompt : Forall (λ c, ca_raw_score c <> S754_nan) (candidates raw prompt).
Proof.
  apply Forall_forall. intros c Hc%list_elem_of_In. apply List.filter_In in Hc as [Hc _].
  apply list_elem_of_In, list_elem_of_fmap in Hc as (e & -> & _). apply score_is_number.
Qed.
Lemma candidates_nodup raw prompt : NoDup ((λ c, en_catalog_index (ca_entry c)) <$> candidates raw prompt).
Proof.
  unfold candidates. pose proof (entries_nodup raw) as Hnd. induction (entries raw) as [|e l IH]; [constructor|].
  cbn in Hnd. apply NoDup_cons in Hnd as [He Hnd]. cbn. destruct (f64_lt f64_zero _); [|by apply IH]. cbn.
  apply NoDup_cons. split; [|by apply IH]. intros (c & Hc & Hin)%list_elem_of_fmap. destruct He.
  apply list_elem_of_In, List.filter_In in Hin as [Hin _].
  apply list_elem_of_In, list_elem_of_fmap in Hin as (e' & -> & Hin). apply list_elem_of_fmap. by exists e'.
Qed.

(** One candidate comes before another: it has a higher score, or the same and an earlier row. *)
Definition better (a b : CandidateScore) : Prop :=
  f64_cmp (ca_raw_score a) (ca_raw_score b) = Some Gt
  \/ f64_cmp (ca_raw_score a) (ca_raw_score b) = Some Eq
     /\ (en_catalog_index (ca_entry a) < en_catalog_index (ca_entry b))%nat.

Lemma ranking raw prompt : StronglySorted better (sort_by compare_ranked (candidates raw prompt)).
Proof.
  pose proof (candidates_numbers raw prompt) as Hnum. pose proof (candidates_nodup raw prompt) as Hnd.
  rewrite (sort_by_ext _ ranked_key).
  2:{ rewrite Forall_forall in Hnum. intros a b Ha Hb. apply compare_ranked_key; auto. }
  pose proof (sort_by_sorted ranked_key (candidates raw prompt)) as Hs.
  assert (Forall (λ c, ca_raw_score c <> S754_nan) (sort_by ranked_key (candidates raw prompt))) as Hnum'
    by (by rewrite sort_by_perm).
  assert (NoDup ((λ c, en_catalog_index (ca_entry c)) <$> sort_by ranked_key (candidates raw prompt))) as Hnd'
    by (by rewrite sort_by_perm).
  clear Hnum Hnd. induction Hs as [|a l Hl IH Ha]; [constructor|].
  inversion Hnum' as [|? ? Hna Hnl]; subst. cbn in Hnd'. apply NoDup_cons in Hnd' as [Hia Hnd].
  constructor; [by apply IH|]. rewrite Forall_forall in *. intros b Hb. specialize (Ha b Hb). unfold better.
  rewrite f64_cmp_key by auto. unfold ranked_key in Ha.
  rewrite (good_sym (cmp := key_cmp) (f64_key (ca_raw_score a))) in Ha.
  destruct (key_cmp (f64_key (ca_raw_score a)) (f64_key (ca_raw_score b))); [|done|by left].
  right. split; [done|]. cbn in Ha. destruct (Nat.compare_spec (en_catalog_index (ca_entry a)) (en_catalog_index (ca_entry b)))
    as [Heq|Hlt|Hgt]; [|done|done].
  destruct Hia. apply list_elem_of_fmap. by exists b.
Qed.

(** C38. What the inference answers: the candidate that comes before all others (the score decides, then
    the position in the catalog), with its subject, and its sub-subject when the signals support it;
    the three first candidates in order. It answers nothing for a blank prompt, when no entry
    scores, or when the best has under a quarter of the score and no phrase in common. *)
Theorem infer_spec (raw : list value) (prompt : str) :
  exists ranked, ranked ≡ₚ candidates raw (trim prompt) /\ StronglySorted better ranked /\
  match infer raw prompt with
  | Some r =>
      exists best rest, ranked = best :: rest /\ trim prompt <> [] /\ too_weak best = false
      /\ ci_score (tr_confidence r) = ca_normalized_score best
      /\ bm_subject_slug (tr_best_match r) = en_subject_slug (ca_entry best)
      /\ bm_sub_subject_slug (tr_best_match r)
         = (if should_attach_sub_subject best (head rest) then Some (en_sub_subject_slug (ca_entry best)) else None)
      /\ bm_matched_signals (tr_best_match r) = matched_signals (ca_signal best)
      /\ tr_candidate_matches r = summary_of <$> take 3 ranked
  | None => trim prompt = [] \/ ranked = [] \/ exists best rest, ranked = best :: rest /\ too_weak best = true
  end.
Proof.
  exists (sort_by compare_ranked (candidates raw (trim prompt))).
  split; [apply sort_by_perm|]. split; [apply ranking|]. unfold infer. cbv zeta.
  case_bool_decide as Hp; [by left|].
  destruct (sort_by compare_ranked (candidates raw (trim prompt))) as [|best rest]; [by right; left|].
  destruct (too_weak best) eqn:Hw; [right; right; by exists best, rest|].
  exists best, rest. cbn [List.find]. rewrite bool_decide_true by done. done.
Qed.
End Ranking.

(** ** Concrete data *)

Module TaxonomyWitness.
#[export] Instance ascii_case : CaseTables :=
  {| lower_table c := [c]; upper_table c := [c]; sigma_is_final _ _ := false |}.
#[export] Instance no_regexes : Regexes := {| re_is_match _ _ := false; re_captures1 _ _ := None |}.
#[export] Instance ascii_classes : UnicodeClasses := {| letter_or_number_table _ := false; re_replace_all _ _ s := s |}.
#[export] Instance ascii_class_laws : UnicodeClassLaws.
Proof. done. Qed.
#[export] Instance bare_lex : JsonLex := {| json_quote s := s; json_number _ := [] |}.

Definition row (subject sub_subject : string) : value := obj [("subject", jstr subject); ("sub_subject", jstr sub_subject)]%string.
Definition rows : list value := [row "Matematika" "Bilangan"; row "Matematika" "Aljabar"; row "Biologi" "Sel"].

Example infer_algebra :
  option_map (λ r, (bm_subject_slug (tr_best_match r), bm_sub_subject_slug (tr_best_match r),
      (λ c, su_sub_subject_slug c) <$> tr_candidate_matches r))
    (infer rows (lit "Buatkan modul MATEMATIKA tentang aljabar!"))
  = Some (lit "matematika", Some (lit "aljabar"), [lit "aljabar"; lit "bilangan"]).
Proof. vm_compute. reflexivity. Qed.

Lemma phrase_match_is_word_infix_witness :
  contains_phrase (normalize_search_text (lit "Modul: Persamaan  Linear, kelas 7"))
    (normalize_search_text (lit "persamaan linear")) = true
  /\ contains_phrase (normalize_search_text (lit "persamaan nonlinear")) (normalize_search_text (lit "linear")) = false.
Proof.
  split.
  - apply (phrase_match_is_word_infix (lit "Modul: Persamaan  Linear, kelas 7") (lit "persamaan linear")).
    split; [by vm_compute|]. exists [lit "modul"], [lit "kelas"; lit "7"]. vm_compute. reflexivity.
  - vm_compute. reflexivity.
Defined.
End TaxonomyWitness.
