(* ===== verification/Personalization.v ===== *)
(** * Who the homepage is for (src/src/recommendation/personalization.rs)

    The personalization context of a user: the sub-subjects the user wrote about, those of the
    primary subject first. [resolve_context] is [resolve] of the source. *)

From stdpp Require Import base list option strings.
From Stdlib Require Import ZArith Lia.
From S2P Require Import Prelude RustStr.
#[local] Open Scope Z_scope.

(** ** Input *)

Record SubjectInfo := mkSubjectInfo {
  si_id : Z;
  si_name : str;
  si_slug : str;
  si_source : option str
}.
Record SubSubjectInfo := mkSubSubjectInfo {
  ssi_id : Z;
  ssi_subject_id : Z;
  ssi_name : str;
  ssi_slug : str
}.
Record ActivityRow := mkActivityRow {
  act_sub_subject_id : Z;
  act_subject_id : Z;
  act_topic_count : Z;
  act_latest_topic_activity_at : option str;
  act_sub_subject : option SubSubjectInfo;
  act_subject : option SubjectInfo
}.
Record PersonalizationInput := mkPersonalizationInput {
  in_user_id : option Z;
  in_primary_subject : option SubjectInfo;
  in_authored_topic_activity : list ActivityRow
}.
Definition guest : PersonalizationInput := mkPersonalizationInput None None [].

(** ** Output *)

Record CandidateSubject := mkCandidateSubject {
  cs_sub_subject_id : Z;
  cs_subject_id : Z;
  cs_topic_count : Z;
  cs_latest_topic_activity_at : option str;
  cs_subject : option SubjectInfo;
  cs_sub_subject : option SubSubjectInfo;
  cs_source : string
}.
Record PersonalizationPublic := mkPersonalizationPublic {
  pub_signals_available : bool;
  pub_has_primary_subject : bool;
  pub_has_authored_topic_activity : bool;
  pub_signal_source : string;
  pub_fallback_mode : option string;
  pub_primary_subject : option SubjectInfo;
  pub_subject_anchor : option SubjectInfo;
  pub_candidate_sub_subject_ids : list Z;
  pub_candidate_sub_subjects : list CandidateSubject
}.
Record PersonalizationInternal := mkPersonalizationInternal {
  int_signals_available : bool;
  int_primary_subject_id : option Z;
  int_preferred_activity_sub_subject_ids : list Z;
  int_secondary_activity_sub_subject_ids : list Z;
  int_personalized_mode : string;
  int_personalized_description : string
}.
Record PersonalizationContext := mkPersonalizationContext {
  ctx_public : PersonalizationPublic;
  ctx_internal : PersonalizationInternal
}.

Definition PERSONALIZED_MODE : string := "personalized_system_candidate_selection".

Definition guest_context : PersonalizationContext :=
  mkPersonalizationContext
    (mkPersonalizationPublic false false false "guest" (Some "global_feed"%string) None None [] [])
    (mkPersonalizationInternal false None [] [] PERSONALIZED_MODE
       "Select and order system-generated recommendations using authenticated user personalization signals.").

Definition resolve_signal_source (has_primary_subject has_authored_activity : bool) : string :=
  match has_primary_subject, has_authored_activity with
  | true, true => "profile_subject_with_authored_activity"
  | true, false => "profile_subject"
  | false, true => "authored_topic_activity"
  | false, false => "insufficient_signals"
  end.
Definition resolve_fallback_mode (has_primary_subject has_authored_activity : bool) (preferred : list ActivityRow) :
    option string :=
  if negb has_primary_subject && negb has_authored_activity then Some "global_feed"%string
  else if has_primary_subject && match preferred with [] => true | _ => false end
  then Some "primary_subject_catalog"%string else None.
Definition resolve_personalized_description (has_primary_subject has_authored_activity : bool) : string :=
  match has_primary_subject, has_authored_activity with
  | true, true => "Select and order system-generated recommendations using the user primary subject and authored-topic activity."
  | true, false => "Select and order system-generated recommendations using the user primary subject when authored-topic activity is still sparse."
  | _, _ => "Select and order system-generated recommendations using authored-topic activity because no primary subject is set."
  end.

(** The rows of the primary subject, and the others. *)
Definition preferred_rows (input : PersonalizationInput) : list ActivityRow :=
  match in_primary_subject input with
  | Some ps => List.filter (λ r, act_subject_id r =? si_id ps) (in_authored_topic_activity input)
  | None => in_authored_topic_activity input
  end.
Definition secondary_rows (input : PersonalizationInput) : list ActivityRow :=
  match in_primary_subject input with
  | Some ps => List.filter (λ r, negb (act_subject_id r =? si_id ps)) (in_authored_topic_activity input)
  | None => []
  end.
Definition candidate_subject (r : ActivityRow) : CandidateSubject :=
  mkCandidateSubject (act_sub_subject_id r) (act_subject_id r) (act_topic_count r)
    (act_latest_topic_activity_at r) (act_subject r) (act_sub_subject r) "authored_topic_activity".

Definition authenticated_context (input : PersonalizationInput) : PersonalizationContext :=
  let has_primary_subject := bool_decide (is_Some (in_primary_subject input)) in
  let has_authored_activity := negb (bool_decide (length (in_authored_topic_activity input) = 0%nat)) in
  let signals_available := has_primary_subject || has_authored_activity in
  let primary_subject_id := si_id <$> in_primary_subject input in
  let preferred := preferred_rows input in
  let secondary := secondary_rows input in
  let candidate_rows := preferred ++ secondary in
  let subject_anchor :=
    match in_primary_subject input with
    | Some ps => Some (mkSubjectInfo (si_id ps) (si_name ps) (si_slug ps) (Some (lit "profile")))
    | None =>
        if has_authored_activity then
          s ← head candidate_rows ≫= act_subject;
          Some (mkSubjectInfo (si_id s) (si_name s) (si_slug s) (Some (lit "authored_topic_activity")))
        else None
    end in
  let candidate_sub_subjects := candidate_subject <$> candidate_rows in
  mkPersonalizationContext
    (mkPersonalizationPublic signals_available has_primary_subject has_authored_activity
       (resolve_signal_source has_primary_subject has_authored_activity)
       (resolve_fallback_mode has_primary_subject has_authored_activity preferred)
       (in_primary_subject input) subject_anchor (cs_sub_subject_id <$> candidate_sub_subjects)
       candidate_sub_subjects)
    (mkPersonalizationInternal signals_available primary_subject_id (act_sub_subject_id <$> preferred)
       (act_sub_subject_id <$> secondary) PERSONALIZED_MODE
       (resolve_personalized_description has_primary_subject has_authored_activity)).

Definition resolve_context (input : PersonalizationInput) : PersonalizationContext :=
  match in_user_id input with None => guest_context | Some _ => authenticated_context input end.
