(* ===== verification/Repair.v ===== *)
(** * From a model's reply to an interpretation (src/src/contracts/prompt_interpretation.rs)

    The reply of a language model is cut down to its JSON object, repaired field by field (one
    definition per numbered step of the source), decoded and validated; when that fails the service
    answers with a payload built from the prompt alone. *)

From stdpp Require Import base list option strings sets.
From Stdlib Require Import ZArith Lia Floats.SpecFloat.
From S2P Require Import Prelude RustStr Json Floats Canon Text Parse Samples Interpretation Standards Decision.
#[local] Open Scope Z_scope.

Notation Map := (list (str * value)).

(** serde_json: [from_str] into a [Value], and into the payload with the text of its error. *)
Class SerdeJson := {
  parse_json : str -> option value;
  parse_payload : str -> str + InterpretationPayload
}.

(** [Map::remove], which swaps the last entry into the place of the removed one. *)
Fixpoint position (k : str) (m : Map) : option nat :=
  match m with [] => None | (k', _) :: m => if decide (k = k') then Some 0%nat else S <$> position k m end.
Definition swap_remove (k : str) (m : Map) : Map :=
  match position k m, last m with
  | Some i, Some x =>
      let m' := take (length m - 1) m in
      if decide (i = (length m - 1)%nat) then m' else <[i := x]> m'
  | _, _ => m
  end.

Definition lacks (k : string) (m : Map) : bool :=
  match map_get (lit k) m with None | Some Null => true | _ => false end.
Definition lacks_text (k : string) (m : Map) : bool :=
  match map_get (lit k) m with None | Some Null | Some (String []) => true | _ => false end.
Definition put (k : string) (v : value) (m : Map) : Map := map_insert (lit k) v m.
(** [if let Some(o) = m.get_mut(k).and_then(as_object_mut) { ... }]. *)
Definition edit (k : string) (f : Map -> Map) (m : Map) : Map :=
  match map_get (lit k) m with Some (Object o) => put k (Object (f o)) m | _ => m end.
Definition ensure (missing : string -> Map -> bool) (k : string) (v : value) (m : Map) : Map :=
  if missing k m then put k v m else m.
Definition str_field (k : string) (m : Map) : option str := map_get (lit k) m ≫= as_str.
Definition path2 (a b : string) (m : Map) : option value := map_get (lit a) m ≫= get (lit b).
Arguments lacks k%_string m.
Arguments lacks_text k%_string m.
Arguments put k%_string v m.
Arguments edit k%_string f m.
Arguments ensure missing k%_string v m.
Arguments str_field k%_string m.
Arguments path2 (a b)%_string m.

(** The number of bytes kept is compared with the number of characters. *)
Definition truncate_str (value : str) (max : nat) : str :=
  let trimmed := trim value in
  let chars := take max trimmed in
  if (str_len chars <? length trimmed)%nat then chars ++ lit "..." else chars.

Section Repair.
Context `{CaseTables} `{JsonLex} `{Regexes}.

Definition detect_language (prompt : str) : str :=
  let lowered := to_lowercase prompt in
  let id_score := length (List.filter (λ m, str_contains lowered (lit m))
                            ["buatkan"; "kelas"; "siswa"; "materi"; "untuk"; "dan"]%string) in
  let en_score := length (List.filter (λ m, str_contains lowered (lit m))
                            ["create"; "grade"; "students"; "lesson"; "for"; "and"]%string) in
  if (en_score <? id_score)%nat then lit "id"
  else if (id_score <? en_score)%nat then lit "en" else lit "und".

Definition normalize_output_type (raw : str) : string :=
  let s := to_lowercase raw in
  let eq k := bool_decide (s = lit k) in
  if eq "pdf"%string then "pdf"
  else if eq "docx"%string || eq "doc"%string || eq "word"%string then "docx"
  else if eq "pptx"%string || eq "ppt"%string || eq "powerpoint"%string || eq "slide"%string || eq "slides"%string
  then "pptx" else "pdf".

Definition candidate_value (type : str) (score : value) (reason : str) : value :=
  obj [("type", String type); ("score", score); ("reason", String reason)]%string.
Definition normalize_output_type_candidates_string (s : str) : value :=
  let primary := normalize_output_type s in
  let '(secondary, tertiary) :=
    (if String.eqb primary "pdf" then ("docx", "pptx")
     else if String.eqb primary "docx" then ("pdf", "pptx") else ("pdf", "docx"))%string in
  Array [candidate_value (lit primary) (jfloat (f64_lit 82 2)) (lit "LLM suggested " ++ lit primary ++ lit ".");
         candidate_value (lit secondary) (jfloat (f64_lit 64 2)) (lit "Alternative " ++ lit secondary ++ lit ".");
         candidate_value (lit tertiary) (jfloat (f64_lit 46 2)) (lit "Alternative " ++ lit tertiary ++ lit ".")].
Definition normalize_output_type_candidates_object (m : Map) : value :=
  let first_key := match map_get (lit "preferred") m with
                   | Some v => Some v
                   | None => match map_get (lit "type") m with
                             | Some v => Some v
                             | None => map_get (lit "format") m
                             end
                   end in
  normalize_output_type_candidates_string
    (lit (default "pdf"%string (normalize_output_type <$> (first_key ≫= as_str)))).

Definition untitled_content (prompt purpose : str) (max : nat) : value :=
  Array [obj [("title", jstr "Requested Content"); ("purpose", String purpose);
              ("bullets", Array [String (truncate_str prompt max)]); ("estimated_length", jstr "medium")]%string].

Definition repair_section (s : value) : value :=
  match s with
  | String title_str =>
      obj [("title", String (truncate_str title_str 200)); ("purpose", String (truncate_str title_str 500));
           ("bullets", Array [String (truncate_str title_str 300)]); ("estimated_length", jstr "medium")]%string
  | Object m =>
      let nonempty o := o ≫= λ s : str, if bool_decide (s = []) then None else Some s in
      let title := default (lit "Untitled Section") (nonempty (str_field "title" m)) in
      let purpose := default (lit "Section content") (nonempty (str_field "purpose" m)) in
      let bullets :=
        match map_get (lit "bullets") m with
        | Some (String s) => if bool_decide (s = []) then [] else [s]
        | Some (Array arr) =>
            omap (λ b, match b with
                       | String s => if bool_decide (s = []) then None else Some s
                       | Object m => head m.*2 ≫= as_str
                       | _ => None
                       end) arr
        | _ => []
        end in
      let bullets := if bool_decide (bullets = []) then [purpose] else bullets in
      let estimated_length := default (lit "medium") (str_field "estimated_length" m) in
      obj [("title", String (truncate_str title 200)); ("purpose", String (truncate_str purpose 500));
           ("bullets", jstrings bullets); ("estimated_length", String estimated_length)]%string
  | _ => s
  end.

(** ** The steps *)

Definition fix_schema_version : Map -> Map := ensure lacks "schema_version" (String SCHEMA_VERSION).
Definition fix_teacher_prompt (teacher_prompt : str) : Map -> Map :=
  ensure lacks_text "teacher_prompt" (String teacher_prompt).

Definition fix_candidate (item : value) : value :=
  match item with
  | String s => candidate_value (lit (normalize_output_type s)) (jfloat (f64_lit 7 1))
                  (lit "LLM suggested " ++ s ++ lit ".")
  | Object m =>
      let type_val := default (lit "pdf") (str_field "type" m) in
      let score := default (f64_lit 7 1) (map_get (lit "score") m ≫= as_f64) in
      let reason := default (lit "LLM candidate.") (str_field "reason" m) in
      candidate_value (lit (normalize_output_type type_val)) (jfloat score) reason
  | other => other
  end.
Definition fix_output_type_candidates (m : Map) : Map :=
  match map_get (lit "output_type_candidates") m with
  | Some (String s) => put "output_type_candidates" (normalize_output_type_candidates_string s) m
  | Some (Object o) => put "output_type_candidates" (normalize_output_type_candidates_object o) m
  | Some (Array arr) => put "output_type_candidates" (Array (fix_candidate <$> arr)) m
  | Some _ => m
  | None =>
      put "output_type_candidates"
        (Array [candidate_value (lit "pdf") (jfloat (f64_lit 82 2)) (lit "Default PDF candidate.");
                candidate_value (lit "docx") (jfloat (f64_lit 64 2)) (lit "Default DOCX candidate.");
                candidate_value (lit "pptx") (jfloat (f64_lit 46 2)) (lit "Default PPTX candidate.")]) m
  end.

Definition fix_max_duration : Map -> Map :=
  edit "constraints" (λ c,
    match map_get (lit "max_duration_minutes") c with
    | Some (String s) =>
        match parse_i32 s with
        | Some num => put "max_duration_minutes" (jint num) c
        | None => swap_remove (lit "max_duration_minutes") c
        end
    | _ => c
    end).

Definition blueprint_of_text (bp_str : str) : value :=
  obj [("title", String (truncate_str bp_str 200)); ("summary", String (truncate_str bp_str 1000));
       ("sections", untitled_content bp_str (truncate_str bp_str 500) 300)]%string.
Definition requested_sections (teacher_prompt : str) : value :=
  untitled_content teacher_prompt (lit "Deliver the requested learning material.") 300.
Definition blueprint_of_prompt (teacher_prompt : str) : value :=
  obj [("title", String (truncate_str teacher_prompt 200)); ("summary", String (truncate_str teacher_prompt 1000));
       ("sections", requested_sections teacher_prompt)]%string.
Definition text_blueprint (m : Map) : Map :=
  match map_get (lit "document_blueprint") m with
  | Some (String bp_str) => put "document_blueprint" (blueprint_of_text bp_str) m
  | _ => m
  end.
Definition missing_blueprint (teacher_prompt : str) (m : Map) : Map :=
  if lacks "document_blueprint" m then
    match map_get (lit "blueprint") m, map_get (lit "document") m with
    | Some bp, _ => put "document_blueprint" bp (swap_remove (lit "blueprint") m)
    | None, Some bp => put "document_blueprint" bp (swap_remove (lit "document") m)
    | None, None => put "document_blueprint" (blueprint_of_prompt teacher_prompt) m
    end
  else m.
Definition complete_blueprint (teacher_prompt : str) (bp : Map) : Map :=
  let bp := ensure lacks_text "title" (String (truncate_str teacher_prompt 200)) bp in
  let bp := ensure lacks_text "summary" (String (truncate_str teacher_prompt 1000)) bp in
  match map_get (lit "sections") bp with
  | Some (Array ((_ :: _) as sections)) => put "sections" (Array (repair_section <$> sections)) bp
  | _ => put "sections" (requested_sections teacher_prompt) bp
  end.
Definition fix_document_blueprint (teacher_prompt : str) (m : Map) : Map :=
  edit "document_blueprint" (complete_blueprint teacher_prompt) (missing_blueprint teacher_prompt (text_blueprint m)).

Definition complete_intent (teacher_prompt : str) (m : Map) : Map :=
  let m := ensure lacks_text "type" (jstr "generate_learning_media") m in
  let m := ensure lacks_text "goal" (String (truncate_str teacher_prompt 500)) m in
  let m := ensure lacks_text "preferred_delivery_mode" (jstr "digital_download") m in
  ensure lacks "requires_clarification" (Bool false) m.
Definition fix_teacher_intent (teacher_prompt : str) (m : Map) : Map :=
  match map_get (lit "teacher_intent") m with
  | Some _ => edit "teacher_intent" (complete_intent teacher_prompt) m
  | None =>
      put "teacher_intent"
        (obj [("type", jstr "generate_learning_media"); ("goal", String (truncate_str teacher_prompt 500));
              ("preferred_delivery_mode", jstr "digital_download"); ("requires_clarification", Bool false)]%string) m
  end.

Definition fix_constraints (m : Map) : Map :=
  match map_get (lit "constraints") m with
  | Some _ => edit "constraints" (ensure lacks_text "preferred_output_type" (jstr "auto")) m
  | None => put "constraints" (obj [("preferred_output_type", jstr "auto")]%string) m
  end.

Definition confidence_label (s : f64) : string :=
  if f64_ge s (f64_lit 8 1) then "high" else if f64_ge s (f64_lit 5 1) then "medium" else "low".
Definition label_score (label : str) : f64 :=
  let eq k := bool_decide (label = lit k) in
  if eq "high"%string || eq "very high"%string then f64_lit 9 1
  else if eq "medium"%string || eq "moderate"%string then f64_lit 6 1
  else if eq "low"%string || eq "very low"%string then f64_lit 3 1
  else f64_lit 6 1.
Definition score_text_to_number (k : string) (dflt : f64) (m : Map) : Map :=
  if lacks k m then put k (jfloat dflt) m
  else match str_field k m with
       | Some s => put k (jfloat (default dflt (parse_f64 s))) m
       | None => m
       end.
Arguments score_text_to_number k%_string dflt m.
Definition scalar_confidence (confidence : value) : value :=
  let '(score, label) :=
    match confidence with
    | Number n => let s := default (f64_lit 6 1) (as_f64 (Number n)) in (s, lit (confidence_label s))
    | String s =>
        match parse_f64 (trim s) with
        | Some n => (n, lit (confidence_label n))
        | None =>
            let label := to_lowercase (trim s) in
            (label_score label, if bool_decide (label = []) then lit "medium" else label)
        end
    | _ => (f64_lit 6 1, lit "medium")
    end in
  obj [("score", jfloat score); ("label", String label)]%string.
Definition fix_confidence (m : Map) : Map :=
  match map_get (lit "confidence") m with
  | Some (Object c) =>
      put "confidence"
        (Object (score_text_to_number "score" (f64_lit 6 1) (ensure lacks_text "label" (jstr "medium") c))) m
  | Some confidence => put "confidence" (scalar_confidence confidence) m
  | None => put "confidence" (obj [("score", jfloat (f64_lit 6 1)); ("label", jstr "medium")]%string) m
  end.

Definition fix_delivery_summary (teacher_prompt : str) : Map -> Map :=
  ensure lacks_text "teacher_delivery_summary" (String (truncate_str teacher_prompt 1000)).
Definition fix_language (teacher_prompt : str) : Map -> Map :=
  ensure lacks_text "language" (String (detect_language teacher_prompt)).
Definition fix_reasoning : Map -> Map :=
  ensure lacks_text "resolved_output_type_reasoning" (jstr "Auto-selected based on content analysis.").
Definition fix_content_integrity : Map -> Map :=
  edit "content_integrity" (λ m,
    ensure lacks_text "classification_source" (jstr "llm_interpret")
      (score_text_to_number "integrity_score" (f64_lit 8 1) m)).

Definition fix_asset (asset : value) : value :=
  match asset with
  | Object m =>
      Object (if lacks "required" m then put "required" (Bool true) m
              else match str_field "required" m with
                   | Some s => put "required" (Bool (bool_decide (to_lowercase s = lit "true"))) m
                   | None => m
                   end)
  | _ => asset
  end.
Definition fix_assets (m : Map) : Map :=
  match map_get (lit "assets") m with
  | Some (Array arr) => put "assets" (Array (fix_asset <$> arr)) m
  | _ => m
  end.

Definition objective_text (item : value) : value :=
  match item with
  | String s => String s
  | Object m => String (default (lit "Objective") (head m.*2 ≫= as_str))
  | other => String (json_text other)
  end.
Definition fix_learning_objectives (m : Map) : Map :=
  if lacks "learning_objectives" m then put "learning_objectives" (Array []) m
  else match map_get (lit "learning_objectives") m with
       | Some (Array arr) => put "learning_objectives" (Array (objective_text <$> arr)) m
       | _ => m
       end.

Definition inferred_plan_mode (m : Map) : value :=
  let requires_clarification := default false (path2 "teacher_intent" "requires_clarification" m ≫= as_bool) in
  let confidence_score := default (f64_lit 6 1) (path2 "confidence" "score" m ≫= as_f64) in
  let plan_active := requires_clarification || f64_lt confidence_score (f64_lit 5 1) in
  obj [("active", Bool plan_active);
       ("reason", if plan_active
                  then jstr "Prompt lacks required information for media generation. Teacher clarification needed."
                  else Null);
       ("detected_content_type", Null); ("content_type_confidence", jfloat confidence_score)]%string.
Definition fix_plan_mode (m : Map) : Map :=
  if lacks "plan_mode" m then put "plan_mode" (inferred_plan_mode m) m
  else edit "plan_mode" (ensure lacks "active" (Bool false)) m.

Definition numeric (o : option str) : option str :=
  s ← o; if parse_i64 s is Some _ then Some s else None.
Definition detect_slide_count_from_prompt (prompt : str) : option str := numeric (detect_slide_count prompt).
Definition detect_page_count_from_prompt (prompt : str) : option str := numeric (detect_page_count prompt).

Definition inferred_fields (teacher_prompt : str) (m : Map) : value :=
  let target_audience :=
    match path2 "target_audience" "label" m ≫= as_str with
    | Some s => Some s
    | None => str_field "target_audience" m
    end in
  let output_type := s ← path2 "constraints" "preferred_output_type" m ≫= as_str;
                     if bool_decide (s = lit "auto") then None else Some s in
  let subject := path2 "subject_context" "subject_name" m ≫= as_str in
  let topic := path2 "document_blueprint" "title" m ≫= as_str in
  let learning_objectives := arr ← map_get (lit "learning_objectives") m ≫= as_array;
                             let v := omap as_str arr in if bool_decide (v = []) then None else Some v in
  obj [("target_audience", jopt String target_audience); ("output_type", jopt String output_type);
       ("subject", jopt String subject); ("topic", jopt String topic);
       ("learning_objectives", jopt jstrings learning_objectives);
       ("page_count", jopt String (detect_page_count_from_prompt teacher_prompt));
       ("difficulty_level", Null); ("include_activities", Null);
       ("slide_count", jopt String (detect_slide_count_from_prompt teacher_prompt));
       ("question_count", Null); ("meeting_duration", Null); ("teaching_method", Null);
       ("assessment_method", Null); ("visual_density", Null); ("speaker_notes", Null);
       ("question_type", Null)]%string.
Definition fill_count (k : string) (detected : option str) (m : Map) : Map :=
  match detected with Some s => ensure lacks k (String s) m | None => m end.
Arguments fill_count k%_string detected m.
Definition fix_interpreted_fields (teacher_prompt : str) (m : Map) : Map :=
  if lacks "interpreted_fields" m then put "interpreted_fields" (inferred_fields teacher_prompt m) m
  else edit "interpreted_fields" (λ f,
         fill_count "page_count" (detect_page_count_from_prompt teacher_prompt)
           (fill_count "slide_count" (detect_slide_count_from_prompt teacher_prompt) f)) m.

Definition repair_missing_field (item : value) : option value :=
  match item with
  | Object m =>
      let field_id := default [] (str_field "field_id" m) in
      let field_label := default field_id (str_field "field_label" m) in
      let priority := default (lit "required") (str_field "priority" m) in
      let question := default [] (str_field "question" m) in
      let input_type := default (lit "select") (str_field "input_type" m) in
      if bool_decide (field_id = []) || bool_decide (question = []) then None
      else Some (obj [("field_id", String field_id); ("field_label", String field_label);
                      ("priority", String priority); ("question", String question);
                      ("suggestions", default (Array []) (map_get (lit "suggestions") m));
                      ("input_type", String input_type)]%string)
  | _ => None
  end.
Definition fix_missing_fields (m : Map) : Map :=
  if lacks "missing_fields" m then put "missing_fields" (Array []) m
  else match map_get (lit "missing_fields") m with
       | Some (Array arr) => put "missing_fields" (Array (omap repair_missing_field arr)) m
       | _ => m
       end.

(** ** The repair, the decoder *)

Definition steps (teacher_prompt : str) : list (Map -> Map) :=
  [fix_schema_version; fix_teacher_prompt teacher_prompt; fix_output_type_candidates; fix_max_duration;
   fix_document_blueprint teacher_prompt; fix_teacher_intent teacher_prompt; fix_constraints;
   fix_confidence; fix_delivery_summary teacher_prompt; fix_language teacher_prompt; fix_reasoning;
   fix_content_integrity; fix_assets; fix_learning_objectives; fix_plan_mode;
   fix_interpreted_fields teacher_prompt; fix_missing_fields].
Definition prompt_of (m : Map) : str := default (lit "Learning material") (str_field "teacher_prompt" m).
Definition repair_object (m : Map) : Map := foldl (λ m step, step m) m (steps (prompt_of m)).

Definition extract_json (raw : str) : str :=
  let trimmed := trim raw in
  match find trimmed (lit "{"), rfind_char trimmed 125 with
  | Some start, Some end_ =>
      if (start <? end_)%nat then default trimmed (slice_to (end_ + 1) trimmed ≫= slice_from start) else trimmed
  | _, _ =>
      let cleaned :=
        if starts_with (lit "```json") trimmed then trim (trim_start_matches (lit "```json") trimmed)
        else if starts_with (lit "```") trimmed then trim (trim_start_matches (lit "```") trimmed)
        else trimmed in
      if ends_with (lit "```") cleaned then trim (trim_end_matches (lit "```") cleaned) else cleaned
  end.

Section Text.
Context `{SerdeJson}.

Definition repair_interpretation_json (raw : str) : str :=
  let cleaned := extract_json raw in
  match parse_json cleaned with
  | None => cleaned
  | Some (Object m) => json_text (Object (repair_object m))
  | Some _ => raw
  end.

Record ContractValidationError := mkContractValidationError {
  code : str;
  message : str;
  details : value;
  raw_completion : str
}.

(** [Display for ContractValidationError]. *)
Definition contract_error_text (e : ContractValidationError) : str :=
  lit "[" ++ code e ++ lit "] " ++ message e ++ lit ": " ++ json_text (details e).

Context `{GardeLength}.
(** The text of the validation errors of a payload. *)
Context (garde_report : InterpretationPayload -> str).

Definition decode_and_validate (raw_json : str) : ContractValidationError + InterpretationPayload :=
  let trimmed := trim raw_json in
  if bool_decide (trimmed = []) then
    inl (mkContractValidationError (lit "empty_completion") (lit "Provider completion was empty.")
           (obj [("reason", jstr "empty_completion")]%string) raw_json)
  else
    match parse_payload (repair_interpretation_json trimmed) with
    | inl e =>
        inl (mkContractValidationError (lit "provider_response_contract_invalid")
               (lit "Failed to decode interpretation completion as JSON: " ++ e)
               (obj [("json_error", String e)]%string) raw_json)
    | inr payload =>
        if validate_payload payload then inr payload
        else inl (mkContractValidationError (lit "provider_response_contract_invalid")
                    (lit "Provider completion failed MediaPromptInterpretationSchema validation.")
                    (obj [("errors", String (garde_report payload))]%string) raw_json)
    end.
End Text.

(** ** The fallback *)

Definition mentions (s : str) (words : list string) : bool := existsb (λ w, str_contains s (lit w)) words.
Definition fallback_preference (teacher_prompt preferred_output_type : str) : str :=
  let normalized_pref := to_lowercase preferred_output_type in
  let prompt_lower := to_lowercase teacher_prompt in
  if bool_decide (normalized_pref = lit "auto") then
    if mentions prompt_lower ["ppt"; "powerpoint"; "slide"; "presentasi"]%string then lit "pptx"
    else if mentions prompt_lower ["word"; "docx"; "dokumen"]%string then lit "docx" else lit "pdf"
  else normalized_pref.
Definition fallback_candidate (pref : str) (type reason : string) : OutputCandidate :=
  mkOutputCandidate (lit type) (if bool_decide (pref = lit type) then f64_lit 95 2 else f64_lit 40 2) (lit reason).
Definition fallback_candidates (pref : str) : list OutputCandidate :=
  sort_by (λ a b, default Eq (f64_cmp (oc_score b) (oc_score a)))
    [fallback_candidate pref "pdf" "Default PDF fallback.";
     fallback_candidate pref "docx" "Default DOCX fallback.";
     fallback_candidate pref "pptx" "Default PPTX fallback."].

Definition fallback (teacher_prompt preferred_output_type : str) : InterpretationPayload :=
  let candidates := fallback_candidates (fallback_preference teacher_prompt preferred_output_type) in
  let top_type := default (lit "pdf") (oc_type <$> head candidates) in
  mkInterpretationPayload SCHEMA_VERSION teacher_prompt (detect_language teacher_prompt)
    (mkTeacherIntent (lit "generate_learning_media") (truncate_str teacher_prompt 500)
       (lit "digital_download") false)
    [] (mkInterpretationConstraints preferred_output_type None [] [] None) candidates
    (lit "Fallback honored output type: " ++ top_type)
    (mkDocumentBlueprint (truncate_str teacher_prompt 200) (truncate_str teacher_prompt 1000)
       [mkBlueprintSection (lit "Requested Content") (lit "Deliver the requested learning material clearly.")
          [truncate_str teacher_prompt 300] (lit "medium")])
    None None None default_characteristics [] [] (truncate_str teacher_prompt 1000)
    (mkConfidence (f64_lit 6 1) (lit "medium") None)
    (mkInterpretationFallback true (Some (lit "provider_response_contract_invalid"))
       (Some (lit "fallback_from_interpretation")))
    None None default_plan_mode None [].
End Repair.

(** ** Lemmas: which keys a step writes *)

Lemma map_get_elem k v (m : Map) : NoDup (keys m) -> map_get k m = Some v <-> (k, v) ∈ m.
Proof.
  induction m as [|[k' v'] m IH]; cbn [map_get keys fmap list_fmap fst]; intros Hnd.
  { split; [done|]. by intros ?%not_elem_of_nil. }
  apply NoDup_cons in Hnd as [Hk Hnd]. destruct (decide (k = k')) as [->|Hne].
  - split; [intros [= ->]; by left|]. intros [[= ->]|Hin]%elem_of_cons; [done|].
    destruct Hk. apply list_elem_of_fmap. by exists (k', v).
  - rewrite IH by done. rewrite elem_of_cons. split; [by right|]. by intros [[= -> ->]|Hin].
Qed.

Lemma map_get_perm_without k v x (m m' : Map) :
  NoDup (keys m) -> m ≡ₚ (k, v) :: m' -> x <> k -> map_get x m' = map_get x m.
Proof.
  intros Hnd Hp Hx. assert (NoDup (k :: keys m')) as [_ Hnd']%NoDup_cons.
  { change (NoDup ((k, v) :: m').*1). by rewrite <- Hp. }
  apply option_eq. intros u. rewrite !map_get_elem by done. rewrite Hp, elem_of_cons.
  split; [by right|]. by intros [[= -> _]|].
Qed.

Lemma position_lookup k m i : position k m = Some i -> exists v, m !! i = Some (k, v).
Proof.
  revert i. induction m as [|[k' v'] m IH]; intros i; cbn [position]; [done|].
  destruct (decide (k = k')) as [->|_]; [intros [= <-]; by exists v'|].
  destruct (position k m) as [j|]; [|done]. intros [= <-]. destruct (IH j eq_refl) as [v Hv]. by exists v.
Qed.

Lemma swap_remove_perm k m : swap_remove k m = m \/ exists v, m ≡ₚ (k, v) :: swap_remove k m.
Proof.
  unfold swap_remove. destruct (position k m) as [i|] eqn:Hi; [|by left].
  destruct (last m) as [x|] eqn:Hx; [|by left]. right. apply position_lookup in Hi as [v Hv]. exists v.
  apply last_Some in Hx as [m0 ->]. rewrite length_app. cbn [length].
  replace (length m0 + 1 - 1)%nat with (length m0) by lia. rewrite take_app_length. case_decide as Hlast.
  - subst i. rewrite lookup_app_r in Hv by lia. rewrite Nat.sub_diag in Hv. injection Hv as ->.
    by rewrite Permutation_app_comm.
  - assert (i < length m0)%nat as Hlt.
    { apply lookup_lt_Some in Hv as Hb. rewrite length_app in Hb. cbn [length] in Hb. lia. }
    rewrite lookup_app_l in Hv by done. rewrite <- (take_drop_middle m0 i (k, v) Hv) at 1.
    rewrite insert_take_drop by done. solve_Permutation.
Qed.

Lemma swap_remove_spec k m :
  NoDup (keys m) ->
  NoDup (keys (swap_remove k m)) /\ forall x, x <> k -> map_get x (swap_remove k m) = map_get x m.
Proof.
  intros Hnd. destruct (swap_remove_perm k m) as [->|[v Hp]]; [done|]. split.
  - assert (NoDup (k :: keys (swap_remove k m))) as [_ H]%NoDup_cons; [|done].
    change (NoDup ((k, v) :: swap_remove k m).*1). by rewrite <- Hp.
  - intros x Hx. by eapply map_get_perm_without.
Qed.

Lemma map_insert_nodup k v m : NoDup (keys m) -> NoDup (keys (map_insert k v m)).
Proof.
  induction m as [|[k' v'] m IH]; intros Hnd; cbn [map_insert]; [by apply NoDup_singleton|].
  change (NoDup (k' :: keys m)) in Hnd. apply NoDup_cons in Hnd as [Hk Hnd].
  destruct (decide (k = k')) as [->|Hne]; [by apply NoDup_cons|].
  change (NoDup (k' :: keys (map_insert k v m))). apply NoDup_cons. split; [|by apply IH].
  rewrite map_insert_keys. by intros [->|].
Qed.

(** [f] keeps the keys distinct and writes no key but those of [ks]. *)
Definition only (ks : list string) (f : Map -> Map) : Prop :=
  forall m, NoDup (keys m) ->
  NoDup (keys (f m)) /\ forall x, x ∉ ks -> map_get (lit x) (f m) = map_get (lit x) m.

Lemma only_id ks : only ks (λ m, m).
Proof. by split. Qed.
Lemma only_compose ks f g : only ks f -> only ks g -> only ks (λ m, g (f m)).
Proof.
  intros Hf Hg m Hm. destruct (Hf m Hm) as [Hfm Hfx], (Hg (f m) Hfm) as [Hgm Hgx]. split; [done|].
  intros x Hx. by rewrite Hgx, Hfx.
Qed.
Lemma only_put k v ks : k ∈ ks -> only ks (put k v).
Proof.
  intros Hk m Hm. split; [by apply map_insert_nodup|]. intros x Hx. apply map_get_insert_ne.
  intros Heq%lit_inj. congruence.
Qed.
Lemma only_swap_remove k ks : k ∈ ks -> only ks (swap_remove (lit k)).
Proof.
  intros Hk m Hm. destruct (swap_remove_spec (lit k) m Hm) as [Hn Hx]. split; [done|]. intros x Hin.
  apply Hx. intros Heq%lit_inj. congruence.
Qed.
(** A step may choose what to do by the object it is given. *)
Lemma only_pointwise ks (f : Map -> Map) : (forall m, exists g, f m = g m /\ only ks g) -> only ks f.
Proof. intros Hf m Hm. destruct (Hf m) as (g & -> & Hg). by apply Hg. Qed.
Lemma only_edit k f ks : k ∈ ks -> only ks (edit k f).
Proof.
  intros Hk. apply only_pointwise. intros m. unfold edit.
  destruct (map_get (lit k) m) as [[]|]; try (exists (λ m, m); split; [done|apply only_id]).
  eexists (put k _). split; [done|]. by apply only_put.
Qed.
Lemma only_ensure p k v ks : k ∈ ks -> only ks (ensure p k v).
Proof.
  intros Hk. apply only_pointwise. intros m. unfold ensure. destruct (p k m).
  - exists (put k v). split; [done|]. by apply only_put.
  - exists (λ m, m). split; [done|apply only_id].
Qed.

Lemma put_get k v m : map_get (lit k) (put k v m) = Some v.
Proof. apply map_get_insert_eq. Qed.
Lemma edit_get k f m :
  map_get (lit k) (edit k f m) = (match map_get (lit k) m with Some (Object o) => Some (Object (f o)) | o => o end).
Proof.
  unfold edit. destruct (map_get (lit k) m) as [[]|] eqn:E; try exact E. apply put_get.
Qed.
Lemma ensure_lacks_get k v m :
  map_get (lit k) (ensure lacks k v m) = Some (match map_get (lit k) m with None | Some Null => v | Some u => u end).
Proof.
  unfold ensure, lacks. destruct (map_get (lit k) m) as [[]|] eqn:E; try exact E; apply put_get.
Qed.
Lemma ensure_lacks_text_get k v m :
  map_get (lit k) (ensure lacks_text k v m)
  = Some (match map_get (lit k) m with None | Some Null | Some (String []) => v | Some u => u end).
Proof.
  unfold ensure, lacks_text. destruct (map_get (lit k) m) as [[| | |[]| |]|] eqn:E; try exact E; apply put_get.
Qed.

Section Steps.
Context `{CaseTables} `{JsonLex} `{Regexes}.

(** Prove that a step writes [k] only: it puts a value there or does nothing. *)
Ltac one_key :=
  apply only_pointwise; intros m;
  repeat (case_match; try (eexists (put _ _); split; [reflexivity|apply only_put; set_solver]));
  try (exists (λ m, m); split; [reflexivity|apply only_id]);
  try (eexists (edit _ _); split; [reflexivity|apply only_edit; set_solver]).

Lemma fix_output_type_candidates_only : only ["output_type_candidates"%string] fix_output_type_candidates.
Proof. unfold fix_output_type_candidates. one_key. Qed.
Lemma text_blueprint_only : only ["document_blueprint"; "blueprint"; "document"]%string text_blueprint.
Proof. unfold text_blueprint. one_key. Qed.
Lemma missing_blueprint_only p :
  only ["document_blueprint"; "blueprint"; "document"]%string (missing_blueprint p).
Proof.
  apply only_pointwise. intros m. unfold missing_blueprint. destruct (lacks "document_blueprint" m);
    [|exists (λ m, m); split; [done|apply only_id]].
  destruct (map_get (lit "blueprint") m) as [bp|] eqn:Eb; [|destruct (map_get (lit "document") m) as [bp|] eqn:Ed].
  - exists (λ m, put "document_blueprint" bp (swap_remove (lit "blueprint") m)). split; [done|].
    apply only_compose; [apply only_swap_remove|apply only_put]; set_solver.
  - exists (λ m, put "document_blueprint" bp (swap_remove (lit "document") m)). split; [done|].
    apply only_compose; [apply only_swap_remove|apply only_put]; set_solver.
  - eexists (put "document_blueprint" _). split; [done|]. apply only_put. set_solver.
Qed.
Lemma fix_document_blueprint_only p :
  only ["document_blueprint"; "blueprint"; "document"]%string (fix_document_blueprint p).
Proof.
  apply (only_compose _ (λ m, missing_blueprint p (text_blueprint m))); [|apply only_edit; set_solver].
  apply only_compose; [apply text_blueprint_only|apply missing_blueprint_only].
Qed.
Lemma fix_teacher_intent_only p : only ["teacher_intent"%string] (fix_teacher_intent p).
Proof. unfold fix_teacher_intent. one_key. Qed.
Lemma fix_constraints_only : only ["constraints"%string] fix_constraints.
Proof. unfold fix_constraints. one_key. Qed.
Lemma fix_confidence_only : only ["confidence"%string] fix_confidence.
Proof. unfold fix_confidence. one_key. Qed.
Lemma fix_assets_only : only ["assets"%string] fix_assets.
Proof. unfold fix_assets. one_key. Qed.
Lemma fix_learning_objectives_only : only ["learning_objectives"%string] fix_learning_objectives.
Proof. unfold fix_learning_objectives. one_key. Qed.
Lemma fix_plan_mode_only : only ["plan_mode"%string] fix_plan_mode.
Proof. unfold fix_plan_mode. one_key. Qed.
Lemma fix_interpreted_fields_only p : only ["interpreted_fields"%string] (fix_interpreted_fields p).
Proof. unfold fix_interpreted_fields. one_key. Qed.
Lemma fix_missing_fields_only : only ["missing_fields"%string] fix_missing_fields.
Proof. unfold fix_missing_fields. one_key. Qed.

(** The keys each step writes. *)
Definition writes : list (list string) :=
  [["schema_version"]; ["teacher_prompt"]; ["output_type_candidates"]; ["constraints"];
   ["document_blueprint"; "blueprint"; "document"]; ["teacher_intent"]; ["constraints"]; ["confidence"];
   ["teacher_delivery_summary"]; ["language"]; ["resolved_output_type_reasoning"]; ["content_integrity"];
   ["assets"]; ["learning_objectives"]; ["plan_mode"]; ["interpreted_fields"]; ["missing_fields"]]%string.

Lemma steps_only p : Forall2 only writes (steps p).
Proof.
  unfold writes, steps, fix_schema_version, fix_teacher_prompt, fix_max_duration, fix_delivery_summary,
    fix_language, fix_reasoning, fix_content_integrity.
  repeat (apply Forall2_cons; split); try (apply only_ensure; set_solver); try (apply only_edit; set_solver).
  - apply fix_output_type_candidates_only.
  - apply fix_document_blueprint_only.
  - apply fix_teacher_intent_only.
  - apply fix_constraints_only.
  - apply fix_confidence_only.
  - apply fix_assets_only.
  - apply fix_learning_objectives_only.
  - apply fix_plan_mode_only.
  - apply fix_interpreted_fields_only.
  - apply fix_missing_fields_only.
  - apply Forall2_nil_2.
Qed.

Lemma foldl_only ws fs m :
  Forall2 only ws fs -> NoDup (keys m) ->
  NoDup (keys (foldl (λ m f, f m) m fs))
  /\ forall x, Forall (λ w, x ∉ w) ws -> map_get (lit x) (foldl (λ m f, f m) m fs) = map_get (lit x) m.
Proof.
  intros Hall. revert m. induction Hall as [|w f ws fs Hf _ IH]; intros m Hm; cbn [foldl]; [done|].
  destruct (Hf m Hm) as [Hfm Hfx]. destruct (IH (f m) Hfm) as [Hn Hx]. split; [exact Hn|].
  intros x [Hxw Hxs]%Forall_cons. by rewrite Hx, Hfx.
Qed.

(** The steps but the [i]-th leave [x] alone. *)
Definition only_step (i : nat) (x : string) : bool :=
  bool_decide (Forall (λ w, x ∉ w) (take i writes ++ drop (S i) writes)).
Lemma repaired_by i x step m :
  NoDup (keys m) -> steps (prompt_of m) !! i = Some step -> only_step i x = true ->
  exists m', NoDup (keys m') /\ map_get (lit x) m' = map_get (lit x) m
  /\ (forall y, Forall (λ w, y ∉ w) (take i writes) -> map_get (lit y) m' = map_get (lit y) m)
  /\ map_get (lit x) (repair_object m) = map_get (lit x) (step m').
Proof.
  intros Hm Hi [Hbefore Hafter]%bool_decide_eq_true%Forall_app. unfold repair_object.
  rewrite <- (take_drop_middle _ _ _ Hi), foldl_app. cbn [foldl].
  pose proof (steps_only (prompt_of m)) as Hall.
  destruct (foldl_only (take i writes) (take i (steps (prompt_of m))) m) as [Hn Hx];
    [by apply Forall2_take|done|].
  set (m' := foldl _ m (take i _)) in *. exists m'.
  split; [done|]. split; [by apply Hx|]. split; [exact Hx|].
  assert (exists w, only w step) as [w Hw].
  { apply (Forall2_lookup_r _ _ _ i step) in Hall as (w & _ & Hw); [by exists w|done]. }
  destruct (foldl_only (drop (S i) writes) (drop (S i) (steps (prompt_of m))) (step m')) as [_ Hy];
    [by apply Forall2_drop|by apply Hw|]. by apply Hy.
Qed.

Lemma repair_nodup m : NoDup (keys m) -> NoDup (keys (repair_object m)).
Proof. intros Hm. apply (foldl_only writes (steps (prompt_of m)) m); [apply steps_only|done]. Qed.

(** ** Lemmas: null fields *)

(** Null is not repaired under these keys. *)
Definition strict_keys : list string :=
  ["teacher_intent"; "output_type_candidates"; "constraints"; "requested_media_characteristics"; "assets";
   "assessment_or_activity_blocks"; "fallback"]%string.
(** ... and is replaced under these. *)
Definition repaired_keys : list string :=
  ["schema_version"; "teacher_prompt"; "confidence"; "teacher_delivery_summary"; "language";
   "resolved_output_type_reasoning"; "learning_objectives"; "plan_mode"; "interpreted_fields";
   "missing_fields"]%string.

Lemma edit_null k f x m : map_get (lit x) m = Some Null -> map_get (lit x) (edit k f m) = Some Null.
Proof.
  intros Hx. destruct (decide (x = k)) as [->|Hne]; [by rewrite edit_get, Hx|].
  unfold edit. destruct (map_get (lit k) m) as [[]|]; try exact Hx. unfold put.
  by rewrite map_get_insert_ne by (intros Heq%lit_inj; congruence).
Qed.

Lemma null_kept i x w f p m :
  x ∈ strict_keys -> writes !! i = Some w -> steps p !! i = Some f -> NoDup (keys m) ->
  map_get (lit x) m = Some Null -> map_get (lit x) (f m) = Some Null.
Proof.
  intros Hx Hw Hf Hm Hnull. destruct (decide (x ∈ w)) as [Hin|Hnin].
  - destruct i as [|[|[|[|[|[|[|[|[|[|[|[|[|[|[|[|[|i]]]]]]]]]]]]]]]]]; try done; injection Hw as <-; injection Hf as <-;
      try (exfalso; clear -Hx Hin; revert Hx Hin; unfold strict_keys; set_solver).
    all: apply list_elem_of_singleton in Hin as ->.
    all: try (apply edit_null, Hnull).
    + unfold fix_output_type_candidates. by rewrite Hnull.
    + unfold fix_teacher_intent. rewrite Hnull. apply edit_null, Hnull.
    + unfold fix_constraints. rewrite Hnull. apply edit_null, Hnull.
    + unfold fix_assets. by rewrite Hnull.
  - destruct (Forall2_lookup_lr _ _ _ i w f (steps_only p) Hw Hf m Hm) as [_ Hget]. by rewrite Hget.
Qed.

Lemma null_never_repaired x m :
  x ∈ strict_keys -> NoDup (keys m) -> map_get (lit x) m = Some Null ->
  map_get (lit x) (repair_object m) = Some Null.
Proof.
  intros Hx Hm Hnull. unfold repair_object. generalize (prompt_of m) as p. intros p.
  assert (forall ws fs, Forall2 only ws fs ->
    (forall i w f, ws !! i = Some w -> fs !! i = Some f -> forall m, NoDup (keys m) ->
       map_get (lit x) m = Some Null -> map_get (lit x) (f m) = Some Null) ->
    forall m, NoDup (keys m) -> map_get (lit x) m = Some Null ->
      map_get (lit x) (foldl (λ m f, f m) m fs) = Some Null) as Hgen.
  { clear. induction 1 as [|w f ws fs Hf Hfs IH]; intros Hkeep m Hm Hnull; cbn [foldl]; [done|].
    apply IH; [intros i; apply (Hkeep (S i))|by apply Hf|by apply (Hkeep 0%nat w f)]. }
  apply (Hgen writes); [apply steps_only| |done|done].
  intros i w f Hw Hf m' Hm'. by eapply null_kept.
Qed.

(** ** Lemmas: what a decoded payload says of its object *)

Lemma struct_fields_lookup names m fs i k :
  struct_fields names (Object m) = Some fs -> names !! i = Some [k] -> fs !! i = Some (map_get (lit k) m).
Proof.
  cbn [struct_fields]. intros Hfs%mapM_Some Hk. destruct (Forall2_lookup_l _ _ _ _ _ Hfs Hk) as (f & Hf & Hin).
  rewrite field_in_single in Hin. congruence.
Qed.

Lemma payload_fields m p :
  decode_InterpretationPayload (Object m) = Some p ->
  required d_string (map_get (lit "teacher_prompt") m) = Some (ip_teacher_prompt p)
  /\ (exists v, required decode_DocumentBlueprint (map_get (lit "document_blueprint") m) = Some v
      /\ ip_document_blueprint p = v)
  /\ forall x, x ∈ strict_keys -> map_get (lit x) m <> Some Null.
Proof.
  unfold decode_InterpretationPayload. intros (fs & Hfs & Hp)%bind_Some.
  assert (forall i k, InterpretationPayload_keys !! i = Some [k] -> fs !! i = Some (map_get (lit k) m)) as Hget
    by (intros; by eapply struct_fields_lookup).
  pose proof (Hget 1%nat _ eq_refl) as E1. pose proof (Hget 3%nat _ eq_refl) as E3.
  pose proof (Hget 5%nat _ eq_refl) as E5. pose proof (Hget 6%nat _ eq_refl) as E6.
  pose proof (Hget 8%nat _ eq_refl) as E8. pose proof (Hget 12%nat _ eq_refl) as E12.
  pose proof (Hget 13%nat _ eq_refl) as E13. pose proof (Hget 14%nat _ eq_refl) as E14.
  pose proof (Hget 17%nat _ eq_refl) as E17. clear Hget Hfs.
  do 23 (destruct fs as [|? fs]; [done|]). destruct fs; [|done].
  cbn [lookup list_lookup] in *. simplify_eq.
  repeat (let y := fresh in let Hy := fresh in apply bind_Some in Hp as (y & Hy & Hp)). injection Hp as <-. cbn [ip_teacher_prompt ip_document_blueprint].
  split; [done|]. split; [by eexists|]. intros x Hx Hnull. unfold strict_keys in Hx.
  repeat (apply elem_of_cons in Hx as [->|Hx]); try (by apply not_elem_of_nil in Hx);
    match goal with Hn : map_get ?k m = Some Null, Hd : _ (map_get ?k m) = Some _ |- _ =>
      rewrite Hn in Hd; discriminate Hd end.
Qed.

(** The value a step leaves under its key, when the key was null. *)
Ltac repaired i :=
  match goal with Hm : NoDup (keys ?m), Hnull : map_get (lit ?x) ?m = Some Null |- _ =>
    let m' := fresh "m" in let Hget := fresh "Hget" in
    destruct (repaired_by i x _ m Hm eq_refl eq_refl) as (m' & _ & Hget & _ & ->); rewrite Hnull in Hget
  end.

(** Which nulls the repair deals with. A reply whose object has null under one of ten keys gets
    another value there: the version, a text made from the prompt, a default or an inferred
    structure. Null under one of seven others, which the contract gives a type or a default, is never
    repaired, and then no payload is decoded. *)
Lemma repair_null_fields (x : string) (m : Map) :
  NoDup (keys m) -> map_get (lit x) m = Some Null ->
  (x ∈ repaired_keys -> exists v, map_get (lit x) (repair_object m) = Some v /\ v <> Null)
  /\ (x ∈ strict_keys -> decode_InterpretationPayload (Object (repair_object m)) = None).
Proof.
  intros Hm Hnull. split; intros Hx.
  - unfold repaired_keys in Hx.
    repeat (apply elem_of_cons in Hx as [->|Hx]); try (by apply not_elem_of_nil in Hx).
    + repaired 0%nat. unfold fix_schema_version. rewrite ensure_lacks_get, Hget. eauto.
    + repaired 1%nat. unfold fix_teacher_prompt. rewrite ensure_lacks_text_get, Hget. eauto.
    + repaired 7%nat. unfold fix_confidence. rewrite Hget, put_get. eauto.
    + repaired 8%nat. unfold fix_delivery_summary. rewrite ensure_lacks_text_get, Hget. eauto.
    + repaired 9%nat. unfold fix_language. rewrite ensure_lacks_text_get, Hget. eauto.
    + repaired 10%nat. unfold fix_reasoning. rewrite ensure_lacks_text_get, Hget. eauto.
    + repaired 13%nat. unfold fix_learning_objectives, lacks. rewrite Hget, put_get. eauto.
    + repaired 14%nat. unfold fix_plan_mode, lacks. rewrite Hget, put_get. eauto.
    + repaired 15%nat. unfold fix_interpreted_fields, lacks. rewrite Hget, put_get. eauto.
    + repaired 16%nat. unfold fix_missing_fields, lacks. rewrite Hget, put_get. eauto.
  - destruct (decode_InterpretationPayload (Object (repair_object m))) as [p|] eqn:Hp; [|done].
    apply payload_fields in Hp as (_ & _ & Hstrict). destruct (Hstrict x Hx). by apply null_never_repaired.
Qed.

(** ** Lemmas: truncation *)

Lemma ascii_take n s : ascii_str s -> ascii_str (take n s).
Proof. apply Forall_take. Qed.

Lemma truncate_str_ascii v max :
  ascii_str v ->
  truncate_str v max = if decide (length (trim v) <= max)%nat then trim v else take max (trim v) ++ lit "...".
Proof.
  intros Hv%ascii_trim. unfold truncate_str. rewrite ascii_str_len by by apply ascii_take.
  rewrite length_take. case_decide as Hlen.
  - rewrite (proj2 (Nat.ltb_ge _ _)) by lia. by rewrite take_ge.
  - rewrite (proj2 (Nat.ltb_lt _ _)) by lia. done.
Qed.

Lemma truncate_str_ascii_length v max :
  ascii_str v -> length (truncate_str v max) = if decide (length (trim v) <= max)%nat then length (trim v) else (max + 3)%nat.
Proof.
  intros Hv. rewrite truncate_str_ascii by done. case_decide; [done|].
  rewrite length_app, length_take. cbn [length lit]. change (length (lit "...")) with 3%nat. lia.
Qed.

Lemma truncate_str_is_ascii v max : ascii_str v -> ascii_str (truncate_str v max).
Proof.
  intros Hv. rewrite truncate_str_ascii by done. apply ascii_trim in Hv. case_decide; [done|].
  apply Forall_app. split; [by apply ascii_take|]. repeat (constructor; [done|]). constructor.
Qed.

Lemma decode_blueprint_fields m bp :
  decode_DocumentBlueprint (Object m) = Some bp -> required d_string (map_get (lit "title") m) = Some (bp_title bp).
Proof.
  unfold decode_DocumentBlueprint. intros (fs & Hfs & Hp)%bind_Some.
  pose proof (struct_fields_lookup _ _ _ 0%nat "title"%string Hfs eq_refl) as E0. clear Hfs.
  do 3 (destruct fs as [|? fs]; [done|]). destruct fs; [|done]. cbn [lookup list_lookup] in *. simplify_eq.
  repeat (let y := fresh in let Hy := fresh in apply bind_Some in Hp as (y & Hy & Hp)). by injection Hp as <-.
Qed.

Lemma ensure_get_ne p k x v m : k <> x -> map_get (lit x) (ensure p k v m) = map_get (lit x) m.
Proof.
  intros Hne. unfold ensure. destruct (p k m); [|done]. unfold put. rewrite map_get_insert_ne; [done|].
  intros Heq%lit_inj. congruence.
Qed.
Lemma put_get_ne k x v m : k <> x -> map_get (lit x) (put k v m) = map_get (lit x) m.
Proof. intros Hne. unfold put. rewrite map_get_insert_ne; [done|]. intros Heq%lit_inj. congruence. Qed.

Lemma complete_blueprint_title p bp :
  map_get (lit "title") (complete_blueprint p bp)
  = Some (match map_get (lit "title") bp with
          | None | Some Null | Some (String []) => String (truncate_str p 200)
          | Some u => u
          end).
Proof.
  rewrite <- ensure_lacks_text_get. unfold complete_blueprint. set (bp1 := ensure lacks_text "title" _ bp).
  rewrite <- (ensure_get_ne lacks_text "summary" "title" (String (truncate_str p 1000)) bp1) by done.
  set (bp2 := ensure lacks_text "summary" _ bp1).
  destruct (map_get (lit "sections") bp2) as [[| | | |[]|]|]; by rewrite put_get_ne.
Qed.

(** The reply has no title to offer: no blueprint under any of its names, or one without a title. *)
Definition title_missing (m : Map) : bool :=
  match map_get (lit "document_blueprint") m with
  | None | Some Null => bool_decide (map_get (lit "blueprint") m = None /\ map_get (lit "document") m = None)
  | Some (Object bp) => lacks_text "title" bp
  | Some _ => false
  end.

Lemma repaired_title m :
  NoDup (keys m) -> title_missing m = true ->
  exists bp, map_get (lit "document_blueprint") (repair_object m) = Some (Object bp)
  /\ map_get (lit "title") bp = Some (String (truncate_str (prompt_of m) 200)).
Proof.
  intros Hm Ht.
  destruct (repaired_by 4 "document_blueprint" _ m Hm eq_refl eq_refl) as (m' & _ & Hget & Hy & ->).
  pose proof (Hy "blueprint"%string ltac:(apply (bool_decide_unpack _); vm_compute; exact I)) as Hb.
  pose proof (Hy "document"%string ltac:(apply (bool_decide_unpack _); vm_compute; exact I)) as Hd.
  unfold title_missing in Ht. rewrite <- Hget, <- Hb, <- Hd in Ht.
  unfold fix_document_blueprint. rewrite edit_get. unfold missing_blueprint, text_blueprint, lacks, lacks_text in *.
  destruct (map_get (lit "document_blueprint") m') as [[| | | | |bp]|] eqn:E; try done; rewrite E.
  2: { rewrite E. eexists. split; [done|]. rewrite complete_blueprint_title.
       by destruct (map_get (lit "title") bp) as [[| | |[]| |]|]. }
  all: apply bool_decide_eq_true in Ht as [-> ->]; rewrite put_get; eexists; (split; [done|]);
    rewrite complete_blueprint_title; cbn [map_get fmap list_fmap]; change (lit "title") with (lit "title");
    rewrite decide_True by done; by destruct (truncate_str (prompt_of m) 200).
Qed.

(** A long request cannot be repaired. When the reply carries the teacher's prompt but no title for
    the document, and the prompt is an ASCII text of more than 200 characters after trimming, the
    title the repair makes from it has 203 characters, over the 200 of the contract: whatever else
    the reply says, no payload decoded from it is valid. *)
Lemma long_prompt_without_title_rejected `{GardeLengthLaws} (m : Map) (prompt : str) (p : InterpretationPayload) :
  NoDup (keys m) -> map_get (lit "teacher_prompt") m = Some (String prompt) -> title_missing m = true ->
  ascii_str prompt -> (200 < length (trim prompt))%nat ->
  decode_InterpretationPayload (Object (repair_object m)) = Some p ->
  length (bp_title (ip_document_blueprint p)) = 203%nat /\ validate_payload p = false.
Proof.
  intros Hm Hprompt Ht Hascii Hlen (_ & (bp & Hbp & Heq) & _)%payload_fields.
  destruct (repaired_title m Hm Ht) as (o & Ho & Htitle). unfold prompt_of, str_field in Htitle.
  rewrite Hprompt in Htitle. rewrite Ho in Hbp. apply decode_blueprint_fields in Hbp. rewrite Htitle in Hbp.
  injection Hbp as Hbp. assert (length (truncate_str prompt 200) = 203%nat) as Hlong.
  { rewrite truncate_str_ascii_length by done. by rewrite decide_False by lia. }
  rewrite Heq, <- Hbp. split; [exact Hlong|].
  unfold validate_payload, validate_DocumentBlueprint. rewrite Heq, <- Hbp.
  assert (len_ok 1 200 (truncate_str prompt 200) = false) as ->.
  { unfold len_ok. rewrite simple_length_ascii by by apply truncate_str_is_ascii.
    rewrite Hlong. done. }
  cbn [andb]. by rewrite !andb_false_r.
Qed.

(** ** Lemmas: the fallback *)

Lemma len_ok_ascii `{GardeLengthLaws} lo hi s :
  ascii_str s -> len_ok lo hi s = (lo <=? length s)%nat && (length s <=? hi)%nat.
Proof. intros Hs. unfold len_ok. by rewrite simple_length_ascii. Qed.
Lemma contract_error_length `{JsonLex} e :
  length (contract_error_text e) = (length (code e) + length (message e) + 5 + length (json_text (details e)))%nat.
Proof. unfold contract_error_text. rewrite !length_app.
  change (length (lit "[")) with 1%nat. change (length (lit "] ")) with 2%nat. change (length (lit ": ")) with 2%nat. lia.
Qed.
Lemma ascii_lit s : forallb (λ c, (0 <=? c) && (c <? 128)) (lit s) = true -> ascii_str (lit s).
Proof.
  intros Hs. rewrite forallb_forall in Hs. apply Forall_forall. intros c Hc.
  apply list_elem_of_In, Hs in Hc. rewrite andb_true_iff, Z.leb_le, Z.ltb_lt in Hc. done.
Qed.
Lemma len_ok_lit `{GardeLengthLaws} lo hi s :
  forallb (λ c, (0 <=? c) && (c <? 128)) (lit s)
  && ((lo <=? length (lit s))%nat && (length (lit s) <=? hi)%nat) = true -> len_ok lo hi (lit s) = true.
Proof. intros [Hs Hl]%andb_true_iff. rewrite len_ok_ascii; [done|by apply ascii_lit]. Qed.
Lemma len_ok_range `{GardeLengthLaws} hi s : ascii_str s -> len_ok 1 hi s = bool_decide (1 <= length s <= hi)%nat.
Proof.
  intros Hs. rewrite len_ok_ascii by done. apply eq_true_iff_eq.
  by rewrite andb_true_iff, !Nat.leb_le, bool_decide_eq_true.
Qed.
Lemma len_ok_truncate `{GardeLengthLaws} v max :
  ascii_str v -> len_ok 1 max (truncate_str v max) = bool_decide (1 <= length (trim v) <= max)%nat.
Proof.
  intros Hv. rewrite len_ok_range by by apply truncate_str_is_ascii. apply bool_decide_ext.
  rewrite truncate_str_ascii_length by done. case_decide; lia.
Qed.

Lemma detect_language_lit p : exists s, detect_language p = lit s /\ (s = "id" \/ s = "en" \/ s = "und")%string.
Proof. unfold detect_language. cbv zeta. repeat case_match; eauto. Qed.

Lemma fallback_candidates_valid `{GardeLengthLaws} pref :
  forallb validate_OutputCandidate (fallback_candidates pref) = true
  /\ length (fallback_candidates pref) = 3%nat
  /\ exists s, default (lit "pdf") (oc_type <$> head (fallback_candidates pref)) = lit s
     /\ (s = "pdf" \/ s = "docx" \/ s = "pptx")%string.
Proof.
  assert (forall c, c ∈ fallback_candidates pref ->
    validate_OutputCandidate c = true /\ exists s, oc_type c = lit s /\ (s = "pdf" \/ s = "docx" \/ s = "pptx")%string) as Hc.
  { intros c Hc. unfold fallback_candidates in Hc. rewrite sort_by_perm in Hc.
    repeat (apply elem_of_cons in Hc as [->|Hc]); try (by apply not_elem_of_nil in Hc);
      unfold fallback_candidate, validate_OutputCandidate; cbn [oc_type oc_reason];
      rewrite !len_ok_lit by reflexivity; (split; [reflexivity|eauto 6]). }
  assert (length (fallback_candidates pref) = 3%nat) as Hlen by (unfold fallback_candidates; by rewrite sort_by_perm).
  split; [|split; [exact Hlen|]].
  - apply forallb_forall. intros c Hin. apply Hc. by apply list_elem_of_In.
  - destruct (fallback_candidates pref) as [|c l]; [done|]. apply (Hc c). by left.
Qed.

(** When the fallback meets the contract it stands in for. For an ASCII prompt the payload built
    from the prompt alone passes the validation of a provider's payload exactly when the prompt, once
    trimmed, has between 1 and 200 characters and has at most 5000 before: a longer request gives a
    title of 203 characters, a blank one no title at all. *)
Lemma fallback_validates `{GardeLengthLaws} (prompt pref : str) :
  ascii_str prompt ->
  validate_payload (fallback prompt pref) = true
  <-> (1 <= length (trim prompt) <= 200 /\ length prompt <= 5000)%nat.
Proof.
  intros Hp. unfold validate_payload, fallback.
  destruct (fallback_candidates_valid (fallback_preference prompt pref)) as (Hvalid & Hlen & s & Htop & Hs).
  destruct (detect_language_lit prompt) as (lang & Hlang & Hl).
  cbn [ip_schema_version ip_teacher_prompt ip_language ip_teacher_intent ip_output_type_candidates
    ip_resolved_output_type_reasoning ip_document_blueprint ip_teacher_delivery_summary ip_confidence].
  unfold validate_TeacherIntent, validate_DocumentBlueprint, validate_Confidence.
  cbn [ti_type ti_goal ti_preferred_delivery_mode bp_title bp_summary bp_sections cf_label].
  rewrite Hvalid, Hlen, Htop, Hlang. clear Hvalid Hlen Htop Hlang.
  assert (len_ok 1 1000 (lit "Fallback honored output type: " ++ lit s) = true) as ->.
  { destruct Hs as [->|[->| ->]].
    - exact (len_ok_lit 1 1000 "Fallback honored output type: pdf" eq_refl).
    - exact (len_ok_lit 1 1000 "Fallback honored output type: docx" eq_refl).
    - exact (len_ok_lit 1 1000 "Fallback honored output type: pptx" eq_refl). }
  assert (len_ok 1 32 (lit lang) = true) as -> by (destruct Hl as [->|[->| ->]]; by apply len_ok_lit).
  rewrite !len_ok_lit by reflexivity.
  assert (1 <=? simple_length SCHEMA_VERSION = true)%nat as ->.
  { unfold SCHEMA_VERSION. by rewrite simple_length_ascii by by apply ascii_lit. }
  rewrite !len_ok_truncate, len_ok_range by done. pose proof (trim_length prompt) as Hlen.
  set (a := length (trim prompt)) in *. set (b := length prompt) in *. clearbody a b.
  change (1 <=? 3)%nat with true. change (1 <=? length [_])%nat with true.
  split; [|intros Hr; by rewrite !bool_decide_true by lia].
  intros Hv. repeat match goal with
    | Hb : _ && _ = true |- _ => apply andb_true_iff in Hb as [? ?]
    | Hb : bool_decide _ = true |- _ => apply bool_decide_eq_true in Hb end. lia.
Qed.
End Steps.

Module RepairWitness.
#[local] Existing Instances plain_case plain_lex.
#[local] Instance no_regexes : Regexes := {| re_is_match _ _ := false; re_captures1 _ _ := None |}.
#[local] Instance char_length : GardeLength := λ s, length s.
#[local] Instance char_length_laws : GardeLengthLaws.
Proof. by split. Qed.

(** A reply that says nothing at all is repaired to a valid payload. *)
Example empty_object_accepted :
  match decode_InterpretationPayload (Object (repair_object [])) with
  | Some p => validate_payload p = true /\ ip_teacher_prompt p = lit "Learning material"
              /\ pm_active (ip_plan_mode p) = false
  | None => False
  end.
Proof. vm_compute. done. Qed.

(** The text of an empty prompt is not repaired: it is replaced by itself. *)
Example empty_prompt_rejected :
  (validate_payload <$> decode_InterpretationPayload (Object (repair_object [(lit "teacher_prompt", String [])])))
  = Some false.
Proof. vm_compute. done. Qed.

(** Cutting 201 two-byte characters to 200 leaves no mark: 400 bytes are not fewer than 201 characters. *)
Example truncation_unmarked :
  truncate_str (replicate 201 233) 200 = replicate 200 233 /\ length (truncate_str (replicate 201 97) 200) = 203%nat.
Proof. vm_compute. done. Qed.

Definition null_intent : Map := [(lit "language", Null); (lit "teacher_intent", Null)].
Lemma null_intent_keys : NoDup (keys null_intent).
Proof. apply (bool_decide_unpack _). vm_compute. exact I. Qed.
Lemma repair_null_fields_witness :
  (exists v, map_get (lit "language") (repair_object null_intent) = Some v /\ v <> Null)
  /\ decode_InterpretationPayload (Object (repair_object null_intent)) = None.
Proof.
  split.
  - exact (proj1 (repair_null_fields "language" null_intent null_intent_keys eq_refl)
      ltac:(apply (bool_decide_unpack _); vm_compute; exact I)).
  - exact (proj2 (repair_null_fields "teacher_intent" null_intent null_intent_keys eq_refl)
      ltac:(apply (bool_decide_unpack _); vm_compute; exact I)).
Defined.

Definition long_text : str := replicate 201 97.
Lemma long_text_ascii : ascii_str long_text.
Proof. by apply Forall_replicate. Qed.
Definition long_prompt : Map := [(lit "teacher_prompt", String long_text)].
Definition long_payload : InterpretationPayload :=
  default (fallback [] []) (decode_InterpretationPayload (Object (repair_object long_prompt))).
Lemma long_prompt_decodes :
  decode_InterpretationPayload (Object (repair_object long_prompt)) = Some long_payload.
Proof. vm_compute. reflexivity. Qed.
Lemma long_text_over : (200 < length (trim long_text))%nat.
Proof. vm_compute. lia. Qed.
Lemma long_prompt_keys : NoDup (keys long_prompt).
Proof. apply NoDup_singleton. Qed.
Lemma long_prompt_without_title_rejected_witness :
  length (bp_title (ip_document_blueprint long_payload)) = 203%nat /\ validate_payload long_payload = false.
Proof.
  exact (long_prompt_without_title_rejected long_prompt long_text long_payload long_prompt_keys eq_refl
    eq_refl long_text_ascii long_text_over long_prompt_decodes).
Defined.

Lemma fallback_validates_witness :
  validate_payload (fallback long_text (lit "auto")) = true
  <-> (1 <= length (trim long_text) <= 200 /\ length long_text <= 5000)%nat.
Proof. exact (fallback_validates long_text (lit "auto") long_text_ascii). Defined.
End RepairWitness.
