(* ===== verification/PlanMode.v ===== *)
(** * Questions for the teacher (src/src/contracts/prompt_interpretation.rs)

    After an interpretation was read from the cache or from a provider, the questions it raises are
    made afresh: the type of document is recognised from the text, the fields this type requires are
    looked up, and each one that is absent becomes a question. *)

From stdpp Require Import base list option strings sets.
From Stdlib Require Import ZArith Lia.
From S2P Require Import Prelude RustStr Json Floats Canon Text Samples Interpretation Standards Decision Repair.
#[local] Open Scope Z_scope.

Section PlanMode.
Context `{CaseTables}.

Definition content_type_keywords (content_type : string) : list string :=
  (if String.eqb content_type "slide_presentasi" then ["slide"; "presentasi"; "powerpoint"; "pptx"; "tayangan"]
   else if String.eqb content_type "rpp" then
     ["rpp"; "rencana pelaksanaan"; "lesson plan"; "perencanaan pembelajaran"]
   else if String.eqb content_type "lembar_kerja" then ["lembar kerja"; "worksheet"; "latihan"; "praktik"]
   else if String.eqb content_type "penilaian" then ["penilaian"; "asesmen"; "assessment"; "soal"; "ujian"; "tes"]
   else if String.eqb content_type "silabus" then ["silabus"; "syllabus"; "kurikulum"]
   else if String.eqb content_type "materi_pembelajaran" then
     ["materi"; "modul"; "handout"; "bahan ajar"; "pelajaran"; "belajar"]
   else [])%string.

Definition content_type_required_fields (content_type : string) : list string :=
  (if String.eqb content_type "slide_presentasi" then ["target_audience"; "output_type"]
   else if String.eqb content_type "rpp" then ["target_audience"; "learning_objectives"]
   else if String.eqb content_type "lembar_kerja" then ["target_audience"; "difficulty_level"]
   else if String.eqb content_type "penilaian" then ["target_audience"; "difficulty_level"; "question_count"]
   else if String.eqb content_type "silabus" then ["target_audience"]
   else if String.eqb content_type "materi_pembelajaran" then ["target_audience"; "output_type"]
   else ["target_audience"])%string.

Definition detected_content_type_label (content_type : string) : string :=
  (if String.eqb content_type "slide_presentasi" then "slide presentasi"
   else if String.eqb content_type "rpp" then "Rencana Pelaksanaan Pembelajaran (RPP)"
   else if String.eqb content_type "lembar_kerja" then "lembar kerja"
   else if String.eqb content_type "penilaian" then "penilaian/asesmen"
   else if String.eqb content_type "silabus" then "silabus"
   else if String.eqb content_type "materi_pembelajaran" then "materi pembelajaran"
   else "media pembelajaran")%string.

(** The candidates, in the order of the source. *)
Definition content_types : list string :=
  ["slide_presentasi"; "rpp"; "lembar_kerja"; "penilaian"; "silabus"; "materi_pembelajaran"]%string.
Definition payload_text (payload : InterpretationPayload) : str :=
  to_lowercase (ip_teacher_prompt payload) ++ lit " " ++ to_lowercase (bp_title (ip_document_blueprint payload))
  ++ lit " " ++ to_lowercase (bp_summary (ip_document_blueprint payload)).
Definition type_score (text : str) (content_type : string) : nat :=
  length (List.filter (λ kw, str_contains text (lit kw)) (content_type_keywords content_type)).
Definition by_score (a b : string * nat) : comparison := Nat.compare b.2 a.2.
Definition detect_content_type_from_payload (payload : InterpretationPayload) : string :=
  let text := payload_text payload in
  let scores := (λ t, (t, type_score text t)) <$> content_types in
  match sort_by by_score scores with
  | (t, S _) :: _ => t
  | _ => "materi_pembelajaran"
  end.

Definition field_present (payload : InterpretationPayload) (field_id : string) : bool :=
  if String.eqb field_id "target_audience" then bool_decide (is_Some (ip_target_audience payload))
  else if String.eqb field_id "output_type" then
    negb (bool_decide (ic_preferred_output_type (ip_constraints payload) = lit "auto"))
  else if String.eqb field_id "learning_objectives" then
    negb (bool_decide (ip_learning_objectives payload = []))
  else if String.eqb field_id "difficulty_level" then
    bool_decide (is_Some (ip_interpreted_fields payload ≫= if_difficulty_level))
  else if String.eqb field_id "question_count" then
    bool_decide (is_Some (ip_interpreted_fields payload ≫= if_question_count))
  else false.
Definition find_missing_required_fields (payload : InterpretationPayload) (required : list string) : list string :=
  List.filter (λ field_id, negb (field_present payload field_id)) required.

Definition vec_string_suggestions (items : list string) : list value := jstr <$> items.
Definition vec_number_suggestions (items : list Z) : list value := jint <$> items.
Definition vec_jenjang_suggestions : list value :=
  vec_string_suggestions
    ["SD Kelas 1"; "SD Kelas 2"; "SD Kelas 3"; "SD Kelas 4"; "SD Kelas 5"; "SD Kelas 6"; "SMP Kelas 7";
     "SMP Kelas 8"; "SMP Kelas 9"; "SMA Kelas 10"; "SMA Kelas 11"; "SMA Kelas 12"]%string.
Definition chip_value_label (v l : string) : value := obj [("value", jstr v); ("label", jstr l)]%string.

Definition generate_contextual_missing_field (field_id : string) (payload : InterpretationPayload)
    (content_type : string) : MissingField :=
  let topic_hint := bp_title (ip_document_blueprint payload) in
  let subject_hint := default (lit "pelajaran ini") (sc_subject_name <$> ip_subject_context payload) in
  let about (a b : string) := lit a ++ topic_hint ++ lit b in
  if String.eqb field_id "target_audience" then
    mkMissingField (lit "target_audience") (lit "Jenjang/Kelas") (lit "required")
      (if String.eqb content_type "slide_presentasi" then
         about "Slide presentasi '" "' ini ditujukan untuk siswa jenjang/kelas mana?"
       else if String.eqb content_type "rpp" then about "RPP '" "' ini disusun untuk jenjang/kelas berapa?"
       else about "Materi '" "' untuk " ++ subject_hint ++ lit " ini ditujukan untuk siswa jenjang/kelas mana?")
      vec_jenjang_suggestions (lit "select")
  else if String.eqb field_id "output_type" then
    let '(question, suggestions) :=
      if String.eqb content_type "slide_presentasi" then
        (about "Format file apa yang Anda inginkan untuk slide '" "' ini?",
         [chip_value_label "pptx" "PowerPoint (.pptx)"; chip_value_label "pdf" "PDF (cetak)"])
      else
        (about "Format file apa yang Anda inginkan untuk materi '" "' ini?",
         [chip_value_label "pdf" "PDF (cetak)"; chip_value_label "docx" "Word (.docx)";
          chip_value_label "pptx" "PowerPoint (.pptx)"]) in
    mkMissingField (lit "output_type") (lit "Format Output") (lit "required") question suggestions (lit "select")
  else if String.eqb field_id "learning_objectives" then
    mkMissingField (lit "learning_objectives") (lit "Tujuan Pembelajaran") (lit "required")
      (about "Apa saja tujuan pembelajaran yang ingin dicapai dari '" "'? "
       ++ lit "Contoh: Memahami konsep X, Menganalisis Y, Menerapkan Z.")
      (vec_string_suggestions ["Memahami konsep..."; "Menganalisis..."; "Menerapkan..."; "Menjelaskan..."]%string)
      (lit "textarea")
  else if String.eqb field_id "difficulty_level" then
    mkMissingField (lit "difficulty_level") (lit "Tingkat Kesulitan") (lit "required")
      (about "Tingkat kesulitan materi '" "' ini sebaiknya seperti apa?")
      (vec_string_suggestions
         ["Mudah (pengenalan dasar)"; "Sedang (pemahaman konsep)"; "Sulit (analisis dan evaluasi)"]%string)
      (lit "select")
  else if String.eqb field_id "question_count" then
    mkMissingField (lit "question_count") (lit "Jumlah Soal") (lit "required")
      (about "Berapa jumlah soal yang Anda butuhkan untuk asesmen '" "' ini?")
      (vec_number_suggestions [10; 15; 20; 25; 30]) (lit "number")
  else
    mkMissingField (lit field_id) (replace_char 95 (lit " ") (lit field_id)) (lit "recommended")
      (lit "Informasi '" ++ lit field_id ++ lit "' belum terdeteksi. Mohon lengkapi jika diperlukan.") []
      (lit "text").

(** [a.or_else(|| b)]. *)
Definition or_else {A} (a b : option A) : option A := match a with Some _ => a | None => b end.

Definition build_interpreted_fields_from_payload (payload : InterpretationPayload) : InterpretedFields :=
  let existing := ip_interpreted_fields payload in
  let target_audience := (λ ta, match ta_level ta with
                                | Some level => ta_label ta ++ lit " " ++ level
                                | None => ta_label ta
                                end) <$> ip_target_audience payload in
  let output_type :=
    if bool_decide (ic_preferred_output_type (ip_constraints payload) = lit "auto")
    then oc_type <$> head (ip_output_type_candidates payload)
    else Some (ic_preferred_output_type (ip_constraints payload)) in
  let subject := sc_subject_name <$> ip_subject_context payload in
  let topic := Some (bp_title (ip_document_blueprint payload)) in
  let learning_objectives :=
    if bool_decide (ip_learning_objectives payload = []) then None else Some (ip_learning_objectives payload) in
  mkInterpretedFields
    (or_else target_audience (existing ≫= if_target_audience))
    (or_else output_type (existing ≫= if_output_type))
    (or_else subject (existing ≫= if_subject))
    (or_else topic (existing ≫= if_topic))
    (or_else learning_objectives (existing ≫= if_learning_objectives))
    (existing ≫= if_page_count) (existing ≫= if_difficulty_level) (existing ≫= if_include_activities)
    (existing ≫= if_slide_count) (existing ≫= if_question_count) (existing ≫= if_meeting_duration)
    (existing ≫= if_teaching_method) (existing ≫= if_assessment_method)
    (or_else (rm_visual_density (ip_requested_media_characteristics payload)) (existing ≫= if_visual_density))
    (existing ≫= if_speaker_notes) (existing ≫= if_question_type).

Definition plan_reason (content_type : string) (missing_fields : list MissingField) : str :=
  lit "Berdasarkan analisis prompt, terdapat informasi yang belum lengkap untuk "
  ++ lit (detected_content_type_label content_type) ++ lit ": " ++ join (lit ", ") (mf_field_label <$> missing_fields)
  ++ lit ". Silakan lengkapi informasi berikut agar media dapat dibuat dengan tepat.".

Definition regenerate_plan_mode_from_interpretation (payload : InterpretationPayload) : InterpretationPayload :=
  let interpreted_fields := build_interpreted_fields_from_payload payload in
  let detected_content_type := detect_content_type_from_payload payload in
  let required_field_ids := content_type_required_fields detected_content_type in
  let missing_field_ids := find_missing_required_fields payload required_field_ids in
  let missing_fields :=
    (λ field_id, generate_contextual_missing_field field_id payload detected_content_type) <$> missing_field_ids in
  let plan_active := negb (bool_decide (missing_fields = [])) in
  let reason := if plan_active then Some (plan_reason detected_content_type missing_fields) else None in
  payload <| ip_plan_mode := mkPlanMode plan_active reason (Some (lit detected_content_type))
                               (Some (cf_score (ip_confidence payload))) |>
          <| ip_interpreted_fields := Some interpreted_fields |>
          <| ip_missing_fields := missing_fields |>
          <| ip_teacher_intent := (ip_teacher_intent payload) <| ti_requires_clarification := plan_active |> |>.
End PlanMode.

(** ** Lemmas: the first greatest score *)

Lemma last_insert_tail x acc :
  last (insert_tail by_score x acc)
  = if forallb (λ y, (y.2 <? x.2)%nat) acc then Some x else last acc.
Proof.
  induction acc as [|y acc IH]; [done|]. cbn [insert_tail forallb].
  assert (is_less by_score x y = (y.2 <? x.2)%nat) as ->.
  { unfold is_less, by_score. destruct (Nat.compare_spec y.2 x.2), (Nat.ltb_spec y.2 x.2); done || lia. }
  destruct (y.2 <? x.2)%nat eqn:Hyx; cbn [andb].
  - destruct (insert_tail by_score x acc) as [|z acc'] eqn:E.
    { apply (f_equal length) in E. rewrite insert_tail_perm in E. done. }
    change (last (y :: z :: acc')) with (last (z :: acc')). rewrite IH.
    destruct acc as [|w acc]; [done|]. by destruct (forallb _ _).
  - done.
Qed.

(** The head of the ranking: greater than all before it, at least as great as all after it. *)
Definition first_best (score : string -> nat) (ts : list string) (t : string) : Prop :=
  exists pre post, ts = pre ++ t :: post
  /\ (forall u, u ∈ pre -> (score u < score t)%nat) /\ forall u, u ∈ post -> (score u <= score t)%nat.

Lemma sort_by_head (score : string -> nat) ts :
  ts <> [] ->
  exists t, head (sort_by by_score ((λ t, (t, score t)) <$> ts)) = Some (t, score t) /\ first_best score ts t.
Proof.
  unfold sort_by. rewrite head_reverse. intros Hne.
  induction ts as [|x ts IH] using rev_ind; [done|]. clear Hne.
  rewrite fmap_app, foldl_app. cbn [foldl fmap list_fmap]. rewrite last_insert_tail.
  set (acc := foldl _ [] _) in *.
  assert (acc ≡ₚ (λ t, (t, score t)) <$> ts) as Hacc.
  { rewrite <- (sort_by_perm by_score (_ <$> ts)). unfold sort_by. by rewrite reverse_Permutation. }
  destruct (forallb (λ y, (y.2 <? (x, score x).2)%nat) acc) eqn:Hall.
  - exists x. split; [done|]. exists ts, []. split; [done|]. split; [|by intros u ?%not_elem_of_nil].
    intros u Hu. rewrite forallb_forall in Hall. apply Nat.ltb_lt, (Hall (u, score u)), list_elem_of_In.
    rewrite Hacc. apply list_elem_of_fmap. by exists u.
  - destruct ts as [|t0 ts0]; [done|]. destruct IH as (t & Ht & pre & post & Hts & Hpre & Hpost); [done|].
    exists t. split; [exact Ht|]. exists pre, (post ++ [x]). split; [by rewrite Hts, <- app_assoc|]. split; [done|].
    intros u [Hu| ->%list_elem_of_singleton]%elem_of_app; [by apply Hpost|].
    apply not_true_iff_false in Hall. destruct (Nat.le_gt_cases (score x) (score t)) as [|Hgt]; [done|].
    destruct Hall. apply forallb_forall. intros y Hy%list_elem_of_In. rewrite Hacc in Hy.
    apply list_elem_of_fmap in Hy as (u & -> & Hu). apply Nat.ltb_lt. cbn [snd].
    enough (score u <= score t)%nat by lia. rewrite Hts in Hu.
    apply elem_of_app in Hu as [Hu|[->|Hu]%elem_of_cons]; [by apply Nat.lt_le_incl, Hpre|done|by apply Hpost].
Qed.

(** The type of document recognised in an interpretation: one of the six whose keywords occur most
    often in the prompt, the title and the summary, the earliest of those with the same count; when
    no keyword occurs at all it is learning material. *)
Lemma detected_type_is_best `{CaseTables} (p : InterpretationPayload) :
  let score := type_score (payload_text p) in
  let t := detect_content_type_from_payload p in
  t ∈ content_types
  /\ Forall (λ u, (score u <= score t)%nat) content_types
  /\ ((0 < score t)%nat /\ first_best score content_types t
      \/ score t = 0%nat /\ t = "materi_pembelajaran"%string).
Proof.
  cbv zeta. unfold detect_content_type_from_payload.
  destruct (sort_by_head (type_score (payload_text p)) content_types) as (t & Ht & Hbest); [done|].
  cbv zeta. destruct (sort_by by_score _) as [|[t' n] rest]; [done|]. injection Ht as -> ->.
  assert (t ∈ content_types /\ forall u, u ∈ content_types ->
    (type_score (payload_text p) u <= type_score (payload_text p) t)%nat) as [Hin Hmax].
  { destruct Hbest as (pre & post & -> & Hpre & Hpost). split; [apply elem_of_app; right; by left|].
    intros u [Hu|[->|Hu]%elem_of_cons]%elem_of_app; [by apply Nat.lt_le_incl, Hpre|done|by apply Hpost]. }
  rewrite Forall_forall. destruct (type_score (payload_text p) t) as [|n] eqn:En.
  - assert (forall u, u ∈ content_types -> type_score (payload_text p) u = 0%nat) as Hzero
      by (intros u Hu; specialize (Hmax u Hu); lia).
    assert ("materi_pembelajaran"%string ∈ content_types) as Hm by (unfold content_types; set_solver).
    rewrite (Hzero _ Hm). split; [done|]. split; [|by right]. intros u Hu. by rewrite Hzero.
  - rewrite En. split; [done|]. split; [done|]. left. split; [lia|done].
Qed.

(** ** Lemmas: regeneration *)

Section Regenerate.
Context `{CaseTables}.
Implicit Types p : InterpretationPayload.

Lemma generated_id f p t : mf_field_id (generate_contextual_missing_field f p t) = lit f.
Proof.
  unfold generate_contextual_missing_field.
  repeat match goal with |- context [String.eqb f ?k] => destruct (String.eqb_spec f k) as [->|_]; [try reflexivity|] end;
    [by destruct (String.eqb t _)|reflexivity].
Qed.

(** A question of a field that has an id is kept as it is by the repair. *)
Lemma repair_keeps_question f p t :
  f <> ""%string ->
  repair_missing_field (encode_MissingField (generate_contextual_missing_field f p t))
  = Some (encode_MissingField (generate_contextual_missing_field f p t)).
Proof.
  intros Hf. pose proof (generated_id f p t) as Hid. set (x := generate_contextual_missing_field f p t) in *.
  assert (mf_question x <> []) as Hq.
  { subst x. unfold generate_contextual_missing_field. clear.
    repeat match goal with |- context [String.eqb f ?k] => destruct (String.eqb f k) end;
      repeat match goal with |- context [String.eqb t ?k] => destruct (String.eqb t k) end;
      cbn [mf_question]; discriminate. }
  assert (mf_field_id x <> []) as Hi by (rewrite Hid; by destruct f).
  clearbody x. unfold repair_missing_field, encode_MissingField, struct_value, MissingField_entries.
  cbv zeta. unfold str_field.
  repeat match goal with |- context [map_get (lit ?k) ?m] =>
    let v := eval cbv -[lit mf_field_id mf_field_label mf_priority mf_question mf_suggestions mf_input_type] in
      (match_lit k (MissingField_entries x) ≫= (λ o, o)) in
    change (map_get (lit k) m) with v end.
  cbn [mbind option_bind as_str default from_option].
  by rewrite !bool_decide_false by done.
Qed.

Lemma required_fields_named t f : f ∈ content_type_required_fields t -> f <> ""%string.
Proof.
  unfold content_type_required_fields. repeat case_match; intros Hf ->; revert Hf; set_solver.
Qed.

Definition type_of (t : string) : ContentType :=
  if String.eqb t "slide_presentasi" then SlidePresentasi else if String.eqb t "rpp" then Rpp
  else if String.eqb t "lembar_kerja" then LembarKerja else if String.eqb t "penilaian" then Penilaian
  else if String.eqb t "silabus" then Silabus else if String.eqb t "materi_pembelajaran" then MateriPembelajaran
  else Unknown.
Lemma required_fields_table t :
  t ∈ content_types ->
  lit <$> content_type_required_fields t = mr_field_id <$> required_fields (get_minimum_requirements (type_of t)).
Proof.
  intros Ht. unfold content_types in Ht.
  repeat (apply elem_of_cons in Ht as [->|Ht]); try (by apply not_elem_of_nil in Ht); reflexivity.
Qed.

Lemma detected_type_listed p : detect_content_type_from_payload p ∈ content_types.
Proof.
  unfold detect_content_type_from_payload.
  destruct (sort_by_head (type_score (payload_text p)) content_types) as (t & Ht & pre & post & Hts & _); [done|].
  cbv zeta. destruct (sort_by by_score _) as [|[t' n] rest]; [done|]. injection Ht as -> ->.
  destruct (type_score (payload_text p) t); [unfold content_types; set_solver|rewrite Hts; set_solver].
Qed.

(** What regeneration asks. The questions are the fields that the content standards require of the
    recognised type of document and that the interpretation lacks, in the order of the table, one
    each; the plan mode is active, gives its reason and asks the teacher to clarify exactly when
    there is a question; the other parts of the interpretation are kept, and so are the values that
    were there for fields that cannot be derived. *)
Lemma regenerated_questions p :
  let q := regenerate_plan_mode_from_interpretation p in
  let t := detect_content_type_from_payload p in
  mf_field_id <$> ip_missing_fields q
    = lit <$> List.filter (λ f, negb (field_present p f)) (content_type_required_fields t)
  /\ lit <$> content_type_required_fields t = mr_field_id <$> required_fields (get_minimum_requirements (type_of t))
  /\ (pm_active (ip_plan_mode q) = true <-> ip_missing_fields q <> [])
  /\ ti_requires_clarification (ip_teacher_intent q) = pm_active (ip_plan_mode q)
  /\ (is_Some (pm_reason (ip_plan_mode q)) <-> ip_missing_fields q <> [])
  /\ (exists f, ip_interpreted_fields q = Some f
      /\ if_difficulty_level f = ip_interpreted_fields p ≫= if_difficulty_level
      /\ if_question_count f = ip_interpreted_fields p ≫= if_question_count
      /\ if_topic f = Some (bp_title (ip_document_blueprint p)))
  /\ q <| ip_plan_mode := ip_plan_mode p |> <| ip_interpreted_fields := ip_interpreted_fields p |>
       <| ip_missing_fields := ip_missing_fields p |> <| ip_teacher_intent := ip_teacher_intent p |> = p.
Proof.
  cbv zeta. unfold regenerate_plan_mode_from_interpretation, find_missing_required_fields.
  set (t := detect_content_type_from_payload p).
  set (ids := List.filter _ _). cbn [ip_missing_fields ip_plan_mode ip_teacher_intent ip_interpreted_fields
    pm_active pm_reason ti_requires_clarification update].
  set (ms := _ <$> ids).
  split; [|split; [|split; [|split; [|split; [|split]]]]].
  - subst ms. clearbody ids. induction ids as [|f ids IH]; [done|]. rewrite !fmap_cons. cbn [mf_field_id].
    rewrite IH. f_equal. apply generated_id.
  - apply required_fields_table, detected_type_listed.
  - cbn. rewrite negb_true_iff, bool_decide_eq_false. done.
  - reflexivity.
  - cbn. case_bool_decide as Hms; cbn [negb]; [split; [by intros [? ?]|done]|split; [done|eauto]].
  - eexists. split; [reflexivity|]. split; [reflexivity|]. split; reflexivity.
  - by destruct p as [? ? ? []].
Qed.

Definition questions p (t : string) : list MissingField :=
  (λ f, generate_contextual_missing_field f p t) <$> find_missing_required_fields p (content_type_required_fields t).
(** The result, field by field. *)
Definition replanned p (t : string) (f : InterpretedFields) (ms : list MissingField) : InterpretationPayload :=
  let active := negb (bool_decide (ms = [])) in
  mkInterpretationPayload (ip_schema_version p) (ip_teacher_prompt p) (ip_language p)
    (mkTeacherIntent (ti_type (ip_teacher_intent p)) (ti_goal (ip_teacher_intent p))
       (ti_preferred_delivery_mode (ip_teacher_intent p)) active)
    (ip_learning_objectives p) (ip_constraints p) (ip_output_type_candidates p)
    (ip_resolved_output_type_reasoning p) (ip_document_blueprint p) (ip_subject_context p)
    (ip_sub_subject_context p) (ip_target_audience p) (ip_requested_media_characteristics p) (ip_assets p)
    (ip_assessment_or_activity_blocks p) (ip_teacher_delivery_summary p) (ip_confidence p) (ip_fallback p)
    (ip_content_integrity p) (ip_meta_repairs p)
    (mkPlanMode active (if active then Some (plan_reason t ms) else None) (Some (lit t))
       (Some (cf_score (ip_confidence p)))) (Some f) ms.
Lemma regenerate_replans p :
  regenerate_plan_mode_from_interpretation p
  = replanned p (detect_content_type_from_payload p) (build_interpreted_fields_from_payload p)
      (questions p (detect_content_type_from_payload p)).
Proof. reflexivity. Qed.

Lemma or_else_idemp {A} (a b : option A) : or_else a (or_else a b) = or_else a b.
Proof. by destruct a. Qed.

Lemma rebuilt_fields p t ms :
  build_interpreted_fields_from_payload (replanned p t (build_interpreted_fields_from_payload p) ms)
  = build_interpreted_fields_from_payload p.
Proof.
  unfold build_interpreted_fields_from_payload, replanned.
  cbn [ip_target_audience ip_constraints ip_output_type_candidates ip_subject_context ip_document_blueprint
    ip_learning_objectives ip_interpreted_fields ip_requested_media_characteristics mbind option_bind
    if_target_audience if_output_type if_subject if_topic if_learning_objectives if_page_count
    if_difficulty_level if_include_activities if_slide_count if_question_count if_meeting_duration
    if_teaching_method if_assessment_method if_visual_density if_speaker_notes if_question_type].
  by rewrite !or_else_idemp.
Qed.
Lemma rebuilt_questions p t ms u :
  questions (replanned p t (build_interpreted_fields_from_payload p) ms) u = questions p u.
Proof. reflexivity. Qed.

(** Regenerating is idempotent: the questions made from an interpretation whose questions were
    made afresh are the same, whatever it held before, so an interpretation may pass the cache any
    number of times. *)
Lemma regenerate_idempotent p :
  regenerate_plan_mode_from_interpretation (regenerate_plan_mode_from_interpretation p)
  = regenerate_plan_mode_from_interpretation p.
Proof.
  rewrite !regenerate_replans. set (ms := questions p _).
  change (detect_content_type_from_payload (replanned p _ _ ms)) with (detect_content_type_from_payload p).
  rewrite rebuilt_fields, rebuilt_questions. reflexivity.
Qed.
End Regenerate.
