(* ===== verification/Feed.v ===== *)
(** * The homepage feed (src/src/recommendation/aggregation.rs)

    A feed is made of the items an administrator uploaded, the system's own items and the published
    topics; the personalization context chooses among the system's. The second half summarises which
    system items were distributed to how many users. All data is resolved by the caller. *)

From stdpp Require Import base gmap list option strings sets sorting.
From Stdlib Require Import ZArith Lia Floats.SpecFloat.
From S2P Require Import Prelude RustStr Json Floats Canon Interpretation Decision Order Personalization.
#[local] Open Scope Z_scope.

Definition SOURCE_ADMIN_UPLOAD : str := lit "admin_upload".
Definition SOURCE_SYSTEM_TOPIC : str := lit "system_topic".
Definition SOURCE_AI_GENERATED : str := lit "ai_generated".
Definition FEED_ORIGIN_ADMIN : str := lit "admin_curated".
Definition FEED_ORIGIN_SYSTEM : str := lit "system_generated".
Definition usize_max : Z := 2 ^ 64 - 1.

(** ** Types *)

Record SubjectTaxonomy := mkSubjectTaxonomy { st_id : Z; st_name : str; st_slug : str }.
Record SubSubjectTaxonomy := mkSubSubjectTaxonomy {
  sst_id : Z;
  sst_subject_id : Z;
  sst_name : str;
  sst_slug : str;
  sst_subject : option SubjectTaxonomy
}.
Record TaxonomyInfo := mkTaxonomyInfo {
  tx_subject : option SubjectTaxonomy;
  tx_sub_subject : SubSubjectTaxonomy
}.
Record PersonalizationInfo := mkPersonalizationInfo {
  pz_eligible : bool;
  pz_mode : option str;
  pz_excluded_reason : option str;
  pz_has_normalized_ownership : bool;
  pz_has_adequate_taxonomy : bool
}.
Record VisibilityInfo := mkVisibilityInfo {
  vi_is_active : bool;
  vi_starts_at : option str;
  vi_ends_at : option str
}.
Record CandidateSelection := mkCandidateSelection {
  sel_eligible : bool;
  sel_selected : bool;
  sel_group : Z;
  sel_rank : Z;
  sel_reason : string
}.
Definition default_selection : CandidateSelection :=
  mkCandidateSelection false false 4 usize_max "normalization_required".

Record CuratedItemInput := mkCuratedItemInput {
  cu_id : str;
  cu_title : str;
  cu_description : option str;
  cu_thumbnail_url : option str;
  cu_ratio : option str;
  cu_project_type : option str;
  cu_tags : list str;
  cu_modules : list str;
  cu_source_type : str;
  cu_source_reference : option str;
  cu_source_payload : value;
  cu_display_priority : Z;
  cu_is_active : bool;
  cu_starts_at : option str;
  cu_ends_at : option str;
  cu_created_at : option str;
  cu_updated_at : option str
}.
Record TopicItemInput := mkTopicItemInput {
  to_id : str;
  to_title : str;
  to_thumbnail_url : option str;
  to_sub_subject_id : option Z;
  to_subject_id : option Z;
  to_taxonomy : option TaxonomyInfo;
  to_personalization_eligible : option bool;
  to_personalization_mode : option str;
  to_personalization_excluded_reason : option str;
  to_has_normalized_ownership : bool;
  to_modules : list str;
  to_teacher_id : option str;
  to_owner_user_id : option Z;
  to_ownership_status : option str;
  to_order : option Z;
  to_created_at : option str;
  to_updated_at : option str
}.
Record AiSourceMetadata := mkAiSourceMetadata { ai_id : str; ai_title : str; ai_created_at : option str }.
Record TopicOverrideMetadata := mkTopicOverrideMetadata { ov_id : str; ov_title : str; ov_created_at : option str }.
Record SystemAssignmentInput := mkSystemAssignmentInput {
  as_source_type : str;
  as_source_reference : str;
  as_subject_id : option Z;
  as_sub_subject_id : Z;
  as_distinct_user_count : Z;
  as_latest_distribution_at : option str
}.
Record AggregationInput := mkAggregationInput {
  ag_curated_items : list CuratedItemInput;
  ag_suppressed_source_keys : list str;
  ag_topic_items : list TopicItemInput;
  ag_assignments : list SystemAssignmentInput;
  ag_sub_subject_lookup : gmap Z SubSubjectTaxonomy;
  ag_ai_source_lookup : gmap str AiSourceMetadata;
  ag_topic_override_lookup : gmap str TopicOverrideMetadata;
  ag_personalization_context : option PersonalizationContext;
  ag_minimum_distinct_user_count : Z;
  ag_maximum_items_per_sub_subject : nat;
  ag_eligible_source_types : list str
}.
Definition empty_input : AggregationInput := mkAggregationInput [] [] [] [] ∅ ∅ ∅ None 2 1 [].

Record FeedItem := mkFeedItem {
  fi_id : str;
  fi_title : str;
  fi_description : option str;
  fi_thumbnail_url : option str;
  fi_ratio : str;
  fi_project_type : option str;
  fi_tags : list str;
  fi_modules : list str;
  fi_sub_subject_id : option Z;
  fi_subject_id : option Z;
  fi_taxonomy : option TaxonomyInfo;
  fi_personalization : option PersonalizationInfo;
  fi_source_type : str;
  fi_source_reference : option str;
  fi_feed_origin : str;
  fi_display_priority : Z;
  fi_score : f64;
  fi_visibility : VisibilityInfo;
  fi_created_at : option str;
  fi_updated_at : option str;
  fi_candidate_selection : CandidateSelection
}.
#[export] Instance FeedItem_eta : Eta FeedItem := λ i,
  mkFeedItem (fi_id i) (fi_title i) (fi_description i) (fi_thumbnail_url i) (fi_ratio i) (fi_project_type i)
    (fi_tags i) (fi_modules i) (fi_sub_subject_id i) (fi_subject_id i) (fi_taxonomy i) (fi_personalization i)
    (fi_source_type i) (fi_source_reference i) (fi_feed_origin i) (fi_display_priority i) (fi_score i)
    (fi_visibility i) (fi_created_at i) (fi_updated_at i) (fi_candidate_selection i).

Record SourceStatusInfo := mkSourceStatusInfo { ss_state : string; ss_suppressed_count : option nat }.
Record PersonalizationSummary := mkPersonalizationSummary {
  sm_applied : bool;
  sm_filter_applied : bool;
  sm_mode : option string;
  sm_description : option string;
  sm_selected_system_candidate_count : option nat;
  sm_filtered_out_system_candidate_count : option nat;
  sm_matched_system_topic_count : option nat;
  sm_selected_source_breakdown : option (gmap str nat);
  sm_matched_sub_subject_ids : option (list Z)
}.
Record FeedSnapshot := mkFeedSnapshot {
  fs_items : list FeedItem;
  fs_source_status : gmap str SourceStatusInfo;
  fs_personalization : PersonalizationSummary
}.
Record DistributionSummaryItem := mkDistributionSummaryItem {
  ds_recommendation_key : str;
  ds_recommendation_item_id : str;
  ds_title : str;
  ds_source_type : str;
  ds_source_reference : str;
  ds_subject_id : option Z;
  ds_sub_subject_id : Z;
  ds_subject : option SubjectTaxonomy;
  ds_sub_subject : option SubSubjectTaxonomy;
  ds_distinct_user_count : Z;
  ds_latest_distribution_at : option str;
  ds_source_created_at : option str
}.

(** ** [serde_json::from_value] of the two structs that a payload may carry *)

Definition d_i64 (v : value) : option Z :=
  match v with Number (NInt z) => if in_i64 z then Some z else None | _ => None end.
(** No field has a default: an array gives them all; an optional field may be absent from an object. *)
Definition plain_fields (names : list string) (v : value) : option (list (option value)) :=
  match v with
  | Array l => if (length l =? length names)%nat then Some (Some <$> l) else None
  | _ => struct_fields ((λ n, [n]) <$> names) v
  end.
Definition decode_SubjectTaxonomy (v : value) : option SubjectTaxonomy :=
  fs ← plain_fields ["id"; "name"; "slug"]%string v;
  match fs with
  | [f0; f1; f2] =>
      id ← required d_i64 f0; name ← required d_string f1; slug ← required d_string f2;
      Some (mkSubjectTaxonomy id name slug)
  | _ => None
  end.
Definition decode_SubSubjectTaxonomy (v : value) : option SubSubjectTaxonomy :=
  fs ← plain_fields ["id"; "subject_id"; "name"; "slug"; "subject"]%string v;
  match fs with
  | [f0; f1; f2; f3; f4] =>
      id ← required d_i64 f0; subject_id ← required d_i64 f1; name ← required d_string f2;
      slug ← required d_string f3; subject ← defaulted None (d_opt decode_SubjectTaxonomy) f4;
      Some (mkSubSubjectTaxonomy id subject_id name slug subject)
  | _ => None
  end.
Definition decode_TaxonomyInfo (v : value) : option TaxonomyInfo :=
  fs ← plain_fields ["subject"; "sub_subject"]%string v;
  match fs with
  | [f0; f1] =>
      subject ← defaulted None (d_opt decode_SubjectTaxonomy) f0;
      sub_subject ← required decode_SubSubjectTaxonomy f1;
      Some (mkTaxonomyInfo subject sub_subject)
  | _ => None
  end.
Definition decode_PersonalizationInfo (v : value) : option PersonalizationInfo :=
  fs ← plain_fields ["eligible"; "mode"; "excluded_reason"; "has_normalized_ownership";
                     "has_adequate_taxonomy"]%string v;
  match fs with
  | [f0; f1; f2; f3; f4] =>
      eligible ← required d_bool f0; mode ← defaulted None (d_opt d_string) f1;
      excluded_reason ← defaulted None (d_opt d_string) f2;
      has_normalized_ownership ← required d_bool f3; has_adequate_taxonomy ← required d_bool f4;
      Some (mkPersonalizationInfo eligible mode excluded_reason has_normalized_ownership has_adequate_taxonomy)
  | _ => None
  end.

(** ** Keys, timestamps *)

(** chrono: the seconds of an RFC 3339 text and of a text of the form %Y-%m-%dT%H:%M:%S. *)
Class Timestamps := {
  rfc3339_seconds : str -> option Z;
  naive_seconds : str -> option Z
}.
(** [HashMap::into_values]: the order of the groups. *)
Class GroupOrder := group_order : gmap Z (list DistributionSummaryItem) -> list (list DistributionSummaryItem).
Class GroupOrderLaws `{GroupOrder} := group_order_perm : forall m, group_order m ≡ₚ (map_to_list m).*2.

Definition make_source_key (source_type source_reference : str) : str := source_type ++ lit ":" ++ source_reference.
Definition resolve_state_from_count (count : nat) : string := if (0 <? count)%nat then "ok" else "empty".

Section Feed.
Context `{Timestamps}.

Definition timestamp_value (v : option str) : Z :=
  default 0 (s ← v;
             if bool_decide (s = []) then None
             else match rfc3339_seconds s with Some t => Some t | None => naive_seconds s end).

(** ** Normalization *)

Definition normalize_curated_item (curated : CuratedItemInput) : FeedItem :=
  let payload := cu_source_payload curated in
  let feed_origin := if bool_decide (cu_source_type curated = SOURCE_ADMIN_UPLOAD)
                     then FEED_ORIGIN_ADMIN else FEED_ORIGIN_SYSTEM in
  let score := default f64_zero (get (lit "score") payload ≫= as_f64) in
  mkFeedItem (cu_id curated) (cu_title curated) (cu_description curated) (cu_thumbnail_url curated)
    (default (lit "16:9") (cu_ratio curated)) (cu_project_type curated) (cu_tags curated) (cu_modules curated)
    (get (lit "sub_subject_id") payload ≫= as_i64) (get (lit "subject_id") payload ≫= as_i64)
    (get (lit "taxonomy") payload ≫= decode_TaxonomyInfo)
    (get (lit "personalization") payload ≫= decode_PersonalizationInfo)
    (cu_source_type curated) (cu_source_reference curated) feed_origin (cu_display_priority curated) score
    (mkVisibilityInfo (cu_is_active curated) (cu_starts_at curated) (cu_ends_at curated))
    (cu_created_at curated) (cu_updated_at curated) default_selection.

Definition normalize_topic_item (topic : TopicItemInput) : FeedItem :=
  let personalization_info :=
    mkPersonalizationInfo (default true (to_personalization_eligible topic)) (to_personalization_mode topic)
      (to_personalization_excluded_reason topic) (to_has_normalized_ownership topic)
      (bool_decide (is_Some (to_sub_subject_id topic))) in
  mkFeedItem (lit "system_topic_" ++ to_id topic) (to_title topic) None (to_thumbnail_url topic) (lit "16:9") None
    [] (to_modules topic) (to_sub_subject_id topic) (to_subject_id topic) (to_taxonomy topic)
    (Some personalization_info) SOURCE_SYSTEM_TOPIC (Some (to_id topic)) FEED_ORIGIN_SYSTEM 0 f64_zero
    (mkVisibilityInfo true None None) (to_created_at topic) (to_updated_at topic) default_selection.

(** ** Candidate selection *)

Definition is_eligible_system_generated_candidate (item : FeedItem) : bool :=
  if bool_decide (fi_source_type item = SOURCE_ADMIN_UPLOAD) then false
  else match fi_sub_subject_id item, fi_subject_id item with
       | Some _, Some _ =>
           if bool_decide (fi_source_type item = SOURCE_SYSTEM_TOPIC) then
             match fi_personalization item with Some p => pz_eligible p | None => true end
           else true
       | _, _ => false
       end.

Definition build_rank_lookup (ids : list Z) : gmap Z Z :=
  foldl (λ lookup '(index, id), <[id := Z.of_nat index]> lookup) ∅ (imap pair ids).

Definition catalog_candidates (items : list FeedItem) (ps_id : Z) (excluded_ids : list Z) :
    list (Z * (Z * option str)) :=
  omap (λ item,
    if is_eligible_system_generated_candidate item then
      if bool_decide (fi_subject_id item = Some ps_id) then
        ss_id ← fi_sub_subject_id item;
        if bool_decide (ss_id ∈ excluded_ids) then None
        else Some (ss_id, (fi_display_priority item, fi_updated_at item))
      else None
    else None) items.
Definition build_primary_subject_catalog_lookup (items : list FeedItem) (primary_subject_id : option Z)
    (excluded_ids : list Z) : gmap Z Z :=
  match primary_subject_id with
  | None => ∅
  | Some ps_id =>
      build_rank_lookup (sort_by (λ a b, a.1 ?= b.1) (catalog_candidates items ps_id excluded_ids)).*1
  end.

Definition fallback_selection (is_eligible : bool) : CandidateSelection :=
  if is_eligible then mkCandidateSelection true false 3 usize_max "global_feed_fallback"
  else mkCandidateSelection false false 4 usize_max "normalization_required".
Definition selected_in (group rank : Z) (reason : string) : CandidateSelection :=
  mkCandidateSelection true true group rank reason.

Definition selection_of (primary_subject_id : option Z) (preferred_lookup secondary_lookup catalog_lookup : gmap Z Z)
    (item : FeedItem) : CandidateSelection :=
  let is_eligible := is_eligible_system_generated_candidate item in
  let selection := fallback_selection is_eligible in
  if is_eligible then
    match fi_sub_subject_id item with
    | Some ss_id =>
        let selection :=
          match preferred_lookup !! ss_id with
          | Some rank => selected_in 0 rank "authored_topic_activity"
          | None =>
              match primary_subject_id with
              | Some ps_id =>
                  if bool_decide (fi_subject_id item = Some ps_id) then
                    match catalog_lookup !! ss_id with
                    | Some rank => selected_in 1 rank "primary_subject_catalog"
                    | None => selection
                    end
                  else selection
              | None => selection
              end
          end in
        if sel_selected selection then selection
        else match secondary_lookup !! ss_id with
             | Some rank => selected_in 2 rank "secondary_authored_topic_activity"
             | None => selection
             end
    | None => selection
    end
  else selection.

(** ** The summary *)

Definition empty_personalization_summary : PersonalizationSummary :=
  mkPersonalizationSummary false false None None None None None None None.
Definition count_source (source : str) (items : list FeedItem) : nat :=
  length (List.filter (λ i, bool_decide (fi_source_type i = source)) items).
Definition by_selection (a b : FeedItem) : comparison :=
  then_with (sel_group (fi_candidate_selection a) ?= sel_group (fi_candidate_selection b))
    (then_with (sel_rank (fi_candidate_selection a) ?= sel_rank (fi_candidate_selection b))
       (timestamp_value (fi_updated_at b) ?= timestamp_value (fi_updated_at a))).
(** [seen.insert(id)] as a filter. *)
Fixpoint first_seen (seen : list Z) (ids : list Z) : list Z :=
  match ids with
  | [] => []
  | id :: ids => if decide (id ∈ seen) then first_seen seen ids else id :: first_seen (id :: seen) ids
  end.
Definition build_personalization_summary (all selected : list FeedItem) (ctx : PersonalizationContext) :
    PersonalizationSummary :=
  let nonempty := match selected with [] => false | _ => true end in
  mkPersonalizationSummary nonempty nonempty
    (Some (int_personalized_mode (ctx_internal ctx))) (Some (int_personalized_description (ctx_internal ctx)))
    (Some (length selected)) (Some (length all - length selected)%nat)
    (Some (count_source SOURCE_SYSTEM_TOPIC selected))
    (if nonempty then
       Some (<[SOURCE_AI_GENERATED := count_source SOURCE_AI_GENERATED selected]>
               (<[SOURCE_SYSTEM_TOPIC := count_source SOURCE_SYSTEM_TOPIC selected]> ∅))
     else None)
    (if nonempty then Some (first_seen [] (omap fi_sub_subject_id (sort_by by_selection selected))) else None).

Definition select_system_generated_candidates (items : list FeedItem) (input : AggregationInput) :
    list FeedItem * PersonalizationSummary :=
  match items, ag_personalization_context input with
  | [], _ | _, None => (items, empty_personalization_summary)
  | _, Some ctx =>
      let internal := ctx_internal ctx in
      if int_signals_available internal then
        let primary_subject_id := int_primary_subject_id internal in
        let preferred_lookup := build_rank_lookup (int_preferred_activity_sub_subject_ids internal) in
        let secondary_lookup := build_rank_lookup (int_secondary_activity_sub_subject_ids internal) in
        let excluded_ids := int_preferred_activity_sub_subject_ids internal
                            ++ int_secondary_activity_sub_subject_ids internal in
        let catalog_lookup := build_primary_subject_catalog_lookup items primary_subject_id excluded_ids in
        let annotated :=
          (λ item, item <| fi_candidate_selection :=
             selection_of primary_subject_id preferred_lookup secondary_lookup catalog_lookup item |>) <$> items in
        let selected := List.filter (λ item, sel_selected (fi_candidate_selection item)) annotated in
        match selected with
        | [] => (items, empty_personalization_summary)
        | _ => (selected, build_personalization_summary annotated selected ctx)
        end
      else (items, empty_personalization_summary)
  end.

(** ** The order of the feed *)

Definition is_system (i : FeedItem) : bool := negb (bool_decide (fi_source_type i = SOURCE_ADMIN_UPLOAD)).
Definition by_priority (a b : FeedItem) : comparison :=
  then_with (fi_display_priority b ?= fi_display_priority a)
    (then_with (default Eq (f64_cmp (fi_score b) (fi_score a)))
       (then_with (timestamp_value (fi_created_at b) ?= timestamp_value (fi_created_at a))
          (str_cmp (fi_id a) (fi_id b)))).
Definition compare_items (a b : FeedItem) : comparison :=
  if is_system a && is_system b then then_with (by_selection a b) (by_priority a b) else by_priority a b.

Definition of_source (admin : bool) (input : AggregationInput) : list CuratedItemInput :=
  List.filter (λ c, Bool.eqb admin (bool_decide (cu_source_type c = SOURCE_ADMIN_UPLOAD))) (ag_curated_items input).
Definition shown_topics (input : AggregationInput) : list TopicItemInput :=
  List.filter (λ t, negb (bool_decide (make_source_key SOURCE_SYSTEM_TOPIC (to_id t) ∈ ag_suppressed_source_keys input)))
    (ag_topic_items input).
Definition system_items (input : AggregationInput) : list FeedItem :=
  (normalize_curated_item <$> of_source false input) ++ (normalize_topic_item <$> shown_topics input).

Definition source_status (input : AggregationInput) : gmap str SourceStatusInfo :=
  let curated source := length (List.filter (λ c, bool_decide (cu_source_type c = source)) (ag_curated_items input)) in
  <[SOURCE_AI_GENERATED := mkSourceStatusInfo (resolve_state_from_count (curated SOURCE_AI_GENERATED)) None]>
  (<[SOURCE_SYSTEM_TOPIC := mkSourceStatusInfo (resolve_state_from_count (length (ag_topic_items input)))
                              (Some (length (ag_suppressed_source_keys input)))]>
  (<[SOURCE_ADMIN_UPLOAD := mkSourceStatusInfo (resolve_state_from_count (curated SOURCE_ADMIN_UPLOAD)) None]> ∅)).

Definition build_feed_snapshot (input : AggregationInput) : FeedSnapshot :=
  let admin_items := normalize_curated_item <$> of_source true input in
  let '(selected_system_items, summary) := select_system_generated_candidates (system_items input) input in
  let all_items := sort_by compare_items (admin_items ++ selected_system_items) in
  mkFeedSnapshot all_items (source_status input) summary.

(** ** Distribution *)

Definition resolve_distribution_metadata (assignment : SystemAssignmentInput) (input : AggregationInput) :
    str * str * option str :=
  let reference := as_source_reference assignment in
  let key := as_source_type assignment ++ lit ":" ++ reference in
  if bool_decide (as_source_type assignment = SOURCE_AI_GENERATED) then
    match ag_ai_source_lookup input !! reference with
    | Some meta => (ai_id meta, ai_title meta, ai_created_at meta)
    | None => (reference, key, None)
    end
  else if bool_decide (as_source_type assignment = SOURCE_SYSTEM_TOPIC) then
    match ag_topic_override_lookup input !! reference with
    | Some meta => (ov_id meta, ov_title meta, ov_created_at meta)
    | None => (lit "system_topic_" ++ reference, reference, None)
    end
  else (reference, key, None).

Definition compare_distribution_candidates (a b : DistributionSummaryItem) : comparison :=
  then_with (ds_distinct_user_count b ?= ds_distinct_user_count a)
    (then_with (timestamp_value (ds_latest_distribution_at b) ?= timestamp_value (ds_latest_distribution_at a))
       (then_with (timestamp_value (ds_source_created_at b) ?= timestamp_value (ds_source_created_at a))
          (str_cmp (ds_source_reference a) (ds_source_reference b)))).
Definition compare_distribution (a b : DistributionSummaryItem) : comparison :=
  let subject_key i := default 0 (st_id <$> ds_subject i) in
  then_with (subject_key a ?= subject_key b)
    (then_with (ds_sub_subject_id a ?= ds_sub_subject_id b) (compare_distribution_candidates a b)).

(** [grouped.entry(id).or_default().push(item)]. *)
Definition group_items (items : list DistributionSummaryItem) : gmap Z (list DistributionSummaryItem) :=
  foldl (λ grouped item,
    <[ds_sub_subject_id item := default [] (grouped !! ds_sub_subject_id item) ++ [item]]> grouped) ∅ items.
Definition top_of_group (max : nat) (group : list DistributionSummaryItem) : list DistributionSummaryItem :=
  take max (sort_by compare_distribution_candidates group).
Definition group_and_sort_distribution `{GroupOrder} (items : list DistributionSummaryItem)
    (max_per_sub_subject : nat) : list DistributionSummaryItem :=
  let flattened := group_order (group_items items) ≫= top_of_group max_per_sub_subject in
  sort_by compare_distribution flattened.

Definition distribution_item (input : AggregationInput) (a : SystemAssignmentInput) : option DistributionSummaryItem :=
  sub_subject ← ag_sub_subject_lookup input !! as_sub_subject_id a;
  let subject := sst_subject sub_subject in
  let '(item_id, title, source_created_at) := resolve_distribution_metadata a input in
  Some (mkDistributionSummaryItem (make_source_key (as_source_type a) (as_source_reference a)) item_id title
          (as_source_type a) (as_source_reference a)
          (match subject with Some s => Some (st_id s) | None => as_subject_id a end)
          (as_sub_subject_id a) subject (Some sub_subject) (as_distinct_user_count a)
          (as_latest_distribution_at a) source_created_at).
Definition distribution_candidates (input : AggregationInput) : list SystemAssignmentInput :=
  let min_count := Z.max (ag_minimum_distinct_user_count input) 1 in
  List.filter (λ a, bool_decide (as_source_type a ∈ ag_eligible_source_types input)
                    && (min_count <=? as_distinct_user_count a)) (ag_assignments input).
Definition build_system_distribution_summary `{GroupOrder} (input : AggregationInput) : list DistributionSummaryItem :=
  match ag_eligible_source_types input with
  | [] => []
  | _ =>
      match distribution_candidates input with
      | [] => []
      | candidates =>
          group_and_sort_distribution (omap (distribution_item input) candidates)
            (ag_maximum_items_per_sub_subject input)
      end
  end.
End Feed.

(** ** Lemmas: which items are chosen *)

Lemma rank_lookup_elem ids x : is_Some (build_rank_lookup ids !! x) <-> x ∈ ids.
Proof.
  unfold build_rank_lookup.
  assert (forall (l : list (nat * Z)) (m : gmap Z Z),
    is_Some (foldl (λ lookup '(index, id), <[id := Z.of_nat index]> lookup) m l !! x)
    <-> x ∈ l.*2 \/ is_Some (m !! x)) as Hgen.
  { induction l as [|[i y] l IH]; intros m; cbn; [split; [by right|by intros [?%not_elem_of_nil|]]|].
    rewrite IH, elem_of_cons. destruct (decide (x = y)) as [->|Hne].
    - rewrite lookup_insert_eq. split; [intros [|]; auto|eauto].
    - rewrite lookup_insert_ne by done. tauto. }
  rewrite Hgen, lookup_empty.
  assert ((imap pair ids).*2 = ids) as ->.
  { clear Hgen. assert (forall f : nat -> Z -> nat * Z, (forall i y, (f i y).2 = y) -> (imap f ids).*2 = ids) as Hf;
      [|by apply Hf].
    induction ids as [|y ids IH]; intros f Hf; [done|]. cbn. rewrite Hf. f_equal. apply IH. intros i z. apply Hf. }
  split; [by intros [|[]]|by left].
Qed.

Section Chosen.
Context `{Timestamps}.

Lemma catalog_elem items ps excluded x :
  is_Some (build_primary_subject_catalog_lookup items (Some ps) excluded !! x)
  <-> x ∉ excluded /\ exists item, item ∈ items /\ is_eligible_system_generated_candidate item = true
      /\ fi_subject_id item = Some ps /\ fi_sub_subject_id item = Some x.
Proof.
  cbn [build_primary_subject_catalog_lookup]. rewrite rank_lookup_elem, sort_by_perm.
  unfold catalog_candidates. rewrite list_elem_of_fmap. setoid_rewrite list_elem_of_omap. split.
  - intros ([y u] & -> & item & Hitem & Hsome). destruct (is_eligible_system_generated_candidate item) eqn:He; [|done].
    case_bool_decide as Hps; [|done]. destruct (fi_sub_subject_id item) as [ss|] eqn:Ess; [|done]. cbn in Hsome.
    case_bool_decide as Hex; [done|]. injection Hsome as <- _. split; [done|]. by exists item.
  - intros (Hex & item & Hitem & He & Hps & Hss). eexists (x, _). split; [done|]. exists item. split; [done|].
    rewrite He, Hps, Hss, bool_decide_true by done. cbn. by rewrite bool_decide_false.
Qed.

(** The items the personalization of a user is about. *)
Definition wanted (input : AggregationInput) (item : FeedItem) : bool :=
  match ag_personalization_context input with
  | Some ctx =>
      let internal := ctx_internal ctx in
      int_signals_available internal && is_eligible_system_generated_candidate item
      && (match fi_sub_subject_id item with
          | Some ss => bool_decide (ss ∈ int_preferred_activity_sub_subject_ids internal
                                         ++ int_secondary_activity_sub_subject_ids internal)
          | None => false
          end
          || bool_decide (is_Some (int_primary_subject_id internal)
                          /\ fi_subject_id item = int_primary_subject_id internal))
  | None => false
  end.

Lemma selection_wanted input ctx items item :
  ag_personalization_context input = Some ctx -> int_signals_available (ctx_internal ctx) = true -> item ∈ items ->
  let internal := ctx_internal ctx in
  let preferred := int_preferred_activity_sub_subject_ids internal in
  let secondary := int_secondary_activity_sub_subject_ids internal in
  sel_selected (selection_of (int_primary_subject_id internal) (build_rank_lookup preferred)
    (build_rank_lookup secondary)
    (build_primary_subject_catalog_lookup items (int_primary_subject_id internal) (preferred ++ secondary)) item)
  = wanted input item.
Proof.
  intros Hctx Hsig Hitem internal preferred secondary. unfold wanted. rewrite Hctx. fold internal.
  change (int_signals_available internal) with (int_signals_available (ctx_internal ctx)). rewrite Hsig. cbn [andb].
  unfold selection_of. destruct (is_eligible_system_generated_candidate item) eqn:He; [|done]. cbn [andb].
  assert (exists ss, fi_sub_subject_id item = Some ss) as [ss Hss].
  { unfold is_eligible_system_generated_candidate in He. case_bool_decide; [done|].
    destruct (fi_sub_subject_id item) as [ss|]; [by exists ss|done]. }
  rewrite Hss. fold preferred secondary.
  pose proof (rank_lookup_elem preferred ss) as Hpref. pose proof (rank_lookup_elem secondary ss) as Hsec.
  destruct (build_rank_lookup preferred !! ss) as [r|] eqn:Ep.
  { cbn. rewrite bool_decide_true; [done|]. apply elem_of_app. left. apply Hpref. by eexists. }
  assert (ss ∉ preferred) as Hnp by (rewrite <- Hpref; by intros []).
  destruct (build_rank_lookup secondary !! ss) as [r|] eqn:Es.
  { rewrite (bool_decide_true (ss ∈ preferred ++ secondary)); cycle 1.
    { apply elem_of_app. right. apply Hsec. by eexists. }
    repeat case_match; done. }
  assert (ss ∉ secondary) as Hns by (rewrite <- Hsec; by intros []).
  rewrite (bool_decide_false (ss ∈ preferred ++ secondary)) by (rewrite elem_of_app; tauto).
  cbn [orb]. destruct (int_primary_subject_id internal) as [ps|] eqn:Eps; cycle 1.
  { rewrite bool_decide_false by (by intros [[] _]). done. }
  destruct (decide (fi_subject_id item = Some ps)) as [Hps|Hps]; cycle 1.
  { rewrite (bool_decide_false (fi_subject_id item = Some ps)) by done.
    rewrite bool_decide_false by (by intros [_ ?]). done. }
  rewrite (bool_decide_true (fi_subject_id item = Some ps)) by done.
  rewrite bool_decide_true by eauto.
  assert (is_Some (build_primary_subject_catalog_lookup items (Some ps) (preferred ++ secondary) !! ss)) as [r Hr].
  { apply catalog_elem. split; [rewrite elem_of_app; tauto|]. by exists item. }
  by rewrite Hr.
Qed.

(** The item without the notes of the selection. *)
Definition plain (i : FeedItem) : FeedItem := i <| fi_candidate_selection := default_selection |>.

Lemma system_items_plain input : plain <$> system_items input = system_items input.
Proof.
  unfold system_items. rewrite fmap_app, <- !list_fmap_compose.
  f_equal; apply list_fmap_ext; intros; reflexivity.
Qed.

Lemma selected_items input :
  let r := select_system_generated_candidates (system_items input) input in
  let chosen := existsb (wanted input) (system_items input) in
  plain <$> r.1 = (if chosen then List.filter (wanted input) (system_items input) else system_items input)
  /\ sm_applied r.2 = chosen
  /\ sm_selected_system_candidate_count r.2 = (if chosen then Some (length r.1) else None)
  /\ sm_filtered_out_system_candidate_count r.2
     = (if chosen then Some (length (system_items input) - length r.1)%nat else None).
Proof.
  pose proof (system_items_plain input) as Hplain. revert Hplain. generalize (system_items input) as items.
  intros items Hplain. cbv zeta. unfold select_system_generated_candidates.
  assert (ag_personalization_context input = None \/
    (exists ctx, ag_personalization_context input = Some ctx /\ int_signals_available (ctx_internal ctx) = false) ->
    existsb (wanted input) items = false) as Hnone.
  { intros Hcase. apply not_true_iff_false. intros (i & _ & Hi)%existsb_exists. unfold wanted in Hi.
    destruct Hcase as [Hc|(ctx & Hc & Hsig)]; rewrite Hc in Hi; [done|]. by rewrite Hsig in Hi. }
  destruct items as [|i0 items0]; [by repeat split|]. set (items := i0 :: items0) in *.
  destruct (ag_personalization_context input) as [ctx|] eqn:Hctx; [|rewrite Hnone by (by left); by repeat split].
  cbv zeta. destruct (int_signals_available (ctx_internal ctx)) eqn:Hsig;
    [|rewrite Hnone by (right; by exists ctx); by repeat split].
  match goal with |- context [selection_of ?a ?b ?c ?d] => set (sel := selection_of a b c d) end.
  assert (plain <$> List.filter (λ item, sel_selected (fi_candidate_selection item))
    ((λ item, item <| fi_candidate_selection := sel item |>) <$> items) = List.filter (wanted input) items) as Hsel.
  { assert (forall l, (forall i, i ∈ l -> i ∈ items) -> plain <$> l = l ->
      plain <$> List.filter (λ item, sel_selected (fi_candidate_selection item))
        ((λ item, item <| fi_candidate_selection := sel item |>) <$> l) = List.filter (wanted input) l) as Hgen.
    { induction l as [|i l IH]; intros Hsub Hp; [done|]. injection Hp as Hi Hl. cbn [fmap list_fmap List.filter].
      cbn [fi_candidate_selection update] in *.
      assert (sel_selected (sel i) = wanted input i) as Hw.
      { unfold sel. by apply (selection_wanted input ctx items i); [| |apply Hsub; left]. }
      cbn. rewrite Hw. assert (forall j, j ∈ l -> j ∈ items) as Hsub' by (intros j Hj; apply Hsub; by right).
      specialize (IH Hsub' Hl).
      destruct (wanted input i); [|exact IH]. cbn. f_equal; [|exact IH]. rewrite <- Hi at 2. done. }
    by apply Hgen. }
  destruct (List.filter _ (_ <$> items)) as [|s selected] eqn:Efil.
  - destruct (existsb (wanted input) items) eqn:Hex; [|by repeat split].
    apply existsb_exists in Hex as (i & Hi & Hw). change ([] = List.filter (wanted input) items) in Hsel.
    assert (i ∈ List.filter (wanted input) items) as Hin by (by apply list_elem_of_In, List.filter_In).
    rewrite <- Hsel in Hin. by apply not_elem_of_nil in Hin.
  - cbn [fst snd build_personalization_summary sm_applied sm_selected_system_candidate_count
      sm_filtered_out_system_candidate_count]. rewrite Hsel, length_fmap.
    destruct (existsb (wanted input) items) eqn:Hex; [done|].
    apply (f_equal length) in Hsel. rewrite length_fmap in Hsel.
    destruct (List.filter (wanted input) items) as [|i l] eqn:Ef; [done|].
    assert (In i (List.filter (wanted input) items)) as [Hi Hw]%List.filter_In by (rewrite Ef; by left).
    apply not_true_iff_false in Hex. destruct Hex. apply existsb_exists. by exists i.
Qed.

(** C37. What a feed shows: the items an administrator uploaded, and of the system's items those of the
    user's own sub-subjects and primary subject, or all of them when there are none of these (or
    nothing is known of the user); a published topic whose source is suppressed never. The summary
    says that the feed was personalized exactly in the first case, and counts what was chosen and
    what was left out. *)
Theorem feed_shows input :
  let chosen := existsb (wanted input) (system_items input) in
  let shown := if chosen then List.filter (wanted input) (system_items input) else system_items input in
  let summary := fs_personalization (build_feed_snapshot input) in
  (plain <$> fs_items (build_feed_snapshot input)) ≡ₚ (normalize_curated_item <$> of_source true input) ++ shown
  /\ sm_applied summary = chosen
  /\ sm_selected_system_candidate_count summary = (if chosen then Some (length shown) else None)
  /\ sm_filtered_out_system_candidate_count summary
     = (if chosen then Some (length (system_items input) - length shown)%nat else None).
Proof.
  cbv zeta. pose proof (selected_items input) as (Hsel & Happ & Hcount & Hout). unfold build_feed_snapshot.
  destruct (select_system_generated_candidates (system_items input) input) as [selected summary].
  cbn [fs_items fs_personalization fst snd] in *. split.
  { rewrite sort_by_perm, fmap_app, Hsel. apply Permutation_app_tail.
    rewrite <- list_fmap_compose. apply reflexive_eq, list_fmap_ext. reflexivity. }
  apply (f_equal length) in Hsel. rewrite length_fmap in Hsel. rewrite <- Hsel, Hcount, Hout, Happ.
  by destruct (existsb (wanted input) (system_items input)).
Qed.

(** ** Lemmas: the order of the feed *)

(** The comparator of two system items, with scores compared by a key. *)
Definition by_priority_key (a b : FeedItem) : comparison :=
  then_with (fi_display_priority b ?= fi_display_priority a)
    (then_with (key_cmp (f64_key (fi_score b)) (f64_key (fi_score a)))
       (then_with (timestamp_value (fi_created_at b) ?= timestamp_value (fi_created_at a))
          (str_cmp (fi_id a) (fi_id b)))).
Definition compare_system (a b : FeedItem) : comparison := then_with (by_selection a b) (by_priority_key a b).

#[local] Instance good_by_priority : Good by_priority_key.
Proof.
  apply (good_then (λ a b, fi_display_priority b ?= fi_display_priority a)); [apply (good_desc Z.compare), _|].
  apply (good_then (λ a b, key_cmp (f64_key (fi_score b)) (f64_key (fi_score a))));
    [apply (good_desc key_cmp (λ i, f64_key (fi_score i))), _|].
  apply (good_then (λ a b, timestamp_value (fi_created_at b) ?= timestamp_value (fi_created_at a)));
    [apply (good_desc Z.compare (λ i, timestamp_value (fi_created_at i))), _|apply (good_key str_cmp fi_id), _].
Qed.
#[local] Instance good_by_selection : Good by_selection.
Proof.
  apply (good_then (λ a b, sel_group (fi_candidate_selection a) ?= sel_group (fi_candidate_selection b)));
    [apply (good_key Z.compare (λ i, sel_group (fi_candidate_selection i))), _|].
  apply (good_then (λ a b, sel_rank (fi_candidate_selection a) ?= sel_rank (fi_candidate_selection b)));
    [apply (good_key Z.compare (λ i, sel_rank (fi_candidate_selection i))), _|].
  apply (good_desc Z.compare (λ i, timestamp_value (fi_updated_at i))), _.
Qed.
#[local] Instance good_system : Good compare_system.
Proof. apply (good_then by_selection by_priority_key); apply _. Qed.

Definition orderly (i : FeedItem) : Prop := is_system i = true /\ fi_score i <> S754_nan.
Lemma compare_items_system a b : orderly a -> orderly b -> compare_items a b = compare_system a b.
Proof.
  intros [Ha Hsa] [Hb Hsb]. unfold compare_items, compare_system, by_priority, by_priority_key. rewrite Ha, Hb. cbn [andb].
  by rewrite f64_cmp_key.
Qed.

Lemma then_with_eq x y : then_with x y = Eq <-> x = Eq /\ y = Eq.
Proof. destruct x; cbn; split; [done|by intros [_ ?]|done|by intros [? _]|done|by intros [? _]]. Qed.
Lemma same_system_id z a b : same compare_system z a = true -> same compare_system z b = true -> fi_id a = fi_id b.
Proof.
  assert (forall a, same compare_system z a = true -> fi_id z = fi_id a) as Hz.
  { intros c. unfold same. destruct (compare_system z c) eqn:E; [|done|done]. intros _.
    apply then_with_eq in E as [_ E]. unfold by_priority_key in E. rewrite !then_with_eq, str_cmp_eq in E. tauto. }
  intros Ha%Hz Hb%Hz. congruence.
Qed.

Lemma nodup_filter (f : FeedItem -> bool) l : NoDup (fi_id <$> l) -> NoDup (fi_id <$> List.filter f l).
Proof.
  induction l as [|x l IH]; [done|]. cbn. intros [Hx Hnd]%NoDup_cons. destruct (f x); [|by apply IH]. cbn.
  apply NoDup_cons. split; [|by apply IH]. intros (y & Hy & Hin)%list_elem_of_fmap. destruct Hx.
  apply list_elem_of_fmap. exists y. split; [done|].
  apply list_elem_of_In, List.filter_In in Hin as [Hin _]. by apply list_elem_of_In.
Qed.

(** With distinct ids the sort does not depend on the order of the rows. *)
Lemma sort_system_perm l l' : NoDup (fi_id <$> l) -> l ≡ₚ l' -> sort_by compare_system l = sort_by compare_system l'.
Proof.
  intros Hnd Hp. apply sort_by_unique; [apply _|]. intros z.
  pose proof (filter_bool_perm (same compare_system z) l l' Hp) as Hf.
  assert (forall a b, a ∈ List.filter (same compare_system z) l -> b ∈ List.filter (same compare_system z) l ->
    fi_id a = fi_id b) as Hids.
  { intros a b Ha%list_elem_of_In Hb%list_elem_of_In. apply List.filter_In in Ha as [_ Ha], Hb as [_ Hb].
    by apply (same_system_id z). }
  pose proof (nodup_filter (same compare_system z) l Hnd) as Hnd'.
  destruct (List.filter (same compare_system z) l) as [|a [|b r]] eqn:E.
  - by apply Permutation_nil_l in Hf.
  - by apply Permutation_singleton_l in Hf.
  - exfalso. cbn in Hnd'. apply NoDup_cons in Hnd' as [Hab _]. destruct Hab.
    rewrite (Hids a b); [by left|by left|right; by left].
Qed.

(** The same data with its rows in another order. *)
Definition with_rows (input : AggregationInput) (curated : list CuratedItemInput) (topics : list TopicItemInput) :
    AggregationInput :=
  mkAggregationInput curated (ag_suppressed_source_keys input) topics (ag_assignments input)
    (ag_sub_subject_lookup input) (ag_ai_source_lookup input) (ag_topic_override_lookup input)
    (ag_personalization_context input) (ag_minimum_distinct_user_count input)
    (ag_maximum_items_per_sub_subject input) (ag_eligible_source_types input).

Lemma catalog_perm items items' ps excluded :
  items ≡ₚ items' ->
  build_primary_subject_catalog_lookup items ps excluded = build_primary_subject_catalog_lookup items' ps excluded.
Proof.
  intros Hp. destruct ps as [ps|]; [|done]. cbn [build_primary_subject_catalog_lookup]. f_equal.
  set (l := catalog_candidates items ps excluded). set (l' := catalog_candidates items' ps excluded).
  assert (l ≡ₚ l') as Hl by (unfold l, l', catalog_candidates; by rewrite Hp). clearbody l l'.
  assert (forall m : list (Z * (Z * option str)), StronglySorted Z.le (sort_by (λ a b, a.1 ?= b.1) m).*1) as Hs.
  { intros m. pose proof (sort_by_sorted (λ a b : Z * (Z * option str), a.1 ?= b.1) m) as Hm.
    induction Hm as [|a k Hk IH Ha]; cbn; constructor; [exact IH|]. rewrite Forall_fmap.
    eapply Forall_impl; [exact Ha|]. cbn. intros b Hb. exact Hb. }
  apply (StronglySorted_unique Z.le); [apply Hs|apply Hs|]. by rewrite !sort_by_perm, Hl.
Qed.

Lemma select_perm input input' items items' :
  items ≡ₚ items' -> ag_personalization_context input' = ag_personalization_context input ->
  (select_system_generated_candidates items input).1 ≡ₚ (select_system_generated_candidates items' input').1.
Proof.
  intros Hp Hctx. unfold select_system_generated_candidates. rewrite Hctx.
  destruct items as [|i items].
  { apply Permutation_nil_l in Hp. subst. reflexivity. }
  destruct items' as [|i' items']; [by apply Permutation_nil_r in Hp|].
  destruct (ag_personalization_context input) as [ctx|]; [|done]. cbv zeta.
  destruct (int_signals_available (ctx_internal ctx)); [|done].
  rewrite (catalog_perm _ _ _ _ Hp).
  match goal with |- context [selection_of ?a ?b ?c ?d] => set (sel := selection_of a b c d) end.
  set (f := λ item : FeedItem, item <| fi_candidate_selection := sel item |>).
  set (g := λ item : FeedItem, sel_selected (fi_candidate_selection item)).
  assert (List.filter g (f <$> (i :: items)) ≡ₚ List.filter g (f <$> (i' :: items'))) as Hf
    by (by apply filter_bool_perm, fmap_Permutation).
  destruct (List.filter g (f <$> (i :: items))) as [|s l] eqn:E.
  - apply Permutation_nil_l in Hf. by rewrite <- Hf.
  - destruct (List.filter g (f <$> (i' :: items'))) as [|s' l'] eqn:E'; [by apply Permutation_nil_r in Hf|]. exact Hf.
Qed.

Lemma selected_orderly input i :
  Forall (λ i, fi_score i <> S754_nan) (system_items input) ->
  i ∈ (select_system_generated_candidates (system_items input) input).1 -> orderly i.
Proof.
  intros Hscore Hi.
  pose proof (selected_items input) as (Hsel & _ & _ & _).
  assert (plain i ∈ system_items input) as Hin.
  { assert (plain i ∈ plain <$> (select_system_generated_candidates (system_items input) input).1) as Hp
      by (by apply list_elem_of_fmap_2).
    rewrite Hsel in Hp. destruct (existsb _ _); [|done]. apply list_elem_of_In, List.filter_In in Hp as [Hp _].
    by apply list_elem_of_In. }
  rewrite Forall_forall in Hscore. split; [|by apply (Hscore (plain i))].
  change (is_system (plain i) = true). revert Hin. generalize (plain i) as j. intros j. unfold system_items.
  rewrite elem_of_app, !list_elem_of_fmap. unfold is_system. intros [(c & -> & Hc)|(t & -> & _)]; [|done].
  apply list_elem_of_In, List.filter_In in Hc as [_ Hc]. cbn. by destruct (bool_decide (cu_source_type c = _)).
Qed.

Lemma system_feed input :
  of_source true input = [] -> Forall (λ i, fi_score i <> S754_nan) (system_items input) ->
  fs_items (build_feed_snapshot input)
  = sort_by compare_system (select_system_generated_candidates (system_items input) input).1.
Proof.
  intros Hadmin Hscore. pose proof (selected_orderly input) as Ho. unfold build_feed_snapshot. rewrite Hadmin.
  destruct (select_system_generated_candidates (system_items input) input) as [l summary]. cbn [fs_items fst app fmap list_fmap] in *.
  apply sort_by_ext. intros a b Ha Hb. apply compare_items_system; auto.
Qed.

Lemma with_rows_system input curated topics :
  curated ≡ₚ ag_curated_items input -> topics ≡ₚ ag_topic_items input ->
  system_items input ≡ₚ system_items (with_rows input curated topics).
Proof.
  intros Hc Ht. unfold system_items, of_source, shown_topics. cbn [with_rows ag_curated_items ag_topic_items
    ag_suppressed_source_keys].
  apply Permutation_app; apply fmap_Permutation, filter_bool_perm; by symmetry.
Qed.

(** A feed of the system's items alone is in the order its comparator states: by the group and
    rank of the personalization, then by recency, priority, score and creation. With distinct ids
    it is one sequence: the order in which the database returns the rows does not show in it. *)
Lemma system_feed_is_ordered input :
  of_source true input = [] -> Forall (λ i, fi_score i <> S754_nan) (system_items input) ->
  StronglySorted (λ a b, compare_items a b <> Gt) (fs_items (build_feed_snapshot input))
  /\ (NoDup (fi_id <$> system_items input) -> forall curated topics,
      curated ≡ₚ ag_curated_items input -> topics ≡ₚ ag_topic_items input ->
      fs_items (build_feed_snapshot (with_rows input curated topics)) = fs_items (build_feed_snapshot input)).
Proof.
  intros Hadmin Hscore. rewrite (system_feed input) by done. split.
  - pose proof (sort_by_sorted compare_system (select_system_generated_candidates (system_items input) input).1) as Hs.
    assert (Forall orderly (sort_by compare_system (select_system_generated_candidates (system_items input) input).1)) as Ho.
    { rewrite sort_by_perm. apply Forall_forall. intros i. by apply selected_orderly. }
    induction Hs as [|a l Hl IH Ha]; [constructor|]. inversion Ho as [|? ? Hoa Hol]; subst.
    constructor; [by apply IH|]. rewrite Forall_forall in *. intros b Hb. rewrite compare_items_system by auto. by apply Ha.
  - intros Hnd curated topics Hc Ht. pose proof (with_rows_system input curated topics Hc Ht) as Hrows.
    rewrite system_feed; cycle 1.
    { unfold of_source in *. apply Permutation_nil_r. rewrite <- Hadmin. by apply filter_bool_perm. }
    { by rewrite <- Hrows. }
    symmetry. apply sort_system_perm; [|by apply select_perm].
    pose proof (selected_items input) as (Hsel & _ & _ & _).
    match goal with |- NoDup (_ <$> ?l) => assert (fi_id <$> l = fi_id <$> (plain <$> l)) as -> by (by rewrite <- list_fmap_compose) end.
    rewrite Hsel. destruct (existsb _ _); [by apply nodup_filter|done].
Qed.

(** ** Lemmas: the distribution *)

#[local] Instance good_candidates : Good compare_distribution_candidates.
Proof.
  apply (good_then (λ a b, ds_distinct_user_count b ?= ds_distinct_user_count a)); [apply (good_desc Z.compare), _|].
  apply (good_then (λ a b, timestamp_value (ds_latest_distribution_at b) ?= timestamp_value (ds_latest_distribution_at a)));
    [apply (good_desc Z.compare (λ i, timestamp_value (ds_latest_distribution_at i))), _|].
  apply (good_then (λ a b, timestamp_value (ds_source_created_at b) ?= timestamp_value (ds_source_created_at a)));
    [apply (good_desc Z.compare (λ i, timestamp_value (ds_source_created_at i))), _
    |apply (good_key str_cmp ds_source_reference), _].
Qed.
#[local] Instance good_distribution : Good compare_distribution.
Proof.
  apply (good_then (λ a b, default 0 (st_id <$> ds_subject a) ?= default 0 (st_id <$> ds_subject b)));
    [apply (good_key Z.compare (λ i, default 0 (st_id <$> ds_subject i))), _|].
  apply (good_then (λ a b, ds_sub_subject_id a ?= ds_sub_subject_id b)); [apply (good_key Z.compare), _|apply _].
Qed.

(** The items of one sub-subject. *)
Definition of_sub_subject (id : Z) : list DistributionSummaryItem -> list DistributionSummaryItem :=
  List.filter (λ i, ds_sub_subject_id i =? id).

Lemma group_items_lookup items id :
  group_items items !! id = match of_sub_subject id items with [] => None | l => Some l end.
Proof.
  unfold group_items, of_sub_subject. induction items as [|i items IH] using rev_ind; [done|].
  rewrite foldl_app, List.filter_app. cbn [foldl List.filter]. destruct (Z.eqb_spec (ds_sub_subject_id i) id) as [<-|Hne].
  - rewrite lookup_insert_eq, IH. by destruct (List.filter _ items).
  - by rewrite lookup_insert_ne, IH, app_nil_r.
Qed.

Lemma top_of_group_elem max g x : x ∈ top_of_group max g -> x ∈ g.
Proof. unfold top_of_group. intros (i & Hx%list_elem_of_lookup_2 & _)%elem_of_take. by rewrite sort_by_perm in Hx. Qed.

(** Whatever the order of the groups, each is found whole. *)
Lemma groups_of_sub_subject (o : GroupOrder) (Ho : GroupOrderLaws) items max id :
  of_sub_subject id (group_order (group_items items) ≫= top_of_group max)
  = top_of_group max (of_sub_subject id items).
Proof.
  pose proof (Ho (group_items items)) as Hp.
  assert (forall k g, group_items items !! k = Some g -> k <> id -> of_sub_subject id (top_of_group max g) = []) as Hother.
  { intros k g Hg Hne. rewrite group_items_lookup in Hg. apply elem_of_nil_inv. intros x Hx%list_elem_of_In.
    apply List.filter_In in Hx as [Hx Hid%Z.eqb_eq]. apply list_elem_of_In, top_of_group_elem in Hx.
    destruct (of_sub_subject k items) as [|y l] eqn:E; [done|]. injection Hg as <-. rewrite <- E in Hx.
    apply list_elem_of_In, List.filter_In in Hx as [_ Hk%Z.eqb_eq]. congruence. }
  assert (forall gs, (forall g, g ∈ gs -> exists k, k <> id /\ group_items items !! k = Some g) ->
    of_sub_subject id (gs ≫= top_of_group max) = []) as Hnone.
  { induction gs as [|g gs IH]; intros Hgs; [done|]. cbn. unfold of_sub_subject in *. rewrite List.filter_app.
    destruct (Hgs g) as (k & Hne & Hk); [by left|]. rewrite (Hother k g Hk Hne), IH; [done|]. intros g' Hg'. apply Hgs. by right. }
  destruct (of_sub_subject id items) as [|y l] eqn:E.
  - change (top_of_group max []) with (take max ([] : list DistributionSummaryItem)). rewrite take_nil.
    apply Hnone. intros g Hg. rewrite Hp in Hg. apply list_elem_of_fmap in Hg as ([k g'] & -> & Hk).
    apply elem_of_map_to_list in Hk. exists k. split; [|done]. intros ->. rewrite group_items_lookup, E in Hk. done.
  - assert (group_items items !! id = Some (y :: l)) as Hid by (by rewrite group_items_lookup, E).
    pose proof (map_to_list_delete _ _ _ Hid) as Hdel. apply (fmap_Permutation snd) in Hdel. cbn in Hdel.
    rewrite <- Hdel in Hp. symmetry in Hp. apply Permutation_cons_inv_l in Hp as (g1 & g2 & Heq & Hrest).
    rewrite Heq, bind_app. cbn. unfold of_sub_subject in *. rewrite !List.filter_app.
    assert (forall g, g ∈ g1 ++ g2 -> exists k, k <> id /\ group_items items !! k = Some g) as Hgs.
    { intros g Hg. rewrite <- Hrest in Hg. apply list_elem_of_fmap in Hg as ([k g'] & -> & Hk).
      apply elem_of_map_to_list, lookup_delete_Some in Hk as [Hne Hk]. exists k. by split. }
    rewrite !Hnone, app_nil_r by (intros g Hg; apply Hgs, elem_of_app; auto). cbn [app].
    assert (forall m, (forall x, x ∈ m -> ds_sub_subject_id x = id) ->
      List.filter (λ i, ds_sub_subject_id i =? id) m = m) as Hall.
    { induction m as [|x m IH]; intros Hm; [done|]. cbn. rewrite (Hm x) by by left. rewrite Z.eqb_refl, IH; [done|].
      intros z Hz. apply Hm. by right. }
    apply Hall. intros x Hx%top_of_group_elem. rewrite <- E in Hx.
    by apply list_elem_of_In, List.filter_In in Hx as [_ Hx%Z.eqb_eq].
Qed.

Definition distributed (input : AggregationInput) : list DistributionSummaryItem :=
  omap (distribution_item input) (distribution_candidates input).
Lemma build_distribution (o : GroupOrder) (Ho : GroupOrderLaws) input :
  build_system_distribution_summary input
  = group_and_sort_distribution (distributed input) (ag_maximum_items_per_sub_subject input).
Proof.
  assert (group_and_sort_distribution [] (ag_maximum_items_per_sub_subject input) = []) as Hnil.
  { unfold group_and_sort_distribution. pose proof (Ho (group_items [])) as Hp. change (group_items []) with (∅ : gmap Z (list DistributionSummaryItem)) in *.
    rewrite map_to_list_empty in Hp. apply Permutation_nil_r in Hp. by rewrite Hp. }
  unfold build_system_distribution_summary, distributed.
  destruct (ag_eligible_source_types input) as [|t ts] eqn:E; cycle 1.
  { by destruct (distribution_candidates input). }
  assert (distribution_candidates input = []) as ->; [|done].
  apply elem_of_nil_inv. intros a Ha%list_elem_of_In. apply List.filter_In in Ha as [_ Ha].
  rewrite E, bool_decide_false in Ha by apply not_elem_of_nil. done.
Qed.

(** The items of one sub-subject have one subject. *)
Lemma distributed_subject input a b :
  a ∈ distributed input -> b ∈ distributed input -> ds_sub_subject_id a = ds_sub_subject_id b -> ds_subject a = ds_subject b.
Proof.
  assert (forall a, a ∈ distributed input ->
    ds_subject a = ag_sub_subject_lookup input !! ds_sub_subject_id a ≫= sst_subject) as Hs.
  { intros c (x & _ & Hx)%list_elem_of_omap. unfold distribution_item in Hx.
    destruct (ag_sub_subject_lookup input !! as_sub_subject_id x) as [s|] eqn:E; [|done]. cbn in Hx.
    destruct (resolve_distribution_metadata x input) as [[item_id title] created]. injection Hx as <-. cbn. by rewrite E. }
  intros Ha%Hs Hb%Hs Heq. by rewrite Ha, Hb, Heq.
Qed.

(** The distribution summary does not depend on the order in which a hash map yields its groups:
    it is sorted by subject and sub-subject, and of each sub-subject it shows the configured number of
    items, the most distributed first, of those that are eligible, reach the minimum and have a
    known sub-subject. *)
Lemma distribution_is_determined (o : GroupOrder) (Ho : GroupOrderLaws) input :
  let summary := build_system_distribution_summary input in
  let max := ag_maximum_items_per_sub_subject input in
  StronglySorted (λ a b, compare_distribution a b <> Gt) summary
  /\ (forall id, of_sub_subject id summary = top_of_group max (of_sub_subject id (distributed input)))
  /\ (forall o', @GroupOrderLaws o' -> @build_system_distribution_summary _ o' input = summary).
Proof.
  cbv zeta. rewrite build_distribution by done.
  set (max := ag_maximum_items_per_sub_subject input). set (items := distributed input).
  split; [apply sort_by_sorted, _|]. split.
  - intros id. unfold group_and_sort_distribution, of_sub_subject at 1. rewrite sort_by_filter by apply _.
    change (sort_by compare_distribution (of_sub_subject id (group_order (group_items items) ≫= top_of_group max))
      = top_of_group max (of_sub_subject id items)).
    rewrite groups_of_sub_subject by done.
    rewrite <- (sort_by_id compare_distribution_candidates (top_of_group max (of_sub_subject id items))) at 2
      by (apply take_sorted, sort_by_sorted, _).
    apply sort_by_ext. intros a b Ha%top_of_group_elem Hb%top_of_group_elem.
    apply list_elem_of_In, List.filter_In in Ha as [Ha Hida%Z.eqb_eq], Hb as [Hb Hidb%Z.eqb_eq].
    apply list_elem_of_In in Ha, Hb. unfold compare_distribution.
    rewrite (distributed_subject input a b) by (first [done|congruence]).
    rewrite Hida, Hidb, !Z.compare_refl. done.
  - intros o' Ho'. rewrite build_distribution by done. apply sort_by_unique; [apply _|]. intros z.
    assert (forall l, List.filter (same compare_distribution z) l
      = List.filter (same compare_distribution z) (of_sub_subject (ds_sub_subject_id z) l)) as Hz.
    { induction l as [|x l IH]; [done|]. cbn. destruct (Z.eqb_spec (ds_sub_subject_id x) (ds_sub_subject_id z)) as [_|Hne]; cbn; rewrite <- IH; [done|].
      destruct (same compare_distribution z x) eqn:E; [|done]. unfold same in E.
      destruct (compare_distribution z x) eqn:Ec; [|done|done]. apply then_with_eq in Ec as [_ Ec].
      apply then_with_eq in Ec as [Ec%Z.compare_eq _]. congruence. }
    rewrite (Hz (_ ≫= _)), groups_of_sub_subject by done. rewrite (Hz (_ ≫= _)), groups_of_sub_subject by done. done.
Qed.
End Chosen.

(** ** Concrete data *)

Module FeedWitness.
#[export] Instance no_times : Timestamps := {| rfc3339_seconds := λ s, Some (Z.of_nat (length s)); naive_seconds := λ _, None |}.
#[export] Instance ordered_groups : GroupOrder := λ m, (map_to_list m).*2.
#[export] Instance ordered_groups_laws : GroupOrderLaws.
Proof. intros m. done. Qed.

Definition curated (id source : string) (priority : Z) (payload : value) : CuratedItemInput :=
  mkCuratedItemInput (lit id) (lit id) None None None None [] [] (lit source) None payload priority true None None
    None None.
Definition placed (subject sub_subject : Z) : value :=
  obj [("subject_id", Number (NInt subject)); ("sub_subject_id", Number (NInt sub_subject))]%string.

(** A teacher of subject 1 who wrote about its sub-subject 11. *)
Definition teacher : PersonalizationInput :=
  mkPersonalizationInput (Some 7) (Some (mkSubjectInfo 1 (lit "Matematika") (lit "matematika") None))
    [mkActivityRow 11 1 3 None None None].
Definition curated_feed (rows : list CuratedItemInput) (who : option PersonalizationInput) : AggregationInput :=
  mkAggregationInput rows [] [] [] ∅ ∅ ∅ (resolve_context <$> who) 1 1 [].
Definition written_about : CuratedItemInput := curated "written about" "ai_generated" 0 (placed 1 11).
Definition same_subject : CuratedItemInput := curated "same subject" "ai_generated" 10 (placed 1 12).
Definition elsewhere : CuratedItemInput := curated "elsewhere" "ai_generated" 20 (placed 2 21).
Definition uploaded : CuratedItemInput := curated "uploaded" "admin_upload" 5 Null.

Example personalized_ids :
  fi_id <$> fs_items (build_feed_snapshot (curated_feed [elsewhere; same_subject; written_about] (Some teacher)))
  = [lit "written about"; lit "same subject"].
Proof. vm_compute. reflexivity. Qed.
Example guest_ids :
  fi_id <$> fs_items (build_feed_snapshot (curated_feed [written_about; elsewhere; same_subject] (Some guest)))
  = [lit "elsewhere"; lit "same subject"; lit "written about"].
Proof. vm_compute. reflexivity. Qed.

Lemma system_feed_is_ordered_witness :
  fs_items (build_feed_snapshot (curated_feed [elsewhere; same_subject; written_about] (Some teacher)))
  = fs_items (build_feed_snapshot (curated_feed [written_about; same_subject; elsewhere] (Some teacher))).
Proof.
  refine (proj2 (system_feed_is_ordered (curated_feed [written_about; same_subject; elsewhere] (Some teacher)) _ _) _
    [elsewhere; same_subject; written_about] [] _ _).
  - reflexivity.
  - vm_compute. repeat constructor; discriminate.
  - apply (bool_decide_unpack _). vm_compute. exact I.
  - change [elsewhere; same_subject; written_about] with (reverse [written_about; same_subject; elsewhere]).
    apply reverse_Permutation.
  - reflexivity.
Defined.

Definition known : SubSubjectTaxonomy := mkSubSubjectTaxonomy 11 1 (lit "Aljabar") (lit "aljabar") None.
Definition assignment (reference : string) (users : Z) : SystemAssignmentInput :=
  mkSystemAssignmentInput SOURCE_AI_GENERATED (lit reference) (Some 1) 11 users None.
Definition distribution_input : AggregationInput :=
  mkAggregationInput [] [] [] [assignment "a" 2; assignment "b" 5; assignment "c" 1] {[11 := known]} ∅ ∅ None 2 1
    [SOURCE_AI_GENERATED].
Lemma distribution_is_determined_witness :
  ds_source_reference <$> build_system_distribution_summary distribution_input = [lit "b"]
  /\ @build_system_distribution_summary no_times (λ m, reverse (map_to_list m).*2) distribution_input
     = build_system_distribution_summary distribution_input.
Proof.
  split; [vm_compute; reflexivity|].
  refine (proj2 (proj2 (distribution_is_determined ordered_groups ordered_groups_laws distribution_input)) _ _).
  intros m. apply reverse_Permutation.
Defined.
End FeedWitness.
Import FeedWitness.

(** With uploaded items in the feed the comparator has cycles: of two chosen items the one of the
    earlier group comes first, an uploaded item is compared by priority with both. The feed then
    depends on the order of the rows. *)
Lemma mixed_feed_is_not_ordered `{Timestamps} :
  exists rows rows' : list CuratedItemInput,
    rows' ≡ₚ rows
    /\ fi_id <$> fs_items (build_feed_snapshot (curated_feed rows (Some teacher)))
       = [lit "uploaded"; lit "written about"; lit "same subject"]
    /\ fi_id <$> fs_items (build_feed_snapshot (curated_feed rows' (Some teacher)))
       = [lit "same subject"; lit "uploaded"; lit "written about"]
    /\ exists a b c, fs_items (build_feed_snapshot (curated_feed rows (Some teacher))) = [a; b; c]
       /\ compare_items a b = Lt /\ compare_items b c = Lt /\ compare_items c a = Lt.
Proof.
  exists [uploaded; written_about; same_subject], [uploaded; same_subject; written_about].
  split; [apply perm_skip, perm_swap|].
  split; [vm_compute; reflexivity|]. split; [vm_compute; reflexivity|].
  do 3 eexists. split; [vm_compute; reflexivity|]. vm_compute. auto.
Qed.
