(* ===== verification/GenerationSpec.v ===== *)
(** * The generation spec and the persisted decision (src/src/orchestrator/decision.rs)

    [build_generation_spec] turns an interpretation, and a content draft when
    there is one, into the JSON document the Python renderer accepts;
    [resolve] decides the output type and writes both to the row. *)

From stdpp Require Import base gmap list option strings fin_maps.
From Stdlib Require Import ZArith Lia Floats.SpecFloat.
From S2P Require Import Prelude RustStr Json Floats Store Samples Submission Decision.

(** [Value::to_string], of serde_json. *)
Class JsonPrint := json_to_string : value -> str.

Definition normalize_emphasis (raw : option str) : str :=
  default (lit "medium") (match_lit (default (lit "medium") raw)
    [(lit "short", lit "short"); (lit "brief", lit "short"); (lit "concise", lit "short");
     (lit "minimal", lit "short");
     (lit "long", lit "long"); (lit "long_text", lit "long"); (lit "detailed", lit "long");
     (lit "extensive", lit "long"); (lit "comprehensive", lit "long")]).

(** [Vec::is_empty] on values. *)
Definition is_nil {A} (l : list A) : bool := match l with [] => true | _ => false end.

Definition truncate_field (s : str) (max_len : nat) : str :=
  let trimmed := trim s in
  if (length trimmed <=? max_len)%nat then trimmed else take (max_len - 3) trimmed ++ lit "...".

Definition require_str (val : option str) (fallback : str) : str := default fallback val.
Definition require_str_bounded (val : option str) (fallback : str) (max_len : nat) : str :=
  truncate_field (default fallback val) max_len.

Definition default_section (teacher_prompt : str) : value :=
  let truncated := if (200 <? length teacher_prompt)%nat then take 197 teacher_prompt ++ lit "..."
                   else teacher_prompt in
  obj [ ("title", String truncated);
        ("purpose", jstr "Deliver the requested learning material.");
        ("body_blocks", Array [obj [("type", jstr "paragraph"); ("content", String teacher_prompt)]]);
        ("emphasis", jstr "medium") ].

(** [draft.get("payload").unwrap_or(draft)]. *)
Definition draft_body (draft : value) : value := default draft (get (lit "payload") draft).

Section Spec.
Context `{CaseTables} `{JsonPrint}.

Definition normalize_assessment_type (raw : str) : str :=
  default (lit "activity") (match_lit (to_lowercase raw)
    [(lit "assessment", lit "assessment"); (lit "test", lit "assessment"); (lit "exam", lit "assessment");
     (lit "evaluation", lit "assessment");
     (lit "activity", lit "activity"); (lit "exercise", lit "activity"); (lit "practice", lit "activity");
     (lit "task", lit "activity");
     (lit "reflection", lit "reflection"); (lit "reflect", lit "reflection");
     (lit "thinking", lit "reflection");
     (lit "quiz", lit "quiz"); (lit "question", lit "quiz"); (lit "mcq", lit "quiz");
     (lit "assignment", lit "assignment"); (lit "homework", lit "assignment");
     (lit "worksheet", lit "assignment")]).

Definition normalize_body_block_type (raw : str) : str :=
  default (lit "paragraph") (match_lit (to_lowercase raw)
    [(lit "paragraph", lit "paragraph"); (lit "text", lit "paragraph"); (lit "p", lit "paragraph");
     (lit "bullet", lit "bullet"); (lit "bullets", lit "bullet"); (lit "list", lit "bullet");
     (lit "ul", lit "bullet");
     (lit "checklist", lit "checklist"); (lit "check", lit "checklist"); (lit "checkbox", lit "checklist");
     (lit "note", lit "note"); (lit "callout", lit "note"); (lit "info", lit "note")]).

Definition purpose_block (s_purpose : str) : value :=
  obj [("type", jstr "paragraph"); ("content", String s_purpose)].

(** The blocks that were kept, or one paragraph with the purpose. *)
Definition blocks_or_purpose (s_purpose : str) (blocks : option (list value)) : list value :=
  match blocks with
  | Some normalized => if is_nil normalized then [purpose_block s_purpose] else normalized
  | None => [purpose_block s_purpose]
  end.

(** A block of a draft section; empty content is dropped. *)
Definition draft_block (b : value) : option value :=
  let btype := default (lit "paragraph") (str_field "type" b) in
  let content := default [] (str_field "content" b) in
  if is_nil content then None
  else Some (obj [("type", String (normalize_body_block_type btype));
                  ("content", String (truncate_field content 1000))]).

(** A bullet of a blueprint section. *)
Definition blueprint_block (bullet : value) : option value :=
  let content := default [] (as_str bullet) in
  if is_nil content then None
  else Some (obj [("type", jstr "bullet"); ("content", String (truncate_field content 1000))]).

(** One section: [blocks_key] and [block] tell where its blocks come from, [emphasis_key] its
    emphasis. *)
Definition build_section (blocks_key emphasis_key : string) (block : value -> option value) (s : value) :
    value :=
  let s_title := default (lit "Untitled Section") (str_field "title" s) in
  let s_purpose := default (lit "Section content") (str_field "purpose" s) in
  let raw_emphasis := str_field emphasis_key s in
  let body_blocks := blocks_or_purpose s_purpose ((λ l : list value, omap block l) <$> array_field blocks_key s) in
  obj [ ("title", String (truncate_field s_title 200));
        ("purpose", String (truncate_field s_purpose 500));
        ("body_blocks", Array body_blocks);
        ("emphasis", String (normalize_emphasis raw_emphasis)) ].

Definition sections_or_default (teacher_prompt : str) (built : option (list value)) : list value :=
  match built with
  | Some l => if is_nil l then [default_section teacher_prompt] else l
  | None => [default_section teacher_prompt]
  end.

Definition build_sections (interpretation : value) (teacher_prompt : str) (draft_payload : option value) :
    list value :=
  match draft_payload with
  | Some draft =>
      sections_or_default teacher_prompt
        ((λ l : list value, build_section "body_blocks" "emphasis" draft_block <$> l)
           <$> array_field "sections" (draft_body draft))
  | None =>
      sections_or_default teacher_prompt
        ((λ l : list value, build_section "bullets" "estimated_length" blueprint_block <$> l)
           <$> array_at ["document_blueprint"; "sections"] interpretation)
  end.

Definition assessment_block (b : value) : option value :=
  let a_title := default (lit "Activity") (str_field "title" b) in
  let raw_type := default (lit "activity") (str_field "type" b) in
  let instructions := default (lit "Complete the activity.") (str_field "instructions" b) in
  if is_nil instructions then None
  else Some (obj [("title", String a_title); ("type", String (normalize_assessment_type raw_type));
                  ("instructions", String instructions)]).

Definition ASSET_TYPES : list str :=
  [lit "text"; lit "image"; lit "table"; lit "chart"; lit "diagram"; lit "reference"].
Definition asset_entry (a : value) : value :=
  let a_type := default (lit "text") (str_field "type" a) in
  let description := default (lit "Asset") (str_field "description" a) in
  let required := default false (get (lit "required") a ≫= as_bool) in
  let normalized_type := if decide (a_type ∈ ASSET_TYPES) then a_type else lit "text" in
  obj [("type", String normalized_type); ("description", String description); ("required", Bool required)].

Definition objective_text (v : value) : str :=
  match v with
  | String s => s
  | Object m => default (lit "Objective") (match m with (_, x) :: _ => as_str x | [] => None end)
  | other => json_to_string other
  end.

Definition build_generation_spec (interpretation : value) (resolved_output_type : str)
    (draft_payload : option value) : value :=
  let export_format := resolved_output_type in
  let is_pptx := bool_decide (export_format = lit "pptx") in
  let document_mode := if is_pptx then lit "slide_deck" else lit "document" in
  let unit_type := if is_pptx then lit "slide" else lit "page" in
  let target_page_count := str_at ["interpreted_fields"; "page_count"] interpretation ≫= parse_i64 in
  let target_slide_count := str_at ["interpreted_fields"; "slide_count"] interpretation ≫= parse_i64 in
  let target_units := if is_pptx then target_slide_count else target_page_count in
  let teacher_prompt := default (lit "Learning material") (str_field "teacher_prompt" interpretation) in
  let title := require_str_bounded (str_at ["document_blueprint"; "title"] interpretation)
                 teacher_prompt 200 in
  let summary := require_str_bounded (str_at ["document_blueprint"; "summary"] interpretation)
                   teacher_prompt 1000 in
  let teacher_delivery_summary :=
    require_str_bounded (str_field "teacher_delivery_summary" interpretation) teacher_prompt 1000 in
  let language := require_str (str_field "language" interpretation) (lit "id") in
  let source_schema_version :=
    default (lit "media_prompt_understanding.v1") (str_field "schema_version" interpretation) in
  let draft_field k := draft_payload ≫= λ d, get (lit k) (draft_body d) in
  let pptx_slides :=
    draft_field "slides" ≫= λ s,
      match as_array s with Some (_ :: _) => Some s | _ => None end in
  let pptx_presentation_title := draft_field "presentation_title" ≫= as_str in
  let pptx_theme_suggestion := draft_field "theme_suggestion" ≫= as_str in
  let sections := build_sections interpretation teacher_prompt draft_payload in
  let assessment_blocks :=
    omap assessment_block (default [] (array_field "assessment_or_activity_blocks" interpretation)) in
  let style_tone := truncate_field
    (default (lit "clear_and_structured")
       (option_or (str_at ["requested_media_characteristics"; "tone"] interpretation)
                  (str_at ["constraints"; "tone"] interpretation))) 100 in
  let format_prefs :=
    default [] (array_at ["requested_media_characteristics"; "format_preferences"] interpretation) in
  let format_prefs := if is_nil format_prefs then [String export_format] else format_prefs in
  let assets := asset_entry <$> default [] (array_field "assets" interpretation) in
  let n_sections := Z.of_nat (length sections) in
  let no_assessment := is_nil assessment_blocks in
  obj [
    ("schema_version", jstr "media_generation_spec.v1");
    ("source_interpretation_schema_version", String source_schema_version);
    ("export_format", String export_format);
    ("title", String title);
    ("language", String language);
    ("summary", String summary);
    ("learning_objectives",
       Array ((λ v, String (objective_text v))
                <$> default [] (array_field "learning_objectives" interpretation)));
    ("sections", Array sections);
    ("layout_hints", obj [
       ("document_mode", String document_mode);
       ("visual_density", String (default (lit "medium")
          (str_at ["requested_media_characteristics"; "visual_density"] interpretation)));
       ("section_count", jint n_sections);
       ("asset_count", jint (Z.of_nat (length assets)));
       ("assessment_block_count", jint (Z.of_nat (length assessment_blocks))) ]);
    ("style_hints", obj [
       ("tone", String style_tone);
       ("audience_level", String (truncate_field
          (default (lit "general") (str_at ["target_audience"; "level"] interpretation)) 100));
       ("format_preferences", Array format_prefs) ]);
    ("page_or_slide_structure", obj [
       ("unit_type", String unit_type);
       ("total_units", jint (default (1 + n_sections + (if no_assessment then 0 else 1))%Z target_units));
       ("opening_unit", Bool true);
       ("section_units", jint n_sections);
       ("closing_unit", Bool (negb no_assessment));
       ("requested_units", jopt jint target_units) ]);
    ("content_context", obj [
       ("subject_context", default Null (get (lit "subject_context") interpretation));
       ("sub_subject_context", default Null (get (lit "sub_subject_context") interpretation));
       ("target_audience", default Null (get (lit "target_audience") interpretation)) ]);
    ("assets", Array assets);
    ("assessment_or_activity_blocks", Array assessment_blocks);
    ("teacher_delivery_summary", String teacher_delivery_summary);
    ("pptx_slides", default Null pptx_slides);
    ("pptx_presentation_title", jopt String pptx_presentation_title);
    ("pptx_theme_suggestion", jopt String pptx_theme_suggestion);
    ("contract_versions", obj [
       ("generator_output_metadata", jstr "media_generator_output_metadata.v1") ])
  ].
End Spec.

(** ** The persisted decision *)

Definition signal_value (s : MatchedSignal) : value :=
  obj [ ("type", String (ms_output_type s)); ("reason_code", String (ms_reason_code s));
        ("weight", jfloat (ms_weight s)); ("matched_keyword", jopt String (ms_matched_keyword s));
        ("reason", String (ms_reason s)) ].
Definition candidate_value (c : RankedCandidate) : value :=
  obj [ ("type", String (output_type c)); ("score", jfloat (score c));
        ("candidate_score", jfloat (candidate_score c)); ("reason_code", String (reason_code c));
        ("matched_signals", Array (signal_value <$> matched_signals c));
        ("reasons", Array (String <$> reasons c)) ].
(** The fields of [serde_json::to_value(&decision)]. *)
Definition decision_fields (d : DecisionOutput) : list (string * value) :=
  [ ("schema_version", String (do_schema_version d));
    ("preferred_output_type", String (do_preferred_output_type d));
    ("constraint_preferred_output_type", String (do_constraint_preferred_output_type d));
    ("resolved_output_type", String (do_resolved_output_type d));
    ("decision_source", String (do_decision_source d));
    ("reason_code", String (do_reason_code d));
    ("reasoning", String (do_reasoning d));
    ("ranked_candidates", Array (candidate_value <$> do_ranked_candidates d));
    ("tie_breaker_applied", Bool (do_tie_breaker_applied d));
    ("resolved_at", String (do_resolved_at d)) ].

Definition content_draft_meta (draft_payload : option value) : value :=
  match draft_payload with
  | Some draft =>
      let at_ path := default Null (pointer path draft) in
      obj [ ("source", default (jstr "interpretation_only") (get (lit "source") draft));
            ("schema_version", at_ ["payload"; "schema_version"]);
            ("adapter_provider", at_ ["adapter_metadata"; "provider"]);
            ("adapter_model", at_ ["adapter_metadata"; "model"]);
            ("adapter_primary_provider", at_ ["adapter_metadata"; "primary_provider"]);
            ("adapter_fallback_used", default (Bool false)
               (pointer ["adapter_metadata"; "fallback_used"] draft));
            ("adapter_fallback_reason", at_ ["adapter_metadata"; "fallback_reason"]);
            ("draft_fallback_triggered", default (Bool false)
               (pointer ["payload"; "fallback"; "triggered"] draft));
            ("draft_fallback_reason_code", at_ ["payload"; "fallback"; "reason_code"]) ]
  | None =>
      obj [ ("source", jstr "interpretation_only"); ("schema_version", Null);
            ("adapter_provider", Null); ("adapter_model", Null); ("adapter_primary_provider", Null);
            ("adapter_fallback_used", Bool false); ("adapter_fallback_reason", Null);
            ("draft_fallback_triggered", Bool false); ("draft_fallback_reason_code", Null) ]
  end.

Definition decision_value (d : DecisionOutput) (draft_payload : option value) : value :=
  obj (decision_fields d ++ [("content_draft", content_draft_meta draft_payload)]).

Section Resolve.
Context `{CaseTables} `{JsonPrint} `{HashOrder} `{Rfc3339Millis} `{UuidText} `{UuidErrorText}.

(** The columns [resolve] writes. *)
Definition resolved_row (resolved : str) (decision spec : value) (r : MediaGeneration) : MediaGeneration :=
  r <| resolved_output_type := Some resolved |> <| decision_payload := Some decision |>
    <| generation_spec_payload := Some spec |> <| error_code := None |> <| error_message := None |>.

Definition resolve (generation_id : str) (interpretation : value) (preferred_output_type : option str)
    (draft_payload : option value) : M DecisionError value :=
  match parse_uuid_str generation_id with
  | None => throw (InvalidUuid (uuid_error_text generation_id))
  | Some gen_id =>
      if negb (is_object interpretation) then
        throw (MissingInterpretation
                 (lit "Interpretation payload must exist before resolving the output type."))
      else
        now ← utc_now;
        decision ← panicking (decide_output_type now
          {| di_interpretation := interpretation; di_preferred_output_type := preferred_output_type |});
        let generation_spec :=
          build_generation_spec interpretation (do_resolved_output_type decision) draft_payload in
        let decision_json := decision_value decision draft_payload in
        _ ← mapping Database (execute (update_by_id
              (resolved_row (do_resolved_output_type decision) decision_json generation_spec) gen_id));
        mret decision_json
  end.
End Resolve.

(** ** Lemmas: fields *)

Definition EMPHASES : list str := [lit "short"; lit "medium"; lit "long"].
Definition BLOCK_TYPES : list str := [lit "paragraph"; lit "bullet"; lit "checklist"; lit "note"].
Definition ASSESSMENT_TYPES : list str :=
  [lit "assessment"; lit "activity"; lit "reflection"; lit "quiz"; lit "assignment"].

(** A literal table only yields what its right column lists. *)
Lemma match_lit_range {A} (k : str) (arms : list (str * A)) d (range : list A) :
  d ∈ range -> Forall (λ a, a ∈ range) arms.*2 -> default d (match_lit k arms) ∈ range.
Proof.
  intros Hd Hall. destruct (match_lit k arms) as [a|] eqn:E; simpl; [|done].
  apply match_lit_Some in E. rewrite Forall_forall in Hall. apply Hall, list_elem_of_fmap.
  by exists (k, a).
Qed.

Ltac literal_range := apply match_lit_range; [set_solver|repeat constructor; set_solver].

Lemma normalize_emphasis_range raw : normalize_emphasis raw ∈ EMPHASES.
Proof. unfold normalize_emphasis, EMPHASES. literal_range. Qed.

Lemma truncate_field_length s n : 3 <= n -> length (truncate_field s n) <= n.
Proof.
  intros Hn. unfold truncate_field. case_match eqn:E.
  - by apply Nat.leb_le in E.
  - rewrite length_app, length_take. change (length (lit "...")) with 3. lia.
Qed.

Section SpecFacts.
Context `{CaseTables} `{JsonPrint}.

Lemma normalize_block_range raw : normalize_body_block_type raw ∈ BLOCK_TYPES.
Proof. unfold normalize_body_block_type, BLOCK_TYPES. literal_range. Qed.

Lemma normalize_assessment_range raw : normalize_assessment_type raw ∈ ASSESSMENT_TYPES.
Proof. unfold normalize_assessment_type, ASSESSMENT_TYPES. literal_range. Qed.

(** [t] is the text [raw] cut to [n] characters: trimmed, whole when it fits and otherwise its
    beginning; empty only when [raw] is blank. *)
Definition bounded_text (n : nat) (raw t : str) : Prop :=
  length t <= n /\ (length (trim raw) <= n -> t = trim raw) /\
  take (n - 3) t = take (n - 3) (trim raw) /\ (t = [] <-> trim raw = []).

(** A block made from given content, which is dropped only when it is empty. *)
Definition block_ok (b : value) : Prop :=
  exists t c raw, get (lit "type") b = Some (String t) /\ t ∈ BLOCK_TYPES /\
    get (lit "content") b = Some (String c) /\ raw <> [] /\ bounded_text 1000 raw c.
(** The one block of a section without blocks: a paragraph with the whole of [text], uncut. *)
Definition paragraph_of (text : str) (b : value) : Prop :=
  get (lit "type") b = Some (jstr "paragraph") /\ get (lit "content") b = Some (String text).
Definition section_ok (s : value) : Prop :=
  exists title purpose blocks emphasis,
    get (lit "title") s = Some (String title) /\ length title <= 200 /\
    get (lit "purpose") s = Some (String purpose) /\ length purpose <= 500 /\
    get (lit "body_blocks") s = Some (Array blocks) /\ blocks <> [] /\
    (Forall block_ok blocks \/ exists text b, blocks = [b] /\ paragraph_of text b) /\
    get (lit "emphasis") s = Some (String emphasis) /\ emphasis ∈ EMPHASES.
(** What section [s] takes from the section [given] of the draft or of the blueprint. *)
Definition section_from (given s : value) : Prop :=
  exists title purpose blocks,
    get (lit "title") s = Some (String title) /\
    bounded_text 200 (default (lit "Untitled Section") (str_field "title" given)) title /\
    get (lit "purpose") s = Some (String purpose) /\
    bounded_text 500 (default (lit "Section content") (str_field "purpose" given)) purpose /\
    get (lit "body_blocks") s = Some (Array blocks) /\
    (Forall block_ok blocks \/ exists b, blocks = [b] /\
       paragraph_of (default (lit "Section content") (str_field "purpose" given)) b).
(** The section that stands for none: the prompt's beginning as title and its whole text as the
    only paragraph. *)
Definition section_of_prompt (prompt : str) (s : value) : Prop :=
  exists title b, get (lit "title") s = Some (String title) /\ length title <= 200 /\
    (length prompt <= 200 -> title = prompt) /\ take 197 title = take 197 prompt /\
    get (lit "body_blocks") s = Some (Array [b]) /\ paragraph_of prompt b.
(** The sections the draft gives, or without a draft the blueprint. *)
Definition given_sections (interpretation : value) (draft : option value) : list value :=
  default [] (match draft with
              | Some d => array_field "sections" (draft_body d)
              | None => array_at ["document_blueprint"; "sections"] interpretation
              end).
Definition assessment_ok (b : value) : Prop :=
  exists t instructions, get (lit "type") b = Some (String t) /\ t ∈ ASSESSMENT_TYPES /\
    get (lit "instructions") b = Some (String instructions) /\ instructions <> [].
Definition asset_ok (a : value) : Prop :=
  exists t, get (lit "type") a = Some (String t) /\ t ∈ ASSET_TYPES.

Lemma take_app_prefix {A} (l r : list A) n m : n <= m -> n <= length l -> take n (take m l ++ r) = take n l.
Proof.
  intros Hm Hl. rewrite take_app_le by (rewrite length_take; lia). rewrite take_take. f_equal. lia.
Qed.

Lemma truncate_field_bounded n raw : 3 <= n -> bounded_text n raw (truncate_field raw n).
Proof.
  intros Hn. split; [by apply truncate_field_length|]. unfold truncate_field.
  case_match eqn:E; [done|]. apply Nat.leb_gt in E. split; [lia|].
  split; [apply take_app_prefix; lia|]. split; intros Hnil.
  - by apply app_eq_nil in Hnil as [_ ?].
  - rewrite Hnil in E. simpl in E. lia.
Qed.

Lemma block_ok_intro t raw :
  t ∈ BLOCK_TYPES -> raw <> [] ->
  block_ok (obj [("type", String t); ("content", String (truncate_field raw 1000))]).
Proof.
  intros Ht Hraw. exists t, (truncate_field raw 1000), raw. rewrite !get_obj.
  repeat (split; [done|]). apply truncate_field_bounded. lia.
Qed.

Lemma paragraph_of_intro text :
  paragraph_of text (obj [("type", jstr "paragraph"); ("content", String text)]).
Proof. unfold paragraph_of. by rewrite !get_obj. Qed.

Lemma omap_Forall {A B} (f : A -> option B) (P : B -> Prop) l :
  (forall a b, f a = Some b -> P b) -> Forall P (omap f l).
Proof.
  intros Hf. apply Forall_forall. intros b (a & _ & Hb)%list_elem_of_omap. by eapply Hf.
Qed.

Lemma draft_block_ok b b' : draft_block b = Some b' -> block_ok b'.
Proof.
  unfold draft_block. destruct (default [] (str_field "content" b)) as [|x c]; [done|].
  intros [= <-]. by apply block_ok_intro; [apply normalize_block_range|].
Qed.

Lemma blueprint_block_ok b b' : blueprint_block b = Some b' -> block_ok b'.
Proof.
  unfold blueprint_block. destruct (default [] (as_str b)) as [|x c]; [done|]. intros [= <-].
  apply block_ok_intro; [|done]. unfold BLOCK_TYPES. set_solver.
Qed.

Lemma blocks_or_purpose_ok p blocks :
  (forall l, blocks = Some l -> Forall block_ok l) ->
  blocks_or_purpose p blocks <> [] /\
  (Forall block_ok (blocks_or_purpose p blocks) \/
   exists b, blocks_or_purpose p blocks = [b] /\ paragraph_of p b).
Proof.
  intros Hb. unfold blocks_or_purpose. destruct blocks as [[|b l]|]; simpl; (split; [done|]);
    eauto using paragraph_of_intro.
Qed.

Lemma build_section_from bk ek block s :
  (forall b b', block b = Some b' -> block_ok b') ->
  section_ok (build_section bk ek block s) /\ section_from s (build_section bk ek block s).
Proof.
  intros Hblock. unfold build_section.
  set (purpose := default (lit "Section content") (str_field "purpose" s)).
  set (title := default (lit "Untitled Section") (str_field "title" s)).
  destruct (blocks_or_purpose_ok purpose
    ((λ l : list value, omap block l) <$> array_field bk s)) as [Hne Hall].
  { intros l (l0 & _ & ->)%fmap_Some. by apply omap_Forall. }
  assert (bounded_text 200 title (truncate_field title 200)) as Ht by (apply truncate_field_bounded; lia).
  assert (bounded_text 500 purpose (truncate_field purpose 500)) as Hp
    by (apply truncate_field_bounded; lia).
  split.
  - eexists _, _, _, _. rewrite !get_obj. split; [reflexivity|]. split; [apply Ht|].
    split; [reflexivity|]. split; [apply Hp|]. split; [reflexivity|]. split; [exact Hne|].
    split; [destruct Hall as [|(b & ? & ?)]; eauto|]. split; [reflexivity|].
    apply normalize_emphasis_range.
  - eexists _, _, _. rewrite !get_obj. by repeat (split; [first [reflexivity|exact Ht|exact Hp]|]).
Qed.

Lemma default_section_ok prompt :
  section_ok (default_section prompt) /\ section_of_prompt prompt (default_section prompt).
Proof.
  unfold default_section. set (block := obj [("type", jstr "paragraph"); ("content", String prompt)]).
  set (title := if _ <? _ then _ else _).
  assert (length title <= 200 /\ (length prompt <= 200 -> title = prompt) /\
          take 197 title = take 197 prompt) as (Hlen & Hfit & Hpre).
  { unfold title. destruct (200 <? length prompt) eqn:E;
      [apply Nat.ltb_lt in E|apply Nat.ltb_ge in E; done].
    rewrite length_app, length_take, take_app_prefix by lia. change (length (lit "...")) with 3.
    repeat split; lia. }
  split.
  - eexists _, _, _, _. rewrite !get_obj. split; [reflexivity|]. split; [exact Hlen|].
    split; [reflexivity|]. split; [by vm_compute; lia|]. split; [reflexivity|]. split; [done|].
    split; [right; exists prompt, block; split; [done|apply paragraph_of_intro]|].
    split; [reflexivity|]. unfold EMPHASES. set_solver.
  - exists title, block. rewrite !get_obj. repeat (split; [done|]). apply paragraph_of_intro.
Qed.

Lemma built_sections_ok bk ek block prompt (given : option (list value)) :
  (forall b b', block b = Some b' -> block_ok b') ->
  let built := sections_or_default prompt ((λ l : list value, build_section bk ek block <$> l) <$> given) in
  built <> [] /\ Forall section_ok built /\
  (default [] given = [] /\ (exists s, built = [s] /\ section_of_prompt prompt s) \/
   Forall2 section_from (default [] given) built).
Proof.
  intros Hblock built. unfold built, sections_or_default.
  destruct (default_section_ok prompt) as [Hok Hfrom].
  destruct given as [[|g l]|]; simpl.
  1,3: split; [done|]; split; [by repeat constructor|]; left; eauto.
  split; [done|]. split; [|right].
  - apply (Forall_fmap (build_section bk ek block) section_ok (g :: l)), Forall_true.
    intros s. by apply build_section_from.
  - apply (proj2 (Forall2_fmap_r (build_section bk ek block) section_from (g :: l) (g :: l))).
    apply Forall_Forall2_diag, Forall_true. intros s. by apply build_section_from.
Qed.

Lemma build_sections_ok interpretation prompt draft :
  build_sections interpretation prompt draft <> [] /\
  Forall section_ok (build_sections interpretation prompt draft) /\
  (given_sections interpretation draft = [] /\
     (exists s, build_sections interpretation prompt draft = [s] /\ section_of_prompt prompt s) \/
   Forall2 section_from (given_sections interpretation draft) (build_sections interpretation prompt draft)).
Proof.
  unfold build_sections, given_sections. destruct draft as [d|]; apply built_sections_ok.
  - apply draft_block_ok.
  - apply blueprint_block_ok.
Qed.

Lemma assessment_block_ok b b' : assessment_block b = Some b' -> assessment_ok b'.
Proof.
  unfold assessment_block. set (text := default (lit "Complete the activity.") (str_field "instructions" b)).
  destruct (is_nil text) eqn:E; [done|]. intros [= <-]. eexists _, text. rewrite !get_obj.
  split; [reflexivity|]. split; [apply normalize_assessment_range|]. split; [reflexivity|].
  intros Hnil. by rewrite Hnil in E.
Qed.

Lemma asset_entry_ok a : asset_ok (asset_entry a).
Proof.
  unfold asset_entry. eexists. rewrite get_obj. split; [reflexivity|].
  case_decide; [done|]. unfold ASSET_TYPES. set_solver.
Qed.
End SpecFacts.

Lemma decision_never_panics `{CaseTables} `{HashOrderLaws} `{Rfc3339Millis} now input :
  exists d, decide_output_type now input = Some d /\ do_resolved_output_type d ∈ ALLOWED_FORMATS.
Proof.
  unfold decide_output_type. case_decide as Hw.
  { eexists. split; [done|]. by apply resolved_allowed. }
  case_decide as Hc.
  { eexists. split; [done|]. by apply resolved_allowed. }
  destruct (rank_candidates_cons (di_interpretation input)) as (best & rest & -> & Hin).
  by eexists.
Qed.

(** ** Properties *)

(** C39. For every interpretation, format and draft the generation spec has this shape. Title (at
    most 200 characters), summary and delivery summary (1000) are the given text, or the teacher's
    prompt where none is given, trimmed and cut to the bound; so are tone and audience level (100)
    with fixed defaults. Each is empty exactly when that text is blank: a given blank title is kept
    as an empty one. There is at least one section: one for each section of the draft (without a
    draft, of the blueprint) in its order, or when there is none the one section that holds the
    prompt. Every section has a title of at most 200 and a purpose of at most 500 characters, an
    emphasis from the allowed set and at least one body block; its blocks have allowed types and
    content cut at 1000 characters, or there is one paragraph that repeats the section's purpose
    (or the prompt) uncut. Assessments have allowed types and instructions, assets allowed types.
    Document mode and unit type are those of slides exactly for pptx, the counts of the hints and
    of the page structure are those of the lists, and the closing unit is there exactly when there
    is an assessment. *)
Theorem generation_spec_well_formed `{CaseTables} `{JsonPrint} interpretation resolved draft :
  let spec := build_generation_spec interpretation resolved draft in
  let prompt := default (lit "Learning material") (str_field "teacher_prompt" interpretation) in
  let text path := default prompt (str_at path interpretation) in
  exists title summary delivery tone level sections assets assessments,
    get (lit "title") spec = Some (String title) /\
    bounded_text 200 (text ["document_blueprint"; "title"]) title /\
    get (lit "summary") spec = Some (String summary) /\
    bounded_text 1000 (text ["document_blueprint"; "summary"]) summary /\
    get (lit "teacher_delivery_summary") spec = Some (String delivery) /\
    bounded_text 1000 (text ["teacher_delivery_summary"]) delivery /\
    pointer ["style_hints"; "tone"] spec = Some (String tone) /\
    bounded_text 100 (default (lit "clear_and_structured")
      (option_or (str_at ["requested_media_characteristics"; "tone"] interpretation)
                 (str_at ["constraints"; "tone"] interpretation))) tone /\
    pointer ["style_hints"; "audience_level"] spec = Some (String level) /\
    bounded_text 100 (default (lit "general") (str_at ["target_audience"; "level"] interpretation)) level /\
    get (lit "sections") spec = Some (Array sections) /\ sections <> [] /\ Forall section_ok sections /\
    (given_sections interpretation draft = [] /\
       (exists s, sections = [s] /\ section_of_prompt prompt s) \/
     Forall2 section_from (given_sections interpretation draft) sections) /\
    get (lit "assets") spec = Some (Array assets) /\ Forall asset_ok assets /\
    get (lit "assessment_or_activity_blocks") spec = Some (Array assessments) /\
    Forall assessment_ok assessments /\
    get (lit "export_format") spec = Some (String resolved) /\
    pointer ["layout_hints"; "document_mode"] spec =
      Some (jstr (if decide (resolved = lit "pptx") then "slide_deck" else "document")) /\
    pointer ["page_or_slide_structure"; "unit_type"] spec =
      Some (jstr (if decide (resolved = lit "pptx") then "slide" else "page")) /\
    pointer ["layout_hints"; "section_count"] spec = Some (jint (Z.of_nat (length sections))) /\
    pointer ["layout_hints"; "asset_count"] spec = Some (jint (Z.of_nat (length assets))) /\
    pointer ["layout_hints"; "assessment_block_count"] spec =
      Some (jint (Z.of_nat (length assessments))) /\
    pointer ["page_or_slide_structure"; "section_units"] spec =
      Some (jint (Z.of_nat (length sections))) /\
    pointer ["page_or_slide_structure"; "closing_unit"] spec =
      Some (Bool (bool_decide (assessments <> []))).
Proof.
  intros spec prompt text. unfold spec, build_generation_spec. cbv zeta. fold prompt.
  destruct (build_sections_ok interpretation prompt draft) as (Hne & Hall & Hfrom).
  eexists _, _, _, _, _, _, _, _. unfold pointer; cbn [foldl mbind option_bind]. rewrite !get_obj.
  split; [reflexivity|]. split; [apply truncate_field_bounded; lia|].
  split; [reflexivity|]. split; [apply truncate_field_bounded; lia|].
  split; [reflexivity|]. split; [apply truncate_field_bounded; lia|].
  split; [reflexivity|]. split; [apply truncate_field_bounded; lia|].
  split; [reflexivity|]. split; [apply truncate_field_bounded; lia|].
  split; [reflexivity|]. split; [exact Hne|]. split; [exact Hall|]. split; [exact Hfrom|].
  split; [reflexivity|]. split; [apply Forall_fmap, Forall_true, asset_entry_ok|].
  split; [reflexivity|]. split; [apply omap_Forall, assessment_block_ok|].
  split; [reflexivity|].
  split; [by case_bool_decide; case_decide|]. split; [by case_bool_decide; case_decide|].
  repeat (split; [reflexivity|]). f_equal. f_equal. by destruct (omap assessment_block _).
Qed.

(** The fallback of a required string only covers a missing one: a blueprint title of
    whitespace becomes an empty title, although the teacher's prompt is there. *)
Lemma blank_title_stays_blank `{CaseTables} `{JsonPrint} interpretation resolved draft raw
  (Hraw : str_at ["document_blueprint"; "title"] interpretation = Some raw)
  (Hblank : trim raw = []) :
  get (lit "title") (build_generation_spec interpretation resolved draft) = Some (String []).
Proof.
  unfold build_generation_spec. cbv zeta. rewrite get_obj.
  unfold require_str_bounded. rewrite Hraw.
  unfold truncate_field. cbn [from_option]. unfold Datatypes.id. by rewrite Hblank.
Qed.

(** [resolve] never panics. When it returns a decision it has written the resolved type (a
    concrete format), the decision and a spec for that format to the row, and nothing else but the
    cleared errors and [updated_at]; on a missing row it succeeds without effect, and an error
    leaves the table unchanged. *)
Lemma resolve_writes_decision `{CaseTables} `{JsonPrint} `{HashOrderLaws} `{Rfc3339Millis} `{UuidText} `{UuidErrorText}
    generation_id interpretation preferred draft s :
  match resolve generation_id interpretation preferred draft s with
  | (Ok decision, s') =>
      exists gid d, parse_uuid_str generation_id = Some gid /\ is_object interpretation = true /\
        decision = decision_value d draft /\ do_resolved_output_type d ∈ ALLOWED_FORMATS /\
        (committed s !! gid = None -> committed s' = committed s) /\
        (forall r, committed s !! gid = Some r -> exists now, committed s' = <[gid :=
           (resolved_row (do_resolved_output_type d) decision
              (build_generation_spec interpretation (do_resolved_output_type d) draft) r)
           <| updated_at := Some now |>]> (committed s))
  | (Err _, s') => committed s' = committed s
  | (Panic, _) => False
  end.
Proof.
  unfold resolve. destruct (parse_uuid_str generation_id) as [gid|]; [|done].
  destruct (is_object interpretation) eqn:Ho; [|done]. cbn [negb].
  destruct (decision_never_panics (time s)
    {| di_interpretation := interpretation; di_preferred_output_type := preferred |}) as (d & Hd & Hin).
  assert (wp (_ ← mapping Database (execute (update_by_id (resolved_row (do_resolved_output_type d)
      (decision_value d draft)
      (build_generation_spec interpretation (do_resolved_output_type d) draft)) gid));
    mret (decision_value d draft))
    (λ r s', match r with
     | Ok decision => decision = decision_value d draft /\
        (committed s !! gid = None -> committed s' = committed s) /\
        (forall r, committed s !! gid = Some r -> exists now, committed s' = <[gid :=
           (resolved_row (do_resolved_output_type d) decision
              (build_generation_spec interpretation (do_resolved_output_type d) draft) r)
           <| updated_at := Some now |>]> (committed s))
     | Err _ => committed s' = committed s
     | Panic => False end) s) as Hwp.
  { wp_step. wp_step. apply wp_execute. intros s1 Hs1. split; [intros _; apply (same_committed _ _ Hs1)|].
    unfold update_by_id. destruct (committed s !! gid) as [r|] eqn:Hr.
    - destruct (row_ok _); simpl; [|apply (same_committed _ _ Hs1)]. wp_step.
      split; [done|]. split; [done|]. intros r' [= <-]. by eexists.
    - simpl. wp_step. split; [done|]. split; [done|]. done. }
  unfold mbind, M_bind, utc_now, panicking, wp in *. rewrite Hd. cbn [of_panicking].
  destruct (mapping _ _ s) as [[o|e|] s1]; simpl in *; [|done|done].
  destruct Hwp as (Hdec & Hnone & Hsome). exists gid, d. split; [reflexivity|]. split; [reflexivity|].
  split; [exact Hdec|]. split; [exact Hin|]. split; [exact Hnone|exact Hsome].
Qed.

(** ** Witnesses *)

Module SpecWitness.
Import DecisionWitness.
#[local] Existing Instance plain_case.
#[local] Existing Instance listed_order.
#[local] Existing Instance listed_order_laws.
#[local] Existing Instance millis.
#[local] Existing Instance decimal_uuid.
#[local] Existing Instance decimal_uuid_error.
Definition no_print : JsonPrint := λ _, [].
#[local] Existing Instance no_print.

Definition blank_title : value :=
  obj [("teacher_prompt", jstr "Fractions"); ("document_blueprint", obj [("title", jstr "  ")])].

Lemma blank_title_stays_blank_witness :
  get (lit "title") (build_generation_spec blank_title (lit "pdf") None) = Some (String []).
Proof.
  apply (blank_title_stays_blank blank_title (lit "pdf") None (lit "  ")).
  - vm_compute. reflexivity.
  - vm_compute. reflexivity.
Defined.

Lemma resolve_writes_decision_witness :
  exists decision s', resolve (lit "1") worksheet None None (sample_state sample_db 0) = (Ok decision, s') /\
    exists gid d, parse_uuid_str (lit "1") = Some gid /\ decision = decision_value d None /\
      do_resolved_output_type d ∈ ALLOWED_FORMATS.
Proof.
  pose proof (resolve_writes_decision (lit "1") worksheet None None (sample_state sample_db 0)) as Hspec.
  destruct (resolve (lit "1") worksheet None None (sample_state sample_db 0)) as [[decision|e|] s'] eqn:E.
  - exists decision, s'. split; [reflexivity|]. destruct Hspec as (gid & d & Hid & _ & Hdec & Hin & _).
    exists gid, d. split; [exact Hid|]. split; [exact Hdec|exact Hin].
  - exfalso. assert (is_ok (resolve (lit "1") worksheet None None (sample_state sample_db 0)).1 = true)
      as Hok by (vm_compute; reflexivity). by rewrite E in Hok.
  - destruct Hspec.
Defined.
End SpecWitness.
