(* ===== verification/Workflow.v ===== *)
(** * The workflow orchestrator (src/src/orchestrator/workflow.rs)

    The checkpointed pipeline: classify, submit to the renderer, publish,
    complete. The five step traits are an interface, [Steps]; what a step may do
    to the table is stated by [StepsPreserve], against which the theorems about
    the pipeline are proved. *)

From stdpp Require Import base gmap list option strings fin_maps relations.
From Stdlib Require Import ZArith Lia.
From S2P Require Import Prelude RustStr Json Floats Lifecycle Store Effects Samples AuditTrail Submission Decision GenerationSpec.

Inductive WorkflowError :=
| NotFound (id : str)
| StepFailed (step : str) (message : str)
| AuditTrailErr (e : AuditTrailError)
| DecisionErr (e : DecisionError)
| StepProvider (msg : str)
| DatabaseErr (e : db_error)
| InvalidUuid (msg : str).

(** The step traits: each is a method of a service outside the orchestrator. *)
Record Steps := {
  interpret : str -> M WorkflowError value;
  draft : str -> M WorkflowError value;
  submit_job : str -> str -> M WorkflowError unit;
  publish : str -> M WorkflowError value;
  compose : str -> M WorkflowError value
}.

Definition parse_uuid `{UuidText} `{UuidErrorText} (s : str) : outcome WorkflowError uuid :=
  match parse_uuid_str s with
  | Some u => Ok u
  | None => Err (InvalidUuid (uuid_error_text s))
  end.

(** ** SQL expressions on JSON columns *)

Section JsonSql.
Context `{JsonPrint}.

(** [->>]: a string as it is, null as NULL, any other value as its text. *)
Definition json_text (v : value) : option str :=
  match v with
  | Null => None
  | String s => Some s
  | other => Some (json_to_string other)
  end.
Definition field_text (k : string) (v : value) : option str := get (lit k) v ≫= json_text.
Arguments field_text k%_string v.
(** [->> 0]: the first element of an array; a scalar counts as an array of itself. *)
Definition element0_text (v : value) : option str :=
  match v with
  | Array (x :: _) => json_text x
  | Array [] | Object _ => None
  | scalar => json_text scalar
  end.
(** [IS NOT NULL AND ... != '']. *)
Definition nonempty_text (o : option str) : bool :=
  match o with Some (_ :: _) => true | _ => false end.
End JsonSql.

Section Workflow.
Context `{CaseTables} `{JsonPrint} `{HashOrder} `{Rfc3339Millis} `{UuidText} `{UuidErrorText} `{Rfc3339}.

(** [SELECT e FROM media_generations WHERE id = $1] with [fetch_optional]. *)
Definition fetch {A} (generation_id : str) (f : MediaGeneration -> A) : M WorkflowError (option A) :=
  i ← lift (parse_uuid generation_id);
  mapping DatabaseErr (execute (select_by_id f i)).

Definition get_status (generation_id : str) : M WorkflowError MediaGenerationStatus :=
  status_str ← fetch generation_id status;
  match status_str with
  | None => throw (NotFound generation_id)
  | Some s =>
      match from_str s with
      | Some st => mret st
      | None => throw (StepFailed (lit "get_status") (lit "Unknown status: " ++ s))
      end
  end.

Definition status_before (generation_id : str) (checkpoint : MediaGenerationStatus) :
    M WorkflowError bool :=
  current ← get_status generation_id;
  mret (Lifecycle.status_before current checkpoint).

(** The WHERE clause of [has_classification], and the source it selects. *)
Definition classified_source (r : MediaGeneration) : option (option str) :=
  if match interpretation_payload r with
     | Some v => nonempty_text (field_text "schema_version" v) | None => false end
     && match generation_spec_payload r with
        | Some v => nonempty_text (field_text "schema_version" v) | None => false end
     && nonempty_text (resolved_output_type r)
  then Some (v ← decision_payload r; draft_meta ← get (lit "content_draft") v;
             field_text "source" draft_meta)
  else None.

Definition has_classification (generation_id : str) : M WorkflowError bool :=
  row ← fetch generation_id classified_source;
  match mjoin row with
  | Some (Some source) => mret (negb (bool_decide (source = lit "interpretation_only")))
  | Some None => mret true
  | None => mret false
  end.

Definition has_publication_entities (generation_id : str) : M WorkflowError bool :=
  row ← fetch generation_id (λ r,
    bool_decide (is_Some (topic_id r)) && bool_decide (is_Some (content_id r))
    && bool_decide (is_Some (recommended_project_id r)));
  mret (default false row).

Definition has_final_delivery_payload (generation_id : str) : M WorkflowError bool :=
  row ← fetch generation_id (λ r,
    match delivery_payload r with
    | Some v => nonempty_text (field_text "schema_version" v)
    | None => false
    end);
  mret (default false row).

Definition get_decision_context (generation_id : str) : M WorkflowError value :=
  payload ← fetch generation_id decision_payload;
  mret (default Null (mjoin payload)).

(** Tracing and timing do not touch the result. *)
Definition timed_step {A} (step_fn : M WorkflowError A) : M WorkflowError A := step_fn.

(** An audit transition of the workflow. *)
Definition audit_transition (generation_id : str) (to : MediaGenerationStatus) (ctx : value)
    (attempt : Z) (job_context : option value) : M WorkflowError unit :=
  _ ← mapping AuditTrailErr (transition generation_id to (Some ctx) (Some attempt) job_context);
  mret ().

Section Pipeline.
Context (steps : Steps).

Definition ensure_classified (generation_id : str) (attempt : Z) (job_context : option value) :
    M WorkflowError unit :=
  before ← status_before generation_id Interpreting;
  _ ← (if (before : bool) then
         audit_transition generation_id Interpreting (obj [("step", jstr "interpretation")])
           attempt job_context
       else mret ());
  classified ← has_classification generation_id;
  _ ← (if (classified : bool) then mret ()
       else
         interpretation_payload ← interpret steps generation_id;
         preferred_output_type ← fetch generation_id preferred_output_type;
         _ ← mapping DecisionErr (resolve generation_id interpretation_payload preferred_output_type None);
         draft_payload ← draft steps generation_id;
         _ ← mapping DecisionErr (resolve generation_id interpretation_payload preferred_output_type
                                    (Some draft_payload));
         mret ());
  before ← status_before generation_id Classified;
  if (before : bool) then
    decision_payload ← get_decision_context generation_id;
    let at_ (k : string) : value := default Null (get (lit k) decision_payload) in
    audit_transition generation_id Classified
      (obj [("step", jstr "classification"); ("decision_source", at_ "decision_source"%string);
            ("reason_code", at_ "reason_code"%string);
            ("content_draft_source",
               default Null (pointer ["content_draft"; "source"] decision_payload));
            ("resolved_output_type", at_ "resolved_output_type"%string)])
      attempt job_context
  else mret ().

(** [UPDATE media_generations SET generation_status = 'processing']. *)
Definition set_processing (r : MediaGeneration) : MediaGeneration :=
  r <| generation_status := Some (lit "processing") |>.

Definition ensure_generated (generation_id : str) (job_id : option str) (attempt : Z)
    (job_context : option value) : M WorkflowError unit :=
  before ← status_before generation_id Generating;
  _ ← (if (before : bool) then
         resolved_type ← fetch generation_id resolved_output_type;
         audit_transition generation_id Generating
           (obj [("step", jstr "generation"); ("job_id", jopt String job_id);
                 ("resolved_output_type", jopt String (mjoin resolved_type))])
           attempt job_context
       else mret ());
  match job_id with
  | Some jid =>
      _ ← submit_job steps generation_id jid;
      i ← lift (parse_uuid generation_id);
      _ ← mapping DatabaseErr (execute (update_by_id set_processing i));
      mret ()
  | None => mret ()
  end.

Definition ensure_published (generation_id : str) (attempt : Z) (job_context : option value) :
    M WorkflowError unit :=
  entities ← has_publication_entities generation_id;
  if (entities : bool) then
    before ← status_before generation_id Publishing;
    if (before : bool) then
      audit_transition generation_id Publishing
        (obj [("step", jstr "publication"); ("reused_publication_entities", Bool true)])
        attempt job_context
    else mret ()
  else
    _ ← publish steps generation_id; mret ().

(** What [ensure_completed] selects for its context. *)
Definition delivery_meta (r : MediaGeneration) : option bool * option str * option str :=
  let fallback := v ← delivery_payload r; fb ← get (lit "fallback") v; field_text "triggered" fb in
  let meta (k : string) : option str :=
    v ← delivery_payload r; x ← pointer ["response_meta"; k] v; element0_text x in
  ((λ t : str, bool_decide (t = lit "true")) <$> fallback, meta "provider"%string, meta "model"%string).

Definition ensure_completed (generation_id : str) (attempt : Z) (job_context : option value) :
    M WorkflowError unit :=
  delivered ← has_final_delivery_payload generation_id;
  _ ← (if (delivered : bool) then mret () else _ ← compose steps generation_id; mret ());
  before ← status_before generation_id Completed;
  if (before : bool) then
    meta ← fetch generation_id delivery_meta;
    let '(fallback, provider, model) := default (None, None, None) meta in
    audit_transition generation_id Completed
      (obj [("step", jstr "delivery"); ("delivery_fallback", Bool (default false fallback));
            ("delivery_provider", jopt String provider); ("delivery_model", jopt String model)])
      attempt job_context
  else mret ().

(** [SELECT generation_status = 'processing'] decoded as [bool]: NULL is a decoding error. *)
Definition is_processing (generation_id : str) : M WorkflowError bool :=
  i ← lift (parse_uuid generation_id);
  row ← mapping DatabaseErr (execute (select_not_null
          (λ r, (λ st, bool_decide (st = lit "processing")) <$> generation_status r) i));
  mret (default false row).

(** The steps of [process] after the early return. *)
Definition run_steps (generation_id : str) (job_id : option str) (attempt : Z)
    (job_context : option value) : M WorkflowError unit :=
  _ ← timed_step (ensure_classified generation_id attempt job_context);
  _ ← timed_step (ensure_generated generation_id job_id attempt job_context);
  processing ← is_processing generation_id;
  if (processing : bool) then mret ()
  else
    _ ← timed_step (ensure_published generation_id attempt job_context);
    timed_step (ensure_completed generation_id attempt job_context).

Definition process (generation_id : str) (job_id : option str) (attempt : option Z)
    (job_context : option value) : M WorkflowError unit :=
  let attempt := default 1%Z attempt in
  _ ← mapping AuditTrailErr (initialize generation_id);
  st ← get_status generation_id;
  if is_terminal st then mret ()
  else run_steps generation_id job_id attempt job_context.
End Pipeline.
End Workflow.

(** ** The contract of the steps *)

(** What the pipeline asks of the steps: each keeps the relation [R] between tables. *)
Class StepsPreserve (R : DB -> DB -> Prop) (steps : Steps) : Prop := {
  interpret_keeps : forall g, preserves R (interpret steps g);
  draft_keeps : forall g, preserves R (draft steps g);
  submit_keeps : forall g j, preserves R (submit_job steps g j)
}.
Class PublicationPreserves (R : DB -> DB -> Prop) (steps : Steps) : Prop := {
  publish_keeps : forall g, preserves R (publish steps g);
  compose_keeps : forall g, preserves R (compose steps g)
}.
#[export] Hint Resolve interpret_keeps draft_keeps submit_keeps publish_keeps compose_keeps : preserves.

(** ** Lemmas: what the services keep *)

(** A relation that rewriting the audit payload, the decision columns, and a move of the status
    along the matrix keep. *)
Class ServiceRelation (R : DB -> DB -> Prop) : Prop := {
  service_preorder :: PreOrder R;
  service_transition : forall db i r to p now, db !! i = Some r ->
    moved (status r) (as_str to) -> R db (<[i := transitioned to p now r]> db);
  service_payload : forall db i r p now, db !! i = Some r ->
    R db (<[i := r <| orchestration_audit_payload := p |> <| updated_at := now |>]> db);
  service_resolved : forall db i r ty d spec now, db !! i = Some r ->
    R db (<[i := (resolved_row ty d spec r) <| updated_at := now |>]> db)
}.

Section ServicesKeep.
Context `{CaseTables} `{JsonPrint} `{HashOrder} `{Rfc3339Millis} `{UuidText} `{UuidErrorText} `{Rfc3339}.
Context (R : DB -> DB -> Prop) `{!ServiceRelation R}.

Lemma transition_keeps g to ctx att jc : preserves R (transition g to ctx att jc).
Proof.
  apply preserves_wp. intros s. eapply wp_mono; [apply wp_transition|].
  intros [p|e|] s'; simpl; [|intros ->; reflexivity|intros ->; reflexivity].
  intros (gid & row & from & now & _ & Hr & Hst & Hmove & ->). apply service_transition; [done|].
  rewrite Hst. destruct Hmove as [<-|Hcan]; [reflexivity|by apply moved_step].
Qed.

Lemma initialize_keeps g : preserves R (initialize g).
Proof.
  apply preserves_wp. intros s. eapply wp_mono; [apply wp_initialize|].
  intros [p|e|] s'; simpl; [|intros ->; reflexivity|intros ->; reflexivity].
  intros (gid & row & _ & Hr & Hres). destruct (has_audit_payload row).
  - destruct Hres as [_ ->]. reflexivity.
  - destruct Hres as (_ & now & ->). by apply service_payload.
Qed.

Lemma update_resolved_keeps ty d spec i : preserves R (execute (update_by_id (resolved_row ty d spec) i)).
Proof.
  apply preserves_execute; [typeclasses eauto|].
  intros now db o db' [(_ & _ & ->)|(r & Hr & _ & _ & ->)]%update_by_id_Ok; [reflexivity|].
  by apply service_resolved.
Qed.

Lemma resolve_keeps g i pref dr : preserves R (resolve g i pref dr).
Proof.
  unfold resolve. repeat preserves_step;
    auto using preserves_throw, preserves_ret, preserves_now, preserves_panicking, update_resolved_keeps
      with typeclass_instances.
Qed.
End ServicesKeep.

#[export] Instance advances_service : ServiceRelation advances.
Proof.
  split.
  - typeclasses eauto.
  - intros db i r to p now Hr Hm. eapply advances_insert; [exact Hr|exact Hm].
  - intros. eapply advances_insert; [done|]. simpl. reflexivity.
  - intros. eapply advances_insert; [done|]. simpl. reflexivity.
Qed.

(** The row [i] exists, and its generation status is still NULL. *)
Definition stays_null (i : uuid) (db db' : DB) : Prop :=
  forall r, db !! i = Some r -> generation_status r = None ->
    exists r', db' !! i = Some r' /\ generation_status r' = None.

#[export] Instance stays_null_preorder i : PreOrder (stays_null i).
Proof.
  split; [intros db r Hr Hn; by exists r|].
  intros d1 d2 d3 H12 H23 r Hr Hn. destruct (H12 r Hr Hn) as (r2 & Hr2 & Hn2). by apply (H23 r2).
Qed.

Lemma stays_null_insert i db j r r' :
  db !! j = Some r -> generation_status r' = generation_status r -> stays_null i db (<[j := r']> db).
Proof.
  intros Hj Hs x Hx Hn. destruct (decide (j = i)) as [->|Hne].
  - exists r'. rewrite lookup_insert_eq. split; [done|]. rewrite Hs. congruence.
  - exists x. by rewrite lookup_insert_ne.
Qed.

#[export] Instance stays_null_service i : ServiceRelation (stays_null i).
Proof.
  split.
  - typeclasses eauto.
  - intros db j r to p now Hr _. eapply stays_null_insert; [exact Hr|reflexivity].
  - intros db j r p now Hr. eapply stays_null_insert; [exact Hr|reflexivity].
  - intros db j r ty d spec now Hr. eapply stays_null_insert; [exact Hr|reflexivity].
Qed.

(** ** Lemmas: the pipeline *)

Section PipelineKeeps.
Context `{CaseTables} `{JsonPrint} `{HashOrder} `{Rfc3339Millis} `{UuidText} `{UuidErrorText} `{Rfc3339}.
Context (R : DB -> DB -> Prop) `{!ServiceRelation R} (steps : Steps).

Lemma fetch_keeps {A} g (f : MediaGeneration -> A) : preserves R (fetch g f).
Proof. unfold fetch. preserves_auto. Qed.

Lemma get_status_keeps g : preserves R (get_status g).
Proof. unfold get_status. repeat preserves_step; auto using fetch_keeps with preserves typeclass_instances. Qed.

Lemma status_before_keeps g c : preserves R (status_before g c).
Proof. unfold status_before. repeat preserves_step; auto using get_status_keeps with preserves typeclass_instances. Qed.

Lemma audit_transition_keeps g to ctx att jc : preserves R (audit_transition g to ctx att jc).
Proof. unfold audit_transition. repeat preserves_step; auto using transition_keeps with preserves typeclass_instances. Qed.

Lemma ensure_classified_keeps `{!StepsPreserve R steps} g att jc :
  preserves R (ensure_classified steps g att jc).
Proof.
  unfold ensure_classified, has_classification, get_decision_context.
  repeat preserves_step;
    eauto using fetch_keeps, status_before_keeps, audit_transition_keeps, resolve_keeps,
      preserves_ret with preserves typeclass_instances.
Qed.

Lemma ensure_published_keeps `{!PublicationPreserves R steps} g att jc :
  preserves R (ensure_published steps g att jc).
Proof.
  unfold ensure_published, has_publication_entities.
  repeat preserves_step;
    eauto using fetch_keeps, status_before_keeps, audit_transition_keeps, preserves_ret
      with preserves typeclass_instances.
Qed.

Lemma ensure_completed_keeps `{!PublicationPreserves R steps} g att jc :
  preserves R (ensure_completed steps g att jc).
Proof.
  unfold ensure_completed, has_final_delivery_payload.
  repeat preserves_step;
    eauto using fetch_keeps, status_before_keeps, audit_transition_keeps, preserves_ret
      with preserves typeclass_instances.
Qed.

Lemma is_processing_keeps g : preserves R (is_processing g).
Proof.
  unfold is_processing. repeat preserves_step; eauto with preserves typeclass_instances.
  apply preserves_execute; [typeclasses eauto|].
  intros ? ? ? ? [-> _]%select_not_null_Ok. reflexivity.
Qed.
End PipelineKeeps.

Section PipelineFacts.
Context `{CaseTables} `{JsonPrint} `{HashOrder} `{Rfc3339Millis} `{UuidText} `{UuidErrorText} `{Rfc3339}.
Context (steps : Steps).


Lemma workflow_parse_uuid_Ok g i : parse_uuid g = Ok i -> parse_uuid_str g = Some i.
Proof. unfold parse_uuid. by destruct (parse_uuid_str g); intros [= ->]. Qed.

(** A status that was read is the status of a row. *)
Lemma wp_get_status g s :
  wp (get_status g) (λ r s', committed s' = committed s /\
    match r with
    | Ok st => exists i row, parse_uuid_str g = Some i /\ committed s !! i = Some row /\
        status row = as_str st
    | Err _ => True
    | Panic => False
    end) s.
Proof.
  unfold get_status, fetch, select_by_id, parse_uuid. destruct (parse_uuid_str g) as [i|]; [|done].
  repeat wp_step; simpl; [by same_data_simpl|]. same_data_simpl.
  destruct (committed s !! i) as [row|] eqn:Hr; simpl; [|by wp_step; same_data_simpl].
  destruct (from_str (status row)) as [st|] eqn:Hst; wp_step; simpl; [|done].
  split; [done|]. exists i, row. apply from_str_Some in Hst. done.
Qed.

Lemma wp_is_processing g i row s :
  parse_uuid_str g = Some i -> committed s !! i = Some row ->
  wp (is_processing g) (λ r s', committed s' = committed s /\
    match r with
    | Ok b => exists st, generation_status row = Some st /\ b = bool_decide (st = lit "processing")
    | Err _ => True
    | Panic => False
    end) s.
Proof.
  intros Hi Hr. unfold is_processing, select_not_null, parse_uuid. rewrite Hi.
  repeat wp_step; simpl; [by same_data_simpl|]. rewrite Hr.
  destruct (generation_status row) as [st|]; simpl; [|by same_data_simpl].
  wp_step. split; [done|]. by exists st.
Qed.

Lemma set_processing_advances i : preserves advances (execute (update_by_id set_processing i)).
Proof.
  apply preserves_execute; [typeclasses eauto|]. intros now db o db'. by apply update_keeps_status.
Qed.

Lemma ensure_generated_advances `{!StepsPreserve advances steps} g job att jc :
  preserves advances (ensure_generated steps g job att jc).
Proof.
  unfold ensure_generated. repeat preserves_step;
    eauto using fetch_keeps, status_before_keeps, audit_transition_keeps,
      set_processing_advances, preserves_ret with preserves typeclass_instances.
Qed.

(** Without a job nothing is submitted and no generation status is written. *)
Lemma ensure_generated_no_job R `{!ServiceRelation R} g att jc :
  preserves R (ensure_generated steps g None att jc).
Proof.
  unfold ensure_generated. repeat preserves_step;
    eauto using fetch_keeps, status_before_keeps, audit_transition_keeps, preserves_ret
      with preserves typeclass_instances.
Qed.

(** A submitted job leaves its row marked as processing. *)
Lemma wp_ensure_generated_job `{!StepsPreserve advances steps} g j att jc s :
  wp (ensure_generated steps g (Some j) att jc) (λ r s',
    match r with
    | Ok _ => exists i row, parse_uuid_str g = Some i /\ committed s' !! i = Some row /\
        generation_status row = Some (lit "processing")
    | _ => True
    end) s.
Proof.
  unfold ensure_generated, status_before. wp_step. wp_step.
  eapply wp_mono; [apply wp_get_status|]. intros [st|e|] s1 [Hdb Hst]; [|done|done].
  destruct Hst as (i & row & Hi & Hrow & _). rewrite <- Hdb in Hrow. wp_step. wp_step.
  match goal with |- wp ?m _ _ => assert (preserves advances m) as Hm end.
  { repeat preserves_step; eauto using fetch_keeps, audit_transition_keeps,
      preserves_ret with preserves typeclass_instances. }
  eapply wp_mono; [apply (wp_keeps _ _ _ Hm)|]. intros [u|e|] s2 H12; [|done|done].
  destruct (H12 i row Hrow) as (row2 & Hrow2 & _). wp_step.
  eapply wp_mono; [apply (wp_keeps _ _ _ (submit_keeps g j))|]. intros [u'|e|] s3 H23; [|done|done].
  destruct (H23 i row2 Hrow2) as (row3 & Hrow3 & _). unfold parse_uuid. rewrite Hi.
  do 3 wp_step. wp_step. apply wp_execute. intros s4 Hs4. split; [done|].
  unfold update_by_id. rewrite Hrow3. destruct (row_ok _); simpl; [|done]. wp_step. simpl.
  exists i. eexists. rewrite lookup_insert_eq. split; [done|]. split; reflexivity.
Qed.

Lemma run_steps_advances `{!StepsPreserve advances steps} `{!PublicationPreserves advances steps}
    g job att jc :
  preserves advances (run_steps steps g job att jc).
Proof.
  unfold run_steps, timed_step. repeat preserves_step;
    eauto using ensure_classified_keeps, ensure_generated_advances,
      is_processing_keeps, ensure_published_keeps,
      ensure_completed_keeps, preserves_ret with typeclass_instances.
Qed.

Lemma process_keeps `{!StepsPreserve advances steps} `{!PublicationPreserves advances steps} g job att jc :
  preserves advances (process steps g job att jc).
Proof.
  unfold process. repeat preserves_step;
    eauto using initialize_keeps, get_status_keeps, run_steps_advances,
      preserves_ret with typeclass_instances.
Qed.
End PipelineFacts.

(** Two runs of a prefix are the same run. *)
Lemma bind_ext {E A B} (m : M E A) (k k' : A -> M E B) s :
  (forall a s', m s = (Ok a, s') -> k a s' = k' a s') -> (m ≫= k) s = (m ≫= k') s.
Proof. intros Hk. unfold mbind, M_bind. destruct (m s) as [[a|e|] s'] eqn:Em; auto. Qed.

(** The same steps with another publication and delivery. *)
Definition with_publication (publish' compose' : str -> M WorkflowError value) (steps : Steps) : Steps :=
  {| interpret := interpret steps; draft := draft steps; submit_job := submit_job steps;
     publish := publish'; compose := compose' |}.

(** ** Properties *)

(** Whatever statements fail and wherever the pipeline stops, [process] only moves a status
    along the transition matrix, loses no row, and leaves finished generations finished, provided
    the steps do. *)
Lemma process_advances `{CaseTables} `{JsonPrint} `{HashOrder} `{Rfc3339Millis} `{UuidText} `{UuidErrorText}
    `{Rfc3339} steps `{!StepsPreserve advances steps} `{!PublicationPreserves advances steps}
    g job att jc s i row
  (Hrow : committed s !! i = Some row) :
  exists row', committed (process steps g job att jc s).2 !! i = Some row' /\
    (status row' = status row \/
     exists a b, status row = as_str a /\ status row' = as_str b /\ rtc Lifecycle.step a b) /\
    (forall st, status row = as_str st -> is_terminal st = true -> status row' = status row).
Proof.
  pose proof (process_keeps steps g job att jc s) as Hadv. destruct (Hadv i row Hrow) as (row' & Hrow' & Hm).
  exists row'. split; [done|]. split; [destruct Hm as [->|(a & b & ? & ? & ?)]; eauto 6|].
  intros st Hst Hterm.
  destruct (advances_terminal _ _ _ _ _ Hadv Hrow Hst Hterm) as (r & Hr & Hsr). congruence.
Qed.

(** With a job id the worker stops once the job is submitted: publication and delivery are
    never called (the run is the same whatever they are), and a run that succeeds on an
    unfinished generation leaves it marked as processing for the webhook to finish. *)
Lemma process_halts_after_submission `{CaseTables} `{JsonPrint} `{HashOrder} `{Rfc3339Millis}
    `{UuidText} `{UuidErrorText} `{Rfc3339} steps `{!StepsPreserve advances steps} publish' compose' g j att jc s :
  process steps g (Some j) att jc s =
    process (with_publication publish' compose' steps) g (Some j) att jc s /\
  (forall s', process steps g (Some j) att jc s = (Ok (), s') ->
     exists i row, parse_uuid_str g = Some i /\ committed s' !! i = Some row /\
       (generation_status row = Some (lit "processing") \/
        exists st, status row = as_str st /\ is_terminal st = true)).
Proof.
  split.
  - unfold process. apply bind_ext. intros p s1 _. apply bind_ext. intros st s2 _.
    destruct (is_terminal st); [done|]. unfold run_steps, timed_step.
    apply bind_ext. intros u s3 _. apply bind_ext. intros u' s4 Hgen.
    pose proof (wp_intro _ _ _ _ _ (wp_ensure_generated_job steps g j (default 1%Z att) jc s3) Hgen)
      as (i & row & Hi & Hrow & Hproc).
    apply bind_ext. intros b s5 Hb.
    pose proof (wp_intro _ _ _ _ _ (wp_is_processing g i row s4 Hi Hrow) Hb) as (_ & x & Hx & ->).
    by rewrite Hproc in Hx; simplify_eq.
  - intros s' Hrun.
    assert (wp (process steps g (Some j) att jc) (λ r s', match r with
      | Ok _ => exists i row, parse_uuid_str g = Some i /\ committed s' !! i = Some row /\
          (generation_status row = Some (lit "processing") \/
           exists st, status row = as_str st /\ is_terminal st = true)
      | _ => True end) s) as Hwp; [|exact (wp_intro _ _ _ _ _ Hwp Hrun)].
    unfold process. wp_step. eapply wp_mono; [apply wp_true|].
    intros [p|e|] s1 _; [|done|done].
    wp_step. eapply wp_mono; [apply wp_get_status|]. intros [st|e|] s2 [Hdb Hst]; [|done|done].
    destruct Hst as (i & row & Hi & Hrow & Hstat). destruct (is_terminal st) eqn:Hterm.
    { wp_step. exists i, row. rewrite Hdb. split; [done|]. split; [done|]. right. by exists st. }
    unfold run_steps, timed_step. wp_step.
    eapply wp_mono; [apply wp_true|]. intros [u|e|] s3 _; [|done|done].
    wp_step. eapply wp_mono; [by apply wp_ensure_generated_job|]. intros [u'|e|] s4 Hgen; [|done|done].
    destruct Hgen as (i' & row' & Hi' & Hrow' & Hproc). wp_step.
    eapply wp_mono; [by eapply (wp_is_processing g)|]. intros [b|e|] s5 [Hdb5 Hb]; [|done|done].
    destruct Hb as (x & Hx & ->). rewrite Hproc in Hx. simplify_eq. rewrite bool_decide_true by done. wp_step.
    exists i, row'. rewrite Hdb5. split; [done|]. split; [done|]. by left.
Qed.

(** Without a job id, on a generation whose [generation_status] is NULL, [process] cannot
    succeed unless the generation is finished: the check for processing reads NULL into a [bool]
    and fails, so the fallback of publishing from here is never reached. *)
Lemma process_without_job_fails_on_null `{CaseTables} `{JsonPrint} `{HashOrder} `{Rfc3339Millis}
    `{UuidText} `{UuidErrorText} `{Rfc3339} steps g i att jc s s' row
  (Hsteps : StepsPreserve (stays_null i) steps)
  (Hi : parse_uuid_str g = Some i) (Hrow : committed s !! i = Some row)
  (Hnull : generation_status row = None)
  (Hrun : process steps g None att jc s = (Ok (), s')) :
  exists r st, committed s' !! i = Some r /\ status r = as_str st /\ is_terminal st = true.
Proof.
  assert (wp (process steps g None att jc) (λ r s', match r with
    | Ok _ => exists r st, committed s' !! i = Some r /\ status r = as_str st /\ is_terminal st = true
    | _ => True end) s) as Hwp; [|exact (wp_intro _ _ _ _ _ Hwp Hrun)].
  unfold process. wp_step. wp_step.
  eapply wp_mono; [apply (wp_keeps _ _ _ (initialize_keeps (stays_null i) g))|].
  intros [p|e|] s1 HS1; [|done|done]. destruct (HS1 row Hrow Hnull) as (row1 & Hrow1 & Hnull1).
  simpl. wp_step. eapply wp_mono; [apply wp_get_status|].
  intros [st|e|] s2 [Hdb Hst]; [|done|done].
  destruct Hst as (i' & row' & Hi' & Hrow' & Hstat). simplify_eq.
  destruct (is_terminal st) eqn:Hterm; [wp_step; exists row1, st; by rewrite Hdb|].
  unfold run_steps, timed_step. rewrite <- Hdb in Hrow1. wp_step.
  eapply wp_mono; [apply (wp_keeps _ _ _ (ensure_classified_keeps (stays_null i) steps g _ jc))|].
  intros [u|e|] s3 HS3; [|done|done]. destruct (HS3 row1 Hrow1 Hnull1) as (row3 & Hrow3 & Hnull3).
  wp_step.
  eapply wp_mono; [apply (wp_keeps _ _ _ (ensure_generated_no_job steps (stays_null i) g _ jc))|].
  intros [u'|e|] s4 HS4; [|done|done]. destruct (HS4 row3 Hrow3 Hnull3) as (row4 & Hrow4 & Hnull4).
  wp_step. eapply wp_mono; [by eapply (wp_is_processing g)|]. intros [b|e|] s5 [_ Hb]; [|done|done].
  destruct Hb as (x & Hx & _). congruence.
Qed.

(** ** Witnesses *)

Module WorkflowWitness.
Import DecisionWitness SpecWitness.
#[local] Existing Instance plain_case.
#[local] Existing Instance listed_order.
#[local] Existing Instance millis.
#[local] Existing Instance decimal_uuid.
#[local] Existing Instance decimal_uuid_error.
#[local] Existing Instance decimal_time.
#[local] Existing Instance no_print.

(** Steps that answer without touching the table. *)
Definition quiet_steps : Steps := {|
  interpret := λ _, mret worksheet;
  draft := λ _, mret (obj [("source", jstr "llm")]);
  submit_job := λ _ _, mret ();
  publish := λ _, mret Null;
  compose := λ _, mret Null
|}.
Lemma quiet_steps_keep R `{!PreOrder R} : StepsPreserve R quiet_steps.
Proof. split; intros; apply preserves_ret; typeclasses eauto. Qed.
Lemma quiet_publication_keeps R `{!PreOrder R} : PublicationPreserves R quiet_steps.
Proof. split; intros; apply preserves_ret; typeclasses eauto. Qed.

Definition start : St := sample_state sample_db 0.

Lemma process_advances_witness :
  exists row', committed (process quiet_steps (lit "1") (Some (lit "9")) None None start).2 !! 1%Z = Some row' /\
    status row' = lit "generating" /\
    (status row' = status sample_row \/
     exists a b, status sample_row = as_str a /\ status row' = as_str b /\ rtc Lifecycle.step a b).
Proof.
  destruct (@process_advances _ _ _ _ _ _ _ quiet_steps (quiet_steps_keep advances)
    (quiet_publication_keeps advances) (lit "1") (Some (lit "9")) None None start 1 sample_row eq_refl)
    as (row' & Hrow' & Hmoved & _).
  exists row'. split; [exact Hrow'|]. split; [|exact Hmoved].
  assert (status <$> committed (process quiet_steps (lit "1") (Some (lit "9")) None None start).2 !! 1%Z
    = Some (lit "generating")) as Hst by (vm_compute; reflexivity).
  rewrite Hrow' in Hst. simpl in Hst. congruence.
Defined.

Lemma process_halts_after_submission_witness :
  (process quiet_steps (lit "1") (Some (lit "9")) None None start).1 = Ok () /\
  process quiet_steps (lit "1") (Some (lit "9")) None None start =
  process (with_publication (λ _, throw (StepProvider [])) (λ _, throw (StepProvider [])) quiet_steps)
    (lit "1") (Some (lit "9")) None None start.
Proof.
  split; [vm_compute; reflexivity|].
  apply (@process_halts_after_submission _ _ _ _ _ _ _ quiet_steps (quiet_steps_keep advances)).
Defined.

(** A finished generation is the case left. *)
Definition finished : DB := {[ 1%Z := sample_row <| status := lit "failed" |> ]}.

Lemma run_finished :
  exists s', process quiet_steps (lit "1") None None None (sample_state finished 0) = (Ok (), s').
Proof. eexists. vm_compute. reflexivity. Qed.

Lemma process_without_job_fails_on_null_witness :
  (process quiet_steps (lit "1") None None None start).1 = Err (DatabaseErr ColumnDecode) /\
  exists s' r st, process quiet_steps (lit "1") None None None (sample_state finished 0) = (Ok (), s') /\
    committed s' !! 1%Z = Some r /\ status r = as_str st /\ is_terminal st = true.
Proof.
  split; [vm_compute; reflexivity|].
  destruct run_finished as [s' Hrun]. exists s'.
  destruct (process_without_job_fails_on_null quiet_steps (lit "1") 1 None None (sample_state finished 0) s'
    (sample_row <| status := lit "failed" |>) (quiet_steps_keep (stays_null 1)) eq_refl eq_refl eq_refl Hrun)
    as (r & st & Hr & Hst & Hterm).
  exists r, st. split; [exact Hrun|]. split; [exact Hr|]. split; [exact Hst|exact Hterm].
Defined.
End WorkflowWitness.
