(* ===== verification/Redis.v ===== *)
(** * Redis

    Redis is outside the model: a handler issues commands and reads replies,
    and the theorems speak of the commands it issues. A [World] holds the
    PostgreSQL store, the replies still to come, the commands issued so far and
    the atomics of the worker. Pauses and requests to the renderer stand among
    the commands. *)

From stdpp Require Import base gmap list option strings fin_maps relations.
From Stdlib Require Import ZArith Lia.
From S2P Require Import Prelude RustStr Utf8 Json Lifecycle Store Effects.

(** ** Values, commands and the world *)

(** [redis::Value], as far as it is inspected. *)
Inductive redis_value :=
| RNil
| RInt (i : Z)
| RBulk (d : list Z)            (* bytes *)
| RSimple (s : str)
| RArray (l : list redis_value)
| ROther.

Inductive command :=
| XGroupCreate (stream group : str)
| XAdd (stream : str) (fields : list (str * str))
| XAck (stream group id : str)
| XPending (stream group : str) (count : Z)
| XClaim (stream group consumer : str) (min_idle_ms : Z) (id : str)
| XReadGroup (group consumer : str) (count block_ms : Z) (stream : str)
| XRange (stream : str)
| XDel (stream id : str)
| Incr (key : str)
| Expire (key : str) (secs : Z)
| Sleep (secs : Z)              (* tokio::time::sleep *)
| Post (url : str) (headers : list (str * str)) (body : list Z).   (* reqwest's post *)

Record World := mkWorld {
  pg : St;
  connections : list (str + unit);             (* what pool.get() will say *)
  replies : list (str + redis_value);         (* what the commands will say *)
  issued : list command;
  claim_counter : Z;
  consecutive_failures : Z;
  circuit_open_until : Z
}.
#[export] Instance World_eta : Eta World := λ w,
  mkWorld (pg w) (connections w) (replies w) (issued w) (claim_counter w) (consecutive_failures w)
    (circuit_open_until w).

Definition W (E A : Type) : Type := World -> outcome E A * World.
#[export] Instance W_ret {E} : MRet (W E) := λ A a w, (Ok a, w).
#[export] Instance W_bind {E} : MBind (W E) := λ A B k m w,
  match m w with
  | (Ok a, w') => k a w'
  | (Err e, w') => (Err e, w')
  | (Panic, w') => (Panic, w')
  end.
Definition fail {E A} (e : E) : W E A := λ w, (Err e, w).

(** A [Result] whose error is a message. *)
Definition answer {A} (r : str + A) : outcome str A :=
  match r with inl msg => Err msg | inr a => Ok a end.

(** [pool.get().await]. *)
Definition pool_get {E} : W E (outcome str unit) := λ w,
  match connections w with
  | [] => (Ok (Ok ()), w)
  | c :: rest => (Ok (answer c), w <| connections := rest |>)
  end.
(** [cmd.query_async(&mut conn).await]. *)
Definition query {E} (c : command) : W E (outcome str redis_value) := λ w,
  let w := w <| issued := issued w ++ [c] |> in
  match replies w with
  | [] => (Ok (Ok RNil), w)
  | r :: rest => (Ok (answer r), w <| replies := rest |>)
  end.
(** [tokio::time::sleep]: the clock moves on by what was asked for. *)
Definition later (secs : Z) (s : St) : St := s <| time := (time s + secs * 1000000000)%Z |>.
Definition sleep {E} (secs : Z) : W E unit := λ w,
  (Ok (), w <| issued := issued w ++ [Sleep secs] |> <| pg := later secs (pg w) |>).
(** A request that is sent. *)
Definition post {E} (url : str) (headers : list (str * str)) (body : list Z) : W E unit := λ w,
  (Ok (), w <| issued := issued w ++ [Post url headers body] |>).
(** A PostgreSQL operation; its error is a value, its panic is a panic. *)
Definition on_pg {E F A} (m : M E A) : W F (outcome E A) := λ w,
  match m (pg w) with
  | (Panic, s) => (Panic, w <| pg := s |>)
  | (r, s) => (Ok r, w <| pg := s |>)
  end.
Definition now {E} : W E Z := λ w, (Ok (time (pg w)), w).
(** An error that is looked at, not raised. *)
Definition caught {E F A} (m : W E A) : W F (outcome E A) := λ w,
  match m w with
  | (Panic, w') => (Panic, w')
  | (r, w') => (Ok r, w')
  end.
(** [.map_err(|e| ...Redis(e.to_string()))?]: the error type of the queue is its message. *)
Definition or_redis {A} (o : outcome str A) : W str A := λ w, (o, w).
(** The [Display] of an error that carries a message of another. *)
Definition redis_error {A} (o : outcome str A) : outcome str A :=
  match o with Err msg => Err (lit "Redis error: " ++ msg) | _ => o end.
Definition update_world {E} (f : World -> World) : W E unit := λ w, (Ok (), f w).

(** ** Values as strings *)

Definition value_to_str (v : redis_value) : option str :=
  match v with
  | RBulk d => Some (from_utf8_lossy d)
  | RSimple s => Some s
  | RInt i => Some (z_to_string i)
  | _ => None
  end.

(** [slice.chunks(2)], the chunks of length two. *)
Fixpoint pairs {A} (l : list A) : list (A * A) :=
  match l with
  | x :: y :: rest => (x, y) :: pairs rest
  | _ => []
  end.

(** ** Lemmas: commands *)

(** Every command a handler issues satisfies [P], and the commands issued before stay. *)
Definition issues (P : command -> Prop) {E A} (m : W E A) : Prop :=
  forall w, exists cs, issued (m w).2 = issued w ++ cs /\ Forall P cs.

Section Issues.
Context (P : command -> Prop) {E : Type}.

Lemma issues_quiet {A} (m : W E A) : (forall w, issued (m w).2 = issued w) -> issues P m.
Proof. intros Hm w. exists []. by rewrite app_nil_r, Hm. Qed.
Lemma issues_ret {A} (a : A) : issues P (mret (M:=W E) a).
Proof. by apply issues_quiet. Qed.
Lemma issues_bind {A B} (m : W E A) (k : A -> W E B) :
  issues P m -> (forall a, issues P (k a)) -> issues P (m ≫= k).
Proof.
  intros Hm Hk w. destruct (Hm w) as (cs & Hcs & HP). unfold mbind, W_bind.
  destruct (m w) as [[a|e|] w1]; simpl in *; [|by exists cs|by exists cs].
  destruct (Hk a w1) as (cs' & Hcs' & HP'). exists (cs ++ cs').
  rewrite Hcs', Hcs, app_assoc. split; [done|]. by apply Forall_app.
Qed.
Lemma issues_query c : P c -> issues P (query (E:=E) c).
Proof.
  intros Hc w. exists [c]. unfold query. simpl. split; [|by repeat constructor].
  destruct (replies w); reflexivity.
Qed.
Lemma issues_sleep n : P (Sleep n) -> issues P (sleep (E:=E) n).
Proof. intros Hc w. exists [Sleep n]. split; [done|by repeat constructor]. Qed.
Lemma issues_pool_get : issues P (pool_get (E:=E)).
Proof. apply issues_quiet. intros w. unfold pool_get. by destruct (connections w). Qed.
Lemma issues_on_pg {F A} (m : M F A) : issues P (on_pg (F:=E) m).
Proof. apply issues_quiet. intros w. unfold on_pg. by destruct (m (pg w)) as [[] ?]. Qed.
Lemma issues_caught {F A} (m : W F A) : issues P m -> issues P (caught (F:=E) m).
Proof. intros Hm w. specialize (Hm w). unfold caught. by destruct (m w) as [[] ?]. Qed.
Lemma issues_panic {A} : issues P (λ w, (Panic, w) : outcome E A * World).
Proof. by apply issues_quiet. Qed.
Lemma issues_now : issues P (now (E:=E)).
Proof. by apply issues_quiet. Qed.
End Issues.
Lemma issues_or_redis P {A} (o : outcome str A) : issues P (or_redis o).
Proof. by apply issues_quiet. Qed.

Create HintDb issues.
#[export] Hint Resolve issues_ret issues_query issues_sleep issues_pool_get issues_on_pg issues_caught
  issues_panic issues_now issues_or_redis : issues.
Ltac issues_step :=
  lazymatch goal with
  | |- issues _ (mbind _ _) => apply issues_bind; [|intros ?]
  | |- issues _ (match ?x with _ => _ end) => destruct x eqn:?
  | |- issues _ _ => solve [eauto with issues]
  end.

(** ** Weakest preconditions over the world *)

Definition runs {E A} (m : W E A) (Q : outcome E A -> World -> Prop) (w : World) : Prop := Q (m w).1 (m w).2.

(** The same database, and the same commands so far. *)
Record idle (w w' : World) : Prop := { idle_pg : pg w' = pg w; idle_issued : issued w' = issued w }.
Lemma idle_refl w : idle w w.
Proof. done. Qed.

Lemma runs_run {E A} (m : W E A) Q w r w' : runs m Q w -> m w = (r, w') -> Q r w'.
Proof. unfold runs. intros H Hm. by rewrite Hm in H. Qed.
Lemma runs_mono {E A} (m : W E A) (Q Q' : outcome E A -> World -> Prop) w :
  runs m Q w -> (forall r w', Q r w' -> Q' r w') -> runs m Q' w.
Proof. unfold runs. auto. Qed.
Lemma runs_ret {E A} (a : A) (Q : outcome E A -> World -> Prop) w : Q (Ok a) w -> runs (mret a) Q w.
Proof. done. Qed.
Lemma runs_fail {E A} (e : E) (Q : outcome E A -> World -> Prop) w : Q (Err e) w -> runs (fail e) Q w.
Proof. done. Qed.
Lemma runs_now {E} (Q : outcome E Z -> World -> Prop) w : Q (Ok (time (pg w))) w -> runs now Q w.
Proof. done. Qed.
Lemma runs_or_redis {A} (o : outcome str A) (Q : outcome str A -> World -> Prop) w : Q o w -> runs (or_redis o) Q w.
Proof. done. Qed.
Lemma runs_bind {E A B} (m : W E A) (k : A -> W E B) (Q : outcome E B -> World -> Prop) w :
  runs m (λ r w', match r with Ok a => runs (k a) Q w' | Err e => Q (Err e) w' | Panic => Q Panic w' end) w ->
  runs (m ≫= k) Q w.
Proof. unfold runs, mbind, W_bind. destruct (m w) as [[] ?]; simpl; auto. Qed.
Lemma runs_on_pg {E F A} (m : M E A) (Q : outcome F (outcome E A) -> World -> Prop) w :
  wp m (λ r s, match r with Panic => Q Panic (w <| pg := s |>) | _ => Q (Ok r) (w <| pg := s |>) end) (pg w) ->
  runs (on_pg m) Q w.
Proof. unfold runs, on_pg, wp. destruct (m (pg w)) as [[] ?]; simpl; auto. Qed.
Lemma runs_caught {E F A} (m : W E A) (Q : outcome F (outcome E A) -> World -> Prop) w :
  runs m (λ r w', match r with Panic => Q Panic w' | _ => Q (Ok r) w' end) w -> runs (caught m) Q w.
Proof. unfold runs, caught. destruct (m w) as [[] ?]; simpl; auto. Qed.
Lemma runs_pool_get {E} (Q : outcome E (outcome str unit) -> World -> Prop) w :
  (forall c w', idle w w' -> c <> Panic -> Q (Ok c) w') -> runs pool_get Q w.
Proof.
  intros H. unfold runs, pool_get. destruct (connections w) as [|[e|u] rest]; apply H; done.
Qed.
Lemma runs_query {E} c (Q : outcome E (outcome str redis_value) -> World -> Prop) w :
  (forall r w', pg w' = pg w -> issued w' = issued w ++ [c] -> r <> Panic -> Q (Ok r) w') -> runs (query c) Q w.
Proof.
  intros H. unfold runs, query. cbn. destruct (replies w) as [|[e|v] rest]; apply H; done.
Qed.
(** Two continuations that agree on what a computation may end in. *)
Lemma runs_same {E A B} (m : W E A) (k k' : A -> W E B) w :
  runs m (λ r w', match r with Ok a => k a w' = k' a w' | _ => True end) w -> (m ≫= k) w = (m ≫= k') w.
Proof. unfold runs, mbind, W_bind. destruct (m w) as [[] ?]; simpl; auto. Qed.
