(* ===== verification/Queue.v ===== *)
(** * The job queue (src/src/queue/)

    Enqueueing, the dead-letter queue and the worker: its retries with backoff,
    its circuit breaker and its event loop, over the commands of Redis.v. *)

From stdpp Require Import base gmap list option strings fin_maps relations.
From Stdlib Require Import ZArith Lia.
From S2P Require Import Prelude RustStr Utf8 Json Floats Lifecycle Store Effects Samples AuditTrail Submission Decision GenerationSpec Workflow Redis.

(** ** Constants *)

Definition STREAM_KEY : str := lit "klass:media-gen".
Definition CONSUMER_GROUP : str := lit "klass-workers".
Definition DLQ_STREAM_KEY : str := lit "klass:media-gen-dlq".
Definition MAX_RETRY_ATTEMPTS : Z := 3.
Definition BATCH_SIZE : Z := 10.
Definition BLOCK_SECS : Z := 5.
Definition IDLE_TIMEOUT_SECS : Z := 300.
Definition MAX_TRIES : Z := 3.
Definition CLAIM_INTERVAL : Z := 6.
Definition BASE_BACKOFF_SECS : Z := 10.
Definition MAX_BACKOFF_SECS : Z := 90.
Definition CIRCUIT_BREAKER_THRESHOLD : Z := 5.
Definition CIRCUIT_BREAKER_COOLDOWN_SECS : Z := 60.

(** ** Stream entries *)

(** The last value of a key, as in a HashMap filled in order. *)
Fixpoint field (k : str) (fields : list (str * str)) : option str :=
  match fields with
  | [] => None
  | (k', v) :: rest =>
      match field k rest with
      | Some x => Some x
      | None => if decide (k' = k) then Some v else None
      end
  end.

Definition message_fields (fields_arr : list redis_value) : list (str * str) :=
  omap (λ '(kv, vv), match value_to_str kv with
                     | Some k => Some (k, default [] (value_to_str vv))
                     | None => None
                     end) (pairs fields_arr).

(** The loop over the messages: [?] leaves the function when an entry id is no string, the other
    malformed messages are skipped. *)
Fixpoint collect_messages (messages : list redis_value) : option (list (str * list (str * str))) :=
  match messages with
  | [] => Some []
  | RArray (id_value :: fields_value :: _) :: rest =>
      entry_id ← value_to_str id_value;
      match fields_value with
      | RArray fields_arr => cons (entry_id, message_fields fields_arr) <$> collect_messages rest
      | _ => collect_messages rest
      end
  | _ :: rest => collect_messages rest
  end.
Definition extract_messages (stream_result : redis_value) : option (list (str * list (str * str))) :=
  match stream_result with
  | RArray (_ :: RArray messages :: _) => collect_messages messages
  | _ => None
  end.

Record StreamEntry := {
  entry_id : str;
  generation_id : str;
  job_id : option str;
  attempt : Z;
  payload : value
}.

Definition parse_entry (message : str * list (str * str)) : StreamEntry :=
  let '(eid, fields) := message in
  let gid := default [] (field (lit "generation_id") fields) in
  let job := match field (lit "job_id") fields with
             | Some [] | None => None
             | Some j => Some j
             end in
  let att := default 1%Z (field (lit "attempt") fields ≫= parse_i64) in
  {| entry_id := eid; generation_id := gid; job_id := job; attempt := att;
     payload := obj [("generation_id", String gid); ("job_id", jopt String job);
                     ("attempt", jint att); ("entry_id", String eid)] |}.

(** ** Backoff and error classification *)

(** [base.saturating_mul(1u64 << shift).min(max)], with the shift taken modulo 64 (a release
    build). *)
Definition compute_backoff (att base_secs max_secs : Z) : Z :=
  let shift := u32_wrap (Z.max (i64_wrap (att - 1)) 0) in
  let delay := Z.min (base_secs * 2 ^ (shift mod 64)) u64_max in
  Z.min delay max_secs.

Definition is_retryable_error `{CaseTables} (error_msg : str) : bool :=
  let lower := to_lowercase error_msg in
  if str_contains lower (lit "artifact_invalid") then false
  else if str_contains lower (lit "incoming request payload failed validation") then false
  else if str_contains lower (lit "contract validation failed")
          && negb (str_contains lower (lit "timeout")) && negb (str_contains lower (lit "connection"))
  then false
  else if str_contains lower (lit "missing required") || str_contains lower (lit "validation error")
  then false
  else true.


(** ** Error texts *)

Definition audit_error_text `{DbErrorText} (e : AuditTrailError) : str :=
  match e with
  | AuditTrail.NotFound g => lit "generation not found: " ++ g
  | InvalidTransition from to =>
      lit "invalid transition from " ++ as_str from ++ lit " to " ++ as_str to
  | AuditTrail.Database e => lit "database error: " ++ db_error_text e
  | Terminal g st => lit "generation " ++ g ++ lit " is already in terminal state " ++ as_str st
  | Payload msg => lit "payload error: " ++ msg
  end.
Definition decision_error_text `{DbErrorText} (e : DecisionError) : str :=
  match e with
  | MissingInterpretation msg => lit "interpretation payload is required: " ++ msg
  | Decision.Database e => lit "database error: " ++ db_error_text e
  | Decision.InvalidUuid msg => lit "invalid UUID: " ++ msg
  end.
(** [WorkflowError::to_string]; the separator of [StepFailed] is an em dash. *)
Definition workflow_error_text `{DbErrorText} (e : WorkflowError) : str :=
  match e with
  | NotFound g => lit "generation not found: " ++ g
  | StepFailed step msg => lit "workflow step failed: " ++ step ++ lit " " ++ [8212%Z] ++ lit " " ++ msg
  | AuditTrailErr e => lit "audit trail error: " ++ audit_error_text e
  | DecisionErr e => lit "decision error: " ++ decision_error_text e
  | StepProvider msg => lit "step provider error: " ++ msg
  | DatabaseErr e => lit "database error: " ++ db_error_text e
  | InvalidUuid msg => lit "invalid UUID: " ++ msg
  end.

(** ** The queue service (redis_streams.rs) *)

Section QueueService.
Context `{Rfc3339}.

Definition create_consumer_group : W str unit :=
  conn ← pool_get;
  _ ← or_redis conn;
  result ← query (XGroupCreate STREAM_KEY CONSUMER_GROUP);
  match result with
  | Err msg => if str_contains msg (lit "BUSYGROUP") then mret () else fail msg
  | _ => _ ← or_redis result; mret ()
  end.

(** The fields of an entry, as [enqueue] writes them. *)
Definition enqueue_fields (gid jid : str) (att : Z) (enqueued_at : str) : list (str * str) :=
  [ (lit "generation_id", gid); (lit "job_id", jid); (lit "attempt", z_to_string att);
    (lit "enqueued_at", enqueued_at) ].

(** The reply of XADD read as a string. *)
Definition reply_string (r : redis_value) : outcome str str :=
  match value_to_str r with
  | Some s => Ok s
  | None => Err (lit "Response was of incompatible type")
  end.

Definition enqueue (gid jid : str) (att : Z) : W str str :=
  conn ← pool_get;
  _ ← or_redis conn;
  t ← now;
  result ← query (XAdd STREAM_KEY (enqueue_fields gid jid att (to_rfc3339 t)));
  r ← or_redis result;
  or_redis (reply_string r).
End QueueService.

(** ** The dead-letter queue (dead_letter.rs) *)

Section DeadLetter.
Context `{JsonPrint} `{UuidText} `{Rfc3339}.

Definition build_retry_context (t : Z) (gid : str) (att : Z) (error : str) : value :=
  obj [ ("generation_id", String gid); ("attempt", jint att); ("error", String error);
        ("dlq_moved_at", String (to_rfc3339 t)); ("max_retries", jint MAX_RETRY_ATTEMPTS) ].

Definition xadd_dlq (gid : str) (att : Z) (dlq_payload : value) : W str str :=
  conn ← pool_get;
  _ ← or_redis conn;
  result ← query (XAdd DLQ_STREAM_KEY
    [ (lit "generation_id", gid); (lit "attempt", z_to_string att);
      (lit "payload", json_to_string dlq_payload) ]);
  r ← or_redis result;
  or_redis (reply_string r).

Definition send_to_dlq {E} (gid : str) (att : Z) (code message : str) : W E unit :=
  t ← now;
  let dlq_payload :=
    obj [ ("generation_id", String gid); ("attempt", jint att); ("error_code", String code);
          ("error_message", String message); ("moved_to_dlq_at", String (to_rfc3339 t));
          ("retry_context", build_retry_context t gid att message) ] in
  dlq_result ← caught (xadd_dlq gid att dlq_payload);
  let job_context :=
    obj [ ("connection", jstr "redis"); ("queue", jstr "klass:media-gen-dlq");
          ("tries", jint MAX_RETRY_ATTEMPTS);
          ("dlq_entry_id", match dlq_result with Ok i => String i | _ => Null end) ] in
  _ ← on_pg (mark_failed gid code message false (Some dlq_payload) (Some (i32_wrap att))
               (Some job_context));
  mret ().

(** The entry id of a DLQ item whose first [generation_id] field matches; an entry with a field
    that is no string before the match is passed over. *)
Fixpoint pairs_match (gid : str) (field_pairs : list (redis_value * redis_value)) : bool :=
  match field_pairs with
  | [] => false
  | (kv, vv) :: rest =>
      match value_to_str kv with
      | None => false
      | Some key =>
          if decide (key = lit "generation_id") then
            match value_to_str vv with
            | None => false
            | Some val => if decide (val = gid) then true else pairs_match gid rest
            end
          else pairs_match gid rest
      end
  end.
Definition matching_entry (gid : str) (item : redis_value) : option str :=
  match item with
  | RArray (id_value :: fields :: _) =>
      eid ← value_to_str id_value;
      match fields with
      | RArray field_pairs => if pairs_match gid (pairs field_pairs) then Some eid else None
      | _ => None
      end
  | _ => None
  end.

Fixpoint delete_all (ids : list str) : W str unit :=
  match ids with
  | [] => mret ()
  | i :: rest => _ ← query (XDel DLQ_STREAM_KEY i); delete_all rest
  end.

Definition delete_dlq_entry (gid : str) : W str bool :=
  conn ← pool_get;
  _ ← or_redis conn;
  result ← query (XRange DLQ_STREAM_KEY);
  entries ← or_redis result;
  let entry_ids := match entries with RArray items => omap (matching_entry gid) items | _ => [] end in
  if decide (entry_ids = []) then mret false
  else _ ← delete_all entry_ids; mret true.

Definition retry_from_dlq (gid : str) : W str bool :=
  deleted ← delete_dlq_entry gid;
  if (deleted : bool) then
    enqueued ← caught (enqueue gid [] 1);
    _ ← or_redis (redis_error enqueued);
    mret true
  else mret false.
End DeadLetter.

(** ** The worker (worker.rs) *)

Section Worker.
Context `{CaseTables} `{JsonPrint} `{HashOrder} `{Rfc3339Millis} `{UuidText} `{UuidErrorText}
  `{Rfc3339} `{DbErrorText}.
Context (steps : Steps).

Definition job_context : value :=
  obj [ ("connection", jstr "redis"); ("queue", String STREAM_KEY); ("tries", jint MAX_TRIES);
        ("timeout_seconds", jint 300); ("backoff_seconds", jint BASE_BACKOFF_SECS) ].

(** [fetch_add(1) + 1], and opening the circuit at the threshold. [now_epoch] is the second at
    which the loop iteration began. *)
Definition record_failure {E} (now_epoch : Z) : W E unit :=
  update_world (λ w,
    let new_failures := u32_wrap (consecutive_failures w + 1) in
    let w := w <| consecutive_failures := new_failures |> in
    if (CIRCUIT_BREAKER_THRESHOLD <=? new_failures)%Z
    then w <| circuit_open_until := u64_wrap (now_epoch + CIRCUIT_BREAKER_COOLDOWN_SECS) |>
    else w).

(** XACK, when a connection can be had. *)
Definition ack {E} (entry : StreamEntry) : W E unit :=
  conn ← pool_get;
  match conn with
  | Ok _ => _ ← query (XAck STREAM_KEY CONSUMER_GROUP (entry_id entry)); mret ()
  | _ => mret ()
  end.

Definition reenqueue_fields (entry : StreamEntry) (new_attempt : Z) (enqueued_at : str) : list (str * str) :=
  [(lit "generation_id", generation_id entry)]
  ++ match job_id entry with Some j => [(lit "job_id", j)] | None => [] end
  ++ [(lit "attempt", z_to_string new_attempt); (lit "enqueued_at", enqueued_at)].

(** What a task does with the result of the workflow. *)
Definition handle_result {E} (now_epoch : Z) (entry : StreamEntry) (result : outcome WorkflowError unit) :
    W E unit :=
  match result with
  | Ok _ =>
      _ ← update_world (λ w, w <| consecutive_failures := 0%Z |> <| circuit_open_until := 0%Z |>);
      ack entry
  | Err e =>
      let error_msg := workflow_error_text e in
      let new_attempt := i64_wrap (attempt entry + 1) in
      if negb (is_retryable_error error_msg) then
        _ ← record_failure now_epoch;
        _ ← send_to_dlq (generation_id entry) (attempt entry) (lit "PERMANENT_ERROR") error_msg;
        ack entry
      else if (MAX_TRIES <? new_attempt)%Z then
        _ ← record_failure now_epoch;
        _ ← send_to_dlq (generation_id entry) new_attempt (lit "WORKFLOW_FAILED") error_msg;
        ack entry
      else
        _ ← sleep (compute_backoff (attempt entry) BASE_BACKOFF_SECS MAX_BACKOFF_SECS);
        conn ← pool_get;
        match conn with
        | Ok _ =>
            _ ← query (XAck STREAM_KEY CONSUMER_GROUP (entry_id entry));
            t ← now;
            _ ← query (XAdd STREAM_KEY (reenqueue_fields entry new_attempt (to_rfc3339 t)));
            mret ()
        | _ => mret ()
        end
  | Panic => λ w, (Panic, w)
  end.

(** One spawned task. *)
Definition run_task {E} (now_epoch : Z) (entry : StreamEntry) : W E unit :=
  result ← on_pg (process steps (generation_id entry) (job_id entry)
                    (Some (i32_wrap (attempt entry))) (Some job_context));
  handle_result now_epoch entry result.

Fixpoint claim_all (consumer : str) (ids : list str) : W str unit :=
  match ids with
  | [] => mret ()
  | i :: rest =>
      if decide (i = []) then claim_all consumer rest
      else
        _ ← query (XClaim STREAM_KEY CONSUMER_GROUP consumer (IDLE_TIMEOUT_SECS * 1000) i);
        claim_all consumer rest
  end.

Definition claim_pending (consumer : str) : W str unit :=
  counter ← (λ w, (Ok (claim_counter w), w <| claim_counter := u32_wrap (claim_counter w + 1) |>));
  if decide ((counter : Z) mod CLAIM_INTERVAL <> 0)%Z then mret ()
  else
    conn ← pool_get;
    _ ← or_redis conn;
    result ← query (XPending STREAM_KEY CONSUMER_GROUP BATCH_SIZE);
    pending ← or_redis result;
    claim_all consumer
      (match pending with
       | RArray items =>
           omap (λ item, match item with
                         | RArray (i :: _) => Some (default [] (value_to_str i))
                         | _ => None
                         end) items
       | _ => []
       end).

Definition read_messages (consumer : str) : W str (list StreamEntry) :=
  conn ← pool_get;
  _ ← or_redis conn;
  result ← query (XReadGroup CONSUMER_GROUP consumer BATCH_SIZE (BLOCK_SECS * 1000) STREAM_KEY);
  raw ← or_redis result;
  mret (match raw with
        | RArray streams => parse_entry <$> (streams ≫= λ s, default [] (extract_messages s))
        | _ => []
        end).

(** [tokio::spawn]: a task has no result, and a panic of a task aborts the worker
    ([panic = "abort"] in the release profile). *)
Definition spawn {E F} (m : W E unit) : W F unit := _ ← caught m; mret ().

Fixpoint run_all (now_epoch : Z) (entries : list StreamEntry) : W str unit :=
  match entries with
  | [] => mret ()
  | e :: rest => _ ← spawn (run_task (E:=str) now_epoch e); run_all now_epoch rest
  end.

(** [SystemTime::now()] in whole seconds. *)
Definition epoch_seconds (t : Z) : Z := if (t <? 0)%Z then 0%Z else (t / 1000000000)%Z.

(** Claim, read, and run what was read. *)
Definition poll (consumer : str) (now_epoch : Z) : W str unit :=
  _ ← claim_pending consumer;
  entries ← read_messages consumer;
  run_all now_epoch entries.

(** One iteration of the event loop. The tasks it spawns are run here one after the other, in the
    order they are spawned. *)
Definition loop_iteration (consumer : str) : W str unit :=
  t ← now;
  let now_epoch := epoch_seconds t in
  open_until ← (λ w, (Ok (circuit_open_until w), w));
  if ((0 <? (open_until : Z)) && (now_epoch <? open_until))%Z then
    sleep (Z.min (open_until - now_epoch) 5)
  else
    _ ← (if ((0 <? open_until) && (open_until <=? now_epoch))%Z
         then update_world (λ w, w <| circuit_open_until := 0%Z |> <| consecutive_failures := 0%Z |>)
         else mret ());
    poll consumer now_epoch.

Fixpoint iterate (consumer : str) (n : nat) : W str unit :=
  match n with
  | O => mret ()
  | S n => _ ← loop_iteration consumer; iterate consumer n
  end.

(** The worker, for [n] iterations of its endless loop. *)
Definition run (consumer : str) (n : nat) : W str unit :=
  group ← caught create_consumer_group;
  _ ← or_redis (redis_error group);
  iterate consumer n.
End Worker.

(** ** Lemmas: entries *)

Lemma field_cons k k' v fields :
  field k ((k', v) :: fields) =
  match field k fields with Some x => Some x | None => if decide (k' = k) then Some v else None end.
Proof. reflexivity. Qed.

(** The attempt field of an entry is read back. *)
Lemma parse_entry_attempt eid fields a :
  in_i64 a = true -> field (lit "attempt") fields = Some (z_to_string a) ->
  attempt (parse_entry (eid, fields)) = a.
Proof. intros Ha Hf. cbn [parse_entry attempt]. rewrite Hf. simpl. by rewrite parse_i64_to_string. Qed.

(** What is read back of the fields written by a retry. *)
Lemma parse_reenqueued entry a t eid :
  in_i64 a = true -> job_id entry <> Some [] ->
  let e := parse_entry (eid, reenqueue_fields entry a t) in
  entry_id e = eid /\ generation_id e = generation_id entry /\ job_id e = job_id entry /\ attempt e = a.
Proof.
  intros Ha Hjob. unfold reenqueue_fields. destruct (job_id entry) as [[|c j]|]; [done| |];
    (repeat split; try reflexivity; apply parse_entry_attempt; [done|reflexivity]).
Qed.

Lemma parse_enqueued gid jid a t eid :
  in_i64 a = true ->
  let e := parse_entry (eid, enqueue_fields gid jid a t) in
  entry_id e = eid /\ generation_id e = gid /\
  job_id e = (if decide (jid = []) then None else Some jid) /\ attempt e = a.
Proof.
  intros Ha. unfold enqueue_fields. destruct jid;
    (repeat split; try reflexivity; apply parse_entry_attempt; [done|reflexivity]).
Qed.

Lemma parse_entry_job message : job_id (parse_entry message) <> Some [].
Proof. destruct message as [eid fields]. simpl. by destruct (field _ fields) as [[|]|]. Qed.

(** The reply of XREADGROUP for one stream. *)
Definition bulk (s : str) : redis_value := RBulk (utf8_encode s).
Definition message_reply (m : str * list (str * str)) : redis_value :=
  RArray [bulk m.1; RArray (m.2 ≫= λ '(k, v), [bulk k; bulk v])].
Definition stream_reply (stream : str) (messages : list (str * list (str * str))) : redis_value :=
  RArray [bulk stream; RArray (message_reply <$> messages)].

(** A message of Unicode scalar values. *)
Definition text_message (m : str * list (str * str)) : Prop :=
  Forall scalar_value m.1 /\
  Forall (λ kv, Forall scalar_value kv.1 /\ Forall scalar_value kv.2) m.2.

Lemma value_to_str_bulk s : Forall scalar_value s -> value_to_str (bulk s) = Some s.
Proof. intros Hs. simpl. by rewrite from_utf8_lossy_encode. Qed.

Lemma message_fields_bulk fields :
  Forall (λ kv, Forall scalar_value kv.1 /\ Forall scalar_value kv.2) fields ->
  message_fields (fields ≫= λ '(k, v), [bulk k; bulk v]) = fields.
Proof.
  unfold message_fields. induction 1 as [|[k v] fields [Hk Hv] _ IH]; [done|].
  cbn [mbind list_bind app pairs omap list_omap]. rewrite !value_to_str_bulk by done. simpl. by rewrite IH.
Qed.

Lemma extract_stream_reply stream messages :
  Forall text_message messages ->
  extract_messages (stream_reply stream messages) = Some messages.
Proof.
  simpl. induction 1 as [|[eid fields] messages [He Hf] _ IH]; [done|].
  cbn [fmap list_fmap collect_messages message_reply fst snd]. rewrite value_to_str_bulk by done.
  simpl. rewrite IH. simpl. by rewrite message_fields_bulk.
Qed.

(** ** Lemmas: retries *)

Section Retries.
Context `{CaseTables} `{JsonPrint} `{UuidText} `{Rfc3339} `{DbErrorText}.

(** The one XADD to the main stream a failed task may issue. *)
Definition retry_of (entry : StreamEntry) (c : command) : Prop :=
  match c with
  | XAdd stream fields => stream = STREAM_KEY ->
      (i64_wrap (attempt entry + 1) <= MAX_TRIES)%Z /\
      exists t, fields = reenqueue_fields entry (i64_wrap (attempt entry + 1)) t
  | _ => True
  end.

Lemma xadd_dlq_issues entry gid att p : issues (retry_of entry) (xadd_dlq gid att p).
Proof. unfold xadd_dlq. repeat issues_step. apply issues_query. done. Qed.

Lemma send_to_dlq_issues {E} entry gid att code message :
  issues (retry_of entry) (send_to_dlq (E:=E) gid att code message).
Proof. unfold send_to_dlq. repeat issues_step. apply issues_caught, xadd_dlq_issues. Qed.

Lemma ack_issues {E} entry entry' : issues (retry_of entry) (ack (E:=E) entry').
Proof. unfold ack. repeat issues_step. by apply issues_query. Qed.

Lemma record_failure_issues {E} entry now_epoch : issues (retry_of entry) (record_failure (E:=E) now_epoch).
Proof.
  apply issues_quiet. intros w. unfold record_failure, update_world. simpl.
  by destruct (Z.leb_spec CIRCUIT_BREAKER_THRESHOLD (u32_wrap (consecutive_failures w + 1))).
Qed.

Lemma handle_result_issues {E} now_epoch entry result :
  issues (retry_of entry) (handle_result (E:=E) now_epoch entry result).
Proof.
  destruct result as [[]|e|]; cbn [handle_result].
  - issues_step; [by apply issues_quiet|apply ack_issues].
  - repeat issues_step; auto using record_failure_issues, send_to_dlq_issues, ack_issues.
    + by apply issues_sleep.
    + by apply issues_query.
    + apply issues_query. intros _. split; [lia|eauto].
  - apply issues_panic.
Qed.

(** [e'] is what the worker reads back of a retry of [e]. *)
Definition retried (e e' : StreamEntry) : Prop :=
  exists now_epoch result w cs fields eid,
    issued (handle_result (E:=str) now_epoch e result w).2 = issued w ++ cs /\
    XAdd STREAM_KEY fields ∈ cs /\ e' = parse_entry (eid, fields).

Lemma retried_inv e e' :
  retried e e' -> in_i64 (attempt e + 1) = true -> job_id e <> Some [] ->
  attempt e' = (attempt e + 1)%Z /\ (attempt e' <= MAX_TRIES)%Z /\ job_id e' = job_id e /\
  generation_id e' = generation_id e.
Proof.
  intros (n & result & w & cs & fields & eid & Hcs & Hin & ->) Hrange Hjob.
  destruct (handle_result_issues (E:=str) n e result w) as (cs' & Hcs' & Hall).
  rewrite Hcs in Hcs'. apply app_inv_head in Hcs' as <-.
  rewrite Forall_forall in Hall. destruct (Hall _ Hin eq_refl) as [Hle [t ->]].
  rewrite (i64_wrap_id _ Hrange) in *.
  destruct (parse_reenqueued e (attempt e + 1) t eid) as (_ & Hg & Hj & Ha); [done|done|].
  rewrite Ha, Hj, Hg. done.
Qed.
End Retries.

(** ** Lemmas: the circuit breaker *)

Section Breaker.
Context `{CaseTables} `{JsonPrint} `{UuidText} `{Rfc3339} `{DbErrorText}.

(** A failure that is not retried. *)
Definition dead_lettered (entry : StreamEntry) (e : WorkflowError) : bool :=
  negb (is_retryable_error (workflow_error_text e))
  || (MAX_TRIES <? i64_wrap (attempt entry + 1))%Z.

Definition counters (w : World) : Z * Z := (consecutive_failures w, circuit_open_until w).

(** A handler that leaves the counters alone. *)
Definition uncounted {E A} (m : W E A) : Prop := forall w, counters (m w).2 = counters w.

Lemma uncounted_bind {E A B} (m : W E A) (k : A -> W E B) :
  uncounted m -> (forall a, uncounted (k a)) -> uncounted (m ≫= k).
Proof.
  intros Hm Hk w. specialize (Hm w). unfold mbind, W_bind.
  destruct (m w) as [[a|e|] w1]; simpl in *; [|done|done]. by rewrite Hk.
Qed.
Lemma uncounted_caught {E F A} (m : W F A) : uncounted m -> uncounted (caught (F:=E) m).
Proof. intros Hm w. specialize (Hm w). unfold caught. by destruct (m w) as [[] ?]. Qed.
Lemma uncounted_query {E} c : uncounted (query (E:=E) c).
Proof. intros w. unfold query. simpl. by destruct (replies w). Qed.
Lemma uncounted_pool_get {E} : uncounted (pool_get (E:=E)).
Proof. intros w. unfold pool_get. by destruct (connections w). Qed.
Lemma uncounted_on_pg {E F A} (m : M F A) : uncounted (on_pg (F:=E) m).
Proof. intros w. unfold on_pg. by destruct (m (pg w)) as [[] ?]. Qed.

Ltac uncounted_step :=
  lazymatch goal with
  | |- uncounted (mbind _ _) => apply uncounted_bind; [|intros ?]
  | |- uncounted (match ?x with _ => _ end) => destruct x
  | |- uncounted (caught _) => apply uncounted_caught
  | |- uncounted _ => first [ apply uncounted_query | apply uncounted_pool_get | apply uncounted_on_pg
                            | intros ?; reflexivity ]
  end.

Lemma ack_uncounted {E} entry : uncounted (ack (E:=E) entry).
Proof. unfold ack. repeat uncounted_step. Qed.
Lemma send_to_dlq_uncounted {E} gid att code message :
  uncounted (send_to_dlq (E:=E) gid att code message).
Proof. unfold send_to_dlq, xadd_dlq. repeat uncounted_step. Qed.
Lemma dead_letter_uncounted {E} gid att code message entry :
  uncounted (_ ← send_to_dlq gid att code message; ack (E:=E) entry).
Proof. apply uncounted_bind; [apply send_to_dlq_uncounted|]. intros _. apply ack_uncounted. Qed.

Definition breaker_step (now_epoch : Z) (entry : StreamEntry) (result : outcome WorkflowError unit)
    (c : Z * Z) : Z * Z :=
  match result with
  | Ok _ => (0, 0)%Z
  | Err e =>
      if dead_lettered entry e then
        let f := u32_wrap (c.1 + 1) in
        (f, if (CIRCUIT_BREAKER_THRESHOLD <=? f)%Z
            then u64_wrap (now_epoch + CIRCUIT_BREAKER_COOLDOWN_SECS) else c.2)
      else c
  | Panic => c
  end.

Lemma record_failure_counters {E A} now_epoch (k : W E A) w :
  uncounted k ->
  counters ((record_failure now_epoch ≫= λ _, k) w).2 =
    let f := u32_wrap (consecutive_failures w + 1) in
    (f, if (CIRCUIT_BREAKER_THRESHOLD <=? f)%Z
        then u64_wrap (now_epoch + CIRCUIT_BREAKER_COOLDOWN_SECS) else circuit_open_until w).
Proof.
  intros Hk. unfold record_failure, update_world, mbind, W_bind. rewrite Hk.
  unfold counters. simpl. by case_match.
Qed.

Lemma handle_result_counters {E} now_epoch entry result w :
  counters (handle_result (E:=E) now_epoch entry result w).2 =
  breaker_step now_epoch entry result (counters w).
Proof.
  destruct result as [[]|e|]; cbn [handle_result breaker_step]; [|unfold dead_lettered|done].
  - unfold mbind at 1, W_bind at 1, update_world. by rewrite ack_uncounted.
  - destruct (is_retryable_error _); cbn [negb orb].
    + destruct (Z.ltb_spec MAX_TRIES (i64_wrap (attempt entry + 1))).
      * apply record_failure_counters, dead_letter_uncounted.
      * revert w. match goal with |- forall w, counters (?m w).2 = _ => change (uncounted m) end.
        repeat uncounted_step.
    + apply record_failure_counters, dead_letter_uncounted.
Qed.
End Breaker.

(** The epochs of the failures that were not retried since the last success, the latest first. *)
Definition failure_streak `{CaseTables} `{DbErrorText}
    (items : list (Z * StreamEntry * outcome WorkflowError unit)) : list Z :=
  foldl (λ streak '(now_epoch, entry, result),
    match result with
    | Ok _ => []
    | Err e => if dead_lettered entry e then now_epoch :: streak else streak
    | Panic => streak
    end) [] items.

(** Results handled one after the other. *)
Fixpoint handle_all `{CaseTables} `{JsonPrint} `{UuidText} `{Rfc3339} `{DbErrorText}
    (items : list (Z * StreamEntry * outcome WorkflowError unit)) : W str unit :=
  match items with
  | [] => mret ()
  | (now_epoch, entry, result) :: rest =>
      _ ← spawn (handle_result (E:=str) now_epoch entry result); handle_all rest
  end.

Lemma handle_all_counters `{CaseTables} `{JsonPrint} `{UuidText} `{Rfc3339} `{DbErrorText} items w w' :
  handle_all items w = (Ok (), w') ->
  counters w' =
  foldl (λ c '(now_epoch, entry, result), breaker_step now_epoch entry result c) (counters w) items.
Proof.
  revert w. induction items as [|[[n e] r] items IH]; intros w; [by intros [= <-]|].
  cbn [handle_all foldl]. unfold spawn, caught, mbind, W_bind.
  rewrite <- (handle_result_counters (E:=str)).
  destruct (handle_result n e r w) as [[] w1]; simpl; intros Hrun; [by apply IH|by apply IH|done].
Qed.

(** What the counters of a closed breaker become. *)
Lemma breaker_streak `{CaseTables} `{DbErrorText} items :
  (Z.of_nat (length items) < 2 ^ 32)%Z ->
  foldl (λ c '(now_epoch, entry, result), breaker_step now_epoch entry result c) (0, 0)%Z items =
  (Z.of_nat (length (failure_streak items)),
   if (CIRCUIT_BREAKER_THRESHOLD <=? Z.of_nat (length (failure_streak items)))%Z
   then u64_wrap (default 0%Z (head (failure_streak items)) + CIRCUIT_BREAKER_COOLDOWN_SECS) else 0%Z).
Proof.
  assert ((length (failure_streak items) <= length items)%nat /\
    ((Z.of_nat (length items) < 2 ^ 32)%Z ->
     foldl (λ c '(now_epoch, entry, result), breaker_step now_epoch entry result c) (0, 0)%Z items =
     (Z.of_nat (length (failure_streak items)),
      if (CIRCUIT_BREAKER_THRESHOLD <=? Z.of_nat (length (failure_streak items)))%Z
      then u64_wrap (default 0%Z (head (failure_streak items)) + CIRCUIT_BREAKER_COOLDOWN_SECS) else 0%Z)))
    as [_ Hgoal]; [|exact Hgoal].
  unfold failure_streak. induction items as [|[[n e] r] items [Hlen IH]] using rev_ind; [by split|].
  rewrite !foldl_app, length_app. cbn [foldl length]. set (streak := foldl _ [] items) in *.
  clearbody streak.
  destruct r as [u|err|]; cbn [breaker_step]; [split; [simpl; lia|done]| |split; [lia|intros; apply IH; lia]].
  destruct (dead_lettered e err); [|split; [lia|intros; apply IH; lia]].
  split; [simpl; lia|]. intros Hmax. rewrite IH by lia. cbn [fst snd length head default].
  assert (u32_wrap (Z.of_nat (length streak) + 1) = Z.of_nat (S (length streak))) as ->.
  { unfold u32_wrap. rewrite Z.mod_small; lia. }
  f_equal. unfold CIRCUIT_BREAKER_THRESHOLD. cbn [length].
  destruct (Z.leb_spec 5 (Z.of_nat (S (length streak)))), (Z.leb_spec 5 (Z.of_nat (length streak))); done || lia.
Qed.

(** ** Lemmas: an open breaker *)

Lemma epoch_later k s :
  (0 <= time s)%Z -> (0 <= k)%Z -> epoch_seconds (time (later k s)) = (epoch_seconds (time s) + k)%Z.
Proof.
  intros Ht Hk. unfold later, epoch_seconds. simpl.
  rewrite (proj2 (Z.ltb_ge (time s) 0)), (proj2 (Z.ltb_ge (time s + k * 1000000000) 0)), Z.div_add by lia. done.
Qed.

Lemma later_later j k s : later j (later k s) = later (k + j) s.
Proof. unfold later. destruct s as [c d b t sch]. simpl. replace (t + k * 1000000000 + j * 1000000000)%Z with (t + (k + j) * 1000000000)%Z by lia. done. Qed.

(** The world after sleeping. *)
Definition slept (naps : list Z) (w : World) : World :=
  w <| issued := issued w ++ (Sleep <$> naps) |> <| pg := later (foldr Z.add 0%Z naps) (pg w) |>.

Section OpenBreaker.
Context `{CaseTables} `{JsonPrint} `{HashOrder} `{Rfc3339Millis} `{UuidText} `{UuidErrorText}
  `{Rfc3339} `{DbErrorText}.
Context (steps : Steps).

(** An iteration with the breaker open. *)
Lemma open_iteration consumer w :
  (0 < circuit_open_until w)%Z -> (epoch_seconds (time (pg w)) < circuit_open_until w)%Z ->
  loop_iteration steps consumer w =
  (Ok (), slept [Z.min (circuit_open_until w - epoch_seconds (time (pg w))) 5] w).
Proof.
  intros Hpos Hopen. unfold loop_iteration, mbind, W_bind, now.
  rewrite (proj2 (Z.ltb_lt _ _) Hpos), (proj2 (Z.ltb_lt _ _) Hopen). simpl.
  unfold sleep, slept. simpl. by rewrite Z.add_0_r.
Qed.

(** An iteration once the cooldown is over. *)
Lemma expired_iteration consumer w :
  (0 < circuit_open_until w)%Z -> (circuit_open_until w <= epoch_seconds (time (pg w)))%Z ->
  loop_iteration steps consumer w =
  poll steps consumer (epoch_seconds (time (pg w)))
    (w <| circuit_open_until := 0%Z |> <| consecutive_failures := 0%Z |>).
Proof.
  intros Hpos Hle. unfold loop_iteration, mbind, W_bind, now.
  rewrite (proj2 (Z.ltb_lt _ _) Hpos), (proj2 (Z.leb_le _ _) Hle), (proj2 (Z.ltb_ge _ _) Hle). done.
Qed.

Lemma total_app j k : foldr Z.add 0%Z (j ++ k) = (foldr Z.add 0 j + foldr Z.add 0 k)%Z.
Proof. induction j as [|x j IH]; simpl; [done|]. rewrite IH. lia. Qed.
Lemma slept_slept j k w : slept k (slept j w) = slept (j ++ k) w.
Proof. unfold slept. destruct w. simpl. by rewrite later_later, fmap_app, app_assoc, total_app. Qed.
Lemma slept_nothing w : slept [] w = w.
Proof. unfold slept. destruct w as [[] ]. simpl. unfold later. simpl. by rewrite app_nil_r, Z.add_0_r. Qed.

(** The naps taken until the cooldown is over. *)
Lemma open_iterations consumer n : forall w,
  (0 <= time (pg w))%Z -> (0 < circuit_open_until w)%Z ->
  (epoch_seconds (time (pg w)) <= circuit_open_until w <= epoch_seconds (time (pg w)) + 5 * Z.of_nat n)%Z ->
  exists k naps, (k <= n)%nat /\ iterate steps consumer k w = (Ok (), slept naps w) /\
    foldr Z.add 0%Z naps = (circuit_open_until w - epoch_seconds (time (pg w)))%Z.
Proof.
  induction n as [|n IH]; intros w Ht Hpos Hle.
  - exists 0%nat, []. split; [lia|]. split; [by rewrite slept_nothing|simpl; lia].
  - destruct (Z.eq_dec (epoch_seconds (time (pg w))) (circuit_open_until w)) as [He|Hne].
    { exists 0%nat, []. split; [lia|]. split; [by rewrite slept_nothing|simpl; lia]. }
    set (nap := Z.min (circuit_open_until w - epoch_seconds (time (pg w))) 5).
    assert (0 <= nap)%Z as Hnap by (subst nap; lia).
    assert (epoch_seconds (time (pg (slept [nap] w))) = epoch_seconds (time (pg w)) + nap)%Z as He.
    { unfold slept. simpl. rewrite Z.add_0_r. by apply epoch_later. }
    destruct (IH (slept [nap] w)) as (k & naps & Hk & Hrun & Hsum).
    + unfold slept, later. simpl. lia.
    + done.
    + rewrite He. change (circuit_open_until (slept [nap] w)) with (circuit_open_until w). subst nap. lia.
    + exists (S k), (nap :: naps). split; [lia|]. split.
      * cbn [iterate]. unfold mbind at 1, W_bind at 1. rewrite open_iteration by lia. fold nap.
        rewrite Hrun, slept_slept. done.
      * rewrite He in Hsum. change (circuit_open_until (slept [nap] w)) with (circuit_open_until w) in Hsum.
        simpl. lia.
Qed.
End OpenBreaker.

(** ** Lemmas: what the worker does to the table *)

Section WorldKeeps.
Context (R : DB -> DB -> Prop) `{!PreOrder R}.

Definition keeps {E A} (m : W E A) : Prop :=
  forall w, R (committed (pg w)) (committed (pg (m w).2)).

Lemma keeps_bind {E A B} (m : W E A) (k : A -> W E B) :
  keeps m -> (forall a, keeps (k a)) -> keeps (m ≫= k).
Proof.
  intros Hm Hk w. specialize (Hm w). unfold mbind, W_bind.
  destruct (m w) as [[a|e|] w1]; simpl in *; [|done|done]. etransitivity; [exact Hm|]. apply Hk.
Qed.
Lemma keeps_on_pg {E F A} (m : M F A) : preserves R m -> keeps (on_pg (F:=E) m).
Proof. intros Hm w. specialize (Hm (pg w)). unfold on_pg. by destruct (m (pg w)) as [[] ?]. Qed.
Lemma keeps_caught {E F A} (m : W F A) : keeps m -> keeps (caught (F:=E) m).
Proof. intros Hm w. specialize (Hm w). unfold caught. by destruct (m w) as [[] ?]. Qed.
Lemma keeps_spawn {E F} (m : W E unit) : keeps m -> keeps (spawn (F:=F) m).
Proof. intros Hm w. specialize (Hm w). unfold spawn, caught, mbind, W_bind. by destruct (m w) as [[] ?]. Qed.
Lemma keeps_query {E} c : keeps (query (E:=E) c).
Proof. intros w. unfold query. simpl. destruct (replies w); reflexivity. Qed.
Lemma keeps_pool_get {E} : keeps (pool_get (E:=E)).
Proof. intros w. unfold pool_get. destruct (connections w); reflexivity. Qed.
Lemma keeps_quiet {E A} (m : W E A) : (forall w, committed (pg (m w).2) = committed (pg w)) -> keeps m.
Proof. intros Hm w. rewrite Hm. reflexivity. Qed.
End WorldKeeps.

Ltac keeps_step :=
  lazymatch goal with
  | |- keeps _ (mbind _ _) => apply keeps_bind; [typeclasses eauto| |intros ?]
  | |- keeps _ (match ?x with _ => _ end) => destruct x
  | |- keeps _ (caught _) => apply keeps_caught
  | |- keeps _ (spawn _) => apply keeps_spawn
  | |- keeps _ (query _) => apply keeps_query; typeclasses eauto
  | |- keeps _ pool_get => apply keeps_pool_get; typeclasses eauto
  | |- keeps _ (on_pg _) => apply keeps_on_pg; eauto using process_keeps
  | |- keeps _ _ => first [ solve [eauto] | apply keeps_quiet; [typeclasses eauto|];
                              intros ?; reflexivity ]
  end.

Section WorkerKeeps.
Context `{CaseTables} `{JsonPrint} `{HashOrder} `{Rfc3339Millis} `{UuidText} `{UuidErrorText}
  `{Rfc3339} `{DbErrorText}.
Context (steps : Steps) `{!StepsPreserve advances steps} `{!PublicationPreserves advances steps}.

Lemma mark_failed_keeps g code message retryable ctx att jc :
  preserves advances (mark_failed g code message retryable ctx att jc).
Proof.
  apply preserves_wp. intros s. eapply wp_mono; [apply wp_mark_failed|].
  intros [p|e|] s'; simpl; [|intros ->; reflexivity|intros ->; reflexivity].
  intros (gid & row & cur & msg & t & _ & Hr & Hst & Hcur & _ & ->).
  eapply advances_insert; [done|]. rewrite Hst.
  destruct Hcur as [->|Hcan]; [reflexivity|exact (moved_step _ Failed Hcan)].
Qed.
#[local] Hint Resolve mark_failed_keeps : core.

Lemma record_failure_keeps {E} n : keeps advances (record_failure (E:=E) n).
Proof.
  apply keeps_quiet; [typeclasses eauto|]. intros w. unfold record_failure, update_world. simpl.
  by case_match.
Qed.
Lemma ack_keeps {E} entry : keeps advances (ack (E:=E) entry).
Proof. unfold ack. repeat keeps_step. Qed.
Lemma send_to_dlq_keeps {E} gid att code message :
  keeps advances (send_to_dlq (E:=E) gid att code message).
Proof. unfold send_to_dlq, xadd_dlq. repeat keeps_step. Qed.
#[local] Hint Resolve record_failure_keeps ack_keeps send_to_dlq_keeps : core.

Lemma handle_result_keeps {E} n entry result : keeps advances (handle_result (E:=E) n entry result).
Proof. unfold handle_result. repeat keeps_step. Qed.
Lemma run_task_keeps {E} n entry : keeps advances (run_task steps (E:=E) n entry).
Proof. unfold run_task. repeat keeps_step. apply handle_result_keeps. Qed.
#[local] Hint Resolve handle_result_keeps run_task_keeps : core.

Lemma run_all_keeps n entries : keeps advances (run_all steps n entries).
Proof. induction entries; simpl; repeat keeps_step. Qed.
Lemma claim_all_keeps consumer ids : keeps advances (claim_all consumer ids).
Proof. induction ids; simpl; repeat keeps_step. Qed.
#[local] Hint Resolve run_all_keeps claim_all_keeps : core.

Lemma loop_iteration_keeps consumer : keeps advances (loop_iteration steps consumer).
Proof. unfold loop_iteration, poll, claim_pending, read_messages. repeat keeps_step. Qed.
Lemma run_keeps consumer n : keeps advances (run steps consumer n).
Proof.
  unfold run. repeat keeps_step; [unfold create_consumer_group; repeat keeps_step|].
  induction n; simpl; repeat keeps_step. apply loop_iteration_keeps.
Qed.
End WorkerKeeps.

Lemma xadd_dlq_run `{JsonPrint} gid att p w :
  connections w = [] ->
  exists r w', xadd_dlq gid att p w = (r, w') /\ r <> Panic /\ pg w' = pg w /\ connections w' = [] /\
    issued w' = issued w ++ [XAdd DLQ_STREAM_KEY
      [ (lit "generation_id", gid); (lit "attempt", z_to_string att); (lit "payload", json_to_string p) ]].
Proof.
  destruct w as [s conns rs cs cc cf co]. simpl. intros ->.
  unfold xadd_dlq, mbind, W_bind, pool_get, query, or_redis. simpl.
  destruct rs as [|[msg|r] rs]; simpl; eexists _, _; (split; [reflexivity|]); try done.
  split; [|done]. unfold reply_string. by case_match.
Qed.

(** Counting a failure, then sending it to the dead-letter queue, then acknowledging. *)
Lemma dead_letter_run `{CaseTables} `{JsonPrint} `{UuidText} `{Rfc3339} {E} n gid att code msg entry w :
  connections w = [] ->
  exists p jc w', ((_ ← record_failure (E:=E) n; _ ← send_to_dlq gid att code msg; ack entry) w).2 = w' /\
    let fields := [ (lit "generation_id", gid); (lit "attempt", z_to_string att);
                    (lit "payload", json_to_string p) ] in
    let failed := mark_failed gid code msg false (Some p) (Some (i32_wrap att)) (Some jc) (pg w) in
    pg w' = failed.2 /\
    issued w' = issued w ++ XAdd DLQ_STREAM_KEY fields ::
      match failed.1 with Panic => [] | _ => [XAck STREAM_KEY CONSUMER_GROUP (entry_id entry)] end.
Proof.
  intros Hpool. unfold mbind at 1, W_bind at 1.
  destruct (record_failure n w) as [r w1] eqn:Hrec.
  assert (r = Ok () /\ pg w1 = pg w /\ issued w1 = issued w /\ connections w1 = []) as (-> & <- & <- & Hc).
  { unfold record_failure, update_world in Hrec. injection Hrec as <- <-. split; [done|].
    destruct w. simpl in *. by case_match. }
  clear Hrec. unfold send_to_dlq, mbind, W_bind, now. cbn [mret W_ret].
  set (dlq := obj _). unfold caught.
  destruct (xadd_dlq_run gid att dlq w1 Hc) as (r & w2 & -> & Hr & <- & Hc2 & Hi). clearbody dlq.
  exists dlq. destruct r as [i|e|]; [| |done].
  all: cbv beta iota; set (jc := obj _); exists jc; unfold on_pg; clearbody jc.
  all: destruct (mark_failed _ _ _ _ _ _ _ (pg w2)) as [[] s'] eqn:Hm; cbn [fst snd].
  all: eexists; (split; [reflexivity|]); cbn [pg issued].
  all: destruct w2 as [s2 conns rs2 cs2 cc2 cf2 co2]; simpl in Hc2, Hi; subst.
  all: unfold ack, mbind, W_bind, pool_get, query; simpl; (split; [by destruct rs2|]).
  all: destruct rs2; simpl; rewrite <- ?app_assoc; done.
Qed.

(** ** Properties *)

(** C12. Retries are bounded: following a job from an entry through what the worker puts back on
    the stream after each failure, and what is read back of it, the attempt number goes up by one
    at a time, no entry beyond the third attempt is ever written, and the job keeps its generation
    and its job id. *)
Theorem retries_bounded `{CaseTables} `{JsonPrint} `{UuidText} `{Rfc3339} `{DbErrorText} k e e'
  (Hchain : nsteps retried k e e') (Hrange : in_i64 (attempt e + 1) = true) (Hjob : job_id e <> Some []) :
  attempt e' = (attempt e + Z.of_nat k)%Z /\ (k = 0%nat \/ (attempt e' <= MAX_TRIES)%Z) /\
  generation_id e' = generation_id e /\ job_id e' = job_id e.
Proof.
  revert Hrange Hjob. induction Hchain as [e|k e e1 e' Hstep Hchain IH]; intros Hrange Hjob.
  - repeat split; [lia|by left].
  - destruct (retried_inv e e1 Hstep Hrange Hjob) as (Ha & Hle & Hj & Hg).
    destruct IH as (Ha' & Hle' & Hg' & Hj').
    + unfold in_i64 in *. unfold MAX_TRIES in Hle. lia.
    + by rewrite Hj.
    + repeat split; [lia| |congruence|congruence]. right. destruct Hle' as [->|]; [|done].
      inversion Hchain. by subst.
Qed.

(** What a task does with its result when connections can be had. Success acknowledges the
    entry. A failure that is retryable and within the three attempts is put back after the backoff,
    acknowledged first. Any other failure goes to the dead-letter stream and fails the generation,
    and the entry is acknowledged, unless failing the generation panics: then it stays pending. *)
Lemma handle_result_commands `{CaseTables} `{JsonPrint} `{UuidText} `{Rfc3339} `{DbErrorText}
    now_epoch entry result w (Hpool : connections w = []) :
  let w' := (handle_result (E:=str) now_epoch entry result w).2 in
  let acked := XAck STREAM_KEY CONSUMER_GROUP (entry_id entry) in
  match result with
  | Ok _ => issued w' = issued w ++ [acked] /\ pg w' = pg w
  | Err e =>
      if dead_lettered entry e then
        exists att code p jc,
          let fields := [ (lit "generation_id", generation_id entry); (lit "attempt", z_to_string att);
                          (lit "payload", json_to_string p) ] in
          let failed := mark_failed (generation_id entry) code (workflow_error_text e) false (Some p)
                          (Some (i32_wrap att)) (Some jc) (pg w) in
          pg w' = failed.2 /\
          issued w' = issued w ++ XAdd DLQ_STREAM_KEY fields ::
            match failed.1 with Panic => [] | _ => [acked] end
      else
        let wait := compute_backoff (attempt entry) BASE_BACKOFF_SECS MAX_BACKOFF_SECS in
        pg w' = later wait (pg w) /\
        issued w' = issued w ++ [ Sleep wait; acked;
          XAdd STREAM_KEY (reenqueue_fields entry (i64_wrap (attempt entry + 1)) (to_rfc3339 (time (pg w')))) ]
  | Panic => w' = w
  end.
Proof.
  destruct result as [u|e|]; cbn [handle_result]; [|unfold dead_lettered|done].
  - destruct w as [s conns rs cs cc cf co]. simpl in Hpool. subst conns.
    unfold ack, pool_get, query, update_world, mbind, W_bind. simpl. by destruct rs.
  - destruct (is_retryable_error _); cbn [negb orb];
      [destruct (Z.ltb_spec MAX_TRIES (i64_wrap (attempt entry + 1)))|].
    2: { destruct w as [s conns rs cs cc cf co]. simpl in Hpool. subst conns.
         unfold sleep, pool_get, query, now, mbind, W_bind. simpl.
         destruct rs as [|r1 [|r2 rs]]; simpl; rewrite <- !app_assoc; done. }
    all: match goal with |- context [record_failure ?n ≫= λ _, send_to_dlq ?g ?a ?c ?m ≫= λ _, ack ?e] =>
           destruct (dead_letter_run (E:=str) n g a c m e w Hpool) as (p & jc & w' & -> & Hrun);
           exists a, c, p, jc; exact Hrun end.
Qed.

Lemma decimal_scalars z : Forall scalar_value (z_to_string z).
Proof. eapply Forall_impl; [apply z_to_string_range|]. unfold scalar_value. simpl. lia. Qed.
Lemma ascii_scalars s : forallb (λ c, (0 <=? c) && (c <? 128))%Z s = true -> Forall scalar_value s.
Proof.
  intros Hs. apply Forall_forall. intros c Hc.
  pose proof (proj1 (forallb_forall _ _) Hs c (proj1 (list_elem_of_In _ _) Hc)) as Hb.
  unfold scalar_value. simpl in Hb. lia.
Qed.

Lemma enqueue_fields_text gid jid att t :
  Forall scalar_value gid -> Forall scalar_value jid -> Forall scalar_value t ->
  Forall (λ kv, Forall scalar_value kv.1 /\ Forall scalar_value kv.2) (enqueue_fields gid jid att t).
Proof.
  intros Hg Hj Ht. pose proof (decimal_scalars att). unfold enqueue_fields.
  repeat (apply Forall_cons; split; [split; [apply ascii_scalars; reflexivity|assumption]|]).
  apply Forall_nil. exact I.
Qed.

(** What [enqueue] adds to the stream is what the worker reads: from the bytes of the reply to
    XREADGROUP, one entry with the generation, the attempt, and the job id (none when empty). *)
Lemma enqueue_read_back `{Rfc3339} gid jid att eid stream w
  (Hpool : connections w = []) (Hatt : in_i64 att = true)
  (Htext : Forall (Forall scalar_value) [gid; jid; eid; to_rfc3339 (time (pg w))]) :
  exists fields e,
    issued (enqueue gid jid att w).2 = issued w ++ [XAdd STREAM_KEY fields] /\
    parse_entry <$> default [] (extract_messages (stream_reply stream [(eid, fields)])) = [e] /\
    entry_id e = eid /\ generation_id e = gid /\
    job_id e = (if decide (jid = []) then None else Some jid) /\ attempt e = att.
Proof.
  exists (enqueue_fields gid jid att (to_rfc3339 (time (pg w)))), (parse_entry (eid,
    enqueue_fields gid jid att (to_rfc3339 (time (pg w))))).
  split; [|split; [|by apply parse_enqueued]].
  - destruct w as [s conns rs cs cc cf co]. simpl in Hpool. subst conns.
    unfold enqueue, mbind, W_bind, pool_get, query, now, or_redis. simpl.
    destruct rs as [|[msg|r] rs]; simpl; try reflexivity; destruct (reply_string r); reflexivity.
  - apply Forall_cons in Htext as [Hg Htext]. apply Forall_cons in Htext as [Hj Htext].
    apply Forall_cons in Htext as [He Htext]. apply Forall_cons in Htext as [Ht _].
    rewrite extract_stream_reply; [reflexivity|]. apply Forall_singleton. split; [exact He|].
    by apply enqueue_fields_text.
Qed.

(** The backoff: between the base and the cap whatever the attempt, doubling with each attempt
    until the cap, so the delays of the three attempts are 10, 20 and 40 seconds. *)
Lemma backoff_schedule a (Ha : in_i64 a = true) :
  let delay := compute_backoff a BASE_BACKOFF_SECS MAX_BACKOFF_SECS in
  (BASE_BACKOFF_SECS <= delay <= MAX_BACKOFF_SECS)%Z /\
  ((1 <= a <= 64)%Z -> delay = Z.min (10 * 2 ^ (a - 1)) 90) /\
  (a = 1%Z -> delay = 10%Z) /\ (a = 2%Z -> delay = 20%Z) /\ (a = 3%Z -> delay = 40%Z).
Proof.
  cbv zeta. unfold compute_backoff, BASE_BACKOFF_SECS, MAX_BACKOFF_SECS.
  set (shift := (u32_wrap (Z.max (i64_wrap (a - 1)) 0) mod 64)%Z).
  assert (0 <= shift)%Z as Hshift by (subst shift; apply Z.mod_pos_bound; lia).
  pose proof (Z.pow_pos_nonneg 2 shift ltac:(lia) Hshift). unfold u64_max.
  split; [lia|]. assert ((1 <= a <= 64)%Z -> shift = (a - 1)%Z) as Hs.
  { intros Hr. subst shift. rewrite i64_wrap_id by (unfold in_i64; lia).
    unfold u32_wrap. rewrite (Z.mod_small (Z.max _ _)), Z.mod_small by lia. lia. }
  split; [intros Hr; rewrite Hs by done; lia|].
  repeat split; intros ->; rewrite Hs by lia; reflexivity.
Qed.

(** The circuit breaker, from closed, over any sequence of task results that does not end in a
    panic: the failure counter
    counts the failures that were not retried since the last success, and the circuit is open
    exactly when there are five of them or more, until a minute after the latest. *)
Lemma breaker_counts_failures `{CaseTables} `{JsonPrint} `{UuidText} `{Rfc3339} `{DbErrorText} items w w'
  (Hclosed : counters w = (0, 0)%Z) (Hlen : (Z.of_nat (length items) < 2 ^ 32)%Z)
  (Hrun : handle_all items w = (Ok (), w')) :
  let streak := failure_streak items in
  consecutive_failures w' = Z.of_nat (length streak) /\
  circuit_open_until w' =
    match streak with
    | latest :: _ => if (5 <=? length streak)%nat then u64_wrap (latest + 60) else 0%Z
    | [] => 0%Z
    end.
Proof.
  cbv zeta. pose proof (handle_all_counters items w w' Hrun) as Hc. rewrite Hclosed, breaker_streak in Hc by done.
  unfold counters in Hc. injection Hc as -> ->. split; [done|].
  destruct (failure_streak items) as [|latest rest]; [done|]. cbn [head default].
  unfold CIRCUIT_BREAKER_THRESHOLD, CIRCUIT_BREAKER_COOLDOWN_SECS.
  destruct (Nat.leb_spec 5 (length (latest :: rest)));
    destruct (Z.leb_spec 5 (Z.of_nat (length (latest :: rest)))); done || lia.
Qed.

(** C40. An open circuit closes: while it is open the loop only sleeps, and within a fifth of the
    remaining seconds (rounded up) it reaches an iteration that resets both counters and polls the
    queue again, at the second the cooldown ends. *)
Theorem open_circuit_recovers `{CaseTables} `{JsonPrint} `{HashOrder} `{Rfc3339Millis} `{UuidText}
    `{UuidErrorText} `{Rfc3339} `{DbErrorText} steps consumer n w
  (Htime : (0 <= time (pg w))%Z) (Hopen : (0 < circuit_open_until w)%Z)
  (Hrem : (epoch_seconds (time (pg w)) <= circuit_open_until w
           <= epoch_seconds (time (pg w)) + 5 * Z.of_nat n)%Z) :
  exists k naps w', (k <= n)%nat /\ iterate steps consumer k w = (Ok (), w') /\
    issued w' = issued w ++ (Sleep <$> naps) /\ committed (pg w') = committed (pg w) /\
    epoch_seconds (time (pg w')) = circuit_open_until w /\
    loop_iteration steps consumer w' =
      poll steps consumer (circuit_open_until w)
        (w' <| circuit_open_until := 0%Z |> <| consecutive_failures := 0%Z |>).
Proof.
  destruct (open_iterations steps consumer n w Htime Hopen Hrem) as (k & naps & Hk & Hrun & Hsum).
  assert (epoch_seconds (time (pg (slept naps w))) = circuit_open_until w) as He.
  { change (pg (slept naps w)) with (later (foldr Z.add 0%Z naps) (pg w)). rewrite epoch_later by lia. lia. }
  exists k, naps, (slept naps w). split; [done|]. split; [done|]. split; [done|]. split; [done|].
  split; [done|]. rewrite expired_iteration; [by rewrite He|done|]. rewrite He. simpl. lia.
Qed.

(** C23. The whole worker, whatever is on the stream, whatever Redis and the database answer and
    however long it runs: no generation disappears, statuses only move along the transition matrix,
    and a finished generation keeps its status, provided the steps of the pipeline do so. *)
Theorem worker_moves_statuses_forward `{CaseTables} `{JsonPrint} `{HashOrder} `{Rfc3339Millis} `{UuidText}
    `{UuidErrorText} `{Rfc3339} `{DbErrorText} steps `{!StepsPreserve advances steps}
    `{!PublicationPreserves advances steps} consumer n w i row
  (Hrow : committed (pg w) !! i = Some row) :
  exists row', committed (pg (run steps consumer n w).2) !! i = Some row' /\
    (status row' = status row \/
     exists a b, status row = as_str a /\ status row' = as_str b /\ rtc Lifecycle.step a b) /\
    (forall st, status row = as_str st -> is_terminal st = true -> status row' = status row).
Proof.
  pose proof (run_keeps steps consumer n w) as Hadv. destruct (Hadv i row Hrow) as (row' & Hrow' & Hm).
  exists row'. split; [done|]. split; [destruct Hm as [->|(a & b & ? & ? & ?)]; eauto 6|].
  intros st Hst Hterm.
  destruct (advances_terminal _ _ _ _ _ Hadv Hrow Hst Hterm) as (r & Hr & Hsr). congruence.
Qed.

(** [process] on a finished generation runs no step and leaves its status. *)
Lemma finished_process `{CaseTables} `{JsonPrint} `{HashOrder} `{Rfc3339Millis}
    `{UuidText} `{UuidErrorText} `{Rfc3339} steps g job att jc s i row st :
  parse_uuid_str g = Some i -> committed s !! i = Some row -> status row = as_str st ->
  is_terminal st = true ->
  (forall steps', process steps g job att jc s = process steps' g job att jc s) /\
  exists row', committed (process steps g job att jc s).2 !! i = Some row' /\ status row' = as_str st.
Proof.
  intros Hi Hrow Hst Hterm.
  pose proof (preserves_mapping advances AuditTrailErr _ (initialize_keeps advances g) s) as Hinit.
  unfold process, mbind, M_bind. destruct (mapping AuditTrailErr (initialize g) s) as [r s1].
  simpl in Hinit. destruct (advances_terminal _ _ _ _ _ Hinit Hrow Hst Hterm) as (row1 & Hrow1 & Hst1).
  destruct r as [p|e|]; [|split; [done|by exists row1]..].
  pose proof (wp_get_status g s1) as Hget. unfold wp in Hget.
  destruct (get_status g s1) as [[st'|e|] s2]; destruct Hget as [Hdb Hres]; simpl in Hdb;
    [|split; [done|exists row1; simpl; by rewrite Hdb]..].
  destruct Hres as (i' & row' & Hi' & Hrow' & Hst'). simplify_eq.
  assert (st' = st) as -> by (apply as_str_inj; congruence).
  rewrite Hterm. split; [done|]. exists row1. simpl. by rewrite Hdb.
Qed.

(** The manual retry of a dead-lettered generation has no effect: once [send_to_dlq] has failed
    the generation, and whatever the other operations did since, the task that gets the job put
    back by [retry_from_dlq] runs no step of the pipeline (it is the same task whatever the steps
    are), and the generation stays failed. *)
Lemma dead_letter_retry_runs_nothing `{CaseTables} `{JsonPrint} `{HashOrder} `{Rfc3339Millis}
    `{UuidText} `{UuidErrorText} `{Rfc3339} `{DbErrorText} steps steps' gid att code msg i row w w2 eid t n
  (Hi : parse_uuid_str gid = Some i)
  (Hrow : committed (pg (send_to_dlq (E:=str) gid att code msg w).2) !! i = Some row)
  (Hfailed : status row = as_str Failed)
  (Hsince : advances (committed (pg (send_to_dlq (E:=str) gid att code msg w).2)) (committed (pg w2))) :
  let entry := parse_entry (eid, enqueue_fields gid [] 1 t) in
  run_task steps (E:=str) n entry w2 = run_task steps' n entry w2 /\
  exists row', committed (pg (run_task steps (E:=str) n entry w2).2) !! i = Some row' /\
    status row' = as_str Failed.
Proof.
  intros entry. destruct (parse_enqueued gid [] 1 t eid eq_refl) as (_ & Hg & _ & _). fold entry in Hg.
  destruct (advances_terminal _ _ i row Failed Hsince Hrow Hfailed eq_refl) as (row2 & Hrow2 & Hst2).
  assert (forall st1 st2, run_task st1 (E:=str) n entry w2 = run_task st2 n entry w2) as Hsame.
  { intros st1 st2. unfold run_task, on_pg, mbind, W_bind. rewrite Hg.
    by rewrite (proj1 (finished_process st1 gid (job_id entry) _ _ (pg w2) i row2 Failed Hi Hrow2 Hst2 eq_refl) st2). }
  split; [apply Hsame|]. rewrite (Hsame steps WorkflowWitness.quiet_steps).
  pose proof (@run_task_keeps _ _ _ _ _ _ _ _ _ (WorkflowWitness.quiet_steps_keep advances)
    (WorkflowWitness.quiet_publication_keeps advances) str n entry w2) as Hkeep.
  destruct (advances_terminal _ _ i row2 Failed Hkeep Hrow2 Hst2 eq_refl) as (row' & ? & ?). by exists row'.
Qed.

(** ** Witnesses *)

Module QueueWitness.
Import DecisionWitness SpecWitness WorkflowWitness.
#[local] Existing Instance plain_case.
#[local] Existing Instance listed_order.
#[local] Existing Instance millis.
#[local] Existing Instance decimal_uuid.
#[local] Existing Instance decimal_uuid_error.
#[local] Existing Instance decimal_time.
#[local] Existing Instance no_print.
#[local] Instance generic_db_error : DbErrorText := λ _, lit "database".

Definition world : World := mkWorld start [] [] [] 0 0 0.
Definition entry_at (a : Z) : StreamEntry := parse_entry (lit "5-0", enqueue_fields (lit "1") (lit "9") a (lit "0")).
Definition refused : outcome WorkflowError unit := Err (StepProvider (lit "connection refused")).
Definition rejected : outcome WorkflowError unit := Err (StepProvider (lit "validation error")).

(** A refused first attempt is read back as the second. *)
Lemma first_retry : retried (entry_at 1)
  (parse_entry (lit "6-0", reenqueue_fields (entry_at 1) 2 (to_rfc3339 10000000000%Z))).
Proof.
  exists 0%Z, refused, world. eexists _, _, (lit "6-0"). split; [vm_compute; reflexivity|].
  split; [|reflexivity]. right. right. left.
Qed.

Lemma retries_bounded_witness :
  let e' := parse_entry (lit "6-0", reenqueue_fields (entry_at 1) 2 (to_rfc3339 10000000000%Z)) in
  nsteps retried 1 (entry_at 1) e' /\ attempt e' = 2%Z /\ (attempt e' <= MAX_TRIES)%Z /\
  job_id e' = Some (lit "9").
Proof.
  intros e'. assert (nsteps retried 1 (entry_at 1) e') as Hchain
    by (eapply nsteps_l; [exact first_retry|apply nsteps_O]).
  split; [exact Hchain|].
  destruct (retries_bounded 1 (entry_at 1) e' Hchain eq_refl) as (Ha & [Hk|Hle] & _ & Hj);
    [discriminate|discriminate|].
  split; [rewrite Ha; reflexivity|]. split; [exact Hle|]. rewrite Hj. reflexivity.
Defined.

Lemma handle_result_commands_witness :
  exists wait, issued (handle_result (E:=str) 0 (entry_at 1) refused world).2 =
    [Sleep wait; XAck STREAM_KEY CONSUMER_GROUP (lit "5-0");
     XAdd STREAM_KEY (reenqueue_fields (entry_at 1) 2 (lit "10000000000"))] /\ wait = 10%Z.
Proof.
  pose proof (handle_result_commands 0 (entry_at 1) refused world eq_refl) as Hrun.
  exists (compute_backoff 1 10 90). split; [|reflexivity].
  destruct Hrun as [Hpg Hissued]. rewrite Hpg in Hissued. rewrite Hissued. vm_compute. reflexivity.
Defined.

Lemma enqueue_read_back_witness :
  exists fields e,
    issued (enqueue (lit "1") (lit "9") 1 world).2 = [XAdd STREAM_KEY fields] /\
    parse_entry <$> default [] (extract_messages (stream_reply STREAM_KEY [(lit "5-0", fields)])) = [e] /\
    generation_id e = lit "1" /\ attempt e = 1%Z.
Proof.
  destruct (enqueue_read_back (lit "1") (lit "9") 1 (lit "5-0") STREAM_KEY world eq_refl eq_refl)
    as (fields & e & Hissued & Hread & _ & Hg & _ & Ha).
  - repeat (apply Forall_cons; split; [apply ascii_scalars; vm_compute; reflexivity|]). apply Forall_nil. exact I.
  - exists fields, e. split; [exact Hissued|]. split; [exact Hread|]. split; [exact Hg|exact Ha].
Defined.

Lemma backoff_schedule_witness : compute_backoff 3 BASE_BACKOFF_SECS MAX_BACKOFF_SECS = 40%Z.
Proof. exact (proj2 (proj2 (proj2 (proj2 (backoff_schedule 3 eq_refl)))) eq_refl). Defined.

Definition five_rejected : list (Z * StreamEntry * outcome WorkflowError unit) :=
  replicate 5 (100%Z, entry_at 1, rejected).

Lemma run_rejected : exists w', handle_all five_rejected world = (Ok (), w').
Proof. eexists. vm_compute. reflexivity. Qed.

Lemma breaker_counts_failures_witness :
  exists w', handle_all five_rejected world = (Ok (), w') /\
    circuit_open_until w' = 160%Z /\ consecutive_failures w' = 5%Z.
Proof.
  destruct run_rejected as [w' Hrun]. exists w'. split; [exact Hrun|].
  destruct (breaker_counts_failures five_rejected world w' eq_refl eq_refl Hrun) as [Hf Ho].
  rewrite Hf, Ho. split; vm_compute; reflexivity.
Defined.

Lemma open_circuit_recovers_witness :
  exists k, (k <= 12)%nat /\ exists naps w', iterate quiet_steps (lit "c") k (world <| circuit_open_until := 60%Z |>) = (Ok (), w') /\
    issued w' = Sleep <$> naps.
Proof.
  destruct (open_circuit_recovers quiet_steps (lit "c") 12 (world <| circuit_open_until := 60%Z |>))
    as (k & naps & w' & Hk & Hrun & Hissued & _).
  - vm_compute. discriminate.
  - reflexivity.
  - split; vm_compute; discriminate.
  - exists k. split; [exact Hk|]. exists naps, w'. split; [exact Hrun|exact Hissued].
Defined.

(** A worker that finds one entry on the stream. *)
Definition busy : World := world <| replies := [inr RNil; inr (RArray []);
  inr (RArray [stream_reply STREAM_KEY [(lit "5-0", enqueue_fields (lit "1") (lit "9") 1 (lit "0"))]])] |>.

Lemma worker_moves_statuses_forward_witness :
  status <$> committed (pg (run quiet_steps (lit "c") 1 busy).2) !! 1%Z = Some (lit "generating") /\
  exists row', committed (pg (run quiet_steps (lit "c") 1 busy).2) !! 1%Z = Some row' /\
    (status row' = lit "queued" \/
     exists a b, lit "queued" = as_str a /\ status row' = as_str b /\ rtc Lifecycle.step a b).
Proof.
  split; [vm_compute; reflexivity|].
  destruct (@worker_moves_statuses_forward _ _ _ _ _ _ _ _ quiet_steps (quiet_steps_keep advances)
    (quiet_publication_keeps advances) (lit "c") 1 busy 1 sample_row eq_refl) as (row' & Hrow' & Hm & _).
  exists row'. split; [exact Hrow'|exact Hm].
Defined.

Definition buried : World := (send_to_dlq (E:=str) (lit "1") 1 (lit "X") (lit "boom") world).2.
Lemma buried_row : exists row, committed (pg buried) !! 1%Z = Some row /\ status row = as_str Failed.
Proof. eexists. split; vm_compute; reflexivity. Qed.

Lemma dead_letter_retry_runs_nothing_witness :
  let entry := parse_entry (lit "7-0", enqueue_fields (lit "1") [] 1 (lit "0")) in
  exists row', committed (pg (run_task quiet_steps (E:=str) 0 entry buried).2) !! 1%Z = Some row' /\
    status row' = lit "failed".
Proof.
  destruct buried_row as (row & Hrow & Hst).
  destruct (dead_letter_retry_runs_nothing quiet_steps quiet_steps (lit "1") 1 (lit "X") (lit "boom") 1 row
    world buried (lit "7-0") (lit "0") 0 eq_refl Hrow Hst) as (_ & row' & Hrow' & Hst').
  - intros k r Hr. exists r. split; [exact Hr|left; reflexivity].
  - exists row'. split; [exact Hrow'|exact Hst'].
Defined.
End QueueWitness.
