(* ===== verification/Rest.v ===== *)
(** * Answers of the REST interface (src/src/error.rs, api/rest/response.rs, db/pagination.rs)

    The error type of the handlers and the response each error becomes, the envelopes of successful
    answers, and the pages of a listing. *)

From stdpp Require Import base list option strings.
From Stdlib Require Import ZArith Lia.
From S2P Require Import Prelude RustStr Json Text Store.
#[local] Open Scope Z_scope.

(** ** Errors *)

(** [AppError]; errors of other libraries are their text. *)
Inductive AppError :=
| Validation (msg : str)
| NotFound (msg : str)
| Unauthorized (msg : str)
| Forbidden (msg : str)
| Conflict (msg : str)
| Internal (msg : str)
| Database (e : db_error)
| Redis (msg : str)
| HttpClient (msg : str)
| ConfigError (msg : str)
| Anyhow (msg : str)
| RateLimited (status : Z) (headers : list (str * str)) (body : value).

(** A response: status, headers set by the handler, body. *)
Record Response := mkResponse {
  re_status : Z;
  re_headers : list (str * str);
  re_body : value
}.

(** [ErrorResponse]. *)
Definition error_body (code message : str) : value :=
  obj [("success", Bool false); ("error", obj [("code", String code); ("message", String message)])]%string.
Definition refusal (status : Z) (code : string) (message : str) : Response :=
  mkResponse status [] (error_body (lit code) message).
Arguments refusal status code%_string message.

(** [AppError::into_response]. *)
Definition into_response `{DbErrorText} (e : AppError) : Response :=
  match e with
  | RateLimited status headers body => mkResponse status headers body
  | Validation msg => refusal 422 "validation_failed" msg
  | NotFound msg => refusal 404 "not_found" msg
  | Unauthorized msg => refusal 401 "unauthorized" msg
  | Forbidden msg => refusal 403 "forbidden" msg
  | Conflict msg => refusal 409 "conflict" msg
  | Internal msg => refusal 500 "internal_error" msg
  | Database e => refusal 500 "database_error" (db_error_text e)
  | Redis msg => refusal 500 "redis_error" msg
  | HttpClient msg => refusal 502 "http_client_error" msg
  | ConfigError msg => refusal 500 "config_error" msg
  | Anyhow msg => refusal 500 "internal_error" msg
  end.

(** ** Requests *)

(** Who makes a request (auth/middleware.rs). *)
Record Principal := mkPrincipal { user_id : Z; role : str }.

(** The first entry of a header with a list: [v.split(',').next()]. *)
Definition first_of_list (v : str) : str := match split_once 44 v with Some (a, _) => a | None => v end.

(** ** Pages (db/pagination.rs) *)

Definition DEFAULT_PER_PAGE : Z := 15.
Definition MAX_PER_PAGE : Z := 50.

Record PaginationQuery := mkPaginationQuery { pq_page : Z; pq_per_page : Z }.
Record PaginationParams := { pp_page : option Z; pp_per_page : option Z }.

Definition clamp (x low high : Z) : Z := if x <? low then low else if high <? x then high else x.
Definition parse_pagination (params : PaginationParams) : PaginationQuery :=
  mkPaginationQuery (Z.max (default 1 (pp_page params)) 1)
    (clamp (default DEFAULT_PER_PAGE (pp_per_page params)) 1 MAX_PER_PAGE).
(** The multiplication wraps in a release build. *)
Definition offset (q : PaginationQuery) : Z := i64_wrap (i64_wrap (pq_page q - 1) * pq_per_page q).
Definition limit (q : PaginationQuery) : Z := pq_per_page q.

Record PaginationMeta := mkPaginationMeta {
  pm_current_page : Z;
  pm_last_page : Z;
  pm_per_page : Z;
  pm_total : Z
}.
(** Division truncates; a zero divisor would panic. *)
Definition new_meta (page per_page total : Z) : option PaginationMeta :=
  if total =? 0 then Some (mkPaginationMeta page 1 per_page total)
  else if per_page =? 0 then None
  else Some (mkPaginationMeta page (Z.quot (i64_wrap (i64_wrap (total + per_page) - 1)) per_page) per_page total).
Definition from_query (q : PaginationQuery) (total : Z) : option PaginationMeta :=
  new_meta (pq_page q) (pq_per_page q) total.
Definition meta_value (m : PaginationMeta) : value :=
  obj [("current_page", jint (pm_current_page m)); ("last_page", jint (pm_last_page m));
       ("per_page", jint (pm_per_page m)); ("total", jint (pm_total m))]%string.

(** ** Envelopes (response.rs) *)

Module response.
Definition envelope (status : Z) (data : value) : Response :=
  mkResponse status [] (obj [("success", Bool true); ("data", data)])%string.
Definition envelope_with_message (status : Z) (message : str) (data : value) : Response :=
  mkResponse status [] (obj [("success", Bool true); ("message", String message); ("data", data)])%string.
Definition ok (data : value) : Response := envelope 200 data.
Definition created (data : value) : Response := envelope 201 data.
Definition ok_with_message (message : str) (data : value) : Response := envelope_with_message 200 message data.
Definition created_with_message (message : str) (data : value) : Response := envelope_with_message 201 message data.
Definition accepted_with_message (message : str) (data : value) : Response := envelope_with_message 202 message data.
(** The instant of the answer, in whole seconds, is an argument. *)
Definition paginated (timestamp : str) (data : list value) (meta : PaginationMeta) : Response :=
  mkResponse 200 [] (obj [("success", Bool true); ("message", jstr "Berhasil."); ("data", Array data);
                          ("meta", meta_value meta); ("timestamp", String timestamp)])%string.
End response.

(** ** Lemmas *)

(** No error is a success. *)
Lemma errors_are_not_successes `{DbErrorText} e :
  match e with RateLimited _ _ _ => True | _ => 400 <= re_status (into_response e) end.
Proof. by destruct e. Qed.

Lemma parse_pagination_bounds p :
  1 <= pq_page (parse_pagination p) /\ 1 <= pq_per_page (parse_pagination p) <= MAX_PER_PAGE.
Proof.
  unfold parse_pagination, clamp, MAX_PER_PAGE. cbn [pq_page pq_per_page].
  repeat case_match; lia.
Qed.

(** What a listing with LIMIT and OFFSET shows of its rows. *)
Definition page_of {A} (q : PaginationQuery) (rows : list A) : option (list A) :=
  if offset q <? 0 then None else Some (take (Z.to_nat (limit q)) (drop (Z.to_nat (offset q)) rows)).

Definition nth_page {A} (per_page : Z) (rows : list A) (k : nat) : list A :=
  default [] (page_of (mkPaginationQuery (Z.of_nat k + 1) per_page) rows).

Lemma nth_page_chunk {A} per_page (rows : list A) k :
  1 <= per_page <= MAX_PER_PAGE -> Z.of_nat (S k) * per_page < 2 ^ 63 ->
  nth_page per_page rows k = take (Z.to_nat per_page) (drop (k * Z.to_nat per_page) rows).
Proof.
  intros Hp Hk. unfold MAX_PER_PAGE in Hp. unfold nth_page, page_of, offset, limit. cbn [pq_page pq_per_page].
  replace (Z.of_nat k + 1 - 1) with (Z.of_nat k) by lia.
  rewrite (i64_wrap_id (Z.of_nat k)) by (unfold in_i64; apply andb_true_iff; split; [apply Z.leb_le|apply Z.ltb_lt]; nia).
  rewrite i64_wrap_id by (unfold in_i64; apply andb_true_iff; split; [apply Z.leb_le|apply Z.ltb_lt]; nia).
  destruct (Z.ltb_spec (Z.of_nat k * per_page) 0); [nia|]. cbn [default].
  replace (Z.to_nat (Z.of_nat k * per_page)) with (k * Z.to_nat per_page)%nat by nia. reflexivity.
Qed.

Lemma chunks_cover {A} (n k : nat) (rows : list A) :
  (mjoin ((λ i, take n (drop (i * n) rows)) <$> seq 0 k)) = take (k * n) rows.
Proof.
  induction k as [|k IH]; [by rewrite take_0|].
  rewrite seq_S, fmap_app, join_app, IH. cbn [fmap list_fmap mjoin list_join]. rewrite app_nil_r.
  replace (S k * n)%nat with (k * n + n)%nat by lia.
  by rewrite take_take_drop.
Qed.

(** The last page is the least one that shows everything. *)
Lemma last_page_spec per_page total :
  1 <= per_page <= MAX_PER_PAGE -> 0 <= total < 2 ^ 62 ->
  exists m, new_meta 1 per_page total = Some m /\ 1 <= pm_last_page m /\ total <= pm_last_page m * per_page /\
    (total <> 0 -> (pm_last_page m - 1) * per_page < total).
Proof.
  intros Hp Ht. unfold MAX_PER_PAGE in Hp. unfold new_meta. destruct (Z.eqb_spec total 0) as [->|Hz].
  { eexists. split; [reflexivity|]. cbn [pm_last_page]. lia. }
  destruct (Z.eqb_spec per_page 0); [lia|]. eexists. split; [reflexivity|]. cbn [pm_last_page].
  rewrite (i64_wrap_id (total + per_page)) by (unfold in_i64; lia).
  rewrite i64_wrap_id by (unfold in_i64; lia).
  rewrite Z.quot_div_nonneg by lia.
  pose proof (Z.div_mod (total + per_page - 1) per_page ltac:(lia)).
  pose proof (Z.mod_pos_bound (total + per_page - 1) per_page ltac:(lia)). nia.
Qed.

(** ** Properties *)

(** The pages of a listing: whatever a client asks for, a page has between 1 and 50 rows, and the
    pages from the first to the announced last one, put together, are the rows of the listing in
    their order, each once. The offset of a page whose number is near the top of an i64 wraps: the
    request is answered from a page it did not ask for, or with a negative OFFSET, which the database
    refuses. *)
Lemma pages_partition {A} (params : PaginationParams) (rows : list A)
  (Hrows : (Z.of_nat (length rows) < 2 ^ 62)) :
  let per_page := pq_per_page (parse_pagination params) in
  1 <= per_page <= MAX_PER_PAGE /\ 1 <= pq_page (parse_pagination params) /\
  (exists m, new_meta 1 per_page (Z.of_nat (length rows)) = Some m /\
    mjoin (nth_page per_page rows <$> seq 0 (Z.to_nat (pm_last_page m))) = rows) /\
  (offset (mkPaginationQuery (2 ^ 61 + 1) 4) = - 2 ^ 63 /\ page_of (mkPaginationQuery (2 ^ 61 + 1) 4) rows = None) /\
  page_of (mkPaginationQuery (2 ^ 62 + 1) 4) rows = page_of (mkPaginationQuery 1 4) rows.
Proof.
  cbv zeta. destruct (parse_pagination_bounds params) as [Hpage Hper].
  set (n := pq_per_page (parse_pagination params)) in *. split; [done|]. split; [exact Hpage|]. split; [|split; [split; reflexivity|reflexivity]].
  destruct (last_page_spec n (Z.of_nat (length rows)) Hper ltac:(lia)) as (m & Hm & Hl & Hcover & Hleast).
  exists m. split; [exact Hm|].
  rewrite (list_fmap_ext _ (λ i, take (Z.to_nat n) (drop (i * Z.to_nat n) rows))).
  - rewrite chunks_cover. apply take_ge. nia.
  - intros i k [-> Hk]%lookup_seq. apply nth_page_chunk; [done|]. unfold MAX_PER_PAGE in Hper.
    destruct (decide (length rows = 0)%nat) as [Hz|Hz]; [|nia].
    assert (pm_last_page m = 1) as Hone; [|nia].
    unfold new_meta in Hm. rewrite Hz in Hm. cbn in Hm. by injection Hm as <-.
Qed.

(** ** Witnesses *)

Module RestWitness.
Definition unbounded : PaginationParams := {| pp_page := Some (-5); pp_per_page := Some 2 |}.

Lemma pages_partition_witness :
  exists m, new_meta 1 2 5 = Some m /\
    mjoin (nth_page 2 [10; 20; 30; 40; 50] <$> seq 0 (Z.to_nat (pm_last_page m))) = [10; 20; 30; 40; 50].
Proof. exact (proj1 (proj2 (proj2 (pages_partition unbounded [10; 20; 30; 40; 50] ltac:(reflexivity))))). Defined.

Example pages_of_five : nth_page 2 [10; 20; 30; 40; 50] 1 = [30; 40] /\ nth_page 2 [10; 20; 30; 40; 50] 2 = [50].
Proof. split; reflexivity. Qed.
End RestWitness.
