(* ===== verification/Auth.v ===== *)
(** * Accounts and sessions (src/src/auth/, api/rest/auth.rs, db/repositories/users.rs)

    Users, personal access tokens, the extraction of the principal of a request, and the endpoints
    that register, log in, log out, refresh a token and reset a password. Password hashing and
    SHA-256 are parameters. *)

From stdpp Require Import base gmap list option strings relations.
From Stdlib Require Import ZArith Lia.
From S2P Require Import Prelude RustStr Utf8 Json Text Store StateM Samples Rest.
#[local] Open Scope Z_scope.

(** ** Rows and state *)

Record User := mkUser {
  u_id : Z;
  u_name : str;
  u_email : str;
  u_email_verified_at : option Z;
  u_password : str;
  u_avatar_url : option str;
  u_primary_subject_id : option Z;
  u_role : str;
  u_remember_token : option str;
  u_security_question : option str;
  u_security_answer : option str;
  u_created_at : option Z;
  u_updated_at : option Z
}.
#[export] Instance User_eta : Eta User := λ u,
  mkUser (u_id u) (u_name u) (u_email u) (u_email_verified_at u) (u_password u) (u_avatar_url u)
    (u_primary_subject_id u) (u_role u) (u_remember_token u) (u_security_question u)
    (u_security_answer u) (u_created_at u) (u_updated_at u).

Record PersonalAccessToken := mkToken {
  t_id : Z;
  t_tokenable_type : str;
  t_tokenable_id : Z;
  t_name : str;
  t_token : str;
  t_abilities : option str;
  t_last_used_at : option Z;
  t_expires_at : option Z;
  t_created_at : option Z;
  t_updated_at : option Z
}.
#[export] Instance Token_eta : Eta PersonalAccessToken := λ t,
  mkToken (t_id t) (t_tokenable_type t) (t_tokenable_id t) (t_name t) (t_token t) (t_abilities t)
    (t_last_used_at t) (t_expires_at t) (t_created_at t) (t_updated_at t).

(** A row of [activity_logs], as a failed login writes it. *)
Record ActivityLog := mkActivityLog { al_id : uuid; al_action : str; al_metadata : value; al_created_at : Z }.

(** The tables and their sequences. *)
Record AuthDb := mkAuthDb {
  users : gmap Z User;
  tokens : gmap Z PersonalAccessToken;
  user_seq : Z;
  token_seq : Z;
  logs : list ActivityLog
}.
#[export] Instance AuthDb_eta : Eta AuthDb := λ d,
  mkAuthDb (users d) (tokens d) (user_seq d) (token_seq d) (logs d).

(** The state of a request: the database, its clock and the statements to come, and what the random
    generator will draw. *)
Record AuthSt := mkAuthSt {
  adb : AuthDb;
  a_clock : Z;
  a_ticks : list tick;
  a_uuids : list uuid;
  a_salts : list str
}.
#[export] Instance AuthSt_eta : Eta AuthSt := λ s,
  mkAuthSt (adb s) (a_clock s) (a_ticks s) (a_uuids s) (a_salts s).

Notation AM := (ST AuthSt).

(** A statement: its result and the tables after it, a refused one included (a sequence does not go
    back). One that does not reach the server changes nothing. *)
Definition sql {A} (q : Z -> AuthDb -> outcome db_error A * AuthDb) : AM db_error A := λ s,
  let '(t, rest) := match a_ticks s with t :: rest => (t, rest) | [] => (mkTick false 0, []) end in
  let s := s <| a_ticks := rest |> <| a_clock := a_clock s + Z.of_N (elapsed t) |> in
  if fails t then (Err Unavailable, s)
  else let '(r, db) := q (a_clock s) (adb s) in (r, s <| adb := db |>).

(** [Uuid::new_v4()] and [SaltString::generate]. *)
Definition new_v4 {E} : AM E uuid := λ s,
  match a_uuids s with i :: rest => (Ok i, s <| a_uuids := rest |>) | [] => (Ok 0, s) end.
Definition new_salt {E} : AM E str := λ s,
  match a_salts s with i :: rest => (Ok i, s <| a_salts := rest |>) | [] => (Ok [], s) end.
Definition now_text `{Rfc3339} {E} : AM E str := λ s, (Ok (to_rfc3339 (a_clock s)), s).

(** [.map_err(f)]. *)
Definition erring {S E F A} (f : E -> F) (m : ST S E A) : ST S F A := λ s,
  let '(r, s') := m s in (map_err f r, s').
Definition whole {E A} (o : option A) : AM E A := λ s, (of_panicking o, s).

(** ** Users (db/repositories/users.rs) *)

Definition user_ok (u : User) : bool :=
  varchar 255 (u_name u) && varchar 255 (u_email u) && varchar 255 (u_password u) && varchar 50 (u_role u)
  && varchar_null 255 (u_security_question u) && varchar_null 255 (u_security_answer u).
(** The one user with an address: the address has a unique index. *)
Definition user_by_email (email : str) (db : AuthDb) : option User :=
  snd <$> head (filter (λ '(_, u), u_email u = email) (map_to_list (users db))).

Section Users.
Context `{DbErrorText}.

Definition repo_failed (what : string) (e : db_error) : str := lit what ++ lit ": " ++ db_error_text e.
Arguments repo_failed what%_string e.

Definition find_by_id (i : Z) : AM str (option User) :=
  erring (repo_failed "failed to find user by id") (sql (λ _ db, (Ok (users db !! i), db))).
Definition find_by_email (email : str) : AM str (option User) :=
  erring (repo_failed "failed to find user by email") (sql (λ _ db, (Ok (user_by_email email db), db))).

Definition insert_user_row (name email password role : str) (now : Z) (db : AuthDb) :
    outcome db_error User * AuthDb :=
  let i := user_seq db in
  let db' := db <| user_seq := i + 1 |> in
  let u := mkUser i name email None password None None role None None None (Some now) (Some now) in
  if negb (user_ok u) then (Err CheckViolation, db')
  else if bool_decide (is_Some (users db !! i)) || bool_decide (is_Some (user_by_email email db))
  then (Err UniqueViolation, db')
  else (Ok u, db' <| users := <[i := u]> (users db) |>).
Definition insert_user (name email password role : str) : AM str User :=
  erring (repo_failed "failed to insert user") (sql (insert_user_row name email password role)).

(** [UPDATE users SET ... WHERE id = $n]: no row, no error. *)
Definition update_user (what : string) (f : User -> User) (i : Z) : AM str unit :=
  erring (repo_failed what) (sql (λ now db,
    match users db !! i with
    | None => (Ok (), db)
    | Some u =>
        let u' := (f u) <| u_updated_at := Some now |> in
        if user_ok u' then (Ok (), db <| users := <[i := u']> (users db) |>) else (Err CheckViolation, db)
    end)).
Arguments update_user what%_string f i.
Definition update_avatar (i : Z) (avatar_url : str) : AM str unit :=
  update_user "failed to update avatar" (λ u, u <| u_avatar_url := Some avatar_url |>) i.
Definition update_password (i : Z) (password_hash : str) : AM str unit :=
  update_user "failed to update password" (λ u, u <| u_password := password_hash |>) i.
Definition set_role (i : Z) (role : str) : AM str unit :=
  update_user "failed to set role" (λ u, u <| u_role := role |>) i.
Definition set_security_qa (i : Z) (question answer_hash : str) : AM str unit :=
  update_user "failed to set security qa"
    (λ u, u <| u_security_question := Some question |> <| u_security_answer := Some answer_hash |>) i.
End Users.

(** ** Passwords (auth/password.rs) *)

(** The crates argon2 and bcrypt: hashing with a salt, reading a PHC string, and verifying. *)
Class Passwords := {
  PhcHash : Type;
  argon2_hash : str -> list Z -> outcome str str;
  phc_new : str -> option PhcHash;
  argon2_verify : list Z -> PhcHash -> bool;
  bcrypt_verify : str -> str -> option bool
}.
(** What their documentation promises: a hash is a PHC string of argon2 that its password verifies. *)
Class PasswordLaws `{Passwords} :=
  argon2_roundtrip : forall salt p h, argon2_hash salt p = Ok h ->
    starts_with (lit "$argon2") h = true /\ exists phc, phc_new h = Some phc /\ argon2_verify p phc = true.

Definition BCRYPT_PREFIXES : list str := [lit "$2y$"; lit "$2b$"; lit "$2a$"].

Section Password.
Context `{Passwords}.

Definition hash_password {E} (text : str -> E) (plain : str) : AM E str :=
  salt ← new_salt;
  returning (map_err (λ e, text (lit "failed to hash password: " ++ e)) (argon2_hash salt (utf8_encode plain))).

Definition verify_argon2 (plain hash : str) : bool :=
  match phc_new hash with Some parsed => argon2_verify (utf8_encode plain) parsed | None => false end.
Definition verify_bcrypt (plain hash : str) : bool := default false (bcrypt_verify plain hash).
(** The warning about an unknown format shows the first eight bytes; slicing inside a character
    panics. *)
Definition verify_password (plain hash : str) : option bool :=
  if starts_with (lit "$argon2") hash then Some (verify_argon2 plain hash)
  else if existsb (λ prefix, starts_with prefix hash) BCRYPT_PREFIXES then Some (verify_bcrypt plain hash)
  else _ ← slice_to (Nat.min 8 (str_len hash)) hash; Some false.
End Password.

(** ** Tokens (auth/tokens.rs) *)

Definition TOKENABLE_TYPE : str := lit "App\Models\User".

(** [Uuid::as_simple]: 32 hexadecimal digits. *)
Class UuidSimple := uuid_simple : uuid -> str.

Section Tokens.
Context `{DbErrorText} `{Sha256Hex} `{UuidSimple}.

Definition generate_plain_token {E} : AM E str :=
  a ← new_v4; b ← new_v4; mret (uuid_simple a ++ uuid_simple b).
Definition hash_token (plain : str) : str := sha256_hex plain.

Definition insert_token_row (user_id : Z) (name hash : str) (abilities : option str) (now : Z) (db : AuthDb) :
    outcome db_error Z * AuthDb :=
  let i := token_seq db in
  let db' := db <| token_seq := i + 1 |> in
  let t := mkToken i TOKENABLE_TYPE user_id name hash abilities None None (Some now) (Some now) in
  if negb (varchar 64 hash) then (Err CheckViolation, db')
  else if bool_decide (is_Some (tokens db !! i)) || existsb (λ '(_, t'), bool_decide (t_token t' = hash)) (map_to_list (tokens db))
  then (Err UniqueViolation, db')
  else (Ok i, db' <| tokens := <[i := t]> (tokens db) |>).
Definition issue_token (user_id : Z) (name : str) (abilities : option str) : AM str str :=
  plain ← generate_plain_token;
  row ← erring (repo_failed "failed to insert token")
          (sql (insert_token_row user_id name (hash_token plain) abilities));
  mret (z_to_string row ++ lit "|" ++ plain).

Definition matching_token (i : Z) (hash : str) (db : AuthDb) : option PersonalAccessToken :=
  t ← tokens db !! i; if decide (t_token t = hash) then Some t else None.
Definition verify_token (token : str) : AM str (option PersonalAccessToken) :=
  match split_once 124 token with
  | None => mret None
  | Some (id_str, plain) =>
      match parse_i64 id_str with
      | None => mret None
      | Some i =>
          erring (repo_failed "failed to query token")
            (sql (λ _ db, (Ok (matching_token i (hash_token plain) db), db)))
      end
  end.

Definition revoke_token (i : Z) : AM str unit :=
  erring (repo_failed "failed to delete token")
    (sql (λ _ db, (Ok (), db <| tokens := delete i (tokens db) |>))).
Definition belongs (user_id : Z) (t : PersonalAccessToken) : bool :=
  bool_decide (t_tokenable_id t = user_id) && bool_decide (t_tokenable_type t = TOKENABLE_TYPE).
Definition revoke_all_for_user (user_id : Z) : AM str unit :=
  erring (repo_failed "failed to delete tokens for user")
    (sql (λ _ db, (Ok (), db <| tokens := filter (λ '(_, t), belongs user_id t = false) (tokens db) |>))).
End Tokens.

(** ** The principal of a request (auth/middleware.rs) *)

Definition unauthorized_response (message : string) : Response := refusal 401 "unauthorized" (lit message).
Definition forbidden_response (message : str) : Response := refusal 403 "forbidden" message.
Definition internal_error_response (message : string) : Response := refusal 500 "internal_error" (lit message).
Arguments unauthorized_response message%_string.
Arguments internal_error_response message%_string.

Section Requests.
Context `{DbErrorText} `{Sha256Hex} `{UuidSimple} `{Passwords} `{CaseTables} `{Rfc3339}.

(** The header is the value of Authorization, if there is one that reads as text. *)
Definition bearer_token (header : option str) : outcome string str :=
  match header with
  | None => Err "missing authorization header"%string
  | Some auth_header =>
      match strip_prefix (lit "Bearer ") auth_header with
      | None => Err "invalid authorization scheme"%string
      | Some [] => Err "empty bearer token"%string
      | Some token => Ok token
      end
  end.

(** [Principal::from_request_parts]; an error is the response that rejects the request. *)
Definition principal_of (header : option str) : AM Response Principal :=
  token ← returning (map_err unauthorized_response (bearer_token header));
  record ← erring (λ _, internal_error_response "token verification failed") (verify_token token);
  token_record ← ok_or (unauthorized_response "invalid or expired token") record;
  found ← erring (λ _, internal_error_response "user lookup failed") (find_by_id (t_tokenable_id token_record));
  user ← ok_or (unauthorized_response "user not found") found;
  mret (mkPrincipal (u_id user) (u_role user)).

(** [OptionalPrincipal::from_request_parts] rejects nobody. *)
Definition optional_principal {E} (header : option str) : AM E (option Principal) :=
  match bearer_token header with
  | Ok token =>
      record ← attempt (verify_token token);
      match record with
      | Ok (Some token_record) =>
          found ← attempt (find_by_id (t_tokenable_id token_record));
          match found with
          | Ok (Some user) => mret (Some (mkPrincipal (u_id user) (u_role user)))
          | _ => mret None
          end
      | _ => mret None
      end
  | _ => mret None
  end.

(** [require_role]: the request goes on, or is refused. *)
Definition require_role (required : str) (principal : Principal) : outcome Response unit :=
  if decide (role principal = required) then Ok ()
  else Err (forbidden_response (lit "requires role '" ++ required ++ lit "', user has '" ++ role principal ++ lit "'")).

(** ** The endpoints (api/rest/auth.rs) *)

Definition user_resource (u : User) : value :=
  obj [("id", jint (u_id u)); ("name", String (u_name u)); ("email", String (u_email u));
       ("avatar_url", jopt String (u_avatar_url u)); ("role", String (u_role u));
       ("primary_subject_id", jopt jint (u_primary_subject_id u))]%string.
Definition auth_data (u : User) (token : str) : value :=
  obj [("user", user_resource u); ("token", String token)]%string.

Record RegisterRequest := { rr_name : str; rr_email : str; rr_password : str }.
Record LoginRequest := { lr_email : str; lr_password : str }.
Record VerifyAndResetPasswordRequest := { vr_email : str; vr_security_answer : str; vr_new_password : str }.
(** The other headers a login looks at. *)
Record LoginHeaders := { x_forwarded_for : option str; user_agent : option str }.

(** [?] on an [anyhow::Error], and [.map_err(|e| AppError::Internal(e.to_string()))?]. *)
Definition anyhow {A} (m : AM str A) : AM AppError A := erring Anyhow m.
Definition internally {A} (m : AM str A) : AM AppError A := erring Internal m.
(** [if cond { return Err(e) }]. *)
Definition guard (cond : bool) (e : AppError) : AM AppError unit :=
  if cond then failing e else mret ().
Definition blank (s : str) : bool := bool_decide (trim s = []).

Definition register (body : RegisterRequest) : AM AppError Response :=
  _ ← guard (blank (rr_name body)) (Validation (lit "name is required"));
  _ ← guard (blank (rr_email body)) (Validation (lit "email is required"));
  _ ← guard (str_len (rr_password body) <? 8)%nat (Validation (lit "password must be at least 8 characters"));
  existing ← anyhow (find_by_email (rr_email body));
  _ ← guard (bool_decide (is_Some existing)) (Conflict (lit "email already registered"));
  password_hash ← hash_password Internal (rr_password body);
  user ← anyhow (insert_user (trim (rr_name body)) (trim (rr_email body)) password_hash (lit "teacher"));
  token ← internally (issue_token (u_id user) (lit "auth") None);
  mret (response.created_with_message (lit "registered successfully") (auth_data user token)).

Definition record_failed_login_attempt {E} (email : str) (headers : LoginHeaders) : AM E unit :=
  let ip := match x_forwarded_for headers with Some v => trim (first_of_list v) | None => lit "unknown" end in
  attempted_at ← now_text;
  let metadata := obj [("email", String email); ("ip", String ip);
                       ("user_agent", String (default [] (user_agent headers)));
                       ("attempted_at", String attempted_at)]%string in
  id ← new_v4;
  _ ← attempt (sql (λ now db,
        (Ok (), db <| logs := logs db ++ [mkActivityLog id (lit "failed_login_attempt") metadata now] |>)));
  mret ().

Definition login (headers : LoginHeaders) (body : LoginRequest) : AM AppError Response :=
  _ ← guard (blank (lr_email body)) (Validation (lit "email is required"));
  _ ← guard (bool_decide (lr_password body = [])) (Validation (lit "password is required"));
  found ← anyhow (find_by_email (lr_email body));
  match found with
  | None =>
      _ ← record_failed_login_attempt (lr_email body) headers;
      failing (Unauthorized (lit "invalid credentials"))
  | Some user =>
      verified ← whole (verify_password (lr_password body) (u_password user));
      if verified : bool then
        token ← internally (issue_token (u_id user) (lit "auth") None);
        mret (response.ok_with_message (lit "logged in successfully") (auth_data user token))
      else
        _ ← record_failed_login_attempt (lr_email body) headers;
        failing (Unauthorized (lit "invalid credentials"))
  end.

(** The token of the request, looked up again by the handler. *)
Definition session_token (header : option str) : AM AppError PersonalAccessToken :=
  token ← returning (map_err (λ msg, Unauthorized (lit msg)) (bearer_token header));
  record ← internally (verify_token token);
  ok_or (Unauthorized (lit "invalid token")) record.

Definition logout (header : option str) (principal : Principal) : AM AppError Response :=
  token_record ← session_token header;
  _ ← internally (revoke_token (t_id token_record));
  mret (response.ok_with_message (lit "logged out successfully") (obj [("message", jstr "token revoked")])%string).

Definition me (principal : Principal) : AM AppError Response :=
  found ← anyhow (find_by_id (user_id principal));
  user ← ok_or (NotFound (lit "user not found")) found;
  mret (response.ok (user_resource user)).

Definition refresh (header : option str) (principal : Principal) : AM AppError Response :=
  token_record ← session_token header;
  _ ← internally (revoke_token (t_id token_record));
  new_token ← internally (issue_token (user_id principal) (lit "auth") None);
  mret (response.ok_with_message (lit "token refreshed") (obj [("token", String new_token)])%string).

Definition get_security_question (email : str) : AM AppError Response :=
  _ ← guard (blank email) (Validation (lit "email is required"));
  found ← anyhow (find_by_email email);
  user ← ok_or (NotFound (lit "user not found")) found;
  question ← ok_or (Validation (lit "security question not set for this account")) (u_security_question user);
  mret (response.ok (obj [("security_question", String question)])%string).

Definition verify_and_reset_password (body : VerifyAndResetPasswordRequest) : AM AppError Response :=
  _ ← guard (blank (vr_email body)) (Validation (lit "email is required"));
  _ ← guard (blank (vr_security_answer body)) (Validation (lit "security_answer is required"));
  _ ← guard (str_len (vr_new_password body) <? 8)%nat (Validation (lit "new password must be at least 8 characters"));
  found ← anyhow (find_by_email (vr_email body));
  user ← ok_or (NotFound (lit "user not found")) found;
  stored_answer ← ok_or (Validation (lit "security question not set for this account")) (u_security_answer user);
  verified ← whole (verify_password (vr_security_answer body) stored_answer);
  _ ← guard (negb verified) (Unauthorized (lit "incorrect security answer"));
  new_hash ← hash_password Internal (vr_new_password body);
  _ ← anyhow (update_password (u_id user) new_hash);
  _ ← internally (revoke_all_for_user (u_id user));
  mret (response.ok_with_message (lit "password reset successfully")
          (obj [("message", jstr "all sessions invalidated")])%string).

(** A route without and with a principal: an error becomes its response. *)
Definition open_route (h : AM AppError Response) : AM Response Response := erring into_response h.
Definition guarded_route (header : option str) (h : Principal -> AM AppError Response) : AM Response Response :=
  principal ← principal_of header; open_route (h principal).
End Requests.

(** ** Lemmas: running a request *)

(** No statement to come fails. *)
Definition reachable (s : AuthSt) : Prop := Forall (λ t, fails t = false) (a_ticks s).
(** A read, a draw, or a statement that failed. *)
Record unchanged (s s' : AuthSt) : Prop := {
  un_db : adb s' = adb s;
  un_reachable : reachable s -> reachable s'
}.
#[export] Instance unchanged_preorder : PreOrder unchanged.
Proof. split; [by split|]. intros ??? [] []. split; [congruence|auto]. Qed.

Lemma holds_sql {A} (q : Z -> AuthDb -> outcome db_error A * AuthDb) (Q : outcome db_error A -> AuthSt -> Prop) s :
  (forall s', unchanged s s' ->
     (¬ reachable s -> Q (Err Unavailable) s') /\
     Q (q (a_clock s') (adb s)).1 (s' <| adb := (q (a_clock s') (adb s)).2 |>)) ->
  holds (sql q) Q s.
Proof.
  intros H. unfold holds, sql.
  destruct (match a_ticks s with [] => _ | _ => _ end) as [t rest] eqn:Et. cbn zeta.
  destruct (H (s <| a_ticks := rest |> <| a_clock := a_clock s + Z.of_N (elapsed t) |>)) as [Hf Hq].
  { split; [done|]. unfold reachable. destruct (a_ticks s); injection Et as <- <-; [done|]. by inversion 1. }
  destruct (fails t) eqn:Ef.
  - apply Hf. unfold reachable. destruct (a_ticks s); injection Et as <- <-; [done|]. inversion 1. congruence.
  - cbn [adb a_clock update] in Hq |- *. by destruct (q _ (adb s)).
Qed.
(** A statement that only reads. *)
Lemma holds_read {A} (f : AuthDb -> A) (Q : outcome db_error A -> AuthSt -> Prop) s :
  (forall s', unchanged s s' -> (¬ reachable s -> Q (Err Unavailable) s') /\ Q (Ok (f (adb s))) s') ->
  holds (sql (λ _ db, (Ok (f db), db))) Q s.
Proof.
  intros H. apply holds_sql. intros s' Hs. destruct (H s' Hs) as [Hf Hq]. split; [done|].
  cbn [fst snd]. rewrite <- (un_db _ _ Hs) in Hq |- *. by destruct s'.
Qed.
Lemma holds_erring {S E F A} (f : E -> F) (m : ST S E A) (Q : outcome F A -> S -> Prop) s :
  holds m (λ r s', Q (map_err f r) s') s -> holds (erring f m) Q s.
Proof. unfold holds, erring. by destruct (m s). Qed.
Lemma holds_whole {E A} (o : option A) (Q : outcome E A -> AuthSt -> Prop) s :
  Q (of_panicking o) s -> holds (whole o) Q s.
Proof. done. Qed.
Lemma holds_new_v4 {E} (Q : outcome E uuid -> AuthSt -> Prop) s :
  (forall i s', unchanged s s' -> Q (Ok i) s') -> holds new_v4 Q s.
Proof. intros H. unfold holds, new_v4. destruct (a_uuids s); apply H; [reflexivity|by split]. Qed.
Lemma holds_new_salt {E} (Q : outcome E str -> AuthSt -> Prop) s :
  (forall i s', unchanged s s' -> Q (Ok i) s') -> holds new_salt Q s.
Proof. intros H. unfold holds, new_salt. destruct (a_salts s); apply H; [reflexivity|by split]. Qed.
Lemma holds_guard (cond : bool) e (Q : outcome AppError unit -> AuthSt -> Prop) s :
  (cond = true -> Q (Err e) s) -> (cond = false -> Q (Ok ()) s) -> holds (guard cond e) Q s.
Proof. intros Ht Hf. destruct cond; [by apply Ht|by apply Hf]. Qed.

(** One step of a request: reads, draws and guards branch, the rest is StateM's. *)
Ltac auth_step :=
  lazymatch goal with
  | |- holds (erring _ _) _ _ => apply holds_erring
  | |- holds (anyhow _) _ _ => apply holds_erring
  | |- holds (internally _) _ _ => apply holds_erring
  | |- holds (guard _ _) _ _ => apply holds_guard; intros ?
  | |- holds (whole _) _ _ => apply holds_whole
  | |- holds new_v4 _ _ => apply holds_new_v4; intros ???
  | |- holds new_salt _ _ => apply holds_new_salt; intros ???
  | |- holds (sql (λ _ db, (Ok _, db))) _ _ => apply (holds_read (λ db, _)); intros ??; split; [intros ?|]
  | |- _ => st_step
  end; cbn beta iota.

(** ** Lemmas: tokens *)

Lemma split_once_app c a b : c ∉ a -> split_once c (a ++ c :: b) = Some (a, b).
Proof.
  induction a as [|d a IH]; intros Hc; simpl; [by rewrite Z.eqb_refl|].
  apply not_elem_of_cons in Hc as [Hd Hc]. rewrite (proj2 (Z.eqb_neq _ _)) by done. by rewrite IH.
Qed.
Lemma split_once_Some c s a b : split_once c s = Some (a, b) -> s = a ++ c :: b /\ c ∉ a.
Proof.
  revert a b. induction s as [|d s IH]; intros a b; simpl; [done|].
  destruct (Z.eqb_spec d c) as [->|Hd].
  - intros [= <- <-]. split; [done|]. apply not_elem_of_nil.
  - destruct (split_once c s) as [[x y]|]; simpl; [|done]. intros [= <- <-].
    destruct (IH x y eq_refl) as [-> Hx]. split; [done|]. apply not_elem_of_cons. split; [congruence|done].
Qed.

Lemma bearer_token_Ok header token :
  bearer_token header = Ok token <-> header = Some (lit "Bearer " ++ token) /\ token <> [].
Proof.
  unfold bearer_token, strip_prefix. destruct header as [h|]; [|naive_solver].
  destruct (starts_with (lit "Bearer ") h) eqn:Hh.
  - apply starts_with_iff in Hh as [q ->]. rewrite drop_app_length. split.
    + destruct q; [done|]. by intros [= <-].
    + intros [[= Hq] Hne]. assert (q = token) as -> by done. by destruct token.
  - split; [done|]. intros [Heq _].
    assert (starts_with (lit "Bearer ") h = true) as Ht by (apply starts_with_iff; exists token; congruence).
    congruence.
Qed.

Section TokenFacts.
Context `{DbErrorText} `{Sha256Hex} `{UuidSimple} `{Passwords} `{CaseTables} `{Rfc3339}.

(** The row a bearer's text stands for. *)
Definition row_of_token (token : str) (db : AuthDb) : option PersonalAccessToken :=
  '(id_str, plain) ← split_once 124 token; i ← parse_i64 id_str; matching_token i (hash_token plain) db.

Lemma holds_verify token (Q : outcome str (option PersonalAccessToken) -> AuthSt -> Prop) s :
  (forall s', unchanged s s' ->
     (¬ reachable s -> Q (Err (repo_failed "failed to query token" Unavailable)) s') /\
     Q (Ok (row_of_token token (adb s))) s') ->
  holds (verify_token token) Q s.
Proof.
  intros Hq. unfold verify_token, row_of_token in *.
  destruct (split_once 124 token) as [[id_str plain]|]; simpl in *; [|apply Hq; reflexivity].
  destruct (parse_i64 id_str) as [i|]; simpl in *; [|apply Hq; reflexivity].
  apply holds_erring, (holds_read (matching_token i (hash_token plain))). intros s' Hs. by apply Hq.
Qed.

(** Who a header stands for. *)
Definition identified (header : option str) (db : AuthDb) : option Principal :=
  match bearer_token header with
  | Ok token =>
      t ← row_of_token token db; u ← users db !! t_tokenable_id t; Some (mkPrincipal (u_id u) (u_role u))
  | _ => None
  end.

Lemma holds_principal header s :
  holds (principal_of header) (λ r s', unchanged s s' /\
    match r with
    | Ok p => identified header (adb s) = Some p
    | Err e => re_status e = 401 /\ identified header (adb s) = None \/ re_status e = 500 /\ ¬ reachable s
    | Panic => False
    end) s.
Proof.
  unfold principal_of, identified. repeat auth_step.
  destruct (bearer_token header) as [token|e|] eqn:Eb; cbn [map_err]; [| |].
  2: { split; [reflexivity|]. by left. }
  2: { unfold bearer_token in Eb. by repeat case_match. }
  repeat auth_step. apply holds_verify. intros s1 Hs1. split; [intros Hn; cbn [map_err]; split; [done|]; by right|].
  cbn [map_err]. repeat auth_step. destruct (row_of_token token (adb s)) as [t|]; simpl; [|split; [done|]; by left].
  repeat auth_step. unfold find_by_id. apply holds_erring, (holds_read (λ db, users db !! _)). intros s2 Hs2.
  split; cbn [map_err].
  - intros Hn. split; [by etransitivity|]. right. split; [done|]. intros Hr. by apply Hn, (un_reachable _ _ Hs1).
  - repeat auth_step. rewrite (un_db _ _ Hs1). destruct (users (adb s) !! t_tokenable_id t) as [u|]; simpl;
      (split; [by etransitivity|]); [done|by left].
Qed.

(** The optional extraction agrees with the mandatory one on a reachable database. *)
Lemma optional_principal_identified {E} header s :
  reachable s -> (optional_principal (E:=E) header s).1 = Ok (identified header (adb s)).
Proof.
  intros Hr. assert (holds (optional_principal (E:=E) header) (λ r _, r = Ok (identified header (adb s))) s) as Hh; [|exact Hh].
  unfold optional_principal, identified. destruct (bearer_token header) as [token|e|]; [|by apply holds_ret..].
  assert (holds (verify_token token) (λ r s', r = Ok (row_of_token token (adb s)) /\ unchanged s s') s) as [Hv Hs1].
  { apply holds_verify. intros s1 Hs1. by split. }
  apply holds_bind, holds_attempt. rewrite Hv. set (s1 := (verify_token token s).2) in *. clearbody s1.
  destruct (row_of_token token (adb s)) as [t|]; cbn [mbind option_bind]; [|by apply holds_ret].
  assert (holds (find_by_id (t_tokenable_id t)) (λ r _, r = Ok (users (adb s1) !! t_tokenable_id t)) s1) as Hf.
  { apply holds_erring, (holds_read (λ db, users db !! _)). intros s2 _. split; [|done].
    intros Hn. by destruct (Hn (un_reachable _ _ Hs1 Hr)). }
  unfold holds in Hf. apply holds_bind, holds_attempt. rewrite Hf, (un_db _ _ Hs1).
  by destruct (users (adb s) !! t_tokenable_id t).
Qed.
End TokenFacts.

(** ** The invariant of the tables *)

Record well_formed (db : AuthDb) : Prop := {
  users_keyed : forall i u, users db !! i = Some u -> u_id u = i /\ i < user_seq db;
  emails_unique : forall i j u u', users db !! i = Some u -> users db !! j = Some u' -> u_email u = u_email u' -> i = j;
  tokens_keyed : forall i t, tokens db !! i = Some t -> t_id t = i /\ i < token_seq db /\ t_tokenable_type t = TOKENABLE_TYPE;
  hashes_unique : forall i j t t', tokens db !! i = Some t -> tokens db !! j = Some t' -> t_token t = t_token t' -> i = j
}.

Lemma user_by_email_Some email db u :
  user_by_email email db = Some u -> exists i, users db !! i = Some u /\ u_email u = email.
Proof.
  unfold user_by_email. intros Hu. destruct (filter _ _) as [|[i u'] rest] eqn:E; [done|].
  injection Hu as ->. exists i.
  assert ((i, u) ∈ filter (λ '(_, u), u_email u = email) (map_to_list (users db))) as Hin by (rewrite E; left).
  apply list_elem_of_filter in Hin as [He Hin%elem_of_map_to_list]. done.
Qed.
Lemma user_by_email_None email db i u :
  user_by_email email db = None -> users db !! i = Some u -> u_email u <> email.
Proof.
  unfold user_by_email. intros Hn Hi He.
  assert ((i, u) ∈ filter (λ '(_, u), u_email u = email) (map_to_list (users db))) as Hin.
  { apply list_elem_of_filter. split; [done|]. by apply elem_of_map_to_list. }
  destruct (filter _ _) as [|x rest]; [by apply elem_of_nil in Hin|done].
Qed.
Lemma user_by_email_unique email db i u :
  well_formed db -> users db !! i = Some u -> u_email u = email -> user_by_email email db = Some u.
Proof.
  intros Hwf Hi He. destruct (user_by_email email db) as [u'|] eqn:E.
  - apply user_by_email_Some in E as (j & Hj & He'). assert (i = j) as <- by (eapply (emails_unique _ Hwf); eauto; congruence).
    congruence.
  - by destruct (user_by_email_None _ _ _ _ E Hi).
Qed.

Lemma insert_user_wf name email password role now db :
  well_formed db -> well_formed (insert_user_row name email password role now db).2.
Proof.
  intros [Hu He Ht Hh]. unfold insert_user_row. destruct (negb (user_ok _)); cbn [snd].
  { split; cbn; try done. intros i u Hi. destruct (Hu i u Hi). split; [done|lia]. }
  destruct (bool_decide _ || bool_decide _) eqn:Eb; cbn [snd].
  { split; cbn; try done. intros i u Hi. destruct (Hu i u Hi). split; [done|lia]. }
  apply orb_false_iff in Eb as [Hfree%bool_decide_eq_false Hmail%bool_decide_eq_false].
  assert (user_by_email email db = None) as Hno by (destruct (user_by_email email db); [destruct Hmail; eauto|done]).
  split; cbn; [| |done|done].
  - intros i u. rewrite lookup_insert_Some. intros [[<- <-]|[Hne Hi]]; cbn; [split; [done|lia]|].
    destruct (Hu i u Hi). split; [done|lia].
  - intros i j u u'. rewrite !lookup_insert_Some.
    intros [[<- <-]|[Hi0 Hi]] [[<- <-]|[Hj0 Hj]] Heq; cbn in *; [done| | |by eapply He].
    + by destruct (user_by_email_None _ _ _ _ Hno Hj).
    + by destruct (user_by_email_None _ _ _ _ Hno Hi).
Qed.

Lemma update_user_wf f i now db :
  (forall u, u_id (f u) = u_id u /\ u_email (f u) = u_email u) -> well_formed db ->
  well_formed (match users db !! i with
    | None => (Ok (), db)
    | Some u =>
        let u' := (f u) <| u_updated_at := Some now |> in
        if user_ok u' then (Ok (), db <| users := <[i := u']> (users db) |>) else (Err CheckViolation, db)
    end : outcome db_error unit * AuthDb).2.
Proof.
  intros Hf Hwf. destruct (users db !! i) as [u|] eqn:Ei; [|done]. cbv zeta. destruct (user_ok _); [|done].
  destruct Hwf as [Hu He Ht Hh]. destruct (Hf u) as [Hid Hmail]. split; cbn; [| |done|done].
  - intros j x. rewrite lookup_insert_Some. intros [[<- <-]|[Hne Hj]]; [|by apply Hu]. cbn. rewrite Hid. by apply Hu.
  - intros j k x y. rewrite !lookup_insert_Some.
    intros [[<- <-]|[Hj0 Hj]] [[<- <-]|[Hk0 Hk]] Heq; cbn in *; [done| | |by eapply He];
      rewrite Hmail in Heq; eapply He; eauto.
Qed.

Lemma insert_token_wf user name hash abilities now db :
  well_formed db -> well_formed (insert_token_row user name hash abilities now db).2.
Proof.
  intros [Hu He Ht Hh]. unfold insert_token_row. destruct (negb (varchar 64 hash)); cbn [snd].
  { split; cbn; try done. intros i t Hi. destruct (Ht i t Hi) as (? & ? & ?). split; [done|]. split; [lia|done]. }
  destruct (bool_decide _ || existsb _ _) eqn:Eb; cbn [snd].
  { split; cbn; try done. intros i t Hi. destruct (Ht i t Hi) as (? & ? & ?). split; [done|]. split; [lia|done]. }
  apply orb_false_iff in Eb as [_ Hex].
  assert (forall i t, tokens db !! i = Some t -> t_token t <> hash) as Hno.
  { intros i t Hi Heq. assert (existsb (λ '(_, t'), bool_decide (t_token t' = hash)) (map_to_list (tokens db)) = true) as Hx;
      [|congruence].
    apply existsb_exists. exists (i, t). rewrite <- list_elem_of_In, elem_of_map_to_list. split; [done|]. by apply bool_decide_eq_true. }
  split; cbn; [done|done| |].
  - intros i t. rewrite lookup_insert_Some. intros [[<- <-]|[Hne Hi]]; cbn; [split; [done|]; split; [lia|done]|].
    destruct (Ht i t Hi) as (? & ? & ?). split; [done|]. split; [lia|done].
  - intros i j t t'. rewrite !lookup_insert_Some.
    intros [[<- <-]|[Hi0 Hi]] [[<- <-]|[Hj0 Hj]] Heq; cbn in *; [done| | |by eapply Hh];
      [by destruct (Hno _ _ Hj)|by destruct (Hno _ _ Hi)].
Qed.

Lemma fewer_tokens_wf db m :
  (forall i t, m !! i = Some t -> tokens db !! i = Some t) -> well_formed db -> well_formed (db <| tokens := m |>).
Proof. intros Hm [Hu He Ht Hh]. split; cbn; eauto. Qed.

Lemma holds_conj {S E A} (m : ST S E A) (P Q : outcome E A -> S -> Prop) s :
  holds m P s -> Q (m s).1 (m s).2 -> holds m (λ r s', P r s' /\ Q r s') s.
Proof. by split. Qed.

(** ** Lemmas: what the handlers write *)

(** [UPDATE users], as [update_user] does it. *)
Definition updated_user (f : User -> User) (i now : Z) (db : AuthDb) : outcome db_error unit * AuthDb :=
  match users db !! i with
  | None => (Ok (), db)
  | Some u =>
      let u' := (f u) <| u_updated_at := Some now |> in
      if user_ok u' then (Ok (), db <| users := <[i := u']> (users db) |>) else (Err CheckViolation, db)
  end.
(** The statements that write, on the tables. *)
Inductive wrote : AuthDb -> AuthDb -> Prop :=
| wrote_user name email password role now db : wrote db (insert_user_row name email password role now db).2
| wrote_user_update f i now db :
    (forall u, u_id (f u) = u_id u /\ u_email (f u) = u_email u) -> wrote db (updated_user f i now db).2
| wrote_token user name hash abilities now db : wrote db (insert_token_row user name hash abilities now db).2
| wrote_revocation i db : wrote db (db <| tokens := delete i (tokens db) |>)
| wrote_revocations i db :
    wrote db (db <| tokens := filter (λ '(_, t), belongs i t = false) (tokens db) |>)
| wrote_log l db : wrote db (db <| logs := l |>).

(** A run writes by such statements only. *)
Definition writes (s s' : AuthSt) : Prop := rtc wrote (adb s) (adb s').
#[export] Instance writes_preorder : PreOrder writes.
Proof. split; [intros s; apply rtc_refl|]. intros s1 s2 s3 H1 H2. exact (transitivity (R:=rtc wrote) H1 H2). Qed.

Lemma moves_sql {A} (q : Z -> AuthDb -> outcome db_error A * AuthDb) :
  (forall now db, rtc wrote db (q now db).2) -> moves writes (sql q).
Proof.
  intros Hq s. unfold sql, writes. destruct (match a_ticks s with [] => _ | _ => _ end) as [t rest]. cbn zeta.
  destruct (fails t); [reflexivity|]. cbn [adb a_clock update]. specialize (Hq (a_clock s + Z.of_N (elapsed t)) (adb s)).
  destruct (q _ (adb s)). exact Hq.
Qed.
Lemma moves_write {A} (q : Z -> AuthDb -> outcome db_error A * AuthDb) :
  (forall now db, wrote db (q now db).2) -> moves writes (sql q).
Proof. intros Hq. apply moves_sql. intros now db. apply rtc_once, Hq. Qed.
Lemma moves_read {A} (f : Z -> AuthDb -> A) : moves writes (sql (λ now db, (Ok (f now db), db))).
Proof. apply moves_sql. intros now db. reflexivity. Qed.
Lemma moves_erring {S E F A} (R : S -> S -> Prop) (f : E -> F) (m : ST S E A) : moves R m -> moves R (erring f m).
Proof. intros Hm s. specialize (Hm s). unfold erring. by destruct (m s). Qed.
Lemma moves_catch {S E F A} (R : S -> S -> Prop) (m : ST S F A) : moves R m -> moves R (attempt (E:=E) m).
Proof. intros Hm s. specialize (Hm s). unfold attempt. by destruct (m s) as [[] ?]. Qed.
Lemma moves_guard cond e : moves writes (guard cond e).
Proof. intros s. destruct cond; reflexivity. Qed.
Lemma moves_whole {E A} (o : option A) : moves writes (whole (E:=E) o).
Proof. intros s. reflexivity. Qed.
Lemma moves_new_v4 {E} : moves writes (new_v4 (E:=E)).
Proof. intros s. unfold new_v4. destruct (a_uuids s); apply rtc_refl. Qed.
Lemma moves_new_salt {E} : moves writes (new_salt (E:=E)).
Proof. intros s. unfold new_salt. destruct (a_salts s); apply rtc_refl. Qed.

Ltac write_step :=
  first
    [ moves_step
    | lazymatch goal with
      | |- moves _ (erring _ _) => apply moves_erring
      | |- moves _ (attempt _) => apply moves_catch
      | |- moves _ (guard _ _) => apply moves_guard
      | |- moves _ (whole _) => apply moves_whole
      | |- moves _ new_v4 => apply moves_new_v4
      | |- moves _ new_salt => apply moves_new_salt
      | |- moves _ (sql (insert_user_row _ _ _ _)) => apply moves_write; intros ??; apply wrote_user
      | |- moves _ (sql (insert_token_row _ _ _ _)) => apply moves_write; intros ??; apply wrote_token
      end
    | solve [eauto with moves typeclass_instances]
    | solve [apply moves_read] ].

Section Writing.
Context `{DbErrorText} `{Sha256Hex} `{UuidSimple} `{Passwords} `{CaseTables} `{Rfc3339}.

Lemma verify_token_writes token : moves writes (verify_token token).
Proof. unfold verify_token. repeat write_step. Qed.
Lemma issue_token_writes user name abilities : moves writes (issue_token user name abilities).
Proof. unfold issue_token, generate_plain_token. repeat write_step. Qed.
Lemma revoke_token_writes i : moves writes (revoke_token i).
Proof. apply moves_erring, moves_write. intros now db. apply wrote_revocation. Qed.
Lemma revoke_all_writes i : moves writes (revoke_all_for_user i).
Proof. apply moves_erring, moves_write. intros now db. apply wrote_revocations. Qed.
Lemma principal_writes header : moves writes (principal_of header).
Proof. unfold principal_of, find_by_id. repeat first [apply verify_token_writes | write_step]. Qed.
Lemma session_token_writes header : moves writes (session_token header).
Proof. unfold session_token, internally. repeat first [apply verify_token_writes | write_step]. Qed.
Lemma record_failed_writes {E} email headers : moves writes (record_failed_login_attempt (E:=E) email headers).
Proof.
  unfold record_failed_login_attempt, now_text. repeat write_step; [intros s; reflexivity|].
  apply moves_write. intros now db. apply wrote_log.
Qed.
Lemma update_user_writes what f i :
  (forall u, u_id (f u) = u_id u /\ u_email (f u) = u_email u) -> moves writes (update_user what f i).
Proof. intros Hf. apply moves_erring, moves_write. intros now db. by apply (wrote_user_update f i now db). Qed.
End Writing.

(** ** Requests in sequence *)

Section Traffic.
Context `{DbErrorText} `{Sha256Hex} `{UuidSimple} `{Passwords} `{CaseTables} `{Rfc3339}.

(** The requests that touch users or tokens: the endpoints of auth.rs, a change of avatar, and the
    authentication of any other route. *)
Inductive auth_request :=
| Register (body : RegisterRequest)
| Login (headers : LoginHeaders) (body : LoginRequest)
| Logout (header : option str)
| Me (header : option str)
| Refresh (header : option str)
| SecurityQuestion (email : str)
| ResetPassword (body : VerifyAndResetPasswordRequest)
| Avatar (header : option str) (avatar_url : str)
| Elsewhere (header : option str).
Definition serve (q : auth_request) : AM Response Response :=
  match q with
  | Register body => open_route (register body)
  | Login headers body => open_route (login headers body)
  | Logout header => guarded_route header (logout header)
  | Me header => guarded_route header me
  | Refresh header => guarded_route header (refresh header)
  | SecurityQuestion email => open_route (get_security_question email)
  | ResetPassword body => open_route (verify_and_reset_password body)
  | Avatar header avatar_url =>
      guarded_route header (λ principal,
        _ ← internally (update_avatar (user_id principal) avatar_url); mret (response.ok Null))
  | Elsewhere header => guarded_route header (λ _, mret (response.ok Null))
  end.
(** One request, at any instant, with any draws and any failures. *)
Inductive served : AuthDb -> AuthDb -> Prop :=
| served_one q s : served (adb s) (adb (serve q s).2).

Lemma endpoint_writes s :
  (forall body, writes s (register body s).2) /\ (forall headers body, writes s (login headers body s).2) /\
  (forall header p, writes s (logout header p s).2) /\ (forall header p, writes s (refresh header p s).2) /\
  (forall body, writes s (verify_and_reset_password body s).2).
Proof.
  assert (forall m : AM AppError Response, moves writes m -> writes s (m s).2) as Hall by (intros m Hm; apply Hm).
  split; [|split; [|split; [|split]]]; intros; apply Hall; unfold register, login, logout, refresh,
    verify_and_reset_password, anyhow, internally, find_by_email, insert_user, hash_password, update_password;
    repeat first [ apply issue_token_writes | apply revoke_token_writes | apply revoke_all_writes | apply session_token_writes
                 | apply record_failed_writes | (by apply update_user_writes) | write_step ].
Qed.
Lemma guarded_writes header (h : Principal -> AM AppError Response) :
  (forall p, moves writes (h p)) -> moves writes (guarded_route header h).
Proof. intros Hh. unfold guarded_route, open_route. repeat first [apply principal_writes | apply Hh | write_step]. Qed.
Lemma serve_writes q : moves writes (serve q).
Proof.
  destruct q; cbn [serve]; first [apply guarded_writes; intros p | apply moves_erring]; try (intros s; apply endpoint_writes).
  - unfold me, anyhow, find_by_id. repeat write_step.
  - unfold get_security_question, anyhow, find_by_email. repeat write_step.
  - unfold internally, update_avatar. repeat first [by apply update_user_writes | write_step].
  - repeat write_step.
Qed.
Lemma served_wrote db db' : rtc served db db' -> rtc wrote db db'.
Proof.
  induction 1 as [|db1 db2 db3 Hstep _ IH]; [done|]. etransitivity; [|exact IH].
  destruct Hstep as [q s]. exact (serve_writes q s).
Qed.
End Traffic.

(** ** Lemmas: what the tables keep *)

Lemma wrote_wf db db' : wrote db db' -> well_formed db -> well_formed db'.
Proof.
  destruct 1; intros Hwf.
  - by apply insert_user_wf.
  - by apply update_user_wf.
  - by apply insert_token_wf.
  - apply fewer_tokens_wf; [|done]. intros j t. rewrite lookup_delete_Some. tauto.
  - apply fewer_tokens_wf; [|done]. intros j t. rewrite map_lookup_filter_Some. tauto.
  - destruct Hwf as [Hu He Ht Hh]. by split.
Qed.
Lemma writes_wf s s' : writes s s' -> well_formed (adb s) -> well_formed (adb s').
Proof. unfold writes. induction 1 as [|db1 db2 db3 Hstep _ IH]; [done|]. intros Hwf. by eapply IH, wrote_wf. Qed.

Section Invariant.
Context `{DbErrorText} `{Sha256Hex} `{UuidSimple} `{Passwords} `{CaseTables} `{Rfc3339}.
(** A run keeps the tables well formed. *)
Definition keeps_wf (s s' : AuthSt) : Prop := well_formed (adb s) -> well_formed (adb s').
Lemma endpoints_wf s :
  (forall body, keeps_wf s (register body s).2) /\ (forall headers body, keeps_wf s (login headers body s).2) /\
  (forall header p, keeps_wf s (logout header p s).2) /\ (forall header p, keeps_wf s (refresh header p s).2) /\
  (forall body, keeps_wf s (verify_and_reset_password body s).2).
Proof.
  unfold keeps_wf. destruct (endpoint_writes s) as (? & ? & ? & ? & ?).
  split; [|split; [|split; [|split]]]; intros; eapply writes_wf; eauto.
Qed.
End Invariant.

(** The id of a token that is gone is not given again. *)
Definition gone (i : Z) (db : AuthDb) : Prop := i < token_seq db /\ tokens db !! i = None.
Lemma wrote_gone i db db' : wrote db db' -> gone i db -> gone i db'.
Proof.
  unfold gone. intros Hw [Hi Hn]. destruct Hw; cbn [token_seq tokens update].
  - unfold insert_user_row. destruct (negb _); [done|]. by destruct (_ || _).
  - unfold updated_user. destruct (users db !! _); [|done]. cbv zeta. by destruct (user_ok _).
  - unfold insert_token_row. destruct (negb _); cbn; [split; [lia|done]|]. destruct (_ || _); cbn; [split; [lia|done]|].
    rewrite lookup_insert_ne by lia. split; [lia|done].
  - split; [done|]. apply lookup_delete_None. by right.
  - split; [done|]. apply map_lookup_filter_None. by left.
  - done.
Qed.
Lemma served_gone `{DbErrorText} `{Sha256Hex} `{UuidSimple} `{Passwords} `{CaseTables} `{Rfc3339} i db db' :
  rtc served db db' -> gone i db -> gone i db'.
Proof.
  intros Hs%served_wrote. induction Hs as [|db1 db2 db3 Hstep _ IH]; [done|]. intros Hg. by eapply IH, wrote_gone.
Qed.

(** ** Lemmas: issuing and changing *)

Section Outcomes.
Context `{DbErrorText} `{Sha256Hex} `{UuidSimple} `{Passwords} `{CaseTables} `{Rfc3339}.

(** The row of a new token. *)
Definition new_token_row (i uid : Z) (name plain : str) (abilities : option str) (now : Z) : PersonalAccessToken :=
  mkToken i TOKENABLE_TYPE uid name (hash_token plain) abilities None None (Some now) (Some now).
(** What [issue_token] may do to the tables. *)
Definition token_issued (uid : Z) (name : str) (abilities : option str) (r : outcome str str) (db db' : AuthDb) : Prop :=
  users db' = users db /\
  match r with
  | Ok token => exists plain now, token = z_to_string (token_seq db) ++ lit "|" ++ plain /\
      tokens db !! token_seq db = None /\
      tokens db' = <[token_seq db := new_token_row (token_seq db) uid name plain abilities now]> (tokens db)
  | Err _ => tokens db' = tokens db
  | Panic => False
  end.

Lemma insert_token_issued uid name plain abilities now db :
  let '(r, db') := insert_token_row uid name (hash_token plain) abilities now db in
  match r with
  | Ok i => token_issued uid name abilities (Ok (z_to_string i ++ lit "|" ++ plain)) db db'
  | Err _ => users db' = users db /\ tokens db' = tokens db
  | Panic => False
  end.
Proof.
  unfold insert_token_row. destruct (negb _); [done|]. destruct (_ || _) eqn:Eb; [done|].
  apply orb_false_iff in Eb as [Hfree%bool_decide_eq_false _]. split; [done|]. exists plain, now.
  split; [done|]. split; [|done]. destruct (tokens db !! token_seq db); [destruct Hfree; eauto|done].
Qed.

Lemma holds_issue uid name abilities s :
  holds (issue_token uid name abilities) (λ r s',
    (reachable s -> reachable s') /\ token_issued uid name abilities r (adb s) (adb s')) s.
Proof.
  unfold issue_token, generate_plain_token. apply holds_bind, holds_bind, holds_new_v4. intros a s1 Hs1.
  apply holds_bind, holds_new_v4. intros b s2 Hs2. apply holds_ret. cbn beta iota.
  apply holds_bind, holds_erring, holds_sql. intros s3 Hs3.
  rewrite (un_db _ _ Hs2), (un_db _ _ Hs1).
  assert (Hs : unchanged s s3) by (etransitivity; [exact Hs1|]; by etransitivity). split; cbn [map_err].
  - intros Hn. split; [apply Hs|]. unfold token_issued. by rewrite (un_db _ _ Hs).
  - set (plain := uuid_simple a ++ uuid_simple b).
    pose proof (insert_token_issued uid name plain abilities (a_clock s3) (adb s)) as Hi.
    destruct (insert_token_row _ _ _ _ _ _) as [[i|e|] db]; cbn [fst snd map_err]; [| |done].
    + apply holds_ret. split; [intros Hr; by apply (un_reachable _ _ Hs) in Hr|exact Hi].
    + split; [intros Hr; by apply (un_reachable _ _ Hs) in Hr|exact Hi].
Qed.

Lemma verify_after_issue uid name abilities token db db' db2 :
  token_issued uid name abilities (Ok token) db db' -> in_i64 (token_seq db) = true ->
  tokens db2 !! token_seq db = tokens db' !! token_seq db ->
  exists t, row_of_token token db2 = Some t /\ t_tokenable_id t = uid.
Proof.
  intros (_ & plain & now & -> & _ & Ht) Hi Hrow. rewrite Ht, lookup_insert_eq in Hrow.
  exists (new_token_row (token_seq db) uid name plain abilities now). split; [|done].
  unfold row_of_token. change (lit "|") with [124]. cbn [app]. rewrite split_once_app.
  - cbn [mbind option_bind]. rewrite parse_i64_to_string by done. cbn [mbind option_bind].
    unfold matching_token. rewrite Hrow. cbn. by rewrite decide_True.
  - intros Hin. eapply Forall_forall in Hin; [|apply z_to_string_range]. cbn in Hin. lia.
Qed.

(** The rows a logout leaves. *)
Lemma row_of_token_spec token db t :
  row_of_token token db = Some t -> exists id_str plain i, (token = id_str ++ lit "|" ++ plain) /\ parse_i64 id_str = Some i /\
    tokens db !! i = Some t /\ t_token t = hash_token plain.
Proof.
  unfold row_of_token. destruct (split_once 124 token) as [[a b]|] eqn:Es; [|done]. cbn [mbind option_bind].
  apply split_once_Some in Es as [-> _]. destruct (parse_i64 a) as [i|] eqn:Ei; [|done]. cbn [mbind option_bind].
  unfold matching_token. destruct (tokens db !! i) as [t'|] eqn:Et; [|done]. cbn [mbind option_bind].
  case_decide; [|done]. intros [= <-]. by exists a, b, i.
Qed.
(** Two databases in which a bearer's row is the same up to its expiry, its type and its abilities. *)
Lemma row_of_token_ext token db db2 t :
  row_of_token token db = Some t ->
  (forall i, tokens db !! i = Some t -> exists t2, tokens db2 !! i = Some t2 /\ t_token t2 = t_token t /\
     t_tokenable_id t2 = t_tokenable_id t) ->
  exists t2, row_of_token token db2 = Some t2 /\ t_tokenable_id t2 = t_tokenable_id t.
Proof.
  unfold row_of_token. destruct (split_once 124 token) as [[a b]|]; [|done]. cbn [mbind option_bind].
  destruct (parse_i64 a) as [i|]; [|done]. cbn [mbind option_bind].
  unfold matching_token. destruct (tokens db !! i) as [t'|] eqn:Et; [|done]. cbn [mbind option_bind].
  case_decide as Hh; [|done]. intros [= ->] Hall. destruct (Hall i Et) as (t2 & Ht2 & Heq & Hid). exists t2.
  rewrite Ht2. cbn. by rewrite decide_True by congruence.
Qed.
Lemma revoked_row token db i t :
  row_of_token token db = Some t -> well_formed db -> t_id t = i -> i < token_seq db /\ forall db', tokens db' !! i = None -> row_of_token token db' = None.
Proof.
  unfold row_of_token. destruct (split_once 124 token) as [[a b]|]; [|done]. cbn [mbind option_bind].
  destruct (parse_i64 a) as [j|]; [|done]. cbn [mbind option_bind]. unfold matching_token.
  destruct (tokens db !! j) as [t'|] eqn:Et; [|done]. cbn [mbind option_bind]. case_decide; [|done].
  intros [= ->] Hwf <-. destruct (tokens_keyed _ Hwf _ _ Et) as (-> & Hlt & _). split; [done|]. intros db' Hn. by rewrite Hn.
Qed.
End Outcomes.

(** ** Lemmas: the endpoints *)

Section Endpoints.
Context `{DbErrorText} `{Sha256Hex} `{UuidSimple} `{Passwords} `{CaseTables} `{Rfc3339}.

Lemma identified_unauthorized header s :
  reachable s -> identified header (adb s) = None ->
  exists e s', principal_of header s = (Err e, s') /\ re_status e = 401.
Proof.
  intros Hr Hn. pose proof (holds_principal header s) as [_ Hp]. unfold holds in Hp.
  destruct (principal_of header s) as [[p|e|] s']; cbn [fst snd] in Hp; [congruence| |done].
  destruct Hp as [[? _]|[_ ?]]; [by exists e, s'|done].
Qed.
Lemma identified_authenticated header s p :
  reachable s -> identified header (adb s) = Some p -> exists s', principal_of header s = (Ok p, s') /\ adb s' = adb s.
Proof.
  intros Hr Hn. pose proof (holds_principal header s) as [Hs Hp]. unfold holds in *.
  destruct (principal_of header s) as [[q|e|] s']; cbn [fst snd] in *; [| |done].
  - exists s'. split; [congruence|apply Hs].
  - destruct Hp as [[_ ?]|[_ ?]]; [congruence|done].
Qed.

(** Both handlers that look the session up again find the row of the principal's token. *)
Lemma holds_session header (Q : outcome AppError PersonalAccessToken -> AuthSt -> Prop) s :
  (forall s' token, unchanged s s' -> header = Some (lit "Bearer " ++ token) ->
     match row_of_token token (adb s) with
     | Some t => Q (Ok t) s'
     | None => Q (Err (Unauthorized (lit "invalid token"))) s'
     end) ->
  (forall s' e, unchanged s s' -> Q (Err e) s') ->
  holds (session_token header) Q s.
Proof.
  intros Hok Herr. unfold session_token. apply holds_bind, holds_returning.
  destruct (bearer_token header) as [token|e|] eqn:Eb; cbn [map_err].
  - apply bearer_token_Ok in Eb as [-> _]. apply holds_bind, holds_erring, holds_verify. intros s1 Hs1. cbn [map_err].
    split; [intros _; by apply Herr|]. apply holds_ok_or. specialize (Hok s1 token Hs1 eq_refl).
    by destruct (row_of_token token (adb s)).
  - apply Herr. reflexivity.
  - unfold bearer_token in Eb. by repeat case_match.
Qed.

(** A request that was answered had a principal, and its handler ran after the extraction. *)
Lemma guarded_route_Ok header h r s s' :
  guarded_route header h s = (Ok r, s') ->
  exists p s1, principal_of header s = (Ok p, s1) /\ unchanged s s1 /\ identified header (adb s) = Some p /\
    h p s1 = (Ok r, s').
Proof.
  unfold guarded_route, mbind, ST_bind. pose proof (holds_principal header s) as [Hs Hp]. unfold holds in *.
  destruct (principal_of header s) as [[p|e|] s1]; [|done|done]. cbn [fst snd] in *.
  unfold open_route, erring. intros Hrun. exists p, s1. split; [done|]. split; [done|]. split; [done|].
  destruct (h p s1) as [[r'|e|] s2]; [|done|done]. cbn in Hrun. congruence.
Qed.
End Endpoints.

Section Sessions.
Context `{DbErrorText} `{Sha256Hex} `{UuidSimple} `{Passwords} `{CaseTables} `{Rfc3339}.

Lemma identified_none token db : row_of_token token db = None -> identified (Some (lit "Bearer " ++ token)) db = None.
Proof.
  intros Hn. unfold identified. destruct (bearer_token _) as [token'|e|] eqn:Eb; [|done|done].
  apply bearer_token_Ok in Eb as [Eb _]. injection Eb as ->. by rewrite Hn.
Qed.

Lemma holds_revoke i (Q : outcome str unit -> AuthSt -> Prop) s :
  (forall s' r, (reachable s -> reachable s') -> users (adb s') = users (adb s) -> token_seq (adb s') = token_seq (adb s) ->
     match r with Ok _ => tokens (adb s') = delete i (tokens (adb s)) | _ => tokens (adb s') = tokens (adb s) end ->
     Q r s') ->
  holds (revoke_token i) Q s.
Proof.
  intros Hq. apply holds_erring, holds_sql. intros s1 [Hdb Hr]. split; [intros _|]; cbn [fst snd map_err].
  - apply Hq; [done|by rewrite Hdb..].
  - apply Hq; done.
Qed.

(** The token of a request is gone, and so is everybody it stood for. *)
Definition session_gone (header : option str) (db : AuthDb) : Prop :=
  exists i, gone i db /\ forall db', tokens db' !! i = None -> identified header db' = None.

(** After a logout or a refresh the old token stands for nobody. *)
Lemma holds_logout header p s :
  well_formed (adb s) ->
  holds (logout header p) (λ r s', match r with Ok _ => session_gone header (adb s') | _ => True end) s.
Proof.
  intros Hwf. unfold logout. apply holds_bind, holds_session; [|done]. intros s1 token Hs1 ->.
  destruct (row_of_token token (adb s)) as [t|] eqn:Et; [|done].
  apply holds_bind, holds_erring, holds_revoke. intros s2 [u|e|] _ _ Hq Ht; [|done|done]. apply holds_ret.
  destruct (revoked_row _ _ _ _ Et Hwf eq_refl) as [Hlt Hnone]. rewrite (un_db _ _ Hs1) in Hq, Ht.
  exists (t_id t). split; [split; [by rewrite Hq|by rewrite Ht, lookup_delete_eq]|].
  intros db' Hn. by apply identified_none, Hnone.
Qed.
Lemma holds_refresh header p s :
  well_formed (adb s) ->
  holds (refresh header p) (λ r s', match r with
    | Ok resp => session_gone header (adb s') /\ exists token,
        resp = response.ok_with_message (lit "token refreshed") (obj [("token", String token)])%string /\
        exists db, token_seq db = token_seq (adb s) /\ token_issued (user_id p) (lit "auth") None (Ok token) db (adb s') /\
          users db = users (adb s)
    | _ => True end) s.
Proof.
  intros Hwf. unfold refresh. apply holds_bind, holds_session; [|done]. intros s1 token Hs1 ->.
  destruct (row_of_token token (adb s)) as [t|] eqn:Et; [|done].
  apply holds_bind, holds_erring, holds_revoke. intros s2 [u|e|] _ Hu Hq Ht; [|done|done]. cbn [map_err].
  apply holds_bind, holds_erring. eapply holds_mono.
  { exact (holds_conj _ _ (λ _ s3, writes s2 s3) _ (holds_issue (user_id p) (lit "auth") None s2)
             (issue_token_writes (user_id p) (lit "auth") None s2)). }
  intros [token'|e|] s3 [[_ Hi] Hw]; cbn [map_err]; [|done|done]. apply holds_ret.
  rewrite (un_db _ _ Hs1) in Hu, Hq, Ht. destruct (revoked_row _ _ _ _ Et Hwf eq_refl) as [Hlt Hnone]. split.
  - exists (t_id t). split; [|intros db' Hn; by apply identified_none, Hnone].
    assert (Hg : gone (t_id t) (adb s2)) by (split; [by rewrite Hq|by rewrite Ht, lookup_delete_eq]).
    clear -Hw Hg. unfold writes in Hw. induction Hw as [|db1 db2 db3 Hstep _ IH]; [done|]. by eapply IH, wrote_gone.
  - exists token'. split; [done|]. exists (adb s2). split; [done|]. split; [exact Hi|done].
Qed.

(** The effect of a password reset. *)
Lemma holds_reset body s :
  well_formed (adb s) ->
  holds (verify_and_reset_password body) (λ r s', match r with
    | Ok _ => exists i u answer hash salt, users (adb s) !! i = Some u /\ u_email u = vr_email body /\
        u_security_answer u = Some answer /\ verify_password (vr_security_answer body) answer = Some true /\
        argon2_hash salt (utf8_encode (vr_new_password body)) = Ok hash /\
        (exists u', users (adb s') !! i = Some u' /\ u_password u' = hash /\ u_email u' = u_email u) /\
        forall j t, tokens (adb s') !! j = Some t -> t_tokenable_id t <> i
    | _ => True end) s.
Proof.
  intros Hwf. unfold verify_and_reset_password.
  apply holds_bind, holds_guard; [done|intros _]. apply holds_bind, holds_guard; [done|intros _].
  apply holds_bind, holds_guard; [done|intros _].
  apply holds_bind, holds_erring, holds_erring, (holds_read (user_by_email (vr_email body))). intros s1 Hs1.
  split; [done|]. cbn [map_err]. apply holds_bind, holds_ok_or.
  destruct (user_by_email (vr_email body) (adb s)) as [u|] eqn:Eu; [|done].
  apply user_by_email_Some in Eu as (i & Hi & Hmail).
  apply holds_bind, holds_ok_or. destruct (u_security_answer u) as [answer|] eqn:Ea; [|done].
  apply holds_bind, holds_whole. destruct (verify_password _ answer) as [verified|] eqn:Ev; [|done]. cbn [of_panicking].
  apply holds_bind, holds_guard; [done|]. intros Hv. destruct verified; [|done].
  apply holds_bind. unfold hash_password. apply holds_bind, holds_new_salt. intros salt s2 Hs2.
  apply holds_returning. destruct (argon2_hash salt _) as [hash|e|] eqn:Eh; [|done|done]. cbn [map_err].
  assert (Hdb : adb s2 = adb s) by (by rewrite (un_db _ _ Hs2), (un_db _ _ Hs1)).
  apply holds_bind, holds_erring, holds_erring, holds_sql. intros s3 Hs3. split; [done|].
  destruct (users_keyed _ Hwf _ _ Hi) as [Hid _]. rewrite Hdb, Hid, Hi. cbv zeta.
  destruct (user_ok _); [|done]. cbn [fst snd map_err].
  apply holds_bind, holds_erring, holds_erring, holds_sql. intros s4 Hs4. split; [done|]. cbn [fst snd map_err].
  apply holds_ret. exists i, u, answer, hash, salt. do 5 (split; [done|]). cbn [adb update users tokens].
  split.
  - eexists. split; [apply lookup_insert_eq|]. done.
  - intros j t Ht. change (filter (λ '(_, t), belongs i t = false) (tokens (adb s)) !! j = Some t) in Ht.
    apply map_lookup_filter_Some in Ht as [Ht Hb]. destruct (tokens_keyed _ Hwf _ _ Ht) as (_ & _ & Hty).
    unfold belongs in Hb. rewrite (bool_decide_true _ Hty), andb_true_r in Hb. by apply bool_decide_eq_false in Hb.
Qed.

(** A token that was issued stands for its user while both rows are there. *)
Lemma refreshed_authenticates header s1 p token db db' s2 :
  well_formed (adb s1) -> identified header (adb s1) = Some p -> in_i64 (token_seq db) = true ->
  users db = users (adb s1) -> token_issued (user_id p) (lit "auth") None (Ok token) db db' ->
  tokens db' ⊆ tokens (adb s2) -> users db' ⊆ users (adb s2) -> reachable s2 ->
  exists s4, principal_of (Some (lit "Bearer " ++ token)) s2 = (Ok p, s4).
Proof.
  intros Hwf Hid Hids Hu Hi Hts Hus Hreach.
  assert (Hrow : tokens (adb s2) !! token_seq db = tokens db' !! token_seq db).
  { destruct Hi as (_ & plain & now & _ & _ & Ht). rewrite Ht, lookup_insert_eq. eapply lookup_weaken; [|exact Hts].
    by rewrite Ht, lookup_insert_eq. }
  destruct (verify_after_issue _ _ _ _ _ _ (adb s2) Hi Hids Hrow) as (t & Ht & Hown).
  destruct (identified_authenticated (Some (lit "Bearer " ++ token)) s2 p) as (s4 & Hrun4 & _); [done| |by exists s4].
  unfold identified in Hid |- *. rewrite (proj2 (bearer_token_Ok _ token)).
  2: { split; [done|]. destruct Hi as (_ & plain & now & -> & _). by destruct (z_to_string (token_seq db)). }
  rewrite Ht. cbn [mbind option_bind]. rewrite Hown. destruct Hi as [Hu2 _].
  destruct (bearer_token header) as [tok|e|]; [|done|done]. destruct (row_of_token tok (adb s1)) as [t0|]; [|done].
  cbn [mbind option_bind] in Hid. destruct (users (adb s1) !! t_tokenable_id t0) as [u|] eqn:Eu; [|done].
  cbn [mbind option_bind] in Hid. injection Hid as <-. cbn [user_id].
  destruct (users_keyed _ Hwf _ _ Eu) as [Hkey _]. rewrite Hkey.
  rewrite (lookup_weaken (users db') _ _ u); [|by rewrite Hu2, Hu|exact Hus]. cbn. by rewrite Hkey.
Qed.
End Sessions.

Section LoginFacts.
Context `{DbErrorText} `{Sha256Hex} `{UuidSimple} `{Passwords} `{CaseTables} `{Rfc3339}.

Lemma attempt_ok {S E F A} (m : ST S F A) (s : S) : (m s).1 <> Panic -> exists o, (attempt (E:=E) m s).1 = Ok o.
Proof. unfold attempt. destruct (m s) as [[a|e|] s']; [eauto..|done]. Qed.

Lemma record_failed_returns {E} email headers s : (record_failed_login_attempt (E:=E) email headers s).1 = Ok ().
Proof.
  assert (holds (record_failed_login_attempt (E:=E) email headers) (λ r _, r = Ok ()) s) as Hh; [|exact Hh].
  unfold record_failed_login_attempt. apply holds_bind. unfold now_text, holds at 1. cbn [fst snd].
  apply holds_bind, holds_new_v4. intros i s1 Hs1. apply holds_bind, holds_attempt.
  unfold sql. destruct (match a_ticks s1 with [] => _ | _ => _ end) as [t rest]. cbn zeta. destruct (fails t); apply holds_ret; done.
Qed.

(** What a login with an address and a password comes to on a reachable database. *)
Definition login_answers (body : LoginRequest) (db : AuthDb) (r : outcome AppError Response) : Prop :=
  match user_by_email (lr_email body) db with
  | None => r = Err (Unauthorized (lit "invalid credentials"))
  | Some u =>
      match verify_password (lr_password body) (u_password u) with
      | Some true =>
          (exists token, r = Ok (response.ok_with_message (lit "logged in successfully") (auth_data u token))) \/
          exists msg, r = Err (Internal msg)
      | Some false => r = Err (Unauthorized (lit "invalid credentials"))
      | None => r = Panic
      end
  end.

Lemma login_spec headers body s :
  reachable s -> trim (lr_email body) <> [] -> lr_password body <> [] ->
  login_answers body (adb s) (login headers body s).1.
Proof.
  intros Hr Hmail Hpw.
  assert (holds (login headers body) (λ r _, login_answers body (adb s) r) s) as Hh; [|exact Hh].
  unfold login. apply holds_bind, holds_guard.
  { intros Hb%bool_decide_eq_true. done. }
  intros _. apply holds_bind, holds_guard; [by intros Hb%bool_decide_eq_true|]. intros _.
  apply holds_bind, holds_erring, holds_erring, (holds_read (user_by_email (lr_email body))). intros s1 Hs1. split; [done|].
  cbn [map_err]. unfold login_answers. destruct (user_by_email (lr_email body) (adb s)) as [u|].
  - apply holds_bind, holds_whole. destruct (verify_password _ _) as [[]|]; cbn [of_panicking]; [| |done].
    + apply holds_bind, holds_erring. eapply holds_mono; [apply holds_issue|]. intros [token|e|] s2 [_ Hi]; cbn [map_err].
      * apply holds_ret. left. by eexists.
      * right. by eexists.
      * by destruct Hi.
    + apply holds_bind. eapply run_holds; [apply surjective_pairing|]. rewrite record_failed_returns. by apply holds_failing.
  - apply holds_bind. eapply run_holds; [apply surjective_pairing|]. rewrite record_failed_returns. by apply holds_failing.
Qed.

(** What a registration leaves. *)
Lemma holds_register body s :
  holds (register body) (λ r s', match r with
    | Ok _ => trim (rr_email body) <> [] /\ (8 <= str_len (rr_password body))%nat /\
        user_by_email (rr_email body) (adb s) = None /\
        exists u salt, argon2_hash salt (utf8_encode (rr_password body)) = Ok (u_password u) /\
          u_email u = trim (rr_email body) /\ u_role u = lit "teacher" /\ u_id u = user_seq (adb s) /\
          users (adb s') = <[user_seq (adb s) := u]> (users (adb s))
    | _ => True end) s.
Proof.
  unfold register. apply holds_bind, holds_guard; [done|intros _]. apply holds_bind, holds_guard; [done|].
  intros Hmail%bool_decide_eq_false. apply holds_bind, holds_guard; [done|]. intros Hlen%Nat.ltb_ge.
  apply holds_bind, holds_erring, holds_erring, (holds_read (user_by_email (rr_email body))). intros s1 Hs1. split; [done|].
  cbn [map_err]. apply holds_bind, holds_guard; [done|]. intros Hnone%bool_decide_eq_false.
  apply holds_bind. unfold hash_password. apply holds_bind, holds_new_salt. intros salt s2 Hs2.
  apply holds_returning. destruct (argon2_hash salt _) as [hash|e|] eqn:Eh; [|done|done]. cbn [map_err].
  assert (Hdb : adb s2 = adb s) by (by rewrite (un_db _ _ Hs2), (un_db _ _ Hs1)).
  apply holds_bind, holds_erring, holds_erring, holds_sql. intros s3 Hs3. split; [done|]. rewrite Hdb.
  unfold insert_user_row. cbv zeta. destruct (negb _); [done|]. destruct (_ || _); [done|]. cbn [fst snd map_err].
  apply holds_bind, holds_erring. eapply holds_mono; [apply holds_issue|].
  intros [token|e|] s4 [_ Hi]; cbn [map_err]; [|done|done]. apply holds_ret.
  split; [exact Hmail|]. split; [exact Hlen|]. split.
  { destruct (user_by_email _ _); [|done]. exfalso. apply Hnone. eauto. }
  destruct Hi as [Hu _]. eexists (mkUser _ _ _ _ hash _ _ _ _ _ _ _ _), salt. split; [exact Eh|].
  split; [|split; [|split; [|rewrite Hu; reflexivity]]]; reflexivity.
Qed.
End LoginFacts.

(** ** Properties *)

(** C18. A token round-trips: what [issue_token] gave out, presented as a bearer token later, on a
    reachable database that still has its row, authenticates exactly its user with the user's role,
    and the extraction changes nothing. *)
Theorem issued_token_authenticates `{DbErrorText} `{Sha256Hex} `{UuidSimple} uid name abilities s token s' s2 u
  (Hissue : issue_token uid name abilities s = (Ok token, s'))
  (Hid : in_i64 (token_seq (adb s)) = true)
  (Hrow : tokens (adb s2) !! token_seq (adb s) = tokens (adb s') !! token_seq (adb s))
  (Huser : users (adb s2) !! uid = Some u) (Hreach : reachable s2) :
  exists s3, principal_of (Some (lit "Bearer " ++ token)) s2 = (Ok (mkPrincipal (u_id u) (u_role u)), s3) /\
    adb s3 = adb s2.
Proof.
  apply identified_authenticated; [done|]. pose proof (holds_issue uid name abilities s) as [_ Hi].
  rewrite Hissue in Hi. cbn [fst snd] in Hi.
  destruct (verify_after_issue _ _ _ _ _ _ _ Hi Hid Hrow) as (t & Ht & Hown).
  unfold identified. rewrite (proj2 (bearer_token_Ok _ token)).
  - rewrite Ht. cbn [mbind option_bind]. by rewrite Hown, Huser.
  - split; [done|]. destruct Hi as (_ & plain & now & -> & _). by destruct (z_to_string (token_seq (adb s))).
Qed.

(** C6. Who is authenticated: the header is a bearer token of a stored row whose hash is that of the
    presented secret, and the principal is the user of that row; a request without such a row is
    rejected with 401, and 500 is answered only when a statement fails. Nothing else of the row
    counts: with any expiry, type or abilities in its place the principal is the same. *)
Theorem authentication_sound `{DbErrorText} `{Sha256Hex} `{UuidSimple} header s :
  match principal_of header s with
  | (Ok p, s') =>
      adb s' = adb s /\ exists id_str plain i t u,
        header = Some (lit "Bearer " ++ id_str ++ lit "|" ++ plain) /\ parse_i64 id_str = Some i /\
        tokens (adb s) !! i = Some t /\ t_token t = hash_token plain /\
        users (adb s) !! t_tokenable_id t = Some u /\ p = mkPrincipal (u_id u) (u_role u) /\
        forall s2, reachable s2 -> users (adb s2) = users (adb s) ->
          (forall j, tokens (adb s) !! j = Some t -> exists t2, tokens (adb s2) !! j = Some t2 /\ t_token t2 = t_token t /\
             t_tokenable_id t2 = t_tokenable_id t) ->
          exists s3, principal_of header s2 = (Ok p, s3)
  | (Err e, s') => adb s' = adb s /\ (re_status e = 401 \/ re_status e = 500 /\ ¬ reachable s)
  | (Panic, _) => False
  end.
Proof.
  pose proof (holds_principal header s) as [Hs Hp]. unfold holds in *.
  destruct (principal_of header s) as [[p|e|] s']; cbn [fst snd] in *; [| |done].
  2: { split; [apply Hs|]. destruct Hp as [[? _]|?]; [by left|by right]. }
  split; [apply Hs|]. unfold identified in Hp. destruct (bearer_token header) as [token|e|] eqn:Eb; [|done|done].
  destruct (row_of_token token (adb s)) as [t|] eqn:Et; [|done]. cbn [mbind option_bind] in Hp.
  destruct (users (adb s) !! t_tokenable_id t) as [u|] eqn:Eu; [|done]. cbn [mbind option_bind] in Hp.
  injection Hp as <-. destruct (row_of_token_spec _ _ _ Et) as (id_str & plain & i & -> & Hi & Hrow & Hhash).
  exists id_str, plain, i, t, u. pose proof (proj1 (bearer_token_Ok _ _) Eb) as [-> _].
  do 6 (split; [done|]). intros s2 Hr Hu Hsame.
  destruct (row_of_token_ext _ _ (adb s2) _ Et Hsame) as (t2 & Ht2 & Hown).
  destruct (identified_authenticated (Some (lit "Bearer " ++ id_str ++ lit "|" ++ plain)) s2 (mkPrincipal (u_id u) (u_role u)))
    as (s3 & Hrun & _); [done| |by exists s3].
  unfold identified. rewrite Eb, Ht2. cbn [mbind option_bind]. by rewrite Hown, Hu, Eu.
Qed.



(** A password reset that is answered: the address was of a user whose stored answer accepted the
    given one; afterwards the new password logs in, and no token, however old, authenticates the user
    any more. *)
Lemma reset_ends_all_sessions `{DbErrorText} `{Sha256Hex} `{UuidSimple} `{PasswordLaws} `{CaseTables} `{Rfc3339}
    body s r s' s2
  (Hwf : well_formed (adb s)) (Hrun : verify_and_reset_password body s = (Ok r, s'))
  (Hsame : adb s2 = adb s') (Hreach : reachable s2) :
  exists i u answer, users (adb s) !! i = Some u /\ u_email u = vr_email body /\ u_security_answer u = Some answer /\
    verify_password (vr_security_answer body) answer = Some true /\
    (forall headers, trim (vr_email body) <> [] -> vr_new_password body <> [] ->
       (login headers {| lr_email := vr_email body; lr_password := vr_new_password body |} s2).1
         <> Err (Unauthorized (lit "invalid credentials"))) /\
    forall header p s3, principal_of header s2 = (Ok p, s3) -> user_id p <> i.
Proof.
  pose proof (holds_run _ _ _ _ _ (holds_reset body s Hwf) Hrun) as
    (i & u & answer & hash & salt & Hi & Hmail & Ha & Hv & Hh & (u' & Hu' & Hpw & Hmail') & Hnone).
  assert (well_formed (adb s')) as Hwf'.
  { pose proof (proj2 (proj2 (proj2 (proj2 (endpoints_wf s)))) body Hwf) as Hk. by rewrite Hrun in Hk. }
  exists i, u, answer. do 4 (split; [done|]). rewrite <- Hsame in *. split.
  - intros headers Hne Hpne.
    pose proof (login_spec headers {| lr_email := vr_email body; lr_password := vr_new_password body |} s2 Hreach Hne Hpne) as Hl.
    unfold login_answers in Hl. cbn [lr_email lr_password] in Hl.
    rewrite (user_by_email_unique _ _ i u' Hwf' Hu') in Hl by congruence. rewrite Hpw in Hl. destruct (argon2_roundtrip _ _ _ Hh) as (Hpre & phc & Hphc & Hver).
    unfold verify_password in Hl. rewrite Hpre in Hl. unfold verify_argon2 in Hl. rewrite Hphc, Hver in Hl.
    destruct Hl as [[token ->]|[msg ->]]; done.
  - intros header p s3 Hp Heq. pose proof (holds_principal header s2) as [_ Hid2]. rewrite Hp in Hid2. cbn [fst] in Hid2.
    unfold identified in Hid2. destruct (bearer_token header) as [tok|e|]; [|done|done].
    destruct (row_of_token tok (adb s2)) as [t|] eqn:Et; [|done]. cbn [mbind option_bind] in Hid2.
    destruct (row_of_token_spec _ _ _ Et) as (_ & _ & j & _ & _ & Hrow & _).
    destruct (users (adb s2) !! t_tokenable_id t) as [x|] eqn:Ex; [|done]. cbn [mbind option_bind] in Hid2.
    injection Hid2 as <-. cbn [user_id] in Heq. destruct (users_keyed _ Hwf' _ _ Ex) as [Hk _].
    apply (Hnone _ _ Hrow). congruence.
Qed.

(** A registration that is answered stores the trimmed address, and a login with the registered
    address and password succeeds exactly when that address had no space around it: with one, the
    lookup before the insertion misses the stored address, and so does every login. *)
Lemma registered_can_log_in `{DbErrorText} `{Sha256Hex} `{UuidSimple} `{PasswordLaws} `{CaseTables} `{Rfc3339}
    body s r s' s2 headers
  (Hwf : well_formed (adb s)) (Hrun : register body s = (Ok r, s'))
  (Hsame : adb s2 = adb s') (Hreach : reachable s2) :
  (exists i u, users (adb s2) = <[i := u]> (users (adb s)) /\ users (adb s) !! i = None /\
     u_email u = trim (rr_email body) /\ u_role u = lit "teacher") /\
  ((login headers {| lr_email := rr_email body; lr_password := rr_password body |} s2).1
     = Err (Unauthorized (lit "invalid credentials")) <-> trim (rr_email body) <> rr_email body).
Proof.
  pose proof (holds_run _ _ _ _ _ (holds_register body s) Hrun) as
    (Hne & Hlen & Hnone & u & salt & Hh & Hmail & Hrole & Hid & Hu).
  assert (Hwf' : well_formed (adb s')).
  { pose proof (proj1 (endpoints_wf s) body Hwf) as Hk. by rewrite Hrun in Hk. }
  assert (Hfresh : users (adb s) !! user_seq (adb s) = None).
  { destruct (users (adb s) !! user_seq (adb s)) as [x|] eqn:Ex; [|done].
    destruct (users_keyed _ Hwf _ _ Ex) as [_ Hlt]. lia. }
  rewrite <- Hsame in *. split; [by exists (user_seq (adb s)), u|].
  pose proof (login_spec headers {| lr_email := rr_email body; lr_password := rr_password body |} s2 Hreach Hne) as Hl.
  specialize (Hl ltac:(cbn; intros Hp; rewrite Hp in Hlen; cbn in Hlen; lia)). unfold login_answers in Hl. cbn [lr_email lr_password] in Hl.
  destruct (decide (trim (rr_email body) = rr_email body)) as [Heq|Hneq].
  - split; [|by intros []]. intros Href. rewrite Href in Hl.
    rewrite (user_by_email_unique _ _ (user_seq (adb s)) u Hwf') in Hl; [| |by rewrite Hmail].
    2: { rewrite Hu. apply lookup_insert_eq. }
    destruct (argon2_roundtrip _ _ _ Hh) as (Hpre & phc & Hphc & Hver).
    unfold verify_password in Hl. rewrite Hpre in Hl. unfold verify_argon2 in Hl. rewrite Hphc, Hver in Hl.
    by destruct Hl as [[token ?]|[msg ?]].
  - split; [done|]. intros _. destruct (user_by_email (rr_email body) (adb s2)) as [x|] eqn:Ex; [|exact Hl].
    exfalso. apply user_by_email_Some in Ex as (j & Hj & Hx). rewrite Hu in Hj.
    apply lookup_insert_Some in Hj as [[_ <-]|[_ Hj]]; [congruence|].
    by destruct (user_by_email_None _ _ _ _ Hnone Hj).
Qed.

(** ** Witnesses *)

Module AuthWitness.
#[local] Instance no_text : DbErrorText := λ _, lit "down".
#[local] Instance first_chars : Sha256Hex := λ s, take 64 (s ++ replicate 64 48).
#[local] Instance decimal_simple : UuidSimple := λ i, z_to_string i.
#[local] Existing Instance plain_case.
#[local] Existing Instance decimal_time.
(** A hash that keeps the password after the prefix. *)
#[local] Instance plain_passwords : Passwords := {|
  PhcHash := list Z;
  argon2_hash salt p := Ok (lit "$argon2id$" ++ p);
  phc_new h := strip_prefix (lit "$argon2id$") h;
  argon2_verify p h := bool_decide (p = h);
  bcrypt_verify _ _ := None
|}.
#[local] Instance plain_password_laws : PasswordLaws.
Proof.
  intros salt p h [= <-]. split; [reflexivity|]. exists p. split; [|by apply bool_decide_eq_true].
  cbn [phc_new plain_passwords]. unfold strip_prefix. reflexivity.
Qed.

Lemma run_reachable {E A} (m : AM E A) s r s' : m s = (r, s') -> reachable (m s).2 -> reachable s'.
Proof. by intros ->. Qed.

Definition empty_db : AuthDb := mkAuthDb ∅ ∅ 1 1 [].
Definition fresh : AuthSt := mkAuthSt empty_db 0 [] [11; 12; 13; 14] [lit "salt"].
Lemma empty_wf : well_formed empty_db.
Proof. split; cbn; intros *; by rewrite ?lookup_empty. Qed.
Definition ana : RegisterRequest := {| rr_name := lit "Ana"; rr_email := lit "ana@x.id"; rr_password := lit "rahasia123" |}.
Definition spaced : RegisterRequest := {| rr_name := lit "Ana"; rr_email := lit " ana@x.id"; rr_password := lit "rahasia123" |}.
Definition registered : AuthSt := (register ana fresh).2.
Definition no_headers : LoginHeaders := {| x_forwarded_for := None; user_agent := None |}.
Definition ana_header : option str := Some (lit "Bearer 1|1112").

Lemma registered_wf : well_formed (adb registered).
Proof. apply (proj1 (endpoints_wf fresh) ana empty_wf). Qed.

Lemma issued_token_authenticates_witness :
  exists s3, principal_of ana_header registered = (Ok (mkPrincipal 1 (lit "teacher")), s3) /\ adb s3 = adb registered.
Proof.
  destruct (issue_token 1 (lit "auth") None fresh) as [r s'] eqn:E.
  assert (r = Ok (lit "1|1112")) as -> by (apply (f_equal fst) in E; symmetry in E; etransitivity; [exact E|]; vm_compute; reflexivity).
  apply (issued_token_authenticates 1 (lit "auth") None fresh (lit "1|1112") s' registered
    (mkUser 1 (lit "Ana") (lit "ana@x.id") None (lit "$argon2id$rahasia123") None None (lit "teacher") None None None
       (Some 0) (Some 0)) E).
  - vm_compute. reflexivity.
  - assert (s' = (issue_token 1 (lit "auth") None fresh).2) as -> by (by rewrite E). vm_compute. reflexivity.
  - vm_compute. reflexivity.
  - apply Forall_nil. exact I.
Defined.

(** A token that expired long ago authenticates. *)
Definition expired : AuthSt :=
  registered <| adb := (adb registered) <| tokens := (λ t, t <| t_expires_at := Some (-1) |>) <$> tokens (adb registered) |> |>.
Example expired_token_authenticates : (principal_of ana_header expired).1 = Ok (mkPrincipal 1 (lit "teacher")).
Proof. vm_compute. reflexivity. Qed.

(** The next draws. *)
Definition seeded (s : AuthSt) : AuthSt := mkAuthSt (adb s) (a_clock s) (a_ticks s) [15; 16] (a_salts s).

Lemma registered_can_log_in_witness :
  exists r s', register spaced fresh = (Ok r, s') /\
    (login no_headers {| lr_email := lit " ana@x.id"; lr_password := lit "rahasia123" |} s').1
      = Err (Unauthorized (lit "invalid credentials")).
Proof.
  destruct (register spaced fresh) as [o s'] eqn:E.
  assert (exists r, o = Ok r) as [r ->].
  { apply (f_equal fst) in E. destruct o as [r|e|]; [by exists r|vm_compute in E; discriminate|vm_compute in E; discriminate]. }
  exists r, s'. split; [reflexivity|].
  apply (proj2 (registered_can_log_in spaced fresh r s' s' no_headers empty_wf E eq_refl
    (run_reachable _ _ _ _ E ltac:(vm_compute; constructor)))).
  vm_compute. discriminate.
Defined.

(** Ana with a security answer. *)
Definition answering : AuthSt :=
  registered <| adb := (adb registered) <| users :=
    (λ u, u <| u_security_answer := Some (lit "$argon2id$merah") |>) <$> users (adb registered) |> |>.
Lemma answering_wf : well_formed (adb answering).
Proof.
  destruct registered_wf as [Hu He Ht Hh]. split; cbn; [| |exact Ht|exact Hh].
  - intros i u (x & <- & Hx)%lookup_fmap_Some. exact (Hu i x Hx).
  - intros i j u u' (x & <- & Hx)%lookup_fmap_Some (y & <- & Hy)%lookup_fmap_Some. exact (He i j x y Hx Hy).
Qed.
Definition forgot : VerifyAndResetPasswordRequest :=
  {| vr_email := lit "ana@x.id"; vr_security_answer := lit "merah"; vr_new_password := lit "rahasia456" |}.
Lemma reset_ends_all_sessions_witness :
  exists r s' i, verify_and_reset_password forgot answering = (Ok r, s') /\
    forall header p s3, principal_of header s' = (Ok p, s3) -> user_id p <> i.
Proof.
  destruct (verify_and_reset_password forgot answering) as [o s'] eqn:E.
  assert (exists r, o = Ok r) as [r ->].
  { apply (f_equal fst) in E. destruct o as [r|e|]; [by exists r|vm_compute in E; discriminate|vm_compute in E; discriminate]. }
  destruct (reset_ends_all_sessions forgot answering r s' s' answering_wf E eq_refl
    (run_reachable _ _ _ _ E ltac:(vm_compute; constructor))) as (i & u & answer & _ & _ & _ & _ & _ & Hno).
  exists r, s', i. split; [reflexivity|exact Hno].
Defined.
End AuthWitness.
