(* ===== verification/UserLimit.v ===== *)
(** * Request limits of users and addresses (src/src/auth/middleware.rs)

    Fixed-window counters in Redis: a key per user and route, or per path and address, is incremented
    by each request and expires a window after the first. Both limits let requests through when Redis
    does not answer. *)

From stdpp Require Import base gmap list option strings.
From Stdlib Require Import ZArith Lia.
From S2P Require Import Prelude RustStr Json Text Store Redis Rest.
#[local] Open Scope Z_scope.

(** [u32::from_redis_value]: an error or the number. *)
Class RedisU32 := redis_u32 : redis_value -> str + Z.
Class RedisU32Laws `{RedisU32} := redis_u32_int : forall n, 0 <= n < 2 ^ 32 -> redis_u32 (RInt n) = inr n.

Record RateLimitConfig := mkRateLimitConfig { max_requests : Z; window_seconds : Z }.

Section Limits.
Context `{RedisU32}.

(** INCR on the key, and EXPIRE after the first request of the window: the count, or none when Redis
    is not there or its answer is no number. *)
Definition count_request {E} (key : str) (window_seconds : Z) : W E (option Z) :=
  conn ← pool_get;
  match conn with
  | Ok _ =>
      result ← query (Incr key);
      match result with
      | Ok v =>
          match redis_u32 v with
          | inr count =>
              _ ← (if count =? 1 then _ ← query (Expire key window_seconds); mret () else mret ());
              mret (Some count)
          | inl _ => mret None
          end
      | _ => mret None
      end
  | _ => mret None
  end.

Definition user_limit_key (user_id : Z) (route : str) : str :=
  lit "rate_limit:user:" ++ z_to_string user_id ++ lit ":" ++ route.
Definition too_many_generations (max_requests window_seconds : Z) : Z * list (str * str) * value :=
  (429, [(lit "Retry-After", z_to_string window_seconds)],
   obj [ ("success", Bool false);
         ("error", obj [ ("code", jstr "too_many_requests");
                         ("message", String (lit "Anda telah mencapai batas maksimum generasi (" ++ z_to_string max_requests
                            ++ lit " kali dalam " ++ z_to_string window_seconds
                            ++ lit " detik). Silakan coba lagi nanti."));
                         ("retry_after_seconds", jint window_seconds) ]) ]%string).
Definition check_user_rate_limit (user_id : Z) (route : str) (max_requests window_seconds : Z) :
    W (Z * list (str * str) * value) unit :=
  count ← count_request (user_limit_key user_id route) window_seconds;
  match count with
  | Some c => if max_requests <? c then fail (too_many_generations max_requests window_seconds) else mret ()
  | None => mret ()
  end.

(** [rate_limit_middleware]: an error is the response that ends the request. *)
Definition path_limit (path : str) : option RateLimitConfig :=
  if str_contains path (lit "/auth/register") then Some (mkRateLimitConfig 3 60)
  else if str_contains path (lit "/auth/login") then Some (mkRateLimitConfig 5 60)
  else None.
Definition rate_limit_middleware (redis_pool : bool) (path : str) (x_forwarded_for : option str) : W Response unit :=
  match path_limit path with
  | None => mret ()
  | Some cfg =>
      if negb redis_pool then mret ()
      else
        let client_ip := match x_forwarded_for with Some v => first_of_list v | None => lit "unknown" end in
        let key := lit "rate_limit:" ++ path ++ lit ":" ++ client_ip in
        count ← count_request key (window_seconds cfg);
        match count with
        | Some c =>
            if max_requests cfg <? c then
              fail (mkResponse 429 [(lit "Retry-After", z_to_string (window_seconds cfg))]
                (obj [ ("success", Bool false);
                       ("error", obj [ ("code", jstr "too_many_requests");
                                       ("message", jstr "rate limit exceeded, try again later");
                                       ("retry_after_seconds", jint (window_seconds cfg)) ]) ])%string)
            else mret ()
        | None => mret ()
        end
  end.
End Limits.

(** ** A counter of Redis

    The documented effect of INCR and EXPIRE on one key: a missing or expired key counts from zero,
    without a time to live. *)

Definition counter : Type := option (Z * option Z).
Definition live (now : Z) (c : counter) : counter :=
  match c with Some (_, Some deadline) => if deadline <=? now then None else c | _ => c end.
Definition incremented (now : Z) (c : counter) : Z * counter :=
  match live now c with
  | None => (1, Some (1, None))
  | Some (n, deadline) => (n + 1, Some (n + 1, deadline))
  end.
Definition apply_command (now : Z) (c : counter) (cmd : command) : counter :=
  match cmd, c with Expire _ secs, Some (n, _) => Some (n, Some (now + secs * 1000000000)) | _, _ => c end.

(** A request at an instant, with a Redis that holds the counter; [delivered] says whether its EXPIRE
    arrives. *)
Record request := mkRequest { at_ : Z; delivered : bool }.
Definition redis_holding (now n : Z) (delivered : bool) : World :=
  mkWorld (mkSt ∅ ∅ now now []) [] [inr (RInt n); if delivered then inr (RInt 1) else inl (lit "connection lost")] [] 0 0 0.
Definition serve_request `{RedisU32} (user_id : Z) (route : str) (max window : Z) (c : counter) (q : request) : bool * counter :=
  let '(n, c1) := incremented (at_ q) c in
  let '(r, w) := check_user_rate_limit user_id route max window (redis_holding (at_ q) n (delivered q)) in
  (is_ok r, if delivered q then foldl (apply_command (at_ q)) c1 (issued w) else c1).
Fixpoint serve_requests `{RedisU32} (user_id : Z) (route : str) (max window : Z) (c : counter) (qs : list request) :
    list bool * counter :=
  match qs with
  | [] => ([], c)
  | q :: rest =>
      let '(a, c1) := serve_request user_id route max window c q in
      let '(l, c2) := serve_requests user_id route max window c1 rest in
      (a :: l, c2)
  end.

(** ** Lemmas *)

Section LimitFacts.
Context `{RedisU32Laws}.

(** A check that Redis answers with a count. *)
Lemma serve_request_eq uid route max window c q n c1 :
  incremented (at_ q) c = (n, c1) -> 0 <= n < 2 ^ 32 ->
  serve_request uid route max window c q =
    (negb (max <? n), if (n =? 1) && delivered q then apply_command (at_ q) c1 (Expire (user_limit_key uid route) window) else c1).
Proof.
  intros Hi Hn. unfold serve_request. rewrite Hi. unfold check_user_rate_limit, count_request, mbind, W_bind.
  unfold pool_get, query, redis_holding. cbn -[Z.ltb Z.eqb redis_u32 user_limit_key too_many_generations].
  rewrite redis_u32_int by done. unfold mbind, W_bind.
  destruct (Z.eqb_spec n 1) as [->|Hne]; cbn -[Z.ltb redis_u32 user_limit_key too_many_generations].
  - destruct (delivered q); cbn -[Z.ltb user_limit_key too_many_generations]; destruct (max <? 1); reflexivity.
  - destruct (max <? n); cbn; destruct (delivered q); reflexivity.
Qed.

(** The requests after the first of a window: they are counted on, whatever becomes of an EXPIRE. *)
Lemma serve_requests_eq uid route max window n deadline qs :
  1 <= n -> n + Z.of_nat (length qs) < 2 ^ 32 ->
  (forall d, deadline = Some d -> Forall (λ q, at_ q < d) qs) ->
  serve_requests uid route max window (Some (n, deadline)) qs =
    ((λ k, negb (max <? n + 1 + Z.of_nat k)) <$> seq 0 (length qs), Some (n + Z.of_nat (length qs), deadline)).
Proof.
  revert n. induction qs as [|q qs IH]; intros n Hn Hlen Hd; [cbn; by rewrite Z.add_0_r|].
  cbn [serve_requests length seq] in *.
  assert (incremented (at_ q) (Some (n, deadline)) = (n + 1, Some (n + 1, deadline))) as Hi.
  { unfold incremented, live. destruct deadline as [d|]; [|done].
    specialize (Hd d eq_refl). apply Forall_cons in Hd as [Hq _]. by rewrite (proj2 (Z.leb_gt _ _)). }
  rewrite (serve_request_eq _ _ _ _ _ _ _ _ Hi) by lia.
  rewrite (proj2 (Z.eqb_neq (n + 1) 1)) by lia. cbn [andb].
  rewrite IH; [|lia|lia|].
  - cbn [fmap list_fmap]. f_equal; [|do 2 f_equal; lia]. f_equal; [by rewrite Z.add_0_r|].
    rewrite <- (fmap_S_seq 0), <- list_fmap_compose. apply list_fmap_ext. intros i k _. cbn. do 2 f_equal. lia.
  - intros d Hdd. specialize (Hd d Hdd). by apply Forall_cons in Hd as [_ ?].
Qed.

Lemma first_request uid route max window q :
  serve_request uid route max window None q =
    (negb (max <? 1), Some (1, if delivered q then Some (at_ q + window * 1000000000) else None)).
Proof.
  rewrite (serve_request_eq _ _ _ _ _ _ 1 (Some (1, None))); [|done|lia]. cbn. by destruct (delivered q).
Qed.
End LimitFacts.

(** ** Properties *)

(** C36. The limit of a user, against the documented effect of INCR and EXPIRE: of the requests from the
    first one on, those that come before its window ends are allowed exactly up to the maximum, and
    when the window is over the count starts again. The window is set by the first request alone: when
    that EXPIRE is lost the same holds for requests at any time, so that beyond the maximum every
    request of the user is refused forever. *)
Theorem user_limit_is_a_fixed_window `{RedisU32Laws} uid route max window q qs
  (Hlen : Z.of_nat (length (q :: qs)) < 2 ^ 32)
  (Hwindow : delivered q = true -> Forall (λ q', at_ q' < at_ q + window * 1000000000) qs) :
  let '(allowed, c) := serve_requests uid route max window None (q :: qs) in
  allowed = (λ k, bool_decide (Z.of_nat k < max)) <$> seq 0 (length (q :: qs)) /\
  (delivered q = true -> forall q', at_ q + window * 1000000000 <= at_ q' ->
     serve_request uid route max window c q' = serve_request uid route max window None q') /\
  (delivered q = false -> max <= Z.of_nat (length qs) -> forall q',
     Z.of_nat (length (q :: qs)) + 1 < 2 ^ 32 -> (serve_request uid route max window c q').1 = false).
Proof.
  cbn [serve_requests length] in *. rewrite first_request.
  set (deadline := if delivered q then Some (at_ q + window * 1000000000) else None).
  rewrite serve_requests_eq; [|lia|lia|].
  2: { subst deadline. intros d. destruct (delivered q); [|done]. intros [= <-]. by apply Hwindow. }
  split; [|split].
  - cbn [seq fmap list_fmap]. f_equal.
    + destruct (Z.ltb_spec max 1); case_bool_decide; lia || done.
    + rewrite <- (fmap_S_seq 0), <- list_fmap_compose. apply list_fmap_ext. intros i k _. cbn [compose].
      destruct (Z.ltb_spec max (1 + 1 + Z.of_nat k)); case_bool_decide; lia || done.
  - subst deadline. intros -> q' Hq'. unfold serve_request, incremented, live.
    by rewrite (proj2 (Z.leb_le _ _) Hq').
  - subst deadline. intros -> Hmax q' Hl.
    rewrite (serve_request_eq _ _ _ _ _ _ (1 + Z.of_nat (length qs) + 1) (Some (1 + Z.of_nat (length qs) + 1, None))); [|done|lia].
    cbn [fst]. apply negb_false_iff, Z.ltb_lt. lia.
Qed.

(** ** Witnesses *)

Module UserLimitWitness.
#[local] Instance plain_u32 : RedisU32 := λ v, match v with RInt n => inr n | _ => inl (lit "not a number") end.
#[local] Instance plain_u32_laws : RedisU32Laws.
Proof. by intros n _. Qed.

Definition hour : Z := 3600.
(** Four requests within an hour, two allowed; and the same without the EXPIRE, over years. *)
Lemma user_limit_is_a_fixed_window_witness :
  (serve_requests 7 (lit "r") 2 hour None [mkRequest 0 true; mkRequest 5 true; mkRequest 9 true]).1 = [true; true; false] /\
  forall t, (serve_request 7 (lit "r") 2 hour
    (serve_requests 7 (lit "r") 2 hour None [mkRequest 0 false; mkRequest 5 true; mkRequest 9 true]).2 (mkRequest t true)).1 = false.
Proof.
  split.
  - pose proof (user_limit_is_a_fixed_window 7 (lit "r") 2 hour (mkRequest 0 true) [mkRequest 5 true; mkRequest 9 true]
      ltac:(reflexivity) ltac:(intros _; repeat constructor)) as Hw.
    destruct (serve_requests _ _ _ _ _ _) as [allowed c]. cbn [fst]. rewrite (proj1 Hw). reflexivity.
  - intros t. pose proof (user_limit_is_a_fixed_window 7 (lit "r") 2 hour (mkRequest 0 false) [mkRequest 5 true; mkRequest 9 true]
      ltac:(reflexivity) ltac:(discriminate)) as Hw.
    destruct (serve_requests _ _ _ _ _ _) as [allowed c]. cbn [snd].
    apply (proj2 (proj2 Hw)); [reflexivity|vm_compute; discriminate|reflexivity].
Defined.

(** Without Redis nobody is refused. *)
Example fails_open w :
  (check_user_rate_limit 7 (lit "r") 0 60 (w <| connections := [inl (lit "no pool")] |>)).1 = Ok ().
Proof. reflexivity. Qed.
(** The address is the first entry of a header the client may set. *)
Example another_address_another_count :
  issued (rate_limit_middleware true (lit "/api/v1/auth/login") (Some (lit "1.2.3.4, 9.9.9.9"))
    (redis_holding 0 2 true)).2 = [Incr (lit "rate_limit:/api/v1/auth/login:1.2.3.4")].
Proof. vm_compute. reflexivity. Qed.
End UserLimitWitness.
