(* ===== verification/Webhook.v ===== *)
(** * The completion webhook (src/src/api/rest/media_webhook.rs)

    The renderer reports the end of a job here. The handler authenticates the
    body, finds the generation by its job id, ignores a second report, and
    writes the artifact or the error to the row, in two or three statements that
    are not in one transaction. HMAC, the JSON of the body and the print of a
    timestamp without zone are parameters. *)

From stdpp Require Import base gmap list option strings fin_maps relations.
From Stdlib Require Import ZArith Lia.
From S2P Require Import Prelude RustStr Utf8 Json Floats Lifecycle Store Effects Samples AuditTrail Repo Submission Decision GenerationSpec Workflow Rest.

(** ** The report *)

Record MediaWebhookPayload := {
  wh_job_id : uuid;
  wh_generation_id : uuid;
  wh_status : str;
  wh_s3_object_key : option str;
  wh_presigned_url : option str;
  wh_file_url : option str;
  wh_expires_at : option Z;
  wh_error_code : option str;
  wh_error_message : option str;
  wh_artifact_metadata : option value
}.

(** HMAC-SHA256 of a body under a secret, in hexadecimal. *)
Class HmacSha256Hex := hmac_hex : list Z -> list Z -> str.
(** [serde_json::from_slice::<MediaWebhookPayload>]. *)
Class WebhookJson := decode_webhook : list Z -> str + MediaWebhookPayload.
(** A [NaiveDateTime] as serde prints it. *)
Class NaiveText := naive_to_string : Z -> str.

(** ** Constant-time comparison *)

Definition constant_time_eq (a b : str) : bool :=
  if negb (length (utf8_encode a) =? length (utf8_encode b))%nat then false
  else (foldl (λ result '(ca, cb), Z.lor result (Z.lxor ca cb)) 0%Z
          (zip (utf8_encode a) (utf8_encode b)) =? 0)%Z.

(** ** The handler *)

Section Handler.
Context `{HeapScan} `{UuidPrint} `{DbErrorText} `{HmacSha256Hex} `{WebhookJson} `{NaiveText}.

(** [serde_json::to_value(&payload)]. *)
Definition webhook_value (p : MediaWebhookPayload) : value :=
  obj [ ("job_id", String (uuid_to_string (wh_job_id p)));
        ("generation_id", String (uuid_to_string (wh_generation_id p)));
        ("status", String (wh_status p));
        ("s3_object_key", jopt String (wh_s3_object_key p));
        ("presigned_url", jopt String (wh_presigned_url p));
        ("file_url", jopt String (wh_file_url p));
        ("expires_at", jopt (λ t, String (naive_to_string t)) (wh_expires_at p));
        ("error_code", jopt String (wh_error_code p));
        ("error_message", jopt String (wh_error_message p));
        ("artifact_metadata", default Null (wh_artifact_metadata p)) ].

(** [.map_err(|e| AppError::Internal(format!("...: {e}")))]. *)
Definition internal {A} (what : string) (m : M repo_error A) : M AppError A :=
  mapping (λ e, Internal (lit what ++ lit ": " ++ repo_error_text e)) m.

(** The checks before the database is looked at. *)
Definition authenticate (secret : list Z) (header : option str) (body : list Z) :
    outcome AppError MediaWebhookPayload :=
  match header with
  | None => Err (Unauthorized (lit "Missing X-Webhook-Signature header"))
  | Some signature_header =>
      if negb (constant_time_eq signature_header (hmac_hex secret body)) then
        Err (Unauthorized (lit "Invalid X-Webhook-Signature " ++ [8212%Z]
               ++ lit " payload may have been tampered"))
      else
        match decode_webhook body with
        | inl e => Err (Validation (lit "invalid JSON payload: " ++ e))
        | inr p => Ok p
        end
  end.

(** An hour, in nanoseconds. *)
Definition one_hour : Z := 3600000000000.

Definition complete_job (generation_id : uuid) (payload : MediaWebhookPayload) : M AppError unit :=
  _ ← match wh_s3_object_key payload with
      | Some s3_key =>
          now ← utc_now;
          let expires_at := default (now + one_hour)%Z (wh_expires_at payload) in
          let presigned_url := default [] (wh_presigned_url payload) in
          _ ← internal "failed to update S3 metadata" (update_s3_metadata generation_id
                {| s3_key := s3_key; s3_presigned_download_url := presigned_url;
                   s3_presigned_url_expires_at := expires_at |});
          mret ()
      | None => mret ()
      end;
  _ ← internal "failed to update payload" (update_payloads generation_id
        (default_payloads <| up_generator_service_response := Some (webhook_value payload) |>));
  _ ← internal "failed to update generation status" (update_generation_job_status generation_id
        {| js_generation_job_id := Some (wh_job_id payload); js_generation_status := lit "completed" |});
  mret ().

Definition fail_job (generation_id : uuid) (payload : MediaWebhookPayload) : M AppError unit :=
  _ ← internal "failed to update generation error" (update_generation_error generation_id
        {| ge_code := default (lit "UNKNOWN_ERROR") (wh_error_code payload);
           ge_message := default (lit "no error message provided") (wh_error_message payload) |});
  _ ← internal "failed to update generation status" (update_generation_job_status generation_id
        {| js_generation_job_id := Some (wh_job_id payload); js_generation_status := lit "failed" |});
  mret ().

(** The job of a row is over. *)
Definition finished_job (g : MediaGeneration) : bool :=
  match generation_status g with
  | Some status => bool_decide (status = lit "completed") || bool_decide (status = lit "failed")
  | None => false
  end.

Definition webhook_handler (secret : list Z) (header : option str) (body : list Z) : M AppError value :=
  payload ← lift (authenticate secret header body);
  existing ← internal "failed to find generation by job_id" (find_by_job_id (wh_job_id payload));
  match existing with
  | None => throw (NotFound (lit "no generation found for job_id " ++ uuid_to_string (wh_job_id payload)))
  | Some gen =>
      let generation_id := id gen in
      let gid := String (uuid_to_string generation_id) in
      if finished_job gen then
        mret (obj [ ("received", Bool true); ("generation_id", gid);
                    ("message", jstr "duplicate callback ignored") ])
      else
        _ ← (if decide (wh_status payload = lit "completed") then complete_job generation_id payload
             else if decide (wh_status payload = lit "failed") then fail_job generation_id payload
             else throw (Validation (lit "unsupported webhook status '" ++ wh_status payload
                    ++ lit "' " ++ [8212%Z] ++ lit " must be 'completed' or 'failed'")));
        mret (obj [ ("received", Bool true); ("generation_id", gid);
                    ("status", String (wh_status payload)) ])
  end.
End Handler.

(** ** Lemmas: comparison *)

Lemma xor_fold_zero (l : list (Z * Z)) acc :
  foldl (λ result '(ca, cb), Z.lor result (Z.lxor ca cb)) acc l = 0%Z <->
  acc = 0%Z /\ Forall (λ p, p.1 = p.2) l.
Proof.
  revert acc. induction l as [|[x y] l IH]; intros acc; simpl; [naive_solver|].
  rewrite IH, Z.lor_eq_0_iff, Z.lxor_eq_0_iff, Forall_cons. naive_solver.
Qed.

Lemma zip_equal (l k : list Z) : length l = length k -> Forall (λ p, p.1 = p.2) (zip l k) -> l = k.
Proof.
  revert k. induction l as [|x l IH]; intros [|y k] Hlen Hall; simpl in *; try done.
  apply Forall_cons in Hall as [Hxy Hall]. simpl in Hxy. f_equal; [done|]. apply IH; [lia|done].
Qed.
Lemma zip_same (l : list Z) : Forall (λ p, p.1 = p.2) (zip l l).
Proof. induction l; simpl; constructor; done. Qed.

(** The comparison is equality of the bytes. *)
Lemma constant_time_eq_bytes a b : constant_time_eq a b = true <-> utf8_encode a = utf8_encode b.
Proof.
  unfold constant_time_eq. destruct (Nat.eqb_spec (length (utf8_encode a)) (length (utf8_encode b))) as [Hl|Hl];
    simpl; [|split; [done|congruence]].
  rewrite Z.eqb_eq, xor_fold_zero. split.
  - intros [_ Hall]. by apply zip_equal.
  - intros ->. split; [done|apply zip_same].
Qed.

(** ** Lemmas: what the handler may write *)

(** A row with the columns of the webhook blanked. *)
Definition webhook_frame (r : MediaGeneration) : MediaGeneration :=
  r <| s3_object_key := None |> <| presigned_download_url := None |>
    <| presigned_url_expires_at := None |> <| generator_service_response := None |>
    <| generation_job_id := None |> <| generation_status := None |>
    <| generation_error_code := None |> <| generation_error_message := None |>
    <| updated_at := None |>.

(** Only the webhook columns of row [i] change. *)
Definition reports (i : uuid) (db db' : DB) : Prop :=
  db' = db \/ exists r r', db !! i = Some r /\ db' = <[i := r']> db /\ webhook_frame r' = webhook_frame r.
#[export] Instance reports_preorder i : PreOrder (reports i).
Proof.
  split; [by left|]. intros d1 d2 d3 [->|(r & r1 & Hr & -> & Hf)]; [done|].
  intros [->|(r2 & r3 & Hr2 & -> & Hf2)]; right; [by exists r, r1|].
  rewrite lookup_insert_eq in Hr2. injection Hr2 as <-. exists r, r3. split; [done|].
  split; [apply insert_insert_eq|]. congruence.
Qed.

Lemma row_updated_reports i f s o s' :
  (forall r, webhook_frame (f r) = webhook_frame r) ->
  row_updated i f s o s' -> reports i (committed s) (committed s').
Proof.
  intros Hf (_ & _ & Ho). destruct o as [r'|e|]; [|left; by destruct Ho|done].
  destruct Ho as (r & now & Hr & -> & _ & ->). right. eexists _, _. split; [done|]. split; [done|].
  rewrite <- (Hf r). reflexivity.
Qed.

Lemma update_returning_reports i what who f :
  (forall r, webhook_frame (f r) = webhook_frame r) -> preserves (reports i) (update_returning what who f i).
Proof.
  intros Hf s. eapply row_updated_reports; [exact Hf|]. apply wp_update_returning.
Qed.
Lemma response_reports i v :
  preserves (reports i) (update_payloads i (default_payloads <| up_generator_service_response := Some v |>)).
Proof.
  intros s. apply (row_updated_reports _ (overlay (default_payloads <| up_generator_service_response := Some v |>)) s
    (update_payloads i (default_payloads <| up_generator_service_response := Some v |>) s).1).
  - intros r. reflexivity.
  - apply wp_update_payloads. discriminate.
Qed.

(** Each row is stored under its id. *)
Definition well_keyed (db : DB) : Prop := forall i r, db !! i = Some r -> id r = i.

Section HandlerFacts.
Context `{HeapScanLaws} `{UuidPrint} `{DbErrorText} `{HmacSha256Hex} `{WebhookJson} `{NaiveText}.

Lemma scan_row db r : r ∈ scan db <-> exists i, db !! i = Some r.
Proof.
  rewrite scan_rows, list_elem_of_fmap. split.
  - intros ([i x] & -> & Hx). exists i. by apply elem_of_map_to_list.
  - intros [i Hi]. exists (i, r). split; [done|]. by apply elem_of_map_to_list.
Qed.

Lemma wp_find_by_job_id j s :
  wp (find_by_job_id j) (λ o s', committed s' = committed s /\ (healthy s -> healthy s') /\
    match o with
    | Ok (Some r) => (exists i, committed s !! i = Some r) /\ generation_job_id r = Some j
    | Ok None => forall i r, committed s !! i = Some r -> generation_job_id r <> Some j
    | Err _ => ¬ healthy s
    | Panic => False
    end) s.
Proof.
  unfold find_by_job_id, select_where.
  repeat wp_step; (split; [by same_data_simpl|]); 
    (split; [match goal with Hs : same_data s _ |- _ => exact (healthy_kept _ _ Hs) end|]); [done|].
  destruct (filter _ _) as [|r l] eqn:E; simpl.
  - intros i r Hr Hj. assert (r ∈ filter (λ r, bool_decide (generation_job_id r = Some j) = true) (scan (committed s))) as Hin.
    { apply list_elem_of_filter. split; [by apply bool_decide_eq_true|]. apply scan_row. by exists i. }
    rewrite E in Hin. by apply elem_of_nil in Hin.
  - assert (r ∈ filter (λ r, bool_decide (generation_job_id r = Some j) = true) (scan (committed s))) as Hin.
    { rewrite E. left. }
    apply list_elem_of_filter in Hin as [Hj%bool_decide_eq_true Hin]. split; [by apply scan_row|done].
Qed.

Lemma authenticate_Ok secret header body p :
  authenticate secret header body = Ok p ->
  exists sig, header = Some sig /\ utf8_encode sig = utf8_encode (hmac_hex secret body) /\
    decode_webhook body = inr p.
Proof.
  unfold authenticate. destruct header as [sig|]; [|done].
  destruct (constant_time_eq sig (hmac_hex secret body)) eqn:Hc; [|done]. simpl.
  apply constant_time_eq_bytes in Hc. destruct (decode_webhook body) as [e|q] eqn:Hd; [done|].
  intros [= ->]. by exists sig.
Qed.

Lemma complete_job_reports i p : preserves (reports i) (complete_job i p).
Proof.
  unfold complete_job, internal.
  repeat preserves_step;
    auto using preserves_now, preserves_ret, response_reports with typeclass_instances;
    apply update_returning_reports; reflexivity.
Qed.
Lemma fail_job_reports i p : preserves (reports i) (fail_job i p).
Proof.
  unfold fail_job, internal.
  repeat preserves_step; auto using preserves_ret with typeclass_instances;
    apply update_returning_reports; reflexivity.
Qed.
End HandlerFacts.

(** A change of the table that a genuine report accounts for. *)
Definition reported `{HmacSha256Hex} `{WebhookJson} (secret : list Z) (header : option str) (body : list Z)
    (db db' : DB) : Prop :=
  exists sig p i r r',
    header = Some sig /\ utf8_encode sig = utf8_encode (hmac_hex secret body) /\
    decode_webhook body = inr p /\ (wh_status p = lit "completed" \/ wh_status p = lit "failed") /\
    db !! i = Some r /\ generation_job_id r = Some (wh_job_id p) /\ finished_job r = false /\
    db' = <[i := r']> db /\ webhook_frame r' = webhook_frame r /\ status r' = status r.

Lemma reported_intro `{HmacSha256Hex} `{WebhookJson} secret header body p i r db db' :
  authenticate secret header body = Ok p ->
  wh_status p = lit "completed" \/ wh_status p = lit "failed" ->
  db !! i = Some r -> generation_job_id r = Some (wh_job_id p) -> finished_job r = false ->
  reports i db db' -> db' = db \/ reported secret header body db db'.
Proof.
  intros (sig & Hh & Hsig & Hd)%authenticate_Ok Hst Hi Hjob Hfin [->|(x & r' & Hx & -> & Hf)]; [by left|].
  assert (x = r) as -> by congruence. right. exists sig, p, i, r, r'. do 8 (split; [done|]).
  split; [done|]. exact (f_equal status Hf).
Qed.


(** ** Lemmas: a healthy run *)

Lemma row_updated_healthy i f s o s' r :
  row_updated i f s o s' -> healthy s -> committed s !! i = Some r -> row_ok (f r) = true ->
  exists now, o = Ok ((f r) <| updated_at := Some now |>) /\
    committed s' = <[i := (f r) <| updated_at := Some now |>]> (committed s) /\ healthy s'.
Proof.
  intros (Hh & _ & Ho) Hs Hr Hok. destruct o as [r'|e|]; [| |done].
  - destruct Ho as (x & now & Hx & -> & _ & Hdb). assert (x = r) as -> by congruence.
    exists now. auto.
  - destruct Ho as [_ Hbad]. destruct (Hbad Hs) as [Hn|(_ & x & Hx & Hno)]; [congruence|].
    assert (x = r) as -> by congruence. congruence.
Qed.

Lemma row_ok_s3 p r :
  varchar 1024 (s3_key p) = true -> row_ok r = true -> row_ok (set_s3_metadata p r) = true.
Proof. intros Hv. destruct r. unfold set_s3_metadata. row_ok_split. Qed.
Lemma row_ok_job p r :
  js_generation_status p ∈ [lit "completed"; lit "failed"] -> row_ok r = true ->
  row_ok (set_job_status p r) = true.
Proof.
  intros Hst. assert (varchar_null 20 (Some (js_generation_status p)) = true /\
    generation_status_check (Some (js_generation_status p)) = true) as [H1 H2].
  { rewrite !elem_of_cons, elem_of_nil in Hst. by destruct Hst as [-> | [-> | []]]. }
  destruct r. unfold set_job_status. row_ok_split.
Qed.
Lemma row_ok_generation_error p r :
  varchar 100 (ge_code p) = true -> row_ok r = true -> row_ok (set_generation_error p r) = true.
Proof. intros Hv. destruct r. unfold set_generation_error. row_ok_split. Qed.

(** One update of a healthy run. *)
Ltac healthy_update Hok :=
  eapply wp_mono; [first [apply wp_update_returning | apply wp_update_payloads; discriminate]|];
  let o := fresh "o" in let s' := fresh "s" in let Hu := fresh "Hu" in
  intros o s' Hu; eapply row_updated_healthy in Hu; [| eassumption | eassumption | exact Hok];
  let now := fresh "now" in let Hdb := fresh "Hdb" in let Hs := fresh "Hs" in
  destruct Hu as (now & -> & Hdb & Hs); simpl.

Section HealthyRun.
Context `{HeapScanLaws} `{UuidPrint} `{DbErrorText} `{HmacSha256Hex} `{WebhookJson} `{NaiveText}.

(** What a row must hold once its job was reported by [p]. *)
Definition job_recorded (p : MediaWebhookPayload) (r' : MediaGeneration) : Prop :=
  generation_status r' = Some (wh_status p) /\ generation_job_id r' = Some (wh_job_id p) /\
  (wh_status p = lit "completed" ->
     generator_service_response r' = Some (webhook_value p) /\
     (forall key, wh_s3_object_key p = Some key -> s3_object_key r' = Some key)) /\
  (wh_status p = lit "failed" ->
     generation_error_code r' = Some (default (lit "UNKNOWN_ERROR") (wh_error_code p)) /\
     generation_error_message r' = Some (default (lit "no error message provided") (wh_error_message p))).

Lemma wp_complete_job i p s r :
  healthy s -> committed s !! i = Some r -> row_ok r = true ->
  varchar_null 1024 (wh_s3_object_key p) = true -> wh_status p = lit "completed" ->
  wp (complete_job i p) (λ o s', o = Ok () /\ exists r', committed s' = <[i := r']> (committed s) /\
    job_recorded p r') s.
Proof.
  intros Hs Hi Hok Hkey Hst. unfold complete_job. wp_step.
  apply (wp_mono _ (λ o s1, o = Ok () /\ healthy s1 /\ exists r1, committed s1 = <[i := r1]> (committed s) /\
    row_ok r1 = true /\ (forall key, wh_s3_object_key p = Some key -> s3_object_key r1 = Some key))).
  - destruct (wh_s3_object_key p) as [key|]; [|wp_step; split; [done|]; split; [done|]; exists r;
      rewrite insert_id by done; done].
    wp_step. wp_step. wp_step. unfold internal. wp_step.
    pose proof (row_ok_s3 {| s3_key := key; s3_presigned_download_url := default [] (wh_presigned_url p);
      s3_presigned_url_expires_at := default (time s + one_hour)%Z (wh_expires_at p) |} r Hkey Hok) as Hok1.
    healthy_update Hok1. wp_step. split; [done|]. split; [done|]. eexists. split; [done|].
    split; [by rewrite row_ok_updated|]. intros ? [= <-]. reflexivity.
  - intros o1 s1 (-> & Hs1 & r1 & Hdb1 & Hok1 & Hkey1). simpl. wp_step. unfold internal at 1. wp_step.
    assert (committed s1 !! i = Some r1) as Hi1 by (by rewrite Hdb1, lookup_insert_eq).
    healthy_update Hok1. wp_step. unfold internal. wp_step.
    set (r2 := (overlay _ r1) <| updated_at := _ |>) in *.
    assert (committed s0 !! i = Some r2) as Hi2 by (by rewrite Hdb, lookup_insert_eq).
    assert (row_ok (set_job_status {| js_generation_job_id := Some (wh_job_id p);
      js_generation_status := lit "completed" |} r2) = true) as Hok2.
    { apply row_ok_job; [set_solver|]. subst r2. by rewrite row_ok_updated. }
    healthy_update Hok2. wp_step. split; [done|]. eexists. split; [by rewrite Hdb0, Hdb, Hdb1, !insert_insert_eq|].
    rewrite <- Hst in *. split; [reflexivity|]. split; [reflexivity|]. split; [by split|].
    rewrite Hst. discriminate.
Qed.

Lemma wp_fail_job i p s r :
  healthy s -> committed s !! i = Some r -> row_ok r = true ->
  varchar_null 100 (wh_error_code p) = true -> wh_status p = lit "failed" ->
  wp (fail_job i p) (λ o s', o = Ok () /\ exists r', committed s' = <[i := r']> (committed s) /\
    job_recorded p r') s.
Proof.
  intros Hs Hi Hok Hcode Hst. unfold fail_job. wp_step. unfold internal at 1. wp_step.
  set (e := {| ge_code := _; ge_message := _ |}).
  assert (row_ok (set_generation_error e r) = true) as Hok1.
  { apply row_ok_generation_error; [|done]. subst e. simpl. by destruct (wh_error_code p). }
  healthy_update Hok1. wp_step. unfold internal. wp_step.
  set (r1 := (set_generation_error e r) <| updated_at := _ |>) in *.
  assert (committed s0 !! i = Some r1) as Hi1 by (by rewrite Hdb, lookup_insert_eq).
  assert (row_ok (set_job_status {| js_generation_job_id := Some (wh_job_id p);
    js_generation_status := lit "failed" |} r1) = true) as Hok2.
  { apply row_ok_job; [set_solver|]. subst r1. by rewrite row_ok_updated. }
  healthy_update Hok2. wp_step. split; [done|]. eexists. split; [by rewrite Hdb0, Hdb, insert_insert_eq|].
  rewrite <- Hst in *. split; [reflexivity|]. split; [reflexivity|]. split; [rewrite Hst; discriminate|].
  by split.
Qed.

(** A report for a job that is over. *)
Lemma webhook_ignored secret header body p s :
  authenticate secret header body = Ok p ->
  (forall i r, committed s !! i = Some r -> generation_job_id r = Some (wh_job_id p) -> finished_job r = true) ->
  committed (webhook_handler secret header body s).2 = committed s.
Proof.
  intros Ha Hall. assert (wp (webhook_handler secret header body) (λ _ s', committed s' = committed s) s) as Hwp;
    [|exact Hwp].
  unfold webhook_handler. wp_step. wp_step. rewrite Ha.
  unfold internal at 1. wp_step. wp_step. eapply wp_mono; [apply wp_find_by_job_id|].
  intros [[r|]|e|] s1 (Hdb & _ & Hres); simpl; [|wp_step; done|done|done].
  destruct Hres as [[i Hi] Hjob]. rewrite (Hall i r Hi Hjob). by wp_step.
Qed.
End HealthyRun.

(** ** Lemmas: the webhook and the pipeline *)

Lemma update_returning_advances i what who f :
  (forall r, status (f r) = status r) -> preserves advances (update_returning what who f i).
Proof.
  intros Hf s. pose proof (wp_update_returning what who i f s) as (_ & _ & Ho).
  destruct (update_returning what who f i s).1 as [r'|e|]; [|by destruct Ho as [-> _]|done].
  destruct Ho as (r & now & Hr & -> & _ & ->). eapply advances_insert; [done|]. simpl. rewrite Hf. reflexivity.
Qed.
Lemma response_advances i v :
  preserves advances (update_payloads i (default_payloads <| up_generator_service_response := Some v |>)).
Proof.
  intros s. destruct (wp_update_payloads i (default_payloads <| up_generator_service_response := Some v |>) s)
    as (_ & _ & Ho); [discriminate|].
  destruct (update_payloads i _ s).1 as [r'|e|]; [|by destruct Ho as [-> _]|done].
  destruct Ho as (r & now & Hr & -> & _ & ->). eapply advances_insert; [done|]. reflexivity.
Qed.

Section WithPipeline.
Context `{CaseTables} `{JsonPrint} `{HashOrder} `{Rfc3339Millis} `{UuidText} `{UuidErrorText} `{Rfc3339}.
Context `{HeapScan} `{UuidPrint} `{DbErrorText} `{HmacSha256Hex} `{WebhookJson} `{NaiveText}.

Lemma find_by_job_id_reads R `{!PreOrder R} j : preserves R (find_by_job_id j).
Proof.
  apply preserves_mapping, preserves_execute; [typeclasses eauto|]. intros now db a db' [= _ <-]. reflexivity.
Qed.

Lemma webhook_advances secret header body : preserves advances (webhook_handler secret header body).
Proof.
  unfold webhook_handler, complete_job, fail_job, internal.
  repeat preserves_step;
    eauto using preserves_lift, preserves_now, preserves_ret, preserves_throw, find_by_job_id_reads,
      response_advances with typeclass_instances;
    apply update_returning_advances; reflexivity.
Qed.

(** The same steps when the renderer reports before the submission has returned. *)
Definition reporting (secret : list Z) (header : option str) (body : list Z) (steps : Steps) : Steps :=
  {| interpret := interpret steps; draft := draft steps;
     submit_job := λ g j, _ ← submit_job steps g j;
                          _ ← ignoring_errors (webhook_handler secret header body); mret ();
     publish := publish steps; compose := compose steps |}.

#[export] Instance reporting_keeps secret header body steps :
  StepsPreserve advances steps -> StepsPreserve advances (reporting secret header body steps).
Proof.
  intros Hsteps. split; intros; simpl; [apply interpret_keeps|apply draft_keeps|].
  repeat preserves_step; auto using submit_keeps, webhook_advances, preserves_ret with typeclass_instances.
Qed.
End WithPipeline.
(** ** Properties *)

(** C13. The webhook, whatever statements fail: it changes at most one row, and only for a body whose
    HMAC is the signature header (byte for byte), that decodes to a report of completion or
    failure, when the row carries the job of the report and that job is not over; then only the
    columns of the webhook change, so the lifecycle status of the generation stays what it was. *)
Theorem webhook_safe `{HeapScanLaws} `{UuidPrint} `{DbErrorText} `{HmacSha256Hex} `{WebhookJson} `{NaiveText}
    secret header body s (Hkeys : well_keyed (committed s)) :
  let s' := (webhook_handler secret header body s).2 in
  committed s' = committed s \/ reported secret header body (committed s) (committed s').
Proof.
  cbv zeta. assert (wp (webhook_handler secret header body) (λ _ s', committed s' = committed s \/
    reported secret header body (committed s) (committed s')) s) as Hwp; [|exact Hwp].
  unfold webhook_handler. wp_step. wp_step.
  destruct (authenticate secret header body) as [p|e|] eqn:Ha; [|by left|by left].
  unfold internal at 1. wp_step. wp_step. eapply wp_mono; [apply wp_find_by_job_id|].
  intros [[r|]|e|] s1 (Hdb & _ & Hres); simpl; [|wp_step; by left|by left|done].
  destruct Hres as [[i Hi] Hjob]. rewrite (Hkeys i r Hi).
  destruct (finished_job r) eqn:Hfin; [wp_step; by left|]. rewrite <- Hdb in *. wp_step.
  case_decide as Hc; [|case_decide as Hf; [|wp_step; by left]].
  - eapply wp_mono; [exact (wp_keeps (reports i) _ _ (complete_job_reports i p))|].
    intros [u|e|] s2 Hrep; [wp_step| |]; eapply reported_intro; eauto.
  - eapply wp_mono; [exact (wp_keeps (reports i) _ _ (fail_job_reports i p))|].
    intros [u|e|] s2 Hrep; [wp_step| |]; eapply reported_intro; eauto.
Qed.

(** C7. A genuine report for the open job of one generation, on a reachable database, succeeds: the
    row holds the reported status and the artifact or the error of the report. The job is then over:
    any later report for it, of whatever status, changes nothing. *)
Theorem webhook_finishes_once `{HeapScanLaws} `{UuidPrint} `{DbErrorText} `{HmacSha256Hex} `{WebhookJson} `{NaiveText}
    secret header body p i r s
  (Hs : healthy s) (Hkeys : well_keyed (committed s)) (Hauth : authenticate secret header body = Ok p)
  (Hi : committed s !! i = Some r) (Hok : row_ok r = true)
  (Hjob : generation_job_id r = Some (wh_job_id p)) (Hopen : finished_job r = false)
  (Huniq : forall j x, committed s !! j = Some x -> generation_job_id x = Some (wh_job_id p) -> j = i)
  (Hstatus : wh_status p = lit "completed" \/ wh_status p = lit "failed")
  (Hkey : varchar_null 1024 (wh_s3_object_key p) = true)
  (Hcode : varchar_null 100 (wh_error_code p) = true) :
  exists reply s' r', webhook_handler secret header body s = (Ok reply, s') /\
    committed s' = <[i := r']> (committed s) /\ job_recorded p r' /\
    forall header' body' p' s2, authenticate secret header' body' = Ok p' -> wh_job_id p' = wh_job_id p ->
      committed s2 = committed s' ->
      committed (webhook_handler secret header' body' s2).2 = committed s2.
Proof.
  assert (wp (webhook_handler secret header body) (λ o s', (exists reply, o = Ok reply) /\
    exists r', committed s' = <[i := r']> (committed s) /\ job_recorded p r') s) as Hwp.
  { unfold webhook_handler. wp_step. wp_step. rewrite Hauth.
    unfold internal at 1. wp_step. wp_step. eapply wp_mono; [apply wp_find_by_job_id|].
    intros [[x|]|e|] s1 (Hdb & Hh & Hres); simpl; [|by destruct (Hres i r Hi)|by destruct Hres|done].
    destruct Hres as [[j Hj] Hjx]. assert (j = i) as -> by eauto. assert (x = r) as -> by congruence.
    rewrite (Hkeys i r Hi), Hopen. rewrite <- Hdb in Hi |- *. specialize (Hh Hs). wp_step.
    destruct Hstatus as [Hst|Hst]; [rewrite decide_True by done|rewrite decide_False, decide_True by (rewrite Hst; done)].
    - eapply wp_mono; [by eapply wp_complete_job|]. intros o s2 [-> Hr']. simpl. wp_step. by split; [eexists|].
    - eapply wp_mono; [by eapply wp_fail_job|]. intros o s2 [-> Hr']. simpl. wp_step. by split; [eexists|]. }
  unfold wp in Hwp. destruct (webhook_handler secret header body s) as [o s'].
  simpl in Hwp. destruct Hwp as ([reply ->] & r' & Hdb & Hrec). exists reply, s', r'. split; [done|]. split; [done|].
  split; [done|]. intros header' body' p' s2 Ha Hp' Hs2. eapply webhook_ignored; [exact Ha|].
  intros j x Hj Hjx. rewrite Hs2, Hdb in Hj. rewrite Hp' in Hjx.
  destruct (decide (i = j)) as [<-|Hne].
  - rewrite lookup_insert_eq in Hj. injection Hj as <-. destruct Hrec as (Hgs & _). unfold finished_job.
    rewrite Hgs. by destruct Hstatus as [->| ->].
  - rewrite lookup_insert_ne in Hj by done. destruct Hne. symmetry. eauto.
Qed.

(** A report that arrives before the submission has returned is lost: whatever the webhook wrote
    meanwhile, when [ensure_generated] succeeds the job is marked as processing again. *)
Lemma early_report_is_lost `{CaseTables} `{JsonPrint} `{HashOrder} `{Rfc3339Millis} `{UuidText}
    `{UuidErrorText} `{Rfc3339} `{HeapScan} `{UuidPrint} `{DbErrorText} `{HmacSha256Hex} `{WebhookJson} `{NaiveText}
    secret header body steps g j att jc s s'
  (Hsteps : StepsPreserve advances steps)
  (Hrun : ensure_generated (reporting secret header body steps) g (Some j) att jc s = (Ok (), s')) :
  exists i row, parse_uuid_str g = Some i /\ committed s' !! i = Some row /\
    generation_status row = Some (lit "processing") /\ finished_job row = false.
Proof.
  pose proof (wp_intro _ _ _ _ _ (wp_ensure_generated_job _ g j att jc s) Hrun) as (i & row & Hi & Hrow & Hp).
  exists i, row. split; [done|]. split; [done|]. split; [done|]. unfold finished_job. by rewrite Hp.
Qed.

(** ** Witnesses *)

Module WebhookWitness.
Import DecisionWitness SpecWitness WorkflowWitness.
#[local] Existing Instance plain_case.
#[local] Existing Instance listed_order.
#[local] Existing Instance millis.
#[local] Existing Instance decimal_uuid.
#[local] Existing Instance decimal_uuid_error.
#[local] Existing Instance decimal_print.
#[local] Existing Instance decimal_time.
#[local] Existing Instance no_print.
#[local] Existing Instance table_scan.
#[local] Existing Instance table_scan_laws.
#[local] Instance no_db_text : DbErrorText := λ _, [].
#[local] Instance decimal_naive : NaiveText := z_to_string.
#[local] Instance length_hmac : HmacSha256Hex := λ secret body, z_to_string (Z.of_nat (length secret + length body)).

(** The one body that decodes is a report of completion of job 9. *)
Definition report : MediaWebhookPayload := {|
  wh_job_id := 9; wh_generation_id := 1; wh_status := lit "completed";
  wh_s3_object_key := Some (lit "k"); wh_presigned_url := None; wh_file_url := None;
  wh_expires_at := None; wh_error_code := None; wh_error_message := None; wh_artifact_metadata := None
|}.
#[local] Instance one_report : WebhookJson := λ body, match body with [1%Z] => inr report | _ => inl [] end.

Definition waiting : MediaGeneration :=
  sample_row <| generation_job_id := Some 9%Z |> <| generation_status := Some (lit "processing") |>.
Definition waiting_db : DB := {[ 1%Z := waiting ]}.
Lemma waiting_keyed : well_keyed waiting_db.
Proof. intros i r Hr. unfold waiting_db in Hr. apply lookup_singleton_Some in Hr as [<- <-]. reflexivity. Qed.

Lemma webhook_safe_witness :
  committed (webhook_handler [] (Some (lit "2")) [1%Z] (sample_state waiting_db 0)).2 = waiting_db.
Proof.
  destruct (webhook_safe [] (Some (lit "2")) [1%Z] (sample_state waiting_db 0) waiting_keyed)
    as [Hsame|(sig & p & i & r & r' & Hsig & Heq & _)]; [exact Hsame|].
  exfalso. injection Hsig as <-. vm_compute in Heq. discriminate.
Defined.

Lemma webhook_finishes_once_witness :
  exists reply s' r', webhook_handler [] (Some (lit "1")) [1%Z] (sample_state waiting_db 0) = (Ok reply, s') /\
    committed s' = <[1%Z := r']> waiting_db /\ generation_status r' = Some (lit "completed") /\
    s3_object_key r' = Some (lit "k").
Proof.
  destruct (webhook_finishes_once [] (Some (lit "1")) [1%Z] report 1 waiting (sample_state waiting_db 0))
    as (reply & s' & r' & Hrun & Hdb & (Hst & _ & Hdone & _) & _).
  - apply sample_healthy.
  - exact waiting_keyed.
  - vm_compute. reflexivity.
  - reflexivity.
  - vm_compute. reflexivity.
  - reflexivity.
  - vm_compute. reflexivity.
  - intros j x Hx _. change (waiting_db !! j = Some x) in Hx. unfold waiting_db in Hx. apply lookup_singleton_Some in Hx as [<- _]. reflexivity.
  - left. reflexivity.
  - vm_compute. reflexivity.
  - vm_compute. reflexivity.
  - exists reply, s', r'. split; [exact Hrun|]. split; [exact Hdb|]. split; [exact Hst|].
    apply (proj2 (Hdone eq_refl)). reflexivity.
Defined.

Definition early : Steps := reporting [] (Some (lit "1")) [1%Z] quiet_steps.
Definition pending_db : DB := {[ 1%Z := waiting <| generation_status := Some (lit "pending") |> <| status := lit "classified" |> ]}.
Lemma run_early : exists s', ensure_generated early (lit "1") (Some (lit "9")) 1 None
  (sample_state pending_db 0) = (Ok (), s') /\
  (s3_object_key <$> committed s' !! 1%Z) = Some (Some (lit "k")).
Proof. eexists. split; [vm_compute; reflexivity|]. vm_compute. reflexivity. Qed.

Lemma early_report_is_lost_witness :
  exists s' i row, ensure_generated early (lit "1") (Some (lit "9")) 1 None (sample_state pending_db 0) = (Ok (), s') /\
    committed s' !! i = Some row /\ finished_job row = false /\
    (s3_object_key <$> committed s' !! 1%Z) = Some (Some (lit "k")).
Proof.
  destruct run_early as (s' & Hrun & Hkey).
  destruct (early_report_is_lost [] (Some (lit "1")) [1%Z] quiet_steps (lit "1") (lit "9") 1 None
    (sample_state pending_db 0) s' (quiet_steps_keep advances) Hrun) as (i & row & _ & Hrow & _ & Hopen).
  exists s', i, row. split; [exact Hrun|]. split; [exact Hrow|]. split; [exact Hopen|exact Hkey].
Defined.
End WebhookWitness.
