(* ===== verification/RateLimit.v ===== *)
(** * Rate-limit governance (src/src/governance/rate_limit.rs)

    Policies bound what the LLM routes may spend per fixed window; a bucket per
    policy and window holds the counters. [preflight_check] looks at the buckets
    before a call, [record_usage] adds to them after it. Amounts of money are
    rationals; the NUMERIC(20, 8) columns round them. *)

From stdpp Require Import base gmap list option strings fin_maps.
From Stdlib Require Import ZArith QArith Qround Lia.
From S2P Require Import Prelude RustStr Store.
#[local] Open Scope Z_scope.

(** ** Constants and types *)

Definition ROUTE_ALL : str := lit "all".
Definition ROUTE_INTERPRET : str := lit "interpret".
Definition ROUTE_RESPOND : str := lit "respond".
Definition DIMENSION_WILDCARD : str := lit "*".

Inductive RateLimitRoute := RouteAll | RouteInterpret | RouteRespond.
Definition route_as_str (r : RateLimitRoute) : str :=
  match r with RouteAll => ROUTE_ALL | RouteInterpret => ROUTE_INTERPRET | RouteRespond => ROUTE_RESPOND end.
Definition route_from_str (s : str) : RateLimitRoute :=
  if decide (s = ROUTE_INTERPRET) then RouteInterpret
  else if decide (s = ROUTE_RESPOND) then RouteRespond else RouteAll.

Inductive ScopeType := Global | Route | Provider | Model.
Definition scope_as_str (s : ScopeType) : str :=
  match s with
  | Global => lit "global" | Route => lit "route" | Provider => lit "provider" | Model => lit "model"
  end.

Inductive WindowUnit := Minute | Hour | Day.
Definition unit_as_str (u : WindowUnit) : str :=
  match u with Minute => lit "minute" | Hour => lit "hour" | Day => lit "day" end.
(** [match policy.window_unit.as_str()]. *)
Definition window_unit_of (s : str) : WindowUnit :=
  if decide (s = lit "minute") then Minute else if decide (s = lit "hour") then Hour else Day.

Record RateLimitPolicy := mkPolicy {
  rp_id : Z;
  rp_scope_type : str;
  rp_strategy : str;
  rp_route : str;
  rp_provider : str;
  rp_model : str;
  rp_window_unit : str;
  rp_max_requests : option Z;
  rp_max_input_tokens : option Z;
  rp_max_output_tokens : option Z;
  rp_max_total_tokens : option Z;
  rp_max_estimated_cost_usd : option Q;
  rp_enabled : bool;
  rp_created_at : Z;
  rp_updated_at : Z
}.

Record RateLimitBucket := mkBucket {
  rb_id : Z;
  rb_policy_id : Z;
  rb_scope_type : str;
  rb_strategy : str;
  rb_route : str;
  rb_provider : str;
  rb_model : str;
  rb_window_unit : str;
  rb_window_started_at : Z;
  rb_window_ends_at : Z;
  rb_request_count : Z;
  rb_input_tokens : Z;
  rb_output_tokens : Z;
  rb_total_tokens : Z;
  rb_estimated_cost_usd : Q;
  rb_deny_count : Z;
  rb_last_request_id : option str;
  rb_last_generation_id : option str;
  rb_last_seen_at : Z;
  rb_created_at : Z;
  rb_updated_at : Z
}.

Inductive ExhaustionAction := Allow | Deny | Degrade.
#[export] Instance exhaustion_action_eq_dec : EqDecision ExhaustionAction.
Proof. solve_decision. Defined.
Record PreflightDecision := { allowed : bool; action : ExhaustionAction }.

Record BucketMutation := {
  bm_policy_id : Z;
  bm_route : str;
  bm_provider : str;
  bm_model : str;
  bm_window_unit : str;
  bm_request_count : Z;
  bm_input_tokens : Z;
  bm_output_tokens : Z;
  bm_total_tokens : Z;
  bm_estimated_cost_usd : Q;
  bm_deny_count : Z;
  bm_last_request_id : option str;
  bm_last_generation_id : option str
}.

(** ** Windows *)

(** The length of a window, in nanoseconds. *)
Definition unit_length (u : WindowUnit) : Z :=
  match u with Minute => 60000000000 | Hour => 3600000000000 | Day => 86400000000000 end.
(** The fields below the unit set to zero. *)
Definition window_start (at_ : Z) (u : WindowUnit) : Z := at_ - at_ mod unit_length u.
Definition window_end (start : Z) (u : WindowUnit) : Z := start + unit_length u.

(** ** The tables *)

(** NUMERIC(20, 8): rounded to eight places, half away from zero, for amounts that are not
    negative. *)
Definition numeric8 (q : Q) : Q := Qmake (Qfloor (q * 100000000 + (1 # 2))%Q) 100000000.
Definition numeric8_ok (q : Q) : bool := Qle_bool 0 q && Qle_bool q (1000000000000 - (1 # 100000000))%Q.

(** Key of a bucket: the columns of its unique index. *)
Notation bucket_key := (Z * Z)%type.

Record RL := mkRL {
  policies : list RateLimitPolicy;             (* in the order of the heap *)
  buckets : gmap bucket_key RateLimitBucket;
  next_id : Z;                                 (* the sequence of BIGSERIAL *)
  clock : Z;                                   (* NOW() of the server *)
  down : list bool                             (* the statements that will fail *)
}.
#[export] Instance RL_eta : Eta RL := λ s, mkRL (policies s) (buckets s) (next_id s) (clock s) (down s).

Definition RM (A : Type) : Type := RL -> outcome db_error A * RL.
#[export] Instance RM_ret : MRet RM := λ A a s, (Ok a, s).
#[export] Instance RM_bind : MBind RM := λ A B k m s,
  match m s with
  | (Ok a, s') => k a s'
  | (Err e, s') => (Err e, s')
  | (Panic, s') => (Panic, s')
  end.
(** A statement, unless the database is down for it. *)
Definition statement_on {A} (q : RL -> outcome db_error (A * RL)) : RM A := λ s,
  match down s with
  | true :: rest => (Err Unavailable, s <| down := rest |>)
  | _ =>
      let s := s <| down := tail (down s) |> in
      match q s with
      | Ok (a, s') => (Ok a, s')
      | Err e => (Err e, s)
      | Panic => (Panic, s)
      end
  end.

(** [WHERE enabled AND (route = $1 OR route = 'all') AND ...]. *)
Definition applies (route provider model : str) (p : RateLimitPolicy) : bool :=
  rp_enabled p
  && (bool_decide (rp_route p = route) || bool_decide (rp_route p = ROUTE_ALL))
  && (bool_decide (rp_provider p = provider) || bool_decide (rp_provider p = DIMENSION_WILDCARD))
  && (bool_decide (rp_model p = model) || bool_decide (rp_model p = DIMENSION_WILDCARD)).

(** The ORDER BY: window, then scope, then id. *)
Definition window_rank (p : RateLimitPolicy) : Z :=
  default 3 (match_lit (rp_window_unit p) [(lit "minute", 1); (lit "hour", 2)]).
Definition scope_rank (p : RateLimitPolicy) : Z :=
  default 4 (match_lit (rp_scope_type p) [(lit "route", 1); (lit "provider", 2); (lit "model", 3)]).
Definition policy_le (p q : RateLimitPolicy) : bool :=
  (window_rank p <? window_rank q)
  || (window_rank p =? window_rank q)
     && ((scope_rank p <? scope_rank q)
         || (scope_rank p =? scope_rank q) && (rp_id p <=? rp_id q)).
Fixpoint insert_policy (p : RateLimitPolicy) (l : list RateLimitPolicy) : list RateLimitPolicy :=
  match l with
  | [] => [p]
  | q :: l' => if policy_le p q then p :: l else q :: insert_policy p l'
  end.
Definition sort_policies (l : list RateLimitPolicy) : list RateLimitPolicy := foldr insert_policy [] l.

Definition find_applicable (route provider model : str) : RM (list RateLimitPolicy) :=
  statement_on (λ s, Ok (sort_policies (filter (λ p, applies route provider model p = true) (policies s)), s)).

(** ** Buckets *)

Definition in_bigint (z : Z) : bool := (0 <=? z) && (z <? 2 ^ 63).
Definition varchar_opt (n : nat) (o : option str) : bool :=
  match o with Some s => (length s <=? n)%nat | None => true end.

(** The CHECK, length and range constraints of 20260712000102_create_llm_rate_limit_buckets_table.sql
    on the columns that are written. *)
Definition bucket_ok (b : RateLimitBucket) : bool :=
  bool_decide (rb_scope_type b ∈ [lit "global"; lit "provider"; lit "model"; lit "route"])
  && bool_decide (rb_route b ∈ [ROUTE_ALL; ROUTE_INTERPRET; ROUTE_RESPOND])
  && (length (rb_provider b) <=? 100)%nat && (length (rb_model b) <=? 200)%nat
  && bool_decide (rb_window_unit b ∈ [lit "minute"; lit "hour"; lit "day"])
  && in_bigint (rb_request_count b) && in_bigint (rb_input_tokens b) && in_bigint (rb_output_tokens b)
  && in_bigint (rb_total_tokens b) && in_bigint (rb_deny_count b)
  && numeric8_ok (rb_estimated_cost_usd b)
  && varchar_opt 255 (rb_last_request_id b) && varchar_opt 100 (rb_last_generation_id b)
  && (rb_window_started_at b <? rb_window_ends_at b).

(** The row the INSERT proposes. *)
Definition proposed_bucket (policy : RateLimitPolicy) (m : BucketMutation) (ws we id_ now : Z) :
    RateLimitBucket :=
  mkBucket id_ (rp_id policy) (rp_scope_type policy) (lit "fixed_window") (bm_route m) (bm_provider m)
    (bm_model m) (bm_window_unit m) ws we (bm_request_count m) (bm_input_tokens m) (bm_output_tokens m)
    (bm_total_tokens m) (numeric8 (bm_estimated_cost_usd m)) (bm_deny_count m) (bm_last_request_id m)
    (bm_last_generation_id m) now now now.

(** [DO UPDATE SET]: the counters add up, the last ids are replaced when given. *)
Definition merged_bucket (old excluded : RateLimitBucket) (now : Z) : RateLimitBucket :=
  mkBucket (rb_id old) (rb_policy_id old) (rb_scope_type old) (rb_strategy old) (rb_route old)
    (rb_provider old) (rb_model old) (rb_window_unit old) (rb_window_started_at old)
    (rb_window_ends_at old) (rb_request_count old + rb_request_count excluded)
    (rb_input_tokens old + rb_input_tokens excluded) (rb_output_tokens old + rb_output_tokens excluded)
    (rb_total_tokens old + rb_total_tokens excluded)
    (rb_estimated_cost_usd old + rb_estimated_cost_usd excluded)%Q
    (rb_deny_count old + rb_deny_count excluded)
    (option_or (rb_last_request_id excluded) (rb_last_request_id old))
    (option_or (rb_last_generation_id excluded) (rb_last_generation_id old)) now (rb_created_at old) now.

(** [BUCKET_UPSERT_SQL]. The sequence moves on even when the row exists. *)
Definition bucket_upsert (policy : RateLimitPolicy) (m : BucketMutation) (ws we : Z) (s : RL) :
    outcome db_error (RateLimitBucket * RL) :=
  let row := proposed_bucket policy m ws we (next_id s) (clock s) in
  let s := s <| next_id := (next_id s + 1)%Z |> in
  let key := (rp_id policy, ws) in
  if negb (bucket_ok row) then Err CheckViolation
  else
    match buckets s !! key with
    | Some old =>
        let b := merged_bucket old row (clock s) in
        if bucket_ok b then Ok (b, s <| buckets := <[key := b]> (buckets s) |>) else Err CheckViolation
    | None =>
        if existsb (λ p, rp_id p =? rp_id policy) (policies s)
        then Ok (row, s <| buckets := <[key := row]> (buckets s) |>)
        else Err ForeignKeyViolation
    end.

Definition increment (policy : RateLimitPolicy) (mutation : BucketMutation) (now : Z) : RM RateLimitBucket :=
  let unit := window_unit_of (rp_window_unit policy) in
  let ws := window_start now unit in
  let we := window_end ws unit in
  statement_on (bucket_upsert policy mutation ws we).

(** A mutation of a policy's own dimensions. *)
Definition mutation_of (p : RateLimitPolicy) (requests input output total : Z) (cost : Q) (denials : Z)
    (request_id generation_id : option str) : BucketMutation := {|
  bm_policy_id := rp_id p; bm_route := rp_route p; bm_provider := rp_provider p; bm_model := rp_model p;
  bm_window_unit := rp_window_unit p; bm_request_count := requests; bm_input_tokens := input;
  bm_output_tokens := output; bm_total_tokens := total; bm_estimated_cost_usd := cost;
  bm_deny_count := denials; bm_last_request_id := request_id; bm_last_generation_id := generation_id
|}.

Definition record_usage (policy : RateLimitPolicy) (input_tokens output_tokens total_tokens : Z)
    (estimated_cost_usd : Q) (request_id generation_id : str) (now : Z) : RM RateLimitBucket :=
  increment policy (mutation_of policy 1 input_tokens output_tokens total_tokens estimated_cost_usd 0
    (Some request_id) (Some generation_id)) now.

Definition record_denial (policy : RateLimitPolicy) (request_id generation_id : str) (now : Z) :
    RM RateLimitBucket :=
  increment policy (mutation_of policy 0 0 0 0 0 1 (Some request_id) (Some generation_id)) now.

(** ** The preflight check *)

Definition exhausted_decision (route provider model : str) : PreflightDecision :=
  let action :=
    if decide (route = ROUTE_INTERPRET) then Deny
    else if decide (route = ROUTE_RESPOND) then Degrade else Deny in
  {| allowed := bool_decide (action = Degrade); action := action |}.

(** One turn of the loop over the policies: [Some] leaves it. *)
Definition check_policy (now : Z) (estimated_cost : Q) (route provider model request_id generation_id : str)
    (policy : RateLimitPolicy) : RM (option PreflightDecision) :=
  bucket ← increment policy (mutation_of policy 0 0 0 0 0 0 None None) now;
  if (match rp_max_requests policy with
      | Some max_req => max_req <? i64_wrap (rb_request_count bucket + 1)
      | None => false
      end : bool)
  then _ ← record_denial policy request_id generation_id now; mret (Some (exhausted_decision route provider model))
  else if (match rp_max_estimated_cost_usd policy with
           | Some max_cost => negb (Qle_bool (rb_estimated_cost_usd bucket + estimated_cost)%Q max_cost)
           | None => false
           end : bool)
  then _ ← record_denial policy request_id generation_id now; mret (Some (exhausted_decision route provider model))
  else mret None.

Fixpoint check_policies (now : Z) (estimated_cost : Q) (route provider model request_id generation_id : str)
    (l : list RateLimitPolicy) : RM PreflightDecision :=
  match l with
  | [] => mret {| allowed := true; action := Allow |}
  | policy :: rest =>
      decision ← check_policy now estimated_cost route provider model request_id generation_id policy;
      match decision with
      | Some d => mret d
      | None => check_policies now estimated_cost route provider model request_id generation_id rest
      end
  end.

(** [now] is [Utc::now()] of the gateway. *)
Definition preflight_check (now : Z) (route provider model : str) (projected_cost_usd : option Q)
    (request_id generation_id : str) : RM PreflightDecision :=
  l ← find_applicable route provider model;
  if (match l with [] => true | _ => false end : bool) then mret {| allowed := true; action := Allow |}
  else
    let estimated_cost := default (1 # 10000)%Q projected_cost_usd in
    check_policies now estimated_cost route provider model request_id generation_id l.

(** ** Policies *)

(** The constraints of 20260712000101_create_llm_rate_limit_policies_table.sql. *)
Definition limit_ok (o : option Z) : bool := match o with Some z => in_bigint z | None => true end.
Definition policy_ok (p : RateLimitPolicy) : bool :=
  let is_all := bool_decide (rp_route p = ROUTE_ALL) in
  let any_provider := bool_decide (rp_provider p = DIMENSION_WILDCARD) in
  let any_model := bool_decide (rp_model p = DIMENSION_WILDCARD) in
  let scope s := bool_decide (rp_scope_type p = lit s) in
  (scope "global" || scope "provider" || scope "model" || scope "route")
  && bool_decide (rp_strategy p = lit "fixed_window")
  && bool_decide (rp_route p ∈ [ROUTE_ALL; ROUTE_INTERPRET; ROUTE_RESPOND])
  && (length (rp_provider p) <=? 100)%nat && (length (rp_model p) <=? 200)%nat
  && bool_decide (rp_window_unit p ∈ [lit "minute"; lit "hour"; lit "day"])
  && limit_ok (rp_max_requests p) && limit_ok (rp_max_input_tokens p)
  && limit_ok (rp_max_output_tokens p) && limit_ok (rp_max_total_tokens p)
  && match rp_max_estimated_cost_usd p with Some q => numeric8_ok q | None => true end
  && (bool_decide (is_Some (rp_max_requests p)) || bool_decide (is_Some (rp_max_input_tokens p))
      || bool_decide (is_Some (rp_max_output_tokens p)) || bool_decide (is_Some (rp_max_total_tokens p))
      || bool_decide (is_Some (rp_max_estimated_cost_usd p)))
  && (negb (scope "global") || is_all && any_provider && any_model)
  && (negb (scope "route") || negb is_all && any_provider && any_model)
  && (negb (scope "provider") || negb any_provider && any_model)
  && (negb (scope "model") || negb any_model).

(** The columns of the unique index. *)
Definition same_scope (p q : RateLimitPolicy) : bool :=
  bool_decide (rp_scope_type p = rp_scope_type q) && bool_decide (rp_route p = rp_route q)
  && bool_decide (rp_provider p = rp_provider q) && bool_decide (rp_model p = rp_model q)
  && bool_decide (rp_window_unit p = rp_window_unit q).
Definition merged_policy (old excluded : RateLimitPolicy) (now : Z) : RateLimitPolicy :=
  mkPolicy (rp_id old) (rp_scope_type old) (rp_strategy excluded) (rp_route old) (rp_provider old)
    (rp_model old) (rp_window_unit old) (rp_max_requests excluded) (rp_max_input_tokens excluded)
    (rp_max_output_tokens excluded) (rp_max_total_tokens excluded) (rp_max_estimated_cost_usd excluded)
    (rp_enabled excluded) (rp_created_at old) now.

(** [POLICY_UPSERT_SQL]. *)
Definition policy_upsert (row : RateLimitPolicy) (s : RL) : outcome db_error (RateLimitPolicy * RL) :=
  let s' := s <| next_id := (next_id s + 1)%Z |> in
  if negb (policy_ok row) then Err CheckViolation
  else
    match list_find (λ p, same_scope p row = true) (policies s) with
    | Some (k, old) =>
        let p := merged_policy old row (clock s) in
        Ok (p, s' <| policies := <[k := p]> (policies s) |>)
    | None => Ok (row, s' <| policies := policies s ++ [row] |>)
    end.

Definition upsert_default (route scope_type window_unit : str) (max_requests max_input_tokens
    max_output_tokens max_total_tokens : option Z) (max_estimated_cost_usd : option Q) : RM RateLimitPolicy :=
  statement_on (λ s, policy_upsert
    (mkPolicy (next_id s) scope_type (lit "fixed_window") route DIMENSION_WILDCARD DIMENSION_WILDCARD
       window_unit max_requests max_input_tokens max_output_tokens max_total_tokens
       (numeric8 <$> max_estimated_cost_usd) true (clock s) (clock s)) s).

(** ** A governed call (llm/interpret.rs) *)

(** Usage goes to every applicable policy; a failed statement is ignored. Each statement reads the
    clock of the gateway for itself. *)
Fixpoint record_all (at_ : RateLimitPolicy -> Z) (input output total : Z) (cost : Q)
    (request_id generation_id : str) (l : list RateLimitPolicy) : RM unit :=
  match l with
  | [] => mret ()
  | p :: rest => λ s,
      record_all at_ input output total cost request_id generation_id rest
        (record_usage p input output total cost request_id generation_id (at_ p) s).2
  end.

Record call := {
  c_provider : str;
  c_model : str;
  c_projected : option Q;
  c_request : str;
  c_generation : str;
  c_start : Z;                        (* Utc::now() of the check *)
  c_recorded : RateLimitPolicy -> Z;  (* Utc::now() of each record *)
  c_input : Z;
  c_output : Z;
  c_total : Z;
  c_cost : Q
}.

(** The check, then, unless it denies, the provider call and its usage. *)
Definition governed_call (route : str) (c : call) : RM bool := 
  d ← preflight_check (c_start c) route (c_provider c) (c_model c) (c_projected c) (c_request c)
        (c_generation c);
  if decide (action d = Deny) then mret false
  else
    λ s, match find_applicable route (c_provider c) (c_model c) s with
         | (Ok l, s') =>
             (_ ← record_all (c_recorded c) (c_input c) (c_output c) (c_total c) (c_cost c) (c_request c)
                    (c_generation c) l; mret true) s'
         | (Err _, s') => (Ok true, s')
         | (Panic, s') => (Panic, s')
         end.

(** ** Lemmas: windows and statements *)

Lemma unit_length_pos u : 0 < unit_length u.
Proof. by destruct u. Qed.
Lemma window_start_mono u s t : s <= t -> window_start s u <= window_start t u.
Proof.
  intros Hst. unfold window_start. pose proof (unit_length_pos u).
  pose proof (Z.div_mod s (unit_length u)). pose proof (Z.div_mod t (unit_length u)).
  pose proof (Z.div_le_mono s t (unit_length u)). nia.
Qed.

Definition requests_in (s : RL) (key : bucket_key) : Z :=
  default 0 (rb_request_count <$> buckets s !! key).
Definition key_at (p : RateLimitPolicy) (t : Z) : bucket_key :=
  (rp_id p, window_start t (window_unit_of (rp_window_unit p))).

Lemma bucket_ok_count b : bucket_ok b = true -> in_bigint (rb_request_count b) = true.
Proof. unfold bucket_ok. intros Hb. repeat (apply andb_true_iff in Hb as [Hb ?]). done. Qed.

(** What an upsert does to the request counts. *)
Lemma upsert_counts p m ws we s b s' :
  bucket_upsert p m ws we s = Ok (b, s') ->
  policies s' = policies s /\ buckets s' = <[(rp_id p, ws) := b]> (buckets s) /\
  rb_request_count b = requests_in s (rp_id p, ws) + bm_request_count m /\
  in_bigint (rb_request_count b) = true.
Proof.
  unfold bucket_upsert, requests_in. destruct (bucket_ok (proposed_bucket _ _ _ _ _ _)) eqn:Hok; [|done].
  cbn [negb]. change (buckets (s <| next_id := _ |>)) with (buckets s).
  destruct (buckets s !! (rp_id p, ws)) as [old|]; simpl.
  - destruct (bucket_ok (merged_bucket _ _ _)) eqn:Hok'; [|done]. intros [= <- <-].
    do 3 (split; [done|]). by apply bucket_ok_count in Hok'.
  - destruct (existsb _ _); [|done]. intros [= <- <-]. do 3 (split; [done|]). by apply bucket_ok_count in Hok.
Qed.

Definition counts_after (p : RateLimitPolicy) (t n : Z) (s s' : RL) : Prop :=
  forall key, requests_in s' key = requests_in s key + (if decide (key = key_at p t) then n else 0).

Lemma increment_counts p m t s r s' :
  increment p m t s = (r, s') ->
  policies s' = policies s /\
  match r with
  | Ok b => rb_request_count b = requests_in s (key_at p t) + bm_request_count m /\
      in_bigint (rb_request_count b) = true /\ counts_after p t (bm_request_count m) s s'
  | _ => forall key, requests_in s' key = requests_in s key
  end.
Proof.
  unfold increment, statement_on.
  assert (forall s0, policies s0 = policies s -> buckets s0 = buckets s ->
    match bucket_upsert p m (window_start t (window_unit_of (rp_window_unit p)))
      (window_end (window_start t (window_unit_of (rp_window_unit p))) (window_unit_of (rp_window_unit p))) s0 with
    | Ok (a, s1) => (Ok a, s1) | Err e => (Err e, s0) | Panic => (Panic, s0) end = (r, s') ->
    policies s' = policies s /\
    match r with
    | Ok b => rb_request_count b = requests_in s (key_at p t) + bm_request_count m /\
        in_bigint (rb_request_count b) = true /\ counts_after p t (bm_request_count m) s s'
    | _ => forall key, requests_in s' key = requests_in s key
    end) as Hcase.
  { intros s0 Hp Hb. assert (forall key, requests_in s0 key = requests_in s key) as Hr0
      by (intros key; unfold requests_in; by rewrite Hb).
    destruct (bucket_upsert _ _ _ _ s0) as [[b s1]|e|] eqn:Hu; intros [= <- <-]; [|by split..].
    apply upsert_counts in Hu as (Hpol & Hbk & Hc & Hok). rewrite Hr0 in Hc. split; [congruence|].
    split; [done|]. split; [done|]. intros key. unfold requests_in. rewrite Hbk, Hb.
    destruct (decide (key = key_at p t)) as [->|Hk]; [rewrite lookup_insert_eq; exact Hc|].
    rewrite lookup_insert_ne by done. lia. }
  destruct (down s) as [|[] rest]; [by apply Hcase| |by apply Hcase].
  intros [= <- <-]. by split.
Qed.

(** ** Lemmas: the check *)

Definition unchanged (s s' : RL) : Prop :=
  policies s' = policies s /\ forall key, requests_in s' key = requests_in s key.
#[export] Instance unchanged_preorder : PreOrder unchanged.
Proof. split; [by split|]. intros s1 s2 s3 [H1 H2] [H3 H4]. split; [congruence|]. intros key. by rewrite H4. Qed.

Lemma bind_inv {A B} (m : RM A) (k : A -> RM B) s r s' :
  (m ≫= k) s = (r, s') ->
  (exists a s1, m s = (Ok a, s1) /\ k a s1 = (r, s')) \/
  (exists o, m s = (o, s') /\ (forall a, o <> Ok a) /\ (forall b, r <> Ok b)).
Proof.
  unfold mbind, RM_bind. destruct (m s) as [[a|e|] s1]; [eauto|intros [= <- <-]; right..];
    (eexists; split; [done|]; by split).
Qed.

(** An upsert that adds no request. *)
Lemma increment_zero p m t s r s' :
  increment p m t s = (r, s') -> bm_request_count m = 0 -> unchanged s s'.
Proof.
  intros [Hp Hr]%increment_counts Hm. split; [done|]. destruct r; [|done|done].
  destruct Hr as (_ & _ & Hc). intros key. rewrite (Hc key), Hm. case_decide; lia.
Qed.

(** There is room for one more request in the window of [t]. *)
Definition room (p : RateLimitPolicy) (t : Z) (s : RL) : Prop :=
  forall m, rp_max_requests p = Some m ->
    requests_in s (key_at p t) + 1 <= m \/ requests_in s (key_at p t) + 1 = 2 ^ 63.

Lemma check_policy_spec t cost route provider model rid gid p s r s' :
  check_policy t cost route provider model rid gid p s = (r, s') ->
  unchanged s s' /\
  match r with
  | Ok None => room p t s
  | Ok (Some d) => d = exhausted_decision route provider model
  | _ => True
  end.
Proof.
  intros [(b & s1 & Hinc & Hrest)|(o & Ho & _ & Hr)]%bind_inv.
  2: { split; [exact (increment_zero _ _ _ _ _ _ Ho eq_refl)|]. destruct r as [x| |]; [by destruct (Hr x)|done|done]. }
  pose proof (increment_zero _ _ _ _ _ _ Hinc eq_refl) as Hu.
  apply increment_counts in Hinc as (_ & Hb & Hok & _). cbn [bm_request_count mutation_of] in Hb.
  assert (forall s2 (r2 : outcome db_error (option PreflightDecision)) s3,
    (_ ← record_denial p rid gid t; mret (Some (exhausted_decision route provider model))) s2 = (r2, s3) ->
    unchanged s2 s3 /\ match r2 with Ok (Some d) => d = exhausted_decision route provider model
                                   | Ok None => False | _ => True end) as Hdeny.
  { intros s2 r2 s3 [(b2 & s4 & Hd & [= <- <-])|(o & Hd & _ & Hr)]%bind_inv.
    - split; [exact (increment_zero _ _ _ _ _ _ Hd eq_refl)|done].
    - split; [exact (increment_zero _ _ _ _ _ _ Hd eq_refl)|]. destruct r2 as [x| |]; [by destruct (Hr x)|done|done]. }
  destruct (match rp_max_requests p with Some _ => _ | None => _ end) eqn:Hmax.
  { destruct (Hdeny _ _ _ Hrest) as [Hu2 Hr]. split; [by etransitivity|]. by destruct r as [[]| |]. }
  destruct (match rp_max_estimated_cost_usd p with Some _ => _ | None => _ end).
  { destruct (Hdeny _ _ _ Hrest) as [Hu2 Hr]. split; [by etransitivity|]. by destruct r as [[]| |]. }
  injection Hrest as <- <-. split; [done|]. intros m Hm. rewrite Hm in Hmax. apply Z.ltb_ge in Hmax.
  unfold in_bigint in Hok. destruct (decide (rb_request_count b + 1 = 2 ^ 63)) as [He|Hne]; [right; lia|].
  left. rewrite i64_wrap_id in Hmax by (unfold in_i64; lia). lia.
Qed.

Lemma room_unchanged p t s s' : unchanged s s' -> room p t s' -> room p t s.
Proof. intros [_ Hu] Hr m Hm. specialize (Hr m Hm). by rewrite Hu in Hr. Qed.

Lemma check_policies_spec t cost provider model rid gid l : forall s r s',
  check_policies t cost ROUTE_INTERPRET provider model rid gid l s = (r, s') ->
  unchanged s s' /\
  match r with
  | Ok d => action d = Deny \/ forall p, p ∈ l -> room p t s
  | _ => True
  end.
Proof.
  induction l as [|p l IH]; intros s r s'; cbn [check_policies].
  { intros [= <- <-]. split; [done|]. right. set_solver. }
  intros [(d & s1 & Hc & Hrest)|(o & Ho & _ & Hr)]%bind_inv.
  - apply check_policy_spec in Hc as [Hu Hd]. destruct d as [d|].
    + injection Hrest as <- <-. split; [done|]. left. by subst d.
    + apply IH in Hrest as [Hu2 Hr]. split; [by etransitivity|]. destruct r as [d| |]; [|done|done].
      destruct Hr as [Hr|Hr]; [by left|right]. intros q [->|Hq]%elem_of_cons; [done|].
      eapply room_unchanged; [exact Hu|]. by apply Hr.
  - apply check_policy_spec in Ho as [Hu _]. split; [done|]. destruct r as [x| |]; [by destruct (Hr x)|done|done].
Qed.

Lemma insert_policy_perm p l : insert_policy p l ≡ₚ p :: l.
Proof.
  induction l as [|q l IH]; simpl; [done|]. case_match; [done|]. rewrite IH. apply Permutation_swap.
Qed.
Lemma sort_policies_perm l : sort_policies l ≡ₚ l.
Proof. induction l as [|p l IH]; simpl; [done|]. by rewrite insert_policy_perm, IH. Qed.

Lemma find_applicable_spec route provider model s r s' :
  find_applicable route provider model s = (r, s') ->
  unchanged s s' /\
  match r with
  | Ok l => l ≡ₚ filter (λ p, applies route provider model p = true) (policies s)
  | _ => True
  end.
Proof.
  unfold find_applicable, statement_on.
  destruct (down s) as [|[] rest]; intros [= <- <-]; (split; [by split|]); try done; apply sort_policies_perm.
Qed.

Lemma preflight_spec t provider model cost rid gid s r s' :
  preflight_check t ROUTE_INTERPRET provider model cost rid gid s = (r, s') ->
  unchanged s s' /\
  match r with
  | Ok d => action d = Deny \/
      forall p, p ∈ policies s -> applies ROUTE_INTERPRET provider model p = true -> room p t s
  | _ => True
  end.
Proof.
  intros [(l & s1 & Hf & Hrest)|(o & Ho & _ & Hr)]%bind_inv.
  - apply find_applicable_spec in Hf as [Hu Hl].
    assert (forall p, p ∈ policies s -> applies ROUTE_INTERPRET provider model p = true -> p ∈ l) as Hin.
    { intros p Hp Ha. rewrite Hl. by apply list_elem_of_filter. }
    destruct l as [|p0 l].
    + injection Hrest as <- <-. split; [done|]. right. intros p Hp Ha. by apply Hin, elem_of_nil in Ha.
    + apply check_policies_spec in Hrest as [Hu2 Hr]. split; [by etransitivity|].
      destruct r as [d| |]; [|done|done]. destruct Hr as [Hr|Hr]; [by left|right].
      intros p Hp Ha. eapply room_unchanged; [exact Hu|]. apply Hr. by apply Hin.
  - apply find_applicable_spec in Ho as [Hu _]. split; [done|].
    destruct r as [x| |]; [by destruct (Hr x)|done|done].
Qed.

(** Where the budget of the route respond is exhausted the call goes on, degraded. *)
Lemma check_policies_respond t cost provider model rid gid l : forall s d s',
  check_policies t cost ROUTE_RESPOND provider model rid gid l s = (Ok d, s') -> action d <> Deny.
Proof.
  induction l as [|p l IH]; intros s d s'; cbn [check_policies]; [by intros [= <- <-]|].
  intros [(o & s1 & Hc & Hrest)|(o & Ho & _ & Hr)]%bind_inv; [|by destruct (Hr d)].
  apply check_policy_spec in Hc as [_ Hd]. destruct o as [d'|]; [by injection Hrest as <- <-; subst d'|by eapply IH].
Qed.
Lemma preflight_respond t provider model cost rid gid s d s' :
  preflight_check t ROUTE_RESPOND provider model cost rid gid s = (Ok d, s') -> action d <> Deny.
Proof.
  intros [(l & s1 & _ & Hrest)|(o & _ & _ & Hr)]%bind_inv; [|by destruct (Hr d)].
  destruct l; [by injection Hrest as <- _|by eapply check_policies_respond].
Qed.

(** ** Lemmas: recording *)

Lemma record_usage_counts p i o t c rid gid now s r s' :
  record_usage p i o t c rid gid now s = (r, s') ->
  policies s' = policies s /\ forall key, requests_in s' key = requests_in s key \/
    (key = key_at p now /\ requests_in s' key = requests_in s key + 1 /\ requests_in s' key < 2 ^ 63).
Proof.
  intros [Hp Hr]%increment_counts. split; [done|]. intros key.
  destruct r as [b|e|]; [|left; apply Hr..].
  destruct Hr as (Hb & Hok & Hc). specialize (Hc key). cbn [bm_request_count mutation_of] in *.
  case_decide as Hk; [right|left; lia]. split; [done|]. subst key. unfold in_bigint in Hok. lia.
Qed.

(** Each policy of the list counts at most one request, in its own window. *)
Lemma record_all_counts at_ i o t c rid gid l : NoDup (rp_id <$> l) ->
  forall s r s', record_all at_ i o t c rid gid l s = (r, s') ->
  policies s' = policies s /\ forall key, requests_in s' key = requests_in s key \/
    exists p, p ∈ l /\ key = key_at p (at_ p) /\ requests_in s' key = requests_in s key + 1 /\
      requests_in s' key < 2 ^ 63.
Proof.
  induction l as [|p l IH]; intros Hnd s r s'; cbn [record_all].
  { intros [= <- <-]. split; [done|]. by left. }
  apply NoDup_cons in Hnd as [Hfresh Hnd].
  destruct (record_usage p i o t c rid gid (at_ p) s) as [r1 s1] eqn:Hu. cbn [snd].
  apply record_usage_counts in Hu as [Hp1 Hc1]. intros Hrun. apply (IH Hnd) in Hrun as [Hp2 Hc2].
  split; [congruence|]. intros key. destruct (Hc1 key) as [H1|(Hk & H1 & Hlt)], (Hc2 key) as [H2|(q & Hq & Hkq & H2 & Hlt2)].
  - left. congruence.
  - right. exists q. split; [by right|]. split; [done|]. lia.
  - right. exists p. split; [left|]. split; [done|]. lia.
  - destruct Hfresh. apply list_elem_of_fmap. exists q. split; [|done]. subst key. by injection Hkq.
Qed.

(** ** The invariant *)

(** At instant [t]: no window holds more requests than its policy allows, and windows that have
    not begun are empty. *)
Definition limits_hold (t : Z) (s : RL) : Prop :=
  NoDup (rp_id <$> policies s) /\
  forall p m ws, p ∈ policies s -> rp_max_requests p = Some m ->
    0 <= requests_in s (rp_id p, ws) <= m /\
    (window_start t (window_unit_of (rp_window_unit p)) < ws -> requests_in s (rp_id p, ws) = 0).

Lemma limits_unchanged t s s' : unchanged s s' -> limits_hold t s -> limits_hold t s'.
Proof.
  intros [Hp Hu] [Hnd Hl]. split; [by rewrite Hp|]. intros p m ws Hpin Hm. rewrite Hp in Hpin.
  rewrite !Hu. by apply Hl.
Qed.
Lemma limits_later t t' s : t <= t' -> limits_hold t s -> limits_hold t' s.
Proof.
  intros Ht [Hnd Hl]. split; [done|]. intros p m ws Hp Hm. destruct (Hl p m ws Hp Hm) as [Hr Hz].
  split; [done|]. intros Hws. apply Hz. pose proof (window_start_mono (window_unit_of (rp_window_unit p)) t t' Ht). lia.
Qed.

Lemma sublist_ids (l k : list RateLimitPolicy) : l `sublist_of` k -> (rp_id <$> l) `sublist_of` (rp_id <$> k).
Proof. induction 1; simpl; by constructor. Qed.
Lemma unique_policy s p q : NoDup (rp_id <$> policies s) -> p ∈ policies s -> q ∈ policies s -> rp_id p = rp_id q -> p = q.
Proof.
  intros Hnd Hp Hq Hid. apply list_elem_of_lookup in Hp as [i Hi]. apply list_elem_of_lookup in Hq as [j Hj].
  assert (i = j) as <-; [|congruence]. eapply (NoDup_lookup (rp_id <$> policies s)); [done| |].
  - rewrite list_lookup_fmap, Hi. done.
  - rewrite list_lookup_fmap, Hj. simpl. by rewrite Hid.
Qed.

(** Recording one request per policy that had room. *)
Lemma limits_recorded t0 t t' s s' :
  limits_hold t0 s -> t0 <= t -> t <= t' -> policies s' = policies s ->
  (forall key, requests_in s' key = requests_in s key \/
     exists p at_, p ∈ policies s /\ room p t s /\ t <= at_ <= t' /\ key = key_at p at_ /\
       requests_in s' key = requests_in s key + 1 /\ requests_in s' key < 2 ^ 63) ->
  limits_hold t' s'.
Proof.
  intros [Hnd Hl] Ht0 Ht Hpol Hc. split; [by rewrite Hpol|]. intros p m ws Hp Hm. rewrite Hpol in Hp.
  destruct (Hl p m ws Hp Hm) as [Hr Hz]. set (u := window_unit_of (rp_window_unit p)) in *.
  pose proof (window_start_mono u _ _ Ht0). pose proof (window_start_mono u _ _ Ht).
  destruct (Hc (rp_id p, ws)) as [Hs|(q & a & Hq & Hroom & Ha & Hk & Hs & Hlt)].
  { rewrite Hs. split; [done|]. intros Hws. apply Hz. lia. }
  injection Hk as Hid Hws. assert (p = q) as <- by (eapply unique_policy; eauto). fold u in Hws.
  pose proof (window_start_mono u _ _ (proj1 Ha)). pose proof (window_start_mono u _ _ (proj2 Ha)).
  specialize (Hroom m Hm). destruct (Hl p m (window_start t u) Hp Hm) as [Hr0 _].
  unfold key_at in Hroom. fold u in Hroom. split; [|lia].
  destruct (decide (ws = window_start t u)) as [->|Hne]; [lia|].
  assert (requests_in s (rp_id p, ws) = 0) as Hzero by (apply Hz; lia). lia.
Qed.

Lemma governed_call_limits t t' c s :
  limits_hold t s -> t <= c_start c -> (forall p, c_start c <= c_recorded c p <= t') -> c_start c <= t' ->
  limits_hold t' (governed_call ROUTE_INTERPRET c s).2.
Proof.
  intros Hl Ht Hrec Ht'. destruct (governed_call ROUTE_INTERPRET c s) as [r s'] eqn:Hrun. cbn [snd].
  apply bind_inv in Hrun as [(d & s1 & Hpre & Hrest)|(o & Ho & _)].
  2: { apply preflight_spec in Ho as [Hu _]. apply (limits_later t); [lia|]. by eapply limits_unchanged. }
  apply preflight_spec in Hpre as [Hu Hroom]. case_decide as Hd.
  { injection Hrest as <- <-. apply (limits_later t); [lia|]. by eapply limits_unchanged. }
  destruct Hroom as [Hroom|Hroom]; [done|].
  destruct (find_applicable _ _ _ s1) as [[l|e|] s2] eqn:Hf; apply find_applicable_spec in Hf as [Hu2 Hf].
  2,3: injection Hrest as <- <-; apply (limits_later t); [lia|];
       eapply limits_unchanged; [exact Hu2|]; by eapply limits_unchanged.
  assert (unchanged s s2) as Hu02 by (by etransitivity). pose proof Hl as [Hnd _].
  rewrite (proj1 Hu) in Hf.
  assert (NoDup (rp_id <$> l)) as Hndl.
  { rewrite Hf. eapply sublist_NoDup; [exact Hnd|]. apply sublist_ids, sublist_filter. }
  assert (exists r2, record_all (c_recorded c) (c_input c) (c_output c) (c_total c) (c_cost c) (c_request c)
    (c_generation c) l s2 = (r2, s')) as [r2 Hrec2].
  { unfold mbind, RM_bind in Hrest. destruct (record_all _ _ _ _ _ _ _ l s2) as [[] s3]; injection Hrest as <- <-; eauto. }
  apply (record_all_counts _ _ _ _ _ _ _ _ Hndl) in Hrec2 as [Hp2 Hc].
  eapply (limits_recorded t (c_start c)); [exact Hl|done|done| |].
  - by rewrite Hp2, (proj1 Hu02).
  - intros key. destruct (Hc key) as [Hk|(p & Hp & Hk & Hs & Hlt)]; rewrite (proj2 Hu02) in *; [by left|right].
    rewrite Hf in Hp. apply list_elem_of_filter in Hp as [Ha Hp].
    exists p, (c_recorded c p). split; [done|]. split; [by apply Hroom|]. split; [apply Hrec|]. auto.
Qed.

(** Calls one after the other: each begins after every record of the one before. *)
Fixpoint one_by_one (t : Z) (calls : list call) : Prop :=
  match calls with
  | [] => True
  | c :: rest => t <= c_start c /\
      exists t', c_start c <= t' /\ (forall p, c_start c <= c_recorded c p <= t') /\ one_by_one t' rest
  end.
Fixpoint governed_calls (calls : list call) (s : RL) : RL :=
  match calls with
  | [] => s
  | c :: rest => governed_calls rest (governed_call ROUTE_INTERPRET c s).2
  end.

(** ** Properties *)

(** C24. The request limit of the interpret route. Calls that do not overlap, each checked before and
    recorded after at whatever instants, keep every window of every policy within its
    [max_requests], whatever statements fail and however a call runs over the end of a window. *)
Theorem request_limit_respected calls t s p m ws
  (Hstart : limits_hold t s) (Hcalls : one_by_one t calls)
  (Hp : p ∈ policies (governed_calls calls s)) (Hm : rp_max_requests p = Some m) :
  0 <= requests_in (governed_calls calls s) (rp_id p, ws) <= m.
Proof.
  assert (exists t', limits_hold t' (governed_calls calls s)) as [t' [_ Hl]]; [|by apply Hl].
  clear Hp. revert t s Hstart Hcalls. induction calls as [|c calls IH]; intros t s Hstart Hcalls; [by exists t|].
  destruct Hcalls as (Ht & t' & Ht' & Hrec & Hrest). eapply IH; [|exact Hrest].
  by eapply governed_call_limits.
Qed.

(** ** Witnesses *)

Module RateLimitWitness.

(** One interpret request per minute. *)
Definition one_per_minute : RateLimitPolicy :=
  mkPolicy 1 (lit "route") (lit "fixed_window") ROUTE_INTERPRET DIMENSION_WILDCARD DIMENSION_WILDCARD
    (lit "minute") (Some 1) None None None None true 0 0.
Definition fresh : RL := mkRL [one_per_minute] ∅ 1 0 [].
Definition call_at (t : Z) : call := {|
  c_provider := lit "minimax"; c_model := lit "m3"; c_projected := None; c_request := lit "r";
  c_generation := lit "g"; c_start := t; c_recorded := λ _, t; c_input := 10; c_output := 20;
  c_total := 30; c_cost := 1 # 100
|}.

Lemma fresh_limits : limits_hold 0 fresh.
Proof.
  split; [apply NoDup_singleton|]. intros p m ws Hp Hm. apply list_elem_of_singleton in Hp as ->.
  injection Hm as <-. change (requests_in fresh (rp_id one_per_minute, ws)) with 0. lia.
Qed.

Lemma request_limit_respected_witness :
  0 <= requests_in (governed_calls [call_at 5; call_at 6; call_at 70000000000] fresh) (1, 0) <= 1 /\
  requests_in (governed_calls [call_at 5; call_at 6; call_at 70000000000] fresh) (1, 0) = 1.
Proof.
  split; [|vm_compute; reflexivity].
  apply (request_limit_respected [call_at 5; call_at 6; call_at 70000000000] 0 fresh one_per_minute 1 0).
  - exact fresh_limits.
  - simpl. repeat (split; [lia|]; eexists; split; [apply Z.le_refl|]; split; [intros _; lia|]). exact I.
  - vm_compute. left.
  - reflexivity.
Defined.

(** Overlapping calls are not held to the limit: two checks pass before either request is
    recorded. *)
Lemma overlapping_calls_exceed :
  let check := preflight_check 5 ROUTE_INTERPRET (lit "minimax") (lit "m3") None (lit "r") (lit "g") in
  let record := record_usage one_per_minute 10 20 30 (1 # 100) (lit "r") (lit "g") 5 in
  let s := (record (record (check (check fresh).2).2).2).2 in
  action <$> match (check (check fresh).2).1 with Ok d => Some d | _ => None end = Some Allow /\
  requests_in s (1, 0) = 2.
Proof. vm_compute. split; reflexivity. Qed.
End RateLimitWitness.
