(* ===== verification/Ledger.v ===== *)
(** * Prices and the request ledger (src/src/governance/price_catalog.rs, ledger.rs)

    What a call to a language model costs, and the table [llm_request_ledger] in which every call is
    written down. Amounts of money are rationals; the operations of rust_decimal are a parameter that
    is exact where the result has 96 bits. *)

From stdpp Require Import base list option strings.
From Stdlib Require Import ZArith QArith Qround Lia.
From S2P Require Import Prelude RustStr Json Store Cache RateLimit.
#[local] Open Scope Z_scope.

(** ** Decimals *)

(** [Decimal::new(m, s)]. *)
Definition decimal (m : Z) (s : nat) : Q := Qmake m (Z.to_pos (10 ^ Z.of_nat s)).
(** A mantissa of 96 bits and a scale of at most 28. *)
Definition representable (q : Q) : Prop :=
  exists m s, (q == decimal m s)%Q /\ Z.abs m < 2 ^ 96 /\ (s <= 28)%nat.
(** The operators of rust_decimal; [None] is the panic on overflow. *)
Class DecimalOps := {
  decimal_mul : Q -> Q -> option Q;
  decimal_div : Q -> Q -> option Q;
  decimal_add : Q -> Q -> option Q
}.
(** A result that can be represented is the exact one. *)
Class DecimalLaws `{DecimalOps} := {
  decimal_mul_exact : forall a b, representable (a * b) -> exists r, decimal_mul a b = Some r /\ (r == a * b)%Q;
  decimal_div_exact : forall a b, ~ (b == 0)%Q -> representable (a / b) -> exists r, decimal_div a b = Some r /\ (r == a / b)%Q;
  decimal_add_exact : forall a b, representable (a + b) -> exists r, decimal_add a b = Some r /\ (r == a + b)%Q
}.

(** ** Prices *)

Record PriceEntry := mkPriceEntry {
  pe_id : Z;
  pe_provider : str;
  pe_model : str;
  pe_input_cost_per_unit_usd : option Q;
  pe_output_cost_per_unit_usd : option Q;
  pe_effective_from : Z;
  pe_is_active : bool;
  pe_created_at : Z;
  pe_updated_at : Z
}.
Record CostEstimate := mkCostEstimate {
  input_cost_usd : Q;
  output_cost_usd : Q;
  total_cost_usd : Q
}.

Section Cost.
Context `{DecimalOps}.

(** [(rate * tokens) / 1_000_000], nothing for no tokens. *)
Definition token_cost (rate : Q) (tokens : Z) : option Q :=
  if 0 <? tokens then
    c ← decimal_mul rate (decimal tokens 0);
    decimal_div c (decimal 1000000 0)
  else Some 0%Q.
Definition input_rate (price_entry : option PriceEntry) : Q :=
  default (decimal 10 2) (price_entry ≫= pe_input_cost_per_unit_usd).
Definition output_rate (price_entry : option PriceEntry) : Q :=
  default (decimal 40 2) (price_entry ≫= pe_output_cost_per_unit_usd).
(** [None] is a panic. *)
Definition estimate_cost_inner (price_entry : option PriceEntry) (input_tokens output_tokens : Z) :
    option CostEstimate :=
  input_cost ← token_cost (input_rate price_entry) input_tokens;
  output_cost ← token_cost (output_rate price_entry) output_tokens;
  total_cost ← decimal_add input_cost output_cost;
  Some (mkCostEstimate input_cost output_cost total_cost).

(** The table of prices, the clock of the server, and which lookups will fail. *)
Record PriceCatalog := mkPriceCatalog {
  prices : list PriceEntry;
  price_clock : Z;
  price_down : list bool
}.
(** [FIND_ACTIVE_SQL]: the latest active price that is in effect. The unique index on
    (provider, model, effective_from) leaves no ties. *)
Definition in_effect (provider model : str) (now : Z) (p : PriceEntry) : bool :=
  bool_decide (pe_provider p = provider) && bool_decide (pe_model p = model) && pe_is_active p
  && (pe_effective_from p <=? now).
Definition later_price (best : option PriceEntry) (p : PriceEntry) : option PriceEntry :=
  match best with
  | Some b => if pe_effective_from b <? pe_effective_from p then Some p else best
  | None => Some p
  end.
Definition find_active_sql (provider model : str) (c : PriceCatalog) : option PriceEntry :=
  foldl later_price None (List.filter (in_effect provider model (price_clock c)) (prices c)).
Definition find_active (provider model : str) (c : PriceCatalog) :
    outcome db_error (option PriceEntry) * PriceCatalog :=
  let c' := mkPriceCatalog (prices c) (price_clock c) (tail (price_down c)) in
  match price_down c with
  | true :: _ => (Err Unavailable, c')
  | _ => (Ok (find_active_sql provider model c), c')
  end.
(** A failed lookup counts as no price. *)
Definition estimate_cost (provider model : str) (input_tokens output_tokens : Z) (c : PriceCatalog) :
    option CostEstimate * PriceCatalog :=
  let '(r, c) := find_active provider model c in
  let entry := match r with Ok e => e | _ => None end in
  (estimate_cost_inner entry input_tokens output_tokens, c).
End Cost.

(** ** The ledger *)

Inductive CacheStatus := Hit | Miss | Bypass.
Definition cache_status_as_str (s : CacheStatus) : str :=
  match s with Hit => lit "hit" | Miss => lit "miss" | Bypass => lit "bypass" end.

Record LedgerRecordInput := mkLedgerRecordInput {
  lr_request_id : str;
  lr_generation_id : str;
  lr_route : str;
  lr_request_type : str;
  lr_provider : str;
  lr_primary_provider : str;
  lr_model : str;
  lr_requested_model : str;
  lr_latency_ms : option Q;
  lr_retry_count : Z;
  lr_cache_status : CacheStatus;
  lr_final_status : str;
  lr_error_class : option str;
  lr_error_code : option str;
  lr_fallback_used : bool;
  lr_fallback_reason : option str;
  lr_attempted_providers : list str;
  lr_upstream_request_id : option str;
  lr_provider_response_id : option str;
  lr_provider_model_version : option str;
  lr_finish_reason : option str;
  lr_candidate_index : option Z;
  lr_input_tokens : option Z;
  lr_output_tokens : option Z;
  lr_total_tokens : option Z;
  lr_estimated_cost_usd : option Q;
  lr_cache_key : option str;
  lr_metadata : value;
  lr_completed_at : option Z
}.
Record LedgerEntry := mkLedgerEntry {
  le_id : Z;
  le_request_id : str;
  le_generation_id : str;
  le_route : str;
  le_request_type : str;
  le_provider : str;
  le_primary_provider : str;
  le_model : str;
  le_requested_model : str;
  le_latency_ms : option Q;
  le_retry_count : Z;
  le_cache_status : str;
  le_final_status : str;
  le_error_class : option str;
  le_error_code : option str;
  le_fallback_used : bool;
  le_fallback_reason : option str;
  le_attempted_providers : value;
  le_upstream_request_id : option str;
  le_provider_response_id : option str;
  le_provider_model_version : option str;
  le_finish_reason : option str;
  le_candidate_index : option Z;
  le_input_tokens : option Z;
  le_output_tokens : option Z;
  le_total_tokens : option Z;
  le_estimated_cost_usd : option Q;
  le_cache_key : option str;
  le_metadata : value;
  le_created_at : Z;
  le_completed_at : option Z
}.

Record Ledger := mkLedger {
  ledger_rows : list LedgerEntry;
  next_ledger_id : Z;
  ledger_clock : Z;
  ledger_down : list bool
}.
#[export] Instance Ledger_eta : Eta Ledger := λ l,
  mkLedger (ledger_rows l) (next_ledger_id l) (ledger_clock l) (ledger_down l).

(** A text column of at most [n] characters; PostgreSQL has no NUL. *)
Definition varchar (n : nat) (s : str) : bool := (length s <=? n)%nat && forallb (λ c, negb (c =? 0)) s.
Definition varchar_null (n : nat) (o : option str) : bool :=
  match o with Some s => varchar n s | None => true end.
Definition count_null (o : option Z) : bool := match o with Some z => in_bigint z | None => true end.
(** NUMERIC(12, 2): rounded to two places, for values that are not negative. *)
Definition numeric2 (q : Q) : Q := Qmake (Qfloor (q * 100 + (1 # 2))%Q) 100.
Fixpoint json_clean (v : value) : bool :=
  match v with
  | String s => forallb (λ c, negb (c =? 0)) s
  | Array l => forallb json_clean l
  | Object m => forallb (λ '(k, v), forallb (λ c, negb (c =? 0)) k && json_clean v) m
  | _ => true
  end.

(** The constraints of 20260712000103_create_llm_request_ledger_table.sql. *)
Definition ledger_ok (i : LedgerRecordInput) : bool :=
  varchar 255 (lr_request_id i) && varchar 100 (lr_generation_id i)
  && bool_decide (lr_route i ∈ [ROUTE_INTERPRET; ROUTE_RESPOND])
  && varchar 100 (lr_request_type i) && varchar 100 (lr_provider i) && varchar 100 (lr_primary_provider i)
  && varchar 200 (lr_model i) && varchar 200 (lr_requested_model i)
  && match lr_latency_ms i with Some q => Qle_bool (numeric2 q) (9999999999 + (99 # 100))%Q | None => true end
  && (0 <=? lr_retry_count i) && (lr_retry_count i <? 2 ^ 31)
  && varchar 32 (lr_final_status i) && varchar_null 255 (lr_error_class i) && varchar_null 100 (lr_error_code i)
  && varchar_null 100 (lr_fallback_reason i) && forallb (forallb (λ c, negb (c =? 0))) (lr_attempted_providers i)
  && varchar_null 255 (lr_upstream_request_id i) && varchar_null 255 (lr_provider_response_id i)
  && varchar_null 200 (lr_provider_model_version i) && varchar_null 100 (lr_finish_reason i)
  && count_null (lr_input_tokens i) && count_null (lr_output_tokens i) && count_null (lr_total_tokens i)
  && match lr_estimated_cost_usd i with Some q => numeric8_ok (numeric8 q) | None => true end
  && match lr_cache_key i with Some k => bool_decide (is_Some (bpchar64 k)) | None => true end && json_clean (lr_metadata i)
  && match lr_metadata i with Object _ => true | _ => false end.

Definition ledger_row (i : LedgerRecordInput) (id_ now : Z) : LedgerEntry :=
  mkLedgerEntry id_ (lr_request_id i) (lr_generation_id i) (lr_route i) (lr_request_type i) (lr_provider i)
    (lr_primary_provider i) (lr_model i) (lr_requested_model i) (numeric2 <$> lr_latency_ms i) (lr_retry_count i)
    (cache_status_as_str (lr_cache_status i)) (lr_final_status i) (lr_error_class i) (lr_error_code i)
    (lr_fallback_used i) (lr_fallback_reason i) (Array (String <$> lr_attempted_providers i))
    (lr_upstream_request_id i) (lr_provider_response_id i) (lr_provider_model_version i) (lr_finish_reason i)
    (lr_candidate_index i) (lr_input_tokens i) (lr_output_tokens i) (lr_total_tokens i)
    (numeric8 <$> lr_estimated_cost_usd i) (lr_cache_key i ≫= bpchar64) (lr_metadata i) now (lr_completed_at i).

(** [record]: [INSERT_SQL]; the request id is unique. *)
Definition record_entry (input : LedgerRecordInput) (l : Ledger) : outcome db_error LedgerEntry * Ledger :=
  let down := match ledger_down l with d :: _ => d | [] => false end in
  let l := l <| ledger_down := tail (ledger_down l) |> in
  if down then (Err Unavailable, l)
  else
    let row := ledger_row input (next_ledger_id l) (ledger_clock l) in
    let l := l <| next_ledger_id := next_ledger_id l + 1 |> in
    if negb (ledger_ok input) then (Err CheckViolation, l)
    else if existsb (λ r, bool_decide (le_request_id r = lr_request_id input)) (ledger_rows l)
    then (Err UniqueViolation, l)
    else (Ok row, l <| ledger_rows := ledger_rows l ++ [row] |>).

(** [now] is [Utc::now()]. *)
Definition record_completed (now : Z) (request_id generation_id route request_type provider primary_provider model
    requested_model : str) (latency_ms : option Q) (retry_count : Z) (cache_status : CacheStatus)
    (input_tokens output_tokens total_tokens : option Z) (estimated_cost_usd : option Q) (fallback_used : bool)
    (fallback_reason : option str) (attempted_providers : list str) (cache_key : option str) (metadata : value)
    (l : Ledger) : outcome db_error LedgerEntry * Ledger :=
  record_entry (mkLedgerRecordInput request_id generation_id route request_type provider primary_provider model
    requested_model latency_ms retry_count cache_status (lit "completed") None None fallback_used fallback_reason
    attempted_providers None None None None None input_tokens output_tokens total_tokens estimated_cost_usd
    cache_key metadata (Some now)) l.

Definition record_failure (now : Z) (request_id generation_id route request_type provider primary_provider model
    requested_model : str) (cache_status : CacheStatus) (error_class error_code : option str) (fallback_used : bool)
    (fallback_reason : option str) (attempted_providers : list str) (metadata : value) (l : Ledger) :
    outcome db_error LedgerEntry * Ledger :=
  record_entry (mkLedgerRecordInput request_id generation_id route request_type provider primary_provider model
    requested_model None 0 cache_status (lit "failed") error_class error_code fallback_used fallback_reason
    attempted_providers None None None None None None None None None None metadata (Some now)) l.

(** ** Lemmas: prices *)

Section CostFacts.
Context `{DecimalLaws}.

Lemma token_cost_exact (m tokens : Z) (rate : Q) :
  (rate == decimal m 8)%Q -> 0 <= tokens -> 0 <= m -> m * tokens < 2 ^ 96 ->
  exists c, token_cost rate tokens = Some c /\ (c == decimal (m * tokens) 14)%Q.
Proof.
  intros Hrate Ht Hm Hbound. unfold token_cost. destruct (Z.ltb_spec 0 tokens) as [Hpos|Hzero].
  2: { assert (tokens = 0) as -> by lia. exists 0%Q. split; [done|]. unfold decimal, Qeq. cbn. lia. }
  assert (rate * decimal tokens 0 == decimal (m * tokens) 8)%Q as Hmul.
  { rewrite Hrate. unfold decimal, Qeq. cbn. lia. }
  destruct (decimal_mul_exact rate (decimal tokens 0)) as (c & -> & Hc).
  { exists (m * tokens), 8%nat. split; [exact Hmul|]. lia. }
  cbn.
  assert (c / decimal 1000000 0 == decimal (m * tokens) 14)%Q as Hdiv.
  { rewrite Hc, Hmul. unfold decimal, Qeq, Qdiv, Qmult, Qinv. cbn. lia. }
  destruct (decimal_div_exact c (decimal 1000000 0)) as (d & -> & Hd).
  { unfold decimal, Qeq. cbn. lia. }
  { exists (m * tokens), 14%nat. split; [exact Hdiv|]. lia. }
  exists d. split; [done|]. by rewrite Hd.
Qed.
End CostFacts.

Lemma later_price_spec (best : option PriceEntry) l r :
  foldl later_price best l = Some r ->
  (best = Some r \/ r ∈ l) /\ (forall p, best = Some p \/ p ∈ l -> pe_effective_from p <= pe_effective_from r).
Proof.
  revert best. induction l as [|q l IH]; intros best; cbn.
  { intros ->. split; [by left|]. intros p [[= ->]|Hp]; [lia|by apply not_elem_of_nil in Hp]. }
  intros Hr. destruct (IH _ Hr) as [Hin Hmax]. unfold later_price in *. destruct best as [b|].
  - destruct (Z.ltb_spec (pe_effective_from b) (pe_effective_from q)) as [Hlt|Hle].
    + split; [destruct Hin as [[= ->]|Hin]; right; [by left|by right]|].
      intros p [[= ->]|[->|Hp]%elem_of_cons]; [|by apply Hmax; left|by apply Hmax; right].
      specialize (Hmax q (or_introl eq_refl)). lia.
    + split; [destruct Hin as [?|Hin]; [by left|right; by right]|].
      intros p [Hp|[->|Hp]%elem_of_cons]; [by apply Hmax; left| |by apply Hmax; right].
      specialize (Hmax b (or_introl eq_refl)). lia.
  - split; [destruct Hin as [[= ->]|Hin]; right; [by left|by right]|].
    intros p [?|[->|Hp]%elem_of_cons]; [done|by apply Hmax; left|by apply Hmax; right].
Qed.
Lemma later_price_some b l : is_Some (foldl later_price (Some b) l).
Proof. revert b. induction l as [|q l IH]; intros b; cbn; [done|]. destruct (_ <? _); apply IH. Qed.

(** The price found is the latest of those in effect; none is found when there is none. *)
Lemma find_active_latest provider model c :
  match find_active_sql provider model c with
  | Some p => p ∈ prices c /\ in_effect provider model (price_clock c) p = true
              /\ forall q, q ∈ prices c -> in_effect provider model (price_clock c) q = true ->
                 pe_effective_from q <= pe_effective_from p
  | None => forall q, q ∈ prices c -> in_effect provider model (price_clock c) q = false
  end.
Proof.
  unfold find_active_sql. set (l := List.filter (in_effect provider model (price_clock c)) (prices c)).
  assert (forall q, q ∈ l <-> q ∈ prices c /\ in_effect provider model (price_clock c) q = true) as Hl.
  { intros q. unfold l. by rewrite list_elem_of_In, List.filter_In, list_elem_of_In. }
  destruct (foldl later_price None l) as [p|] eqn:E.
  - apply later_price_spec in E as [[?|Hp] Hmax]; [done|]. apply Hl in Hp as [Hp He]. split; [done|]. split; [done|].
    intros q Hq Hqe. apply Hmax. right. by apply Hl.
  - destruct l as [|p l'] eqn:El; [|by destruct (later_price_some p l') as [r Hr]; cbn in E; rewrite Hr in E].
    intros q Hq. destruct (in_effect provider model (price_clock c) q) eqn:He; [|done].
    assert (q ∈ (@nil PriceEntry)) as Hn by (by apply Hl). by apply not_elem_of_nil in Hn.
Qed.

(** What a call is estimated to cost: for prices with eight decimals and token counts within the 96
    bits of a decimal, exactly the price per million tokens of the latest price in effect, or of the
    defaults 0.10 and 0.40 where there is none; a failed lookup counts as none. *)
Lemma estimate_cost_exact `{DecimalLaws} (provider model : str) (input_tokens output_tokens : Z) (c : PriceCatalog)
    (mi mo : Z) :
  let entry := if match price_down c with d :: _ => d | [] => false end then None else find_active_sql provider model c in
  (input_rate entry == decimal mi 8)%Q -> (output_rate entry == decimal mo 8)%Q ->
  0 <= mi -> 0 <= mo -> 0 <= input_tokens -> 0 <= output_tokens ->
  mi * input_tokens + mo * output_tokens < 2 ^ 96 ->
  exists e, fst (estimate_cost provider model input_tokens output_tokens c) = Some e
    /\ (total_cost_usd e
        == (input_rate entry * inject_Z input_tokens + output_rate entry * inject_Z output_tokens) / 1000000)%Q
    /\ (total_cost_usd e == input_cost_usd e + output_cost_usd e)%Q.
Proof.
  intros entry Hi Ho Hmi Hmo Hti Hto Hbound.
  assert (fst (estimate_cost provider model input_tokens output_tokens c) = estimate_cost_inner entry input_tokens output_tokens) as ->.
  { unfold estimate_cost, find_active, entry. by destruct (price_down c) as [|[] ?]. }
  unfold estimate_cost_inner.
  destruct (token_cost_exact mi input_tokens (input_rate entry) Hi) as (ci & -> & Hci); [lia|lia|nia|].
  destruct (token_cost_exact mo output_tokens (output_rate entry) Ho) as (co & -> & Hco); [lia|lia|nia|]. cbn.
  assert (ci + co == decimal (mi * input_tokens + mo * output_tokens) 14)%Q as Hsum.
  { rewrite Hci, Hco. unfold decimal, Qeq, Qplus. cbn. lia. }
  destruct (decimal_add_exact ci co) as (t & -> & Ht).
  { exists (mi * input_tokens + mo * output_tokens), 14%nat. split; [exact Hsum|]. nia. }
  eexists. split; [reflexivity|]. cbn. split; [|exact Ht].
  rewrite Ht, Hsum, Hi, Ho. unfold decimal, Qeq, Qdiv, Qplus, Qmult, Qinv. cbn. lia.
Qed.

(** ** Lemmas: the ledger *)

Lemma record_entry_spec input l :
  let '(r, l') := record_entry input l in
  match r with
  | Ok row => ledger_rows l' = ledger_rows l ++ [row] /\ ledger_ok input = true
              /\ le_request_id row = lr_request_id input
              /\ row = ledger_row input (next_ledger_id l) (ledger_clock l)
  | _ => ledger_rows l' = ledger_rows l
  end.
Proof.
  unfold record_entry. destruct (match ledger_down l with d :: _ => d | [] => false end); [done|].
  destruct (ledger_ok input) eqn:Hok; [|done]. cbn.
  destruct (existsb _ _); [done|]. done.
Qed.

(** An error code of more than 100 characters does not fit its column: the failure is not written. *)
Lemma long_code_rejected input code :
  lr_error_code input = Some code -> (100 < length code)%nat -> ledger_ok input = false.
Proof.
  intros Hcode Hlen. unfold ledger_ok. rewrite Hcode. cbn [varchar_null]. unfold varchar at 9.
  rewrite (proj2 (Nat.leb_gt (length code) 100)) by done. cbn [andb]. by rewrite !andb_false_r.
Qed.
Lemma long_reason_rejected input reason :
  lr_fallback_reason input = Some reason -> (100 < length reason)%nat -> ledger_ok input = false.
Proof.
  intros Hreason Hlen. unfold ledger_ok. rewrite Hreason. cbn [varchar_null]. unfold varchar at 9.
  rewrite (proj2 (Nat.leb_gt (length reason) 100)) by done. cbn [andb]. by rewrite !andb_false_r.
Qed.

(** ** Concrete data *)

Module LedgerWitness.
(** Exact rationals. *)
#[export] Instance exact_decimals : DecimalOps := {|
  decimal_mul a b := Some (a * b)%Q; decimal_div a b := Some (a / b)%Q; decimal_add a b := Some (a + b)%Q |}.
#[export] Instance exact_decimal_laws : DecimalLaws.
Proof. split; intros; by eexists. Qed.

Definition no_prices : PriceCatalog := mkPriceCatalog [] 0 [].
Lemma estimate_cost_exact_witness : exists e,
  fst (estimate_cost (lit "openrouter") (lit "minimax/minimax-m3") 500 2000 no_prices) = Some e
  /\ (total_cost_usd e == 85 # 100000)%Q.
Proof.
  destruct (estimate_cost_exact (lit "openrouter") (lit "minimax/minimax-m3") 500 2000 no_prices 10000000 40000000)
    as (e & He & Ht & _); [reflexivity|reflexivity|lia|lia|lia|lia|reflexivity|].
  exists e. split; [exact He|]. rewrite Ht. reflexivity.
Defined.

Definition empty_ledger : Ledger := mkLedger [] 1 0 [].
Definition failure (code : str) : LedgerRecordInput :=
  mkLedgerRecordInput (lit "r") (lit "g") ROUTE_INTERPRET (lit "t") (lit "p") (lit "p") (lit "m") (lit "m") None 0 Miss
    (lit "failed") None (Some code) false None [] None None None None None None None None None None (obj []) None.
Example failures_recorded :
  length (ledger_rows (record_entry (failure (lit "API error (status=502): bad gateway")) empty_ledger).2) = 1%nat
  /\ length (ledger_rows (record_entry (failure (replicate 101 97)) empty_ledger).2) = 0%nat.
Proof. vm_compute. done. Qed.
End LedgerWitness.
