(* ===== verification/Router.v ===== *)
(** * The provider router (src/src/providers/router.rs, mod.rs)

    A completion request goes to the primary provider with retries, then to the
    fallback; a counter of consecutive failures opens a circuit breaker. A
    provider is an arbitrary operation on an environment; the router records the
    calls it makes and the time it sleeps. *)

From stdpp Require Import base list option strings.
From Stdlib Require Import ZArith Lia Floats.SpecFloat.
From S2P Require Import Prelude RustStr Json Floats Store.
#[local] Open Scope Z_scope.

(** ** Requests, responses and errors *)

Record ChatMessage := { role : str; content : str }.
Record ResponseFormat := { format_type : str }.
Record CompletionRequest := mkRequest {
  rq_model : str;
  rq_models : option (list str);
  rq_messages : list ChatMessage;
  rq_response_format : option ResponseFormat;
  rq_max_tokens : option Z;
  rq_temperature : option spec_float
}.
#[export] Instance CompletionRequest_eta : Eta CompletionRequest := λ r,
  mkRequest (rq_model r) (rq_models r) (rq_messages r) (rq_response_format r) (rq_max_tokens r)
    (rq_temperature r).

(** [CompletionRequest::new] and [with_json_mode]. *)
Definition new_request (model : str) (messages : list ChatMessage) : CompletionRequest :=
  mkRequest model None messages None None None.
Definition with_json_mode (r : CompletionRequest) : CompletionRequest :=
  r <| rq_response_format := Some {| format_type := lit "json_object" |} |>.

Record Usage := { prompt_tokens : option Z; completion_tokens : option Z; total_tokens : option Z }.
Record Choice := { message : ChatMessage; finish_reason : option str; index : Z }.
Record CompletionResponse := {
  choices : list Choice;
  usage : option Usage;
  rs_model : option str
}.
Definition first_choice_content (r : CompletionResponse) : option str :=
  (λ c, content (message c)) <$> head (choices r).
Definition first_finish_reason (r : CompletionResponse) : option str :=
  head (choices r) ≫= finish_reason.

(** [Http] carries the text of the [reqwest::Error]. *)
Inductive ProviderError :=
| Http (msg : str)
| Api (status : Z) (body : str)
| Deserialization (msg : str)
| AllExhausted (attempts : Z) (reason : str)
| Config (msg : str).

Definition provider_error_text (e : ProviderError) : str :=
  match e with
  | Http msg => lit "HTTP transport error: " ++ msg
  | Api st body => lit "API error (status=" ++ z_to_string st ++ lit "): " ++ body
  | Deserialization msg => lit "Deserialization error: " ++ msg
  | AllExhausted n reason =>
      lit "All providers exhausted after " ++ z_to_string n ++ lit " attempt(s): " ++ reason
  | Config msg => lit "Provider configuration error: " ++ msg
  end.

Notation answer := (ProviderError + CompletionResponse)%type.

Record RetryConfig := { max_attempts : Z; base_backoff_ms : Z }.
Definition default_retry_config : RetryConfig := {| max_attempts := 3; base_backoff_ms := 500 |}.

(** ** The router *)

Section Router.
Context {Env : Type}.

(** The [Provider] trait. *)
Definition Provider : Type := CompletionRequest -> Env -> answer * Env.

Inductive event := Called (fallback_provider : bool) | Slept (ms : Z).

(** Counters, and what happened so far. *)
Record RouterState := mkRouterState {
  env : Env;
  trace : list event;
  consecutive_failures : Z
}.
#[export] Instance RouterState_eta : Eta RouterState := λ s,
  mkRouterState (env s) (trace s) (consecutive_failures s).

Record ProviderRouter := mkRouter {
  primary : Provider;
  fallback : option Provider;
  retry_config : RetryConfig;
  circuit_breaker_threshold : Z
}.
#[export] Instance ProviderRouter_eta : Eta ProviderRouter := λ r,
  mkRouter (primary r) (fallback r) (retry_config r) (circuit_breaker_threshold r).

Definition new_router (p : Provider) : ProviderRouter := mkRouter p None default_retry_config 5.
Definition with_fallback (r : ProviderRouter) (p : Provider) : ProviderRouter := r <| fallback := Some p |>.
Definition with_retry_config (r : ProviderRouter) (c : RetryConfig) : ProviderRouter := r <| retry_config := c |>.
Definition with_circuit_breaker_threshold (r : ProviderRouter) (n : Z) : ProviderRouter :=
  r <| circuit_breaker_threshold := n |>.

Definition is_circuit_open (r : ProviderRouter) (s : RouterState) : bool :=
  circuit_breaker_threshold r <=? consecutive_failures s.

(** [base_backoff_ms * (1u64 << (attempt - 1))], wrapping in a release build. *)
Definition backoff_ms (base attempt : Z) : Z := u64_wrap (base * 2 ^ ((attempt - 1) mod 64)).

(** The attempts left, from [attempt] on; [n] counts them. *)
Fixpoint try_attempts (c : RetryConfig) (which : bool) (p : Provider) (req : CompletionRequest)
    (n : nat) (attempt : Z) (last_error : option ProviderError) (s : RouterState) : answer * RouterState :=
  match n with
  | O => (inl (default (AllExhausted (max_attempts c) (lit "unknown error")) last_error), s)
  | S n =>
      let '(r, e) := p req (env s) in
      let s := s <| env := e |> <| trace := trace s ++ [Called which] |> in
      match r with
      | inr response => (inr response, s)
      | inl (Config msg) => (inl (Config msg), s)
      | inl err =>
          let s := if attempt <? max_attempts c
                   then s <| trace := trace s ++ [Slept (backoff_ms (base_backoff_ms c) attempt)] |>
                   else s in
          try_attempts c which p req n (attempt + 1) (Some err) s
      end
  end.

Definition try_provider_with_retry (r : ProviderRouter) (which : bool) (p : Provider)
    (req : CompletionRequest) (s : RouterState) : answer * RouterState :=
  try_attempts (retry_config r) which p req (Z.to_nat (max_attempts (retry_config r))) 1 None s.

Definition complete (r : ProviderRouter) (request : CompletionRequest) (s : RouterState) : answer * RouterState :=
  if is_circuit_open r s then
    (inl (AllExhausted 0 (lit "circuit breaker is open " ++ [8212] ++ lit " too many consecutive failures")), s)
  else
    let attempts := max_attempts (retry_config r) in
    match try_provider_with_retry r false (primary r) request s with
    | (inr response, s) => (inr response, s <| consecutive_failures := 0 |>)
    | (inl primary_err, s) =>
        let s := s <| consecutive_failures := u32_wrap (consecutive_failures s + 1) |> in
        match fallback r with
        | Some p =>
            match try_provider_with_retry r true p request s with
            | (inr response, s) => (inr response, s <| consecutive_failures := 0 |>)
            | (inl fallback_err, s) =>
                (inl (AllExhausted (u32_wrap (attempts * 2))
                        (lit "primary: " ++ provider_error_text primary_err
                           ++ lit ", fallback: " ++ provider_error_text fallback_err)), s)
            end
        | None => (inl (AllExhausted attempts (provider_error_text primary_err)), s)
        end
    end.
End Router.

(** ** Lemmas: attempts *)

Section RouterFacts.
Context {Env : Type}.

(** A provider called [k] times in a row. *)
Fixpoint calls (p : Provider (Env:=Env)) (req : CompletionRequest) (k : nat) (e : Env) : list answer * Env :=
  match k with
  | O => ([], e)
  | S k => let '(a, e) := p req e in let '(rest, e) := calls p req k e in (a :: rest, e)
  end.

(** An answer after which the router tries again. *)
Definition retryable (a : answer) : bool :=
  match a with
  | inr _ | inl (Config _) => false
  | inl _ => true
  end.
Definition error_of (a : answer) : option ProviderError :=
  match a with inl e => Some e | inr _ => None end.

(** The trace of [k] attempts: a call each, and a sleep between two. *)
Fixpoint attempt_events (which : bool) (base : Z) (k : nat) (attempt : Z) : list event :=
  match k with
  | O => []
  | S O => [Called which]
  | S k => Called which :: Slept (backoff_ms base attempt) :: attempt_events which base k (attempt + 1)
  end.

(** From environment [e], the provider is called at least once and at most [max_attempts] times,
    until an answer that is not retryable; [a] is its last answer. *)
Definition tried (c : RetryConfig) (which : bool) (p : Provider (Env:=Env)) (req : CompletionRequest)
    (n : nat) (attempt : Z) (e : Env) (a : answer) (evs : list event) (e' : Env) : Prop :=
  exists front, calls p req (S (length front)) e = (front ++ [a], e') /\ Forall (λ x, retryable x = true) front /\
    (length front < n)%nat /\ (retryable a = true -> S (length front) = n) /\
    evs = attempt_events which (base_backoff_ms c) (S (length front)) attempt.

Lemma try_attempts_S c which p req n attempt last (s : RouterState (Env:=Env)) :
  try_attempts c which p req (S n) attempt last s =
  let '(a, e) := p req (env s) in
  let s1 := s <| env := e |> <| trace := trace s ++ [Called which] |> in
  if retryable a then
    try_attempts c which p req n (attempt + 1) (error_of a)
      (if attempt <? max_attempts c
       then s1 <| trace := trace s1 ++ [Slept (backoff_ms (base_backoff_ms c) attempt)] |> else s1)
  else (a, s1).
Proof. cbn [try_attempts]. by destruct (p req (env s)) as [[[]|] e]. Qed.

Lemma error_of_retryable a d : retryable a = true -> inl (default d (error_of a)) = a.
Proof. by destruct a as [[]|]. Qed.

Lemma try_attempts_spec c which p req n : forall attempt last s,
  Z.of_nat n = max_attempts c - attempt + 1 -> (0 < n)%nat ->
  exists a evs e', try_attempts c which p req n attempt last s =
      (a, mkRouterState e' (trace s ++ evs) (consecutive_failures s)) /\
    tried c which p req n attempt (env s) a evs e'.
Proof.
  induction n as [|n IH]; intros attempt last s Hn Hpos; [lia|]. rewrite try_attempts_S.
  destruct (p req (env s)) as [a e] eqn:Hp. cbv zeta.
  assert (retryable a = false \/ n = 0%nat ->
    tried c which p req (S n) attempt (env s) a [Called which] e) as Hlast.
  { intros Hor. exists []. simpl. rewrite Hp. split; [done|]. split; [constructor|]. split; [lia|].
    split; [|done]. destruct Hor as [Hf| ->]; [congruence|done]. }
  destruct (retryable a) eqn:Ha; [|exists a, [Called which], e; split; [done|auto]].
  destruct n as [|n].
  { rewrite (proj2 (Z.ltb_ge _ _)) by lia. cbn [try_attempts]. rewrite error_of_retryable by done.
    exists a, [Called which], e. split; [done|auto]. }
  rewrite (proj2 (Z.ltb_lt _ _)) by lia.
  destruct (IH (attempt + 1) (error_of a) (mkRouterState e ((trace s ++ [Called which]) ++
    [Slept (backoff_ms (base_backoff_ms c) attempt)]) (consecutive_failures s)))
    as (a' & evs & e' & Hrun & front & Hcalls & Hall & Hlen & Hmax & ->); [lia|lia|].
  eexists a', _, e'. split; [etransitivity; [exact Hrun|]; cbn [trace consecutive_failures]; rewrite <- !app_assoc; reflexivity|].
  exists (a :: front). cbn [env] in Hcalls. split; [|split; [by constructor|split; [simpl; lia|split; [|done]]]].
  - cbn [calls length] in *. rewrite Hp. by rewrite Hcalls.
  - intros Hr. simpl. by rewrite (Hmax Hr).
Qed.
End RouterFacts.

(** ** Properties *)

(** C25. The router. With the circuit open a request fails at once, no provider is called and
    nothing changes (so the circuit, once open, stays open). Otherwise the primary provider is
    called until it answers, with something else than a retryable error, or [max_attempts] calls
    were made, sleeping between two calls for a time that doubles; only when it failed is the
    fallback tried, the same way; an answer of either is passed on and resets the failure counter,
    failure of both is reported and counted once. *)
Theorem router_complete_spec {Env : Type} (r : ProviderRouter (Env:=Env)) req s a s'
  (Hmax : 1 <= max_attempts (retry_config r)) (Hrun : complete r req s = (a, s')) :
  let c := retry_config r in
  let n := Z.to_nat (max_attempts c) in
  if is_circuit_open r s then s' = s /\ exists reason, a = inl (AllExhausted 0 reason)
  else
    exists a1 evs1 e1, tried c false (primary r) req n 1 (env s) a1 evs1 e1 /\
      match a1, fallback r with
      | inr _, _ => a = a1 /\ s' = mkRouterState e1 (trace s ++ evs1) 0
      | inl err1, None => a = inl (AllExhausted (max_attempts c) (provider_error_text err1)) /\
          s' = mkRouterState e1 (trace s ++ evs1) (u32_wrap (consecutive_failures s + 1))
      | inl _, Some p =>
          exists a2 evs2 e2, tried c true p req n 1 e1 a2 evs2 e2 /\
            trace s' = trace s ++ evs1 ++ evs2 /\ env s' = e2 /\
            match a2 with
            | inr _ => a = a2 /\ consecutive_failures s' = 0
            | inl _ => (exists reason, a = inl (AllExhausted (u32_wrap (max_attempts c * 2)) reason)) /\
                consecutive_failures s' = u32_wrap (consecutive_failures s + 1)
            end
      end.
Proof.
  cbv zeta. unfold complete in Hrun. destruct (is_circuit_open r s); [injection Hrun as <- <-; eauto|].
  unfold try_provider_with_retry in Hrun. set (n := Z.to_nat (max_attempts (retry_config r))) in *.
  destruct (try_attempts_spec (retry_config r) false (primary r) req n 1 None s)
    as (a1 & evs1 & e1 & Hrun1 & Ht1); [lia|lia|].
  rewrite Hrun1 in Hrun. exists a1, evs1, e1. split; [exact Ht1|].
  destruct a1 as [err1|resp]; [|by injection Hrun as <- <-].
  destruct (fallback r) as [p|]; [|by injection Hrun as <- <-].
  match type of Hrun with context [try_attempts _ true p req n 1 None ?s1] =>
    destruct (try_attempts_spec (retry_config r) true p req n 1 None s1)
      as (a2 & evs2 & e2 & Hrun2 & Ht2); [lia|lia|] end.
  rewrite Hrun2 in Hrun. exists a2, evs2, e2. split; [exact Ht2|].
  destruct a2 as [err2|resp]; injection Hrun as <- <-; simpl; rewrite <- app_assoc; eauto.
Qed.

(** The open circuit never closes again: no request reaches a provider, so nothing resets the
    counter. *)
Lemma open_circuit_is_permanent {Env : Type} (r : ProviderRouter (Env:=Env)) reqs s :
  is_circuit_open r s = true -> foldl (λ s req, (complete r req s).2) s reqs = s.
Proof.
  intros Hopen. induction reqs as [|req reqs IH]; [done|]. simpl.
  assert ((complete r req s).2 = s) as -> by (unfold complete; by rewrite Hopen). exact IH.
Qed.

(** ** Witnesses *)

Module RouterWitness.

Definition hello : CompletionRequest := new_request (lit "m") [].
Definition reply : CompletionResponse := {| choices := []; usage := None; rs_model := None |}.
(** A provider that fails as often as its environment says. *)
Definition flaky : Provider (Env:=nat) := λ _ n,
  match n with O => (inr reply, O) | S n => (inl (Api 503 []), n) end.
Definition start_state (n : nat) : RouterState (Env:=nat) := mkRouterState n [] 0.

Lemma router_complete_spec_witness :
  complete (new_router flaky) hello (start_state 2) =
    (inr reply, mkRouterState 0%nat [Called false; Slept 500; Called false; Slept 1000; Called false] 0) /\
  exists front, calls flaky hello (S (length front)) 2%nat = (front ++ [inr reply], 0%nat) /\
    (length front < 3)%nat.
Proof.
  split; [vm_compute; reflexivity|].
  destruct (router_complete_spec (new_router flaky) hello (start_state 2) (inr reply)
    (mkRouterState 0%nat [Called false; Slept 500; Called false; Slept 1000; Called false] 0))
    as (a1 & evs1 & e1 & (front & Hcalls & _ & Hlen & _) & Hres).
  - vm_compute. discriminate.
  - vm_compute. reflexivity.
  - destruct a1 as [err|resp]; [destruct Hres as [Hbad _]; discriminate|].
    destruct Hres as [Ha Hs]. injection Ha as <-. injection Hs as <- _. by exists front.
Defined.
End RouterWitness.
