(* ===== verification/LlmService.v ===== *)
(** * What the LLM services share (src/src/llm/interpret.rs, draft.rs, respond.rs)

    The services check the governance buckets, look for a stored response, and otherwise call the
    provider router, store the response and write down what it cost. This file holds the state they
    work on (the cache, the buckets, the router, the ledger and the prices, each with its own schedule
    of failures), the monad they run in, the calls they make the same way, and what each of these
    leaves alone. *)

From stdpp Require Import base gmap list option strings.
From Stdlib Require Import ZArith QArith Lia.
From S2P Require Import Prelude RustStr Json Canon Store Cache RateLimit Ledger Router.
#[local] Open Scope Z_scope.

(** ** The state of a service *)

Record Services {Env : Type} := mkServices {
  sv_cache : CS;
  sv_limits : RL;
  sv_router : RouterState (Env:=Env);
  sv_ledger : Ledger;
  sv_prices : PriceCatalog;
  sv_elapsed : list Z;          (* what [start.elapsed().as_millis()] will read *)
  sv_now : list Z               (* what [Utc::now()] will read *)
}.
Arguments Services : clear implicits.
#[export] Instance Services_eta {Env} : Eta (Services Env) := λ s,
  mkServices Env (sv_cache s) (sv_limits s) (sv_router s) (sv_ledger s) (sv_prices s) (sv_elapsed s) (sv_now s).

Definition LM (Env E A : Type) : Type := Services Env -> outcome E A * Services Env.
#[export] Instance LM_ret Env E : MRet (LM Env E) := λ A a s, (Ok a, s).
#[export] Instance LM_bind Env E : MBind (LM Env E) := λ A B k m s,
  match m s with
  | (Ok a, s') => k a s'
  | (Err e, s') => (Err e, s')
  | (Panic, s') => (Panic, s')
  end.

Section Lift.
Context {Env E : Type}.
Implicit Types s : Services Env.

Definition fails {A} (e : E) : LM Env E A := λ s, (Err e, s).
Definition returned {A} (r : outcome E A) : LM Env E A := λ s, (r, s).
(** [m.await.map_err(f)?] for an operation on one of the parts. *)
Definition on_cache {A} (f : db_error -> E) (m : CM A) : LM Env E A := λ s,
  let '(r, c) := m (sv_cache s) in (map_err f r, s <| sv_cache := c |>).
Definition on_limits {A} (f : db_error -> E) (m : RM A) : LM Env E A := λ s,
  let '(r, l) := m (sv_limits s) in (map_err f r, s <| sv_limits := l |>).
(** [let _ = ledger.record(...).await] and [if let Err(e) = cache.store(...).await]: an error is dropped. *)
Definition dropped {A} (r : outcome db_error A) : outcome E unit :=
  match r with Panic => Panic | _ => Ok () end.
Definition on_cache_ignoring {A} (m : CM A) : LM Env E unit := λ s,
  let '(r, c) := m (sv_cache s) in (dropped r, s <| sv_cache := c |>).
Definition on_limits_ignoring {A} (m : RM A) : LM Env E unit := λ s,
  let '(r, l) := m (sv_limits s) in (dropped r, s <| sv_limits := l |>).
Definition on_ledger (m : Ledger -> outcome db_error LedgerEntry * Ledger) : LM Env E unit := λ s,
  let '(r, l) := m (sv_ledger s) in (dropped r, s <| sv_ledger := l |>).

Definition utc_now : LM Env E Z := λ s,
  match sv_now s with t :: rest => (Ok t, s <| sv_now := rest |>) | [] => (Ok 0, s) end.
Definition elapsed_ms : LM Env E Z := λ s,
  match sv_elapsed s with t :: rest => (Ok t, s <| sv_elapsed := rest |>) | [] => (Ok 0, s) end.
(** [Decimal::new(elapsed.as_millis() as i64, 3)]. *)
Definition latency : LM Env E Q := ms ← elapsed_ms; mret (decimal (i64_wrap ms) 3).

Definition provider_call (router : ProviderRouter (Env:=Env)) (request : CompletionRequest) : LM Env E answer := λ s,
  let '(r, st) := complete router request (sv_router s) in (Ok r, s <| sv_router := st |>).

Context `{DecimalOps}.
Definition estimated_cost (provider model : str) (input_tokens output_tokens : Z) : LM Env E CostEstimate := λ s,
  let '(r, c) := estimate_cost provider model input_tokens output_tokens (sv_prices s) in
  (of_panicking r, s <| sv_prices := c |>).

(** ** Steps the services make the same way *)

(** [preflight_check] with the cost projected from the price of the model. *)
Definition preflight (f : db_error -> E) (route provider model : str) (input_tokens output_tokens : Z)
    (request_id generation_id : str) : LM Env E PreflightDecision :=
  projected_cost ← estimated_cost provider model input_tokens output_tokens;
  now ← utc_now;
  on_limits f (preflight_check now route provider model (Some (total_cost_usd projected_cost)) request_id generation_id).

(** [usage.map(|u| u.total_tokens.unwrap_or(0) as i64)] and its likes. *)
Definition counted (count : Usage -> option Z) (response : CompletionResponse) : option Z :=
  (λ u, default 0 (count u)) <$> usage response.

(** [wait_for_entry(route, key, None, None)]: 50 ms in 10 s, so 202 turns are enough. *)
Definition waited_entry (f : db_error -> E) (route : CacheRoute) (cache_key : str) : LM Env E (option CacheEntry) :=
  r ← on_cache f (wait_for_entry 202 route cache_key None None); mret (default None r).

(** [record_completed] of a response from the cache. *)
Definition record_hit (request_id generation_id route request_type provider model : str) (latency_ms : Q)
    (cache_key : str) (metadata : value) : LM Env E unit :=
  now ← utc_now;
  on_ledger (record_completed now request_id generation_id route request_type provider provider model model
    (Some latency_ms) 0 Hit None None None (Some 0%Q) false None [provider] (Some cache_key) metadata).

(** [record_completed] of a response of the provider. *)
Definition record_response (request_id generation_id route request_type provider model : str) (latency_ms : Q)
    (response : CompletionResponse) (cost : CostEstimate) (fallback_used : bool) (fallback_reason : option str)
    (cache_key : str) (source : string) : LM Env E unit :=
  now ← utc_now;
  on_ledger (record_completed now request_id generation_id route request_type
    (default provider (rs_model response)) provider (default model (rs_model response)) model (Some latency_ms) 0
    (if fallback_used then Bypass else Miss) (counted prompt_tokens response) (counted completion_tokens response)
    (counted total_tokens response) (Some (total_cost_usd cost)) fallback_used fallback_reason [provider]
    (Some cache_key)
    (obj [("source", jstr source); ("cache_hit", Bool false); ("fallback_used", Bool fallback_used)]%string)).

(** [record_failure] of a call that failed. *)
Definition record_provider_failure (request_id generation_id route request_type provider model : str)
    (error_class : str) (err : ProviderError) (source : string) : LM Env E unit :=
  now ← utc_now;
  on_ledger (record_failure now request_id generation_id route request_type provider provider model model Miss
    (Some error_class) (Some (provider_error_text err)) false None [provider]
    (obj [("source", jstr source); ("error", String (provider_error_text err))]%string)).

Fixpoint record_usages (input output total : Z) (cost : Q) (request_id generation_id : str)
    (l : list RateLimitPolicy) : LM Env E unit :=
  match l with
  | [] => mret ()
  | policy :: rest =>
      now ← utc_now;
      _ ← on_limits_ignoring (record_usage policy input output total cost request_id generation_id now);
      record_usages input output total cost request_id generation_id rest
  end.
(** Usage goes to every applicable policy; a failed lookup of the policies is ignored. *)
Definition record_governance (route provider model : str) (response : CompletionResponse) (cost : CostEstimate)
    (request_id generation_id : str) : LM Env E unit := λ s,
  let '(r, l) := find_applicable route provider model (sv_limits s) in
  let s := s <| sv_limits := l |> in
  match r with
  | Ok policies =>
      record_usages (default 0 (counted prompt_tokens response)) (default 0 (counted completion_tokens response))
        (default 0 (counted total_tokens response)) (total_cost_usd cost) request_id generation_id policies s
  | Err _ => (Ok (), s)
  | Panic => (Panic, s)
  end.

(** [store], a failure ignored. *)
Definition store_response (route : CacheRoute) (cache_key : str) (response_value : value) : LM Env E unit :=
  on_cache_ignoring (store route cache_key (Object []) response_value None).
End Lift.

(** [json_mode_request]. *)
Definition json_mode_request (model system_prompt user_prompt : str) : CompletionRequest :=
  with_json_mode (new_request model
    [{| role := lit "system"; content := system_prompt |}; {| role := lit "user"; content := user_prompt |}]).

(** [serde_json::to_string_pretty]: two spaces for each level. *)
Fixpoint json_pretty `{JsonLex} (level : nat) (v : value) : str :=
  let newline n := [10] ++ replicate (2 * n) 32 in
  match v with
  | Object [] => lit "{}"
  | Object map =>
      lit "{" ++ newline (S level)
      ++ join (lit "," ++ newline (S level)) ((λ '(k, v), json_quote k ++ lit ": " ++ json_pretty (S level) v) <$> map)
      ++ newline level ++ lit "}"
  | Array [] => lit "[]"
  | Array arr =>
      lit "[" ++ newline (S level) ++ join (lit "," ++ newline (S level)) (json_pretty (S level) <$> arr)
      ++ newline level ++ lit "]"
  | String s => json_quote s
  | Number n => json_number n
  | Bool b => if b then lit "true" else lit "false"
  | Null => lit "null"
  end.

(** The headers with which a service answers ([respond_headers], [headers_for], [build_result]). *)
Definition service_headers (provider model : str) (cache_hit fallback_used : bool) : gmap str str :=
  <[lit "x-klass-fallback-used" := if fallback_used then lit "true" else lit "false"]>
  (<[lit "x-klass-cache-status" := if cache_hit then lit "hit" else lit "miss"]>
  (<[lit "x-klass-model" := model]> (<[lit "x-klass-provider" := provider]> ∅))).

(** ** The flow of a request *)

Section Flow.
Context {Env E : Type} `{CaseTables} `{Sha256Hex} `{Blake2b512} `{DecimalOps}.

(** What follows a reply: it is stored unless it is the fallback, its cost goes to the ledger and its
    usage to the buckets. *)
Definition book_response (cache_route : CacheRoute) (should_cache : bool) (response_value : value)
    (request_id generation_id route request_type provider model : str) (latency_ms : Q)
    (response : CompletionResponse) (fallback_used : bool) (fallback_reason : option str) (cache_key : str)
    (source : string) : LM Env E unit :=
  _ ← (if should_cache && negb fallback_used then store_response cache_route cache_key response_value else mret ());
  cost ← estimated_cost provider model (default 0 (counted prompt_tokens response))
           (default 0 (counted completion_tokens response));
  _ ← record_response request_id generation_id route request_type provider model latency_ms response cost
        fallback_used fallback_reason cache_key source;
  record_governance route provider model response cost request_id generation_id.

(** The call with the lock of the key, or after waiting for who holds it; the lock is given back
    whatever the call answers. *)
Definition call_and_release {A} (cache_route : CacheRoute) (cache_key : str) (lock_acquired : bool) (call : LM Env E A) :
    LM Env E A := λ s,
  let '(result, s) := call s in
  match result with
  | Panic => (Panic, s)
  | _ =>
      if lock_acquired then
        match on_cache_ignoring (E:=E) (release_lock cache_route cache_key) s with
        | (Panic, s) => (Panic, s)
        | (_, s) => (result, s)
        end
      else (result, s)
  end.

(** The flow of [interpret], [draft] and [respond]: the check of the budget, the lookup (unless it is
    bypassed), the lock, the wait for who holds it, and the call, which is told whether to store. *)
Definition serve_or_call {A} (governance cache : db_error -> E) (limited : E) (cache_route : CacheRoute)
    (route provider model : str) (projected_input projected_output : Z) (request_id generation_id cache_key : str)
    (bypass_cache : bool) (serve_hit serve_waited : CacheEntry -> LM Env E A) (call : bool -> LM Env E A) : LM Env E A :=
  decision ← preflight governance route provider model projected_input projected_output request_id generation_id;
  match action decision with
  | Deny => fails limited
  | Degrade => call false
  | Allow =>
      cached ← (if bypass_cache then mret None else on_cache cache (lookup_entry cache_route cache_key));
      match cached with
      | Some entry => serve_hit entry
      | None =>
          lock_acquired ← on_cache cache (try_acquire_lock cache_route cache_key);
          if (lock_acquired : bool)
          then call_and_release cache_route cache_key true (call (negb bypass_cache))
          else
            waited ← waited_entry cache cache_route cache_key;
            match waited with
            | Some entry => serve_waited entry
            | None => call_and_release cache_route cache_key false (call (negb bypass_cache))
            end
      end
  end.
End Flow.

(** ** Frames: what a step leaves alone *)

Create HintDb frames.
#[export] Hint Constants Opaque : frames.

Section Frames.
Context {Env E : Type}.
Implicit Types s : Services Env.

(** [m] leaves the part [f] of the state alone. *)
Definition keeps {X A} (f : Services Env -> X) (m : LM Env E A) : Prop := forall s, f (m s).2 = f s.

Lemma keeps_ret {X A} (f : Services Env -> X) (a : A) : keeps f (mret a : LM Env E A).
Proof. done. Qed.
Lemma keeps_fails {X A} (f : Services Env -> X) (e : E) : keeps f (fails e : LM Env E A).
Proof. done. Qed.
Lemma keeps_returned {X A} (f : Services Env -> X) (r : outcome E A) : keeps f (returned r).
Proof. done. Qed.
Lemma keeps_seq {X A B} (f : Services Env -> X) (m : LM Env E A) (k : A -> LM Env E B) :
  keeps f m -> (forall a, keeps f (k a)) -> keeps f (m ≫= k).
Proof.
  intros Hm Hk s. unfold mbind, LM_bind. specialize (Hm s). destruct (m s) as [[a|e|] s']; cbn in *; [|done|done].
  by rewrite Hk.
Qed.
Lemma keeps_if {X A} (f : Services Env -> X) (b : bool) (m m' : LM Env E A) :
  keeps f m -> keeps f m' -> keeps f (if b then m else m').
Proof. by destruct b. Qed.

(** A step that works on one part only. *)
Lemma keeps_cache {X A} (f : Services Env -> X) (g : db_error -> E) (m : CM A) :
  (forall s c, f (s <| sv_cache := c |>) = f s) -> keeps f (on_cache g m).
Proof. intros Hf s. unfold on_cache. by destruct (m (sv_cache s)) as [r c]; cbn. Qed.
Lemma keeps_cache_ignoring {X A} (f : Services Env -> X) (m : CM A) :
  (forall s c, f (s <| sv_cache := c |>) = f s) -> keeps f (on_cache_ignoring m).
Proof. intros Hf s. unfold on_cache_ignoring. by destruct (m (sv_cache s)) as [r c]; cbn. Qed.
Lemma keeps_limits {X A} (f : Services Env -> X) (g : db_error -> E) (m : RM A) :
  (forall s l, f (s <| sv_limits := l |>) = f s) -> keeps f (on_limits g m).
Proof. intros Hf s. unfold on_limits. by destruct (m (sv_limits s)) as [r c]; cbn. Qed.
Lemma keeps_limits_ignoring {X A} (f : Services Env -> X) (m : RM A) :
  (forall s l, f (s <| sv_limits := l |>) = f s) -> keeps f (on_limits_ignoring m).
Proof. intros Hf s. unfold on_limits_ignoring. by destruct (m (sv_limits s)) as [r c]; cbn. Qed.
Lemma keeps_ledger {X} (f : Services Env -> X) m :
  (forall s l, f (s <| sv_ledger := l |>) = f s) -> keeps f (on_ledger m).
Proof. intros Hf s. unfold on_ledger. by destruct (m (sv_ledger s)) as [r c]; cbn. Qed.
Lemma keeps_now {X} (f : Services Env -> X) : (forall s t, f (s <| sv_now := t |>) = f s) -> keeps f utc_now.
Proof. intros Hf s. unfold utc_now. by destruct (sv_now s); cbn. Qed.
Lemma keeps_latency {X} (f : Services Env -> X) : (forall s t, f (s <| sv_elapsed := t |>) = f s) -> keeps f latency.
Proof.
  intros Hf. apply keeps_seq; [|intros ms; apply keeps_ret]. intros s. unfold elapsed_ms. by destruct (sv_elapsed s); cbn.
Qed.
Context `{DecimalOps}.
Lemma keeps_estimate {X} (f : Services Env -> X) provider model i o :
  (forall s p, f (s <| sv_prices := p |>) = f s) -> keeps f (estimated_cost provider model i o).
Proof. intros Hf s. unfold estimated_cost. by destruct (estimate_cost provider model i o (sv_prices s)) as [r c]; cbn. Qed.
Lemma keeps_usages {X} (f : Services Env -> X) i o t cost rid gid l :
  (forall s l, f (s <| sv_limits := l |>) = f s) -> (forall s t, f (s <| sv_now := t |>) = f s) ->
  keeps f (record_usages i o t cost rid gid l).
Proof.
  intros Hl Hn. induction l as [|p l IH]; [apply keeps_ret|]. cbn [record_usages].
  apply keeps_seq; [by apply keeps_now|intros now]. apply keeps_seq; [by apply keeps_limits_ignoring|done].
Qed.
Lemma keeps_governance {X} (f : Services Env -> X) route provider model response cost rid gid :
  (forall s l, f (s <| sv_limits := l |>) = f s) -> (forall s t, f (s <| sv_now := t |>) = f s) ->
  keeps f (record_governance route provider model response cost rid gid).
Proof.
  intros Hl Hn s. unfold record_governance. destruct (find_applicable route provider model (sv_limits s)) as [[l|e|] c]; cbn;
    [by rewrite (keeps_usages f)|apply Hl|apply Hl].
Qed.
Lemma keeps_preflight {X} (f : Services Env -> X) g route provider model i o rid gid :
  (forall s p, f (s <| sv_prices := p |>) = f s) -> (forall s t, f (s <| sv_now := t |>) = f s) ->
  (forall s l, f (s <| sv_limits := l |>) = f s) -> keeps f (preflight g route provider model i o rid gid).
Proof.
  intros Hp Hn Hl. apply keeps_seq; [by apply keeps_estimate|intros c]. apply keeps_seq; [by apply keeps_now|intros t].
  by apply keeps_limits.
Qed.
Lemma keeps_waited {X} (f : Services Env -> X) g route k :
  (forall s c, f (s <| sv_cache := c |>) = f s) -> keeps f (waited_entry g route k).
Proof. intros Hf. apply keeps_seq; [by apply keeps_cache|intros r; apply keeps_ret]. Qed.
Lemma keeps_store {X} (f : Services Env -> X) route k v :
  (forall s c, f (s <| sv_cache := c |>) = f s) -> keeps f (store_response route k v).
Proof. intros Hf. by apply keeps_cache_ignoring. Qed.
Lemma keeps_hit {X} (f : Services Env -> X) rid gid route ty provider model lat k meta :
  (forall s t, f (s <| sv_now := t |>) = f s) -> (forall s l, f (s <| sv_ledger := l |>) = f s) ->
  keeps f (record_hit rid gid route ty provider model lat k meta).
Proof. intros Hn Hl. apply keeps_seq; [by apply keeps_now|intros t; by apply keeps_ledger]. Qed.
Lemma keeps_response {X} (f : Services Env -> X) rid gid route ty provider model lat response cost fb reason k src :
  (forall s t, f (s <| sv_now := t |>) = f s) -> (forall s l, f (s <| sv_ledger := l |>) = f s) ->
  keeps f (record_response rid gid route ty provider model lat response cost fb reason k src).
Proof. intros Hn Hl. apply keeps_seq; [by apply keeps_now|intros t; by apply keeps_ledger]. Qed.
Lemma keeps_failure {X} (f : Services Env -> X) rid gid route ty provider model cls err src :
  (forall s t, f (s <| sv_now := t |>) = f s) -> (forall s l, f (s <| sv_ledger := l |>) = f s) ->
  keeps f (record_provider_failure rid gid route ty provider model cls err src).
Proof. intros Hn Hl. apply keeps_seq; [by apply keeps_now|intros t; by apply keeps_ledger]. Qed.
Lemma keeps_provider {X} (f : Services Env -> X) router request :
  (forall s t, f (s <| sv_router := t |>) = f s) -> keeps f (provider_call router request).
Proof. intros Hf s. unfold provider_call. by destruct (complete router request (sv_router s)) as [r c]; cbn. Qed.

(** The step and the rest of a run that answers. *)
Lemma bind_run {A B} (m : LM Env E A) (k : A -> LM Env E B) s r s' :
  (m ≫= k) s = (r, s') ->
  (exists a s1, m s = (Ok a, s1) /\ k a s1 = (r, s')) \/ (exists e, m s = (Err e, s') /\ r = Err e)
  \/ (m s = (Panic, s') /\ r = Panic).
Proof.
  unfold mbind, LM_bind. destruct (m s) as [[a|e|] s1]; intros Hrun; [left; by exists a, s1| |].
  - injection Hrun as <- <-. right. left. by exists e.
  - injection Hrun as <- <-. by right; right.
Qed.
Lemma keeps_run {X A} (f : Services Env -> X) (m : LM Env E A) s r s' :
  keeps f m -> m s = (r, s') -> f s' = f s.
Proof. intros Hk Hrun. specialize (Hk s). by rewrite Hrun in Hk. Qed.
End Frames.
#[export] Hint Resolve keeps_ret keeps_fails keeps_returned keeps_if : frames.
#[export] Hint Resolve keeps_cache keeps_cache_ignoring keeps_limits keeps_limits_ignoring keeps_ledger keeps_now
  keeps_latency keeps_estimate keeps_governance keeps_preflight keeps_waited keeps_store keeps_hit keeps_response
  keeps_failure keeps_provider : frames.
(** Runs through a chain of binds. *)
Ltac frame := repeat (apply keeps_seq; [solve [eauto with frames]|intros ?]); eauto with frames.

(** ** What a step writes to the ledger *)

Section Writes.
Context {Env E : Type}.

(** [m] appends at most one row, and rows of which [P] holds. *)
Definition rows_of (s : Services Env) : list LedgerEntry := ledger_rows (sv_ledger s).
Definition appended (P : LedgerEntry -> Prop) (s s' : Services Env) : Prop :=
  exists l, rows_of s' = rows_of s ++ l /\ (length l <= 1)%nat /\ Forall P l.
Lemma appended_none P s s' : rows_of s' = rows_of s -> appended P s s'.
Proof. intros Heq. exists []. rewrite app_nil_r. repeat split; [done|cbn; lia|constructor]. Qed.
Lemma appended_weaken (P P' : LedgerEntry -> Prop) s s' :
  (forall row, P row -> P' row) -> appended P s s' -> appended P' s s'.
Proof. intros HP (l & Heq & Hlen & Hl). exists l. repeat split; [done|done|]. by eapply Forall_impl. Qed.
Lemma appended_frame_l P s1 s s' : rows_of s1 = rows_of s -> appended P s1 s' -> appended P s s'.
Proof. intros Heq (l & Hl & ?). exists l. by rewrite Hl, Heq. Qed.
Lemma appended_frame_r P s s1 s' : rows_of s' = rows_of s1 -> appended P s s1 -> appended P s s'.
Proof. intros Heq (l & Hl & ?). exists l. by rewrite Heq, Hl. Qed.

Lemma on_ledger_run input s r s' :
  on_ledger (E:=E) (record_entry input) s = (r, s') ->
  appended (λ row, ledger_ok input = true /\ exists i t, row = ledger_row input i t) s s'.
Proof.
  unfold on_ledger. pose proof (record_entry_spec input (sv_ledger s)) as Hspec.
  destruct (record_entry input (sv_ledger s)) as [[row|e|] l]; intros [= <- <-]; [|by apply appended_none|by apply appended_none].
  destruct Hspec as (Hrows & Hok & _ & Hrow). exists [row]. repeat split; [exact Hrows|done|].
  apply Forall_singleton. split; [done|]. eauto.
Qed.
Lemma utc_now_rows s : rows_of (utc_now (E:=E) s).2 = rows_of s.
Proof. unfold utc_now. by destruct (sv_now s). Qed.

Lemma record_hit_run rid gid route ty provider model lat k meta s r s' :
  record_hit (E:=E) rid gid route ty provider model lat k meta s = (r, s') ->
  appended (λ row, le_request_id row = rid /\ le_final_status row = lit "completed" /\ le_cache_status row = lit "hit"
                   /\ le_latency_ms row = Some (numeric2 lat)) s s'.
Proof.
  intros Hrun. unfold record_hit, mbind, LM_bind in Hrun. pose proof (utc_now_rows s) as Hrows.
  destruct (utc_now s) as [[t|e|] s1] eqn:E1; [|injection Hrun as <- <-; by apply appended_none..].
  apply (appended_frame_l _ s1); [exact Hrows|]. eapply appended_weaken; [|by apply on_ledger_run in Hrun].
  by intros row (_ & i & u & ->).
Qed.
Lemma record_response_run rid gid route ty provider model lat response cost fb reason k src s r s' :
  record_response (E:=E) rid gid route ty provider model lat response cost fb reason k src s = (r, s') ->
  appended (λ row, le_request_id row = rid /\ le_final_status row = lit "completed"
                   /\ le_cache_status row = (if fb : bool then lit "bypass" else lit "miss")
                   /\ le_latency_ms row = Some (numeric2 lat)
                   /\ (forall t, reason = Some t -> (length t <= 100)%nat)) s s'.
Proof.
  intros Hrun. unfold record_response, mbind, LM_bind in Hrun. pose proof (utc_now_rows s) as Hrows.
  destruct (utc_now s) as [[t|e|] s1] eqn:E1; [|injection Hrun as <- <-; by apply appended_none..].
  apply (appended_frame_l _ s1); [exact Hrows|]. eapply appended_weaken; [|by apply on_ledger_run in Hrun].
  intros row (Hok & i & u & ->). repeat split; [by destruct fb|]. intros text ->.
  destruct (decide (length text <= 100)%nat) as [?|Hlong]; [done|].
  rewrite (long_reason_rejected _ text) in Hok; [done|done|lia].
Qed.
Lemma record_failure_run rid gid route ty provider model cls err src s r s' :
  record_provider_failure (E:=E) rid gid route ty provider model cls err src s = (r, s') ->
  appended (λ row, le_request_id row = rid /\ le_final_status row = lit "failed"
                   /\ le_error_code row = Some (provider_error_text err)
                   /\ (length (provider_error_text err) <= 100)%nat) s s'.
Proof.
  intros Hrun. unfold record_provider_failure, mbind, LM_bind in Hrun. pose proof (utc_now_rows s) as Hrows.
  destruct (utc_now s) as [[t|e|] s1] eqn:E1; [|injection Hrun as <- <-; by apply appended_none..].
  apply (appended_frame_l _ s1); [exact Hrows|]. eapply appended_weaken; [|by apply on_ledger_run in Hrun].
  intros row (Hok & i & u & ->). repeat split.
  destruct (decide (length (provider_error_text err) <= 100)%nat) as [?|Hlong]; [done|].
  rewrite (long_code_rejected _ (provider_error_text err)) in Hok; [done|done|lia].
Qed.
End Writes.

(** ** Runs of the flow *)

Section FlowFacts.
Context {Env E : Type} `{CaseTables} `{Sha256Hex} `{Blake2b512} `{DecimalOps}.
Implicit Types s : Services Env.

(** Nothing was asked of the provider and nothing written to the ledger. *)
Definition quiet (s s' : Services Env) : Prop := sv_router s' = sv_router s /\ rows_of s' = rows_of s.
Lemma quiet_run {A} (m : LM Env E A) s r s' : keeps sv_router m -> keeps rows_of m -> m s = (r, s') -> quiet s s'.
Proof. intros Hr Hl Hrun. split; by eapply keeps_run. Qed.
Lemma quiet_trans s1 s2 s3 : quiet s1 s2 -> quiet s2 s3 -> quiet s1 s3.
Proof. intros [Ha Hb] [Hc Hd]. split; congruence. Qed.

Lemma latency_run s r s' : latency (E:=E) s = (r, s') -> (exists lat, r = Ok lat) /\ quiet s s'.
Proof.
  intros Hrun. split; [|eapply quiet_run; [| |exact Hrun]; eauto with frames].
  unfold latency, mbind, LM_bind, elapsed_ms in Hrun. destruct (sv_elapsed s); injection Hrun as <- _; by eexists.
Qed.
Lemma provider_call_run (router : ProviderRouter (Env:=Env)) request s r s' :
  provider_call (E:=E) router request s = (r, s') ->
  exists ans, r = Ok ans /\ complete router request (sv_router s) = (ans, sv_router s') /\ rows_of s' = rows_of s.
Proof.
  unfold provider_call. destruct (complete router request (sv_router s)) as [ans st]. intros [= <- <-]. by exists ans.
Qed.

Lemma on_ledger_no_error m s e s' : on_ledger (E:=E) m s <> (Err e, s').
Proof. unfold on_ledger. by destruct (m (sv_ledger s)) as [[] ?]. Qed.
Lemma timed_ledger_no_error (f : Z -> Ledger -> outcome db_error LedgerEntry * Ledger) s e s' :
  (now ← utc_now; on_ledger (E:=E) (f now)) s <> (Err e, s').
Proof.
  intros [(t & s1 & _ & Hrun)|[(e' & Hrun & _)|[_ ?]]]%bind_run; [by apply on_ledger_no_error in Hrun| |done].
  unfold utc_now in Hrun. by destruct (sv_now s).
Qed.

Lemma book_response_run cr sc v rid gid route ty provider model lat response fb reason k src s r s' :
  book_response (E:=E) cr sc v rid gid route ty provider model lat response fb reason k src s = (r, s') ->
  sv_router s' = sv_router s
  /\ appended (λ row, le_request_id row = rid /\ le_final_status row = lit "completed"
                      /\ le_cache_status row = (if fb : bool then lit "bypass" else lit "miss")
                      /\ le_latency_ms row = Some (numeric2 lat)
                      /\ (forall t, reason = Some t -> (length t <= 100)%nat)) s s'
  /\ (forall e, r <> Err e).
Proof.
  unfold book_response.
  set (first := if sc && negb fb then store_response cr k v else mret () : LM Env E unit).
  assert (keeps sv_router first) as Hf1 by (unfold first; eauto with frames).
  assert (keeps rows_of first) as Hf2 by (unfold first; eauto with frames).
  assert (forall s e s', first s <> (Err e, s')) as Hf3.
  { intros s1 e s1'. unfold first. destruct (sc && negb fb); [|done]. unfold store_response, on_cache_ignoring.
    by destruct (store _ _ _ _ _ _) as [[]]. }
  intros [(u & s1 & Hs1 & Hrun)|[(e & Hs1 & ->)|[Hs1 ->]]]%bind_run.
  2: by destruct (Hf3 s e s').
  2: { pose proof (quiet_run _ _ _ _ Hf1 Hf2 Hs1) as [? ?]. repeat split; [done|by apply appended_none|done]. }
  pose proof (quiet_run _ _ _ _ Hf1 Hf2 Hs1) as Hq1.
  apply bind_run in Hrun as [(cost & s2 & Hs2 & Hrun)|[(e & Hs2 & ->)|[Hs2 ->]]].
  2: { exfalso. unfold estimated_cost in Hs2. by destruct (estimate_cost _ _ _ _ _) as [[] ?]. }
  2: { assert (quiet s1 s') as Hq2 by (eapply quiet_run; [| |exact Hs2]; eauto with frames).
       destruct (quiet_trans _ _ _ Hq1 Hq2). repeat split; [done|by apply appended_none|done]. }
  assert (quiet s1 s2) as Hq2 by (eapply quiet_run; [| |exact Hs2]; eauto with frames).
  destruct (quiet_trans _ _ _ Hq1 Hq2) as [Hrt Hrw].
  assert (forall s e s', record_response (E:=E) rid gid route ty provider model lat response cost fb reason k src s <> (Err e, s')) as Hnoerr.
  { intros s3 e s3'. apply timed_ledger_no_error. }
  apply bind_run in Hrun as [(u3 & s3 & Hs3 & Hs4)|[(e & Hs3 & ->)|[Hs3 ->]]]; [|by destruct (Hnoerr s2 e s')|].
  - assert (sv_router s3 = sv_router s2) as Hr3 by (eapply keeps_run; [|exact Hs3]; eauto with frames).
    assert (quiet s3 s') as [Hr4 Hw4] by (eapply quiet_run; [| |exact Hs4]; eauto with frames).
    repeat split; [congruence| |].
    + apply (appended_frame_l _ s2); [done|]. apply (appended_frame_r _ _ s3); [done|]. by eapply record_response_run.
    + intros e ->. unfold record_governance in Hs4. destruct (find_applicable _ _ _ _) as [[l|e'|] lim]; [|by injection Hs4|by injection Hs4].
      revert Hs4. generalize (s3 <| sv_limits := lim |>). clear.
      induction l as [|p l IH]; intros s3; cbn [record_usages]; [done|].
      intros [(t & s4 & Hs1 & Hrun)|[(e' & Hs1 & _)|[_ ?]]]%bind_run;
        [|by unfold utc_now in Hs1; destruct (sv_now s3)|done].
      apply bind_run in Hrun as [(u & s5 & Hs2 & Hrun)|[(e' & Hs2 & _)|[_ ?]]]; [by apply IH in Hrun| |done].
      unfold on_limits_ignoring in Hs2. by destruct (record_usage _ _ _ _ _ _ _ _ _) as [[] ?].
  - assert (sv_router s' = sv_router s2) as Hr3 by (eapply keeps_run; [|exact Hs3]; eauto with frames).
    repeat split; [congruence| |done]. apply (appended_frame_l _ s2); [done|]. by eapply record_response_run.
Qed.

Lemma release_no_panic cr k c : (release_lock cr k c).1 <> Panic.
Proof.
  unfold release_lock, cache_statement, pg_advisory_unlock.
  destruct (cache_ticks c) as [|t ts]; cbn; [|destruct (ct_fails t); [done|]]; cbn;
    (destruct (advisory c !! build_lock_id cr k) as [[h n]|]; [|done]); (destruct (h =? _); done).
Qed.

(** A run ends in a call, in a stored response, or before either. *)
Lemma serve_or_call_run {A} governance cache (limited : E) cr route provider model pi po rid gid k bypass
    (serve_hit serve_waited : CacheEntry -> LM Env E A) call s r s' :
  serve_or_call governance cache limited cr route provider model pi po rid gid k bypass serve_hit serve_waited call s
  = (r, s') ->
  (exists sc s1 s2, quiet s s1 /\ call sc s1 = (r, s2) /\ quiet s2 s')
  \/ (exists entry s1, quiet s s1 /\ (serve_hit entry s1 = (r, s') \/ serve_waited entry s1 = (r, s')))
  \/ (quiet s s' /\ ((r = Err limited /\ exists d s1, preflight governance route provider model pi po rid gid s = (Ok d, s1) /\ action d = Deny)
        \/ (exists e, r = Err (governance e)) \/ (exists e, r = Err (cache e)) \/ r = Panic)).
Proof.
  assert (forall s, quiet s s) as Hrefl by (by intros ?).
  assert (forall X (g : db_error -> E) (m : CM X) s r s', on_cache g m s = (r, s') -> quiet s s' /\ forall e, r = Err e -> exists d, e = g d) as Hcache.
  { intros X g m s0 r0 s0' Hrun. split; [eapply quiet_run; [| |exact Hrun]; eauto with frames|]. intros e ->.
    unfold on_cache in Hrun. destruct (m (sv_cache s0)) as [[a|d|] c]; [discriminate| |discriminate].
    injection Hrun as <- _. by exists d. }
  assert (forall lk sc s r s', call_and_release cr k lk (call sc) s = (r, s') ->
    exists s2, call sc s = (r, s2) /\ quiet s2 s') as Hrel.
  { intros lk sc s0 r0 s0'. unfold call_and_release. destruct (call sc s0) as [res s2].
    assert (forall r1 s1, on_cache_ignoring (E:=E) (release_lock cr k) s2 = (r1, s1) -> quiet s2 s1 /\ r1 = Ok ()) as Hun.
    { intros r1 s1 Hrun. split; [eapply quiet_run; [| |exact Hrun]; eauto with frames|].
      unfold on_cache_ignoring in Hrun. pose proof (release_no_panic cr k (sv_cache s2)) as Hnp.
      destruct (release_lock cr k (sv_cache s2)) as [[]]; by injection Hrun. }
    destruct res as [a|e|], lk; try (by intros [= <- <-]; eexists).
    - destruct (on_cache_ignoring (release_lock cr k) s2) as [r1 s1]. destruct (Hun r1 s1 eq_refl) as [Hq ->].
      intros [= <- <-]. by exists s2.
    - destruct (on_cache_ignoring (release_lock cr k) s2) as [r1 s1]. destruct (Hun r1 s1 eq_refl) as [Hq ->].
      intros [= <- <-]. by exists s2. }
  unfold serve_or_call. intros [(d & s1 & Hpre & Hrun)|[(e & Hpre & ->)|[Hpre ->]]]%bind_run.
  2: { right; right. split; [eapply quiet_run; [| |exact Hpre]; eauto with frames|]. right. left.
       unfold preflight in Hpre. apply bind_run in Hpre as [(c & s1 & _ & Hpre)|[(e' & Hc & _)|[_ ?]]]; [| |done].
       - apply bind_run in Hpre as [(t & s2 & _ & Hpre)|[(e' & Hc & _)|[_ ?]]]; [| |done].
         + unfold on_limits in Hpre. destruct (preflight_check _ _ _ _ _ _ _ _) as [[a|d|] l]; [discriminate| |discriminate].
           injection Hpre as <- _. by exists d.
         + unfold utc_now in Hc. by destruct (sv_now s1).
       - unfold estimated_cost in Hc. by destruct (estimate_cost _ _ _ _ _) as [[] ?]. }
  2: { right; right. split; [eapply quiet_run; [| |exact Hpre]; eauto with frames|]. auto. }
  assert (quiet s s1) as Hq1 by (eapply quiet_run; [| |exact Hpre]; eauto with frames).
  destruct (action d) eqn:Haction.
  2: { injection Hrun as <- <-. right; right. split; [done|]. left. split; [done|]. by exists d, s1. }
  2: { left. by exists false, s1, s'. }
  set (first := if bypass then mret None else on_cache cache (lookup_entry cr k)) in Hrun.
  assert (forall s r s', first s = (r, s') -> quiet s s' /\ forall e, r = Err e -> exists d, e = cache d) as Hfirst.
  { intros s0 r0 s0' Hx. unfold first in Hx. destruct bypass; [by injection Hx as <- <-|by eapply Hcache]. }
  apply bind_run in Hrun as [(cached & s2 & Hlook & Hrun)|[(e & Hlook & ->)|[Hlook ->]]].
  2: { apply Hfirst in Hlook as [Hq2 He]. destruct (He e eq_refl) as [e' ->]. right; right.
       split; [by eapply quiet_trans|]. eauto. }
  2: { apply Hfirst in Hlook as [Hq2 _]. right; right. split; [by eapply quiet_trans|]. auto. }
  apply Hfirst in Hlook as [Hq2 _]. pose proof (quiet_trans _ _ _ Hq1 Hq2) as Hq.
  destruct cached as [entry|]; [right; left; exists entry, s2; auto|].
  apply bind_run in Hrun as [(lk & s3 & Hlock & Hrun)|[(e & Hlock & ->)|[Hlock ->]]].
  2: { apply Hcache in Hlock as [Hq3 He]. destruct (He e eq_refl) as [e' ->]. right; right.
       split; [by eapply quiet_trans|]. eauto. }
  2: { apply Hcache in Hlock as [Hq3 _]. right; right. split; [by eapply quiet_trans|]. auto. }
  apply Hcache in Hlock as [Hq3 _]. pose proof (quiet_trans _ _ _ Hq Hq3) as Hq'.
  destruct lk.
  { apply Hrel in Hrun as (s4 & Hc & Hq4). left. by exists (negb bypass), s3, s4. }
  apply bind_run in Hrun as [(w & s4 & Hw & Hrun)|[(e & Hw & ->)|[Hw ->]]].
  2: { unfold waited_entry in Hw. apply bind_run in Hw as [(x & s4 & _ & Hw)|[(e' & Hw & [= ->])|[_ ?]]]; [done| |done].
       apply Hcache in Hw as [Hq4 He]. destruct (He e' eq_refl) as [e'' ->]. right; right.
       split; [by eapply quiet_trans|]. eauto. }
  2: { right; right. split; [eapply quiet_trans; [exact Hq'|]; eapply quiet_run; [| |exact Hw]; eauto with frames|]. auto. }
  assert (quiet s3 s4) as Hq4 by (eapply quiet_run; [| |exact Hw]; eauto with frames).
  pose proof (quiet_trans _ _ _ Hq' Hq4) as Hq''.
  destruct w as [entry|]; [right; left; exists entry, s4; auto|].
  apply Hrel in Hrun as (s5 & Hc & Hq5). left. by exists (negb bypass), s4, s5.
Qed.
End FlowFacts.

(** ** Steps that do not fail *)

Section Steps.
Context {Env E : Type} `{CaseTables} `{Sha256Hex} `{Blake2b512} `{DecimalOps}.
Implicit Types s : Services Env.

(** [m] writes at most one row, of which [P] holds, asks nothing of the provider and is not an error. *)
Definition writes (P : LedgerEntry -> Prop) (m : LM Env E unit) : Prop :=
  forall s r s', m s = (r, s') -> sv_router s' = sv_router s /\ appended P s s' /\ (forall e, r <> Err e).

(** What a row says of a response served, and of a call that failed. *)
Definition row_completed (request_id : str) (cache_status : str) (latency_ms : Q) (row : LedgerEntry) : Prop :=
  le_request_id row = request_id /\ le_final_status row = lit "completed" /\ le_cache_status row = cache_status
  /\ le_latency_ms row = Some (numeric2 latency_ms).
Definition row_failed (request_id : str) (err : ProviderError) (row : LedgerEntry) : Prop :=
  le_request_id row = request_id /\ le_final_status row = lit "failed"
  /\ le_error_code row = Some (provider_error_text err) /\ (length (provider_error_text err) <= 100)%nat.

Lemma writes_hit rid gid route ty provider model lat k meta :
  writes (row_completed rid (lit "hit") lat) (record_hit rid gid route ty provider model lat k meta).
Proof.
  intros s r s' Hrun. split; [eapply keeps_run; [|exact Hrun]; eauto with frames|].
  split; [by eapply record_hit_run|]. intros e ->. exact (timed_ledger_no_error _ _ _ _ Hrun).
Qed.
Lemma writes_failure rid gid route ty provider model cls err src :
  writes (row_failed rid err) (record_provider_failure rid gid route ty provider model cls err src).
Proof.
  intros s r s' Hrun. split; [eapply keeps_run; [|exact Hrun]; eauto with frames|].
  split; [by eapply record_failure_run|]. intros e ->. exact (timed_ledger_no_error _ _ _ _ Hrun).
Qed.
Lemma writes_book cr sc v rid gid route ty provider model lat response (fb : bool) reason k src :
  writes (λ row, row_completed rid (if fb then lit "bypass" else lit "miss") lat row
                 /\ forall t, reason = Some t -> (length t <= 100)%nat)
    (book_response cr sc v rid gid route ty provider model lat response fb reason k src).
Proof.
  intros s r s' (? & Hw & ?)%book_response_run. repeat split; [done| |done]. eapply appended_weaken; [|exact Hw].
  intros row (? & ? & ? & ? & ?). by repeat split.
Qed.

Lemma writes_then {A} P (m : LM Env E unit) (x : outcome E A) s r s' :
  writes P m -> (_ ← m; returned x) s = (r, s') ->
  sv_router s' = sv_router s /\ appended P s s' /\ (r = x \/ r = Panic).
Proof.
  intros Hm [(u & s1 & Hrun & [= <- <-])|[(e & Hrun & ->)|[Hrun ->]]]%bind_run; apply Hm in Hrun as (? & ? & Hne); auto.
  by destruct (Hne e).
Qed.
Lemma latency_then {A} (k : Q -> LM Env E A) s r s' :
  (lat ← latency; k lat) s = (r, s') -> exists lat s1, quiet s s1 /\ k lat s1 = (r, s').
Proof.
  intros [(lat & s1 & Hlat & Hrun)|[(e & Hlat & _)|[Hlat _]]]%bind_run; apply latency_run in Hlat as [[y Hy] ?];
    [by exists lat, s1|done..].
Qed.
Lemma provider_then {A} (router : ProviderRouter (Env:=Env)) request (k : answer -> LM Env E A) s r s' :
  (ans ← provider_call router request; k ans) s = (r, s') ->
  exists ans s1, complete router request (sv_router s) = (ans, sv_router s1) /\ rows_of s1 = rows_of s
    /\ k ans s1 = (r, s').
Proof.
  intros [(ans & s1 & Hcall & Hrun)|[(e & Hcall & _)|[Hcall _]]]%bind_run;
    apply provider_call_run in Hcall as (ans' & Ha & ? & ?); [|done..]. injection Ha as ->. by exists ans', s1.
Qed.
Lemma now_then {A} (k : Z -> LM Env E A) s r s' :
  (now ← utc_now; k now) s = (r, s') -> exists now s1, quiet s s1 /\ k now s1 = (r, s').
Proof.
  assert (quiet s (utc_now (E:=E) s).2) as Hq by (split; [apply (keeps_now sv_router)|apply (keeps_now rows_of)]; done).
  unfold mbind, LM_bind. destruct (utc_now s) as [[t|e|] s1] eqn:Hnow; intros Hrun;
    [by exists t, s1|unfold utc_now in Hnow; by destruct (sv_now s)..].
Qed.

(** On the route of the drafts and the responses, the budget is not a reason to refuse. *)
Lemma preflight_degrades (g : db_error -> E) provider model pi po rid gid s d s' :
  preflight g (lit "respond") provider model pi po rid gid s = (Ok d, s') -> action d <> Deny.
Proof.
  unfold preflight. intros [(c & s1 & _ & Hrun)|[(? & _ & ?)|[_ ?]]]%bind_run; [|done..].
  apply bind_run in Hrun as [(t & s2 & _ & Hrun)|[(? & _ & ?)|[_ ?]]]; [|done..].
  unfold on_limits in Hrun. destruct (preflight_check _ _ _ _ _ _ _ _) as [[a|e|] l] eqn:Hpre; [|discriminate..].
  injection Hrun as -> _. by eapply preflight_respond.
Qed.
End Steps.
