(* ===== verification/InterpretService.v ===== *)
(** * The interpretation service (src/src/llm/interpret.rs)

    [interpret] answers a teacher's prompt with an interpretation: from the cache, whose questions are
    derived anew, or from the provider, whose reply is decoded or replaced by the fallback, completed
    with the taxonomy and stored. *)

From stdpp Require Import base gmap list option strings.
From Stdlib Require Import ZArith QArith Lia Floats.SpecFloat.
From S2P Require Import Prelude RustStr Json Floats Canon Store Samples Standards Interpretation Cache Decision Order Taxonomy Repair PlanMode RateLimit Ledger Router LlmService.
#[local] Open Scope Z_scope.

Definition INTERPRET_ROUTE : str := lit "interpret".
Definition INTERPRET_REQUEST_TYPE : str := lit "media_prompt_interpretation".
Definition interpret_provider : str := lit "openrouter".

Record NamedContext := mkNamedContext { nc_id : Z; nc_name : str; nc_slug : option str }.
Record InterpretInput := mkInterpretInput {
  ii_generation_id : str;
  ii_teacher_prompt : str;
  ii_preferred_output_type : str;
  ii_subject_context : option NamedContext;
  ii_sub_subject_context : option NamedContext;
  ii_model : option str;
  ii_instruction : option str
}.
Record InterpretResult := mkInterpretResult {
  ir_request_id : str;
  ir_generation_id : str;
  ir_interpretation_payload : InterpretationPayload;
  ir_interpretation_audit_payload : value;
  ir_llm_provider : str;
  ir_llm_model : str;
  ir_cache_hit : bool;
  ir_fallback_used : bool;
  ir_response_headers : gmap str str;
  ir_latency_ms : option Q
}.
(** The errors are named after the variants of the source. *)
Inductive InterpretError :=
| InterpretRateLimited (request_id generation_id : str)
| InterpretProviderError (e : ProviderError)
| InterpretCacheError (e : db_error)
| InterpretGovernance (e : db_error)
| InterpretContract (e : ContractValidationError).

(** ** Taxonomy *)

Record SubjectInfo := mkSubjectInfo { sub_name : str; sub_slug : str }.
Definition try_into_subject (r : TaxonomyInferenceResult) : option SubjectInfo :=
  let name := bm_subject_name (tr_best_match r) in
  if bool_decide (name = []) then None else Some (mkSubjectInfo name (bm_subject_slug (tr_best_match r))).
Definition try_into_sub_subject (r : TaxonomyInferenceResult) : option SubjectInfo :=
  name ← bm_sub_subject_name (tr_best_match r);
  if bool_decide (name = []) then None
  else slug ← bm_sub_subject_slug (tr_best_match r); Some (mkSubjectInfo name slug).

(** [serde_json::to_value] of an inference. *)
Definition encode_PromptContext (c : PromptContext) : value :=
  Object (omap (λ '(k, o), v ← o; Some (lit k, v))
    [("jenjang", String <$> pc_jenjang c); ("kelas", jint <$> pc_kelas c); ("semester", jint <$> pc_semester c);
     ("bab", jint <$> pc_bab c)]%string).
Definition encode_BestMatch (b : BestMatch) : value :=
  obj [("jenjang", jopt String (bm_jenjang b)); ("kelas", jopt jint (bm_kelas b));
       ("semester", jopt jint (bm_semester b)); ("bab", jopt jint (bm_bab b));
       ("subject_name", String (bm_subject_name b)); ("subject_slug", String (bm_subject_slug b));
       ("subject_id", jopt jint (bm_subject_id b)); ("sub_subject_name", jopt String (bm_sub_subject_name b));
       ("sub_subject_slug", jopt String (bm_sub_subject_slug b)); ("sub_subject_id", jopt jint (bm_sub_subject_id b));
       ("description", String (bm_description b)); ("content_structure", String (bm_content_structure b));
       ("structure_items", Array (String <$> bm_structure_items b));
       ("matched_signals", Array (jstr <$> bm_matched_signals b))]%string.
Definition encode_CandidateSummary (c : CandidateSummary) : value :=
  obj [("subject_name", String (su_subject_name c)); ("subject_slug", String (su_subject_slug c));
       ("sub_subject_name", String (su_sub_subject_name c)); ("sub_subject_slug", String (su_sub_subject_slug c));
       ("jenjang", jopt String (su_jenjang c)); ("kelas", jopt jint (su_kelas c)); ("score", jfloat (su_score c));
       ("label", jstr (su_label c))]%string.
Definition encode_TaxonomyInferenceResult (r : TaxonomyInferenceResult) : value :=
  obj [("schema_version", String (tr_schema_version r)); ("source", jstr (tr_source r));
       ("prompt_context", encode_PromptContext (tr_prompt_context r));
       ("confidence", obj [("score", jfloat (ci_score (tr_confidence r))); ("label", jstr (ci_label (tr_confidence r)));
                           ("sub_subject_attached", Bool (ci_sub_subject_attached (tr_confidence r)))]%string);
       ("best_match", encode_BestMatch (tr_best_match r));
       ("candidate_matches", Array (encode_CandidateSummary <$> tr_candidate_matches r))]%string.

(** ** The service *)

(** The service's own fields; [is_rows] are the rows of subjects.json. *)
Record InterpretService {Env : Type} := mkInterpretService {
  is_router : ProviderRouter (Env:=Env);
  is_rows : list value;
  is_default_model : str;
  is_default_instruction : str
}.
Arguments InterpretService : clear implicits.

Section Interpret.
Context {Env : Type} `{CaseTables} `{Regexes} `{UnicodeClasses} `{JsonLex} `{SerdeJson} `{GardeLength}.
Context `{Sha256Hex} `{Blake2b512} `{DecimalOps}.
(** The texts of serde_json's and of garde's errors. *)
Context (garde_report : InterpretationPayload -> str) (serde_error : value -> str).
Context (service : InterpretService Env).
Notation LI := (LM Env InterpretError).

Definition full_context (c : NamedContext) : value :=
  obj [("id", jint (nc_id c)); ("name", String (nc_name c)); ("slug", jopt String (nc_slug c))]%string.
Definition short_context (c : NamedContext) : value :=
  obj [("name", String (nc_name c)); ("slug", jopt String (nc_slug c))]%string.
Definition request_payload (context : NamedContext -> value) (teacher_prompt : str) (input : InterpretInput) : value :=
  obj [("teacher_prompt", String teacher_prompt);
       ("preferred_output_type", String (ii_preferred_output_type input));
       ("subject_context", jopt context (ii_subject_context input));
       ("sub_subject_context", jopt context (ii_sub_subject_context input))]%string.
Definition interpret_cache_key (model instruction : str) (input : InterpretInput) : str :=
  build_cache_key Interpret interpret_provider model INTERPRET_REQUEST_TYPE instruction
    (request_payload full_context (ii_teacher_prompt input) input).

Definition enrich_with_taxonomy (payload : InterpretationPayload) (input : InterpretInput) : InterpretationPayload :=
  if bool_decide (is_Some (ii_subject_context input)) && bool_decide (is_Some (ii_sub_subject_context input))
  then payload
  else match infer (is_rows service) (ii_teacher_prompt input) with
       | None => payload
       | Some inference =>
           let payload :=
             match ii_subject_context input, ip_subject_context payload, try_into_subject inference with
             | None, None, Some best =>
                 payload <| ip_subject_context := Some (mkSubjectContext (sub_name best) (Some (sub_slug best))) |>
             | _, _, _ => payload
             end in
           let payload :=
             match ii_sub_subject_context input, ip_sub_subject_context payload, try_into_sub_subject inference with
             | None, None, Some best_sub =>
                 payload <| ip_sub_subject_context :=
                   Some (mkSubSubjectContext (sub_name best_sub) (Some (sub_slug best_sub))) |>
             | _, _, _ => payload
             end in
           match ip_target_audience payload, bm_jenjang (tr_best_match inference) with
           | None, Some label =>
               payload <| ip_target_audience :=
                 Some (mkTargetAudience label (z_to_string <$> bm_kelas (tr_best_match inference)) None) |>
           | _, _ => payload
           end
       end.

Definition usage_json (u : Usage) : value :=
  obj [("prompt_tokens", jopt jint (prompt_tokens u)); ("completion_tokens", jopt jint (completion_tokens u));
       ("total_tokens", jopt jint (total_tokens u))]%string.
Definition build_audit_payload (provider model : str) (input : InterpretInput) (raw_completion : str)
    (response : CompletionResponse) (payload : InterpretationPayload) (fallback_used : bool)
    (fallback_error : option ContractValidationError) : value :=
  obj [("llm_provider", String provider);
       ("llm_model", String (default model (rs_model response)));
       ("request_payload", request_payload full_context (ii_teacher_prompt input) input);
       ("request_meta", obj [("route", String INTERPRET_ROUTE); ("request_type", String INTERPRET_REQUEST_TYPE);
                             ("model", String model); ("provider", String provider);
                             ("instruction_schema", String INTERPRET_REQUEST_TYPE)]%string);
       ("response", obj [("raw_completion", String raw_completion); ("provider_model", jopt String (rs_model response));
                         ("usage", jopt usage_json (usage response));
                         ("finish_reason", jopt String (first_finish_reason response))]%string);
       ("taxonomy_inference", jopt encode_TaxonomyInferenceResult (infer (is_rows service) (ii_teacher_prompt input)));
       ("normalized_payload", encode_InterpretationPayload payload);
       ("used_fallback", Bool fallback_used);
       ("fallback_error", jopt (λ e, obj [("code", String (code e)); ("message", String (Repair.message e));
                                          ("details", details e)]%string) fallback_error)]%string.

Definition build_result (generation_id request_id : str) (payload : InterpretationPayload)
    (llm_provider llm_model : str) (cache_hit fallback_used : bool) (latency_ms : Q) : InterpretResult :=
  let audit := build_audit_payload llm_provider llm_model
    (mkInterpretInput generation_id (ip_teacher_prompt payload) (ic_preferred_output_type (ip_constraints payload))
       None None (Some llm_model) None)
    [] {| choices := []; usage := None; rs_model := Some llm_model |} payload fallback_used None in
  mkInterpretResult request_id generation_id payload audit llm_provider llm_model cache_hit fallback_used
    (service_headers llm_provider llm_model cache_hit fallback_used) (Some latency_ms).

(** ** The provider call *)

Definition provider_request (model instruction : str) (input : InterpretInput) : CompletionRequest :=
  let teacher_prompt := trim (ii_teacher_prompt input) in
  let hint (what : string) (c : option NamedContext) :=
    match c with Some c => lit " (" ++ lit what ++ lit ": " ++ nc_name c ++ lit ")" | None => [] end in
  let user_payload := request_payload short_context teacher_prompt input in
  let user_message := teacher_prompt ++ hint "subject"%string (ii_subject_context input)
    ++ hint "sub_subject"%string (ii_sub_subject_context input) ++ [10; 10] ++ json_pretty 0 user_payload in
  json_mode_request model instruction user_message.

(** The payload of a reply, whether it is the fallback, and why. *)
Definition accept_reply (response : CompletionResponse) (input : InterpretInput) :
    InterpretationPayload * bool * option ContractValidationError :=
  let raw_completion := default [] (first_choice_content response) in
  match decode_and_validate garde_report raw_completion with
  | inr p => (enrich_with_taxonomy p input, false, None)
  | inl validation_err =>
      (Repair.fallback (ii_teacher_prompt input) (ii_preferred_output_type input), true, Some validation_err)
  end.

(** [std::any::type_name::<ProviderError>()]. *)
Definition provider_error_class : str := lit "klass_gateway::providers::ProviderError".

Definition execute_provider (input : InterpretInput) (request_id model instruction cache_key : str)
    (should_cache : bool) : LI InterpretResult :=
  provider_result ← provider_call (is_router service) (provider_request model instruction input);
  latency_ms ← latency;
  match provider_result with
  | inr response =>
      let '(payload, fallback_used, fallback_error) := accept_reply response input in
      _ ← book_response Interpret should_cache (encode_InterpretationPayload payload) request_id (ii_generation_id input)
            INTERPRET_ROUTE INTERPRET_REQUEST_TYPE interpret_provider model latency_ms response fallback_used
            (code <$> fallback_error) cache_key "interpretation_service";
      mret (build_result (ii_generation_id input) request_id payload (default interpret_provider (rs_model response))
              (default model (rs_model response)) false fallback_used latency_ms)
  | inl provider_err =>
      _ ← record_provider_failure request_id (ii_generation_id input) INTERPRET_ROUTE INTERPRET_REQUEST_TYPE
            interpret_provider model provider_error_class provider_err "interpretation_service";
      fails (InterpretProviderError provider_err)
  end.

(** ** The cache *)

(** The payload of a stored response. *)
Definition cached_payload (what : string) (entry : CacheEntry) : outcome InterpretError InterpretationPayload :=
  match decode_InterpretationPayload (ce_response_payload entry) with
  | Some p => Ok p
  | None =>
      let e := serde_error (ce_response_payload entry) in
      Err (InterpretContract (mkContractValidationError (lit "cached_payload_corrupt") (lit what ++ e)
             (obj [("deserialize_error", String e)]%string) (json_text (ce_response_payload entry))))
  end.

(** A response of the cache: its questions are derived anew. *)
Definition serve_entry (what : string) (metadata : value) (input : InterpretInput) (request_id model cache_key : str)
    (entry : CacheEntry) : LI InterpretResult :=
  payload ← returned (cached_payload what entry);
  latency_ms ← latency;
  let payload := regenerate_plan_mode_from_interpretation payload in
  _ ← record_hit request_id (ii_generation_id input) INTERPRET_ROUTE INTERPRET_REQUEST_TYPE interpret_provider model
        latency_ms cache_key metadata;
  mret (build_result (ii_generation_id input) request_id payload interpret_provider model true false latency_ms).

Definition serve_hit : InterpretInput -> str -> str -> str -> CacheEntry -> LI InterpretResult :=
  serve_entry "Cached interpretation payload failed deserialization: "
    (obj [("source", jstr "interpretation_service"); ("cache_hit", Bool true);
          ("cache_source", jstr "interpretation_cache"); ("plan_mode_regenerated", Bool true)]%string).
Definition serve_waited : InterpretInput -> str -> str -> str -> CacheEntry -> LI InterpretResult :=
  serve_entry "Cached interpretation payload (waited) failed: "
    (obj [("source", jstr "interpretation_service"); ("cache_hit", Bool true);
          ("cache_source", jstr "interpretation_cache_inflight_wait")]%string).

(** The request id is [Uuid::new_v4()]. *)
Definition interpret (request_id : str) (input : InterpretInput) : LI InterpretResult :=
  let model := default (is_default_model service) (ii_model input) in
  let instruction := default (is_default_instruction service) (ii_instruction input) in
  let cache_key := interpret_cache_key model instruction input in
  serve_or_call InterpretGovernance InterpretCacheError (InterpretRateLimited request_id (ii_generation_id input))
    Interpret INTERPRET_ROUTE interpret_provider model 500 2000 request_id (ii_generation_id input) cache_key false
    (serve_hit input request_id model cache_key) (serve_waited input request_id model cache_key)
    (execute_provider input request_id model instruction cache_key).
End Interpret.

(** ** Lemmas: the runs of the service *)

Section InterpretFacts.
Context {Env : Type} `{CaseTables} `{Regexes} `{UnicodeClasses} `{JsonLex} `{SerdeJson} `{GardeLength}.
Context `{Sha256Hex} `{Blake2b512} `{DecimalOps}.
Context (garde_report : InterpretationPayload -> str) (serde_error : value -> str).
Context (service : InterpretService Env).
Implicit Types s : Services Env.

(** What a row of the ledger says of the answer it was written for. *)
Definition row_of_answer (request_id : str) (r : outcome InterpretError InterpretResult) (row : LedgerEntry) : Prop :=
  le_request_id row = request_id /\
  match r with
  | Ok res =>
      le_final_status row = lit "completed"
      /\ le_cache_status row = (if ir_cache_hit res then lit "hit" else if ir_fallback_used res then lit "bypass" else lit "miss")
      /\ le_latency_ms row = numeric2 <$> ir_latency_ms res
  | Err (InterpretProviderError e) =>
      le_final_status row = lit "failed" /\ le_error_code row = Some (provider_error_text e)
      /\ (length (provider_error_text e) <= 100)%nat
  | Err _ => False
  | Panic => True
  end.

(** What was asked of the provider, and what became of its answer. *)
Definition answered_by_provider (request_id model instruction : str) (input : InterpretInput) s s'
    (r : outcome InterpretError InterpretResult) : Prop :=
  exists ans, complete (is_router service) (provider_request model instruction input) (sv_router s) = (ans, sv_router s') /\
  match r with
  | Ok res => exists response, ans = inr response /\ ir_cache_hit res = false /\ ir_request_id res = request_id
                /\ (ir_interpretation_payload res, ir_fallback_used res) = (accept_reply garde_report service response input).1
  | Err e => exists err, ans = inl err /\ e = InterpretProviderError err
  | Panic => True
  end.

Lemma execute_provider_run input rid model instr key sc s r s' :
  execute_provider garde_report service input rid model instr key sc s = (r, s') ->
  answered_by_provider rid model instr input s s' r /\ appended (row_of_answer rid r) s s'.
Proof.
  unfold execute_provider. intros (ans & s1 & Hans & Hw1 & Hrun)%provider_then.
  apply latency_then in Hrun as (lat & s2 & [Hr2 Hw2] & Hrun). unfold answered_by_provider.
  destruct ans as [err|response].
  - apply (writes_then _ _ (Err (InterpretProviderError err)) _ _ _ (writes_failure _ _ _ _ _ _ _ _ _)) in Hrun as (Hr3 & Hw3 & Hr).
    split.
    + exists (inl err). split; [congruence|]. destruct Hr as [-> | ->]; [by exists err|done].
    + apply (appended_frame_l _ s2); [congruence|]. eapply appended_weaken; [|exact Hw3].
      intros row (? & ? & ? & ?). by destruct Hr as [-> | ->].
  - destruct (accept_reply garde_report service response input) as [[payload fb] fe] eqn:Hacc.
    eapply (writes_then _ _ (Ok _)) in Hrun as (Hr3 & Hw3 & Hr); [|apply writes_book].
    split.
    + exists (inr response). split; [congruence|]. destruct Hr as [-> | ->]; [|done]. exists response. by rewrite Hacc.
    + apply (appended_frame_l _ s2); [congruence|]. eapply appended_weaken; [|exact Hw3].
      intros row [(? & ? & ? & ?) _]. by destruct Hr as [-> | ->].
Qed.

(** An answer of the cache: a stored payload with its questions derived anew. *)
Definition answered_by_cache (request_id : str) s s' (r : outcome InterpretError InterpretResult) : Prop :=
  sv_router s' = sv_router s /\
  match r with
  | Ok res => exists entry p, decode_InterpretationPayload (ce_response_payload entry) = Some p
                /\ ir_interpretation_payload res = regenerate_plan_mode_from_interpretation p
                /\ ir_cache_hit res = true /\ ir_fallback_used res = false /\ ir_request_id res = request_id
  | Err e => exists err, e = InterpretContract err /\ code err = lit "cached_payload_corrupt" /\ rows_of s' = rows_of s
  | Panic => True
  end.
Lemma serve_entry_run what meta input rid model key entry s r s' :
  serve_entry serde_error service what meta input rid model key entry s = (r, s') ->
  answered_by_cache rid s s' r /\ appended (row_of_answer rid r) s s'.
Proof.
  unfold serve_entry, cached_payload. destruct (decode_InterpretationPayload (ce_response_payload entry)) as [p|] eqn:Hdec.
  - intros (lat & s2 & [Hr2 Hw2] & Hrun)%latency_then.
    eapply (writes_then _ _ (Ok _)) in Hrun as (Hr3 & Hw3 & Hr); [|apply writes_hit].
    split; [split; [congruence|]|].
    + destruct Hr as [-> | ->]; [by exists entry, p|done].
    + apply (appended_frame_l _ s2); [congruence|]. eapply appended_weaken; [|exact Hw3].
      intros row (? & ? & ? & ?). by destruct Hr as [-> | ->].
  - intros [= <- <-]. split; [|by apply appended_none]. split; [done|]. by eexists.
Qed.

(** C10. Every run of the interpretation service ends in one of three ways: the provider was asked once
    and its reply is the answer (decoded, or the fallback of the prompt), or its error is; or a stored
    payload is the answer, its questions derived anew, and the provider was not asked; or nothing was
    asked and nothing answered (the budget denied it, a query failed). The ledger gets at most one row,
    of this request, that says which; a provider error of more than 100 characters gets none. *)
Theorem interpret_spec rid input s r s' :
  interpret garde_report serde_error service rid input s = (r, s') ->
  appended (row_of_answer rid r) s s' /\
  (answered_by_provider rid (default (is_default_model service) (ii_model input))
     (default (is_default_instruction service) (ii_instruction input)) input s s' r
   \/ answered_by_cache rid s s' r
   \/ quiet s s' /\ (r = Panic \/ r = Err (InterpretRateLimited rid (ii_generation_id input))
        \/ (exists e, r = Err (InterpretGovernance e)) \/ (exists e, r = Err (InterpretCacheError e)))).
Proof.
  unfold interpret.
  intros Hrun. apply serve_or_call_run in Hrun as
    [(sc & s1 & s2 & [Hr1 Hw1] & Hcall & [Hr2 Hw2])|[(entry & s1 & [Hr1 Hw1] & Hserve)|[Hq Hr]]].
  - apply execute_provider_run in Hcall as [(ans & Hans & Hr) Hw]. split.
    + apply (appended_frame_l _ s1); [done|]. by apply (appended_frame_r _ _ s2).
    + left. exists ans. rewrite Hr2, <- Hr1. by split.
  - assert (answered_by_cache rid s1 s' r /\ appended (row_of_answer rid r) s1 s') as [[Hrc Hr] Hw]
      by (destruct Hserve as [Hs|Hs]; by eapply serve_entry_run).
    split; [by apply (appended_frame_l _ s1)|]. right; left. split; [congruence|].
    destruct r as [res|e|]; [done| |done]. destruct Hr as (err & ? & ? & ?). exists err. repeat split; [done|done|congruence].
  - split; [destruct Hq; by apply appended_none|]. right; right. split; [done|].
    destruct Hr as [[-> _] | [? | [? | -> ]]]; auto.
Qed.
End InterpretFacts.

(** ** Concrete data *)

Module InterpretWitness.
#[export] Existing Instances plain_case plain_lex LedgerWitness.exact_decimals.
#[export] Instance no_regexes : Regexes := {| re_is_match _ _ := false; re_captures1 _ _ := None |}.
#[export] Instance no_classes : UnicodeClasses := {| letter_or_number_table _ := false; re_replace_all _ _ s := s |}.
#[export] Instance char_length : GardeLength := λ s, length s.
#[export] Instance one_hash : Sha256Hex := λ _, replicate 64 97.
#[export] Instance one_digest : Blake2b512 := λ _, replicate 64 1.
(** A model that answers every prompt with the same payload, and asks nothing. *)
Definition model_payload : InterpretationPayload := Repair.fallback (lit "Buatkan materi pecahan") (lit "pdf").
#[export] Instance one_payload : SerdeJson := {| parse_json _ := None; parse_payload _ := inr model_payload |}.

Definition reply : CompletionResponse :=
  {| choices := [{| Router.message := {| role := lit "assistant"; content := lit "{}" |}; finish_reason := None; index := 0 |}];
     usage := None; rs_model := Some (lit "minimax/minimax-m3") |}.
Definition replying : InterpretService unit :=
  mkInterpretService unit (new_router (λ _ e, (inr reply, e))) [] (lit "minimax/minimax-m3") (lit "interpret").
Definition failing (body : str) : InterpretService unit :=
  mkInterpretService unit (new_router (λ _ e, (inl (Api 502 body), e))) [] (lit "minimax/minimax-m3") (lit "interpret").
Definition no_limits : RL := mkRL [] ∅ 1 0 [].
Definition fresh_services : Services unit :=
  mkServices unit CacheWitness.busy_cache no_limits (mkRouterState tt [] 0) LedgerWitness.empty_ledger LedgerWitness.no_prices [1234] [].
Definition prompt : InterpretInput :=
  mkInterpretInput (lit "g") (lit "Buatkan materi pecahan") (lit "pdf") None None None None.
Notation run service rid s := (interpret (λ _, []) (λ _, []) service rid prompt s).

Lemma interpret_spec_witness :
  appended (row_of_answer (lit "r1") (run replying (lit "r1") fresh_services).1) fresh_services
    (run replying (lit "r1") fresh_services).2
  /\ length (rows_of (run replying (lit "r1") fresh_services).2) = 1%nat.
Proof.
  split; [|vm_compute; reflexivity].
  exact (proj1 (interpret_spec (λ _, []) (λ _, []) replying (lit "r1") prompt fresh_services
    (run replying (lit "r1") fresh_services).1 (run replying (lit "r1") fresh_services).2 (surjective_pairing _))).
Defined.

(** 1234 milliseconds are written down as 1.23. *)
Example latency_in_seconds :
  le_latency_ms <$> rows_of (run replying (lit "r1") fresh_services).2 = [Some (123 # 100)%Q].
Proof. vm_compute. reflexivity. Qed.

(** The provider column holds the name of the model. *)
Example provider_is_model :
  le_provider <$> rows_of (run replying (lit "r1") fresh_services).2 = [lit "minimax/minimax-m3"].
Proof. vm_compute. reflexivity. Qed.

(** The first answer asks what the model asked; the second, of the cache, what the standards require. *)
Definition questions (r : outcome InterpretError InterpretResult * Services unit) : option (bool * nat) :=
  match r.1 with
  | Ok res => Some (ir_cache_hit res, length (ip_missing_fields (ir_interpretation_payload res)))
  | _ => None
  end.
Example second_answer_asks :
  questions (run replying (lit "r1") fresh_services) = Some (false, 0%nat)
  /\ questions (run replying (lit "r2") (run replying (lit "r1") fresh_services).2) = Some (true, 1%nat).
Proof. vm_compute. split; reflexivity. Qed.

(** A provider error of more than 100 characters leaves no row. *)
Example long_errors_unrecorded :
  length (rows_of (run (failing (lit "busy")) (lit "r1") fresh_services).2) = 1%nat
  /\ length (rows_of (run (failing (replicate 80 97)) (lit "r1") fresh_services).2) = 0%nat.
Proof. vm_compute. split; reflexivity. Qed.
End InterpretWitness.
