(* ===== verification/Delivery.v ===== *)
(** * The delivery response (src/src/contracts/delivery.rs)

    The contract media_delivery_response.v1 between the model and the gateway: its types, serde in both
    directions, validation, and the fallback that stands in for a reply that breaks it. *)

From stdpp Require Import base list option strings.
From Stdlib Require Import ZArith Lia Floats.SpecFloat.
From S2P Require Import Prelude RustStr Json Text Canon Store Samples Interpretation Repair.
#[local] Open Scope Z_scope.

Definition SCHEMA_VERSION : str := lit "media_delivery_response.v1".

(** ** Types *)

Record DeliveryArtifact := mkDeliveryArtifact {
  da_output_type : str;
  da_title : str;
  da_file_url : str;
  da_thumbnail_url : option str;
  da_mime_type : str;
  da_filename : option str
}.

Record TopicNode := mkTopicNode {
  tn_id : str;
  tn_title : str
}.

Record ContentNode := mkContentNode {
  cn_id : str;
  cn_title : str;
  cn_type : option str;
  cn_media_url : option str
}.

Record RecommendedProjectNode := mkRecommendedProjectNode {
  rn_id : str;
  rn_title : str;
  rn_project_file_url : option str
}.

Record Publication := mkPublication {
  pu_topic : option TopicNode;
  pu_content : option ContentNode;
  pu_recommended_project : option RecommendedProjectNode
}.

Record ResponseMeta := mkResponseMeta {
  rm_generated_at : str;
  rm_llm_used : bool;
  rm_provider : option str;
  rm_model : option str
}.

Record DeliveryFallback := mkDeliveryFallback {
  df_triggered : bool;
  df_reason_code : option str;
  df_action : option str
}.

Record DeliveryResponsePayload := mkDeliveryResponsePayload {
  dp_schema_version : str;
  dp_title : str;
  dp_preview_summary : str;
  dp_teacher_message : str;
  dp_recommended_next_steps : list str;
  dp_classroom_tips : list str;
  dp_artifact : DeliveryArtifact;
  dp_publication : Publication;
  dp_response_meta : ResponseMeta;
  dp_fallback : DeliveryFallback
}.

Definition default_delivery_fallback : DeliveryFallback := mkDeliveryFallback false None None.

(** ** Decoding and encoding *)

Definition DeliveryArtifact_keys : list (list string) :=
  [["output_type"]; ["title"]; ["file_url"]; ["thumbnail_url"]; ["mime_type"]; ["filename"]]%string.
Definition decode_DeliveryArtifact (v : value) : option DeliveryArtifact :=
  fs ← struct_fields DeliveryArtifact_keys v;
  match fs with
  | [f0; f1; f2; f3; f4; f5] =>
      output_type_ ← required d_string f0;
      title_ ← required d_string f1;
      file_url_ ← required d_string f2;
      thumbnail_url_ ← defaulted None (d_opt d_string) f3;
      mime_type_ ← required d_string f4;
      filename_ ← defaulted None (d_opt d_string) f5;
      Some (mkDeliveryArtifact output_type_ title_ file_url_ thumbnail_url_ mime_type_ filename_)
  | _ => None
  end.

Definition TopicNode_keys : list (list string) :=
  [["id"]; ["title"]]%string.
Definition decode_TopicNode (v : value) : option TopicNode :=
  fs ← struct_fields TopicNode_keys v;
  match fs with
  | [f0; f1] =>
      id_ ← required d_string f0;
      title_ ← required d_string f1;
      Some (mkTopicNode id_ title_)
  | _ => None
  end.

Definition ContentNode_keys : list (list string) :=
  [["id"]; ["title"]; ["type"]; ["media_url"]]%string.
Definition decode_ContentNode (v : value) : option ContentNode :=
  fs ← struct_fields ContentNode_keys v;
  match fs with
  | [f0; f1; f2; f3] =>
      id_ ← required d_string f0;
      title_ ← required d_string f1;
      type_ ← defaulted None (d_opt d_string) f2;
      media_url_ ← defaulted None (d_opt d_string) f3;
      Some (mkContentNode id_ title_ type_ media_url_)
  | _ => None
  end.

Definition RecommendedProjectNode_keys : list (list string) :=
  [["id"]; ["title"]; ["project_file_url"]]%string.
Definition decode_RecommendedProjectNode (v : value) : option RecommendedProjectNode :=
  fs ← struct_fields RecommendedProjectNode_keys v;
  match fs with
  | [f0; f1; f2] =>
      id_ ← required d_string f0;
      title_ ← required d_string f1;
      project_file_url_ ← defaulted None (d_opt d_string) f2;
      Some (mkRecommendedProjectNode id_ title_ project_file_url_)
  | _ => None
  end.

Definition Publication_keys : list (list string) :=
  [["topic"]; ["content"]; ["recommended_project"]]%string.
Definition decode_Publication (v : value) : option Publication :=
  fs ← struct_fields Publication_keys v;
  match fs with
  | [f0; f1; f2] =>
      topic_ ← defaulted None (d_opt decode_TopicNode) f0;
      content_ ← defaulted None (d_opt decode_ContentNode) f1;
      recommended_project_ ← defaulted None (d_opt decode_RecommendedProjectNode) f2;
      Some (mkPublication topic_ content_ recommended_project_)
  | _ => None
  end.

Definition ResponseMeta_keys : list (list string) :=
  [["generated_at"]; ["llm_used"]; ["provider"]; ["model"]]%string.
Definition decode_ResponseMeta (v : value) : option ResponseMeta :=
  fs ← struct_fields ResponseMeta_keys v;
  match fs with
  | [f0; f1; f2; f3] =>
      generated_at_ ← required d_string f0;
      llm_used_ ← required d_bool f1;
      provider_ ← defaulted None (d_opt d_string) f2;
      model_ ← defaulted None (d_opt d_string) f3;
      Some (mkResponseMeta generated_at_ llm_used_ provider_ model_)
  | _ => None
  end.

Definition DeliveryFallback_keys : list (list string) :=
  [["triggered"]; ["reason_code"]; ["action"]]%string.
Definition decode_DeliveryFallback (v : value) : option DeliveryFallback :=
  fs ← struct_fields DeliveryFallback_keys v;
  match fs with
  | [f0; f1; f2] =>
      triggered_ ← defaulted false d_bool f0;
      reason_code_ ← defaulted None (d_opt d_string) f1;
      action_ ← defaulted None (d_opt d_string) f2;
      Some (mkDeliveryFallback triggered_ reason_code_ action_)
  | _ => None
  end.

Definition DeliveryResponsePayload_keys : list (list string) :=
  [["schema_version"]; ["title"]; ["preview_summary"]; ["teacher_message"]; ["recommended_next_steps"]; ["classroom_tips"]; ["artifact"]; ["publication"]; ["response_meta"]; ["fallback"]]%string.
Definition decode_DeliveryResponsePayload (v : value) : option DeliveryResponsePayload :=
  fs ← struct_fields DeliveryResponsePayload_keys v;
  match fs with
  | [f0; f1; f2; f3; f4; f5; f6; f7; f8; f9] =>
      schema_version_ ← required d_string f0;
      title_ ← required d_string f1;
      preview_summary_ ← required d_string f2;
      teacher_message_ ← required d_string f3;
      recommended_next_steps_ ← defaulted [] (d_vec d_string) f4;
      classroom_tips_ ← defaulted [] (d_vec d_string) f5;
      artifact_ ← required decode_DeliveryArtifact f6;
      publication_ ← required decode_Publication f7;
      response_meta_ ← required decode_ResponseMeta f8;
      fallback_ ← defaulted default_delivery_fallback decode_DeliveryFallback f9;
      Some (mkDeliveryResponsePayload schema_version_ title_ preview_summary_ teacher_message_ recommended_next_steps_ classroom_tips_ artifact_ publication_ response_meta_ fallback_)
  | _ => None
  end.

Definition DeliveryArtifact_entries (p : DeliveryArtifact) : list (string * option value) :=
  [("output_type", Some (String (da_output_type p)));
   ("title", Some (String (da_title p)));
   ("file_url", Some (String (da_file_url p)));
   ("thumbnail_url", String <$> da_thumbnail_url p);
   ("mime_type", Some (String (da_mime_type p)));
   ("filename", String <$> da_filename p)]%string.
Definition encode_DeliveryArtifact (p : DeliveryArtifact) : value := struct_value (DeliveryArtifact_entries p).

Definition TopicNode_entries (p : TopicNode) : list (string * option value) :=
  [("id", Some (String (tn_id p)));
   ("title", Some (String (tn_title p)))]%string.
Definition encode_TopicNode (p : TopicNode) : value := struct_value (TopicNode_entries p).

Definition ContentNode_entries (p : ContentNode) : list (string * option value) :=
  [("id", Some (String (cn_id p)));
   ("title", Some (String (cn_title p)));
   ("type", String <$> cn_type p);
   ("media_url", String <$> cn_media_url p)]%string.
Definition encode_ContentNode (p : ContentNode) : value := struct_value (ContentNode_entries p).

Definition RecommendedProjectNode_entries (p : RecommendedProjectNode) : list (string * option value) :=
  [("id", Some (String (rn_id p)));
   ("title", Some (String (rn_title p)));
   ("project_file_url", String <$> rn_project_file_url p)]%string.
Definition encode_RecommendedProjectNode (p : RecommendedProjectNode) : value := struct_value (RecommendedProjectNode_entries p).

Definition Publication_entries (p : Publication) : list (string * option value) :=
  [("topic", encode_TopicNode <$> pu_topic p);
   ("content", encode_ContentNode <$> pu_content p);
   ("recommended_project", encode_RecommendedProjectNode <$> pu_recommended_project p)]%string.
Definition encode_Publication (p : Publication) : value := struct_value (Publication_entries p).

Definition ResponseMeta_entries (p : ResponseMeta) : list (string * option value) :=
  [("generated_at", Some (String (rm_generated_at p)));
   ("llm_used", Some (Bool (rm_llm_used p)));
   ("provider", String <$> rm_provider p);
   ("model", String <$> rm_model p)]%string.
Definition encode_ResponseMeta (p : ResponseMeta) : value := struct_value (ResponseMeta_entries p).

Definition DeliveryFallback_entries (p : DeliveryFallback) : list (string * option value) :=
  [("triggered", Some (Bool (df_triggered p)));
   ("reason_code", String <$> df_reason_code p);
   ("action", String <$> df_action p)]%string.
Definition encode_DeliveryFallback (p : DeliveryFallback) : value := struct_value (DeliveryFallback_entries p).

Definition DeliveryResponsePayload_entries (p : DeliveryResponsePayload) : list (string * option value) :=
  [("schema_version", Some (String (dp_schema_version p)));
   ("title", Some (String (dp_title p)));
   ("preview_summary", Some (String (dp_preview_summary p)));
   ("teacher_message", Some (String (dp_teacher_message p)));
   ("recommended_next_steps", Some (jstrings (dp_recommended_next_steps p)));
   ("classroom_tips", Some (jstrings (dp_classroom_tips p)));
   ("artifact", Some (encode_DeliveryArtifact (dp_artifact p)));
   ("publication", Some (encode_Publication (dp_publication p)));
   ("response_meta", Some (encode_ResponseMeta (dp_response_meta p)));
   ("fallback", Some (encode_DeliveryFallback (dp_fallback p)))]%string.
Definition encode_DeliveryResponsePayload (p : DeliveryResponsePayload) : value := struct_value (DeliveryResponsePayload_entries p).

(** ** Validation *)

Section Delivery.
Context `{GardeLength}.

(** The nodes of the publication are not entered. *)
Definition validate_delivery (p : DeliveryResponsePayload) : bool :=
  (1 <=? simple_length (dp_schema_version p))%nat && len_ok 1 200 (dp_title p)
  && len_ok 1 1000 (dp_preview_summary p) && len_ok 1 2000 (dp_teacher_message p)
  && len_ok 1 100 (da_output_type (dp_artifact p)) && len_ok 1 200 (da_title (dp_artifact p))
  && len_ok 1 2048 (da_file_url (dp_artifact p)) && len_ok 1 255 (da_mime_type (dp_artifact p))
  && len_ok 1 100 (rm_generated_at (dp_response_meta p)).

(** [from_str] into the payload, with the text of its error. *)
Context (parse_delivery : str -> str + DeliveryResponsePayload) (delivery_report : DeliveryResponsePayload -> str).
Definition decode_delivery (raw_json : str) : ContractValidationError + DeliveryResponsePayload :=
  let trimmed := trim raw_json in
  if bool_decide (trimmed = []) then
    inl (mkContractValidationError (lit "empty_completion") (lit "Provider completion was empty.")
           (obj [("reason", jstr "empty_completion")]%string) raw_json)
  else
    match parse_delivery trimmed with
    | inl e =>
        inl (mkContractValidationError (lit "provider_response_contract_invalid")
               (lit "Failed to decode delivery completion as JSON: " ++ e)
               (obj [("json_error", String e)]%string) raw_json)
    | inr payload =>
        if validate_delivery payload then inr payload
        else inl (mkContractValidationError (lit "provider_response_contract_invalid")
                    (lit "Provider completion failed MediaDeliveryResponseSchema validation.")
                    (obj [("errors", String (delivery_report payload))]%string) raw_json)
    end.
End Delivery.

(** ** The fallback *)

(** Lengths are bytes; [None] is the panic of a slice inside a character. *)
Definition truncate_bytes (value : str) (max : nat) : option str :=
  let trimmed := trim value in
  if (str_len trimmed <=? max)%nat then Some trimmed
  else s ← slice_to (max - 3) trimmed; Some (s ++ lit "...").

(** [generated_at] is [Utc::now().to_rfc3339()]. *)
Definition delivery_fallback (generated_at title preview_summary output_type file_url mime_type : str) :
    option DeliveryResponsePayload :=
  title_ ← truncate_bytes title 200;
  preview_summary_ ← truncate_bytes preview_summary 1000;
  artifact_title ← truncate_bytes title 200;
  mime_type_ ← truncate_bytes mime_type 255;
  Some (mkDeliveryResponsePayload SCHEMA_VERSION title_ preview_summary_
    (lit "Your " ++ output_type ++ lit " has been generated. You can download it from the provided link.")
    [] []
    (mkDeliveryArtifact output_type artifact_title file_url None mime_type_ None)
    (mkPublication None None None) (mkResponseMeta generated_at false None None)
    (mkDeliveryFallback true (Some (lit "provider_response_contract_invalid")) (Some (lit "fallback_from_delivery")))).

(** ** Round trip *)

(** The fields of an encoded struct are found; each is decoded by its lemma. *)
Ltac settle :=
  cbn [fmap list_fmap snd mbind option_bind required defaulted d_string d_bool as_str as_bool option_fmap option_map];
  rewrite ?opt_string_roundtrip, ?strings_roundtrip;
  cbn [fmap list_fmap snd mbind option_bind required defaulted d_string d_bool as_str as_bool];
  rewrite ?opt_string_roundtrip, ?strings_roundtrip; cbn [mbind option_bind].

Lemma DeliveryArtifact_roundtrip p : decode_DeliveryArtifact (encode_DeliveryArtifact p) = Some p.
Proof.
  unfold decode_DeliveryArtifact, encode_DeliveryArtifact.
  rewrite (struct_fields_entries _ (DeliveryArtifact_entries p)) by reflexivity. unfold DeliveryArtifact_entries.
  settle. by destruct p.
Qed.
Lemma TopicNode_roundtrip p : decode_TopicNode (encode_TopicNode p) = Some p.
Proof.
  unfold decode_TopicNode, encode_TopicNode.
  rewrite (struct_fields_entries _ (TopicNode_entries p)) by reflexivity. unfold TopicNode_entries.
  settle. by destruct p.
Qed.
Lemma ContentNode_roundtrip p : decode_ContentNode (encode_ContentNode p) = Some p.
Proof.
  unfold decode_ContentNode, encode_ContentNode.
  rewrite (struct_fields_entries _ (ContentNode_entries p)) by reflexivity. unfold ContentNode_entries.
  settle. by destruct p.
Qed.
Lemma RecommendedProjectNode_roundtrip p : decode_RecommendedProjectNode (encode_RecommendedProjectNode p) = Some p.
Proof.
  unfold decode_RecommendedProjectNode, encode_RecommendedProjectNode.
  rewrite (struct_fields_entries _ (RecommendedProjectNode_entries p)) by reflexivity. unfold RecommendedProjectNode_entries.
  settle. by destruct p.
Qed.
Ltac nested lem := intros ?; split; [apply lem|reflexivity].
Lemma Publication_roundtrip p : decode_Publication (encode_Publication p) = Some p.
Proof.
  unfold decode_Publication, encode_Publication.
  rewrite (struct_fields_entries _ (Publication_entries p)) by reflexivity. unfold Publication_entries.
  settle. rewrite (opt_struct_id decode_TopicNode) by nested TopicNode_roundtrip. cbn [mbind option_bind].
  rewrite (opt_struct_id decode_ContentNode) by nested ContentNode_roundtrip. cbn [mbind option_bind].
  rewrite (opt_struct_id decode_RecommendedProjectNode) by nested RecommendedProjectNode_roundtrip. cbn [mbind option_bind].
  by destruct p.
Qed.
Lemma ResponseMeta_roundtrip p : decode_ResponseMeta (encode_ResponseMeta p) = Some p.
Proof.
  unfold decode_ResponseMeta, encode_ResponseMeta.
  rewrite (struct_fields_entries _ (ResponseMeta_entries p)) by reflexivity. unfold ResponseMeta_entries.
  settle. by destruct p.
Qed.
Lemma DeliveryFallback_roundtrip p : decode_DeliveryFallback (encode_DeliveryFallback p) = Some p.
Proof.
  unfold decode_DeliveryFallback, encode_DeliveryFallback.
  rewrite (struct_fields_entries _ (DeliveryFallback_entries p)) by reflexivity. unfold DeliveryFallback_entries.
  settle. by destruct p.
Qed.

(** A delivery response written to the cache as JSON and read back is the response. *)
Lemma delivery_roundtrip (p : DeliveryResponsePayload) :
  decode_DeliveryResponsePayload (encode_DeliveryResponsePayload p) = Some p.
Proof.
  unfold decode_DeliveryResponsePayload, encode_DeliveryResponsePayload.
  rewrite (struct_fields_entries _ (DeliveryResponsePayload_entries p)) by reflexivity.
  unfold DeliveryResponsePayload_entries. settle.
  rewrite DeliveryArtifact_roundtrip. cbn [mbind option_bind]. rewrite Publication_roundtrip. cbn [mbind option_bind].
  rewrite ResponseMeta_roundtrip. cbn [mbind option_bind]. rewrite DeliveryFallback_roundtrip. cbn [mbind option_bind].
  by destruct p.
Qed.

(** ** Lemmas: cutting by bytes *)

(** The panic: longer than the bound, and the cut falls inside a character. *)
Definition cut_inside (value : str) (max : nat) : Prop :=
  (max < str_len (trim value))%nat /\ slice_to (max - 3) (trim value) = None.
Lemma truncate_bytes_panics value max : truncate_bytes value max = None <-> cut_inside value max.
Proof.
  unfold truncate_bytes, cut_inside. destruct (Nat.leb_spec (str_len (trim value)) max) as [Hle|Hlt].
  - split; [done|]. intros [? _]. lia.
  - destruct (slice_to (max - 3) (trim value)); cbn; naive_solver.
Qed.
Lemma truncate_bytes_ascii value max :
  ascii_str value -> (3 < max)%nat ->
  exists s, truncate_bytes value max = Some s /\ ascii_str s /\ (length s <= max)%nat /\ (s = [] <-> trim value = []).
Proof.
  intros Ha%ascii_trim Hmax. unfold truncate_bytes. rewrite ascii_str_len by done.
  destruct (Nat.leb_spec (length (trim value)) max) as [Hle|Hlt]; [by exists (trim value)|].
  rewrite slice_to_ascii by (done || lia). cbn. eexists. split; [done|]. split; [|split].
  - apply Forall_app. split; [by apply Forall_take|]. apply (bool_decide_unpack _). vm_compute. exact I.
  - rewrite length_app, length_take. change (length (lit "...")) with 3%nat. lia.
  - split; [by destruct (take _ _)|]. intros Heq. rewrite Heq in Hlt. cbn in Hlt. lia.
Qed.

(** The fallback of the delivery panics exactly when a title, summary or media type that is too
    long in bytes is cut inside a character. For ASCII texts it never does, and it satisfies the
    contract exactly when title, summary and media type are not blank and the texts it copies are
    within their bounds. *)
Lemma delivery_fallback_spec `{GardeLengthLaws} (generated_at title preview_summary output_type file_url mime_type : str) :
  (delivery_fallback generated_at title preview_summary output_type file_url mime_type = None
   <-> cut_inside title 200 \/ cut_inside preview_summary 1000 \/ cut_inside mime_type 255)
  /\ (Forall ascii_str [generated_at; title; preview_summary; output_type; file_url; mime_type] ->
      exists p, delivery_fallback generated_at title preview_summary output_type file_url mime_type = Some p
        /\ (validate_delivery p = true
            <-> trim title <> [] /\ trim preview_summary <> [] /\ trim mime_type <> []
                /\ (1 <= length output_type <= 100)%nat /\ (1 <= length file_url <= 2048)%nat
                /\ (1 <= length generated_at <= 100)%nat)).
Proof.
  split.
  - rewrite <- !truncate_bytes_panics. unfold delivery_fallback.
    destruct (truncate_bytes title 200); cbn; [|naive_solver].
    destruct (truncate_bytes preview_summary 1000); cbn; [|naive_solver].
    destruct (truncate_bytes mime_type 255); cbn; naive_solver.
  - intros Hall. rewrite !Forall_cons in Hall. destruct Hall as (Hg & Ht & Hp & Ho & Hf & Hm & _).
    destruct (truncate_bytes_ascii title 200) as (t & Et & Hta & Htl & Htn); [done|lia|].
    destruct (truncate_bytes_ascii preview_summary 1000) as (s & Es & Hsa & Hsl & Hsn); [done|lia|].
    destruct (truncate_bytes_ascii mime_type 255) as (m & Em & Hma & Hml & Hmn); [done|lia|].
    unfold delivery_fallback. rewrite Et. cbn [mbind option_bind]. rewrite Es. cbn [mbind option_bind]. rewrite Em.
    cbn [mbind option_bind]. eexists. split; [reflexivity|].
    unfold validate_delivery, len_ok.
    cbn [dp_schema_version dp_title dp_preview_summary dp_teacher_message dp_artifact dp_response_meta da_output_type
      da_title da_file_url da_mime_type rm_generated_at].
    set (msg := lit "Your " ++ output_type ++ _).
    assert (ascii_str msg) as Hmsg.
    { unfold msg. apply Forall_app. split; [|apply Forall_app; split; [done|]];
        apply (bool_decide_unpack _); vm_compute; exact I. }
    assert (length msg = length output_type + 69)%nat as Hlen.
    { unfold msg. rewrite !length_app. change (length (lit "Your ")) with 5%nat.
      change (length (lit " has been generated. You can download it from the provided link.")) with 64%nat. lia. }
    rewrite !simple_length_ascii by (done || (apply (bool_decide_unpack _); vm_compute; exact I)).
    rewrite Hlen. change (length SCHEMA_VERSION) with 26%nat. rewrite !andb_true_iff, !Nat.leb_le.
    rewrite <- Htn, <- Hsn, <- Hmn. destruct t, s, m; cbn [length] in *; (split; intros; [split_and?; try done; lia|split_and?; lia || naive_solver]).
Qed.

(** ** Concrete data *)

Module DeliveryWitness.
#[local] Instance char_length : GardeLength := λ s, length s.
#[local] Instance char_length_laws : GardeLengthLaws.
Proof. by split. Qed.
Lemma delivery_fallback_spec_witness :
  delivery_fallback (lit "2026-01-01T00:00:00Z") (replicate 199 97 ++ [233]) (lit "s") (lit "pdf") (lit "u") (lit "m") <> None
  /\ delivery_fallback (lit "2026-01-01T00:00:00Z") (replicate 196 97 ++ replicate 3 233) (lit "s") (lit "pdf") (lit "u") (lit "m") = None
  /\ exists p, delivery_fallback (lit "2026-01-01T00:00:00Z") (lit "Pecahan") (lit "s") (lit "pdf") (lit "u") (lit "m") = Some p
      /\ validate_delivery p = true.
Proof.
  split; [vm_compute; discriminate|]. split.
  - apply (proj1 (delivery_fallback_spec _ _ _ _ _ _)). left. split; [apply Nat.ltb_lt; vm_compute|vm_compute]; reflexivity.
  - destruct (proj2 (delivery_fallback_spec (lit "2026-01-01T00:00:00Z") (lit "Pecahan") (lit "s") (lit "pdf") (lit "u") (lit "m")))
      as (p & Hp & Hv); [by apply (bool_decide_unpack _); vm_compute|].
    exists p. split; [exact Hp|]. apply Hv. by apply (bool_decide_unpack _); vm_compute.
Defined.
End DeliveryWitness.
