(* ===== verification/Publication.v ===== *)
(** * Publication of a generated artifact (src/src/media_gen/publication.rs)

    [publish] takes the artifact a renderer left at a temporary address, checks it, stores it with a
    thumbnail, and records a topic, a content and a recommended project in one transaction with the
    generation. The state joins the generations of Store.v, the three other tables, the buckets of
    Storage.v and the answers of the HTTP client. *)

From stdpp Require Import base gmap list option strings.
From Stdlib Require Import ZArith Lia.
From S2P Require Import Prelude RustStr Utf8 Json Text Store StateM Storage Samples Lifecycle Effects AuditTrail Decision GenerationSpec Workflow Repo Webhook Delivery.
#[local] Open Scope Z_scope.

Definition ARTIFACT_CATEGORY : str := lit "materials".
Definition PDF_MAGIC : list Z := lit "%PDF".
Definition OOXML_MAGIC : list Z := [80; 75; 3; 4].
Definition PDF_EOF_MARKER : list Z := lit "%%EOF".
Definition THUMBNAIL_WIDTH : Z := 1280.
Definition THUMBNAIL_HEIGHT : Z := 720.

(** ** Errors *)

Inductive PublicationError :=
| NotFound (id : str)
| MissingArtifact
| Integrity (msg : str)
| Download (e : str)
| Upload (msg : str)
| Database (e : db_error)
| Json (e : str)
| InvalidUuid (msg : str).

Definition publication_error_text `{DbErrorText} (e : PublicationError) : str :=
  match e with
  | NotFound id => lit "generation not found: " ++ id
  | MissingArtifact => lit "artifact not found in generator response"
  | Integrity msg => lit "integrity check failed: " ++ msg
  | Download e => lit "failed to download artifact: " ++ e
  | Upload msg => lit "R2 upload failed: " ++ msg
  | Database e => lit "database error: " ++ db_error_text e
  | Json e => lit "JSON error: " ++ e
  | InvalidUuid msg => lit "invalid UUID: " ++ msg
  end.
Definition workflow_error `{DbErrorText} (e : PublicationError) : WorkflowError :=
  StepProvider (lit "publication error: " ++ publication_error_text e).

(** ** Thumbnails *)

Definition thumbnail_accent (mime_type : str) : string :=
  if str_contains mime_type (lit "pdf") then "#E74C3C"
  else if str_contains mime_type (lit "presentation") then "#F39C12"
  else "#3498DB".
Definition mime_label (mime_type : str) : string :=
  if str_contains mime_type (lit "pdf") then "PDF Document"
  else if str_contains mime_type (lit "presentation") then "Presentation"
  else if str_contains mime_type (lit "word") || str_contains mime_type (lit "document") then "Document"
  else "Media File".

(** A literal with its quotation marks written as ['], and a piece of text with arguments between. *)
Definition quoted (s : string) : str := (λ c, if c =? 39 then 34 else c) <$> lit s.
Definition line (s : str) : str := s ++ [10].

Definition svg_text (accent label : str) : str :=
  let w := z_to_string THUMBNAIL_WIDTH in
  let h := z_to_string THUMBNAIL_HEIGHT in
  let inner_w := z_to_string (THUMBNAIL_WIDTH - 120) in
  let inner_h := z_to_string (THUMBNAIL_HEIGHT - 120) in
  let middle := z_to_string (THUMBNAIL_WIDTH / 2) in
  line (quoted "<svg xmlns='http://www.w3.org/2000/svg' width='" ++ w ++ quoted "' height='" ++ h
        ++ quoted "' viewBox='0 0 " ++ w ++ lit " " ++ h ++ quoted "'>")
  ++ line (quoted "  <rect width='" ++ w ++ quoted "' height='" ++ h ++ quoted "' fill='" ++ accent
        ++ quoted "22' rx='24'/>")
  ++ line (quoted "  <rect x='60' y='60' width='" ++ inner_w ++ quoted "' height='" ++ inner_h
        ++ quoted "' rx='16' fill='white' stroke='" ++ accent ++ quoted "' stroke-width='3'/>")
  ++ line (quoted "  <text x='" ++ middle
        ++ quoted "' y='320' font-family='Arial,sans-serif' font-size='64' fill='" ++ accent
        ++ quoted "' text-anchor='middle' font-weight='bold'>KLASS</text>")
  ++ line (quoted "  <text x='" ++ middle
        ++ quoted "' y='400' font-family='Arial,sans-serif' font-size='36' fill='#555' text-anchor='middle'>Generated Media</text>")
  ++ line (quoted "  <text x='" ++ middle
        ++ quoted "' y='460' font-family='Arial,sans-serif' font-size='28' fill='#888' text-anchor='middle'>" ++ label
        ++ lit "</text>")
  ++ lit "</svg>".

(** The trait [ThumbnailGenerator], and its default. *)
Definition ThumbnailGenerator : Type := list Z -> str -> outcome PublicationError (list Z * str).
Definition SvgFallbackGenerator : ThumbnailGenerator := λ _ mime_type,
  Ok (utf8_encode (svg_text (lit (thumbnail_accent mime_type)) (lit (mime_label mime_type))), lit "image/svg+xml").

(** ** Pure helpers *)

Definition build_delivery_payload (file_url : str) (thumbnail_url : option str) (output_type mime_type : str)
    (preview_url : option str) : value :=
  obj [ ("schema_version", jstr "media_delivery_response.v1");
        ("response_meta", obj [ ("provider", jstr "python-renderer"); ("model", jstr "hf-space-v3");
                                ("llm_used", Bool false) ]);
        ("fallback", obj [ ("triggered", Bool false); ("reason_code", Null); ("action", Null) ]);
        ("artifact", obj [ ("file_url", String file_url); ("thumbnail_url", jopt String thumbnail_url);
                           ("output_type", String output_type); ("mime_type", String mime_type);
                           ("preview_url", jopt String preview_url) ]) ]%string.

Definition default_mime_for (output_type : str) : str :=
  if decide (output_type = lit "pdf") then lit "application/pdf"
  else if decide (output_type = lit "pptx") then
    lit "application/vnd.openxmlformats-officedocument.presentationml.presentation"
  else if decide (output_type = lit "docx") then
    lit "application/vnd.openxmlformats-officedocument.wordprocessingml.document"
  else lit "application/octet-stream".

Definition content_type_from_output (output_type : str) : str := lit "module".

(** [slice::windows]. *)
Fixpoint windows (n : nat) (l : list Z) : list (list Z) :=
  match l with
  | [] => []
  | _ :: rest => if (n <=? length l)%nat then take n l :: windows n rest else []
  end.
Definition has_pdf_eof_marker (bytes : list Z) : bool :=
  let tail_start := (length bytes - 1024)%nat in
  let tail := drop tail_start bytes in
  existsb (λ w, bool_decide (w = PDF_EOF_MARKER)) (windows (length PDF_EOF_MARKER) tail).

(** The checksum is computed for the log only. *)
Definition validate_integrity (bytes : list Z) (mime_type : str) : outcome PublicationError unit :=
  let mentions s := str_contains mime_type (lit s) in
  match bytes with
  | [] => Err (Integrity (lit "artifact is empty"))
  | _ =>
      if mentions "pdf"%string then
        if negb (starts_with PDF_MAGIC bytes) then
          Err (Integrity (lit "PDF file missing %PDF header magic bytes"))
        else if negb (has_pdf_eof_marker bytes) then Err (Integrity (lit "PDF file missing %%EOF trailer"))
        else Ok ()
      else if mentions "officedocument"%string || mentions "presentation"%string || mentions "word"%string then
        if negb (starts_with OOXML_MAGIC bytes) then
          Err (Integrity (lit "OOXML file missing PK\x03\x04 (ZIP) magic bytes"))
        else Ok ()
      else Ok ()
  end.

(** ** The tables of the catalogue (src/migrations) *)

Record Topic := mkTopic {
  tp_title : str;
  tp_teacher_id : str;
  tp_owner_user_id : option Z;
  tp_ownership_status : str;
  tp_is_published : bool;
  tp_order : Z;
  tp_created_at : Z;
  tp_updated_at : Z
}.
Record Content := mkContent {
  ct_topic_id : uuid;
  ct_type : str;
  ct_title : option str;
  ct_media_url : option str;
  ct_is_published : bool;
  ct_order : Z;
  ct_created_at : Z;
  ct_updated_at : Z
}.
Record RecommendedProject := mkProject {
  rp_title : str;
  rp_project_file_url : option str;
  rp_thumbnail_url : option str;
  rp_source_type : str;
  rp_source_reference : option str;
  rp_is_active : bool;
  rp_starts_at : option Z;
  rp_created_at : Z;
  rp_updated_at : Z
}.
Record Catalogue := mkCatalogue {
  topics : gmap uuid Topic;
  contents : gmap uuid Content;
  projects : gmap Z RecommendedProject
}.
#[export] Instance Catalogue_eta : Eta Catalogue := λ c, mkCatalogue (topics c) (contents c) (projects c).

Definition topic_ok (t : Topic) : bool :=
  varchar 255 (tp_title t) && varchar 255 (tp_teacher_id t) && varchar 50 (tp_ownership_status t).
Definition content_ok (c : Content) : bool :=
  varchar 20 (ct_type c) && bool_decide (ct_type c ∈ [lit "module"; lit "quiz"; lit "brief"])
  && varchar_null 255 (ct_title c).
Definition project_ok (p : RecommendedProject) : bool :=
  varchar 255 (rp_title p) && varchar 100 (rp_source_type p) && varchar_null 255 (rp_source_reference p).
Arguments topic_ok : simpl never.
Arguments content_ok : simpl never.
Arguments project_ok : simpl never.

(** The rows of [users]. *)
Class Users := user_exists : Z -> bool.

(** ** The state of the service *)

Inductive http_reply :=
| NoResponse (error : str)
| Response (status : Z) (status_text : str) (body : str + list Z).   (* a body may break off *)

Record World := mkWorld {
  w_store : St;                (* the generations, the clock and the failures of statements *)
  w_catalogue : Catalogue;     (* committed *)
  w_open : Catalogue;          (* what the open transaction sees *)
  w_next_project : Z;          (* the sequence of [recommended_projects] *)
  w_r2 : R2;
  w_http : list http_reply;    (* of the next requests; then there is no response *)
  w_requested : list str;      (* addresses requested so far *)
  w_ids : list uuid;           (* what [Uuid::new_v4] will give here *)
  w_uploaded : list str        (* [uploaded_paths] *)
}.
#[export] Instance World_eta : Eta World := λ w,
  mkWorld (w_store w) (w_catalogue w) (w_open w) (w_next_project w) (w_r2 w) (w_http w)
    (w_requested w) (w_ids w) (w_uploaded w).

Notation PM := (ST World PublicationError).

Definition on_store {A} (m : M db_error A) : PM A := zoom w_store (λ t w, w <| w_store := t |>) Database m.
Definition on_r2 {A} (m : SM A) : PM A := zoom w_r2 (λ t w, w <| w_r2 := t |>) Upload m.

Definition begin : PM unit :=
  _ ← on_store begin_tx;
  stepping (λ w, (Ok (), w <| w_open := w_catalogue w |>)).
Definition commit : PM unit :=
  _ ← on_store commit_tx; stepping (λ w, (Ok (), w <| w_catalogue := w_open w |>)).

(** A statement of the transaction; it may use [NOW()] and the value [nextval] gives, which is spent
    even when the statement or the transaction fails. *)
Definition catalogue_statement A : Type := Z -> Z -> DB -> Catalogue -> outcome db_error (A * DB * Catalogue).
Definition in_tx {A} (spends : bool) (q : catalogue_statement A) : PM A :=
  _ ← on_store take_tick;
  stepping (λ w,
    let w' := if spends then w <| w_next_project := w_next_project w + 1 |> else w in
    match q (began (w_store w)) (w_next_project w) (working (w_store w)) (w_open w) with
    | Ok (a, db, c) => (Ok a, w' <| w_store := (w_store w) <| working := db |> |> <| w_open := c |>)
    | Err e => (Err (Database e), w')
    | Panic => (Panic, w')
    end).

Definition fresh_uuid : PM uuid := λ w,
  match w_ids w with i :: rest => (Ok i, w <| w_ids := rest |>) | [] => (Ok 0, w) end.
Definition http_get (url : str) : PM http_reply := λ w,
  let w' := w <| w_requested := w_requested w ++ [url] |> in
  match w_http w with
  | r :: rest => (Ok r, w' <| w_http := rest |>)
  | [] => (Ok (NoResponse []), w')
  end.
Definition is_success (status : Z) : bool := (200 <=? status) && (status <? 300).

(** ** Statements *)

(** What [publish_inner] reads of the locked row. *)
Record Locked := mkLocked {
  lk_status : str;
  lk_interpretation_payload : option value;
  lk_generator_service_response : option value;
  lk_resolved_output_type : option str;
  lk_mime_type : option str;
  lk_teacher_id : option Z
}.
Definition locked (r : MediaGeneration) : Locked :=
  mkLocked (status r) (interpretation_payload r) (generator_service_response r) (resolved_output_type r)
    (mime_type r) (Some (teacher_id r)).
Definition select_for_update (i : uuid) : catalogue_statement (option Locked) := λ _ _ db c,
  Ok (locked <$> db !! i, db, c).

Definition insert_topic `{Users} (i : uuid) (title teacher : str) (owner : option Z) : catalogue_statement unit :=
  λ now _ db c,
    let t := mkTopic title teacher owner (lit "owned") true 0 now now in
    if negb (topic_ok t) then Err CheckViolation
    else match topics c !! i with
         | Some _ => Ok ((), db, c)
         | None => if negb (from_option user_exists true owner) then Err ForeignKeyViolation
                   else Ok ((), db, c <| topics := <[i := t]> (topics c) |>)
         end.
Definition insert_content (i topic : uuid) (type title media_url : str) : catalogue_statement unit :=
  λ now _ db c,
    let x := mkContent topic type (Some title) (Some media_url) true 0 now now in
    if negb (content_ok x) then Err CheckViolation
    else match contents c !! i with
         | Some _ => Ok ((), db, c)
         | None => if bool_decide (topics c !! topic = None) then Err ForeignKeyViolation
                   else Ok ((), db, c <| contents := <[i := x]> (contents c) |>)
         end.
Definition insert_project (title file_url : str) (thumbnail_url : option str) (reference : str) :
    catalogue_statement Z := λ now next db c,
    let p := mkProject title (Some file_url) thumbnail_url (lit "ai_generated") (Some reference) true (Some now) now now in
    if negb (project_ok p) then Err CheckViolation
    else match projects c !! next with
         | Some _ => Err UniqueViolation
         | None => Ok (next, db, c <| projects := <[next := p]> (projects c) |>)
         end.

Definition set_publication (topic content : uuid) (project : Z) (path url : str) (thumbnail : option str)
    (payload : value) (output_type : str) (r : MediaGeneration) : MediaGeneration :=
  r <| topic_id := Some topic |> <| content_id := Some content |> <| recommended_project_id := Some project |>
    <| storage_path := Some path |> <| file_url := Some url |> <| thumbnail_url := thumbnail |>
    <| delivery_payload := Some payload |> <| resolved_output_type := Some output_type |>.
Definition update_generation (i topic content : uuid) (project : Z) (path url : str) (thumbnail : option str)
    (payload : value) (output_type : str) : catalogue_statement unit := λ now _ db c,
  match update_by_id (set_publication topic content project path url thumbnail payload output_type) i now db with
  | Ok (None, db') => Ok ((), db', c)
  | Ok (Some _, db') =>
      if bool_decide (topics c !! topic = None) || bool_decide (contents c !! content = None)
         || bool_decide (projects c !! project = None)
      then Err ForeignKeyViolation else Ok ((), db', c)
  | Err e => Err e
  | Panic => Panic
  end.

(** ** The service *)

Record MediaPublicationService := mkService {
  r2_bucket : str;
  r2_transit_bucket : str;
  r2_public_url : str;
  thumbnail_gen : ThumbnailGenerator
}.
Record PublishResult := mkResult {
  pr_topic_id : option uuid;
  pr_content_id : option uuid;
  pr_recommended_project_id : option Z
}.

Section Publish.
Context `{UuidText} `{UuidErrorText} `{UuidPrint} `{AlphanumericTable} `{Presigning} `{Users}.
Context (self : MediaPublicationService).

(** Where the artifact is: an object of the transit bucket, or the first address that is present. *)
Definition artifact_url (response : value) : outcome PublicationError str :=
  match get (lit "s3_object_key") response ≫= Json.as_str with
  | Some s3_key =>
      map_err (λ e, Upload (lit "failed to generate presigned URL: " ++ e))
        (generate_presigned_url (r2_transit_bucket self) s3_key 3600)
  | None =>
      match option_or (option_or (get (lit "presigned_url") response) (get (lit "file_url") response))
              (pointer ["response"; "file_url"]%string response) ≫= Json.as_str with
      | Some url => Ok url
      | None => Err MissingArtifact
      end
  end.

Definition download_artifact (url : str) : PM (list Z) :=
  resp ← http_get url;
  match resp with
  | NoResponse e => failing (Download e)
  | Response status status_text body =>
      if negb (is_success status) then
        failing (Integrity (lit "artifact download failed: HTTP status " ++ status_text))
      else match body with inl e => failing (Download e) | inr bytes => mret bytes end
  end.

Definition download_thumbnail (url : str) : PM (str + list Z) :=
  resp ← http_get url;
  mret match resp with
       | NoResponse e => inl e
       | Response status _ body => if negb (is_success status) then inr [] else body
       end.

(** The address of the thumbnail in the renderer's response. *)
Definition renderer_thumbnail (response : value) : option str :=
  url ← option_or (get (lit "thumbnail_url") response) (pointer ["response"; "thumbnail_url"]%string response) ≫= Json.as_str;
  match url with [] => None | _ => Some url end.

Definition generated_thumbnail (artifact_bytes : list Z) (mime_type : str) : PM (option str) :=
  '(thumb_bytes, thumb_mime) ← returning (thumbnail_gen self artifact_bytes mime_type);
  upload_result ← on_r2 (upload (r2_bucket self) (r2_public_url self) (lit "gallery") thumb_bytes thumb_mime);
  mret (Some (ur_public_url upload_result)).

Definition resolve_thumbnail (response : value) (artifact_bytes : list Z) (mime_type : str) : PM (option str) :=
  match renderer_thumbnail response with
  | Some url =>
      thumb_bytes ← download_thumbnail url;
      match thumb_bytes with
      | inr ((_ :: _) as bytes) =>
          upload_result ← on_r2 (upload (r2_bucket self) (r2_public_url self) ARTIFACT_CATEGORY bytes (lit "image/svg+xml"));
          mret (Some (ur_public_url upload_result))
      | _ => generated_thumbnail artifact_bytes mime_type
      end
  | None => generated_thumbnail artifact_bytes mime_type
  end.

(** The title of the topic, the content and the project. *)
Definition topic_title (interpretation_payload : option value) : str :=
  default (lit "Generated Topic")
    (p ← interpretation_payload; pointer ["document_blueprint"; "title"]%string p ≫= Json.as_str).

(** Steps 2 to 6: the artifact and its thumbnail in the bucket, and what they are. *)
Definition store_artifact (response : value) (mime_type : str) : PM (UploadResult * option str) :=
  file_url_str ← returning (artifact_url response);
  artifact_bytes ← download_artifact file_url_str;
  _ ← returning (validate_integrity artifact_bytes mime_type);
  thumbnail_url ← resolve_thumbnail response artifact_bytes mime_type;
  r2_result ← on_r2 (upload (r2_bucket self) (r2_public_url self) ARTIFACT_CATEGORY artifact_bytes mime_type);
  _ ← stepping (λ w, (Ok (), w <| w_uploaded := w_uploaded w ++ [ur_path r2_result] |>));
  mret (r2_result, thumbnail_url).

(** Steps 7 to 10: the rows. *)
Definition create_rows (gen_id : uuid) (row : Locked) (response : value) (output_type mime_type : str)
    (r2_result : UploadResult) (thumbnail_url : option str) : PM PublishResult :=
  let topic_title := topic_title (lk_interpretation_payload row) in
  topic_id ← fresh_uuid;
  _ ← in_tx false (insert_topic topic_id topic_title (default [] (z_to_string <$> lk_teacher_id row)) (lk_teacher_id row));
  content_id ← fresh_uuid;
  let content_type := content_type_from_output output_type in
  _ ← in_tx false (insert_content content_id topic_id content_type topic_title (ur_public_url r2_result));
  recommended_project_id ← in_tx true (insert_project topic_title (ur_public_url r2_result) thumbnail_url (uuid_to_string gen_id));
  let preview_url := pointer ["artifact_metadata"; "preview_url"]%string response ≫= Json.as_str in
  let delivery_payload := build_delivery_payload (ur_public_url r2_result) thumbnail_url output_type mime_type preview_url in
  _ ← in_tx false (update_generation gen_id topic_id content_id recommended_project_id (ur_path r2_result)
        (ur_public_url r2_result) thumbnail_url delivery_payload output_type);
  _ ← commit;
  mret (mkResult (Some topic_id) (Some content_id) (Some recommended_project_id)).

Definition publish_inner (gen_id : uuid) : PM PublishResult :=
  _ ← begin;
  row ← in_tx false (select_for_update gen_id);
  row ← ok_or (NotFound (uuid_to_string gen_id)) row;
  if bool_decide (lk_status row = lit "completed") || bool_decide (lk_status row = lit "cancelled") then
    _ ← commit; mret (mkResult None None None)
  else
    let output_type := default (lit "pdf") (lk_resolved_output_type row) in
    let mime_type := default (default_mime_for output_type) (lk_mime_type row) in
    response ← ok_or MissingArtifact (lk_generator_service_response row);
    '(r2_result, thumbnail_url) ← store_artifact response mime_type;
    create_rows gen_id row response output_type mime_type r2_result thumbnail_url.

(** Deletions answer [Ok] whatever happens. *)
Fixpoint compensate_uploaded_files (paths : list str) : PM unit :=
  match paths with
  | [] => mret ()
  | path :: rest =>
      _ ← attempt (F:=PublicationError) (on_r2 (Storage.delete (r2_bucket self) path)); compensate_uploaded_files rest
  end.

(** [publish_inner], then the files of a failed publication are removed. *)
Definition publish (generation_id : str) : PM PublishResult :=
  gen_id ← returning match parse_uuid_str generation_id with
                     | Some i => Ok i
                     | None => Err (InvalidUuid (uuid_error_text generation_id))
                     end;
  _ ← stepping (λ w, (Ok (), w <| w_uploaded := [] |>));
  result ← attempt (publish_inner gen_id);
  _ ← match result with
      | Err _ => paths ← stepping (λ w, (Ok (w_uploaded w), w)); compensate_uploaded_files paths
      | _ => mret ()
      end;
  returning result.

(** The step of the pipeline, run in the world [w]. *)
Definition publish_step `{DbErrorText} (w : World) (generation_id : str) : M WorkflowError value := λ s,
  let '(r, w') := publish generation_id (w <| w_store := s |>) in
  (map_err workflow_error (outcome_bind r (λ result,
     Ok (obj [ ("topic_id", jopt (λ i, String (uuid_to_string i)) (pr_topic_id result));
               ("content_id", jopt (λ i, String (uuid_to_string i)) (pr_content_id result));
               ("recommended_project_id", jopt jint (pr_recommended_project_id result)) ]%string))),
   w_store w').
End Publish.

(** ** Rules *)

(** A tick of the schedule, in the larger state. *)
Lemma holds_on_store {A} (m : M db_error A) (Q : outcome PublicationError A -> World -> Prop) w :
  wp m (λ r s', Q (map_err Database r) (w <| w_store := s' |>)) (w_store w) -> holds (on_store m) Q w.
Proof. intros Hm. apply holds_zoom. exact Hm. Qed.

Lemma holds_begin (Q : outcome PublicationError unit -> World -> Prop) w :
  (forall s', same_data (w_store w) s' ->
    Q (Err (Database Unavailable)) (w <| w_store := s' |>) /\
    Q (Ok ()) (w <| w_store := s' <| working := committed (w_store w) |> <| began := time s' |> |>
               <| w_open := w_catalogue w |>)) ->
  holds begin Q w.
Proof.
  intros Hq. unfold begin. st_step. apply holds_on_store, wp_begin. intros s' Hs.
  destruct (Hq s' Hs) as [He Ho]. split; [by intros _|exact Ho].
Qed.

Lemma holds_commit (Q : outcome PublicationError unit -> World -> Prop) w :
  (forall s', same_data (w_store w) s' ->
    Q (Err (Database Unavailable)) (w <| w_store := s' |>) /\
    Q (Ok ()) (w <| w_store := s' <| committed := working (w_store w) |> |> <| w_catalogue := w_open w |>)) ->
  holds commit Q w.
Proof.
  intros Hq. unfold commit. st_step. apply holds_on_store, wp_commit. intros s' Hs.
  destruct (Hq s' Hs) as [He Ho]. split; [by intros _|exact Ho].
Qed.

Lemma holds_in_tx {A} (spends : bool) (q : catalogue_statement A) (Q : outcome PublicationError A -> World -> Prop) w :
  (forall s', same_data (w_store w) s' ->
    Q (Err (Database Unavailable)) (w <| w_store := s' |>) /\
    let w' := (if spends then w <| w_next_project := w_next_project w + 1 |> else w) <| w_store := s' |> in
    match q (began (w_store w)) (w_next_project w) (working (w_store w)) (w_open w) with
    | Ok (a, db, c) => Q (Ok a) (w' <| w_store := s' <| working := db |> |> <| w_open := c |>)
    | Err e => Q (Err (Database e)) w'
    | Panic => Q Panic w'
    end) ->
  holds (in_tx spends q) Q w.
Proof.
  intros Hq. unfold in_tx. st_step. apply holds_on_store, wp_tick. intros s' Hs.
  destruct (Hq s' Hs) as [He Ho]. split; [|by intros _].
  apply holds_stepping. simpl. rewrite (same_working _ _ Hs), (same_began _ _ Hs). revert Ho.
  destruct spends; simpl; destruct (q _ _ _ _) as [[[a db] c]|e|]; done.
Qed.

Lemma holds_http_get url (Q : outcome PublicationError http_reply -> World -> Prop) w :
  (forall r rest, (w_http w = r :: rest \/ (w_http w = [] /\ rest = [] /\ r = NoResponse [])) ->
    Q (Ok r) (w <| w_requested := w_requested w ++ [url] |> <| w_http := rest |>)) ->
  holds (http_get url) Q w.
Proof.
  intros Hq. unfold holds, http_get. destruct w as [st ca op nx r2 [|r rest] rq ids up]; simpl.
  - apply (Hq (NoResponse []) []). auto.
  - apply (Hq r rest). auto.
Qed.

Lemma holds_on_r2 {A} (m : SM A) (Q : outcome PublicationError A -> World -> Prop) w :
  (forall r s', m (w_r2 w) = (r, s') -> Q (map_err Upload r) (w <| w_r2 := s' |>)) -> holds (on_r2 m) Q w.
Proof. intros Hq. apply holds_zoom. destruct (m (w_r2 w)) as [r s'] eqn:E. by apply Hq. Qed.

(** ** Lemmas: the rows of a publication *)

Definition insert_missing {A} (i : Z) (x : A) (m : gmap Z A) : gmap Z A :=
  match m !! i with Some _ => m | None => <[i := x]> m end.

(** The catalogue with the entries of a publication. *)
Definition entries (now : Z) (topic content : uuid) (project : Z) (title teacher : str) (owner : option Z)
    (url : str) (thumbnail : option str) (reference : str) (c : Catalogue) : Catalogue :=
  mkCatalogue
    (insert_missing topic (mkTopic title teacher owner (lit "owned") true 0 now now) (topics c))
    (insert_missing content (mkContent topic (lit "module") (Some title) (Some url) true 0 now now) (contents c))
    (<[project := mkProject title (Some url) thumbnail (lit "ai_generated") (Some reference) true (Some now) now now]>
       (projects c)).

Lemma insert_topic_Ok `{Users} i title teacher owner now next db c a db' c' :
  insert_topic i title teacher owner now next db c = Ok (a, db', c') ->
  db' = db /\ (length title <= 255)%nat /\
  c' = c <| topics := insert_missing i (mkTopic title teacher owner (lit "owned") true 0 now now) (topics c) |>.
Proof.
  unfold insert_topic, insert_missing. destruct (topic_ok _) eqn:Hok; [|done].
  assert ((length title <= 255)%nat).
  { unfold topic_ok in Hok. apply andb_true_iff in Hok as [[Hok _]%andb_true_iff _]. by apply Nat.leb_le. }
  simpl. destruct (topics c !! i); [|destruct (from_option _ _ _)]; intros [= _ <- <-]; by destruct c.
Qed.

Lemma insert_content_Ok i topic type title url now next db c a db' c' :
  insert_content i topic type title url now next db c = Ok (a, db', c') ->
  db' = db /\
  c' = c <| contents := insert_missing i (mkContent topic type (Some title) (Some url) true 0 now now) (contents c) |>.
Proof.
  unfold insert_content, insert_missing. destruct (content_ok _); [|done]. simpl.
  destruct (contents c !! i); [|destruct (bool_decide _)]; intros [= _ <- <-]; by destruct c.
Qed.

Lemma insert_project_Ok title url thumbnail reference now next db c a db' c' :
  insert_project title url thumbnail reference now next db c = Ok (a, db', c') ->
  db' = db /\ a = next /\ projects c !! next = None /\
  c' = c <| projects := <[next := mkProject title (Some url) thumbnail (lit "ai_generated") (Some reference)
                                    true (Some now) now now]> (projects c) |>.
Proof.
  unfold insert_project. destruct (project_ok _); [|done]. simpl.
  destruct (projects c !! next) eqn:E; [done|]. by intros [= <- <- <-].
Qed.

Lemma update_generation_Ok i topic content project path url thumbnail payload output now next db c a db' c' row :
  update_generation i topic content project path url thumbnail payload output now next db c = Ok (a, db', c') ->
  db !! i = Some row ->
  c' = c /\ db' = <[i := (set_publication topic content project path url thumbnail payload output row)
                           <| updated_at := Some now |>]> db.
Proof.
  unfold update_generation. destruct (update_by_id _ _ _ _) as [[o d]|e|] eqn:E; [|done..].
  intros Hu Hr. destruct (update_by_id_present _ _ _ _ _ _ _ E Hr) as (_ & -> & ->).
  destruct (_ || _); [done|]. by injection Hu as _ <- <-.
Qed.

(** No statement panics. *)
Definition total {A} (q : catalogue_statement A) : Prop := forall now next db c, q now next db c <> Panic.
Lemma select_for_update_total i : total (select_for_update i).
Proof. by intros now next db c. Qed.
Lemma insert_topic_total `{Users} i title teacher owner : total (insert_topic i title teacher owner).
Proof. intros now next db c. unfold insert_topic. by repeat case_match. Qed.
Lemma insert_content_total i topic type title url : total (insert_content i topic type title url).
Proof. intros now next db c. unfold insert_content. by repeat case_match. Qed.
Lemma insert_project_total title url thumbnail reference : total (insert_project title url thumbnail reference).
Proof. intros now next db c. unfold insert_project. by repeat case_match. Qed.
Lemma update_generation_total i topic content project path url thumbnail payload output :
  total (update_generation i topic content project path url thumbnail payload output).
Proof.
  intros now next db c. unfold update_generation, update_by_id.
  repeat case_match; simplify_eq; done.
Qed.

(** What is committed, in the store and outside the database, is as before. *)
Record unpublished (w w' : World) : Prop := {
  un_committed : committed (w_store w') = committed (w_store w);
  un_catalogue : w_catalogue w' = w_catalogue w;
  un_r2 : w_r2 w' = w_r2 w;
  un_uploaded : w_uploaded w' = w_uploaded w
}.
#[export] Instance unpublished_preorder : PreOrder unpublished.
Proof. split; [by split|]. intros w1 w2 w3 [] []. split; congruence. Qed.

(** The statements see one transaction. *)
Record in_progress (w w' : World) : Prop := {
  ip_unpublished : unpublished w w';
  ip_began : began (w_store w') = began (w_store w)
}.

Lemma holds_statement {A} (spends : bool) (q : catalogue_statement A) (Q : outcome PublicationError A -> World -> Prop) w :
  total q ->
  (forall e w', unpublished w w' -> Q (Err e) w') ->
  (forall a db c w',
    q (began (w_store w)) (w_next_project w) (working (w_store w)) (w_open w) = Ok (a, db, c) ->
    in_progress w w' -> working (w_store w') = db -> w_open w' = c -> w_ids w' = w_ids w -> Q (Ok a) w') ->
  holds (in_tx spends q) Q w.
Proof.
  intros Ht He Hq. apply holds_in_tx. intros s' Hs.
  assert (Hc : committed s' = committed (w_store w)) by apply Hs. assert (Hb : began s' = began (w_store w)) by apply Hs.
  split; [by apply He; split|]. simpl. specialize (Ht (began (w_store w)) (w_next_project w) (working (w_store w)) (w_open w)).
  destruct (q _ _ _ _) as [[[a db] c]|e|] eqn:E; [| |done].
  - destruct spends; by eapply Hq.
  - destruct spends; by apply He; split.
Qed.

Section RowFacts.
Context `{UuidText} `{UuidErrorText} `{UuidPrint} `{AlphanumericTable} `{Presigning} `{Users}.
Context (self : MediaPublicationService).

Lemma holds_fresh (Q : outcome PublicationError uuid -> World -> Prop) w :
  (forall i w', in_progress w w' -> working (w_store w') = working (w_store w) -> w_open w' = w_open w -> Q (Ok i) w') ->
  holds fresh_uuid Q w.
Proof. intros Hq. unfold holds, fresh_uuid. destruct (w_ids w); simpl; by apply Hq. Qed.

Definition output_of (row : MediaGeneration) : str := default (lit "pdf") (resolved_output_type row).
Definition mime_of (row : MediaGeneration) : str := default (default_mime_for (output_of row)) (mime_type row).
Definition title_of (row : MediaGeneration) : str := topic_title (interpretation_payload row).

(** The tables after a publication, from the tables before. *)
Definition published (db : DB) (c : Catalogue) (i : uuid) (row : MediaGeneration) (response : value)
    (u : UploadResult) (thumbnail : option str) (res : PublishResult) (db' : DB) (c' : Catalogue) : Prop :=
  exists now topic content project,
    res = mkResult (Some topic) (Some content) (Some project) /\
    projects c !! project = None /\ (length (title_of row) <= 255)%nat /\
    c' = entries now topic content project (title_of row) (z_to_string (teacher_id row)) (Some (teacher_id row))
           (ur_public_url u) thumbnail (uuid_to_string i) c /\
    db' = <[i := (set_publication topic content project (ur_path u) (ur_public_url u) thumbnail
                    (build_delivery_payload (ur_public_url u) thumbnail (output_of row) (mime_of row)
                       (pointer ["artifact_metadata"; "preview_url"]%string response ≫= Json.as_str))
                    (output_of row) row) <| updated_at := Some now |>]> db.

Lemma create_rows_holds i row response u thumbnail w :
  working (w_store w) !! i = Some row ->
  holds (create_rows i (locked row) response (output_of row) (mime_of row) u thumbnail)
    (λ r w', match r with
     | Ok res => w_r2 w' = w_r2 w /\ w_uploaded w' = w_uploaded w /\
         published (working (w_store w)) (w_open w) i row response u thumbnail res
           (committed (w_store w')) (w_catalogue w')
     | Err _ => unpublished w w'
     | Panic => False
     end) w.
Proof.
  intros Hrow. unfold create_rows. cbn [locked lk_interpretation_payload lk_teacher_id]. fold (title_of row).
  st_step. apply holds_fresh. intros topic w1 [Hu1 Hb1] Hw1 Ho1.
  st_step. apply holds_statement; [apply insert_topic_total|intros e w' Hu; by etransitivity|].
  intros _ db2 c2 w2 (-> & Hlen & ->)%insert_topic_Ok [Hu2 Hb2] Hw2 Ho2 _.
  st_step. apply holds_fresh. intros content w3 [Hu3 Hb3] Hw3 Ho3.
  st_step. apply holds_statement; [apply insert_content_total|intros e w' Hu; repeat (etransitivity; [done|]); done|].
  intros _ db4 c4 w4 (-> & ->)%insert_content_Ok [Hu4 Hb4] Hw4 Ho4 _.
  st_step. apply holds_statement; [apply insert_project_total|intros e w' Hu; repeat (etransitivity; [done|]); done|].
  intros project db5 c5 w5 (-> & -> & Hnew & ->)%insert_project_Ok [Hu5 Hb5] Hw5 Ho5 _.
  st_step. apply holds_statement; [apply update_generation_total|intros e w' Hu; repeat (etransitivity; [done|]); done|].
  intros a6 db6 c6 w6 Hupd [Hu6 Hb6] Hw6 Ho6 _.
  assert (Hrow5 : working (w_store w5) !! i = Some row) by congruence.
  eapply update_generation_Ok in Hupd as [Hc6 Hd6]; [|exact Hrow5].
  rewrite Hc6 in Ho6. rewrite Hd6 in Hw6.
  assert (Hu : unpublished w w6) by (repeat (etransitivity; [done|]); done).
  st_step. apply holds_commit. intros s' Hs. split.
  { destruct Hu. split; simpl; [|done..]. rewrite (same_committed _ _ Hs). done. }
  st_step. simpl. split; [by destruct Hu|]. split; [by destruct Hu|].
  rewrite Ho4, Ho3, Ho2, Ho1 in Hnew. simpl in Hnew.
  exists (began (w_store w)), topic, content, (w_next_project w4). split; [done|]. split; [done|]. split; [done|].
  split.
  - rewrite Ho6, Ho5, Ho4, Ho3, Ho2, Ho1, Hb4, Hb3, Hb2, Hb1. reflexivity.
  - rewrite Hw6, Hw5, Hw4, Hw3, Hw2, Hw1, Hb5, Hb4, Hb3, Hb2, Hb1. reflexivity.
Qed.
End RowFacts.

(** ** Lemmas: the artifact and its thumbnail *)

Section ArtifactFacts.
Context `{UuidText} `{UuidErrorText} `{UuidPrintLaws} `{AlphanumericTable} `{Presigning} `{Users}.
Context (self : MediaPublicationService).

(** A key of a category of the bucket. *)
Definition in_category (category : str) (k : str * str) : Prop :=
  exists name, k = (r2_bucket self, category ++ lit "/" ++ name).

(** The tables are left alone. *)
Record same_tables (w w' : World) : Prop := {
  st_store : w_store w' = w_store w;
  st_catalogue : w_catalogue w' = w_catalogue w;
  st_open : w_open w' = w_open w
}.
#[export] Instance same_tables_preorder : PreOrder same_tables.
Proof. split; [by split|]. intros w1 w2 w3 [] []. split; congruence. Qed.

(** The address leads to an object of the category. *)
Definition stored_at (w : World) (category : str) (url : str) (x : StoredObject) : Prop :=
  exists name, let key := category ++ lit "/" ++ name in
    url = generate_public_url (r2_public_url self) key /\ objects (w_r2 w) !! (r2_bucket self, key) = Some x.

(** What an upload of the service does. *)
Lemma on_upload category bytes content_type (Q : outcome PublicationError UploadResult -> World -> Prop) w :
  (forall r w', same_tables w w' -> w_uploaded w' = w_uploaded w ->
    touches (in_category category) (w_r2 w) (w_r2 w') -> (reachable (w_r2 w) -> reachable (w_r2 w')) ->
    match r with
    | Ok u => exists name, ur_path u = category ++ lit "/" ++ name /\
        ur_public_url u = generate_public_url (r2_public_url self) (ur_path u) /\
        objects (w_r2 w') = <[(r2_bucket self, ur_path u) := mkStoredObject bytes content_type]> (objects (w_r2 w))
    | Err e => reachable (w_r2 w) -> objects (w_r2 w') = objects (w_r2 w)
    | Panic => False
    end -> Q r w') ->
  holds (on_r2 (upload (r2_bucket self) (r2_public_url self) category bytes content_type)) Q w.
Proof.
  intros Hq. apply holds_on_r2. intros r s' Hr.
  pose proof (upload_spec (r2_bucket self) (r2_public_url self) category bytes content_type (w_r2 w)) as Hs.
  pose proof (upload_moves (r2_bucket self) (r2_public_url self) category bytes content_type (w_r2 w)) as [Ht Hre].
  rewrite Hr in Hs, Ht, Hre. apply Hq; [done..|].
  destruct r as [u|e|]; simpl; [|by destruct Hs as [[-> _]|[Hn _]]|done].
  destruct Hs as (cat & ext & _ & Hp & Ho & Hu & _). eexists. by split; [exact Hp|].
Qed.
End ArtifactFacts.

(** No category of artifacts takes an SVG image. *)
Lemma svg_not_an_artifact size : exists e, check_upload ARTIFACT_CATEGORY size (lit "image/svg+xml") = Err e.
Proof.
  pose proof (check_upload_spec ARTIFACT_CATEGORY size (lit "image/svg+xml")) as Hc.
  destruct (check_upload _ _ _) as [[cat ext]|e|]; [|by exists e|done].
  destruct Hc as (Hcat & _ & Hext & Hin). exfalso.
  assert (cat = mkUploadCategory (lit "materials") (lit "materials")
      (lit <$> ["pdf"; "doc"; "docx"; "ppt"; "pptx"; "xls"; "xlsx"; "txt"; "md"]%string) 10240) as ->.
  { apply (inj Some). rewrite <- Hcat. reflexivity. }
  assert (ext = lit "svg") as -> by (apply (inj Some); rewrite <- Hext; reflexivity).
  revert Hin. apply (bool_decide_unpack (¬ _)). vm_compute. exact I.
Qed.

Section ThumbnailFacts.
Context `{UuidText} `{UuidErrorText} `{UuidPrintLaws} `{AlphanumericTable} `{Presigning} `{Users}.
Context (self : MediaPublicationService).
Context (generator : forall artifact mime, thumbnail_gen self artifact mime <> Panic).

(** What a step that only writes the gallery does. *)
Record gallery_only (w w' : World) : Prop := {
  go_tables : same_tables w w';
  go_uploaded : w_uploaded w' = w_uploaded w;
  go_touches : touches (in_category self (lit "gallery")) (w_r2 w) (w_r2 w');
  go_reachable : reachable (w_r2 w) -> reachable (w_r2 w')
}.
#[export] Instance gallery_only_preorder : PreOrder gallery_only.
Proof.
  split; [by split|]. intros w1 w2 w3 [] []. split; [by etransitivity|congruence|by etransitivity|auto].
Qed.

Lemma generated_thumbnail_holds artifact mime w :
  holds (generated_thumbnail self artifact mime) (λ r w', gallery_only w w' /\
    match r with
    | Ok t => exists url x, t = Some url /\ stored_at self w' (lit "gallery") url x
    | Err _ => True
    | Panic => False
    end) w.
Proof.
  unfold generated_thumbnail. st_step. st_step. pose proof (generator artifact mime) as Hg.
  destruct (thumbnail_gen self artifact mime) as [[bytes m]|e|]; [|done|done].
  st_step. apply on_upload. intros r w' Ht Hu Htc Hre Hr.
  destruct r as [u|e|]; [|by split|done]. st_step. destruct Hr as (name & Hp & Hurl & Ho).
  split; [by split|]. eexists _, _. split; [reflexivity|]. exists name. cbv zeta.
  rewrite <- Hp. split; [exact Hurl|]. rewrite Ho. apply lookup_insert_eq.
Qed.

Lemma gallery_then {A} (m : PM A) (Q : outcome PublicationError A -> World -> Prop) w w1 :
  gallery_only w w1 -> holds m (λ r w', gallery_only w1 w' /\ Q r w') w1 ->
  holds m (λ r w', gallery_only w w' /\ Q r w') w1.
Proof. intros Hw Hm. eapply holds_mono; [exact Hm|]. intros r w' [Hw' HQ]. split; [by etransitivity|done]. Qed.

(** A request changes no object and no table. *)
Lemma http_get_holds url (Q : outcome PublicationError http_reply -> World -> Prop) w :
  (forall r w', gallery_only w w' -> w_r2 w' = w_r2 w -> Q (Ok r) w') -> holds (http_get url) Q w.
Proof. intros Hq. apply holds_http_get. intros r rest _. apply Hq; by split. Qed.

(** The thumbnail of a publication is an object of the gallery. A thumbnail of the renderer that can be
    downloaded is refused. *)
Lemma resolve_thumbnail_holds response artifact mime w :
  holds (resolve_thumbnail self response artifact mime) (λ r w', gallery_only w w' /\
    match r with
    | Ok t => exists url x, t = Some url /\ stored_at self w' (lit "gallery") url x
    | Err _ => True
    | Panic => False
    end) w.
Proof.
  unfold resolve_thumbnail. destruct (renderer_thumbnail response) as [url|]; [|apply generated_thumbnail_holds].
  st_step. unfold download_thumbnail. st_step. apply http_get_holds. intros reply w1 Hw1 _. st_step.
  destruct (match reply with NoResponse e => inl e | Response s _ b => if negb (is_success s) then inr [] else b end)
    as [e|[|c bytes]]; [by apply gallery_then, generated_thumbnail_holds..|].
  apply (gallery_then _ _ _ _ Hw1). st_step.
  destruct (svg_not_an_artifact (Z.of_nat (length (c :: bytes)))) as [e He].
  apply holds_on_r2. intros r s' Hr. rewrite (upload_rejected _ _ _ _ _ _ _ He) in Hr.
  injection Hr as <- <-. simpl. by split.
Qed.

(** The download of the artifact. *)
Lemma download_artifact_holds url w :
  holds (download_artifact url) (λ r w', gallery_only w w' /\ w_r2 w' = w_r2 w /\ r <> Panic) w.
Proof.
  unfold download_artifact. st_step. apply http_get_holds. intros [e|status text body] w' Hw Hr2; [by st_step|].
  destruct (negb (is_success status)); [by st_step|]. destruct body; by st_step.
Qed.

Lemma validate_integrity_total bytes mime : validate_integrity bytes mime <> Panic.
Proof. unfold validate_integrity. by repeat case_match. Qed.
Lemma artifact_url_total response : artifact_url self response <> Panic.
Proof. unfold artifact_url, generate_presigned_url. by repeat case_match. Qed.

(** A failure before the artifact is stored. *)
Lemma refused_holds w w2 w3 :
  gallery_only w w2 -> same_tables w2 w3 -> w_uploaded w3 = w_uploaded w2 ->
  touches (in_category self ARTIFACT_CATEGORY) (w_r2 w2) (w_r2 w3) ->
  (reachable (w_r2 w2) -> reachable (w_r2 w3)) ->
  (reachable (w_r2 w2) -> objects (w_r2 w3) = objects (w_r2 w2)) ->
  same_tables w w3 /\ (reachable (w_r2 w) -> reachable (w_r2 w3)) /\ w_uploaded w3 = w_uploaded w /\
  touches (λ k, in_category self (lit "gallery") k \/ in_category self ARTIFACT_CATEGORY k) (w_r2 w) (w_r2 w3) /\
  (reachable (w_r2 w) -> touches (in_category self (lit "gallery")) (w_r2 w) (w_r2 w3)).
Proof.
  intros [Ht Hu Htc Hre] Hs3 Hu3 Ht3 Hre3 Ho3. split; [by etransitivity|]. split; [auto|]. split; [congruence|].
  split.
  - etransitivity; eapply touches_weaken; [|exact Htc| |exact Ht3]; auto.
  - intros Hr. etransitivity; [exact Htc|]. by apply touches_same, Ho3, Hre.
Qed.
Lemma refused_early w w2 :
  gallery_only w w2 ->
  same_tables w w2 /\ (reachable (w_r2 w) -> reachable (w_r2 w2)) /\ w_uploaded w2 = w_uploaded w /\
  touches (λ k, in_category self (lit "gallery") k \/ in_category self ARTIFACT_CATEGORY k) (w_r2 w) (w_r2 w2) /\
  (reachable (w_r2 w) -> touches (in_category self (lit "gallery")) (w_r2 w) (w_r2 w2)).
Proof. intros Hg. by apply (refused_holds w w2 w2). Qed.

(** Steps 2 to 6. *)
Lemma store_artifact_holds response mime w :
  holds (store_artifact self response mime) (λ r w', same_tables w w' /\
    (reachable (w_r2 w) -> reachable (w_r2 w')) /\
    match r with
    | Ok (u, t) => exists bytes url x name wg,
        gallery_only w wg /\ validate_integrity bytes mime = Ok () /\
        t = Some url /\ stored_at self w' (lit "gallery") url x /\
        ur_path u = ARTIFACT_CATEGORY ++ lit "/" ++ name /\
        ur_public_url u = generate_public_url (r2_public_url self) (ur_path u) /\
        objects (w_r2 w') = <[(r2_bucket self, ur_path u) := mkStoredObject bytes mime]> (objects (w_r2 wg)) /\
        w_uploaded w' = w_uploaded w ++ [ur_path u]
    | Err _ => w_uploaded w' = w_uploaded w /\
        touches (λ k, in_category self (lit "gallery") k \/ in_category self ARTIFACT_CATEGORY k) (w_r2 w) (w_r2 w') /\
        (reachable (w_r2 w) -> touches (in_category self (lit "gallery")) (w_r2 w) (w_r2 w'))
    | Panic => False
    end) w.
Proof.
  unfold store_artifact. st_step. st_step. pose proof (artifact_url_total response) as Ha.
  destruct (artifact_url self response) as [url|e|]; [|by apply refused_early|done].
  st_step. eapply holds_mono; [apply download_artifact_holds|]. intros [bytes|e|] w1 (Hw1 & Hr1 & Hp1); [|by apply refused_early|done].
  st_step. st_step. pose proof (validate_integrity_total bytes mime) as Hv.
  destruct (validate_integrity bytes mime) as [[]|e|] eqn:Hvalid; [|by apply refused_early|done].
  st_step. eapply holds_mono; [apply resolve_thumbnail_holds|]. intros [t|e|] w2 [Hw2 Ht]; [|by apply refused_early; etransitivity|done].
  destruct Ht as (turl & x & -> & name & Hturl & Hx).
  assert (Hg : gallery_only w w2) by by etransitivity.
  st_step. apply on_upload. intros r w3 Hs3 Hu3 Ht3 Hre3 Hr3.
  assert (Hs : same_tables w w3) by (etransitivity; [apply Hg|done]).
  destruct r as [u|e|]; [|by apply (refused_holds w w2 w3)|done]. destruct Hr3 as (aname & Hpath & Hurl & Hobjs).
  st_step. apply holds_stepping. cbn [fst snd]. st_step. cbn [fst snd].
  split; [by destruct Hs|]. split; [intros Hre; by apply Hre3, (go_reachable _ _ Hg)|].
  exists bytes, turl, x, aname, w2. split; [done|]. split; [done|]. split; [done|]. split.
  { exists name. split; [done|]. change (objects (w_r2 w3) !! (r2_bucket self, lit "gallery" ++ lit "/" ++ name) = Some x).
    rewrite Hobjs, lookup_insert_ne; [exact Hx|]. rewrite Hpath. by intros [=]. }
  split; [done|]. split; [done|]. split; [exact Hobjs|].
  change (w_uploaded w3 ++ [ur_path u] = w_uploaded w ++ [ur_path u]). by rewrite Hu3, (go_uploaded _ _ Hg).
Qed.
End ThumbnailFacts.

(** ** Lemmas: the publication as a whole *)

Section PublishFacts.
Context `{UuidText} `{UuidErrorText} `{UuidPrintLaws} `{AlphanumericTable} `{Presigning} `{Users}.
Context (self : MediaPublicationService).
Context (generator : forall artifact mime, thumbnail_gen self artifact mime <> Panic).

Definition finished (row : MediaGeneration) : Prop := status row = lit "completed" \/ status row = lit "cancelled".

(** The committed tables are as before. *)
Definition same_committed_tables (w w' : World) : Prop :=
  committed (w_store w') = committed (w_store w) /\ w_catalogue w' = w_catalogue w.

(** What a publication that succeeds leaves: rows that agree with each other and with the bucket. *)
Definition publication (w : World) (i : uuid) (row : MediaGeneration) (res : PublishResult) (w' : World) : Prop :=
  exists response bytes u url x,
    generator_service_response row = Some response /\
    validate_integrity bytes (mime_of row) = Ok () /\
    stored_at self w' ARTIFACT_CATEGORY (ur_public_url u) (mkStoredObject bytes (mime_of row)) /\
    stored_at self w' (lit "gallery") url x /\
    published (committed (w_store w)) (w_catalogue w) i row response u (Some url) res
      (committed (w_store w')) (w_catalogue w').

(** What a publication that fails leaves in the bucket, before compensation. *)
Definition left_behind (w w' : World) (paths : list str) : Prop :=
  (paths = [] /\
   touches (λ k, in_category self (lit "gallery") k \/ in_category self ARTIFACT_CATEGORY k) (w_r2 w) (w_r2 w') /\
   (reachable (w_r2 w) -> touches (in_category self (lit "gallery")) (w_r2 w) (w_r2 w'))) \/
  (exists name x wg, paths = [ARTIFACT_CATEGORY ++ lit "/" ++ name] /\ gallery_only self w wg /\
   objects (w_r2 w') = <[(r2_bucket self, ARTIFACT_CATEGORY ++ lit "/" ++ name) := x]> (objects (w_r2 wg))).

Lemma nothing_left w w' :
  same_committed_tables w w' -> w_r2 w' = w_r2 w -> w_uploaded w' = w_uploaded w ->
  (reachable (w_r2 w) -> reachable (w_r2 w')) /\
  same_committed_tables w w' /\ exists paths, w_uploaded w' = w_uploaded w ++ paths /\ left_behind w w' paths.
Proof.
  intros Hc Hr Hu. rewrite Hr. split; [done|]. split; [done|]. exists []. rewrite app_nil_r. split; [done|].
  left. rewrite Hr. split; [done|]. split; reflexivity.
Qed.

(** The transaction has begun and read the row. *)
Record reading (w w1 : World) : Prop := {
  rd_committed : same_committed_tables w w1;
  rd_working : working (w_store w1) = committed (w_store w);
  rd_open : w_open w1 = w_catalogue w;
  rd_r2 : w_r2 w1 = w_r2 w;
  rd_uploaded : w_uploaded w1 = w_uploaded w
}.

Lemma unpublished_tables w w1 w2 :
  same_committed_tables w w1 -> unpublished w1 w2 -> same_committed_tables w w2.
Proof. intros [] []. split; congruence. Qed.

Lemma store_and_record_holds i row response w w1 :
  reading w w1 -> committed (w_store w) !! i = Some row -> generator_service_response row = Some response ->
  holds ('(u, thumbnail_url) ← store_artifact self response (mime_of row);
         create_rows i (locked row) response (output_of row) (mime_of row) u thumbnail_url)
    (λ r w', (reachable (w_r2 w) -> reachable (w_r2 w')) /\
     match r with
     | Ok res => publication w i row res w'
     | Err _ => same_committed_tables w w' /\ exists paths, w_uploaded w' = w_uploaded w ++ paths /\ left_behind w w' paths
     | Panic => False
     end) w1.
Proof.
  intros [[Hc Hcat] Hw Ho Hr Hu] Hrow Hresp. st_step.
  eapply holds_mono; [apply store_artifact_holds, generator|]. intros [[u t]|e|] w2 ([Hs2 Hc2 Ho2] & Hre & Hx); [| |done].
  - destruct Hx as (bytes & url & x & name & wg & Hg & Hv & -> & Hst & Hpath & Hurl & Hobjs & Hup).
    eapply holds_mono; [apply (create_rows_holds i row); congruence|].
    intros [res|e|] w3; [intros (Hr3 & Hu3 & Hp)|intros [Hcm Hct Hr3 Hu3]|done].
    + rewrite Hr3. split; [by rewrite <- Hr|]. exists response, bytes, u, url, x.
      split; [done|]. split; [done|]. unfold stored_at. rewrite Hr3. split; [|split; [exact Hst|]].
      { exists name. rewrite Hobjs, <- Hpath. split; [exact Hurl|apply lookup_insert_eq]. }
      rewrite Hs2, Ho2, Hw, Ho in Hp. exact Hp.
    + rewrite Hr3. split; [by rewrite <- Hr|]. split; [split; congruence|].
      exists [ur_path u]. split; [congruence|]. right. exists name, (mkStoredObject bytes (mime_of row)), (w <| w_r2 := w_r2 wg |>).
      rewrite <- Hpath. split; [done|]. split; [|by rewrite Hr3].
      destruct Hg as [_ _ Htg Hrg]. rewrite Hr in Htg, Hrg. by split.
  - destruct Hx as (Hu2 & Ht & Hh). rewrite Hr in Hre, Ht, Hh. split; [done|]. split; [split; congruence|].
    exists []. rewrite app_nil_r. split; [congruence|]. by left.
Qed.

Lemma begin_and_read_holds {A} i (k : option Locked -> PM A) (Q : outcome PublicationError A -> World -> Prop) w :
  (forall e w', same_committed_tables w w' -> w_r2 w' = w_r2 w -> w_uploaded w' = w_uploaded w -> Q (Err e) w') ->
  (forall w1, reading w w1 -> holds (k (locked <$> committed (w_store w) !! i)) Q w1) ->
  holds (_ ← begin; row ← in_tx false (select_for_update i); k row) Q w.
Proof.
  intros He Hk. st_step. apply holds_begin. intros s1 Hs1. split.
  { apply He; [split; [apply Hs1|]|..]; done. }
  st_step. apply holds_statement; [apply select_for_update_total|..].
  - intros e w' [Hc Hcat Hr Hu]. apply He; [split; [rewrite Hc; apply Hs1|]|..]; done.
  - intros a db c w' [= <- <- <-] [[Hc Hcat Hr Hu] _] Hw Ho _. apply Hk.
    split; [split; [rewrite Hc; apply Hs1|]|..]; done.
Qed.

Lemma publish_inner_holds i w :
  holds (publish_inner self i) (λ r w', (reachable (w_r2 w) -> reachable (w_r2 w')) /\
    match r with
    | Ok res => exists row, committed (w_store w) !! i = Some row /\
        ((finished row /\ res = mkResult None None None /\ same_committed_tables w w' /\ w_r2 w' = w_r2 w) \/
         (¬ finished row /\ publication w i row res w'))
    | Err _ => same_committed_tables w w' /\ exists paths, w_uploaded w' = w_uploaded w ++ paths /\ left_behind w w' paths
    | Panic => False
    end) w.
Proof.
  unfold publish_inner. apply begin_and_read_holds; [intros e w' Hc Hr Hu; by apply nothing_left|].
  intros w1 Hw1. destruct (committed (w_store w) !! i) as [row|] eqn:Hrow; cbn [fmap option_fmap option_map].
  2: { st_step. st_step. destruct Hw1. by apply nothing_left. }
  st_step. st_step. cbn [locked lk_status lk_resolved_output_type lk_mime_type lk_generator_service_response].
  destruct (bool_decide (status row = lit "completed") || bool_decide (status row = lit "cancelled")) eqn:Hfin.
  - assert (finished row) by (apply orb_true_iff in Hfin as [?%bool_decide_eq_true|?%bool_decide_eq_true]; [by left|by right]).
    destruct Hw1 as [[Hc Hcat] Hw Ho Hr Hu]. st_step. apply holds_commit. intros s2 Hs2. split.
    + apply nothing_left; [|done..]. split; [|done]. simpl. rewrite (same_committed _ _ Hs2). done.
    + st_step. simpl. rewrite Hr. split; [done|]. exists row. split; [done|]. left.
      split; [done|]. split; [done|]. split; [|done]. by split.
  - assert (¬ finished row).
    { intros [Hf|Hf]; rewrite Hf in Hfin; [by rewrite bool_decide_true in Hfin|].
      by rewrite orb_true_r in Hfin || rewrite (bool_decide_true _ eq_refl), orb_true_r in Hfin. }
    fold (output_of row). fold (mime_of row). st_step. st_step.
    destruct (generator_service_response row) as [response|] eqn:Hresp.
    2: { destruct Hw1. by apply nothing_left. }
    eapply holds_mono; [by apply (store_and_record_holds i row)|].
    intros [res|e|] w' [Hre HQ]; [|done..]. split; [done|]. exists row. split; [done|]. right. by split.
Qed.

(** Compensation removes the objects it can reach, and nothing else. *)
Lemma compensate_holds paths w :
  holds (compensate_uploaded_files self paths) (λ r w', r = Ok () /\ same_committed_tables w w' /\
    touches (λ k, exists p, p ∈ paths /\ k = (r2_bucket self, p)) (w_r2 w) (w_r2 w') /\
    (reachable (w_r2 w) -> reachable (w_r2 w') /\
     forall p, p ∈ paths -> objects (w_r2 w') !! (r2_bucket self, p) = None)) w.
Proof.
  revert w. induction paths as [|p paths IH]; intros w; cbn [compensate_uploaded_files].
  { st_step. split; [done|]. split; [done|]. split; [reflexivity|]. intros Hr. split; [done|].
    intros p Hp. by apply elem_of_nil in Hp. }
  st_step. apply holds_attempt. pose proof (delete_spec (r2_bucket self) p (w_r2 w)) as [Ht Hd].
  destruct (delete_runs (r2_bucket self) p (w_r2 w)) as [b Hb]. unfold on_r2, zoom.
  destruct (Storage.delete (r2_bucket self) p (w_r2 w)) as [r s'] eqn:Hr. injection Hb as -> Hb. simpl in *.
  eapply holds_mono; [apply IH|]. intros r w' (-> & Hc & Htc & Hre). simpl in *.
  split; [done|]. split; [exact Hc|]. split.
  - etransitivity; [eapply touches_weaken, Ht|eapply touches_weaken, Htc].
    + intros k <-. exists p. split; [apply elem_of_cons; by left|done].
    + intros k (q & Hq & ->). exists q. split; [apply elem_of_cons; by right|done].
  - intros Hrw. destruct (Hd Hrw) as (_ & Hrs & Ho). destruct (Hre Hrs) as [Hr' Hn]. split; [done|].
    intros q [->|Hq]%elem_of_cons; [|by apply Hn].
    destruct (decide (p ∈ paths)) as [Hp|Hp]; [by apply Hn|].
    destruct (objects (w_r2 w') !! (r2_bucket self, p)) eqn:Hl; [|done]. exfalso.
    destruct (Htc (r2_bucket self, p)) as (q & Hq & [= ->]); [|done].
    rewrite Ho, lookup_delete_eq. by rewrite Hl.
Qed.

(** A key that [publish] may change: one of the gallery, or of the artifacts. *)
Definition publication_key (k : str * str) : Prop :=
  in_category self (lit "gallery") k \/ in_category self ARTIFACT_CATEGORY k.

(** [publish] from the world [w]. *)
Lemma publish_holds g w :
  holds (publish self g) (λ r w',
    match r with
    | Ok res => exists i row, parse_uuid_str g = Some i /\ committed (w_store w) !! i = Some row /\
        ((finished row /\ res = mkResult None None None /\ same_committed_tables w w' /\ w_r2 w' = w_r2 w) \/
         (¬ finished row /\ publication w i row res w'))
    | Err _ => same_committed_tables w w' /\ touches publication_key (w_r2 w) (w_r2 w') /\
        (reachable (w_r2 w) -> forall k, objects (w_r2 w') !! k <> objects (w_r2 w) !! k ->
           in_category self (lit "gallery") k \/
           (in_category self ARTIFACT_CATEGORY k /\ objects (w_r2 w') !! k = None))
    | Panic => False
    end) w.
Proof.
  unfold publish. st_step. st_step. destruct (parse_uuid_str g) as [i|].
  2: { split; [done|]. split; [reflexivity|]. by intros _ k []. }
  st_step. apply holds_stepping. cbn [fst snd]. set (w0 := w <| w_uploaded := [] |>).
  st_step. apply holds_attempt. pose proof (publish_inner_holds i w0) as [Hre Hin].
  destruct (publish_inner self i w0) as [[res|e|] w1]; cbn [fst snd] in *; [| |done].
  { st_step. st_step. st_step. destruct Hin as (row & Hrow & Hcase). exists i, row. by split. }
  destruct Hin as (Hc1 & paths & Hu & Hl). cbn in Hu. st_step. st_step. apply holds_stepping. cbn [fst snd]. rewrite Hu.
  eapply holds_mono; [apply compensate_holds|]. intros r w' (-> & Hc & Ht & Hrc). st_step.
  split; [destruct Hc1 as [A B], Hc as [C D]; split; [rewrite C; exact A|rewrite D; exact B]|]. change (w_r2 w0) with (w_r2 w) in *.
  destruct Hl as [(-> & Ha & Hb)|(name & x & wg & -> & Hg & Ho)].
  - assert (He : touches (λ _, False) (w_r2 w1) (w_r2 w')).
    { eapply touches_weaken, Ht. intros k (p & Hp & _). by apply elem_of_nil in Hp. }
    split; [etransitivity; [exact Ha|]; eapply touches_weaken, He; done|].
    intros Hr k Hk. left. revert k Hk. change (touches (in_category self (lit "gallery")) (w_r2 w) (w_r2 w')).
    etransitivity; [by apply Hb|]. eapply touches_weaken, He. done.
  - assert (Hkey : forall k, objects (w_r2 w') !! k <> objects (w_r2 w) !! k ->
      in_category self (lit "gallery") k \/ k = (r2_bucket self, ARTIFACT_CATEGORY ++ lit "/" ++ name)).
    { intros k Hk. destruct (decide (k = (r2_bucket self, ARTIFACT_CATEGORY ++ lit "/" ++ name))) as [->|Hne]; [by right|].
      left. apply (go_touches _ _ _ Hg). intros He. apply Hk. change (w_r2 w0) with (w_r2 w) in He. rewrite <- He.
      transitivity (objects (w_r2 w1) !! k); [|by rewrite Ho, lookup_insert_ne].
      destruct (decide (objects (w_r2 w') !! k = objects (w_r2 w1) !! k)) as [|Hd]; [done|].
      destruct (Ht k Hd) as (p & Hp & ->). by apply list_elem_of_singleton in Hp as ->. }
    split.
    + intros k Hk. destruct (Hkey k Hk) as [| ->]; [by left|right; by exists name].
    + intros Hr k Hk. destruct (Hkey k Hk) as [| ->]; [by left|right]. split; [by exists name|].
      apply Hrc; [by apply Hre|]. by apply list_elem_of_singleton.
Qed.
End PublishFacts.

(** ** Lemmas: integrity *)

Lemma windows_spec p l :
  p <> [] -> existsb (λ w, bool_decide (w = p)) (windows (length p) l) = true <-> exists a b, l = a ++ p ++ b.
Proof.
  intros Hp. induction l as [|c l IH]; cbn [windows].
  { split; [done|]. intros (a & b & Hl). symmetry in Hl. apply app_eq_nil in Hl as [_ Hl].
    by apply app_eq_nil in Hl as [-> _]. }
  destruct (length p <=? length (c :: l))%nat eqn:Hlen.
  - cbn [existsb]. rewrite orb_true_iff, IH, bool_decide_eq_true. split.
    + intros [Ht|(a & b & ->)]; [|by exists (c :: a), b].
      exists [], (drop (length p) (c :: l)). rewrite <- Ht at 1. symmetry. apply take_drop.
    + intros ([|d a] & b & Hl); [|simplify_eq/=; right; by eexists _, _].
      left. rewrite Hl. apply (take_app_length p b).
  - apply Nat.leb_gt in Hlen. split; [done|]. intros (a & b & Hl). exfalso. revert Hlen.
    rewrite Hl, !length_app. lia.
Qed.

Lemma has_pdf_eof_marker_spec bytes :
  has_pdf_eof_marker bytes = true <->
  exists a b, bytes = a ++ PDF_EOF_MARKER ++ b /\ (length PDF_EOF_MARKER + length b <= 1024)%nat.
Proof.
  unfold has_pdf_eof_marker. rewrite windows_spec by done.
  set (n := (length bytes - 1024)%nat). split.
  - intros (a & b & Hd). exists (take n bytes ++ a), b. split; [by rewrite <- app_assoc, <- Hd, take_drop|].
    assert (Hl : length (drop n bytes) = length (a ++ PDF_EOF_MARKER ++ b)) by by rewrite Hd.
    rewrite length_drop, !length_app in Hl. unfold n in Hl. lia.
  - intros (a & b & Hb & Hl). exists (drop n a), b. rewrite Hb. apply drop_app_le. unfold n.
    rewrite Hb, !length_app. lia.
Qed.

(** Magic bytes and trailer, by the kind of artifact. *)
Lemma validate_integrity_spec bytes mime :
  validate_integrity bytes mime = Ok () <->
  bytes <> [] /\
  (if str_contains mime (lit "pdf") then
     (exists rest, bytes = PDF_MAGIC ++ rest) /\
     exists a b, bytes = a ++ PDF_EOF_MARKER ++ b /\ (length PDF_EOF_MARKER + length b <= 1024)%nat
   else str_contains mime (lit "officedocument") || str_contains mime (lit "presentation")
        || str_contains mime (lit "word") = true -> exists rest, bytes = OOXML_MAGIC ++ rest).
Proof.
  unfold validate_integrity.
  destruct bytes as [|c bytes]; [split; [done|by intros [? _]]|].
  destruct (str_contains mime (lit "pdf")).
  - rewrite <- has_pdf_eof_marker_spec, <- starts_with_iff. destruct (starts_with PDF_MAGIC (c :: bytes)), (has_pdf_eof_marker (c :: bytes)); simpl;
      (split; [done|]; intros (_ & ? & ?); done) || done.
  - rewrite <- starts_with_iff. destruct (_ || _); [|done]. destruct (starts_with OOXML_MAGIC (c :: bytes)); simpl; [done|].
    split; [done|]. intros [_ Hs]. by specialize (Hs eq_refl).
Qed.

(** ** Lemmas: what else a publication meets *)

Section Inputs.
Context `{UuidText} `{UuidErrorText} `{UuidPrint} `{AlphanumericTable} `{Presigning} `{Users}.
Context (self : MediaPublicationService).

(** A key that is present with [null] hides the ones after it. *)
Lemma null_presigned_url response :
  get (lit "s3_object_key") response ≫= Json.as_str = None -> get (lit "presigned_url") response = Some Null ->
  artifact_url self response = Err MissingArtifact.
Proof. intros Hk Hn. unfold artifact_url. by rewrite Hk, Hn. Qed.

(** What the webhook stores has [null] there unless the renderer presigned the artifact. *)
Lemma webhook_file_url_unused `{NaiveText} p :
  wh_s3_object_key p = None -> wh_presigned_url p = None -> artifact_url self (webhook_value p) = Err MissingArtifact.
Proof. intros Hk Hu. apply null_presigned_url; unfold webhook_value; rewrite get_obj; simpl; by rewrite ?Hk, ?Hu. Qed.
End Inputs.

(** The payload is not of the schema it names, for lack of what every delivery has. *)
Lemma publication_payload_undecodable url thumbnail output mime preview :
  get (lit "schema_version") (build_delivery_payload url thumbnail output mime preview)
    = Some (jstr "media_delivery_response.v1") /\
  decode_DeliveryResponsePayload (build_delivery_payload url thumbnail output mime preview) = None.
Proof. split; [reflexivity|]. unfold decode_DeliveryResponsePayload. reflexivity. Qed.

(** ** The pipeline's publication step *)

Section StepFacts.
Context `{UuidText} `{UuidErrorText} `{UuidPrintLaws} `{AlphanumericTable} `{Presigning} `{Users} `{DbErrorText}.
Context (self : MediaPublicationService).
Context (generator : forall artifact mime, thumbnail_gen self artifact mime <> Panic).

(** A published row is the row with its links, its addresses and its payload. *)
Lemma published_advances db c i row response u t res db' c' :
  db !! i = Some row -> published db c i row response u t res db' c' -> advances db db'.
Proof.
  intros Hrow (now & topic & content & project & _ & _ & _ & _ & ->).
  eapply advances_insert; [done|]. by left.
Qed.

(** The contract the pipeline asks of its publication step: no row is lost and no status is moved. *)
Lemma publish_step_keeps w g : preserves advances (publish_step self w g).
Proof.
  intros s. unfold publish_step. pose proof (publish_holds self generator g (w <| w_store := s |>)) as Hp.
  unfold holds in Hp. destruct (publish self g (w <| w_store := s |>)) as [[res|e|] w']; cbn [fst snd] in *; [| |done].
  - destruct Hp as (i & row & _ & Hrow & [(_ & _ & [Hc _] & _)|[_ (r & b & u & t & x & _ & _ & _ & _ & Hp)]]).
    + rewrite Hc. reflexivity.
    + by eapply published_advances.
  - destruct Hp as ([Hc _] & _). rewrite Hc. reflexivity.
Qed.
End StepFacts.

(** A generation with the payload of a publication counts as delivered. *)
Lemma delivered_skips_composition `{UuidText} `{UuidErrorText} `{CaseTables} `{JsonPrint} `{HashOrder}
    `{Rfc3339Millis} `{Rfc3339} steps publish' compose' g att jc s i row :
  parse_uuid_str g = Some i -> committed s !! i = Some row ->
  (exists u t o m p, delivery_payload row = Some (build_delivery_payload u t o m p)) ->
  ensure_completed (with_publication publish' compose' steps) g att jc s = ensure_completed steps g att jc s.
Proof.
  intros Hi Hrow (u & t & o & m & p & Hp). unfold ensure_completed.
  apply bind_ext. intros delivered s1 Hd.
  assert (wp (has_final_delivery_payload g) (λ r _, match r with Ok b => b = true | _ => True end) s) as Hwp.
  { unfold has_final_delivery_payload, fetch. wp_step. wp_step. wp_step. unfold parse_uuid. rewrite Hi.
    wp_step. wp_step; [done|]. rewrite Hrow. simpl. wp_step. simpl. rewrite Hp. reflexivity. }
  apply (wp_intro _ _ _ _ _ Hwp) in Hd. by rewrite Hd.
Qed.

(** ** Properties *)

(** C4. Publication is atomic, whatever statements, requests and downloads fail. An error leaves the
    committed tables as they were. A finished generation is left alone with empty ids. Otherwise the
    artifact was stored intact and within the integrity rules, its thumbnail too, and exactly one topic,
    one content and one recommended project have joined the tables, which agree with each other and with
    the generation, whose addresses lead to the stored objects. No other row changes. *)
Theorem publish_atomic `{UuidText} `{UuidErrorText} `{UuidPrintLaws} `{AlphanumericTable} `{Presigning} `{Users}
    self g w (generator : forall artifact mime, thumbnail_gen self artifact mime <> Panic) :
  let '(r, w') := publish self g w in
  match r with
  | Err _ => committed (w_store w') = committed (w_store w) /\ w_catalogue w' = w_catalogue w
  | Ok res => exists i row, parse_uuid_str g = Some i /\ committed (w_store w) !! i = Some row /\
      ((finished row /\ res = mkResult None None None /\ same_committed_tables w w' /\ w_r2 w' = w_r2 w) \/
       (¬ finished row /\ publication self w i row res w'))
  | Panic => False
  end.
Proof.
  pose proof (publish_holds self generator g w) as Hp. unfold holds in Hp.
  destruct (publish self g w) as [[res|e|] w']; cbn [fst snd] in Hp; [exact Hp|by destruct Hp|done].
Qed.

(** What a failed publication leaves in the buckets. Only keys of the gallery and of the artifacts
    can differ. When storage answers every request, the artifact of this publication is gone, but its
    thumbnail stays: compensation knows the artifact only. *)
Lemma publish_leftovers `{UuidText} `{UuidErrorText} `{UuidPrintLaws} `{AlphanumericTable} `{Presigning} `{Users}
    self g w e w' (generator : forall artifact mime, thumbnail_gen self artifact mime <> Panic)
  (Hrun : publish self g w = (Err e, w')) :
  (forall k, objects (w_r2 w') !! k <> objects (w_r2 w) !! k ->
     in_category self (lit "gallery") k \/ in_category self ARTIFACT_CATEGORY k) /\
  (reachable (w_r2 w) -> forall k, objects (w_r2 w') !! k <> objects (w_r2 w) !! k ->
     in_category self (lit "gallery") k \/
     (in_category self ARTIFACT_CATEGORY k /\ objects (w_r2 w') !! k = None)).
Proof. pose proof (holds_run _ _ _ _ _ (publish_holds self generator g w) Hrun) as (_ & Ht & Hr). by split. Qed.

(** Once the pipeline's publication step has published a generation, delivery is never composed: the
    step keeps every status on the transition matrix, the payload it writes names the delivery schema
    but does not decode as one, and the completion step takes it for the final delivery, so its run is
    the same whatever the composer is. *)
Lemma published_never_composed `{UuidText} `{UuidErrorText} `{UuidPrintLaws} `{AlphanumericTable} `{Presigning}
    `{Users} `{DbErrorText} `{CaseTables} `{JsonPrint} `{HashOrder} `{Rfc3339Millis} `{Rfc3339}
    self g w s v s' i row steps publish' compose' att jc
    (generator : forall artifact mime, thumbnail_gen self artifact mime <> Panic)
  (Hrun : publish_step self w g s = (Ok v, s'))
  (Hi : parse_uuid_str g = Some i) (Hrow : committed s !! i = Some row) (Hopen : ¬ finished row) :
  advances (committed s) (committed s') /\
  (exists row' payload, committed s' !! i = Some row' /\ delivery_payload row' = Some payload /\
     get (lit "schema_version") payload = Some (jstr "media_delivery_response.v1") /\
     decode_DeliveryResponsePayload payload = None) /\
  ensure_completed (with_publication publish' compose' steps) g att jc s' = ensure_completed steps g att jc s'.
Proof.
  pose proof (publish_step_keeps self generator w g s) as Hk. unfold publish_step in Hrun, Hk.
  pose proof (publish_holds self generator g (w <| w_store := s |>)) as Hp. unfold holds in Hp.
  destruct (publish self g (w <| w_store := s |>)) as [[res|e|] w'] eqn:Epub; [|done..].
  injection Hrun as _ <-. cbn [fst snd] in *.
  destruct Hp as (i' & row' & Hi' & Hrow' & [(Hf & _)|[_ (r & b & u & t & x & _ & _ & _ & _ & Hp)]]).
  { change (committed s !! i' = Some row') in Hrow'. by simplify_eq. }
  change (committed s !! i' = Some row') in Hrow'. simplify_eq.
  destruct Hp as (now & topic & content & project & _ & _ & _ & _ & Hdb).
  split; [exact Hk|]. split.
  - rewrite Hdb. eexists _, _. split; [apply lookup_insert_eq|]. split; [reflexivity|].
    apply publication_payload_undecodable.
  - assert (Hl : exists row, committed (w_store w') !! i = Some row /\ exists u t o m p,
      delivery_payload row = Some (build_delivery_payload u t o m p)).
    { rewrite Hdb, lookup_insert_eq. eexists. split; [reflexivity|]. repeat eexists. }
    destruct Hl as (r1 & Hr1 & Hp1). by eapply delivered_skips_composition.
Qed.

(** ** Witnesses *)

Module PublicationWitness.
Import StorageWitness DecisionWitness SpecWitness.
#[local] Existing Instance decimal_uuid.
#[local] Existing Instance decimal_uuid_error.
#[local] Existing Instance padded_uuid.
#[local] Existing Instance no_letters.
#[local] Instance padded_laws : UuidPrintLaws.
Proof. intros u. split; [|done]. apply Forall_replicate. lia. Qed.
#[local] Instance no_expiry : Presigning :=
  {| presigning_config _ := None; presigned_uri bucket key _ := inr (lit "https://transit/" ++ bucket ++ lit "/" ++ key) |}.
#[local] Instance everyone : Users := λ _, true.
#[local] Instance plain_text : DbErrorText := λ _, lit "failed".

Definition service : MediaPublicationService :=
  mkService (lit "media") (lit "transit") (lit "https://cdn/") SvgFallbackGenerator.
Lemma svg_total artifact mime : thumbnail_gen service artifact mime <> Panic.
Proof. done. Qed.

Definition pdf : list Z := lit "%PDF-1.7 ... %%EOF" ++ [13; 10].
Definition renderer_response : value := obj [ ("file_url", jstr "https://renderer/a.pdf") ]%string.
Definition generation (title : str) (response : value) : MediaGeneration :=
  sample_row <| generator_service_response := Some response |>
             <| interpretation_payload := Some (obj [ ("document_blueprint", obj [ ("title", String title) ]) ]%string) |>.
Definition world (row : MediaGeneration) (http : list http_reply) : World :=
  mkWorld (sample_state {[ 1 := row ]} 0) (mkCatalogue ∅ ∅ ∅) (mkCatalogue ∅ ∅ ∅) 5
    (mkR2 ∅ [] [] [1000000; 2000000]) http [] [41; 42] [].
Definition found : http_reply := Response 200 (lit "200 OK") (inr pdf).
Definition artifact_key : str * str := (lit "media", lit "materials/00000000_2_file.pdf").
Definition thumbnail_key : str * str := (lit "media", lit "gallery/00000000_1_file.svg").

(** A publication: the artifact, its thumbnail, the rows. *)
Definition published_world : World := (publish service (lit "1") (world (generation (lit "Fractions") renderer_response) [found])).2.
Example a_publication :
  ok_value (publish service (lit "1") (world (generation (lit "Fractions") renderer_response) [found])).1
    = Some (mkResult (Some 41) (Some 42) (Some 5)) /\
  objects (w_r2 published_world) !! artifact_key = Some (mkStoredObject pdf (lit "application/pdf")) /\
  is_Some (objects (w_r2 published_world) !! thumbnail_key) /\
  tp_title <$> topics (w_catalogue published_world) !! 41 = Some (lit "Fractions") /\
  (file_url <$> committed (w_store published_world) !! 1) = Some (Some (lit "https://cdn/materials/00000000_2_file.pdf")).
Proof.
  split; [vm_compute; reflexivity|]. split; [vm_compute; reflexivity|].
  split; [apply (bool_decide_unpack _); vm_compute; exact I|]. split; vm_compute; reflexivity.
Qed.

Lemma publish_atomic_witness :
  exists i row res w', publish service (lit "1") (world (generation (lit "Fractions") renderer_response) [found]) = (Ok res, w') /\
    committed (w_store (world (generation (lit "Fractions") renderer_response) [found])) !! i = Some row /\
    ¬ finished row /\
    publication service (world (generation (lit "Fractions") renderer_response) [found]) i row res w'.
Proof.
  pose proof (publish_atomic service (lit "1") (world (generation (lit "Fractions") renderer_response) [found]) svg_total) as Hp.
  assert (Hr : ok_value (publish service (lit "1") (world (generation (lit "Fractions") renderer_response) [found])).1
    = Some (mkResult (Some 41) (Some 42) (Some 5))) by apply a_publication.
  destruct (publish _ _ _) as [r w']. apply ok_value_Some in Hr. cbn [fst] in Hr. rewrite Hr in Hp |- *.
  destruct Hp as (i & row & _ & Hrow & [(_ & Hres & _)|[Hn Hp]]); [discriminate Hres|].
  exists i, row, (mkResult (Some 41) (Some 42) (Some 5)), w'.
  split; [reflexivity|]. split; [exact Hrow|]. split; [exact Hn|exact Hp].
Defined.

(** A title of 256 characters: the rows are refused after the objects are stored. *)
Definition too_long : World := world (generation (replicate 256 65) renderer_response) [found].
Example too_long_fails :
  (publish service (lit "1") too_long).1 = Err (Database CheckViolation) /\
  bool_decide (is_Some (objects (w_r2 (publish service (lit "1") too_long).2) !! thumbnail_key)) = true /\
  objects (w_r2 (publish service (lit "1") too_long).2) !! artifact_key = None.
Proof. split; [vm_compute; reflexivity|]. split; vm_compute; reflexivity. Qed.

Lemma publish_leftovers_witness :
  exists e w', publish service (lit "1") too_long = (Err e, w') /\
    objects (w_r2 w') !! thumbnail_key <> objects (w_r2 too_long) !! thumbnail_key /\
    in_category service (lit "gallery") thumbnail_key.
Proof.
  destruct too_long_fails as (He & Ht & _).
  pose proof (λ e w', publish_leftovers service (lit "1") too_long e w' svg_total) as Hp.
  destruct (publish service (lit "1") too_long) as [r w'].
  cbn [fst snd] in He, Ht. rewrite He in Hp |- *. specialize (Hp _ _ eq_refl). destruct Hp as [Hk _].
  assert (Hd : objects (w_r2 w') !! thumbnail_key <> objects (w_r2 too_long) !! thumbnail_key).
  { intros Heq. rewrite Heq in Ht. discriminate Ht. }
  exists (Database CheckViolation), w'. split; [reflexivity|]. split; [exact Hd|].
  destruct (Hk _ Hd) as [Hg|[name Hm]]; [exact Hg|discriminate Hm].
Defined.

(** The renderer's own thumbnail ends the publication, although the default one would do. *)
Definition with_thumbnail : value :=
  obj [ ("file_url", jstr "https://renderer/a.pdf"); ("thumbnail_url", jstr "https://renderer/a.png") ]%string.
Example renderer_thumbnail_refused :
  is_ok (publish service (lit "1") (world (generation (lit "Fractions") with_thumbnail)
           [found; Response 200 (lit "200 OK") (inr [137; 80; 78; 71])])).1 = false /\
  is_ok (publish service (lit "1") (world (generation (lit "Fractions") with_thumbnail)
           [found; Response 404 (lit "404 Not Found") (inr [])])).1 = true.
Proof. split; vm_compute; reflexivity. Qed.

(** Publishing twice, as a retry does before the generation is completed, records everything twice. *)
Definition again : World := published_world <| w_http := [found] |> <| w_ids := [51; 52] |>.
Example published_twice :
  ok_value (publish service (lit "1") again).1 = Some (mkResult (Some 51) (Some 52) (Some 6)) /\
  size (topics (w_catalogue (publish service (lit "1") again).2)) = 2%nat.
Proof. split; vm_compute; reflexivity. Qed.

#[local] Existing Instance plain_case.
#[local] Existing Instance no_print.
#[local] Existing Instance listed_order.
#[local] Existing Instance millis.
#[local] Existing Instance decimal_time.
Lemma published_never_composed_witness :
  exists v s', publish_step service (world sample_row [found]) (lit "1")
      (sample_state {[ 1 := generation (lit "Fractions") renderer_response ]} 0) = (Ok v, s') /\
    ensure_completed (with_publication (λ _, mret Null) (λ _, throw (Workflow.InvalidUuid [])) WorkflowWitness.quiet_steps)
      (lit "1") 1 None s' = ensure_completed WorkflowWitness.quiet_steps (lit "1") 1 None s'.
Proof.
  set (s := sample_state {[ 1 := generation (lit "Fractions") renderer_response ]} 0).
  assert (Hr : exists v, ok_value (publish_step service (world sample_row [found]) (lit "1") s).1 = Some v)
    by (eexists; vm_compute; reflexivity).
  pose proof (λ v s' H, published_never_composed service (lit "1") (world sample_row [found]) s v s' 1
    (generation (lit "Fractions") renderer_response) WorkflowWitness.quiet_steps (λ _, mret Null)
    (λ _, throw (Workflow.InvalidUuid [])) 1 None svg_total H eq_refl eq_refl) as Hp.
  destruct (publish_step service (world sample_row [found]) (lit "1") s) as [r s'].
  destruct Hr as [v Hv]. apply ok_value_Some in Hv. cbn [fst] in Hv. rewrite Hv in Hp |- *.
  exists v, s'. split; [reflexivity|]. apply (Hp v s' eq_refl).
  intros [Hf|Hf]; discriminate Hf.
Defined.
End PublicationWitness.
