(* ===== verification/PythonClient.v ===== *)
(** * The client of the renderer (src/src/media_gen/python_client.rs, src/src/auth/signing.rs)

    [submit_job] posts the stored generation spec with a signature to the renderer and takes any
    successful JSON answer for an accepted job. The network is a function from requests to replies. *)

From stdpp Require Import base gmap list option strings.
From Stdlib Require Import ZArith Lia.
From S2P Require Import Prelude RustStr Utf8 Json Canon Text Store Samples Effects Workflow Webhook.
#[local] Open Scope Z_scope.

Definition JOBS_PATH : str := lit "/v1/jobs".
Definition WEBHOOK_PATH : str := lit "/internal/media-generations/webhook".
Definition ERROR_PYTHON_SERVICE_UNAVAILABLE : str := lit "PYTHON_SERVICE_UNAVAILABLE".
Definition ERROR_ARTIFACT_INVALID : str := lit "ARTIFACT_INVALID".

Inductive PythonClientError :=
| NotFound (id : str)
| MissingSpec (id : str)
| Http (e : str)
| RendererError (code message : str) (status : Z) (raw_body : value)
| Database (e : db_error)
| Json (e : str)
| InvalidUuid (msg : str).

Definition python_client_error_text `{DbErrorText} (e : PythonClientError) : str :=
  match e with
  | NotFound id => lit "generation not found: " ++ id
  | MissingSpec id => lit "generation spec payload missing for " ++ id
  | Http e => lit "HTTP request failed: " ++ e
  | RendererError code message _ _ => lit "Python renderer error (" ++ code ++ lit "): " ++ message
  | Database e => lit "database error: " ++ db_error_text e
  | Json e => lit "JSON error: " ++ e
  | InvalidUuid msg => lit "invalid UUID: " ++ msg
  end.

(** ** The signer *)

Record SignedRequest := mkSignedRequest {
  sr_request_id : str;
  sr_generation_id : str;
  sr_timestamp : str;
  sr_signature_algorithm : str;
  sr_signature : str
}.
Section Signer.
Context `{HmacSha256Hex} `{UuidPrint}.
Definition sign (secret timestamp : str) (payload : list Z) : str :=
  hmac_hex (utf8_encode secret) (utf8_encode timestamp ++ lit "." ++ payload).
(** The request id and the instant, in nanoseconds, are arguments. *)
Definition build (secret : str) (request_id : uuid) (now : Z) (generation_id : str) (payload : list Z) : SignedRequest :=
  let timestamp := z_to_string (now / 1000000000) in
  mkSignedRequest (uuid_to_string request_id) generation_id timestamp (lit "hmac-sha256") (sign secret timestamp payload).
End Signer.

(** ** The client *)

Record PythonMediaGeneratorClient := mkPythonClient {
  pc_base_url : str;
  pc_webhook_base_url : str;
  pc_secret : str
}.
(** [PythonMediaGeneratorClient::new]: an address that ends in the path is cut back. *)
Definition new_client (media_gen_url webhook_base_url secret : str) : option PythonMediaGeneratorClient :=
  let raw_url := trim_end_matches (lit "/") media_gen_url in
  base_url ← (if ends_with JOBS_PATH raw_url
              then trim_end_matches (lit "/") <$> slice_to (str_len raw_url - str_len JOBS_PATH) raw_url
              else Some raw_url);
  Some (mkPythonClient base_url (trim_end_matches (lit "/") webhook_base_url) secret).

Record JobRequest := mkJobRequest {
  jr_url : str;
  jr_headers : list (str * str);
  jr_body : list Z
}.
(** A reply, whose body is JSON or gives the text of an error. *)
Inductive job_reply := NoReply (error : str) | Reply (status : Z) (body : str + value).

Definition build_job_request_body (generation_id job_id : str) (generation_spec : value) (webhook_url : str) : value :=
  obj [("generation_id", String generation_id); ("job_id", String job_id); ("generation_spec", generation_spec);
       ("webhook_url", String webhook_url)]%string.

Definition nonempty (o : option str) : option str := match o with Some (_ :: _) => o | _ => None end.
Definition map_error_code (status : Z) (body : value) : str :=
  match nonempty (pointer ["error"; "laravel_error_code_hint"]%string body ≫= Json.as_str) with
  | Some hint => hint
  | None =>
      match nonempty (get (lit "error_code") body ≫= Json.as_str) with
      | Some code => code
      | None => if (status =? 429) || ((500 <=? status) && (status <=? 599)) then ERROR_PYTHON_SERVICE_UNAVAILABLE
                else ERROR_ARTIFACT_INVALID
      end
  end.
Definition extract_error_message (body : value) : str :=
  default (lit "Unknown error from Python renderer")
    (option_or (option_or (e ← get (lit "error") body; get (lit "message") e ≫= Json.as_str)
                          (get (lit "message") body ≫= Json.as_str))
               (get (lit "error_message") body ≫= Json.as_str)).

Section Client.
Context `{UuidText} `{UuidErrorText} `{UuidPrint} `{HmacSha256Hex} `{JsonLex} `{DbErrorText}.
Context (self : PythonMediaGeneratorClient) (send : JobRequest -> job_reply).

Definition load_spec (generation_id : uuid) : M PythonClientError value :=
  rec ← mapping Database (execute (select_by_id generation_spec_payload generation_id));
  match rec with
  | None => throw (NotFound (uuid_to_string generation_id))
  | Some None => throw (MissingSpec (uuid_to_string generation_id))
  | Some (Some spec) => mret spec
  end.

(** The request for a spec, signed at an instant. *)
Definition job_request (request_id : uuid) (now : Z) (generation_id job_id : str) (spec_value : value) : JobRequest :=
  let webhook_url := pc_webhook_base_url self ++ WEBHOOK_PATH in
  let body := build_job_request_body generation_id job_id spec_value webhook_url in
  let body_bytes := utf8_encode (Canon.json_text body) in
  let signed := build (pc_secret self) request_id now generation_id body_bytes in
  mkJobRequest (pc_base_url self ++ JOBS_PATH)
    [ (lit "Content-Type", lit "application/json"); (lit "X-Request-Id", sr_request_id signed);
      (lit "X-Klass-Generation-Id", sr_generation_id signed); (lit "X-Klass-Request-Timestamp", sr_timestamp signed);
      (lit "X-Klass-Signature-Algorithm", sr_signature_algorithm signed); (lit "X-Klass-Signature", sr_signature signed) ]
    body_bytes.

(** What a reply says of the job. *)
Definition job_outcome (reply : job_reply) : outcome PythonClientError unit :=
  match reply with
  | NoReply e => Err (Http e)
  | Reply status (inl e) => Err (Http e)
  | Reply status (inr body_value) =>
      if (status =? 202) || ((200 <=? status) && (status <? 300)) then Ok ()
      else Err (RendererError (map_error_code status body_value) (extract_error_message body_value) status body_value)
  end.

(** [submit_job] up to the request, which is signed at this instant. *)
Definition prepare_job (request_id : uuid) (generation_id job_id : str) : M PythonClientError JobRequest :=
  gen_id ← lift match parse_uuid_str generation_id with
                | Some i => Ok i
                | None => Err (InvalidUuid (uuid_error_text generation_id))
                end;
  spec_value ← load_spec gen_id;
  now ← utc_now;
  mret (job_request request_id now generation_id job_id spec_value).
Definition submit_job (request_id : uuid) (generation_id job_id : str) : M PythonClientError unit :=
  request ← prepare_job request_id generation_id job_id;
  lift (job_outcome (send request)).

(** The step of the pipeline. *)
Definition submit_step (request_id : uuid) (generation_id job_id : str) : M WorkflowError unit :=
  mapping (λ e, StepProvider (python_client_error_text e)) (submit_job request_id generation_id job_id).
End Client.

(** ** Lemmas *)

(** A text without the pattern at its end is not trimmed. *)
Lemma trim_end_matches_none p s : ends_with p s = false -> trim_end_matches p s = s.
Proof.
  intros He. unfold trim_end_matches. rewrite trim_start_matches_None; [by rewrite reverse_involutive|exact He].
Qed.

Lemma ends_with_slash s t c : c <> 47 -> ends_with (lit "/") (s ++ t ++ [c]) = false.
Proof.
  intros Hc. unfold ends_with. rewrite !reverse_app. change (reverse (lit "/")) with [47].
  change (reverse [c]) with [c]. cbn [app starts_with].
  apply andb_false_iff. left. apply Z.eqb_neq. congruence.
Qed.

Lemma new_client_total url wb secret : is_Some (new_client url wb secret).
Proof.
  unfold new_client. destruct (ends_with JOBS_PATH (trim_end_matches (lit "/") url)) eqn:E; [|by eexists].
  apply ends_with_iff in E as [q ->]. rewrite str_len_app, Nat.add_sub, slice_to_app. by eexists.
Qed.

(** The path may be part of the configured address or not: the requests go to the same place. *)
Lemma path_may_be_configured url wb secret :
  ends_with JOBS_PATH (trim_end_matches (lit "/") url) = false -> ends_with (lit "/") url = false ->
  new_client (url ++ JOBS_PATH) wb secret = new_client url wb secret.
Proof.
  intros Hp Hs. assert (Ht : trim_end_matches (lit "/") (url ++ JOBS_PATH) = url ++ JOBS_PATH).
  { apply trim_end_matches_none. change JOBS_PATH with (lit "/v1/job" ++ [115]). by apply ends_with_slash. }
  rewrite (trim_end_matches_none _ url Hs) in Hp. unfold new_client.
  rewrite !Ht, !(trim_end_matches_none _ url Hs), Hp, (proj2 (ends_with_iff _ _)) by eauto.
  rewrite str_len_app, Nat.add_sub, slice_to_app. cbn [fmap option_fmap option_map mbind option_bind].
  by rewrite (trim_end_matches_none _ url Hs).
Qed.

Section ClientFacts.
Context `{UuidText} `{UuidErrorText} `{UuidPrint} `{HmacSha256Hex} `{JsonLex} `{DbErrorText}.
Context (self : PythonMediaGeneratorClient) (send : JobRequest -> job_reply).

(** A submission touches no row; it succeeds only when the renderer answered the signed request for
    the stored spec with a success and a JSON body. *)
Lemma wp_submit_job rid g j s :
  wp (submit_job self send rid g j) (λ r s', committed s' = committed s /\
    match r with
    | Ok _ => exists i row spec now status body,
        parse_uuid_str g = Some i /\ committed s !! i = Some row /\ generation_spec_payload row = Some spec /\
        send (job_request self rid now g j spec) = Reply status (inr body) /\ 200 <= status < 300
    | Err _ => True
    | Panic => False
    end) s.
Proof.
  unfold submit_job, prepare_job, load_spec, select_by_id. wp_step. wp_step. wp_step.
  destruct (parse_uuid_str g) as [i|]; [|done].
  wp_step. wp_step. wp_step. wp_step; [by same_data_simpl|]. same_data_simpl.
  destruct (committed s !! i) as [row|] eqn:Hr; simpl; [|by wp_step; same_data_simpl].
  destruct (generation_spec_payload row) as [spec|] eqn:Hsp; [|by wp_step; same_data_simpl].
  wp_step. wp_step. wp_step. wp_step. wp_step. same_data_simpl. split; [done|].
  destruct (send _) as [e|status [e|body]] eqn:Hsend; simpl; [done..|].
  destruct ((status =? 202) || _) eqn:Hst; [|done].
  exists i, row, spec. eexists _, status, body. split; [done|]. split; [done|]. split; [done|].
  split; [exact Hsend|]. apply orb_true_iff in Hst as [?|[? ?]%andb_true_iff]; lia.
Qed.

Lemma submit_step_keeps R `{!PreOrder R} rid g j : preserves R (submit_step self send rid g j).
Proof.
  apply preserves_mapping, preserves_wp. intros s. eapply wp_mono; [apply wp_submit_job|].
  intros r s' [-> _]. reflexivity.
Qed.
End ClientFacts.

Module ClientWitness.
#[local] Existing Instance decimal_print.
#[local] Existing Instance plain_lex.
Definition plain_hmac : HmacSha256Hex := λ key data, key ++ data.
#[local] Existing Instance plain_hmac.

(** An accepted job whose answer is not JSON counts as a failure. *)
Example accepted_without_json : job_outcome (Reply 202 (inl (lit "expected value"))) = Err (Http (lit "expected value")).
Proof. reflexivity. Qed.

Example codes :
  map_error_code 500 (obj [("error", obj [("laravel_error_code_hint", jstr "RENDERER_TIMEOUT")])])%string
    = lit "RENDERER_TIMEOUT" /\
  map_error_code 503 (obj []) = ERROR_PYTHON_SERVICE_UNAVAILABLE /\ map_error_code 422 (obj []) = ERROR_ARTIFACT_INVALID /\
  extract_error_message (obj [("message", jstr "Service unavailable")])%string = lit "Service unavailable".
Proof. repeat split; vm_compute; reflexivity. Qed.

Example configured :
  pc_base_url <$> new_client (lit "https://renderer/v1/jobs/") (lit "https://gateway") (lit "k") = Some (lit "https://renderer").
Proof. reflexivity. Qed.
End ClientWitness.
