(* ===== verification/RespondService.v ===== *)
(** * The delivery service (src/src/llm/respond.rs)

    [respond] composes the message with which a teacher gets the finished material: from the cache,
    whose payload names the model that wrote it, or from the provider, whose reply is decoded or
    replaced by the fallback of the contract. *)

From stdpp Require Import base gmap sets list option strings.
From Stdlib Require Import ZArith QArith Lia Floats.SpecFloat.
From S2P Require Import Prelude RustStr Json Floats Canon Store Samples Interpretation Cache Repair RateLimit Ledger Router LlmService Delivery.
#[local] Open Scope Z_scope.

Definition RESPOND_ROUTE : str := lit "respond".
Definition RESPOND_REQUEST_TYPE : str := lit "media_delivery_response".
Definition RESPOND_CACHE_ROUTE : CacheRoute := Respond.
Definition respond_provider : str := lit "openrouter".

Record EntityNode := mkEntityNode { en_id : str; en_title : str }.
Record RespondArtifact := mkRespondArtifact {
  ra_output_type : str;
  ra_file_url : str;
  ra_mime_type : str;
  ra_thumbnail_url : option str;
  ra_filename : option str
}.
Record RespondPublication := mkRespondPublication {
  rpub_topic : option EntityNode;
  rpub_content : option EntityNode;
  rpub_recommended_project : option EntityNode
}.
Record RespondInput := mkRespondInput {
  ri_generation_id : str;
  ri_title : str;
  ri_preview_summary : str;
  ri_artifact : RespondArtifact;
  ri_publication : RespondPublication;
  ri_model : option str;
  ri_instruction : option str
}.
Record RespondResult := mkRespondResult {
  rr_request_id : str;
  rr_generation_id : str;
  rr_delivery_payload : DeliveryResponsePayload;
  rr_source : str;
  rr_llm_provider : option str;
  rr_llm_model : option str;
  rr_llm_used : bool;
  rr_fallback_used : bool;
  rr_response_headers : gmap str str;
  rr_latency_ms : option Q
}.
(** The errors are named after the variants of the source. *)
Inductive RespondError :=
| RespondRateLimited (request_id generation_id : str)
| RespondProviderError (e : ProviderError)
| RespondCacheError (e : db_error)
| RespondGovernance (e : db_error)
| RespondContract (e : ContractValidationError).

Record RespondService {Env : Type} := mkRespondService {
  rsv_router : ProviderRouter (Env:=Env);
  rsv_default_model : str;
  rsv_default_instruction : str
}.
Arguments RespondService : clear implicits.

Section Respond.
Context {Env : Type} `{JsonLex} `{CaseTables} `{GardeLength} `{Sha256Hex} `{Blake2b512} `{DecimalOps}.
(** serde_json on the payload of a reply, the texts of its errors and of garde's, and chrono's text of
    a time. *)
Context (parse_delivery : str -> str + DeliveryResponsePayload) (delivery_report : DeliveryResponsePayload -> str).
Context (serde_error : value -> str) (to_rfc3339 : Z -> str).
Context (service : RespondService Env).
Notation LR := (LM Env RespondError).

Definition encode_node (n : EntityNode) : value := obj [("id", String (en_id n)); ("title", String (en_title n))]%string.

Definition respond_cache_input (input : RespondInput) : value :=
  obj [("title", String (ri_title input)); ("preview_summary", String (ri_preview_summary input));
       ("artifact", obj [("output_type", String (ra_output_type (ri_artifact input)));
                         ("file_url", String (ra_file_url (ri_artifact input)));
                         ("mime_type", String (ra_mime_type (ri_artifact input)))]%string);
       ("topic", jopt encode_node (rpub_topic (ri_publication input)));
       ("content", jopt encode_node (rpub_content (ri_publication input)))]%string.
Definition respond_cache_key (model instruction : str) (input : RespondInput) : str :=
  build_cache_key RESPOND_CACHE_ROUTE respond_provider model RESPOND_REQUEST_TYPE instruction (respond_cache_input input).

(** ** The provider call *)

Definition respond_request (model instruction : str) (input : RespondInput) : CompletionRequest :=
  let user_payload :=
    obj [("title", String (ri_title input)); ("preview_summary", String (ri_preview_summary input));
         ("artifact", obj [("output_type", String (ra_output_type (ri_artifact input)));
                           ("title", String (ri_title input));
                           ("file_url", String (ra_file_url (ri_artifact input)));
                           ("thumbnail_url", jopt String (ra_thumbnail_url (ri_artifact input)));
                           ("mime_type", String (ra_mime_type (ri_artifact input)));
                           ("filename", jopt String (ra_filename (ri_artifact input)))]%string);
         ("publication", obj [("topic", jopt encode_node (rpub_topic (ri_publication input)));
                              ("content", jopt encode_node (rpub_content (ri_publication input)));
                              ("recommended_project", jopt encode_node (rpub_recommended_project (ri_publication input)))]%string)]%string in
  json_mode_request model instruction (json_pretty 0 user_payload).

(** The payload of a reply and why it is the fallback, if it is. *)
Definition accept_delivery (response : CompletionResponse) (input : RespondInput) :
    LR (DeliveryResponsePayload * option ContractValidationError) :=
  match decode_delivery parse_delivery delivery_report (default [] (first_choice_content response)) with
  | inr p => mret (p, None)
  | inl validation_err =>
      now ← utc_now;
      fb ← returned (of_panicking (delivery_fallback (to_rfc3339 now) (ri_title input) (ri_preview_summary input)
             (ra_output_type (ri_artifact input)) (ra_file_url (ri_artifact input)) (ra_mime_type (ri_artifact input))));
      mret (fb, Some validation_err)
  end.

(** The latency is read before the call. *)
Definition respond_execute (input : RespondInput) (request_id model instruction cache_key : str)
    (should_cache : bool) : LR RespondResult :=
  latency_ms ← latency;
  provider_result ← provider_call (rsv_router service) (respond_request model instruction input);
  match provider_result with
  | inr response =>
      '(payload, fallback_error) ← accept_delivery response input;
      let fallback_used := bool_decide (is_Some fallback_error) in
      _ ← book_response RESPOND_CACHE_ROUTE should_cache (encode_DeliveryResponsePayload payload) request_id
            (ri_generation_id input) RESPOND_ROUTE RESPOND_REQUEST_TYPE respond_provider model latency_ms response
            fallback_used (contract_error_text <$> fallback_error) cache_key "respond_service";
      let llm_provider := default respond_provider (rs_model response) in
      let llm_model := default model (rs_model response) in
      mret (mkRespondResult request_id (ri_generation_id input) payload
              (if fallback_used then lit "fallback" else lit "provider") (Some llm_provider) (Some llm_model)
              (negb fallback_used) fallback_used (service_headers llm_provider llm_model false fallback_used)
              (Some latency_ms))
  | inl provider_err =>
      _ ← record_provider_failure request_id (ri_generation_id input) RESPOND_ROUTE RESPOND_REQUEST_TYPE
            respond_provider model (lit "ProviderError") provider_err "respond_service";
      fails (RespondProviderError provider_err)
  end.

(** ** The cache *)

Definition cached_delivery (what : string) (entry : CacheEntry) : outcome RespondError DeliveryResponsePayload :=
  match decode_DeliveryResponsePayload (ce_response_payload entry) with
  | Some p => Ok p
  | None =>
      let e := serde_error (ce_response_payload entry) in
      Err (RespondContract (mkContractValidationError (lit "cached_payload_corrupt") (lit what ++ e)
             (obj [("deserialize_error", String e)]%string) (json_text (ce_response_payload entry))))
  end.
(** The provider, the model and whether it was used are what the payload says of itself. *)
Definition respond_entry (what cache_source : string) (input : RespondInput) (request_id model cache_key : str)
    (entry : CacheEntry) : LR RespondResult :=
  payload ← returned (cached_delivery what entry);
  latency_ms ← latency;
  _ ← record_hit request_id (ri_generation_id input) RESPOND_ROUTE RESPOND_REQUEST_TYPE respond_provider model
        latency_ms cache_key
        (obj [("source", jstr "respond_service"); ("cache_hit", Bool true); ("cache_source", jstr cache_source)]%string);
  mret (mkRespondResult request_id (ri_generation_id input) payload (lit "cache")
          (rm_provider (dp_response_meta payload)) (rm_model (dp_response_meta payload))
          (rm_llm_used (dp_response_meta payload)) (df_triggered (dp_fallback payload))
          (service_headers respond_provider model true false) (Some latency_ms)).
Definition respond_hit := respond_entry "Cached delivery payload failed deserialization: " "delivery_cache".
Definition respond_waited := respond_entry "Cached delivery payload (waited) failed: " "delivery_cache_inflight_wait".

(** The request id is [Uuid::new_v4()]. *)
Definition respond (request_id : str) (input : RespondInput) : LR RespondResult :=
  let model := default (rsv_default_model service) (ri_model input) in
  let instruction := default (rsv_default_instruction service) (ri_instruction input) in
  let cache_key := respond_cache_key model instruction input in
  serve_or_call RespondGovernance RespondCacheError (RespondRateLimited request_id (ri_generation_id input))
    RESPOND_CACHE_ROUTE RESPOND_ROUTE respond_provider model 300 1000 request_id (ri_generation_id input) cache_key
    false (respond_hit input request_id model cache_key) (respond_waited input request_id model cache_key)
    (respond_execute input request_id model instruction cache_key).
End Respond.

(** ** Lemmas: the runs of the service *)

Section RespondFacts.
Context {Env : Type} `{JsonLex} `{CaseTables} `{GardeLength} `{Sha256Hex} `{Blake2b512} `{DecimalOps}.
Context (parse_delivery : str -> str + DeliveryResponsePayload) (delivery_report : DeliveryResponsePayload -> str).
Context (serde_error : value -> str) (to_rfc3339 : Z -> str).
Context (service : RespondService Env).
Implicit Types s : Services Env.

(** The reply of the provider, as the contract reads it. *)
Definition reply_of (response : CompletionResponse) : ContractValidationError + DeliveryResponsePayload :=
  decode_delivery parse_delivery delivery_report (default [] (first_choice_content response)).

(** What a row of the ledger says of the answer it was written for. *)
Definition delivery_row (request_id : str) (r : outcome RespondError RespondResult) (row : LedgerEntry) : Prop :=
  le_request_id row = request_id /\
  match r with
  | Ok res =>
      le_final_status row = lit "completed" /\ le_latency_ms row = numeric2 <$> rr_latency_ms res
      /\ (le_cache_status row, rr_source res) ∈ [(lit "hit", lit "cache"); (lit "miss", lit "provider"); (lit "bypass", lit "fallback")]
  | Err (RespondProviderError e) =>
      le_final_status row = lit "failed" /\ le_error_code row = Some (provider_error_text e)
      /\ (length (provider_error_text e) <= 100)%nat
  | Err _ => False
  | Panic => True
  end.

(** What became of the answer of the provider. *)
Definition delivered (request_id : str) (input : RespondInput) (ans : answer) (r : outcome RespondError RespondResult) : Prop :=
  match r with
  | Ok res => exists response, ans = inr response /\ rr_request_id res = request_id /\
      match reply_of response with
      | inr p => rr_delivery_payload res = p /\ rr_source res = lit "provider" /\ rr_llm_used res = true
      | inl _ =>
          (exists now, delivery_fallback (to_rfc3339 now) (ri_title input) (ri_preview_summary input)
             (ra_output_type (ri_artifact input)) (ra_file_url (ri_artifact input)) (ra_mime_type (ri_artifact input))
           = Some (rr_delivery_payload res))
          /\ rr_source res = lit "fallback" /\ rr_llm_used res = false
      end
  | Err e => exists err, ans = inl err /\ e = RespondProviderError err
  | Panic => True
  end.
(** A row written after a reply that was replaced holds the reason, in at most 100 characters. *)
Definition reason_fits (ans : answer) : Prop :=
  forall response e, ans = inr response -> reply_of response = inl e -> (length (contract_error_text e) <= 100)%nat.

Lemma accept_delivery_run response input s r s' :
  accept_delivery (Env:=Env) parse_delivery delivery_report to_rfc3339 response input s = (r, s') ->
  quiet s s' /\
  match r with
  | Ok (p, fe) =>
      match reply_of response with
      | inr p' => p = p' /\ fe = None
      | inl e => fe = Some e /\ exists now, delivery_fallback (to_rfc3339 now) (ri_title input) (ri_preview_summary input)
             (ra_output_type (ri_artifact input)) (ra_file_url (ri_artifact input)) (ra_mime_type (ri_artifact input)) = Some p
      end
  | Err _ => False
  | Panic => True
  end.
Proof.
  unfold accept_delivery. change (decode_delivery _ _ _) with (reply_of response).
  destruct (reply_of response) as [e|p]; [|by intros [= <- <-]].
  intros (now & s1 & Hq & Hrun)%now_then. unfold mbind, LM_bind, returned in Hrun.
  destruct (delivery_fallback _ _ _ _ _ _) as [fb|] eqn:Hfb; injection Hrun as <- <-; (split; [done|]); [|done].
  split; [done|]. by exists now.
Qed.

Lemma respond_execute_run input rid model instr key sc s r s' :
  respond_execute parse_delivery delivery_report to_rfc3339 service input rid model instr key sc s = (r, s') ->
  exists ans, complete (rsv_router service) (respond_request model instr input) (sv_router s) = (ans, sv_router s')
    /\ delivered rid input ans r /\ appended (λ row, delivery_row rid r row /\ (r <> Panic -> reason_fits ans)) s s'.
Proof.
  unfold respond_execute. intros (lat & s1 & [Hr1 Hw1] & Hrun)%latency_then.
  apply provider_then in Hrun as (ans & s2 & Hans & Hw2 & Hrun). exists ans. destruct ans as [err|response].
  - apply (writes_then _ _ (Err (RespondProviderError err)) _ _ _ (writes_failure _ _ _ _ _ _ _ _ _)) in Hrun as (Hr3 & Hw3 & Hr).
    split; [congruence|]. split; [destruct Hr as [-> | ->]; [by exists err|done]|].
    apply (appended_frame_l _ s2); [congruence|]. eapply appended_weaken; [|exact Hw3].
    intros row (? & ? & ? & ?). split; [by destruct Hr as [-> | ->]|]. by intros _ resp e [=].
  - apply bind_run in Hrun as [([p fe] & s3 & Hacc & Hrun)|[(e & Hacc & ->)|[Hacc ->]]].
    2: { by apply accept_delivery_run in Hacc as [_ ?]. }
    2: { apply accept_delivery_run in Hacc as [[Hr3 Hw3] _]. split; [congruence|]. split; [done|].
         apply appended_none. congruence. }
    apply accept_delivery_run in Hacc as [[Hr3 Hw3] Hp].
    eapply (writes_then _ _ (Ok _)) in Hrun as (Hr4 & Hw4 & Hr); [|apply writes_book].
    split; [congruence|]. unfold delivered. split.
    + destruct Hr as [-> | ->]; [|done]. exists response. split; [done|]. split; [done|]. destruct (reply_of response) as [e|p'].
      * destruct Hp as [-> Hnow]. done.
      * by destruct Hp as [-> ->].
    + apply (appended_frame_l _ s3); [congruence|]. eapply appended_weaken; [|exact Hw4].
      intros row [(? & ? & Hst & ?) Hreason]. split.
      * destruct Hr as [-> | ->]; (split; [done|]); [|done]. cbn [rr_source rr_latency_ms]. rewrite Hst.
        split; [done|]. split; [done|]. destruct fe; cbn; set_solver.
      * intros _ resp e [= <-] He. rewrite He in Hp. destruct Hp as [-> _]. by apply Hreason.
Qed.

(** An answer of the cache. *)
Definition delivered_by_cache (request_id : str) s s' (r : outcome RespondError RespondResult) : Prop :=
  sv_router s' = sv_router s /\
  match r with
  | Ok res => exists entry p, decode_DeliveryResponsePayload (ce_response_payload entry) = Some p
                /\ rr_delivery_payload res = p /\ rr_source res = lit "cache" /\ rr_request_id res = request_id
                /\ rr_llm_model res = rm_model (dp_response_meta p) /\ rr_llm_used res = rm_llm_used (dp_response_meta p)
  | Err e => exists err, e = RespondContract err /\ code err = lit "cached_payload_corrupt" /\ rows_of s' = rows_of s
  | Panic => True
  end.
Lemma respond_entry_run what src input rid model key entry s r s' :
  respond_entry serde_error what src input rid model key entry s = (r, s') ->
  delivered_by_cache rid s s' r /\ appended (delivery_row rid r) s s'.
Proof.
  unfold respond_entry, cached_delivery. destruct (decode_DeliveryResponsePayload (ce_response_payload entry)) as [p|] eqn:Hdec.
  - intros (lat & s2 & [Hr2 Hw2] & Hrun)%latency_then.
    eapply (writes_then _ _ (Ok _)) in Hrun as (Hr3 & Hw3 & Hr); [|apply writes_hit].
    split; [split; [congruence|]|].
    + destruct Hr as [-> | ->]; [by exists entry, p|done].
    + apply (appended_frame_l _ s2); [congruence|]. eapply appended_weaken; [|exact Hw3].
      intros row (? & ? & Hst & ?). destruct Hr as [-> | ->]; (split; [done|]); [|done]. cbn [rr_source rr_latency_ms]. rewrite Hst.
      split; [done|]. split; [done|]. set_solver.
  - intros [= <- <-]. split; [|by apply appended_none]. split; [done|]. by eexists.
Qed.

(** Every run of the delivery service ends in one of three ways: the provider was asked once and the
    answer is its reply, decoded, or the fallback of the contract, or its error; or a stored payload is
    the answer, which names the model it says wrote it, and the provider was not asked; or nothing was
    asked and nothing answered, because a query failed. The budget never refuses: where it is exhausted
    the call goes on without the cache. The ledger gets at most one row, of this request, that says
    which. *)
Lemma respond_spec rid input s r s' :
  respond parse_delivery delivery_report serde_error to_rfc3339 service rid input s = (r, s') ->
  appended (delivery_row rid r) s s' /\
  ((exists ans, complete (rsv_router service) (respond_request (default (rsv_default_model service) (ri_model input))
       (default (rsv_default_instruction service) (ri_instruction input)) input) (sv_router s) = (ans, sv_router s')
     /\ delivered rid input ans r)
   \/ delivered_by_cache rid s s' r
   \/ quiet s s' /\ (r = Panic \/ (exists e, r = Err (RespondGovernance e)) \/ (exists e, r = Err (RespondCacheError e)))).
Proof.
  unfold respond. intros Hrun. apply serve_or_call_run in Hrun as
    [(sc & s1 & s2 & [Hr1 Hw1] & Hcall & [Hr2 Hw2])|[(entry & s1 & [Hr1 Hw1] & Hserve)|[Hq Hr]]].
  - apply respond_execute_run in Hcall as (ans & Hans & Hr & Hw). split.
    + apply (appended_frame_l _ s1); [done|]. apply (appended_frame_r _ _ s2); [done|].
      eapply appended_weaken; [|exact Hw]. by intros row [? _].
    + left. exists ans. split; [congruence|done].
  - assert (delivered_by_cache rid s1 s' r /\ appended (delivery_row rid r) s1 s') as [[Hrc Hr] Hw]
      by (destruct Hserve as [Hs|Hs]; by eapply respond_entry_run).
    split; [by apply (appended_frame_l _ s1)|]. right; left. split; [congruence|].
    destruct r as [res|e|]; [done| |done]. destruct Hr as (err & ? & ? & ?). exists err. repeat split; [done|done|congruence].
  - split; [destruct Hq; by apply appended_none|]. right; right. split; [done|].
    destruct Hr as [[_ (d & s1 & Hpre & Hd)] | [? | [? | -> ]]]; auto. by apply preflight_degrades in Hpre.
Qed.

Lemma reason_too_long response e :
  (forall text err, parse_delivery text = inl err -> (18 <= length err)%nat) ->
  trim (default [] (first_choice_content response)) <> [] ->
  reply_of response = inl e -> (100 < length (contract_error_text e))%nat.
Proof.
  intros Hserde Hblank. unfold reply_of, decode_delivery. rewrite bool_decide_false by done.
  destruct (parse_delivery _) as [err|p] eqn:Hparse; [apply Hserde in Hparse|destruct (validate_delivery p); [done|]];
    intros <-%(inj inl); rewrite contract_error_length; cbn [code Repair.message];
    (replace (length (lit "provider_response_contract_invalid")) with 34%nat by reflexivity).
  - rewrite length_app.
    replace (length (lit "Failed to decode delivery completion as JSON: ")) with 46%nat by reflexivity. lia.
  - replace (length (lit "Provider completion failed MediaDeliveryResponseSchema validation.")) with 66%nat by reflexivity. lia.
Qed.

(** The ledger never hears of a fallback: when the provider's reply is not blank and breaks the
    contract, the teacher gets the fallback and the row that should say so is refused, because its
    reason, the text of the error, does not fit the column (serde_json's errors end with the line and
    the column, so they have at least 18 characters). *)
Lemma respond_fallback_unrecorded rid input s res s' response st :
  (forall text err, parse_delivery text = inl err -> (18 <= length err)%nat) ->
  respond parse_delivery delivery_report serde_error to_rfc3339 service rid input s = (Ok res, s') ->
  complete (rsv_router service) (respond_request (default (rsv_default_model service) (ri_model input))
    (default (rsv_default_instruction service) (ri_instruction input)) input) (sv_router s) = (inr response, st) ->
  trim (default [] (first_choice_content response)) <> [] ->
  rr_source res = lit "fallback" -> rows_of s' = rows_of s.
Proof.
  intros Hserde Hrun Hcomplete Hblank Hsrc. apply serve_or_call_run in Hrun as
    [(sc & s1 & s2 & [Hr1 Hw1] & Hcall & [Hr2 Hw2])|[(entry & s1 & _ & Hserve)|[_ Hr]]].
  - apply respond_execute_run in Hcall as (ans & Hans & (response' & -> & _ & Hr) & (l & Hl & _ & Hrows)).
    rewrite Hr1, Hcomplete in Hans. injection Hans as -> _.
    destruct l as [|row l]; [rewrite app_nil_r in Hl; congruence|]. apply Forall_cons in Hrows as [[_ Hfits] _].
    destruct (reply_of response') as [e|p] eqn:He; [|destruct Hr as (_ & Hsrc' & _); by rewrite Hsrc' in Hsrc].
    pose proof (Hfits ltac:(done) response' e eq_refl He). pose proof (reason_too_long response' e Hserde Hblank He). lia.
  - assert (delivered_by_cache rid s1 s' (Ok res)) as [_ (entry' & p & _ & _ & Hsrc' & _)]
      by (destruct Hserve as [Hs|Hs]; by eapply respond_entry_run in Hs as [? _]).
    by rewrite Hsrc' in Hsrc.
  - by destruct Hr as [[? _] | [[??] | [[??] | ?]]].
Qed.
End RespondFacts.

(** ** Concrete data *)

Module RespondWitness.
#[export] Existing Instances plain_lex plain_case LedgerWitness.exact_decimals.
#[export] Instance char_length : GardeLength := λ s, length s.
#[export] Instance one_hash : Sha256Hex := λ _, replicate 64 97.
#[export] Instance one_digest : Blake2b512 := λ _, replicate 64 1.
Definition no_json (t : str) : str + DeliveryResponsePayload := inl (lit "expected value at line 1 column 1").
Definition clock (now : Z) : str := lit "2026-01-01T00:00:00+00:00".

Definition reply (text : string) : CompletionResponse :=
  {| choices := [{| Router.message := {| role := lit "assistant"; content := lit text |}; finish_reason := None; index := 0 |}];
     usage := None; rs_model := None |}.
Definition replying (text : string) : RespondService unit :=
  mkRespondService unit (new_router (λ _ e, (inr (reply text), e))) (lit "minimax/minimax-m3") (lit "respond").
Definition fresh_services : Services unit :=
  mkServices unit CacheWitness.busy_cache (mkRL [] ∅ 1 0 []) (mkRouterState tt [] 0) LedgerWitness.empty_ledger
    LedgerWitness.no_prices [1234] [].
Definition request : RespondInput :=
  mkRespondInput (lit "g") (lit "Pecahan") (lit "Materi pecahan")
    (mkRespondArtifact (lit "pdf") (lit "https://files/pecahan.pdf") (lit "application/pdf") None None)
    (mkRespondPublication None None None) None None.
Notation run service := (respond no_json (λ _, []) (λ _, []) clock service (lit "r1") request fresh_services).

Lemma respond_spec_witness :
  appended (delivery_row (lit "r1") (run (replying "")).1) fresh_services (run (replying "")).2
  /\ length (rows_of (run (replying "")).2) = 1%nat.
Proof.
  split; [|vm_compute; reflexivity].
  exact (proj1 (respond_spec no_json (λ _, []) (λ _, []) clock (replying "") (lit "r1") request fresh_services
    (run (replying "")).1 (run (replying "")).2 (surjective_pairing _))).
Defined.

Definition fallback_result : option RespondResult := ok_value (run (replying "Halo!")).1.
Lemma fallback_result_ok res : fallback_result = Some res -> (run (replying "Halo!")).1 = Ok res.
Proof. apply ok_value_Some. Qed.
Lemma respond_fallback_unrecorded_witness :
  rr_source <$> fallback_result = Some (lit "fallback") /\ rows_of (run (replying "Halo!")).2 = rows_of fresh_services.
Proof.
  assert (rr_source <$> fallback_result = Some (lit "fallback")) as Hsrc by (vm_compute; reflexivity).
  split; [exact Hsrc|]. destruct fallback_result as [res|] eqn:Hres; [|discriminate].
  apply fallback_result_ok in Hres.
  eapply (respond_fallback_unrecorded no_json (λ _, []) (λ _, []) clock (replying "Halo!") (lit "r1") request
    fresh_services res (run (replying "Halo!")).2 (reply "Halo!") (mkRouterState tt [Called false] 0)).
  - intros text err [= <-]. vm_compute. repeat constructor.
  - rewrite <- Hres. apply surjective_pairing.
  - vm_compute. reflexivity.
  - vm_compute. discriminate.
  - by injection Hsrc.
Defined.
End RespondWitness.
