(* ===== verification/ContentDraft.v ===== *)
(** * The content draft (src/src/contracts/content_draft.rs)

    The contract media_content_draft.v1 between the model and the gateway: its types, serde in both
    directions, the repair of a model's reply, validation, and the fallback built from the
    interpretation. *)

From stdpp Require Import base list option strings.
From Stdlib Require Import ZArith Lia Floats.SpecFloat.
From S2P Require Import Prelude RustStr Json Canon Text Samples Interpretation Repair.
#[local] Open Scope Z_scope.

Definition SCHEMA_VERSION : str := lit "media_content_draft.v1".

(** ** Types *)

Record BodyBlock := mkBodyBlock {
  dbb_type : str;
  dbb_content : str
}.

Record ContentSection := mkContentSection {
  dcs_title : str;
  dcs_purpose : str;
  dcs_body_blocks : list BodyBlock;
  dcs_emphasis : str
}.

Record DraftFallback := mkDraftFallback {
  dfb_triggered : bool;
  dfb_reason_code : option str;
  dfb_action : option str
}.

Record PptxSlideContentItem := mkPptxSlideContentItem {
  psi_heading : str;
  psi_body : str
}.

Record PptxSlide := mkPptxSlide {
  ps_slide_number : Z;
  ps_layout_type : str;
  ps_title : str;
  ps_subtitle : option str;
  ps_content : list PptxSlideContentItem
}.

Record ContentDraftPayload := mkContentDraftPayload {
  cd_schema_version : str;
  cd_title : str;
  cd_summary : str;
  cd_learning_objectives : list str;
  cd_sections : list ContentSection;
  cd_teacher_delivery_summary : str;
  cd_fallback : DraftFallback;
  cd_slides : option (list PptxSlide);
  cd_presentation_title : option str;
  cd_theme_suggestion : option str
}.

Definition default_draft_fallback : DraftFallback := mkDraftFallback false None None.

(** ** Decoding *)

(** [strings.join("\n- ")]. *)
Definition bulleted (l : list str) : str := join [10; 45; 32] l.
Definition d_u32 (v : value) : option Z :=
  match v with Number (NInt z) => if (0 <=? z) && (z <? 2 ^ 32) then Some z else None | _ => None end.

Section Decode.
Context `{JsonLex}.

Definition lenient_keys : list string := ["text"; "content"; "label"; "name"; "value"]%string.
Definition deserialize_string_lenient (v : value) : str :=
  match v with
  | String s => s
  | Number n => json_number n
  | Bool b => lit (if b then "true" else "false")
  | Null => []
  | Object m =>
      match first_present m lenient_keys ≫= as_str with
      | Some s => s
      | None =>
          match map_get (lit "items") m ≫= as_array with
          | Some items => bulleted (omap scalar_text items)
          | None => json_text (Object m)
          end
      end
  | Array arr => bulleted (omap scalar_text arr)
  end.
Definition d_lenient (v : value) : option str := Some (deserialize_string_lenient v).

Definition BodyBlock_keys : list (list string) :=
  [["type"]; ["content"]]%string.
Definition decode_BodyBlock (v : value) : option BodyBlock :=
  fs ← struct_fields BodyBlock_keys v;
  match fs with
  | [f0; f1] =>
      type_ ← required d_string f0;
      content_ ← required d_lenient f1;
      Some (mkBodyBlock type_ content_)
  | _ => None
  end.

Definition ContentSection_keys : list (list string) :=
  [["title"]; ["purpose"]; ["body_blocks"]; ["emphasis"]]%string.
Definition decode_ContentSection (v : value) : option ContentSection :=
  fs ← struct_fields ContentSection_keys v;
  match fs with
  | [f0; f1; f2; f3] =>
      title_ ← required d_lenient f0;
      purpose_ ← required d_lenient f1;
      body_blocks_ ← required (d_vec decode_BodyBlock) f2;
      emphasis_ ← required d_lenient f3;
      Some (mkContentSection title_ purpose_ body_blocks_ emphasis_)
  | _ => None
  end.

Definition DraftFallback_keys : list (list string) :=
  [["triggered"]; ["reason_code"]; ["action"]]%string.
Definition decode_DraftFallback (v : value) : option DraftFallback :=
  fs ← struct_fields DraftFallback_keys v;
  match fs with
  | [f0; f1; f2] =>
      triggered_ ← defaulted false d_bool f0;
      reason_code_ ← defaulted None (d_opt d_string) f1;
      action_ ← defaulted None (d_opt d_string) f2;
      Some (mkDraftFallback triggered_ reason_code_ action_)
  | _ => None
  end.

Definition PptxSlideContentItem_keys : list (list string) :=
  [["heading"]; ["body"]]%string.
Definition decode_PptxSlideContentItem (v : value) : option PptxSlideContentItem :=
  fs ← struct_fields PptxSlideContentItem_keys v;
  match fs with
  | [f0; f1] =>
      heading_ ← defaulted [] d_string f0;
      body_ ← defaulted [] d_string f1;
      Some (mkPptxSlideContentItem heading_ body_)
  | _ => None
  end.

Definition PptxSlide_keys : list (list string) :=
  [["slide_number"]; ["layout_type"]; ["title"]; ["subtitle"]; ["content"]]%string.
Definition decode_PptxSlide (v : value) : option PptxSlide :=
  fs ← struct_fields PptxSlide_keys v;
  match fs with
  | [f0; f1; f2; f3; f4] =>
      slide_number_ ← required d_u32 f0;
      layout_type_ ← required d_string f1;
      title_ ← required d_lenient f2;
      subtitle_ ← defaulted None (d_opt d_string) f3;
      content_ ← defaulted [] (d_vec decode_PptxSlideContentItem) f4;
      Some (mkPptxSlide slide_number_ layout_type_ title_ subtitle_ content_)
  | _ => None
  end.

Definition ContentDraftPayload_keys : list (list string) :=
  [["schema_version"]; ["title"]; ["summary"]; ["learning_objectives"]; ["sections"]; ["teacher_delivery_summary"]; ["fallback"]; ["slides"]; ["presentation_title"]; ["theme_suggestion"]]%string.
Definition decode_ContentDraftPayload (v : value) : option ContentDraftPayload :=
  fs ← struct_fields ContentDraftPayload_keys v;
  match fs with
  | [f0; f1; f2; f3; f4; f5; f6; f7; f8; f9] =>
      schema_version_ ← required d_lenient f0;
      title_ ← required d_lenient f1;
      summary_ ← required d_lenient f2;
      learning_objectives_ ← defaulted [] (d_vec d_string) f3;
      sections_ ← defaulted [] (d_vec decode_ContentSection) f4;
      teacher_delivery_summary_ ← required d_lenient f5;
      fallback_ ← defaulted default_draft_fallback decode_DraftFallback f6;
      slides_ ← defaulted None (d_opt (d_vec decode_PptxSlide)) f7;
      presentation_title_ ← defaulted None (d_opt d_string) f8;
      theme_suggestion_ ← defaulted None (d_opt d_string) f9;
      Some (mkContentDraftPayload schema_version_ title_ summary_ learning_objectives_ sections_ teacher_delivery_summary_ fallback_ slides_ presentation_title_ theme_suggestion_)
  | _ => None
  end.
End Decode.

(** ** Encoding *)

Definition BodyBlock_entries (p : BodyBlock) : list (string * option value) :=
  [("type", Some (String (dbb_type p)));
   ("content", Some (String (dbb_content p)))]%string.
Definition encode_BodyBlock (p : BodyBlock) : value := struct_value (BodyBlock_entries p).

Definition ContentSection_entries (p : ContentSection) : list (string * option value) :=
  [("title", Some (String (dcs_title p)));
   ("purpose", Some (String (dcs_purpose p)));
   ("body_blocks", Some (jlist encode_BodyBlock (dcs_body_blocks p)));
   ("emphasis", Some (String (dcs_emphasis p)))]%string.
Definition encode_ContentSection (p : ContentSection) : value := struct_value (ContentSection_entries p).

Definition DraftFallback_entries (p : DraftFallback) : list (string * option value) :=
  [("triggered", Some (Bool (dfb_triggered p)));
   ("reason_code", String <$> dfb_reason_code p);
   ("action", String <$> dfb_action p)]%string.
Definition encode_DraftFallback (p : DraftFallback) : value := struct_value (DraftFallback_entries p).

Definition PptxSlideContentItem_entries (p : PptxSlideContentItem) : list (string * option value) :=
  [("heading", Some (String (psi_heading p)));
   ("body", Some (String (psi_body p)))]%string.
Definition encode_PptxSlideContentItem (p : PptxSlideContentItem) : value := struct_value (PptxSlideContentItem_entries p).

Definition PptxSlide_entries (p : PptxSlide) : list (string * option value) :=
  [("slide_number", Some (jint (ps_slide_number p)));
   ("layout_type", Some (String (ps_layout_type p)));
   ("title", Some (String (ps_title p)));
   ("subtitle", Some (jopt String (ps_subtitle p)));
   ("content", Some (jlist encode_PptxSlideContentItem (ps_content p)))]%string.
Definition encode_PptxSlide (p : PptxSlide) : value := struct_value (PptxSlide_entries p).

Definition ContentDraftPayload_entries (p : ContentDraftPayload) : list (string * option value) :=
  [("schema_version", Some (String (cd_schema_version p)));
   ("title", Some (String (cd_title p)));
   ("summary", Some (String (cd_summary p)));
   ("learning_objectives", Some (jstrings (cd_learning_objectives p)));
   ("sections", Some (jlist encode_ContentSection (cd_sections p)));
   ("teacher_delivery_summary", Some (String (cd_teacher_delivery_summary p)));
   ("fallback", Some (encode_DraftFallback (cd_fallback p)));
   ("slides", jlist encode_PptxSlide <$> cd_slides p);
   ("presentation_title", String <$> cd_presentation_title p);
   ("theme_suggestion", String <$> cd_theme_suggestion p)]%string.
Definition encode_ContentDraftPayload (p : ContentDraftPayload) : value := struct_value (ContentDraftPayload_entries p).

(** ** Repair *)

Section Repair.
Context `{CaseTables} `{JsonLex}.

Definition normalize_body_block_type (raw : str) : str :=
  let t := to_lowercase raw in
  let any := existsb (λ w, bool_decide (t = lit w)) in
  if any ["paragraph"; "text"; "p"]%string then lit "paragraph"
  else if any ["bullet"; "bullets"; "list"; "ul"]%string then lit "bullet"
  else if any ["checklist"; "check"; "checkbox"]%string then lit "checklist"
  else if any ["note"; "callout"; "info"]%string then lit "note"
  else lit "paragraph".

(** [.and_then(as_str).filter(|s| !s.is_empty()).unwrap_or(d)]. *)
Definition text_or (d : str) (k : string) (m : Map) : str :=
  match str_field k m with None | Some [] => d | Some s => s end.
Arguments text_or d k%_string m.

(** A list of lines, unless it is empty. *)
Definition dashed (joined : str) : option str := if bool_decide (joined = []) then None else Some (lit "- " ++ joined).
Definition block_content (block : value) : option str :=
  match get (lit "content") block with
  | Some (String s) => if bool_decide (s = []) then None else Some s
  | Some (Object m) =>
      match first_present m ["text"; "content"; "value"; "description"]%string ≫= as_str with
      | Some s => Some s
      | None =>
          match map_get (lit "items") m ≫= as_array with
          | Some items => dashed (bulleted (omap as_str items))
          | None => let s := json_text (Object m) in if bool_decide (s = [] \/ s = lit "{}") then None else Some s
          end
      end
  | Some (Array arr) => dashed (bulleted (omap as_str arr))
  | Some (Number n) => Some (json_number n)
  | _ => None
  end.
Definition repair_block (block : value) : option value :=
  let btype := default (lit "paragraph") (get (lit "type") block ≫= as_str) in
  content ← block_content block;
  Some (obj [("type", String (normalize_body_block_type btype)); ("content", String (truncate_str content 1000))]%string).

Definition repair_draft_section (s : value) : value :=
  match s with
  | Object m =>
      let title := text_or (lit "Untitled Section") "title" m in
      let purpose := text_or (lit "Section content") "purpose" m in
      let emphasis := default (lit "medium") (str_field "emphasis" m) in
      let body_blocks := omap repair_block (default [] (map_get (lit "body_blocks") m ≫= as_array)) in
      let body_blocks :=
        match body_blocks with
        | [] => [obj [("type", jstr "paragraph"); ("content", String purpose)]%string]
        | _ => body_blocks
        end in
      obj [("title", String (truncate_str title 200)); ("purpose", String (truncate_str purpose 500));
           ("body_blocks", Array body_blocks); ("emphasis", String emphasis)]%string
  | _ => s
  end.

(** Steps 1 and 2: the version and the three texts. *)
Definition fix_draft_texts (m : Map) : Map :=
  let m := ensure lacks_text "schema_version" (String SCHEMA_VERSION) m in
  let title_str := text_or (lit "Untitled Draft") "title" m in
  let summary_str := text_or title_str "summary" m in
  let delivery_str := text_or title_str "teacher_delivery_summary" m in
  put "teacher_delivery_summary" (String (truncate_str delivery_str 1000))
    (put "summary" (String (truncate_str summary_str 1000)) (put "title" (String (truncate_str title_str 200)) m)).

(** Step 5: the sections, empty when there are slides. *)
Definition nonempty_array (k : string) (m : Map) : bool :=
  match map_get (lit k) m with Some (Array (_ :: _)) => true | _ => false end.
Arguments nonempty_array k%_string m.
Definition requested_draft_section (title : str) : value :=
  obj [("title", jstr "Requested Content"); ("purpose", jstr "Deliver the requested learning material.");
       ("body_blocks", Array [obj [("type", jstr "paragraph"); ("content", String title)]%string]);
       ("emphasis", jstr "medium")]%string.
Definition fix_draft_sections (m : Map) : Map :=
  if negb (nonempty_array "sections" m) && negb (nonempty_array "slides" m) then
    put "sections" (Array [requested_draft_section (default (lit "Content") (str_field "title" m))]) m
  else if negb (nonempty_array "sections" m) then put "sections" (Array []) m
  else put "sections" (Array (repair_draft_section <$> default [] (map_get (lit "sections") m ≫= as_array))) m.

(** Step 6: the objectives. *)
Definition fix_objective (item : value) : value :=
  match item with
  | String _ => item
  | Object m =>
      String match first_present m ["objective"; "text"; "content"; "description"; "title"]%string ≫= as_str with
             | Some s => s
             | None => json_text item
             end
  | Number n => String (json_number n)
  | _ => String (json_text item)
  end.
Definition fix_draft_objectives (m : Map) : Map :=
  if lacks "learning_objectives" m then put "learning_objectives" (Array []) m
  else match map_get (lit "learning_objectives") m with
       | Some (Array arr) => put "learning_objectives" (Array (fix_objective <$> arr)) m
       | _ => m
       end.

Definition repair_draft_object (m : Map) : Map := fix_draft_objectives (fix_draft_sections (fix_draft_texts m)).

(** [from_str] into a [Value], and into the payload with the text of its error. *)
Context (parse_value : str -> option value) (parse_draft : str -> str + ContentDraftPayload).
Definition repair_draft_json (raw : str) : str :=
  let cleaned := extract_json raw in
  match parse_value cleaned with
  | None => cleaned
  | Some (Object m) => json_text (Object (repair_draft_object m))
  | Some _ => raw
  end.

(** ** Validation *)

Context `{GardeLength} (draft_report : ContentDraftPayload -> str).

Definition validate_BodyBlock (b : BodyBlock) : bool := len_ok 1 1000 (dbb_content b).
Definition validate_ContentSection (s : ContentSection) : bool :=
  len_ok 1 200 (dcs_title s) && len_ok 1 500 (dcs_purpose s) && (1 <=? length (dcs_body_blocks s))%nat
  && forallb validate_BodyBlock (dcs_body_blocks s).
(** The slides are not entered. *)
Definition validate_draft (p : ContentDraftPayload) : bool :=
  (1 <=? simple_length (cd_schema_version p))%nat && len_ok 1 200 (cd_title p) && len_ok 1 1000 (cd_summary p)
  && forallb validate_ContentSection (cd_sections p) && len_ok 1 1000 (cd_teacher_delivery_summary p).

Definition decode_draft (raw_json : str) : ContractValidationError + ContentDraftPayload :=
  let trimmed := trim raw_json in
  if bool_decide (trimmed = []) then
    inl (mkContractValidationError (lit "empty_completion") (lit "Provider completion was empty.")
           (obj [("reason", jstr "empty_completion")]%string) raw_json)
  else
    match parse_draft (repair_draft_json trimmed) with
    | inl e =>
        inl (mkContractValidationError (lit "provider_response_contract_invalid")
               (lit "Failed to decode content draft completion as JSON: " ++ e)
               (obj [("json_error", String e)]%string) raw_json)
    | inr payload =>
        if validate_draft payload then inr payload
        else inl (mkContractValidationError (lit "provider_response_contract_invalid")
                    (lit "Provider completion failed MediaContentDraftSchema validation.")
                    (obj [("errors", String (draft_report payload))]%string) raw_json)
    end.
End Repair.
Arguments text_or d k%_string m.
Arguments nonempty_array k%_string m.

(** ** The fallback *)

Definition fallback_from_interpretation (title summary teacher_delivery_summary : str) : ContentDraftPayload :=
  mkContentDraftPayload SCHEMA_VERSION (truncate_str title 200) (truncate_str summary 1000) []
    [mkContentSection (lit "Requested Content") (lit "Deliver the requested learning material.")
       [mkBodyBlock (lit "paragraph") (truncate_str summary 1000)] (lit "medium")]
    (truncate_str teacher_delivery_summary 1000)
    (mkDraftFallback true (Some (lit "provider_response_contract_invalid")) (Some (lit "fallback_from_interpretation")))
    None None None.

(** ** Round trip *)

(** The fields of an encoded struct are found; each is decoded by its lemma. *)
Ltac settle :=
  repeat (cbn [fmap list_fmap snd mbind option_bind required defaulted d_string d_bool d_lenient
              deserialize_string_lenient as_str as_bool option_fmap option_map];
          rewrite ?opt_string_roundtrip, ?strings_roundtrip).

Definition slide_in_range (s : PptxSlide) : Prop := 0 <= ps_slide_number s < 2 ^ 32.
Lemma d_u32_jint n : 0 <= n < 2 ^ 32 -> d_u32 (jint n) = Some n.
Proof. intros Hn. unfold d_u32, jint. by rewrite (proj2 (Z.leb_le 0 n)), (proj2 (Z.ltb_lt n (2 ^ 32))) by lia. Qed.

Section DraftRoundTrip.
Context `{JsonLex}.

Lemma BodyBlock_roundtrip p : decode_BodyBlock (encode_BodyBlock p) = Some p.
Proof.
  unfold decode_BodyBlock, encode_BodyBlock.
  rewrite (struct_fields_entries _ (BodyBlock_entries p)) by reflexivity. unfold BodyBlock_entries.
  settle. by destruct p.
Qed.
Lemma ContentSection_roundtrip p : decode_ContentSection (encode_ContentSection p) = Some p.
Proof.
  unfold decode_ContentSection, encode_ContentSection.
  rewrite (struct_fields_entries _ (ContentSection_entries p)) by reflexivity. unfold ContentSection_entries.
  settle. rewrite (vec_roundtrip _ _ id) by (intros; apply BodyBlock_roundtrip).
  rewrite list_fmap_id. settle. by destruct p.
Qed.
Lemma DraftFallback_roundtrip p : decode_DraftFallback (encode_DraftFallback p) = Some p.
Proof.
  unfold decode_DraftFallback, encode_DraftFallback.
  rewrite (struct_fields_entries _ (DraftFallback_entries p)) by reflexivity. unfold DraftFallback_entries.
  settle. by destruct p.
Qed.
Lemma PptxSlideContentItem_roundtrip p : decode_PptxSlideContentItem (encode_PptxSlideContentItem p) = Some p.
Proof.
  unfold decode_PptxSlideContentItem, encode_PptxSlideContentItem.
  rewrite (struct_fields_entries _ (PptxSlideContentItem_entries p)) by reflexivity.
  unfold PptxSlideContentItem_entries. settle. by destruct p.
Qed.
Lemma PptxSlide_roundtrip p : slide_in_range p -> decode_PptxSlide (encode_PptxSlide p) = Some p.
Proof.
  intros Hp. unfold decode_PptxSlide, encode_PptxSlide.
  rewrite (struct_fields_entries _ (PptxSlide_entries p)) by reflexivity. unfold PptxSlide_entries.
  settle. rewrite d_u32_jint by done. settle.
  assert (d_opt d_string (jopt String (ps_subtitle p)) = Some (ps_subtitle p)) as -> by by destruct (ps_subtitle p).
  settle. rewrite (vec_roundtrip _ _ id) by (intros; apply PptxSlideContentItem_roundtrip).
  rewrite list_fmap_id. settle. by destruct p.
Qed.

(** A content draft written to the cache as JSON and read back is the draft, slides included. *)
Lemma draft_roundtrip (p : ContentDraftPayload) :
  Forall slide_in_range (default [] (cd_slides p)) ->
  decode_ContentDraftPayload (encode_ContentDraftPayload p) = Some p.
Proof.
  intros Hslides. unfold decode_ContentDraftPayload, encode_ContentDraftPayload.
  rewrite (struct_fields_entries _ (ContentDraftPayload_entries p)) by reflexivity.
  unfold ContentDraftPayload_entries. settle.
  rewrite (vec_roundtrip _ _ id) by (intros; apply ContentSection_roundtrip). rewrite list_fmap_id. settle.
  rewrite DraftFallback_roundtrip. settle.
  assert (defaulted None (d_opt (d_vec decode_PptxSlide)) (jlist encode_PptxSlide <$> cd_slides p) = Some (cd_slides p)) as ->.
  { destruct (cd_slides p) as [l|]; [|done]. cbn [fmap option_fmap option_map defaulted d_opt default] in *.
    unfold d_opt. cbn [is_null jlist]. change (Array (encode_PptxSlide <$> l)) with (jlist encode_PptxSlide l).
    rewrite (vec_roundtrip _ _ id); [by rewrite list_fmap_id|].
    intros s Hs. apply PptxSlide_roundtrip. by eapply Forall_forall. }
  settle. by destruct p.
Qed.
End DraftRoundTrip.

(** ** Lemmas: what the repair leaves *)

Lemma struct_fields_object ks m :
  struct_fields ((λ k, [k]) <$> ks) (Object m) = Some ((λ k, map_get (lit k) m) <$> ks).
Proof.
  cbn [struct_fields]. induction ks as [|k ks IH]; [done|]. rewrite !fmap_cons. cbn [mapM]. rewrite field_in_single.
  cbn [mbind option_bind]. by rewrite IH.
Qed.

Section RepairFacts.
Context `{CaseTables} `{JsonLex}.
Implicit Types m : Map.

Lemma fix_draft_objectives_other x m :
  x <> "learning_objectives"%string -> map_get (lit x) (fix_draft_objectives m) = map_get (lit x) m.
Proof. intros Hx. unfold fix_draft_objectives. repeat case_match; by rewrite ?put_get_ne. Qed.
Lemma fix_draft_sections_other x m :
  x <> "sections"%string -> map_get (lit x) (fix_draft_sections m) = map_get (lit x) m.
Proof. intros Hx. unfold fix_draft_sections. repeat case_match; by rewrite ?put_get_ne. Qed.
Definition text_field_names : list string := ["schema_version"; "title"; "summary"; "teacher_delivery_summary"]%string.
Lemma fix_draft_texts_other x m : x ∉ text_field_names -> map_get (lit x) (fix_draft_texts m) = map_get (lit x) m.
Proof.
  unfold text_field_names. rewrite !not_elem_of_cons. intros (? & ? & ? & ? & _). unfold fix_draft_texts.
  rewrite !put_get_ne by done. by apply ensure_get_ne.
Qed.
Lemma repair_draft_other x m :
  x ∉ "sections"%string :: "learning_objectives"%string :: text_field_names ->
  map_get (lit x) (repair_draft_object m) = map_get (lit x) m.
Proof.
  rewrite !not_elem_of_cons. intros (? & ? & Hx). unfold repair_draft_object.
  by rewrite fix_draft_objectives_other, fix_draft_sections_other, fix_draft_texts_other by
    (done || by rewrite !not_elem_of_cons).
Qed.

(** The texts of a reply, before they are cut. *)
Definition title_of m : str := text_or (lit "Untitled Draft") "title" m.
Definition summary_of m : str := text_or (title_of m) "summary" m.
Definition delivery_of m : str := text_or (title_of m) "teacher_delivery_summary" m.

Lemma text_or_ensure d k p x v m : k <> x -> text_or d k (ensure p x v m) = text_or d k m.
Proof. intros Hk. unfold text_or, str_field. by rewrite ensure_get_ne. Qed.
Lemma repaired_draft_texts m :
  let r := repair_draft_object m in
  map_get (lit "title") r = Some (String (truncate_str (title_of m) 200))
  /\ map_get (lit "summary") r = Some (String (truncate_str (summary_of m) 1000))
  /\ map_get (lit "teacher_delivery_summary") r = Some (String (truncate_str (delivery_of m) 1000))
  /\ map_get (lit "schema_version") r = map_get (lit "schema_version") (ensure lacks_text "schema_version" (String SCHEMA_VERSION) m).
Proof.
  cbv zeta. unfold repair_draft_object.
  rewrite !fix_draft_objectives_other, !fix_draft_sections_other by done. unfold fix_draft_texts. cbv zeta.
  rewrite !(text_or_ensure _ _ lacks_text "schema_version") by done.
  fold (title_of m). fold (summary_of m). fold (delivery_of m).
  repeat split; rewrite ?put_get_ne by done; by rewrite ?put_get.
Qed.
Lemma repaired_version m : exists v, map_get (lit "schema_version") (repair_draft_object m) = Some v.
Proof.
  destruct (repaired_draft_texts m) as (_ & _ & _ & ->). rewrite ensure_lacks_text_get.
  destruct (map_get _ m) as [[]|]; [..|by eexists]; (case_match; by eexists) || by eexists.
Qed.

(** The repair writes sections as serde would. *)
Lemma repaired_blocks (l : list value) : exists blks : list BodyBlock, omap repair_block l = encode_BodyBlock <$> blks.
Proof.
  induction l as [|b l (blks & IH)]; [by exists []|]. cbn [omap list_omap]. rewrite IH.
  unfold repair_block. destruct (block_content b) as [c|]; cbn [mbind option_bind]; [|by exists blks].
  by exists (mkBodyBlock (normalize_body_block_type (default (lit "paragraph") (get (lit "type") b ≫= as_str)))
              (truncate_str c 1000) :: blks).
Qed.
Lemma repaired_section (o : Map) : exists sec,
  repair_draft_section (Object o) = encode_ContentSection sec
  /\ dcs_title sec = truncate_str (text_or (lit "Untitled Section") "title" o) 200
  /\ dcs_purpose sec = truncate_str (text_or (lit "Section content") "purpose" o) 500
  /\ dcs_body_blocks sec <> [].
Proof.
  unfold repair_draft_section. destruct (repaired_blocks (default [] (map_get (lit "body_blocks") o ≫= as_array))) as [blks ->].
  set (purpose := text_or (lit "Section content") "purpose" o).
  exists (mkContentSection (truncate_str (text_or (lit "Untitled Section") "title" o) 200) (truncate_str purpose 500)
    (match blks with [] => [mkBodyBlock (lit "paragraph") purpose] | _ => blks end)
    (default (lit "medium") (str_field "emphasis" o))).
  by destruct blks.
Qed.
Lemma repaired_sections l : Forall (λ v, is_object v = true) l ->
  exists secs, repair_draft_section <$> l = encode_ContentSection <$> secs.
Proof.
  induction 1 as [|v l Hv _ (secs & IH)]; [by exists []|]. destruct v as [| | | | |o]; try done.
  destruct (repaired_section o) as (sec & Hsec & _). exists (sec :: secs). by rewrite !fmap_cons, Hsec, IH.
Qed.
Lemma sections_decode m :
  (forall l, map_get (lit "sections") m = Some (Array l) -> Forall (λ v, is_object v = true) l) ->
  exists secs, map_get (lit "sections") (repair_draft_object m) = Some (jlist encode_ContentSection secs)
    /\ (secs = [] -> nonempty_array "slides" m = true).
Proof.
  intros Hl. unfold repair_draft_object. rewrite fix_draft_objectives_other by done.
  assert (map_get (lit "sections") (fix_draft_texts m) = map_get (lit "sections") m) as Hs
    by (apply fix_draft_texts_other, (bool_decide_unpack _); vm_compute; exact I).
  assert (map_get (lit "slides") (fix_draft_texts m) = map_get (lit "slides") m) as Hsl
    by (apply fix_draft_texts_other, (bool_decide_unpack _); vm_compute; exact I).
  unfold fix_draft_sections, nonempty_array. rewrite Hs, Hsl.
  destruct (map_get (lit "sections") m) as [[| | | |[|v l]|]|]; cbn [negb andb];
    try (destruct (map_get (lit "slides") m) as [[| | | |[]|]|]; cbn [negb andb]; rewrite put_get;
         first [by exists []|
           exists [mkContentSection (lit "Requested Content") (lit "Deliver the requested learning material.")
                [mkBodyBlock (lit "paragraph") (default (lit "Content") (str_field "title" (fix_draft_texts m)))] (lit "medium")]; done]).
  rewrite put_get. destruct (repaired_sections (v :: l) (Hl _ eq_refl)) as [secs Hsecs].
  exists secs. cbn [mbind option_bind as_array default]. unfold jlist. rewrite <- Hsecs. split; [done|]. by intros ->.
Qed.

Definition objectives_listed m : bool :=
  match map_get (lit "learning_objectives") m with None | Some Null | Some (Array _) => true | _ => false end.
Lemma fix_objective_string v : exists s, fix_objective v = String s.
Proof. destruct v; by eexists. Qed.
Lemma objectives_decode m : objectives_listed m = true ->
  exists l, map_get (lit "learning_objectives") (repair_draft_object m) = Some (jstrings l).
Proof.
  unfold repair_draft_object. set (m1 := fix_draft_sections _).
  assert (map_get (lit "learning_objectives") m1 = map_get (lit "learning_objectives") m) as E.
  { unfold m1. rewrite fix_draft_sections_other by done.
    apply fix_draft_texts_other, (bool_decide_unpack _); vm_compute; exact I. }
  unfold fix_draft_objectives, lacks, objectives_listed. rewrite E.
  destruct (map_get _ m) as [[| | | |l|]|] eqn:Em; intros Hl; try done; try (exists []; by rewrite put_get).
  rewrite put_get. assert (exists ss, fix_objective <$> l = String <$> ss) as [ss ->]; [|by exists ss].
  clear. induction l as [|v l [ss IH]]; [by exists []|]. destruct (fix_objective_string v) as [s Hs].
  exists (s :: ss). by rewrite !fmap_cons, Hs, IH.
Qed.

Definition draft_field_names : list string :=
  ["schema_version"; "title"; "summary"; "learning_objectives"; "sections"; "teacher_delivery_summary"; "fallback";
   "slides"; "presentation_title"; "theme_suggestion"]%string.
Lemma draft_fields m : struct_fields ContentDraftPayload_keys (Object m) = Some ((λ k, map_get (lit k) m) <$> draft_field_names).
Proof. exact (struct_fields_object draft_field_names m). Qed.
Lemma untouched x m : bool_decide (x ∉ "sections"%string :: "learning_objectives"%string :: text_field_names) = true ->
  map_get (lit x) (repair_draft_object m) = map_get (lit x) m.
Proof. intros Hx%bool_decide_eq_true. by apply repair_draft_other. Qed.

(** What the repair of a draft guarantees. Whatever the reply says of its version, title, summary,
    delivery summary, sections and objectives, the repaired object decodes, as long as the sections it
    lists are objects, the objectives are a list, and the four fields that are never repaired (the
    fallback, the slides and the two suggestions of a presentation) are well formed or absent. The
    texts are those of the reply, or of its title, cut; sections are missing only when there are
    slides. *)
Lemma draft_repair_decodes (m : Map) fb slides pt th :
  (forall l, map_get (lit "sections") m = Some (Array l) -> Forall (λ v, is_object v = true) l) ->
  objectives_listed m = true ->
  defaulted default_draft_fallback decode_DraftFallback (map_get (lit "fallback") m) = Some fb ->
  defaulted None (d_opt (d_vec decode_PptxSlide)) (map_get (lit "slides") m) = Some slides ->
  defaulted None (d_opt d_string) (map_get (lit "presentation_title") m) = Some pt ->
  defaulted None (d_opt d_string) (map_get (lit "theme_suggestion") m) = Some th ->
  exists p, decode_ContentDraftPayload (Object (repair_draft_object m)) = Some p
    /\ cd_title p = truncate_str (title_of m) 200 /\ cd_summary p = truncate_str (summary_of m) 1000
    /\ cd_teacher_delivery_summary p = truncate_str (delivery_of m) 1000
    /\ (cd_fallback p, cd_slides p) = (fb, slides) /\ (cd_sections p = [] -> default [] slides <> []).
Proof.
  intros Hsec Hobj Hfb Hsl Hpt Hth. destruct (sections_decode m Hsec) as (secs & Hs & Hnone).
  destruct (objectives_decode m Hobj) as [objs Ho]. destruct (repaired_version m) as [ver Hv].
  destruct (repaired_draft_texts m) as (Ht & Hsu & Hd & _).
  unfold decode_ContentDraftPayload. rewrite draft_fields. unfold draft_field_names. rewrite !fmap_cons, fmap_nil.
  cbn [mbind option_bind]. rewrite Hv, Ht, Hsu, Ho, Hs, Hd. settle.
  rewrite (vec_roundtrip _ _ id) by (intros; apply ContentSection_roundtrip). rewrite list_fmap_id. cbn [mbind option_bind].
  rewrite (untouched "fallback"), Hfb by reflexivity. cbn [mbind option_bind].
  rewrite (untouched "slides"), Hsl by reflexivity. cbn [mbind option_bind].
  rewrite (untouched "presentation_title"), Hpt by reflexivity. cbn [mbind option_bind].
  rewrite (untouched "theme_suggestion"), Hth by reflexivity. cbn [mbind option_bind].
  eexists. split; [reflexivity|]. cbn. do 4 (split; [reflexivity|]). intros Hempty. specialize (Hnone Hempty).
  unfold nonempty_array in Hnone. destruct (map_get (lit "slides") m) as [[| | | |[|v l]|]|]; try done.
  cbn [defaulted d_opt] in Hsl. unfold d_opt in Hsl. cbn [is_null] in Hsl. unfold d_vec in Hsl. cbn [as_array mbind option_bind mapM] in Hsl.
  destruct (decode_PptxSlide v); [|done]. cbn [mbind option_bind] in Hsl.
  destruct (mapM decode_PptxSlide l); [|done]. by injection Hsl as <-.
Qed.

Lemma decoded_texts m p :
  decode_ContentDraftPayload (Object (repair_draft_object m)) = Some p ->
  cd_title p = truncate_str (title_of m) 200 /\ cd_summary p = truncate_str (summary_of m) 1000
  /\ cd_teacher_delivery_summary p = truncate_str (delivery_of m) 1000.
Proof.
  destruct (repaired_draft_texts m) as (Ht & Hsu & Hd & _).
  unfold decode_ContentDraftPayload. rewrite draft_fields. unfold draft_field_names. rewrite !fmap_cons, fmap_nil.
  cbn [mbind option_bind]. rewrite Ht, Hsu, Hd. intros Hp.
  repeat (let y := fresh in let Hy := fresh in apply bind_Some in Hp as (y & Hy & Hp);
          try (cbn [required mbind option_bind d_lenient deserialize_string_lenient] in Hy; injection Hy as <-)).
  by injection Hp as <-.
Qed.

Lemma len_ok_truncated `{GardeLengthLaws} v max :
  ascii_str v -> len_ok 1 max (truncate_str v max) = true <-> (1 <= length (trim v) <= max)%nat.
Proof. intros Hv. rewrite len_ok_truncate by done. apply bool_decide_eq_true. Qed.

(** Cutting does not make a text fit. The repair cuts title, summary and delivery summary at 200 and
    1000 characters and then adds three dots: an ASCII text that is longer is three characters too long
    afterwards, and the draft is refused, whatever else it says; and so is one whose title or summary
    is blank but not empty. *)
Lemma draft_validation_of_texts `{GardeLengthLaws} (m : Map) (p : ContentDraftPayload) :
  ascii_str (title_of m) -> ascii_str (summary_of m) -> ascii_str (delivery_of m) ->
  decode_ContentDraftPayload (Object (repair_draft_object m)) = Some p ->
  validate_draft p = true <->
    (1 <= length (trim (title_of m)) <= 200)%nat /\ (1 <= length (trim (summary_of m)) <= 1000)%nat
    /\ (1 <= length (trim (delivery_of m)) <= 1000)%nat
    /\ (1 <= simple_length (cd_schema_version p))%nat /\ Forall (λ s, validate_ContentSection s = true) (cd_sections p).
Proof.
  intros Ht Hs Hd (Et & Es & Ed)%decoded_texts. unfold validate_draft.
  rewrite Et, Es, Ed, !andb_true_iff.
  rewrite (len_ok_truncated _ 200 Ht), (len_ok_truncated _ 1000 Hs), (len_ok_truncated _ 1000 Hd).
  rewrite Nat.leb_le, forallb_forall, Forall_forall.
  setoid_rewrite list_elem_of_In. tauto.
Qed.
End RepairFacts.

(** The fallback of a draft, built from the texts of the interpretation, passes the validation of a
    provider's draft (which it is not put through) exactly when these, once trimmed, have between 1 and
    200, 1000 and 1000 characters: for a longer ASCII text it is the service itself that answers with
    a draft against the contract. *)
Lemma draft_fallback_valid `{GardeLengthLaws} (title summary teacher_delivery_summary : str) :
  ascii_str title -> ascii_str summary -> ascii_str teacher_delivery_summary ->
  validate_draft (fallback_from_interpretation title summary teacher_delivery_summary) = true <->
    (1 <= length (trim title) <= 200)%nat /\ (1 <= length (trim summary) <= 1000)%nat
    /\ (1 <= length (trim teacher_delivery_summary) <= 1000)%nat.
Proof.
  intros Ht Hs Hd. unfold validate_draft, fallback_from_interpretation, validate_ContentSection, validate_BodyBlock.
  cbn [cd_schema_version cd_title cd_summary cd_sections cd_teacher_delivery_summary forallb dcs_title dcs_purpose
       dcs_body_blocks dbb_content length]. change (1 <=? 1)%nat with true.
  rewrite !len_ok_lit by reflexivity.
  assert ((1 <=? simple_length SCHEMA_VERSION)%nat = true) as ->.
  { unfold SCHEMA_VERSION. by rewrite simple_length_ascii by by apply ascii_lit. }
  rewrite !andb_true_iff.
  rewrite (len_ok_truncated _ 200 Ht), !(len_ok_truncated _ 1000 Hs), (len_ok_truncated _ 1000 Hd). tauto.
Qed.

(** ** Concrete data *)

Module DraftWitness.
#[export] Existing Instances plain_lex plain_case.
#[export] Instance char_length : GardeLength := λ s, length s.
#[export] Instance char_length_laws : GardeLengthLaws.
Proof. by split. Qed.

Lemma draft_roundtrip_witness :
  decode_ContentDraftPayload (encode_ContentDraftPayload (fallback_from_interpretation (lit "Pecahan") (lit "s") (lit "d")))
  = Some (fallback_from_interpretation (lit "Pecahan") (lit "s") (lit "d")).
Proof. apply draft_roundtrip. constructor. Defined.

(** A reply with a title and a section only. *)
Definition bare_reply (title : str) : Map :=
  [(lit "title", String title);
   (lit "sections", Array [obj [("title", jstr "Pendahuluan"); ("body_blocks", Array [obj [("type", jstr "UL"); ("content", Array [jstr "satu"; jstr "dua"])]%string])]%string])].
Lemma draft_repair_decodes_witness :
  exists p, decode_ContentDraftPayload (Object (repair_draft_object (bare_reply (lit "Pecahan")))) = Some p
    /\ cd_summary p = lit "Pecahan".
Proof.
  destruct (draft_repair_decodes (bare_reply (lit "Pecahan")) default_draft_fallback None None None) as (p & Hp & _ & Hs & _);
    [|reflexivity..|].
  - intros l Hl. assert (forallb is_object l = true) as Hall by (vm_compute in Hl; injection Hl as <-; reflexivity).
    apply Forall_forall. intros v Hv. rewrite forallb_forall in Hall. by apply Hall, list_elem_of_In.
  - exists p. split; [exact Hp|]. rewrite Hs. vm_compute. reflexivity.
Defined.
Example bullets_are_joined :
  (λ p, dbb_content <$> (cd_sections p ≫= dcs_body_blocks)) <$>
    decode_ContentDraftPayload (Object (repair_draft_object (bare_reply (lit "Pecahan"))))
  = Some [lit "- satu" ++ [10] ++ lit "- dua"].
Proof. vm_compute. reflexivity. Qed.

Lemma draft_validation_of_texts_witness :
  exists p, decode_ContentDraftPayload (Object (repair_draft_object (bare_reply (replicate 201 97)))) = Some p
    /\ validate_draft p <> true.
Proof.
  destruct (decode_ContentDraftPayload (Object (repair_draft_object (bare_reply (replicate 201 97))))) as [p|] eqn:Hp.
  - exists p. split; [reflexivity|]. intros Hval.
    apply (draft_validation_of_texts (bare_reply (replicate 201 97)) p) in Hval as (Hlen & _); [|..|exact Hp];
      [|apply (bool_decide_unpack _); vm_compute; exact I..].
    assert (length (trim (title_of (bare_reply (replicate 201 97)))) = 201%nat) as E by (vm_compute; reflexivity). lia.
  - exfalso. assert (is_Some (decode_ContentDraftPayload (Object (repair_draft_object (bare_reply (replicate 201 97)))))) as [q Hq]
      by (vm_compute; eexists; reflexivity).
    rewrite Hq in Hp. discriminate Hp.
Defined.

Lemma draft_fallback_valid_witness :
  validate_draft (fallback_from_interpretation (lit "Pecahan") (lit "s") (lit "d")) = true.
Proof.
  apply draft_fallback_valid; apply (bool_decide_unpack _); vm_compute; exact I.
Defined.
End DraftWitness.
