(* ===== verification/DraftService.v ===== *)
(** * The drafting service (src/src/llm/draft.rs)

    [draft] writes the content of a material from its interpretation: from the cache, unless the caller
    asks to bypass it, or from the provider, whose reply is decoded or replaced by the fallback. It
    shares the route, the cache and the budget of the delivery service. *)

From stdpp Require Import base gmap sets list option strings.
From Stdlib Require Import ZArith QArith Lia Floats.SpecFloat.
From S2P Require Import Prelude RustStr Json Floats Canon Store Samples Interpretation Cache Repair RateLimit Ledger Router LlmService ContentDraft.
#[local] Open Scope Z_scope.

Definition DRAFT_ROUTE : str := lit "respond".
Definition DRAFT_REQUEST_TYPE : str := lit "media_content_draft".
Definition DRAFT_CACHE_ROUTE : CacheRoute := Respond.
Definition draft_provider : str := lit "openrouter".

Record DraftTaxonomyHint := mkDraftTaxonomyHint {
  th_schema_version : str;
  th_source : str;
  th_subject_name : option str;
  th_subject_slug : option str;
  th_sub_subject_name : option str;
  th_sub_subject_slug : option str;
  th_jenjang : option str;
  th_kelas : option Z;
  th_semester : option Z;
  th_bab : option Z;
  th_description : option str;
  th_structure : option str;
  th_matched_signals : list str
}.
Record DraftInput := mkDraftInput {
  di_generation_id : str;
  di_interpretation : InterpretationPayload;
  di_resolved_output_type : str;
  di_taxonomy_hint : option DraftTaxonomyHint;
  di_model : option str;
  di_instruction : option str;
  di_bypass_cache : bool
}.
Record DraftResult := mkDraftResult {
  dr_request_id : str;
  dr_generation_id : str;
  dr_draft_payload : ContentDraftPayload;
  dr_source : str;
  dr_adapter_metadata : value;
  dr_fallback_error : option str;
  dr_response_headers : gmap str str;
  dr_latency_ms : option Q
}.
(** The errors are named after the variants of the source. *)
Inductive DraftError :=
| DraftRateLimited (request_id generation_id : str)
| DraftProviderError (e : ProviderError)
| DraftCacheError (e : db_error)
| DraftGovernance (e : db_error)
| DraftContract (e : ContractValidationError).

(** [dsv_pptx_instruction] is the text of [DEFAULT_PPTX_DRAFT_INSTRUCTION]. *)
Record DraftService {Env : Type} := mkDraftService {
  dsv_router : ProviderRouter (Env:=Env);
  dsv_default_model : str;
  dsv_default_instruction : str;
  dsv_pptx_instruction : str
}.
Arguments DraftService : clear implicits.

Section Draft.
Context {Env : Type} `{CaseTables} `{JsonLex} `{GardeLength} `{Sha256Hex} `{Blake2b512} `{DecimalOps}.
(** serde_json on a value and on the payload of a reply, and the texts of its errors and of garde's. *)
Context (parse_value : str -> option value) (parse_draft : str -> str + ContentDraftPayload).
Context (draft_report : ContentDraftPayload -> str) (serde_error : value -> str).
Context (service : DraftService Env).
Notation LD := (LM Env DraftError).

Definition draft_instruction (input : DraftInput) : str :=
  match di_instruction input with
  | Some i => i
  | None => if bool_decide (di_resolved_output_type input = lit "pptx") then dsv_pptx_instruction service
            else dsv_default_instruction service
  end.
Definition draft_model (input : DraftInput) : str := default (dsv_default_model service) (di_model input).

Definition draft_cache_input (input : DraftInput) : value :=
  let interpretation := di_interpretation input in
  obj [("resolved_output_type", String (di_resolved_output_type input));
       ("interpretation_title", String (bp_title (ip_document_blueprint interpretation)));
       ("interpretation_summary", String (bp_summary (ip_document_blueprint interpretation)));
       ("teacher_prompt", String (ip_teacher_prompt interpretation));
       ("subject_context",
        jopt (λ c, obj [("name", String (sc_subject_name c)); ("slug", jopt String (sc_subject_slug c))]%string)
          (ip_subject_context interpretation));
       ("sub_subject_context",
        jopt (λ c, obj [("name", String (ssc_sub_subject_name c)); ("slug", jopt String (ssc_sub_subject_slug c))]%string)
          (ip_sub_subject_context interpretation))]%string.
Definition draft_cache_key (input : DraftInput) : str :=
  build_cache_key DRAFT_CACHE_ROUTE draft_provider (draft_model input) DRAFT_REQUEST_TYPE (draft_instruction input)
    (draft_cache_input input).

(** ** The provider call *)

Definition draft_user_payload (input : DraftInput) : value :=
  let interpretation := di_interpretation input in
  obj [("teacher_prompt", String (ip_teacher_prompt interpretation));
       ("output_type", String (di_resolved_output_type input));
       ("title", String (bp_title (ip_document_blueprint interpretation)));
       ("summary", String (bp_summary (ip_document_blueprint interpretation)));
       ("learning_objectives", jstrings (ip_learning_objectives interpretation));
       ("sections", jlist (λ s, obj [("title", String (bs_title s)); ("purpose", String (bs_purpose s));
                                     ("bullets", jstrings (bs_bullets s));
                                     ("estimated_length", String (bs_estimated_length s))]%string)
                      (bp_sections (ip_document_blueprint interpretation)));
       ("language", String (ip_language interpretation));
       ("teacher_intent_goal", String (ti_goal (ip_teacher_intent interpretation)));
       ("target_page_count", jopt String (ip_interpreted_fields interpretation ≫= if_page_count));
       ("target_slide_count", jopt String (ip_interpreted_fields interpretation ≫= if_slide_count));
       ("constraints",
        let c := ip_constraints interpretation in
        obj [("preferred_output_type", String (ic_preferred_output_type c));
             ("must_include", jstrings (ic_must_include c)); ("avoid", jstrings (ic_avoid c));
             ("tone", jopt String (ic_tone c))]%string);
       ("taxonomy_hint",
        jopt (λ h, obj [("subject_name", jopt String (th_subject_name h));
                        ("sub_subject_name", jopt String (th_sub_subject_name h));
                        ("jenjang", jopt String (th_jenjang h)); ("kelas", jopt jint (th_kelas h));
                        ("structure", jopt String (th_structure h));
                        ("matched_signals", jstrings (th_matched_signals h))]%string)
          (di_taxonomy_hint input))]%string.
Definition draft_request (input : DraftInput) : CompletionRequest :=
  json_mode_request (draft_model input) (draft_instruction input) (json_pretty 0 (draft_user_payload input)).

(** The payload of a reply and why it is the fallback, if it is. *)
Definition accept_draft (response : CompletionResponse) (input : DraftInput) :
    ContentDraftPayload * option ContractValidationError :=
  match decode_draft parse_value parse_draft draft_report (default [] (first_choice_content response)) with
  | inr p => (p, None)
  | inl validation_err =>
      (fallback_from_interpretation (bp_title (ip_document_blueprint (di_interpretation input)))
         (bp_summary (ip_document_blueprint (di_interpretation input)))
         (ip_teacher_delivery_summary (di_interpretation input)), Some validation_err)
  end.

Definition draft_usage (u : Usage) : value :=
  obj [("prompt_tokens", jopt jint (prompt_tokens u)); ("completion_tokens", jopt jint (completion_tokens u));
       ("total_tokens", jopt jint (total_tokens u))]%string.
Definition draft_execute (input : DraftInput) (request_id cache_key : str) (should_cache : bool) : LD DraftResult :=
  let model := draft_model input in
  provider_result ← provider_call (dsv_router service) (draft_request input);
  latency_ms ← latency;
  match provider_result with
  | inr response =>
      let '(payload, fallback_error) := accept_draft response input in
      let fallback_used := bool_decide (is_Some fallback_error) in
      _ ← book_response DRAFT_CACHE_ROUTE should_cache (encode_ContentDraftPayload payload) request_id
            (di_generation_id input) DRAFT_ROUTE DRAFT_REQUEST_TYPE draft_provider model latency_ms response
            fallback_used (contract_error_text <$> fallback_error) cache_key "draft_service";
      let answering_provider := default draft_provider (rs_model response) in
      let answering_model := default model (rs_model response) in
      mret (mkDraftResult request_id (di_generation_id input) payload
              (if fallback_used then lit "fallback" else lit "provider")
              (obj [("provider", String answering_provider); ("model", String answering_model);
                    ("usage", jopt draft_usage (usage response))]%string)
              (contract_error_text <$> fallback_error)
              (service_headers answering_provider answering_model false fallback_used) (Some latency_ms))
  | inl provider_err =>
      _ ← record_provider_failure request_id (di_generation_id input) DRAFT_ROUTE DRAFT_REQUEST_TYPE
            draft_provider model (lit "ProviderError") provider_err "draft_service";
      fails (DraftProviderError provider_err)
  end.

(** ** The cache *)

Definition cached_draft (what : string) (entry : CacheEntry) : outcome DraftError ContentDraftPayload :=
  match decode_ContentDraftPayload (ce_response_payload entry) with
  | Some p => Ok p
  | None =>
      let e := serde_error (ce_response_payload entry) in
      Err (DraftContract (mkContractValidationError (lit "cached_payload_corrupt") (lit what ++ e)
             (obj [("deserialize_error", String e)]%string) (json_text (ce_response_payload entry))))
  end.
Definition draft_entry (what cache_source : string) (input : DraftInput) (request_id cache_key : str)
    (entry : CacheEntry) : LD DraftResult :=
  let model := draft_model input in
  payload ← returned (cached_draft what entry);
  latency_ms ← latency;
  _ ← record_hit request_id (di_generation_id input) DRAFT_ROUTE DRAFT_REQUEST_TYPE draft_provider model
        latency_ms cache_key
        (obj [("source", jstr "draft_service"); ("cache_hit", Bool true); ("cache_source", jstr cache_source)]%string);
  mret (mkDraftResult request_id (di_generation_id input) payload (lit "cache")
          (obj [("provider", String draft_provider); ("model", String model); ("cache_hit", Bool true)]%string)
          None (service_headers draft_provider model true false) (Some latency_ms)).
Definition draft_hit := draft_entry "Cached draft payload failed deserialization: " "content_draft_cache".
Definition draft_waited := draft_entry "Cached draft payload (waited) failed: " "content_draft_cache_inflight_wait".

(** The request id is [Uuid::new_v4()]. *)
Definition draft (request_id : str) (input : DraftInput) : LD DraftResult :=
  let cache_key := draft_cache_key input in
  serve_or_call DraftGovernance DraftCacheError (DraftRateLimited request_id (di_generation_id input))
    DRAFT_CACHE_ROUTE DRAFT_ROUTE draft_provider (draft_model input) 500 3000 request_id (di_generation_id input)
    cache_key (di_bypass_cache input) (draft_hit input request_id cache_key) (draft_waited input request_id cache_key)
    (draft_execute input request_id cache_key).
End Draft.

(** ** Lemmas: the runs of the service *)

Section DraftFacts.
Context {Env : Type} `{CaseTables} `{JsonLex} `{GardeLength} `{Sha256Hex} `{Blake2b512} `{DecimalOps}.
Context (parse_value : str -> option value) (parse_draft : str -> str + ContentDraftPayload).
Context (draft_report : ContentDraftPayload -> str) (serde_error : value -> str).
Context (service : DraftService Env).
Implicit Types s : Services Env.

(** The reply of the provider, as the contract reads it. *)
Definition draft_reply (response : CompletionResponse) : ContractValidationError + ContentDraftPayload :=
  decode_draft parse_value parse_draft draft_report (default [] (first_choice_content response)).

(** What a row of the ledger says of the answer it was written for. *)
Definition draft_row (request_id : str) (r : outcome DraftError DraftResult) (row : LedgerEntry) : Prop :=
  le_request_id row = request_id /\
  match r with
  | Ok res =>
      le_final_status row = lit "completed" /\ le_latency_ms row = numeric2 <$> dr_latency_ms res
      /\ (le_cache_status row, dr_source res) ∈ [(lit "hit", lit "cache"); (lit "miss", lit "provider"); (lit "bypass", lit "fallback")]
      /\ (forall reason, dr_fallback_error res = Some reason -> (length reason <= 100)%nat)
  | Err (DraftProviderError e) =>
      le_final_status row = lit "failed" /\ le_error_code row = Some (provider_error_text e)
      /\ (length (provider_error_text e) <= 100)%nat
  | Err _ => False
  | Panic => True
  end.

(** What became of the answer of the provider. *)
Definition drafted (request_id : str) (input : DraftInput) (ans : answer) (r : outcome DraftError DraftResult) : Prop :=
  match r with
  | Ok res => exists response, ans = inr response /\ dr_request_id res = request_id /\
      match draft_reply response with
      | inr p => dr_draft_payload res = p /\ dr_source res = lit "provider" /\ dr_fallback_error res = None
      | inl e =>
          dr_draft_payload res =
            fallback_from_interpretation (bp_title (ip_document_blueprint (di_interpretation input)))
              (bp_summary (ip_document_blueprint (di_interpretation input)))
              (ip_teacher_delivery_summary (di_interpretation input))
          /\ dr_source res = lit "fallback" /\ dr_fallback_error res = Some (contract_error_text e)
      end
  | Err e => exists err, ans = inl err /\ e = DraftProviderError err
  | Panic => True
  end.

Lemma draft_execute_run input rid key sc s r s' :
  draft_execute parse_value parse_draft draft_report service input rid key sc s = (r, s') ->
  exists ans, complete (dsv_router service) (draft_request service input) (sv_router s) = (ans, sv_router s')
    /\ drafted rid input ans r /\ appended (draft_row rid r) s s'.
Proof.
  unfold draft_execute. intros (ans & s1 & Hans & Hw1 & Hrun)%provider_then.
  apply latency_then in Hrun as (lat & s2 & [Hr2 Hw2] & Hrun). exists ans. destruct ans as [err|response].
  - apply (writes_then _ _ (Err (DraftProviderError err)) _ _ _ (writes_failure _ _ _ _ _ _ _ _ _)) in Hrun as (Hr3 & Hw3 & Hr).
    split; [congruence|]. split; [destruct Hr as [-> | ->]; [by exists err|done]|].
    apply (appended_frame_l _ s2); [congruence|]. eapply appended_weaken; [|exact Hw3].
    intros row (? & ? & ? & ?). by destruct Hr as [-> | ->].
  - unfold accept_draft in Hrun. change (decode_draft _ _ _ _) with (draft_reply response) in Hrun. unfold drafted.
    destruct (draft_reply response) as [e|p] eqn:He.
    + eapply (writes_then _ _ (Ok _)) in Hrun as (Hr4 & Hw4 & Hr); [|apply writes_book].
      split; [congruence|]. split; [destruct Hr as [-> | ->]; [exists response; by rewrite He|done]|].
      apply (appended_frame_l _ s2); [congruence|]. eapply appended_weaken; [|exact Hw4].
      intros row [(? & ? & Hst & ?) Hreason]. destruct Hr as [-> | ->]; (split; [done|]); [|done].
      cbn [dr_source dr_latency_ms dr_fallback_error]. rewrite Hst.
      split; [done|]. split; [done|]. split; [cbn; set_solver|exact Hreason].
    + eapply (writes_then _ _ (Ok _)) in Hrun as (Hr4 & Hw4 & Hr); [|apply writes_book].
      split; [congruence|]. split; [destruct Hr as [-> | ->]; [exists response; by rewrite He|done]|].
      apply (appended_frame_l _ s2); [congruence|]. eapply appended_weaken; [|exact Hw4].
      intros row [(? & ? & Hst & ?) Hreason]. destruct Hr as [-> | ->]; (split; [done|]); [|done].
      cbn [dr_source dr_latency_ms dr_fallback_error]. rewrite Hst.
      split; [done|]. split; [done|]. split; [cbn; set_solver|exact Hreason].
Qed.

(** An answer of the cache. *)
Definition drafted_by_cache (request_id : str) s s' (r : outcome DraftError DraftResult) : Prop :=
  sv_router s' = sv_router s /\
  match r with
  | Ok res => exists entry, decode_ContentDraftPayload (ce_response_payload entry) = Some (dr_draft_payload res)
                /\ dr_source res = lit "cache" /\ dr_request_id res = request_id
  | Err e => exists err, e = DraftContract err /\ code err = lit "cached_payload_corrupt" /\ rows_of s' = rows_of s
  | Panic => True
  end.
Lemma draft_entry_run what src input rid key entry s r s' :
  draft_entry serde_error service what src input rid key entry s = (r, s') ->
  drafted_by_cache rid s s' r /\ appended (draft_row rid r) s s'.
Proof.
  unfold draft_entry, cached_draft. destruct (decode_ContentDraftPayload (ce_response_payload entry)) as [p|] eqn:Hdec.
  - intros (lat & s2 & [Hr2 Hw2] & Hrun)%latency_then.
    eapply (writes_then _ _ (Ok _)) in Hrun as (Hr3 & Hw3 & Hr); [|apply writes_hit].
    split; [split; [congruence|]|].
    + destruct Hr as [-> | ->]; [by exists entry|done].
    + apply (appended_frame_l _ s2); [congruence|]. eapply appended_weaken; [|exact Hw3].
      intros row (? & ? & Hst & ?). destruct Hr as [-> | ->]; (split; [done|]); [|done].
      cbn [dr_source dr_latency_ms dr_fallback_error]. rewrite Hst.
      split; [done|]. split; [done|]. split; [set_solver|done].
  - intros [= <- <-]. split; [|by apply appended_none]. split; [done|]. by eexists.
Qed.

(** C20. Every run of the drafting service ends in one of three ways: the provider was asked once and the
    answer is its reply, repaired and decoded, or the fallback of the interpretation, or its error; or
    a stored draft is the answer and the provider was not asked; or nothing was asked and nothing
    answered, because a query failed. The ledger gets at most one row, of this request, that says
    which; and it gets none for a fallback whose reason has more than 100 characters. *)
Theorem draft_spec rid input s r s' :
  draft parse_value parse_draft draft_report serde_error service rid input s = (r, s') ->
  appended (draft_row rid r) s s' /\
  ((exists ans, complete (dsv_router service) (draft_request service input) (sv_router s) = (ans, sv_router s')
     /\ drafted rid input ans r)
   \/ drafted_by_cache rid s s' r
   \/ quiet s s' /\ (r = Panic \/ (exists e, r = Err (DraftGovernance e)) \/ (exists e, r = Err (DraftCacheError e)))).
Proof.
  unfold draft. intros Hrun. apply serve_or_call_run in Hrun as
    [(sc & s1 & s2 & [Hr1 Hw1] & Hcall & [Hr2 Hw2])|[(entry & s1 & [Hr1 Hw1] & Hserve)|[Hq Hr]]].
  - apply draft_execute_run in Hcall as (ans & Hans & Hr & Hw). split.
    + apply (appended_frame_l _ s1); [done|]. by apply (appended_frame_r _ _ s2).
    + left. exists ans. split; [congruence|done].
  - assert (drafted_by_cache rid s1 s' r /\ appended (draft_row rid r) s1 s') as [[Hrc Hr] Hw]
      by (destruct Hserve as [Hs|Hs]; by eapply draft_entry_run).
    split; [by apply (appended_frame_l _ s1)|]. right; left. split; [congruence|].
    destruct r as [res|e|]; [done| |done]. destruct Hr as (err & ? & ? & ?). exists err. repeat split; [done|done|congruence].
  - split; [destruct Hq; by apply appended_none|]. right; right. split; [done|].
    destruct Hr as [[_ (d & s1 & Hpre & Hd)] | [? | [? | -> ]]]; auto. by apply preflight_degrades in Hpre.
Qed.
End DraftFacts.

(** ** Concrete data *)

Module DraftServiceWitness.
#[export] Existing Instances plain_lex plain_case LedgerWitness.exact_decimals.
#[export] Instance char_length : GardeLength := λ s, length s.
#[export] Instance one_hash : Sha256Hex := λ _, replicate 64 97.
#[export] Instance one_digest : Blake2b512 := λ _, replicate 64 1.

(** A model that answers every prompt with a draft under the same title. *)
Definition model_draft : ContentDraftPayload := fallback_from_interpretation (lit "Pecahan") (lit "Ringkasan") (lit "Siap").
Definition reply : CompletionResponse :=
  {| choices := [{| Router.message := {| role := lit "assistant"; content := lit "{}" |}; finish_reason := None; index := 0 |}];
     usage := None; rs_model := None |}.
Definition replying : DraftService unit :=
  mkDraftService unit (new_router (λ _ e, (inr reply, e))) (lit "minimax/minimax-m3") (lit "draft") (lit "slides").
Definition fresh_services : Services unit :=
  mkServices unit CacheWitness.busy_cache (mkRL [] ∅ 1 0 []) (mkRouterState tt [] 0) LedgerWitness.empty_ledger
    LedgerWitness.no_prices [1234] [].
Definition asked (sections : list BlueprintSection) (bypass : bool) : DraftInput :=
  let p := Repair.fallback (lit "Buatkan materi pecahan") (lit "pdf") in
  mkDraftInput (lit "g")
    (p <| ip_document_blueprint := mkDocumentBlueprint (lit "Pecahan") (lit "Ringkasan") sections |>)
    (lit "pdf") None None None bypass.
Notation run rid input s := (draft (λ _, None) (λ _, inr model_draft) (λ _, []) (λ _, []) replying rid input s).

Lemma draft_spec_witness :
  appended (draft_row (lit "r1") (run (lit "r1") (asked [] false) fresh_services).1) fresh_services
    (run (lit "r1") (asked [] false) fresh_services).2
  /\ length (rows_of (run (lit "r1") (asked [] false) fresh_services).2) = 1%nat.
Proof.
  split; [|vm_compute; reflexivity].
  exact (proj1 (draft_spec (λ _, None) (λ _, inr model_draft) (λ _, []) (λ _, []) replying (lit "r1") (asked [] false)
    fresh_services (run (lit "r1") (asked [] false) fresh_services).1 (run (lit "r1") (asked [] false) fresh_services).2
    (surjective_pairing _))).
Defined.

(** The sections of the interpretation are not part of the key: a request for other sections gets the
    stored draft. *)
Definition source_of (r : outcome DraftError DraftResult * Services unit) : option str := dr_source <$> ok_value r.1.
Definition two_sections : list BlueprintSection :=
  [mkBlueprintSection (lit "Satu") (lit "p") [] (lit "short"); mkBlueprintSection (lit "Dua") (lit "p") [] (lit "short")].
Example other_sections_same_draft :
  source_of (run (lit "r1") (asked [] false) fresh_services) = Some (lit "provider")
  /\ source_of (run (lit "r2") (asked two_sections false) (run (lit "r1") (asked [] false) fresh_services).2)
     = Some (lit "cache").
Proof. vm_compute. split; reflexivity. Qed.

(** [bypass_cache] skips the lookup, not the wait: where another session holds the lock of the key, the
    stored draft is the answer all the same. *)
Definition held_elsewhere (s : Services unit) : Services unit :=
  let c := sv_cache s in
  let lock := build_lock_id DRAFT_CACHE_ROUTE (draft_cache_key replying (asked [] true)) in
  s <| sv_cache := (c <| advisory := <[lock := (99, 1)]> (advisory c) |>) |>.
Example bypass_waits_and_serves :
  source_of (run (lit "r2") (asked [] true) (held_elsewhere (run (lit "r1") (asked [] false) fresh_services).2))
  = Some (lit "cache").
Proof. vm_compute. reflexivity. Qed.
End DraftServiceWitness.
