(* ===== verification/StepAdapters.v ===== *)
(** * The steps of the pipeline (src/src/llm/step_adapters.rs)

    The adapters read the generation, call an LLM service, and write what it answers. A service is a
    function from its input to its answer; [gateway_steps] puts the adapters, the renderer client and
    the publication together to the steps the worker runs. *)

From stdpp Require Import base gmap list option strings fin_maps relations.
From Stdlib Require Import ZArith Lia.
From S2P Require Import Prelude RustStr Json Canon Store Effects Samples Lifecycle Standards Interpretation Repair AuditTrail Cache Decision Taxonomy GenerationSpec Workflow Webhook Ledger Router LlmService InterpretService Delivery RespondService ContentDraft DraftService Queue StateM Storage Publication PythonClient.
#[local] Open Scope Z_scope.

(** ** The services in a state *)

Section Services.
Context {Env : Type} `{CaseTables} `{Regexes} `{UnicodeClasses} `{JsonLex} `{SerdeJson} `{GardeLength}.
Context `{Sha256Hex} `{Blake2b512} `{DecimalOps}.
Context (serde_error : value -> str) (request_id : str) (sv : Services Env).

Definition interpreting (garde_report : InterpretationPayload -> str) (service : InterpretService Env) :
    InterpretInput -> outcome InterpretError InterpretResult := λ input,
  (InterpretService.interpret garde_report serde_error service request_id input sv).1.
Definition drafting (parse_value : str -> option value) (parse_draft : str -> str + ContentDraftPayload)
    (draft_report : ContentDraftPayload -> str) (service : DraftService Env) :
    DraftInput -> outcome DraftError DraftResult := λ input,
  (DraftService.draft parse_value parse_draft draft_report serde_error service request_id input sv).1.
Definition responding (parse_delivery : str -> str + DeliveryResponsePayload)
    (delivery_report : DeliveryResponsePayload -> str) (to_rfc3339 : Z -> str) (service : RespondService Env) :
    RespondInput -> outcome RespondError RespondResult := λ input,
  (RespondService.respond parse_delivery delivery_report serde_error to_rfc3339 service request_id input sv).1.
End Services.

(** ** Reading the generation *)

(** The columns of [media_generations] (src/migrations). *)
Definition GENERATION_COLUMNS : list string :=
  ["id"; "generated_from_id"; "is_regeneration"; "teacher_id"; "subject_id"; "sub_subject_id"; "topic_id"; "content_id";
   "recommended_project_id"; "raw_prompt"; "request_fingerprint"; "active_duplicate_key"; "preferred_output_type";
   "resolved_output_type"; "status"; "llm_provider"; "llm_model"; "generator_provider"; "generator_model";
   "interpretation_payload"; "interpretation_audit_payload"; "generation_spec_payload"; "decision_payload";
   "orchestration_audit_payload"; "delivery_payload"; "generator_service_response"; "storage_path"; "file_url";
   "thumbnail_url"; "mime_type"; "error_code"; "error_message"; "created_at"; "updated_at"; "generation_job_id";
   "generation_status"; "s3_object_key"; "presigned_download_url"; "presigned_url_expires_at"; "generation_error_code";
   "generation_error_message"; "clarification_state"; "clarified_at"; "clarification_skipped"]%string.
Definition unknown_column (columns : list string) : option string :=
  List.find (λ c, negb (existsb (String.eqb c) GENERATION_COLUMNS)) columns.

(** [fetch_one] of the named columns; [f] decodes the row. *)
Definition fetch_one {A} (columns : list string) (f : MediaGeneration -> outcome db_error A) (i : uuid) : statement A :=
  λ _ db,
    match unknown_column columns with
    | Some c => Err (UndefinedColumn c)
    | None =>
        match db !! i with
        | None => Err RowNotFound
        | Some r => outcome_bind (f r) (λ a, Ok (a, db))
        end
    end.

(** The tables of subjects, and [SELECT id, title FROM t WHERE id = $1] on the tables of entities. *)
Class LookupTables := {
  subject_row : Z -> option (str * option str);
  sub_subject_row : Z -> option (str * option str);
  entity_row : string -> Z -> option (Z * str)
}.
Definition lookup_row {A} (o : option A) : M db_error (option A) := execute (λ _ db, Ok (o, db)).

(** A UUID column read into an [Option<i64>]: only NULL has the type. *)
Definition uuid_as_i64 (o : option uuid) : outcome db_error (option Z) :=
  match o with None => Ok None | Some _ => Err ColumnDecode end.

Definition dash : str := lit " " ++ [8212] ++ lit " ".
Definition step_provider {E A} (step : string) (what : E -> str) (r : outcome E A) : outcome WorkflowError A :=
  map_err (λ e, StepProvider (lit step ++ lit ": " ++ what e)) r.

Section Adapters.
Context `{UuidText} `{UuidErrorText} `{UuidPrint} `{DbErrorText} `{LookupTables}.
Context `{CaseTables} `{JsonPrint} `{HashOrder} `{Rfc3339Millis} `{JsonLex}.
(** The services, each in the state it has when it is called, and the text of serde's error. *)
Context (interpret_service : InterpretInput -> outcome InterpretError InterpretResult).
Context (draft_service : DraftInput -> outcome DraftError DraftResult).
Context (respond_service : RespondInput -> outcome RespondError RespondResult).
Context (serde_error : value -> str).

(** ** Interpretation *)

Definition named_context (row : Z -> option (str * option str)) (id : option Z) : M WorkflowError (option NamedContext) :=
  match id with
  | Some sid =>
      ctx ← mapping DatabaseErr (lookup_row (row sid));
      mret ((λ '(name, slug), mkNamedContext sid name slug) <$> ctx)
  | None => mret None
  end.
Definition interpret_error (e : InterpretError) : str :=
  match e with
  | InterpretRateLimited _ _ => lit "rate limited by governance" ++ dash ++ lit "rate limited by governance policy"
  | InterpretProviderError pe => lit "provider error" ++ dash ++ provider_error_text pe
  | InterpretCacheError ce => lit "cache error" ++ dash ++ db_error_text ce
  | InterpretGovernance ge => lit "governance error" ++ dash ++ db_error_text ge
  | InterpretContract ce => lit "contract error" ++ dash ++ contract_error_text ce
  end.
Definition set_interpretation (payload : value) (provider model : str) (r : MediaGeneration) : MediaGeneration :=
  r <| interpretation_payload := Some payload |> <| llm_provider := Some provider |> <| llm_model := Some model |>.

Definition interpret_step (generation_id : str) : M WorkflowError value :=
  gen_uuid ← lift (parse_uuid generation_id);
  '(raw_prompt, preferred_output_type, subject_id, sub_subject_id) ← mapping DatabaseErr (execute (fetch_one
    ["raw_prompt"; "preferred_output_type"; "subject_id"; "sub_subject_id"]%string
    (λ r, Ok (raw_prompt r, preferred_output_type r, subject_id r, sub_subject_id r)) gen_uuid));
  subject_context ← named_context subject_row subject_id;
  sub_subject_context ← named_context sub_subject_row sub_subject_id;
  let input := mkInterpretInput generation_id raw_prompt preferred_output_type subject_context sub_subject_context None None in
  result ← lift (step_provider "interpret" interpret_error (interpret_service input));
  let payload_value := encode_InterpretationPayload (ir_interpretation_payload result) in
  _ ← mapping DatabaseErr (execute (update_by_id
        (set_interpretation payload_value (ir_llm_provider result) (ir_llm_model result)) gen_uuid));
  mret payload_value.

(** ** Drafting *)

Definition draft_error (e : DraftError) : str :=
  match e with
  | DraftRateLimited _ _ => lit "rate limited by governance" ++ dash ++ lit "rate limited by governance policy"
  | DraftProviderError pe => lit "provider error" ++ dash ++ provider_error_text pe
  | DraftCacheError ce => lit "cache error" ++ dash ++ db_error_text ce
  | DraftGovernance ge => lit "governance error" ++ dash ++ db_error_text ge
  | DraftContract ce => lit "contract error" ++ dash ++ contract_error_text ce
  end.
(** The envelope of a draft, and the bare payload the step answers with. *)
Definition draft_envelope (result : DraftResult) : value :=
  obj [("payload", encode_ContentDraftPayload (dr_draft_payload result)); ("source", String (dr_source result));
       ("adapter_metadata", dr_adapter_metadata result)]%string.

Definition draft_step (generation_id : str) : M WorkflowError value :=
  gen_uuid ← lift (parse_uuid generation_id);
  '(stored, resolved) ← mapping DatabaseErr (execute (fetch_one
    ["interpretation_payload"; "resolved_output_type"]%string
    (λ r, Ok (interpretation_payload r, resolved_output_type r)) gen_uuid));
  match stored with
  | None => throw (StepFailed (lit "draft") (lit "interpretation_payload is NULL" ++ dash ++ lit "interpret step must run first"))
  | Some interpretation_value =>
      let resolved_output_type := default (lit "pdf") resolved in
      match decode_InterpretationPayload interpretation_value with
      | None => throw (StepFailed (lit "draft")
                  (lit "failed to deserialize interpretation_payload: " ++ serde_error interpretation_value))
      | Some interpretation =>
          let input := mkDraftInput generation_id interpretation resolved_output_type None None None true in
          result ← lift (step_provider "draft" draft_error (draft_service input));
          let draft_value := encode_ContentDraftPayload (dr_draft_payload result) in
          _ ← mapping (λ e, StepFailed (lit "draft") (lit "failed to resolve decision with draft payload: "
                 ++ decision_error_text e))
                (resolve generation_id interpretation_value (Some resolved_output_type) (Some (draft_envelope result)));
          mret draft_value
      end
  end.

(** ** Delivery *)

Definition respond_error (e : RespondError) : str :=
  match e with
  | RespondRateLimited _ _ => lit "rate limited by governance" ++ dash ++ lit "rate limited by governance policy"
  | RespondProviderError pe => lit "provider error" ++ dash ++ provider_error_text pe
  | RespondCacheError ce => lit "cache error" ++ dash ++ db_error_text ce
  | RespondGovernance ge => lit "governance error" ++ dash ++ db_error_text ge
  | RespondContract ce => lit "contract error" ++ dash ++ contract_error_text ce
  end.

Record ComposeRow := mkComposeRow {
  co_title : option str;
  co_resolved_output_type : option str;
  co_file_url : option str;
  co_mime_type : option str;
  co_thumbnail_url : option str;
  co_filename : option str;
  co_preview_summary : option str;
  co_topic_id : option Z;
  co_content_id : option Z;
  co_recommended_project_id : option Z
}.
(** The columns the statement names; there is no column to read [filename] from. *)
Definition COMPOSE_COLUMNS : list string :=
  ["interpretation_payload"; "resolved_output_type"; "file_url"; "mime_type"; "thumbnail_url"; "filename";
   "topic_id"; "content_id"; "recommended_project_id"]%string.
Definition compose_row (r : MediaGeneration) : outcome db_error ComposeRow :=
  let blueprint k := v ← interpretation_payload r; b ← get (lit "document_blueprint") v; field_text k b in
  outcome_bind (uuid_as_i64 (topic_id r)) (λ topic,
  outcome_bind (uuid_as_i64 (content_id r)) (λ content,
    Ok (mkComposeRow (blueprint "title"%string) (resolved_output_type r) (file_url r) (mime_type r) (thumbnail_url r)
          None (blueprint "summary"%string) topic content (recommended_project_id r)))).
Definition entity_node (table : string) (id : option Z) : M WorkflowError (option EntityNode) :=
  match id with
  | Some tid =>
      t ← mapping DatabaseErr (lookup_row (entity_row table tid));
      mret ((λ '(id, title), mkEntityNode (z_to_string id) title) <$> t)
  | None => mret None
  end.
Definition set_delivery (payload : value) (r : MediaGeneration) : MediaGeneration :=
  r <| delivery_payload := Some payload |>.

Definition compose_step (generation_id : str) : M WorkflowError value :=
  gen_uuid ← lift (parse_uuid generation_id);
  row ← mapping DatabaseErr (execute (fetch_one COMPOSE_COLUMNS compose_row gen_uuid));
  let title := default (lit "Untitled") (co_title row) in
  let resolved_output_type := default (lit "pdf") (co_resolved_output_type row) in
  topic ← entity_node "topics" (co_topic_id row);
  content ← entity_node "contents" (co_content_id row);
  recommended_project ← entity_node "recommended_projects" (co_recommended_project_id row);
  let input := mkRespondInput generation_id title (default [] (co_preview_summary row))
    (mkRespondArtifact resolved_output_type (default [] (co_file_url row)) (default [] (co_mime_type row))
       (co_thumbnail_url row) (co_filename row))
    (mkRespondPublication topic content recommended_project) None None in
  result ← lift (step_provider "compose" respond_error (respond_service input));
  let delivery_value := encode_DeliveryResponsePayload (rr_delivery_payload result) in
  _ ← mapping DatabaseErr (execute (update_by_id (set_delivery delivery_value) gen_uuid));
  mret delivery_value.
End Adapters.

(** ** The steps the worker runs *)

Section Gateway.
Context `{UuidText} `{UuidErrorText} `{UuidPrint} `{DbErrorText} `{LookupTables}.
Context `{CaseTables} `{JsonPrint} `{HashOrder} `{Rfc3339Millis} `{JsonLex}.
Context `{HmacSha256Hex} `{AlphanumericTable} `{Presigning} `{Users}.

(** [w] is the world the publication finds, [request_id] the id the client draws. *)
Record Gateway := mkGateway {
  gw_interpret : InterpretInput -> outcome InterpretError InterpretResult;
  gw_draft : DraftInput -> outcome DraftError DraftResult;
  gw_respond : RespondInput -> outcome RespondError RespondResult;
  gw_serde_error : value -> str;
  gw_client : PythonMediaGeneratorClient;
  gw_send : JobRequest -> job_reply;
  gw_request_id : uuid;
  gw_publication : MediaPublicationService;
  gw_world : World
}.
Definition gateway_steps (gw : Gateway) : Steps := {|
  Workflow.interpret := interpret_step (gw_interpret gw);
  Workflow.draft := draft_step (gw_draft gw) (gw_serde_error gw);
  Workflow.submit_job := submit_step (gw_client gw) (gw_send gw) (gw_request_id gw);
  Workflow.publish := publish_step (gw_publication gw) (gw_world gw);
  Workflow.compose := compose_step (gw_respond gw)
|}.
End Gateway.

(** ** Lemmas: what the steps keep *)

Lemma fetch_one_reads {A} columns (f : MediaGeneration -> outcome db_error A) i now db a db' :
  fetch_one columns f i now db = Ok (a, db') -> db' = db.
Proof.
  unfold fetch_one. destruct (unknown_column columns); [done|]. destruct (db !! i) as [r|]; [|done].
  by destruct (f r); intros [= _ <-].
Qed.

Section StepFacts.
Context `{UuidText} `{UuidErrorText} `{UuidPrint} `{DbErrorText} `{LookupTables}.
Context `{CaseTables} `{JsonPrint} `{HashOrder} `{Rfc3339Millis} `{JsonLex}.
Context (interpret_service : InterpretInput -> outcome InterpretError InterpretResult).
Context (draft_service : DraftInput -> outcome DraftError DraftResult).
Context (respond_service : RespondInput -> outcome RespondError RespondResult).
Context (serde_error : value -> str).

Lemma fetch_one_keeps R `{!PreOrder R} {A} columns (f : MediaGeneration -> outcome db_error A) i :
  preserves R (execute (fetch_one columns f i)).
Proof. apply preserves_execute; [done|]. intros now db a db' ->%fetch_one_reads. reflexivity. Qed.
Lemma lookup_row_keeps R `{!PreOrder R} {A} (o : option A) : preserves R (lookup_row o).
Proof. apply preserves_execute; [done|]. intros now db a db' [= _ <-]. reflexivity. Qed.
Lemma named_context_keeps R `{!PreOrder R} row i : preserves R (named_context row i).
Proof.
  unfold named_context. destruct i; [|by apply preserves_ret]. apply preserves_bind; [done| |].
  - apply preserves_mapping, lookup_row_keeps. done.
  - intros o. by apply preserves_ret.
Qed.

Lemma update_advances f i :
  (forall r, status (f r) = status r) -> preserves advances (execute (update_by_id f i)).
Proof.
  intros Hf. apply preserves_execute; [typeclasses eauto|]. intros now db o db' Hu. by eapply update_keeps_status.
Qed.

Lemma interpret_step_keeps g : preserves advances (interpret_step interpret_service g).
Proof.
  unfold interpret_step. repeat preserves_step;
    eauto using fetch_one_keeps, named_context_keeps, preserves_ret with preserves typeclass_instances.
  by apply update_advances.
Qed.

Lemma draft_step_keeps g : preserves advances (draft_step draft_service serde_error g).
Proof.
  unfold draft_step. repeat preserves_step;
    eauto using fetch_one_keeps, resolve_keeps, preserves_ret, preserves_throw with preserves typeclass_instances.
Qed.

(** Composing a delivery reads a column that no migration creates. *)
Lemma wp_compose_step g s :
  wp (compose_step respond_service g) (λ r s', committed s' = committed s /\
    (r = Err (Workflow.InvalidUuid (uuid_error_text g)) \/ r = Err (DatabaseErr Unavailable) \/
     r = Err (DatabaseErr (UndefinedColumn "filename")))) s.
Proof.
  unfold compose_step, parse_uuid. wp_step. wp_step. destruct (parse_uuid_str g); [|by auto].
  wp_step. wp_step. wp_step; [by same_data_simpl; auto|]. same_data_simpl. auto.
Qed.
End StepFacts.

(** The contracts of the pipeline hold of the steps it runs. *)
Section GatewayFacts.
Context `{UuidText} `{UuidErrorText} `{UuidPrintLaws} `{DbErrorText} `{LookupTables}.
Context `{CaseTables} `{JsonPrint} `{HashOrder} `{Rfc3339Millis} `{JsonLex}.
Context `{HmacSha256Hex} `{AlphanumericTable} `{Presigning} `{Users}.
Context (gw : Gateway).

#[export] Instance gateway_steps_preserve : StepsPreserve advances (gateway_steps gw).
Proof.
  split; intros; cbn; [apply interpret_step_keeps|apply draft_step_keeps|].
  apply submit_step_keeps. typeclasses eauto.
Qed.

Context (generator : forall artifact mime, thumbnail_gen (gw_publication gw) artifact mime <> Panic).
Lemma gateway_publication_preserves : PublicationPreserves advances (gateway_steps gw).
Proof.
  split; intros; cbn; [by apply publish_step_keeps|].
  apply preserves_wp. intros s. eapply wp_mono; [apply wp_compose_step|]. intros r s' [-> _]. reflexivity.
Qed.
End GatewayFacts.

(** ** Lemmas: the checkpoint of the classification *)

(** [has_classification] does not hold of the row. *)
Definition needs_classification `{JsonPrint} (r : MediaGeneration) : Prop :=
  classified_source r = None \/ classified_source r = Some (Some (lit "interpretation_only")).
(** The decision says that it was taken without a draft. *)
Definition without_draft `{JsonPrint} (r : MediaGeneration) : Prop :=
  (v ← decision_payload r; draft_meta ← get (lit "content_draft") v; field_text "source" draft_meta)
    = Some (lit "interpretation_only").

Lemma without_draft_needs `{JsonPrint} r : without_draft r -> needs_classification r.
Proof.
  unfold without_draft, needs_classification, classified_source. intros ->. destruct (_ && _ && _); auto.
Qed.

(** A draft has no field [source]. *)
Lemma draft_without_source p : get (lit "source") (encode_ContentDraftPayload p) = None.
Proof.
  unfold encode_ContentDraftPayload, ContentDraftPayload_entries, struct_value.
  destruct (cd_slides p), (cd_presentation_title p), (cd_theme_suggestion p); reflexivity.
Qed.

Lemma wp_conj {E A} (m : M E A) (Q Q' : outcome E A -> St -> Prop) s :
  wp m Q s -> wp m Q' s -> wp m (λ r s', Q r s' /\ Q' r s') s.
Proof. by split. Qed.

Section CheckpointFacts.
Context `{UuidText} `{UuidErrorText} `{UuidPrint} `{DbErrorText} `{LookupTables}.
Context `{CaseTables} `{JsonPrint} `{HashOrder} `{Rfc3339Millis} `{JsonLex} `{Rfc3339}.

Lemma wp_has_classification g i row s :
  parse_uuid_str g = Some i -> committed s !! i = Some row -> needs_classification row ->
  wp (has_classification g) (λ r s', committed s' = committed s /\
    match r with Ok b => b = false | Err _ => True | Panic => False end) s.
Proof.
  intros Hi Hr Hn. unfold has_classification, fetch, select_by_id, parse_uuid. rewrite Hi.
  repeat wp_step; simpl; [by same_data_simpl|]. rewrite Hr. simpl. same_data_simpl.
  destruct Hn as [-> | ->]; simpl; wp_step; by same_data_simpl.
Qed.

(** What [resolve] says of a draft without a source. *)
Lemma wp_resolve_bare g interpretation pref draft i row s :
  get (lit "source") draft = None -> parse_uuid_str g = Some i -> committed s !! i = Some row ->
  wp (resolve g interpretation pref (Some draft)) (λ r s',
    match r with
    | Ok _ => exists row', committed s' !! i = Some row' /\ without_draft row'
    | _ => True
    end) s.
Proof.
  intros Hd Hi Hr. unfold resolve. rewrite Hi. destruct (negb (is_object interpretation)); [done|].
  wp_step. wp_step. wp_step. wp_step. destruct (decide_output_type _ _) as [decision|]; [|done]. simpl.
  wp_step. wp_step. apply wp_execute. intros s1 Hs1. split; [done|].
  unfold update_by_id. rewrite Hr. destruct (row_ok _); simpl; [|done]. wp_step. simpl.
  eexists. rewrite lookup_insert_eq. split; [reflexivity|].
  unfold without_draft. cbn [decision_payload resolved_row update].
  change (decision_payload _) with (Some (decision_value decision (Some draft))). cbn [mbind option_bind].
  unfold decision_value. rewrite get_obj. unfold content_draft_meta. rewrite Hd. reflexivity.
Qed.

Lemma draft_step_answers draft_service serde_error g s :
  wp (draft_step draft_service serde_error g) (λ r _,
    match r with Ok v => get (lit "source") v = None | _ => True end) s.
Proof.
  unfold draft_step. wp_step. eapply wp_mono; [apply wp_true|]. intros [i|e|] s1 _; [|done..].
  wp_step. eapply wp_mono; [apply wp_true|]. intros [[stored resolved]|e|] s2 _; [|done..].
  destruct stored as [v|]; [|by wp_step]. destruct (decode_InterpretationPayload v); [|by wp_step].
  wp_step. eapply wp_mono; [apply wp_true|]. intros [result|e|] s3 _; [|done..].
  wp_step. eapply wp_mono; [apply wp_true|]. intros [u|e|] s4 _; [|done..].
  wp_step. apply draft_without_source.
Qed.

(** An audit transition leaves the columns of the classification alone. *)
Lemma wp_audit_transition g to ctx att jc i row s :
  committed s !! i = Some row ->
  wp (audit_transition g to ctx att jc) (λ r s',
    match r with
    | Ok _ => exists row', committed s' !! i = Some row' /\ classified_source row' = classified_source row /\
        decision_payload row' = decision_payload row
    | _ => True
    end) s.
Proof.
  intros Hr. unfold audit_transition. wp_step. wp_step. eapply wp_mono; [apply wp_transition|].
  intros [p|e|] s1; simpl; [|done..]. intros (j & x & from & now & _ & Hj & _ & _ & Hdb). wp_step. rewrite Hdb.
  destruct (decide (j = i)) as [->|Hne].
  - rewrite Hr in Hj. simplify_eq. eexists. rewrite lookup_insert_eq. split; [reflexivity|]. by split.
  - exists row. by rewrite lookup_insert_ne.
Qed.

(** The row is there after a step that keeps [advances]. *)
Lemma wp_advances {E A} (m : M E A) i row s :
  preserves advances m -> committed s !! i = Some row ->
  wp m (λ _ s', exists row', committed s' !! i = Some row') s.
Proof. intros Hm Hr. destruct (Hm s i row Hr) as (r' & Hr' & _). by exists r'. Qed.

Lemma wp_status_before g c i row s :
  committed s !! i = Some row -> wp (status_before g c) (λ _ s', committed s' !! i = Some row) s.
Proof.
  intros Hr. unfold status_before. wp_step. eapply wp_mono; [apply wp_get_status|].
  intros [st|e|] s1 [Hdb _]; rewrite <- Hdb in Hr; [by wp_step|done..].
Qed.
Lemma wp_get_decision_context g i row s :
  committed s !! i = Some row -> wp (get_decision_context g) (λ _ s', committed s' !! i = Some row) s.
Proof.
  intros Hr. unfold get_decision_context, fetch, parse_uuid, select_by_id.
  destruct (parse_uuid_str g); [|by repeat wp_step]. repeat wp_step; simpl; by same_data_simpl.
Qed.

(** A transition when it is due. *)
Lemma wp_transition_if (before : bool) g to ctx att jc i row s :
  committed s !! i = Some row ->
  wp (if before then audit_transition g to ctx att jc else mret ()) (λ r s',
    match r with
    | Ok _ => exists row', committed s' !! i = Some row' /\ classified_source row' = classified_source row /\
        decision_payload row' = decision_payload row
    | _ => True
    end) s.
Proof. intros Hr. destruct before; [by apply wp_audit_transition|]. wp_step. by exists row. Qed.

(** A draft step whose answer has no source leaves the classification to be done again. *)
Lemma wp_ensure_classified steps `{!StepsPreserve advances steps} g att jc i row s :
  (forall s, wp (Workflow.draft steps g) (λ r _, match r with Ok v => get (lit "source") v = None | _ => True end) s) ->
  parse_uuid_str g = Some i -> committed s !! i = Some row -> needs_classification row ->
  wp (ensure_classified steps g att jc) (λ r s',
    match r with
    | Ok _ => exists row', committed s' !! i = Some row' /\ needs_classification row'
    | _ => True
    end) s.
Proof.
  intros Hdraft Hi Hr Hn. unfold ensure_classified.
  wp_step. eapply wp_mono; [by eapply wp_status_before|]. intros [b|e|] s1 Hr1; [|done..].
  wp_step. eapply wp_mono; [by apply wp_transition_if|]. intros [u|e|] s2; [|done..].
  intros (row2 & Hr2 & Hc2 & _). assert (Hn2 : needs_classification row2) by (unfold needs_classification; by rewrite Hc2).
  wp_step. eapply wp_mono; [by eapply wp_has_classification|]. intros [c|e|] s3 [Hdb3 Hc]; [|done..]. subst c.
  rewrite <- Hdb3 in Hr2. wp_step. wp_step.
  eapply wp_mono; [eapply wp_advances; [apply interpret_keeps|done]|]. intros [ip|e|] s4 [row4 Hr4]; [|done..].
  wp_step. eapply wp_mono; [eapply wp_advances; [apply (fetch_keeps advances)|done]|]. intros [pref|e|] s5 [row5 Hr5]; [|done..].
  wp_step. wp_step. eapply wp_mono; [eapply wp_advances; [apply (resolve_keeps advances)|done]|].
  intros [d|e|] s6 [row6 Hr6]; [|done..]. simpl. wp_step.
  eapply wp_mono; [apply wp_conj; [eapply wp_advances; [apply draft_keeps|done]|apply Hdraft]|].
  intros [dr|e|] s7 [[row7 Hr7] Hsrc]; [|done..].
  wp_step. wp_step. eapply wp_mono; [by eapply wp_resolve_bare|]. intros [d'|e|] s8; [|done..].
  intros (row8 & Hr8 & Hw). simpl. wp_step. wp_step.
  eapply wp_mono; [by eapply wp_status_before|]. intros [b'|e|] s9 Hr9; [|done..].
  destruct b'; [|wp_step; exists row8; split; [done|by apply without_draft_needs]].
  wp_step. eapply wp_mono; [by eapply wp_get_decision_context|]. intros [dc|e|] s10 Hr10; [|done..].
  eapply wp_mono; [by apply wp_audit_transition|]. intros [u'|e|] s11; [|done..].
  intros (row11 & Hr11 & Hc11 & _). exists row11. split; [done|]. unfold needs_classification.
  rewrite Hc11. by apply without_draft_needs.
Qed.
End CheckpointFacts.

(** ** Lemmas: what passes from step to step *)

Section HandOver.
Context `{UuidText} `{UuidErrorText} `{UuidPrint} `{DbErrorText} `{LookupTables}.
Context `{CaseTables} `{JsonPrint} `{HashOrder} `{Rfc3339Millis} `{JsonLex}.

(** The interpretation of the service is what is stored and answered, and what the drafting step will
    decode, up to what the columns of JSON can hold. *)
Lemma wp_interpret_step interpret_service g s :
  wp (interpret_step interpret_service g) (λ r s',
    match r with
    | Ok v => exists i input result, parse_uuid_str g = Some i /\ ii_generation_id input = g /\
        interpret_service input = Ok result /\ v = encode_InterpretationPayload (ir_interpretation_payload result) /\
        (forall row', committed s' !! i = Some row' -> interpretation_payload row' = Some v) /\
        (payload_i32 (ir_interpretation_payload result) = true ->
         decode_InterpretationPayload v = Some (settle_InterpretationPayload (ir_interpretation_payload result)))
    | _ => True
    end) s.
Proof.
  unfold interpret_step, parse_uuid. wp_step. wp_step. destruct (parse_uuid_str g) as [i|] eqn:Hi; [|done].
  wp_step. eapply wp_mono; [apply wp_true|]. intros [[[[prompt pref] sid] ssid]|e|] s1 _; [|done..].
  wp_step. eapply wp_mono; [apply wp_true|]. intros [sc|e|] s2 _; [|done..].
  wp_step. eapply wp_mono; [apply wp_true|]. intros [ssc|e|] s3 _; [|done..].
  wp_step. wp_step. unfold step_provider.
  destruct (interpret_service _) as [result|e|] eqn:Hs; simpl; [|done..].
  wp_step. wp_step. apply wp_execute. intros s4 _. split; [done|].
  destruct (update_by_id _ _ _ _) as [[o db']|e|] eqn:Hu; simpl; [|done..]. wp_step. simpl.
  eexists i, _, result. split; [done|]. split; [|split; [exact Hs|split; [done|split]]]; [done| |].
  - apply update_by_id_Ok in Hu as [(Hn & _ & ->)|(r & Hr & _ & _ & ->)]; intros row'; [by rewrite Hn|].
    rewrite lookup_insert_eq. by intros [= <-].
  - intros Hp. by apply payload_decodes.
Qed.
End HandOver.

(** ** Properties *)

(** C11. The pipeline with the steps the worker runs, and whatever the services, the renderer, the buckets
    and the database answer: a status only moves along the transition matrix, no row is lost, and a
    finished generation stays finished. *)
Theorem gateway_moves_forward `{UuidText} `{UuidErrorText} `{UuidPrintLaws} `{DbErrorText} `{LookupTables}
    `{CaseTables} `{JsonPrint} `{HashOrder} `{Rfc3339Millis} `{JsonLex} `{Rfc3339} `{HmacSha256Hex}
    `{AlphanumericTable} `{Presigning} `{Users} gw g job att jc s i row
    (generator : forall artifact mime, thumbnail_gen (gw_publication gw) artifact mime <> Panic)
    (Hrow : committed s !! i = Some row) :
  exists row', committed (process (gateway_steps gw) g job att jc s).2 !! i = Some row' /\
    (status row' = status row \/
     exists a b, status row = as_str a /\ status row' = as_str b /\ rtc Lifecycle.step a b) /\
    (forall st, status row = as_str st -> is_terminal st = true -> status row' = status row).
Proof.
  pose proof (gateway_publication_preserves gw generator) as Hpub.
  pose proof (process_keeps (gateway_steps gw) g job att jc s) as Hadv.
  destruct (Hadv i row Hrow) as (row' & Hrow' & Hm).
  exists row'. split; [done|]. split; [destruct Hm as [->|(a & b & ? & ? & ?)]; eauto 6|].
  intros st Hst Hterm. destruct (advances_terminal _ _ _ _ _ Hadv Hrow Hst Hterm) as (r & Hr & Hsr). congruence.
Qed.

(** The checkpoint of the classification never holds with the steps the worker runs: the drafting step
    answers with the bare draft, the pipeline resolves the decision again with it, and the decision then
    says that there was no draft. When a classification that asked the models has succeeded, the next run
    of the same generation finds it missing and asks them again. *)
Lemma classification_is_repeated `{UuidText} `{UuidErrorText} `{UuidPrint} `{DbErrorText} `{LookupTables}
    `{CaseTables} `{JsonPrint} `{HashOrder} `{Rfc3339Millis} `{JsonLex} `{Rfc3339} `{HmacSha256Hex}
    `{AlphanumericTable} `{Presigning} `{Users} gw g att jc s s' i row
    (Hi : parse_uuid_str g = Some i) (Hrow : committed s !! i = Some row) (Hn : needs_classification row)
    (Hrun : ensure_classified (gateway_steps gw) g att jc s = (Ok (), s')) :
  exists row', committed s' !! i = Some row' /\ needs_classification row' /\
    forall s2, committed s2 = committed s' ->
      match (has_classification g s2).1 with Ok b => b = false | Err _ => True | Panic => False end.
Proof.
  destruct (wp_intro _ _ _ _ _ (wp_ensure_classified (gateway_steps gw) g att jc i row s
    (draft_step_answers _ _ g) Hi Hrow Hn) Hrun) as (row' & Hr' & Hn').
  exists row'. split; [done|]. split; [done|]. intros s2 Hs2. rewrite <- Hs2 in Hr'.
  apply (wp_has_classification g i row' s2 Hi Hr' Hn').
Qed.

(** A generation without a delivery payload cannot be completed by the pipeline: composing the delivery
    reads a column that does not exist, so the step fails before the delivery service is called, and the
    completion fails with it, changing nothing. *)
Lemma undelivered_never_completed `{UuidText} `{UuidErrorText} `{UuidPrint} `{DbErrorText} `{LookupTables}
    `{CaseTables} `{JsonPrint} `{HashOrder} `{Rfc3339Millis} `{JsonLex} `{Rfc3339} `{HmacSha256Hex}
    `{AlphanumericTable} `{Presigning} `{Users} gw g att jc s i row
    (Hi : parse_uuid_str g = Some i) (Hrow : committed s !! i = Some row) (Hd : delivery_payload row = None) :
  (exists e, (compose_step (gw_respond gw) g s).1 = Err e) /\
  committed (ensure_completed (gateway_steps gw) g att jc s).2 = committed s /\
  exists e, (ensure_completed (gateway_steps gw) g att jc s).1 = Err e.
Proof.
  split.
  - destruct (wp_compose_step (gw_respond gw) g s) as (_ & [-> | [-> | ->]]); eauto.
  - assert (wp (ensure_completed (gateway_steps gw) g att jc) (λ r s', committed s' = committed s /\ exists e, r = Err e) s)
      as Hwp; [|exact Hwp].
    unfold ensure_completed, has_final_delivery_payload, fetch, select_by_id, parse_uuid. rewrite Hi.
    repeat wp_step; simpl; [by same_data_simpl; eauto|]. rewrite Hrow. simpl. rewrite Hd. wp_step.
    eapply wp_mono; [apply wp_compose_step|]. intros r s2 [Hdb Hr]. same_data_simpl.
    destruct Hr as [-> | [-> | ->]]; (split; [|by eexists]); rewrite Hdb; by same_data_simpl.
Qed.

(** ** Witnesses *)

Module GatewayWitness.
Import StorageWitness PublicationWitness ClientWitness DecisionWitness SpecWitness.
#[local] Existing Instances decimal_uuid decimal_uuid_error padded_uuid no_letters no_expiry everyone plain_text.
#[local] Existing Instances plain_case no_print listed_order millis decimal_time plain_lex plain_hmac.
#[local] Instance padded : UuidPrintLaws.
Proof. intros u. split; [|done]. apply Forall_replicate. lia. Qed.
#[local] Instance no_tables : LookupTables :=
  {| subject_row _ := None; sub_subject_row _ := None; entity_row _ _ := None |}.

(** Services that answer, a renderer that accepts every job. *)
Definition gateway : Gateway := {|
  gw_interpret := λ input, Ok (mkInterpretResult (lit "r") (ii_generation_id input)
    InterpretationWitness.sample_payload Null (lit "openrouter") (lit "m") false false ∅ None);
  gw_draft := λ input, Ok (mkDraftResult (lit "r") (di_generation_id input)
    (fallback_from_interpretation (lit "Pecahan") (lit "summary") (lit "summary")) (lit "provider") Null None ∅ None);
  gw_respond := λ _, Err (RespondRateLimited [] []);
  gw_serde_error := λ _, [];
  gw_client := mkPythonClient (lit "https://renderer") (lit "https://gateway") (lit "k");
  gw_send := λ _, Reply 202 (inr Null);
  gw_request_id := 9;
  gw_publication := service;
  gw_world := world sample_row [found]
|}.
Definition start : St := sample_state sample_db 0.

Lemma gateway_moves_forward_witness :
  exists row', committed (process (gateway_steps gateway) (lit "1") (Some (lit "9")) None None start).2 !! 1 = Some row' /\
    status row' = lit "generating" /\
    forall st, lit "queued" = as_str st -> is_terminal st = true -> status row' = lit "queued".
Proof.
  destruct (gateway_moves_forward gateway (lit "1") (Some (lit "9")) None None start 1 sample_row svg_total eq_refl)
    as (row' & Hr & _ & Hterm).
  exists row'. split; [exact Hr|]. split; [|exact Hterm].
  assert (Hs : status <$> committed (process (gateway_steps gateway) (lit "1") (Some (lit "9")) None None start).2 !! 1
    = Some (lit "generating")) by (vm_compute; reflexivity).
  rewrite Hr in Hs. by injection Hs.
Defined.

Lemma classification_is_repeated_witness :
  exists s' row', ensure_classified (gateway_steps gateway) (lit "1") 1 None start = (Ok (), s') /\
    committed s' !! 1 = Some row' /\ needs_classification row'.
Proof.
  assert (Hr : ok_value (ensure_classified (gateway_steps gateway) (lit "1") 1 None start).1 = Some ())
    by (vm_compute; reflexivity).
  pose proof (λ s' H, classification_is_repeated gateway (lit "1") 1 None start s' 1 sample_row eq_refl eq_refl (or_introl eq_refl) H) as Hp.
  destruct (ensure_classified (gateway_steps gateway) (lit "1") 1 None start) as [r s'].
  apply ok_value_Some in Hr. cbn [fst] in Hr. rewrite Hr in Hp |- *.
  destruct (Hp s' eq_refl) as (row' & Hrow & Hn & _). exists s', row'. split; [reflexivity|]. split; [exact Hrow|exact Hn].
Defined.

Lemma undelivered_never_completed_witness :
  (exists e, (ensure_completed (gateway_steps gateway) (lit "1") 1 None start).1 = Err e) /\
  (compose_step (gw_respond gateway) (lit "1") start).1 = Err (DatabaseErr (UndefinedColumn "filename")).
Proof.
  split; [|vm_compute; reflexivity].
  destruct (undelivered_never_completed gateway (lit "1") 1 None start 1 sample_row eq_refl eq_refl eq_refl)
    as (_ & _ & Hc). exact Hc.
Defined.
End GatewayWitness.
