(* ===== verification/GenerationApi.v ===== *)
(** * The endpoints of generations (src/src/api/rest/media_generations.rs)

    Creating, listing, showing, polling and regenerating. A handler works on the PostgreSQL tables,
    issues Redis commands, and may ask the renderer and the presigner; the rows of the other tables are
    an argument, as are the ids the handler draws. *)

From stdpp Require Import base gmap list option strings fin_maps.
From Stdlib Require Import ZArith Lia.
From S2P Require Import Prelude RustStr Utf8 Json Text Samples Storage Lifecycle Store Effects AuditTrail Repo Submission Decision GenerationSpec Workflow Redis Queue UserLimit Webhook PythonClient Rest.
#[local] Open Scope Z_scope.

(** What the handlers use of the application state. *)
Record ApiConfig := mkApiConfig {
  redis_pool : bool;                 (* Redis is configured *)
  max_requests_per_user : Z;
  limit_window_seconds : Z;
  r2_transit_bucket_name : str;
  media_generator_url : str;
  webhook_base_url : str;
  media_generator_secret : str
}.

(** chrono's format "%Y-%m-%dT%H:%M:%S%.6fZ". *)
Class MicrosText := micros_text : Z -> str.

(** ** Errors and answers *)

Definition submission_error_text `{DbErrorText} (e : SubmissionError) : str :=
  match e with
  | TeacherNotFound i => lit "teacher not found: " ++ i
  | Submission.Database e => lit "database error: " ++ db_error_text e
  | Submission.InvalidUuid msg => lit "invalid UUID: " ++ msg
  end.

(** A statement of the handler, its error turned into one of its own. *)
Definition pg_or {E A} (f : E -> AppError) (m : M E A) : W AppError A := λ w,
  let '(o, w') := on_pg (F:=AppError) m w in (outcome_bind o (map_err f), w').
Definition or_error {A} (e : AppError) (o : option A) : W AppError A :=
  match o with Some a => mret a | None => fail e end.

Definition require_teacher (principal : Principal) : outcome AppError unit :=
  if decide (role principal = lit "teacher") then Ok ()
  else Err (Forbidden (lit "requires role 'teacher', user has '" ++ role principal ++ lit "'")).
(** [?] on a computed result. *)
Definition settled {A} (o : outcome AppError A) : W AppError A := λ w, (o, w).

Section Api.
Context `{DbErrorText} `{UuidPrint} `{UuidText} `{UuidErrorText} `{HeapScan} `{ForeignKeys}.
Context `{CaseTables} `{Sha256Hex} `{Rfc3339} `{RedisU32} `{MicrosText}.
Context (cfg : ApiConfig) (tables : RelatedTables).

Definition internal_repo {A} (m : M repo_error A) : W AppError A := pg_or (λ e, Internal (repo_error_text e)) m.
Definition internal_with {A} (what : string) (m : M repo_error A) : W AppError A :=
  pg_or (λ e, Internal (lit what ++ lit ": " ++ repo_error_text e)) m.
Arguments internal_with {A} what%_string m.

(** The per-user limit of a route, when Redis is configured. *)
Definition limited (principal : Principal) (route : string) : W AppError unit :=
  if redis_pool cfg then
    r ← caught (check_user_rate_limit (user_id principal) (lit route) (max_requests_per_user cfg)
                  (limit_window_seconds cfg));
    match r with
    | Err (status, headers, body) => fail (RateLimited status headers body)
    | _ => mret ()
    end
  else mret ().
Arguments limited principal route%_string.

(** The job of a generation: its column, then an entry of the stream whose failure is only logged. *)
Definition start_job (i job_id : uuid) : W AppError unit :=
  _ ← internal_with "failed to set generation job status"
        (update_generation_job_status i {| js_generation_job_id := Some job_id; js_generation_status := lit "pending" |});
  if redis_pool cfg then
    _ ← caught (enqueue (uuid_to_string i) (uuid_to_string job_id) 1); mret ()
  else mret ().

Definition poll_url (i : uuid) : str := lit "/api/v1/media-generations/" ++ uuid_to_string i ++ lit "/job-status".
(** [CreateMediaGenerationResponse]. *)
Definition tracking (i job_id : uuid) (status : str) : value :=
  obj [("generation_id", String (uuid_to_string i)); ("job_id", String (uuid_to_string job_id));
       ("status", String status); ("poll_url", String (poll_url i))]%string.

(** ** Resources *)

Definition subject_resource (s : SubjectSummary) : value :=
  obj [("id", jint (subj_id s)); ("name", String (subj_name s)); ("slug", String (subj_slug s))]%string.
Definition sub_subject_resource (ss : SubSubjectWithSubject) : value :=
  obj [("id", jint (ss_id (sub_subject ss))); ("subject_id", jint (ss_subject_id (sub_subject ss)));
       ("name", String (ss_name (sub_subject ss))); ("slug", String (ss_slug (sub_subject ss)));
       ("subject", subject_resource (sub_subject_subject ss))]%string.
Definition topic_resource (t : TopicSummary) : value :=
  obj [("id", String (uuid_to_string (topic_row_id t))); ("title", String (topic_title t));
       ("sub_subject_id", jopt jint (topic_sub_subject_id t)); ("thumbnail_url", jopt String (topic_thumbnail_url t));
       ("is_published", Bool (topic_is_published t))]%string.
Definition content_resource (c : ContentSummary) : value :=
  obj [("id", String (uuid_to_string (content_row_id c))); ("topic_id", String (uuid_to_string (content_topic_id c)));
       ("type", String (content_type c)); ("title", jopt String (content_title c));
       ("media_url", jopt String (content_media_url c)); ("is_published", Bool (content_is_published c))]%string.
Definition project_resource (r : RecommendedProjectSummary) : value :=
  obj [("id", jint (rp_id r)); ("title", String (rp_title r)); ("thumbnail_url", jopt String (rp_thumbnail_url r));
       ("project_file_url", jopt String (rp_project_file_url r)); ("source_type", String (rp_source_type r));
       ("is_active", Bool (rp_is_active r))]%string.

(** The resource of a row and of its related rows. *)
Definition resource (g : MediaGeneration) (subject sub topic content project : value) : value :=
  obj [ ("id", String (uuid_to_string (id g))); ("status", String (status g)); ("raw_prompt", String (raw_prompt g));
        ("preferred_output_type", String (preferred_output_type g));
        ("resolved_output_type", jopt String (resolved_output_type g));
        ("subject_id", jopt jint (subject_id g)); ("sub_subject_id", jopt jint (sub_subject_id g));
        ("topic_id", jopt (λ u, String (uuid_to_string u)) (topic_id g));
        ("content_id", jopt (λ u, String (uuid_to_string u)) (content_id g));
        ("recommended_project_id", jopt jint (recommended_project_id g));
        ("generated_from_id", jopt (λ u, String (uuid_to_string u)) (generated_from_id g));
        ("is_regeneration", Bool (is_regeneration g));
        ("created_at", jopt (λ t, String (micros_text t)) (created_at g));
        ("updated_at", jopt (λ t, String (micros_text t)) (updated_at g));
        ("delivery_payload", default Null (delivery_payload g));
        ("presigned_download_url", jopt String (presigned_download_url g));
        ("error_code", jopt String (error_code g)); ("error_message", jopt String (error_message g));
        ("subject", subject); ("sub_subject", sub); ("topic", topic); ("content", content);
        ("recommended_project", project) ]%string.
Definition build_resource_from_gen (g : MediaGeneration) : value := resource g Null Null Null Null Null.
Definition build_resource (r : MediaGenerationWithRelations) : value :=
  resource (generation r) (jopt subject_resource (rel_subject r)) (jopt sub_subject_resource (rel_sub_subject r))
    (jopt topic_resource (rel_topic r)) (jopt content_resource (rel_content r))
    (jopt project_resource (rel_recommended_project r)).

(** ** The handlers *)

Record CreateMediaGenerationRequest := {
  cr_raw_prompt : str;
  cr_preferred_output_type : option str;
  cr_subject_id : option Z;
  cr_sub_subject_id : option Z
}.
Definition default_metadata : ProviderMetadata :=
  {| pm_llm_provider := None; pm_llm_model := None; pm_generator_provider := None; pm_generator_model := None |}.
Definition create_input (principal : Principal) (payload : CreateMediaGenerationRequest) : CreateInput :=
  {| in_teacher_id := user_id principal; in_raw_prompt := cr_raw_prompt payload;
     in_preferred_output_type := cr_preferred_output_type payload; in_subject_id := cr_subject_id payload;
     in_sub_subject_id := cr_sub_subject_id payload; in_provider_metadata := default_metadata |}.

(** [race] is what others commit during the submission; [new_id] and [job_id] are drawn. *)
Definition create (race : DB -> DB) (new_id job_id : uuid) (principal : Principal)
    (payload : CreateMediaGenerationRequest) : W AppError Response :=
  _ ← settled (require_teacher principal);
  _ ← limited principal "media-generations:create";
  result ← pg_or (λ e, Internal (lit "failed to create media generation: " ++ submission_error_text e))
             (create_or_reuse race new_id (create_input principal payload));
  if was_created result then
    _ ← start_job (res_id result) job_id;
    mret (response.accepted_with_message (lit "Generasi media berhasil dibuat dan sedang diproses.")
            (tracking (res_id result) job_id (lit "pending")))
  else
    found ← internal_with "failed to fetch created generation"
              (find_by_id_for_teacher tables (res_id result) (user_id principal));
    generation ← or_error (Internal (lit "created generation not found")) found;
    let gen := Repo.generation generation in
    mret (response.accepted_with_message (lit "Generasi media berhasil dibuat.")
            (tracking (res_id result) (default job_id (generation_job_id gen)) (status gen))).

Definition index (principal : Principal) (parent_id : option uuid) : W AppError Response :=
  _ ← settled (require_teacher principal);
  match parent_id with
  | Some parent_id =>
      chain ← internal_repo (find_chain parent_id);
      mret (response.ok (obj [("ancestors", Array (build_resource_from_gen <$> ancestors chain));
                              ("children", Array (build_resource_from_gen <$> children chain))])%string)
  | None =>
      generations ← internal_repo (find_recent_for_teacher tables (user_id principal) 20);
      mret (response.ok (obj [("generations", Array (build_resource <$> generations))])%string)
  end.

(** The generation of the path, among those of the teacher. *)
Definition own_generation (i : uuid) (principal : Principal) : W AppError MediaGenerationWithRelations :=
  found ← internal_repo (find_by_id_for_teacher tables i (user_id principal));
  or_error (NotFound (lit "media generation not found")) found.

Definition show (principal : Principal) (i : uuid) : W AppError Response :=
  _ ← settled (require_teacher principal);
  generation ← own_generation i principal;
  mret (response.ok_with_message (lit "Detail generasi media berhasil diambil.") (build_resource generation)).

Definition PRESIGNED_URL_TTL_SECS : Z := 3600.
(** The address of a finished artifact, and until when it is valid. *)
Definition download_address `{Presigning} (now : Z) (gen : MediaGeneration) : option str * option str :=
  let recorded := (presigned_download_url gen, micros_text <$> presigned_url_expires_at gen) in
  if decide (generation_status gen = Some (lit "completed")) then
    match s3_object_key gen with
    | Some s3_key =>
        match generate_presigned_url (r2_transit_bucket_name cfg) s3_key PRESIGNED_URL_TTL_SECS with
        | Ok url => (Some url, Some (micros_text (now + PRESIGNED_URL_TTL_SECS * 1000000000)))
        | _ => recorded
        end
    | None => recorded
    end
  else (None, None).
(** [skip_serializing_if = "Option::is_none"]. *)
Definition present (key : string) (o : option str) : list (string * value) :=
  match o with Some s => [(key, String s)] | None => [] end.
Arguments present key%_string o.
(** [JobStatusResponse]. *)
Definition job_status_value `{Presigning} (now : Z) (gen : MediaGeneration) : value :=
  let '(url, expires_at) := download_address now gen in
  obj ([("generation_id"%string, String (uuid_to_string (id gen)))]
       ++ present "job_id" (uuid_to_string <$> generation_job_id gen)
       ++ [("status"%string, String (default (status gen) (generation_status gen)))]
       ++ present "presigned_download_url" url ++ present "presigned_url_expires_at" expires_at
       ++ present "error_code" (generation_error_code gen) ++ present "error_message" (generation_error_message gen)).
Definition job_status `{Presigning} (principal : Principal) (i : uuid) : W AppError Response :=
  _ ← settled (require_teacher principal);
  generation ← own_generation i principal;
  t ← now;
  mret (response.ok (job_status_value t (Repo.generation generation))).

Definition python_client : outcome AppError PythonMediaGeneratorClient :=
  of_panicking (new_client (media_generator_url cfg) (webhook_base_url cfg) (media_generator_secret cfg)).

(** [PythonMediaGeneratorClient::submit_job], with its request among the commands. *)
Definition post_job `{HmacSha256Hex} `{Canon.JsonLex} (client : PythonMediaGeneratorClient) (send : JobRequest -> job_reply)
    (request_id : uuid) (generation_id job_id : str) : W AppError (outcome PythonClientError unit) :=
  prepared ← on_pg (prepare_job client request_id generation_id job_id);
  match prepared with
  | Ok request =>
      _ ← post (jr_url request) (jr_headers request) (jr_body request);
      mret (job_outcome (send request))
  | Err e => mret (Err e)
  | Panic => mret Panic
  end.
(** The block that submits directly to the renderer: what fails is only logged. *)
Definition submit_regeneration `{HmacSha256Hex} `{Canon.JsonLex} (send : JobRequest -> job_reply)
    (created_id job_id request_id : uuid) : W AppError unit :=
  _ ← on_pg (update_generation_job_status created_id
        {| js_generation_job_id := Some job_id; js_generation_status := lit "pending" |});
  client ← settled python_client;
  _ ← post_job client send request_id (uuid_to_string created_id) (uuid_to_string job_id);
  mret ().

(** [new_id], [job_id] and the id of the renderer's request are drawn. *)
Definition regenerate `{HmacSha256Hex} `{Canon.JsonLex} (send : JobRequest -> job_reply) (new_id job_id request_id : uuid)
    (principal : Principal) (i : uuid) (additional_prompt : str) : W AppError Response :=
  _ ← settled (require_teacher principal);
  _ ← limited principal "media-generations:regenerate";
  parent ← own_generation i principal;
  let parent_status := status (Repo.generation parent) in
  _ ← settled (if is_terminal_status parent_status then Ok ()
               else Err (Validation (lit "parent generation status '" ++ parent_status ++ lit "' is not terminal "
                      ++ [8212] ++ lit " must be completed, failed, or cancelled")));
  created_id ← pg_or (λ e, Internal (lit "failed to create regeneration: " ++ submission_error_text e))
                 (create_regeneration new_id (uuid_to_string i) additional_prompt);
  _ ← submit_regeneration send created_id job_id request_id;
  found ← internal_with "failed to fetch regeneration" (find_by_id_for_teacher tables created_id (user_id principal));
  generation ← or_error (Internal (lit "regeneration not found")) found;
  mret (response.accepted_with_message (lit "Regenerasi media berhasil dibuat.") (build_resource generation)).
End Api.

(** ** Lemmas: running a handler *)

(** The entries put on the stream of jobs. *)
Definition job_of (c : command) : option (list (str * str)) :=
  match c with XAdd stream fields => if decide (stream = STREAM_KEY) then Some fields else None | _ => None end.
Definition jobs (w : World) : list (list (str * str)) := omap job_of (issued w).

Lemma jobs_idle w w' : idle w w' -> jobs w' = jobs w.
Proof. intros [_ Hi]. unfold jobs. by rewrite Hi. Qed.
Lemma jobs_issue w w' c : issued w' = issued w ++ [c] -> jobs w' = jobs w ++ option_list (job_of c).
Proof. unfold jobs. intros ->. rewrite omap_app. cbn. by destruct (job_of c). Qed.
Lemma jobs_pg w s : jobs (w <| pg := s |>) = jobs w.
Proof. done. Qed.

Lemma runs_pg_or {E A} (f : E -> AppError) (m : M E A) (Q : outcome AppError A -> World -> Prop) w :
  wp m (λ r s, Q (map_err f r) (w <| pg := s |>)) (pg w) -> runs (pg_or f m) Q w.
Proof. unfold runs, pg_or, on_pg, wp. destruct (m (pg w)) as [[] ?]; simpl; auto. Qed.
Lemma runs_settled {A} (o : outcome AppError A) (Q : outcome AppError A -> World -> Prop) w : Q o w -> runs (settled o) Q w.
Proof. done. Qed.
Lemma runs_or_error {A} e (o : option A) (Q : outcome AppError A -> World -> Prop) w :
  match o with Some a => Q (Ok a) w | None => Q (Err e) w end -> runs (or_error e o) Q w.
Proof. by destruct o. Qed.
Lemma require_teacher_Ok principal u : require_teacher principal = Ok u -> role principal = lit "teacher".
Proof. unfold require_teacher. by case_decide. Qed.
Lemma require_teacher_cases principal :
  role principal = lit "teacher" /\ require_teacher principal = Ok () \/
  exists e, require_teacher principal = Err e.
Proof. unfold require_teacher. case_decide; eauto. Qed.

(** No job is started and the tables are left alone. *)
Definition no_job (w w' : World) : Prop := pg w' = pg w /\ jobs w' = jobs w.

(** ** Lemmas: the limit of a user, on the answers of Redis *)

Definition reachable (w : World) : bool := match connections w with inl _ :: _ => false | _ => true end.
Definition next_reply (w : World) : outcome str redis_value := match replies w with r :: _ => answer r | [] => Ok RNil end.
(** What counting the next request gives: a number when Redis is there and answers one. *)
Definition counted `{RedisU32} (w : World) : option Z :=
  if reachable w then
    match next_reply w with
    | Ok v => match redis_u32 v with inr n => Some n | inl _ => None end
    | _ => None
    end
  else None.
(** The count of this request is above the maximum. *)
Definition exceeded `{RedisU32} (cfg : ApiConfig) (w : World) : bool :=
  redis_pool cfg && match counted w with Some n => max_requests_per_user cfg <? n | None => false end.
Definition limit_refusal (cfg : ApiConfig) : AppError :=
  let '(status, headers, body) := too_many_generations (max_requests_per_user cfg) (limit_window_seconds cfg) in
  RateLimited status headers body.
(** The first command is the increment of the user's counter for the route, when Redis is there. *)
Definition counts_first (cfg : ApiConfig) (principal : Principal) (route : string) (w w' : World) : Prop :=
  redis_pool cfg = true -> reachable w = true ->
  exists cs, issued w' = issued w ++ Incr (user_limit_key (user_id principal) (lit route)) :: cs.
Arguments counts_first cfg principal route%_string w w'.

Lemma runs_connect {E} (Q : outcome E (outcome str unit) -> World -> Prop) w :
  (forall w', idle w w' -> replies w' = replies w -> reachable w = true -> Q (Ok (Ok ())) w') ->
  (forall e w', idle w w' -> reachable w = false -> Q (Ok (Err e)) w') ->
  runs pool_get Q w.
Proof.
  unfold reachable, runs, pool_get. intros Hok Herr. destruct (connections w) as [|[e|[]] rest]; cbn; [by apply Hok|by apply Herr|by apply Hok].
Qed.
Lemma runs_reply {E} c (Q : outcome E (outcome str redis_value) -> World -> Prop) w :
  (forall w', pg w' = pg w -> issued w' = issued w ++ [c] -> Q (Ok (next_reply w)) w') -> runs (query c) Q w.
Proof. unfold runs, query, next_reply. intros HQ. cbn. destruct (replies w) as [|r rest]; by apply HQ. Qed.

Section RunFacts.
Context `{DbErrorText} `{UuidPrint} `{UuidText} `{UuidErrorText} `{HeapScan} `{ForeignKeys}.
Context `{CaseTables} `{Sha256Hex} `{Rfc3339} `{RedisU32} `{MicrosText}.
Context (cfg : ApiConfig) (tables : RelatedTables).

(** Counting a request, on every answer of Redis. *)
Lemma runs_count_request {E} key window w :
  runs (count_request (E:=E) key window)
    (λ r w', no_job w w' /\ r = Ok (counted w) /\
       (reachable w = true -> exists cs, issued w' = issued w ++ Incr key :: cs)) w.
Proof.
  unfold count_request. apply runs_bind, runs_connect.
  2: { intros e w1 Hw1 Hno. apply runs_ret. unfold counted. rewrite Hno. split; [|done].
       split; [apply Hw1|by apply jobs_idle]. }
  intros w1 Hw1 Hrep Hyes. apply runs_bind, runs_reply. intros w2 Hpg2 Hi2.
  assert (next_reply w1 = next_reply w) as -> by (unfold next_reply; by rewrite Hrep).
  assert (no_job w w2) as Hn2.
  { split; [by rewrite Hpg2, (idle_pg _ _ Hw1)|]. rewrite (jobs_issue _ _ _ Hi2), (jobs_idle _ _ Hw1). cbn. by rewrite app_nil_r. }
  rewrite (idle_issued _ _ Hw1) in Hi2. unfold counted. rewrite Hyes.
  assert (forall r : option Z, runs (mret (M:=W E) r) (λ r' w', no_job w w' /\ r' = Ok r /\
    (true = true -> exists cs, issued w' = issued w ++ Incr key :: cs)) w2) as Hend.
  { intros r. apply runs_ret. split; [done|]. split; [done|]. intros _. by exists []. }
  destruct (next_reply w) as [v|e|]; [|apply Hend..]. destruct (redis_u32 v) as [e|n]; [apply Hend|].
  apply runs_bind. destruct (n =? 1); [|apply runs_ret, Hend].
  apply runs_bind, runs_reply. intros w3 Hpg3 Hi3. apply runs_ret, runs_ret.
  split; [|split; [done|]].
  - split; [by rewrite Hpg3; apply Hn2|]. rewrite (jobs_issue _ _ _ Hi3). cbn. rewrite app_nil_r. apply Hn2.
  - intros _. exists [Expire key window]. by rewrite Hi3, Hi2, <- app_assoc.
Qed.

(** The check of a handler. *)
Lemma runs_limit principal route (Q : outcome AppError unit -> World -> Prop) w :
  (forall w', no_job w w' -> counts_first cfg principal route w w' ->
     Q (if exceeded cfg w then Err (limit_refusal cfg) else Ok ()) w') ->
  runs (limited cfg principal route) Q w.
Proof.
  unfold limited, counts_first, exceeded. intros HQ. destruct (redis_pool cfg); cbn [andb] in HQ; [|by apply runs_ret, HQ].
  apply runs_bind, runs_caught. unfold check_user_rate_limit. apply runs_bind.
  eapply runs_mono; [apply runs_count_request|]. intros r w1 (Hn & -> & Hi).
  destruct (counted w) as [n|]; [|by apply runs_ret, runs_ret, HQ].
  destruct (_ <? n); [|by apply runs_ret, runs_ret, HQ]. apply runs_fail. unfold limit_refusal in HQ. by apply HQ.
Qed.
Lemma runs_limited principal route (Q : outcome AppError unit -> World -> Prop) w :
  (forall r w', no_job w w' -> r <> Panic -> Q r w') -> runs (limited cfg principal route) Q w.
Proof. intros HQ. apply runs_limit. intros w' Hn _. apply HQ; [done|]. by destruct (exceeded cfg w). Qed.

(** The entry a start of a job puts on the stream. *)
Definition job_entry (i job_id : uuid) (t : Z) : list (str * str) :=
  enqueue_fields (uuid_to_string i) (uuid_to_string job_id) 1 (to_rfc3339 t).

Lemma runs_enqueue gid jid att (Q : outcome str str -> World -> Prop) w :
  (forall r w', pg w' = pg w -> r <> Panic ->
     (jobs w' = jobs w \/ jobs w' = jobs w ++ [enqueue_fields gid jid att (to_rfc3339 (time (pg w)))]) -> Q r w') ->
  runs (enqueue gid jid att) Q w.
Proof.
  intros HQ. unfold enqueue. apply runs_bind, runs_pool_get. intros c w1 Hw1 Hc.
  apply runs_bind, runs_or_redis. destruct c as [u|e|]; [| |done].
  2: { apply HQ; [apply Hw1|done|left; by apply jobs_idle]. }
  apply runs_bind, runs_now, runs_bind, runs_query. intros r w2 Hpg2 Hi2 Hr.
  rewrite (idle_pg _ _ Hw1) in Hpg2, Hi2.
  assert (jobs w2 = jobs w ++ [enqueue_fields gid jid att (to_rfc3339 (time (pg w)))]) as Hj.
  { rewrite (jobs_issue _ _ _ Hi2), (jobs_idle _ _ Hw1). reflexivity. }
  apply runs_bind, runs_or_redis. destruct r as [v|e|]; [| |done].
  - apply runs_or_redis, HQ; [done| |by right]. unfold reply_string. by destruct (value_to_str v).
  - apply HQ; [done|done|by right].
Qed.

Lemma row_ok_pending j g :
  row_ok g = true -> row_ok (set_job_status {| js_generation_job_id := j; js_generation_status := lit "pending" |} g) = true.
Proof. destruct g. row_ok_split. Qed.

(** Starting a job: the column is written, and at most one entry goes onto the stream. *)
Lemma runs_start_job i job_id (Q : outcome AppError unit -> World -> Prop) w :
  (forall w', (exists o, row_updated i (set_job_status {| js_generation_job_id := Some job_id;
       js_generation_status := lit "pending" |}) (pg w) (Ok o) (pg w')) ->
     (jobs w' = jobs w \/ redis_pool cfg = true /\ jobs w' = jobs w ++ [job_entry i job_id (time (pg w'))]) ->
     Q (Ok ()) w') ->
  (forall msg w', committed (pg w') = committed (pg w) -> jobs w' = jobs w ->
     ¬ (healthy (pg w) /\ exists g, committed (pg w) !! i = Some g /\ row_ok g = true) -> Q (Err (Internal msg)) w') ->
  runs (start_job cfg i job_id) Q w.
Proof.
  intros Hok Herr. unfold start_job, internal_with. apply runs_bind, runs_pg_or.
  eapply wp_mono; [apply wp_update_returning|]. intros r s Hu. destruct r as [o|e|]; cbn [map_err].
  - destruct (redis_pool cfg) eqn:Ep.
    + apply runs_bind, runs_caught, runs_enqueue. intros r w2 Hpg Hr Hj.
      assert (runs (mret ()) Q w2) as Hdone; [|by destruct r].
      apply runs_ret, Hok; [rewrite Hpg; eauto|]. rewrite Hpg.
      destruct Hj as [Hj|Hj]; [by left|right; split; [done|exact Hj]].
    + apply runs_ret, Hok; [eauto|by left].
  - destruct Hu as (_ & _ & Hu & Hwhy). apply Herr; [done|done|]. intros [Hh (g & Hg & Hrow)].
    destruct (Hwhy Hh) as [Hn|[_ (g1 & Hg1 & Hbad)]]; [congruence|]. assert (g1 = g) as -> by congruence.
    by rewrite row_ok_pending in Hbad.
  - by destruct Hu as (_ & _ & []).
Qed.
End RunFacts.

(** ** Lemmas: the repository *)

Lemma wp_find_for_teacher tables i t s :
  wp (find_by_id_for_teacher tables i t) (λ o s', committed s' = committed s /\ (healthy s -> healthy s') /\ match o with
    | Ok (Some r) => exists g, committed s !! i = Some g /\ teacher_id g = t /\ r = related tables [g] g
    | Ok None => forall g, committed s !! i = Some g -> teacher_id g <> t
    | Err _ => ¬ healthy s
    | Panic => False end) s.
Proof.
  unfold find_by_id_for_teacher, select_by_id. wp_step. wp_step.
  wp_step; [by same_data_simpl|]. same_data_simpl. simpl.
  match goal with H : same_data s ?s1 |- _ => rename H into Hs; set (s2 := s1 <| committed := committed s |>) end.
  assert (Hh : healthy s -> healthy s2) by exact (healthy_kept _ _ Hs).
  destruct (committed s !! i) as [g|]; simpl; [|wp_step; by split].
  case_decide as Ht; [|wp_step; split; [done|]; split; [done|]; by intros ? [= <-]].
  wp_step. eapply wp_mono; [apply wp_attach_relations|]. intros [l|e|] s3 [Hd Hl]; [| |done];
    pose proof (same_committed _ _ Hd); pose proof (healthy_kept _ _ Hd).
  - wp_step. split; [done|]. split; [auto|]. subst l. exists g. done.
  - split; [done|]. split; auto.
Qed.

Section Answers.
Context `{DbErrorText} `{UuidPrint} `{UuidText} `{UuidErrorText} `{HeapScan} `{ForeignKeys}.
Context `{CaseTables} `{Sha256Hex} `{Rfc3339} `{RedisU32} `{MicrosText}.
Context (cfg : ApiConfig) (tables : RelatedTables).

(** A generation of another teacher is answered like one that does not exist. *)
Lemma runs_own_generation i principal (Q : outcome AppError MediaGenerationWithRelations -> World -> Prop) w :
  (forall w' g, committed (pg w') = committed (pg w) -> jobs w' = jobs w -> committed (pg w) !! i = Some g ->
     teacher_id g = user_id principal -> Q (Ok (related tables [g] g)) w') ->
  (forall w', committed (pg w') = committed (pg w) -> jobs w' = jobs w ->
     (forall g, committed (pg w) !! i = Some g -> teacher_id g <> user_id principal) ->
     Q (Err (NotFound (lit "media generation not found"))) w') ->
  (forall e w', committed (pg w') = committed (pg w) -> jobs w' = jobs w -> ¬ healthy (pg w) -> Q (Err e) w') ->
  runs (own_generation tables i principal) Q w.
Proof.
  intros Hok Hnone Herr. unfold own_generation, internal_repo. apply runs_bind, runs_pg_or.
  eapply wp_mono; [apply wp_find_for_teacher|]. intros [[r|]|e|] s [Hc [_ Hr]]; cbn [map_err]; [| | |done].
  - destruct Hr as (g & Hg & Ht & ->). apply runs_or_error. by apply Hok.
  - apply runs_or_error. by apply Hnone.
  - by apply Herr.
Qed.
End Answers.

(** ** Lemmas: regeneration *)

(** The documented round trip of the uuid crate. *)
Class UuidRoundtrip `{UuidText} `{UuidPrint} := uuid_roundtrip : forall u, parse_uuid_str (uuid_to_string u) = Some u.

(** Commands that start no job. *)
Definition starts_nothing (c : command) : Prop := job_of c = None.
(** The requests to the renderer. *)
Definition post_of (c : command) : option (str * list (str * str) * list Z) :=
  match c with Post url headers body => Some (url, headers, body) | _ => None end.
Definition posts (w : World) : list (str * list (str * str) * list Z) := omap post_of (issued w).
Definition posts_nothing (c : command) : Prop := post_of c = None.
Lemma issues_posts_nothing {E A} (m : W E A) w : issues posts_nothing m -> posts (m w).2 = posts w.
Proof.
  intros Hm. destruct (Hm w) as (cs & Hcs & Hall). unfold posts. rewrite Hcs, omap_app.
  assert (omap post_of cs = []) as ->; [|by rewrite app_nil_r].
  clear Hcs. induction Hall as [|c cs Hc _ IH]; [done|]. cbn. by rewrite Hc.
Qed.
Lemma issues_starts_nothing {E A} (m : W E A) w : issues starts_nothing m -> jobs (m w).2 = jobs w.
Proof.
  intros Hm. destruct (Hm w) as (cs & Hcs & Hall). unfold jobs. rewrite Hcs, omap_app.
  assert (omap job_of cs = []) as ->; [|by rewrite app_nil_r].
  clear Hcs. induction Hall as [|c cs Hc _ IH]; [done|]. cbn. by rewrite Hc.
Qed.
Lemma issues_pg_or P {E A} (f : E -> AppError) (m : M E A) : issues P (pg_or f m).
Proof. apply issues_quiet. intros w. unfold pg_or, on_pg. by destruct (m (pg w)) as [[] ?]. Qed.
Lemma issues_settled P {A} (o : outcome AppError A) : issues P (settled o).
Proof. by apply issues_quiet. Qed.
Lemma issues_or_error P {A} e (o : option A) : issues P (or_error e o).
Proof. apply issues_quiet. by destruct o. Qed.
Lemma issues_fail P {E A} (e : E) : issues P (fail (A:=A) e).
Proof. by apply issues_quiet. Qed.
#[export] Hint Resolve issues_pg_or issues_settled issues_or_error issues_fail : issues.
#[export] Hint Unfold starts_nothing posts_nothing : issues.
Lemma issues_post (P : command -> Prop) {E} url headers body :
  P (Post url headers body) -> issues P (post (E:=E) url headers body).
Proof. intros Hc w. exists [Post url headers body]. split; [done|by repeat constructor]. Qed.
#[export] Hint Resolve issues_post : issues.

Lemma counts_first_later {A} cfg principal route (m : W AppError A) w w1 :
  counts_first cfg principal route w w1 -> issues (λ _, True) m ->
  runs m (λ _ w', counts_first cfg principal route w w') w1.
Proof.
  intros Hfirst Hm Hp Hr. destruct (Hfirst Hp Hr) as [cs Hcs]. destruct (Hm w1) as (cs' & Hcs' & _).
  exists (cs ++ cs'). by rewrite Hcs', Hcs, <- app_assoc.
Qed.

Section Regeneration.
Context `{DbErrorText} `{UuidRoundtrip} `{UuidErrorText} `{HeapScan} `{ForeignKeys}.
Context `{CaseTables} `{Sha256Hex} `{RedisU32} `{MicrosText} `{HmacSha256Hex} `{Canon.JsonLex}.
Context (cfg : ApiConfig) (tables : RelatedTables).

Lemma limited_issues (P : command -> Prop) principal route :
  (forall key, P (Incr key)) -> (forall key secs, P (Expire key secs)) -> issues P (limited cfg principal route).
Proof.
  intros Hi He. unfold limited, check_user_rate_limit, count_request. repeat issues_step. apply issues_caught.
  repeat issues_step.
Qed.
Lemma regenerate_starts_nothing send new_id job_id request_id principal i prompt :
  issues starts_nothing (regenerate cfg tables send new_id job_id request_id principal i prompt).
Proof.
  unfold regenerate, submit_regeneration, post_job, own_generation, internal_repo, internal_with.
  repeat first [by apply limited_issues | issues_step].
Qed.

(** The row of a regeneration has no specification. *)
Definition unspecified (i : uuid) (db : DB) : Prop :=
  exists g, db !! i = Some g /\ generation_spec_payload g = None /\ status g = lit "queued" /\
    is_regeneration g = true /\ (generation_status g = None \/ generation_status g = Some (lit "pending")).

Lemma wp_create_regeneration new_id parent prompt s :
  wp (create_regeneration new_id parent prompt)
     (λ o s', match o with Ok i => i = new_id /\ unspecified new_id (committed s') | Err _ => True | Panic => False end) s.
Proof.
  unfold create_regeneration, select_by_id. wp_step. wp_step. unfold Submission.parse_uuid.
  destruct (parse_uuid_str parent) as [p|]; [|exact I].
  wp_step. wp_step. wp_step; [exact I|]. same_data_simpl.
  destruct (committed s !! p) as [g|]; simpl; [|by wp_step].
  wp_step. wp_step; [exact I|]. unfold insert_regeneration.
  repeat match goal with H : same_data ?a ?b |- context [committed ?b] => rewrite (same_committed a b H) end.
  destruct (committed s !! p) as [g'|]; [|done].
  destruct (insert_row _ _ _) as [[r db]|e|] eqn:Ei; [|done|by apply insert_row_no_panic in Ei].
  apply insert_row_Ok in Ei as (-> & _ & _ & _ & _ & ->). simpl. split; [done|].
  eexists. split; [apply lookup_insert_eq|]. repeat (split; [done|]). by left.
Qed.

Lemma unspecified_job_status i j db s o s' :
  unspecified i db -> committed s = db ->
  row_updated i (set_job_status {| js_generation_job_id := Some j; js_generation_status := lit "pending" |}) s o s' ->
  unspecified i (committed s').
Proof.
  intros (g & Hg & Hspec & Hst & Hreg & Hgs) <- (_ & _ & Ho). destruct o as [r|e|]; [| |done].
  - destruct Ho as (r0 & now & Hr0 & -> & _ & ->). assert (r0 = g) as -> by congruence.
    eexists. split; [apply lookup_insert_eq|]. repeat (split; [done|]). by right.
  - destruct Ho as [-> _]. by exists g.
Qed.

(** Without a specification nothing is sent. *)
Lemma wp_load_unspecified i s :
  unspecified i (committed s) -> wp (load_spec i) (λ o s', (exists e, o = Err e) /\ committed s' = committed s) s.
Proof.
  intros (g & Hg & Hspec & _). unfold load_spec, select_by_id. wp_step. wp_step. wp_step; [by split; [eauto|same_data_simpl]|].
  same_data_simpl. rewrite Hg. simpl. rewrite Hspec. wp_step. split; [eauto|by same_data_simpl].
Qed.
Lemma wp_prepare_unspecified self rid i j s :
  unspecified i (committed s) ->
  wp (prepare_job self rid (uuid_to_string i) j) (λ o s', (exists e, o = Err e) /\ committed s' = committed s) s.
Proof.
  intros Hi. unfold prepare_job. rewrite uuid_roundtrip. wp_step. wp_step. wp_step.
  eapply wp_mono; [by apply wp_load_unspecified|]. intros o s' [[e ->] Hc]. split; [by exists e|done].
Qed.
(** The renderer hears of no such generation. *)
Lemma runs_post_unspecified self send rid i j w :
  unspecified i (committed (pg w)) ->
  runs (post_job self send rid (uuid_to_string i) j)
    (λ r w', (exists e, r = Ok (Err e)) /\ posts w' = posts w /\ committed (pg w') = committed (pg w)) w.
Proof.
  intros Hi. unfold post_job. apply runs_bind, runs_on_pg. eapply wp_mono; [by apply wp_prepare_unspecified|].
  intros r s [[e ->] Hc]. apply runs_ret. split; [by exists e|]. split; [done|exact Hc].
Qed.
End Regeneration.

(** ** Submissions *)

(** Every row is under its id and within the constraints of its columns. *)
Definition sound (db : DB) : Prop := well_keyed db /\ forall i g, db !! i = Some g -> row_ok g = true.

Lemma wp_and {E A} (m : M E A) (P Q : outcome E A -> St -> Prop) s : wp m P s -> wp m Q s -> wp m (λ o s', P o s' /\ Q o s') s.
Proof. by split. Qed.

(** A statement of a transaction keeps a healthy database healthy. *)
Lemma wp_tick_healthy (Q : outcome db_error unit -> St -> Prop) s :
  healthy s -> (forall r s', healthy s' -> Q r s') -> wp take_tick Q s.
Proof. intros Hs HQ. apply wp_tick. intros s' Hd. pose proof (healthy_kept _ _ Hd Hs). auto. Qed.
Lemma wp_begin_healthy (Q : outcome db_error unit -> St -> Prop) s :
  healthy s -> (forall r s', healthy s' -> Q r s') -> wp begin_tx Q s.
Proof. intros Hs HQ. apply wp_begin. intros s' Hd. pose proof (healthy_kept _ _ Hd Hs). auto. Qed.
Lemma wp_commit_healthy (Q : outcome db_error unit -> St -> Prop) s :
  healthy s -> (forall r s', healthy s' -> Q r s') -> wp commit_tx Q s.
Proof. intros Hs HQ. apply wp_commit. intros s' Hd. pose proof (healthy_kept _ _ Hd Hs). auto. Qed.
Lemma wp_execute_tx_healthy {A} (q : statement A) (Q : outcome db_error A -> St -> Prop) s :
  healthy s -> (forall r s', healthy s' -> Q r s') -> wp (execute_tx q) Q s.
Proof.
  intros Hs HQ. apply wp_execute_tx. intros s' Hd. pose proof (healthy_kept _ _ Hd Hs).
  split; [auto|]. destruct (q _ _) as [[a db]|e|]; auto.
Qed.
Ltac wp_healthy_step :=
  lazymatch goal with
  | |- wp _ _ _ =>
      first [apply wp_execute_tx_healthy | apply wp_begin_healthy | apply wp_commit_healthy
            | apply (wp_tick_healthy _ _ : forall _ _, wp rollback_tx _ _)];
      [assumption|]; intros ? ? ?
  end.

Section Drawing.
Context `{HeapScanLaws} `{ForeignKeys} `{CaseTables} `{Sha256Hex}.
Context (race : DB -> DB) (new_id : uuid) (input : CreateInput).

(** The row of a submission, and the same once it is inserted. *)
Definition drawn_row : MediaGeneration := new_generation new_id input (input_fingerprint input) (input_type input).
Definition inserted_row (t : Z) : MediaGeneration := drawn_row <| created_at := Some t |> <| updated_at := Some t |>.
(** The unfinished generation with the fingerprint of the input. *)
Definition duplicate_of (db : DB) : option uuid := newest_active (in_teacher_id input) (input_fingerprint input) db.
(** The database refuses the row. *)
Definition insert_refused (db : DB) : Prop :=
  duplicate_of db = None /\ exists t e, insert_row drawn_row t (race db) = Err e.
(** The tables after a submission that fails: as they were, with what others committed, or with the new
    row, queued and without a job. *)
Definition unfinished (db db' : DB) : Prop :=
  db' = db \/ db' = race db \/
  duplicate_of db = None /\ race db !! new_id = None /\ exists t, db' = <[new_id := inserted_row t]> (race db).

Lemma duplicate_row db i : duplicate_of db = Some i -> well_keyed db ->
  exists g, db !! i = Some g /\ teacher_id g = in_teacher_id input.
Proof.
  unfold duplicate_of. intros (g & Hin & <- & Hact)%newest_active_Some Hkeys. apply scan_lookup in Hin as [j Hj].
  rewrite (Hkeys _ _ Hj). exists g. split; [done|]. unfold active_duplicate in Hact.
  apply andb_true_iff in Hact as [[Ht%bool_decide_eq_true _]%andb_true_iff _]. done.
Qed.

Lemma create_or_reuse_healthy s : healthy s -> wp (create_or_reuse race new_id input) (λ _ s', healthy s') s.
Proof.
  intros Hs. unfold create_or_reuse, Submission.attempt.
  repeat first
    [ wp_healthy_step
    | lazymatch goal with
      | |- wp (others_commit _) _ _ => apply wp_action; cbn [fst snd]
      | |- match map_err _ ?r with _ => _ end => destruct r; cbn [map_err]
      | |- match ?r with _ => _ end => destruct r
      | |- wp (match ?r with _ => _ end) _ _ => destruct r
      end
    | wp_step | assumption ].
Qed.

Lemma wp_submission s :
  wp (create_or_reuse race new_id input) (λ o s', (healthy s -> healthy s') /\ match o with
    | Ok res =>
        was_created res = true /\ res_id res = new_id /\ duplicate_of (committed s) = None /\
          race (committed s) !! new_id = None /\
          (exists t, row_ok (inserted_row t) = true /\ committed s' = <[new_id := inserted_row t]> (race (committed s)))
        \/ was_created res = false /\ duplicate_of (committed s') = Some (res_id res) /\
          (committed s' = committed s \/ committed s' = race (committed s))
    | Err _ => (committed s' = committed s \/ committed s' = race (committed s)) /\
        (healthy s -> insert_refused (committed s))
    | Panic => False end) s.
Proof.
  assert (Hh : wp (create_or_reuse race new_id input) (λ _ s', healthy s -> healthy s') s).
  { unfold wp. intros Hs. by apply create_or_reuse_healthy. }
  pose proof (wp_create_or_reuse race new_id input s) as Hspec. cbv zeta in Hspec.
  eapply wp_mono; [exact (wp_and _ _ _ _ Hh Hspec)|]. cbv beta.
  intros [res|e|] s' [Hs Hres]; (split; [exact Hs|]); [| |done].
  - destruct Hres as [_ [(Hc & Hnone & t & row & Hins & Hid)|Hres]]; [left|by right].
    apply insert_row_Ok in Hins as (-> & Hok & Hfree & _ & _ & Hdb). split; [done|]. split; [by rewrite Hid|].
    split; [done|]. split; [done|]. exists t. split; [|done]. unfold inserted_row, drawn_row. by rewrite row_ok_updated, row_ok_created.
  - destruct Hres as [Hdb Hwhy]. split; [done|]. intros Hhealthy. destruct (Hwhy Hhealthy) as (Hnone & t & e' & Hins & _).
    split; [done|]. by exists t, e'.
Qed.
End Drawing.

Section Submissions.
Context `{DbErrorText} `{UuidPrint} `{HeapScanLaws} `{ForeignKeys} `{CaseTables} `{Sha256Hex} `{Rfc3339} `{RedisU32}.
Context (cfg : ApiConfig) (tables : RelatedTables) (race : DB -> DB) (new_id job_id : uuid).
Context (principal : Principal) (payload : CreateMediaGenerationRequest).

Notation input := (create_input principal payload).
(** The generation [g] of an answer was inserted by this call. *)
Definition newly_submitted (w w' : World) (i j : uuid) (st : str) (g : MediaGeneration) : Prop :=
  i = new_id /\ j = job_id /\ st = lit "pending" /\ race (committed (pg w)) !! new_id = None /\
  duplicate_of input (committed (pg w)) = None /\
  (exists t stamp, g = (set_job_status {| js_generation_job_id := Some job_id; js_generation_status := lit "pending" |}
                          (inserted_row new_id input t)) <| updated_at := Some stamp |>) /\
  committed (pg w') = <[new_id := g]> (race (committed (pg w))) /\
  raw_prompt g = cr_raw_prompt payload /\ status g = lit "queued" /\
  generation_job_id g = Some job_id /\ generation_status g = Some (lit "pending") /\
  (jobs w' = jobs w \/ redis_pool cfg = true /\ jobs w' = jobs w ++ [job_entry new_id job_id (time (pg w'))]).
(** It was there before, the newest unfinished one with the fingerprint of the request. *)
Definition already_submitted (w w' : World) (i j : uuid) (st : str) (g : MediaGeneration) : Prop :=
  st = status g /\ j = default job_id (generation_job_id g) /\ jobs w' = jobs w /\
  duplicate_of input (committed (pg w')) = Some i /\
  (committed (pg w') = committed (pg w) \/ committed (pg w') = race (committed (pg w))).
(** Why a submission is answered with an error, and what it leaves. *)
Definition not_submitted (w : World) (e : AppError) (w' : World) : Prop :=
  jobs w' = jobs w /\
  if decide (role principal = lit "teacher") then
    if exceeded cfg w then e = limit_refusal cfg /\ pg w' = pg w
    else (exists msg, e = Internal msg) /\ unfinished race new_id input (committed (pg w)) (committed (pg w')) /\
      (healthy (pg w) -> sound (committed (pg w)) -> sound (race (committed (pg w))) ->
         insert_refused race new_id input (committed (pg w)))
  else e = Forbidden (lit "requires role 'teacher', user has '" ++ role principal ++ lit "'") /\ w' = w.
Definition submitted (w : World) (o : outcome AppError Response) (w' : World) : Prop :=
  match o with
  | Ok r =>
      role principal = lit "teacher" /\ exceeded cfg w = false /\ exists msg i j st g,
        r = response.accepted_with_message msg (tracking i j st) /\
        committed (pg w') !! i = Some g /\ teacher_id g = user_id principal /\
        (newly_submitted w w' i j st g \/ already_submitted w w' i j st g)
  | Err e => not_submitted w e w'
  | Panic => False
  end.

(** A failure after the checks. *)
Lemma fails_internally w w' msg :
  role principal = lit "teacher" -> exceeded cfg w = false -> jobs w' = jobs w ->
  unfinished race new_id input (committed (pg w)) (committed (pg w')) ->
  (healthy (pg w) -> sound (committed (pg w)) -> sound (race (committed (pg w))) ->
     insert_refused race new_id input (committed (pg w))) ->
  submitted w (Err (Internal msg)) w'.
Proof.
  intros Hrole Hex Hj Hun Hwhy. split; [done|]. rewrite decide_True by done. rewrite Hex.
  split; [by eexists|]. by split.
Qed.

Lemma runs_create w : runs (create cfg tables race new_id job_id principal payload) (submitted w) w.
Proof.
  unfold create. apply runs_bind, runs_settled. unfold require_teacher.
  case_decide as Hrole; [|split; [done|]; by rewrite decide_False].
  apply runs_bind, runs_limit. intros w1 [Hpg1 Hj1] _. destruct (exceeded cfg w) eqn:Hex.
  { split; [exact Hj1|]. rewrite decide_True by done. by rewrite Hex. }
  apply runs_bind, runs_pg_or. eapply wp_mono; [apply wp_submission|]. rewrite Hpg1.
  intros [res|e|] s1 [Hh Hres]; cbn [map_err]; [| |done].
  2: { destruct Hres as [Hdb Hwhy]. apply fails_internally; [done|done|exact Hj1| |by auto].
       cbn [pg update]. unfold unfinished. tauto. }
  destruct Hres as [(Hc & Hid & Hnone & Hfree & t & Hok & Hdb)|(Hc & Hdup & Hdb)]; rewrite Hc.
  - rewrite Hid. apply runs_bind, runs_start_job; cbn [pg update].
    + intros w2 (o & Ho) Hj2. apply runs_ret. split; [done|]. split; [done|]. do 2 eexists. exists job_id, (lit "pending"), o.
      split; [reflexivity|]. destruct Ho as (_ & _ & g0 & stamp & Hg0 & -> & _ & Hdb2).
      rewrite Hdb, lookup_insert_eq in Hg0. injection Hg0 as <-. rewrite Hdb, insert_insert_eq in Hdb2.
      split; [rewrite Hdb2; apply lookup_insert_eq|]. split; [reflexivity|]. left.
      do 3 (split; [done|]). split; [exact Hfree|]. split; [exact Hnone|]. split; [by exists t, stamp|].
      split; [exact Hdb2|]. do 4 (split; [reflexivity|]). rewrite !jobs_pg, Hj1 in Hj2. exact Hj2.
    + intros msg w2 Hdb2 Hj2 Hwhy. apply fails_internally; [done|done|by rewrite Hj2, jobs_pg| |].
      * right. right. split; [done|]. split; [done|]. exists t. by rewrite Hdb2.
      * intros Hhealthy _ _. destruct Hwhy. split; [by apply Hh|]. exists (inserted_row new_id input t).
        by rewrite Hdb, lookup_insert_eq.
  - assert (Hun : unfinished race new_id input (committed (pg w)) (committed s1)) by (unfold unfinished; tauto).
    apply runs_bind. unfold internal_with. apply runs_pg_or. eapply wp_mono; [apply wp_find_for_teacher|].
    intros [[g|]|e|] s2 [Hc2 [_ Hg]]; cbn [map_err]; [| | |done]; cbn [pg update] in *.
    + apply runs_bind, runs_or_error, runs_ret. destruct Hg as (g0 & Hg0 & Ht & ->).
      split; [done|]. split; [done|]. do 2 eexists. do 2 eexists. exists g0. split; [reflexivity|]. cbn [pg update]. rewrite Hc2.
      split; [exact Hg0|]. split; [exact Ht|]. right. split; [reflexivity|]. split; [reflexivity|].
      split; [exact Hj1|]. cbn [pg update]. by rewrite Hc2.
    + apply runs_bind, runs_or_error. apply fails_internally; [done|done|exact Hj1|cbn [pg update]; by rewrite Hc2|].
      intros _ Hs Hsr. exfalso. assert (Hk : well_keyed (committed s1)) by (destruct Hdb as [->| ->]; apply Hs || apply Hsr).
      destruct (duplicate_row _ _ _ Hdup Hk) as (x & Hx & Hteacher). by apply (Hg x).
    + apply fails_internally; [done|done|exact Hj1|cbn [pg update]; by rewrite Hc2|]. intros Hhealthy. destruct Hg. by apply Hh.
Qed.

(** The increment comes first, whatever follows. *)
Lemma create_counts w : role principal = lit "teacher" ->
  runs (create cfg tables race new_id job_id principal payload)
    (λ _ w', counts_first cfg principal "media-generations:create" w w') w.
Proof.
  intros Hrole. unfold create. apply runs_bind, runs_settled. unfold require_teacher. rewrite decide_True by done.
  apply runs_bind, runs_limit. intros w1 _ Hfirst. destruct (exceeded cfg w); [done|].
  apply (counts_first_later cfg principal _ _ w w1 Hfirst). unfold start_job, enqueue, internal_with.
  repeat first [apply issues_caught | issues_step].
Qed.
End Submissions.

Lemma lineage_head (db : DB) n i g : db !! i = Some g -> exists rest, lineage db (S n) i = g :: rest.
Proof. intros Hg. unfold lineage. rewrite Hg. by eexists. Qed.

Section RegenerationFacts.
Context `{DbErrorText} `{UuidRoundtrip} `{UuidErrorText} `{HeapScan} `{ForeignKeys}.
Context `{CaseTables} `{Sha256Hex} `{RedisU32} `{MicrosText} `{HmacSha256Hex} `{Canon.JsonLex}.
Context (cfg : ApiConfig) (tables : RelatedTables).

Lemma same_settled {A B} (o : outcome AppError A) (k k' : A -> W AppError B) w :
  (forall a, k a w = k' a w) -> (settled o ≫= k) w = (settled o ≫= k') w.
Proof. intros Hk. apply runs_same, runs_settled. by destruct o. Qed.

Lemma runs_submit_regeneration send i job_id request_id w :
  unspecified i (committed (pg w)) ->
  runs (submit_regeneration cfg send i job_id request_id)
    (λ _ w', posts w' = posts w /\ unspecified i (committed (pg w'))) w.
Proof.
  intros Hun. unfold submit_regeneration. apply runs_bind, runs_on_pg. eapply wp_mono; [apply wp_update_returning|].
  intros r s Hu. assert (Hun' : unspecified i (committed s)) by (by eapply unspecified_job_status). clear Hu.
  assert (Hrest : runs (client ← settled (python_client cfg);
      _ ← post_job client send request_id (uuid_to_string i) (uuid_to_string job_id); mret ())
      (λ _ w', posts w' = posts w /\ unspecified i (committed (pg w'))) (w <| pg := s |>)).
  { apply runs_bind, runs_settled. destruct (python_client cfg) as [client|e|]; [|done|done].
    apply runs_bind. eapply runs_mono; [by apply runs_post_unspecified|].
    intros r' w' ([e ->] & Hp & Hc). apply runs_ret. split; [exact Hp|]. cbn [pg update] in Hc. by rewrite Hc. }
  by destruct r.
Qed.
Lemma post_same self send send' rid i j w : unspecified i (committed (pg w)) ->
  post_job self send rid (uuid_to_string i) j w = post_job self send' rid (uuid_to_string i) j w.
Proof.
  intros Hi. unfold post_job. apply runs_same, runs_on_pg. eapply wp_mono; [by apply wp_prepare_unspecified|].
  by intros r s [[e ->] _].
Qed.
Lemma submit_regeneration_same send send' i job_id request_id w :
  unspecified i (committed (pg w)) ->
  submit_regeneration cfg send i job_id request_id w = submit_regeneration cfg send' i job_id request_id w.
Proof.
  intros Hun. unfold submit_regeneration. apply runs_same, runs_on_pg. eapply wp_mono; [apply wp_update_returning|].
  intros r s Hu. assert (Hun' : unspecified i (committed s)) by (by eapply unspecified_job_status). clear Hu.
  destruct r as [o|e|]; [..|done]; apply same_settled; intros client; unfold mbind, W_bind;
    by rewrite (post_same client send send').
Qed.

(** The renderer of a regeneration does not matter. *)
Lemma regenerate_ignores_renderer send send' new_id job_id request_id principal i prompt w :
  regenerate cfg tables send new_id job_id request_id principal i prompt w =
  regenerate cfg tables send' new_id job_id request_id principal i prompt w.
Proof.
  unfold regenerate. apply same_settled. intros _.
  apply runs_same, runs_limited. intros r w1 _ Hr. destruct r as [u|e|]; [|done|done]. clear u Hr.
  apply runs_same. eapply runs_own_generation; [|done|done]. intros w2 g _ _ _ _. cbn zeta.
  apply same_settled. intros _. apply runs_same, runs_pg_or.
  eapply wp_mono; [apply wp_create_regeneration|]. intros [c|e|] s3 Hres; cbn [map_err]; [|done|done].
  destruct Hres as [-> Hun]. unfold mbind, W_bind. by rewrite (submit_regeneration_same send send').
Qed.

(** A part that sends nothing to the renderer. *)
Lemma runs_unposted {E A} (m : W E A) (Q : outcome E A -> World -> Prop) w :
  issues posts_nothing m -> runs m Q w -> runs m (λ r w', posts w' = posts w /\ Q r w') w.
Proof. intros Hm HQ. split; [by apply issues_posts_nothing|exact HQ]. Qed.

(** Nothing is sent, and an answered regeneration is there, waiting. *)
Lemma runs_regenerate send new_id job_id request_id principal i prompt w :
  runs (regenerate cfg tables send new_id job_id request_id principal i prompt)
    (λ r w', posts w' = posts w /\
       match r with Ok _ => role principal = lit "teacher" /\ unspecified new_id (committed (pg w')) | _ => True end) w.
Proof.
  unfold regenerate. apply runs_bind, runs_settled.
  destruct (require_teacher_cases principal) as [[Hrole ->]|[e ->]]; [|done].
  apply runs_bind. eapply runs_mono.
  { apply runs_unposted; [by apply limited_issues|]. apply (runs_limited cfg principal _ (λ r _, r <> Panic)). by intros r w1 _ Hr. }
  intros [u|e|] w1 [<- Hr]; [|done|done]. clear u Hr. apply runs_bind. eapply runs_mono.
  { apply runs_unposted; [unfold own_generation, internal_repo; repeat issues_step|]. by apply (runs_own_generation tables i principal (λ r _, r <> Panic)). }
  intros [g|e|] w2 [<- Hr]; [|done|done]. clear Hr. cbn zeta. apply runs_bind, runs_settled. destruct (is_terminal_status _); [|done].
  apply runs_bind, runs_pg_or. eapply wp_mono; [apply wp_create_regeneration|].
  intros [c|e|] s3 Hres; cbn [map_err]; [|done|done]. destruct Hres as [-> Hun].
  apply runs_bind. eapply runs_mono; [by apply runs_submit_regeneration|].
  intros r w4 [Hp Hun4]. change (posts w4 = posts w2) in Hp. destruct r as [u|e|]; [|done|done].
  apply runs_bind, runs_pg_or. eapply wp_mono; [apply wp_find_for_teacher|].
  intros [[x|]|e|] s5 [Hc _]; cbn [map_err]; [|done..]. apply runs_bind, runs_or_error, runs_ret.
  split; [exact Hp|]. split; [done|]. cbn [pg update]. by rewrite Hc.
Qed.
End RegenerationFacts.

(** ** Properties *)


(** C22. A regeneration never reaches the renderer: the new row carries no specification, so the direct
    submission fails before its request is sent, and its failure is only logged. Whatever fails, no
    request to the renderer is among the commands issued and no job goes onto the stream; the answer and
    the state are the same whatever the renderer would say; and an accepted answer leaves a queued
    regeneration, at most marked pending, that nothing will process. *)
Theorem regeneration_is_never_rendered `{DbErrorText} `{UuidRoundtrip} `{UuidErrorText} `{HeapScan} `{ForeignKeys}
    `{CaseTables} `{Sha256Hex} `{RedisU32} `{MicrosText} `{HmacSha256Hex} `{Canon.JsonLex}
    cfg tables send send' new_id job_id request_id principal i prompt w :
  let '(o, w') := regenerate cfg tables send new_id job_id request_id principal i prompt w in
  posts w' = posts w /\ jobs w' = jobs w /\
  (o, w') = regenerate cfg tables send' new_id job_id request_id principal i prompt w /\
  match o with
  | Ok _ => exists g, committed (pg w') !! new_id = Some g /\ is_regeneration g = true /\ status g = lit "queued" /\
      generation_spec_payload g = None /\ (generation_status g = None \/ generation_status g = Some (lit "pending"))
  | _ => True
  end.
Proof.
  pose proof (runs_regenerate cfg tables send new_id job_id request_id principal i prompt w) as Hr.
  pose proof (issues_starts_nothing _ w (regenerate_starts_nothing cfg tables send new_id job_id request_id principal i prompt)) as Hj.
  rewrite <- (regenerate_ignores_renderer cfg tables send send'). unfold runs in Hr.
  destruct (regenerate cfg tables send _ _ _ _ _ _ w) as [o w']. destruct Hr as [Hp Hr].
  split; [exact Hp|]. split; [done|]. split; [done|].
  destruct o; [|done|done]. destruct Hr as (_ & g & Hg & ? & ? & ? & ?). by exists g.
Qed.

(** C35. Who may read a generation. Showing it, polling its job and regenerating it answer another
    teacher as if it did not exist. Listing a chain does not ask whose it is: with its id, any teacher
    gets the generation, all its ancestors and the regenerations made from it, prompts included. *)
Theorem chains_are_not_scoped `{DbErrorText} `{UuidRoundtrip} `{UuidErrorText} `{HeapScanLaws} `{ForeignKeys}
    `{CaseTables} `{Sha256Hex} `{RedisU32} `{MicrosText} `{HmacSha256Hex} `{Canon.JsonLex} `{Presigning}
    cfg tables send new_id job_id request_id prompt principal i g w
  (Hteacher : role principal = lit "teacher") (Hhealthy : healthy (pg w))
  (Hg : committed (pg w) !! i = Some g) (Hother : teacher_id g <> user_id principal) :
  (show tables principal i w).1 = Err (NotFound (lit "media generation not found")) /\
  (job_status cfg tables principal i w).1 = Err (NotFound (lit "media generation not found")) /\
  (forall r, (regenerate cfg tables send new_id job_id request_id principal i prompt w).1 <> Ok r) /\
  exists older younger,
    (index tables principal (Some i) w).1 =
      Ok (response.ok (obj [("ancestors"%string, Array (build_resource_from_gen <$> older ++ [g]));
                            ("children"%string, Array (build_resource_from_gen <$> younger))])) /\
    older ++ [g] = reverse (lineage (committed (pg w)) 50 i) /\
    forall x, x ∈ younger <-> generated_from_id x = Some i /\ exists j, committed (pg w) !! j = Some x.
Proof.
  assert (Ht : require_teacher principal = Ok ()) by (unfold require_teacher; by rewrite decide_True).
  assert (Hown : forall w0, pg w0 = pg w -> forall Q : outcome AppError MediaGenerationWithRelations -> World -> Prop,
    (forall w', Q (Err (NotFound (lit "media generation not found"))) w') -> runs (own_generation tables i principal) Q w0).
  { intros w0 Hw0 Q HQ. apply runs_own_generation; rewrite Hw0; [|by auto|done]. intros w' x _ _ Hx Hx'. congruence. }
  assert (Hrun : forall (m : W AppError Response) P, runs m (λ r _, P r) w -> P (m w).1) by (intros m P Hm; exact Hm).
  split; [|split; [|split]].
  - apply (Hrun _ (λ r, r = _)). unfold show. apply runs_bind, runs_settled. rewrite Ht. by apply runs_bind, Hown.
  - apply (Hrun _ (λ r, r = _)). unfold job_status. apply runs_bind, runs_settled. rewrite Ht. by apply runs_bind, Hown.
  - intros r. apply (Hrun _ (λ o, o <> Ok r)). unfold regenerate. apply runs_bind, runs_settled. rewrite Ht.
    apply runs_bind, runs_limited. intros [u|e|] w1 [Hpg _] _; [|done|done]. by apply runs_bind, Hown.
  - pose proof (wp_find_chain i (pg w)) as Hchain. unfold wp in Hchain.
    destruct (find_chain i (pg w)) as [[chain|e|] s] eqn:Ec; cbn in Hchain; [|by destruct Hchain|done].
    destruct Hchain as (_ & Hanc & Hkids). exists (removelast (ancestors chain)), (children chain).
    assert (Hl : exists older, ancestors chain = older ++ [g]).
    { destruct (lineage_head (committed (pg w)) 49 i g Hg) as [rest El]. rewrite El in Hanc. exists (reverse rest).
      by rewrite <- (reverse_involutive (ancestors chain)), Hanc, reverse_cons. }
    destruct Hl as [older Hl]. rewrite Hl, removelast_last, <- Hl. split; [|split].
    + unfold index. rewrite Ht. unfold mbind, W_bind, settled, internal_repo, pg_or, on_pg. by rewrite Ec.
    + by rewrite <- Hanc, reverse_involutive.
    + intros x. rewrite Hkids, order_by_perm, list_elem_of_filter, bool_decide_eq_true, scan_lookup. done.
Qed.

Module GenerationApiWitness.
#[local] Existing Instances decimal_uuid decimal_uuid_error decimal_print decimal_time plain_case plain_lex.
#[local] Existing Instances table_scan table_scan_laws no_foreign_keys.
#[local] Instance no_text : DbErrorText := λ _, lit "down".
#[local] Instance first_chars : Sha256Hex := λ s, take 64 (s ++ replicate 64 48).
#[local] Instance joined : HmacSha256Hex := λ key data, key ++ data.
#[local] Instance plain_u32 : RedisU32 := λ v, match v with RInt n => inr n | _ => inl (lit "not a number") end.
#[local] Instance decimal_micros : MicrosText := z_to_string.
#[local] Instance plain_url : Presigning :=
  {| presigning_config _ := None; presigned_uri bucket key _ := inr (lit "https://transit/" ++ bucket ++ lit "/" ++ key) |}.
#[local] Instance decimal_roundtrip : UuidRoundtrip := parse_decimal_to_string.

Definition config : ApiConfig := mkApiConfig true 5 3600 (lit "transit") (lit "https://renderer") (lit "https://gateway") (lit "k").
Definition nothing_else : RelatedTables := Build_RelatedTables [] [] [] [] [].
Definition rini : Principal := mkPrincipal 7 (lit "teacher").
Definition budi : Principal := mkPrincipal 8 (lit "teacher").
Definition quiz : CreateMediaGenerationRequest :=
  {| cr_raw_prompt := lit "a quiz on fractions"; cr_preferred_output_type := None; cr_subject_id := None; cr_sub_subject_id := None |}.
Definition answering (db : DB) (conns : list (str + unit)) (answers : list (str + redis_value)) : World :=
  mkWorld (sample_state db 0) conns answers [] 0 0 0.
Definition undisturbed : DB -> DB := λ db, db.

(** The limit is counted, then the stream is out of reach: the answer is an accepted one. *)
Definition first_try := create config nothing_else undisturbed 5 50 rini quiz
  (answering ∅ [inr (); inl (lit "no connection")] [inr (RInt 1); inr (RInt 1)]).
(** The teacher submits again, Redis is back: the job announced is the lost one, and is not started. *)
Definition second_try := create config nothing_else undisturbed 6 60 rini quiz
  (answering (committed (pg first_try.2)) [inr (); inr ()] [inr (RInt 2); inr RNil]).
Example a_lost_job_stays_lost :
  first_try.1 = Ok (response.accepted_with_message (lit "Generasi media berhasil dibuat dan sedang diproses.")
                      (tracking 5 50 (lit "pending"))) /\ jobs first_try.2 = [] /\
  second_try.1 = Ok (response.accepted_with_message (lit "Generasi media berhasil dibuat.")
                      (tracking 5 50 (lit "queued"))) /\ jobs second_try.2 = [].
Proof. repeat split; vm_compute; reflexivity. Qed.


Definition finished : DB := {[ 1 := sample_row <| status := lit "completed" |> ]}.
Definition again (send : JobRequest -> job_reply) := regenerate config nothing_else send 9 90 91 rini 1 (lit "shorter")
  (answering finished [inr ()] [inr (RInt 1); inr (RInt 1)]).
Lemma on_pair {A B} (P : A -> B -> Prop) (x : A * B) : (let '(a, b) := x in P a b) -> P x.1 x.2.
Proof. by destruct x. Qed.
(** With a specification the same submission sends its request. *)
Example specified_is_posted :
  length (posts (post_job (mkPythonClient (lit "https://renderer") (lit "https://gateway") (lit "k")) (λ _, Reply 202 (inr Null)) 91
    (uuid_to_string 1) (uuid_to_string 90) (answering {[ 1 := sample_row <| generation_spec_payload := Some Null |> ]} [] [])).2) = 1%nat.
Proof. vm_compute. reflexivity. Qed.
Lemma regeneration_is_never_rendered_witness :
  (exists r, (again (λ _, NoReply (lit "refused"))).1 = Ok r) /\ posts (again (λ _, NoReply (lit "refused"))).2 = [] /\ again (λ _, NoReply (lit "refused")) = again (λ _, Reply 202 (inl [])).
Proof.
  split.
  { destruct (again _).1 as [r|e|] eqn:E; [by exists r|vm_compute in E; discriminate E..]. }
  pose proof (regeneration_is_never_rendered config nothing_else (λ _, NoReply (lit "refused")) (λ _, Reply 202 (inl [])) 9 90 91
    rini 1 (lit "shorter") (answering finished [inr ()] [inr (RInt 1); inr (RInt 1)])) as Hr.
  apply (on_pair (λ o w', posts w' = _ /\ _ /\ (o, w') = _ /\ _)) in Hr. destruct Hr as (Hp & _ & Hsame & _).
  split; [exact Hp|]. etransitivity; [|exact Hsame]. apply surjective_pairing.
Defined.

Definition chains_db : DB := <[2 := sample_row <| id := 2 |> <| generated_from_id := Some 1 |> ]> sample_db.
Lemma chains_are_not_scoped_witness :
  (show nothing_else budi 1 (answering chains_db [] [])).1 = Err (NotFound (lit "media generation not found")) /\
  exists r, (index nothing_else budi (Some 1) (answering chains_db [] [])).1 = Ok r.
Proof.
  pose proof (chains_are_not_scoped config nothing_else (λ _, Reply 202 (inl [])) 9 90 91 (lit "shorter") budi 1 sample_row
    (answering chains_db [] []) eq_refl (sample_healthy chains_db 0) ltac:(vm_compute; reflexivity) ltac:(vm_compute; discriminate))
    as (Hshow & _ & _ & older & younger & Hr & _).
  split; [exact Hshow|by eexists].
Defined.
End GenerationApiWitness.
