(* ===== verification/ClarificationApi.v ===== *)
(** * The endpoints of clarification (src/src/api/rest/clarification.rs)

    The questions before a generation, and the two ways to start one from them. The questions are
    computed by Clarification.v; for slides a language model is asked for more. Starting puts an
    existing generation back to its first state, or creates one. *)

From stdpp Require Import base gmap list option strings fin_maps.
From Stdlib Require Import ZArith Lia.
From S2P Require Import Prelude RustStr Utf8 Json Text Standards Clarification Samples Lifecycle Store Effects AuditTrail Repo Submission Decision GenerationSpec Workflow Redis Queue UserLimit Router Webhook Rest GenerationApi.
#[local] Open Scope Z_scope.

(** ** Requests and answers *)

Record PreflightRequest := {
  pq_raw_prompt : str;
  pq_preferred_output_type : option str;
  pq_subject_id : option Z;
  pq_sub_subject_id : option Z
}.
(** The answers in the order in which the map gives them. *)
Record ConfirmRequest := {
  cq_generation_id : str;
  cq_enriched_prompt : str;
  cq_answers : list (str * str);
  cq_subject_id : option Z;
  cq_sub_subject_id : option Z
}.
Record PreflightResponseData := mkPreflightData {
  pd_generation_id : str;
  pd_detected : DetectedInfo;
  pd_gaps : list ContentGap;
  pd_suggested_prompt : str;
  pd_is_ready : bool;
  pd_total_required_gaps : nat;
  pd_total_recommended_gaps : nat
}.
#[export] Instance PreflightResponseData_eta : Eta PreflightResponseData := λ d,
  mkPreflightData (pd_generation_id d) (pd_detected d) (pd_gaps d) (pd_suggested_prompt d) (pd_is_ready d)
    (pd_total_required_gaps d) (pd_total_recommended_gaps d).

Definition detected_value (d : DetectedInfo) : value :=
  obj (present "output_type" (di_output_type d) ++ present "subject" (di_subject d)
       ++ match di_subject_id d with Some i => [("subject_id"%string, jint i)] | None => [] end
       ++ present "audience" (di_audience d) ++ present "topic" (di_topic d)
       ++ [("content_type"%string, String (di_content_type d)); ("confidence"%string, Number (NFloat (di_confidence d)))]).
Definition chip_json (c : SuggestionChip) : value :=
  obj [("value", String (chip_value c)); ("label", String (chip_label c))]%string.
Definition gap_value (g : ContentGap) : value :=
  obj ([ ("field_id"%string, String (gap_field_id g)); ("question"%string, String (gap_question g));
         ("priority"%string, String (gap_priority g)); ("input_type"%string, String (gap_input_type g));
         ("suggestions"%string, Array (chip_json <$> gap_suggestions g)) ]
       ++ present "detected_value" (gap_detected_value g)).
Definition preflight_value (d : PreflightResponseData) : value :=
  obj [ ("generation_id", String (pd_generation_id d)); ("detected", detected_value (pd_detected d));
        ("gaps", Array (gap_value <$> pd_gaps d)); ("suggested_prompt", String (pd_suggested_prompt d));
        ("is_ready", Bool (pd_is_ready d)); ("total_required_gaps", jint (Z.of_nat (pd_total_required_gaps d)));
        ("total_recommended_gaps", jint (Z.of_nat (pd_total_recommended_gaps d))) ]%string.

(** ** Questions for each slide *)

(** [str::parse::<usize>]. *)
Definition parse_usize (s : str) : option Z :=
  match s with
  | 45 :: _ => None
  | _ => n ← parse_decimal s; if (0 <=? n) && (n <? 2 ^ 64) then Some n else None
  end.
Definition as_u64 (v : value) : option Z :=
  match v with Number (NInt n) => if (0 <=? n) && (n <? 2 ^ 64) then Some n else None | _ => None end.

(** A text whose grave accents stand for quotation marks. *)
Definition quoted (s : string) : str := replace_char 96 [34] (lit s).
Arguments quoted s%_string.

Definition system_instruction : str :=
  quoted "Anda adalah asisten desain kurikulum yang ahli dalam membuat presentasi pembelajaran yang menarik dan kontekstual." ++
  [10; 10] ++
  quoted "Tugas Anda adalah membuat daftar saran slide-by-slide yang UNIK dan SESUAI KONTEKS untuk presentasi pembelajaran." ++
  [10; 10] ++
  quoted "PENTING:" ++ [10] ++
  quoted "1. Judul setiap slide harus SPESIFIK dan RELEVAN dengan topik, bukan generik" ++ [10] ++
  quoted "2. Saran konten harus CONTEKSTUAL - pertimbangkan:" ++ [10] ++
  quoted "   - Topik spesifik (misal: 'Siklus Air' bukan sekadar 'Materi Umum')" ++ [10] ++
  quoted "   - Tingkat kelas/audience (misal: kelas 4 SD butuh bahasa sederhana dan contoh sehari-hari)" ++
  [10] ++
  quoted "   - Subjek/mata pelajaran" ++ [10] ++
  quoted "3. Gunakan bahasa Indonesia yang natural dan mudah dipahami" ++ [10] ++
  quoted "4. Setiap saran harus max 5 kata" ++ [10] ++
  quoted "5. Buat saran yang BERBEDA untuk setiap slide, jangan mengulang" ++ [10] ++
  quoted "6. Pertimbangkan struktur presentasi yang efektif:" ++ [10] ++
  quoted "   - Slide 1: Judul yang menarik (bukan sekadar 'Judul')" ++ [10] ++
  quoted "   - Slide berikutnya: konten spesifik sesuai topik" ++ [10] ++
  quoted "   - Slide terakhir: penutup/evaluasi yang relevan" ++ [10; 10] ++
  quoted "Contoh untuk topik 'Siklus Air kelas 4 SD':" ++ [10] ++
  quoted "- Slide 1: 'Siklus Air: Perjalanan Air di Sekitar Kita' (bukan 'Judul: Pembelajaran Siklus Air')" ++
  [10] ++
  quoted "- Slide 2: 'Air Menguap dari Laut dan Sungai' (bukan 'Definisi Dasar Siklus Air')" ++ [10] ++
  quoted "- Slide 3: 'Uap Air Membentuk Awan' (bukan 'Contoh Pertama Siklus Air')" ++ [10; 10] ++
  quoted "Return a JSON object with a list of slides, each containing:" ++ [10] ++
  quoted "- slide_index: nomor slide" ++ [10] ++
  quoted "- slide_title: judul slide yang SPESIFIK dan menarik (bukan generik)" ++ [10] ++
  quoted "- suggestions: exactly 3 saran konten (value dan label, max 5 kata)".
Definition slides_prompt (topic subject audience : str) (slide_count : Z) : str :=
  quoted "KONTEKS PEMBUATAN PRESENTASI:" ++ [10; 10] ++
  quoted "Topik: " ++ topic ++ [10] ++
  quoted "Mata Pelajaran: " ++ subject ++ [10] ++
  quoted "Target Audience/Kelas: " ++ audience ++ [10] ++
  quoted "Jumlah Slide: " ++ z_to_string slide_count ++ [10; 10] ++
  quoted "INSTRUKSI:" ++ [10] ++
  quoted "Buatkan daftar saran slide-by-slide yang SPESIFIK dan UNIK untuk presentasi pembelajaran ini." ++
  [10] ++
  quoted "Setiap slide harus memiliki judul yang RELEVAN dengan topik dan konteks, bukan judul generik." ++
  [10] ++
  quoted "Saran konten harus CONTEKSTUAL dan SESUAI dengan tingkat pemahaman audience." ++ [10; 10] ++
  quoted "Contoh yang BAIK (untuk topik 'Siklus Air', Kelas 4 SD):" ++ [10] ++
  quoted "- Slide 1: 'Siklus Air: Perjalanan Air di Sekitar Kita' dengan saran: ['Air menguap dari laut', 'Uap naik ke langit', 'Awan terbentuk']" ++
  [10] ++
  quoted "- Slide 2: 'Menguap dan Mengembun' dengan saran: ['Air panas jadi uap', 'Uap dingin jadi air', 'Fase dalam siklus']" ++
  [10; 10] ++
  quoted "Contoh yang BURUK (jangan lakukan ini):" ++ [10] ++
  quoted "- Slide 1: 'Judul: Pembelajaran Siklus Air' - ini terlalu generik" ++ [10] ++
  quoted "- Slide 2: 'Definisi Dasar Siklus Air' - ini tidak kontekstual" ++ [10; 10] ++
  quoted "Return a JSON object in this exact format:" ++ [10] ++
  quoted "{" ++ [10] ++
  quoted "  `slides`: [" ++ [10] ++
  quoted "    {" ++ [10] ++
  quoted "      `slide_index`: 1," ++ [10] ++
  quoted "      `slide_title`: `Judul yang Spesifik dan Menarik`," ++ [10] ++
  quoted "      `suggestions`: [" ++ [10] ++
  quoted "        {`value`: `saran kontekstual 1`, `label`: `label 1`}," ++ [10] ++
  quoted "        {`value`: `saran kontekstual 2`, `label`: `label 2`}," ++ [10] ++
  quoted "        {`value`: `saran kontekstual 3`, `label`: `label 3`}" ++ [10] ++
  quoted "      ]" ++ [10] ++
  quoted "    }" ++ [10] ++
  quoted "  ]" ++ [10] ++
  quoted "}".

Definition slide : Type := Z * str * list SuggestionChip.
Definition slide_chips (slide_json : value) : list SuggestionChip :=
  match get (lit "suggestions") slide_json ≫= as_array with
  | Some items =>
      items ≫= λ item,
        let val := default [] (get (lit "value") item ≫= Json.as_str) in
        let lbl := default val (get (lit "label") item ≫= Json.as_str) in
        if bool_decide (val = []) then [] else [{| chip_value := val; chip_label := lbl |}]
  | None => []
  end.
Definition slide_of (slide_json : value) : list slide :=
  let index := default 0 (get (lit "slide_index") slide_json ≫= as_u64) in
  let title := default [] (get (lit "slide_title") slide_json ≫= Json.as_str) in
  let chips := slide_chips slide_json in
  if (0 <? index) && negb (bool_decide (title = [])) && negb (bool_decide (chips = []))
  then [(index, title, chips)] else [].
(** What is kept of a reply; [parse_value] is serde_json's parser. *)
Definition llm_slides (parse_value : str -> option value) (reply : answer) : list slide :=
  match reply with
  | inr resp =>
      match first_choice_content resp ≫= parse_value with
      | Some parsed => match get (lit "slides") parsed ≫= as_array with Some slides => slides ≫= slide_of | None => [] end
      | None => []
      end
  | inl _ => []
  end.

Definition same_chip (s : str) : SuggestionChip := {| chip_value := s; chip_label := s |}.
(** The rule-based questions. *)
Definition fallback_slide (topic : str) (i : Z) : slide :=
  let named (title : string) := lit title ++ lit " (" ++ topic ++ lit ")" in
  let about (words : list string) := (λ w, same_chip (lit w ++ topic)) <$> words in
  if i =? 1 then (i, named "Slide 1: Pembuka / Judul"%string,
    about ["Judul: Pembelajaran "; "Judul: Mengenal "; "Judul: Pengantar "]%string)
  else if i =? 2 then (i, named "Slide 2: Pengertian / Konsep"%string,
    about ["Definisi dasar "; "Latar belakang "; "Gambaran umum "]%string)
  else if i =? 3 then (i, named "Slide 3: Materi Inti / Contoh"%string,
    about ["Contoh pertama "; "Struktur dan bagian "; "Cara kerja "]%string)
  else if i =? 4 then (i, named "Slide 4: Pembahasan / Aplikasi"%string,
    about ["Penerapan "; "Latihan bersama "; "Studi kasus "]%string)
  else (i, lit "Slide " ++ z_to_string i ++ lit ": Penutup / Evaluasi (" ++ topic ++ lit ")",
    (λ w, same_chip (lit w)) <$> ["Ringkasan & Kuis"; "Latihan Soal Mandiri"; "Kesimpulan & Penutup"]%string).
(** [1..=slide_count]. *)
Definition fallback_slides (topic : str) (slide_count : Z) : list slide :=
  (λ k, fallback_slide topic (Z.of_nat k)) <$> seq 1 (Z.to_nat slide_count).

Definition slide_gap (s : slide) : ContentGap :=
  let '(index, title, chips) := s in
  {| gap_field_id := lit "slide_" ++ z_to_string index; gap_question := lit "Apa isi dari " ++ title ++ lit "?";
     gap_priority := lit "recommended"; gap_input_type := lit "text_input"; gap_suggestions := chips;
     gap_detected_value := None |}.
(** The loop that appends them. *)
Definition push_slide (d : PreflightResponseData) (s : slide) : PreflightResponseData :=
  d <| pd_gaps := pd_gaps d ++ [slide_gap s] |> <| pd_total_recommended_gaps := S (pd_total_recommended_gaps d) |>.

Section Questions.
Context `{CaseTables} `{Regexes}.
Context (api_key model : str) (complete : CompletionRequest -> answer) (parse_value : str -> option value).

Definition slide_count (raw_prompt : str) : Z :=
  default 5 (option_or (detect_slide_count raw_prompt) (detect_page_count raw_prompt) ≫= parse_usize).
Definition slides_request (topic : str) (detected : DetectedInfo) (count : Z) : CompletionRequest :=
  with_json_mode (new_request model
    [ {| Router.role := lit "system"; content := system_instruction |};
      {| Router.role := lit "user";
         content := slides_prompt topic (default [] (di_subject detected)) (default (lit "Umum") (di_audience detected)) count |} ]).
Definition slide_questions (raw_prompt : str) (detected : DetectedInfo) : option (list slide) :=
  topic ← extract_topic raw_prompt;
  let topic := default raw_prompt topic in
  let count := slide_count raw_prompt in
  let llm_suggestions :=
    if bool_decide (api_key = []) then []
    else llm_slides parse_value (complete (slides_request topic detected count)) in
  Some (match llm_suggestions with [] => fallback_slides topic count | _ => llm_suggestions end).

(** The answer's data, once the name of the subject is known. *)
Definition with_slides (raw_prompt : str) (d : PreflightResponseData) : option PreflightResponseData :=
  if decide (di_output_type (pd_detected d) = Some (lit "pptx")) then
    slides ← slide_questions raw_prompt (pd_detected d);
    Some ((foldl push_slide d slides) <| pd_is_ready := false |>)
  else Some d.
Definition named_detected (d : DetectedInfo) (subject : option str) : DetectedInfo :=
  {| di_output_type := di_output_type d; di_subject := subject; di_subject_id := di_subject_id d;
     di_audience := di_audience d; di_topic := di_topic d; di_content_type := di_content_type d;
     di_confidence := di_confidence d |}.
Definition response_data (r : ClarificationResponse) (detected : DetectedInfo) : PreflightResponseData :=
  mkPreflightData (cl_generation_id r) detected (cl_gaps r) (cl_suggested_prompt r) (cl_is_ready r)
    (cl_total_required_gaps r) (cl_total_recommended_gaps r).

(** ** The handlers *)

Context `{DbErrorText} `{UuidPrint} `{UuidText} `{UuidErrorText} `{HeapScan} `{ForeignKeys}.
Context `{Sha256Hex} `{Rfc3339} `{RedisU32}.
Context (cfg : ApiConfig) (tables : RelatedTables).

(** [resolve_subject_name]: a failed query names nothing. *)
Definition resolve_subject_name (subject_id : Z) : W AppError (option str) :=
  found ← on_pg (execute (λ _ db, Ok (subj_name <$> row_with subj_id (subjects tables) subject_id, db)));
  mret (match found with Ok name => name | _ => None end).

(** [new_id] is drawn. *)
Definition preflight_data (new_id : uuid) (payload : PreflightRequest) : W AppError PreflightResponseData :=
  _ ← settled (if bool_decide (trim (pq_raw_prompt payload) = [])
               then Err (Validation (lit "raw_prompt tidak boleh kosong")) else Ok ());
  r ← settled (of_panicking (Clarification.preflight (uuid_to_string new_id)
        {| pf_raw_prompt := pq_raw_prompt payload; pf_preferred_output_type := pq_preferred_output_type payload;
           pf_subject_id := pq_subject_id payload; pf_sub_subject_id := pq_sub_subject_id payload |}));
  detected ← match di_subject_id (cl_detected r) with
             | Some subject_id => subject ← resolve_subject_name subject_id; mret (named_detected (cl_detected r) subject)
             | None => mret (cl_detected r)
             end;
  settled (of_panicking (with_slides (pq_raw_prompt payload) (response_data r detected))).
Definition preflight (new_id : uuid) (principal : Principal) (payload : PreflightRequest) : W AppError Response :=
  _ ← settled (require_teacher principal);
  d ← preflight_data new_id payload;
  mret (response.ok (preflight_value d)).

(** The statuses after which a generation is left as it is. *)
Definition over (status : str) : bool :=
  bool_decide (status = lit "completed") || bool_decide (status = lit "failed") || bool_decide (status = lit "cancelled").
(** The answer for such a generation; [job_id] is drawn for one without a job. *)
Definition already_over (g : MediaGeneration) (job_id : uuid) : Response :=
  response.accepted_with_message (lit "Generasi media sudah dalam proses.")
    (tracking (id g) (default job_id (generation_job_id g)) (status g)).

(** From the reset to the answer, the part the two handlers share. *)
Definition restart (i job_id : uuid) (prompt : str) (skipped : bool) (state : value) (message : str) :
    W AppError Response :=
  _ ← internal_with "failed to reset generation for reprocessing"%string (reset_for_reprocessing i prompt);
  t ← now;
  _ ← internal_with "failed to update clarification state"%string (update_clarification_state i
        {| cs_clarification_state := Some state; cs_clarified_at := Some t; cs_clarification_skipped := skipped |});
  _ ← start_job cfg i job_id;
  mret (response.accepted_with_message message (tracking i job_id (lit "pending"))).

Definition confirm_input (principal : Principal) (payload : ConfirmRequest) : CreateInput :=
  {| in_teacher_id := user_id principal; in_raw_prompt := cq_enriched_prompt payload;
     in_preferred_output_type :=
       option_or ((list_to_map (cq_answers payload) : gmap str str) !! lit "output_type") (Some (lit "auto"));
     in_subject_id := cq_subject_id payload; in_sub_subject_id := cq_sub_subject_id payload;
     in_provider_metadata := default_metadata |}.
Definition confirmed_state (payload : ConfirmRequest) : value :=
  obj [ ("answers", Object ((λ '(k, a), (k, String a)) <$> cq_answers payload));
        ("suggested_prompt", String (cq_enriched_prompt payload));
        ("generation_id", String (cq_generation_id payload)) ]%string.
Definition confirm (race : DB -> DB) (new_id job_id : uuid) (principal : Principal) (payload : ConfirmRequest) :
    W AppError Response :=
  _ ← settled (require_teacher principal);
  _ ← settled (if bool_decide (trim (cq_enriched_prompt payload) = [])
               then Err (Validation (lit "enriched_prompt tidak boleh kosong")) else Ok ());
  generation_id ← settled (match parse_uuid_str (cq_generation_id payload) with
                           | Some u => Ok u
                           | None => Err (Validation (lit "generation_id tidak valid: " ++ uuid_error_text (cq_generation_id payload)))
                           end);
  existing ← internal_repo (find_by_id_for_teacher tables generation_id (user_id principal));
  target ← match existing with
           | Some gen =>
               let g := Repo.generation gen in
               mret (if over (status g) then inl (already_over g job_id) else inr (id g))
           | None =>
               result ← pg_or (λ e, Internal (lit "failed to create media generation: " ++ submission_error_text e))
                          (create_or_reuse race new_id (confirm_input principal payload));
               mret (inr (res_id result))
           end;
  match target with
  | inl answered => mret answered
  | inr gen_id =>
      restart gen_id job_id (cq_enriched_prompt payload) false (confirmed_state payload)
        (lit "Generasi media berhasil dibuat dan sedang diproses.")
  end.

Definition skipped_state (enriched_prompt : str) : value :=
  obj [("answers", Object []); ("suggested_prompt", String enriched_prompt); ("skipped", Bool true)]%string.
Definition skip_clarification (job_id : uuid) (principal : Principal) (i : uuid) : W AppError Response :=
  _ ← settled (require_teacher principal);
  generation ← own_generation tables i principal;
  let gen := Repo.generation generation in
  if over (status gen) then mret (already_over gen job_id)
  else
    enriched_prompt ← settled (of_panicking (enrich_prompt (raw_prompt gen) ∅));
    restart i job_id enriched_prompt true (skipped_state enriched_prompt)
      (lit "Generasi media berhasil dibuat (clarifikasi dilewati).").
End Questions.

(** ** Lemmas: starting over *)

(** A row put back to its first state, with a prompt, the answers and a job. *)
Definition restarted (job_id : uuid) (prompt : str) (skipped : bool) (state : value) (g0 g : MediaGeneration) : Prop :=
  exists clarified stamp,
    g = (set_job_status {| js_generation_job_id := Some job_id; js_generation_status := lit "pending" |}
          (set_clarification {| cs_clarification_state := Some state; cs_clarified_at := Some clarified;
                                cs_clarification_skipped := skipped |} (reset_row prompt g0))) <| updated_at := Some stamp |>.
(** At most one entry, for this job. *)
Definition one_job (cfg : ApiConfig) `{UuidPrint} `{Rfc3339} (i job_id : uuid) (w w' : World) : Prop :=
  jobs w' = jobs w \/ redis_pool cfg = true /\ jobs w' = jobs w ++ [job_entry i job_id (time (pg w'))].
(** What a start that fails leaves: the row as it was, reset, or reset with the answers; in both cases with
    the job it had. No other row is touched. *)
Definition half_restarted (prompt : str) (skipped : bool) (state : value) (i : uuid) (db db' : DB) : Prop :=
  db' = db \/ exists g0 stamp, db !! i = Some g0 /\
    (db' = <[i := (reset_row prompt g0) <| updated_at := Some stamp |>]> db \/
     exists clarified,
       db' = <[i := (set_clarification {| cs_clarification_state := Some state; cs_clarified_at := Some clarified;
                       cs_clarification_skipped := skipped |} (reset_row prompt g0)) <| updated_at := Some stamp |>]> db).
(** Nothing keeps an update of this row from succeeding. *)
Definition updatable (i : uuid) (s : St) : Prop := healthy s /\ exists g, committed s !! i = Some g /\ row_ok g = true.

Lemma row_ok_reset prompt stamp g : row_ok g = true -> row_ok ((reset_row prompt g) <| updated_at := stamp |>) = true.
Proof. destruct g. row_ok_split. Qed.

Section Restarts.
Context `{DbErrorText} `{UuidPrint} `{HeapScanLaws} `{ForeignKeys} `{Rfc3339} `{RedisU32}.
Context (cfg : ApiConfig).

(** An update of the handler: its row, or an error. *)
Lemma runs_row_update what (m : M repo_error MediaGeneration) i f (Q : outcome AppError MediaGeneration -> World -> Prop) w :
  (forall s, wp m (row_updated i f s) s) -> (forall g, row_ok g = true -> row_ok (f g) = true) ->
  (forall g0 stamp s, committed (pg w) !! i = Some g0 ->
     committed s = <[i := (f g0) <| updated_at := Some stamp |>]> (committed (pg w)) ->
     (updatable i (pg w) -> updatable i s) ->
     Q (Ok ((f g0) <| updated_at := Some stamp |>)) (w <| pg := s |>)) ->
  (forall msg s, committed s = committed (pg w) -> ¬ updatable i (pg w) -> Q (Err (Internal msg)) (w <| pg := s |>)) ->
  runs (internal_with what m) Q w.
Proof.
  intros Hm Hf Hok Herr. apply runs_pg_or. eapply wp_mono; [apply Hm|]. intros r s (Hh & _ & Hr).
  destruct r as [g|e|]; cbn [map_err]; [| |done].
  - destruct Hr as (g0 & stamp & Hg0 & -> & Hrow & Hdb). apply Hok; [done|done|]. intros [Hs _]. split; [by apply Hh|].
    eexists. rewrite Hdb, lookup_insert_eq. by split.
  - destruct Hr as [Hr Hwhy]. apply Herr; [done|]. intros [Hs (g & Hg & Hrow)].
    destruct (Hwhy Hs) as [Hn|[_ (g1 & Hg1 & Hbad)]]; [congruence|]. assert (g1 = g) as -> by congruence.
    by rewrite Hf in Hbad.
Qed.

Lemma runs_restart i job_id prompt skipped state msg (Q : outcome AppError Response -> World -> Prop) w :
  (forall w' g0 g, committed (pg w) !! i = Some g0 -> restarted job_id prompt skipped state g0 g ->
     committed (pg w') = <[i := g]> (committed (pg w)) -> one_job cfg i job_id w w' ->
     Q (Ok (response.accepted_with_message msg (tracking i job_id (lit "pending")))) w') ->
  (forall msg w', half_restarted prompt skipped state i (committed (pg w)) (committed (pg w')) -> jobs w' = jobs w ->
     ¬ updatable i (pg w) -> Q (Err (Internal msg)) w') ->
  runs (restart cfg i job_id prompt skipped state msg) Q w.
Proof.
  intros Hok Herr. unfold restart. apply runs_bind.
  eapply runs_row_update; [intros s; apply wp_update_returning|intros g; apply (row_ok_reset prompt (updated_at g))| |].
  2: { intros msg' s Hs Hno. apply Herr; [by left|done|exact Hno]. }
  intros g0 stamp s Hg0 Hs Hup. apply runs_bind, runs_now, runs_bind.
  eapply runs_row_update; [intros s1; apply wp_update_returning| | |]; cbn [pg update]; rewrite ?Hs.
  { intros g Hg. by destruct g. }
  2: { intros msg' s1 Hs1 Hno. apply Herr; [|done|by intros Hu%Hup]. right. exists g0, stamp. split; [done|]. by left. }
  rewrite lookup_insert_eq. intros g1 stamp1 s1 Hg1 Hs1 Hup1. apply Some_inj in Hg1 as <-. rewrite insert_insert_eq in Hs1.
  apply runs_bind, runs_start_job.
  - intros w' [o Ho] Hj. apply runs_ret. destruct Ho as (_ & _ & g2 & stamp2 & Hg2 & -> & _ & Hdb). cbn [pg update] in *.
    rewrite Hs1, lookup_insert_eq in Hg2. injection Hg2 as <-. rewrite Hs1, insert_insert_eq in Hdb.
    eapply Hok; [exact Hg0| |exact Hdb|exact Hj]. exists (time s), stamp2. reflexivity.
  - intros msg' w' Hdb Hj Hno. apply Herr; [|exact Hj|intros Hu; exact (Hno (Hup1 (Hup Hu)))]. cbn [pg update] in Hdb. rewrite Hdb, Hs1.
    right. exists g0, stamp1. split; [done|]. right. exists (time s).
    apply (f_equal (λ g, <[i := g]> (committed (pg w)))). reflexivity.
Qed.
End Restarts.

(** ** Lemmas: confirming *)

Section Confirming.
Context `{DbErrorText} `{UuidPrint} `{UuidText} `{UuidErrorText} `{HeapScanLaws} `{ForeignKeys}.
Context `{CaseTables} `{Sha256Hex} `{Rfc3339} `{RedisU32}.
Context (cfg : ApiConfig) (tables : RelatedTables) (race : DB -> DB) (new_id job_id : uuid).
Context (principal : Principal) (payload : ConfirmRequest).

(** The generation [g] of the teacher under the id of the request. *)
Definition own_row (db : DB) (i : uuid) (g : MediaGeneration) : Prop :=
  db !! i = Some g /\ teacher_id g = user_id principal.
(** What the submission of the prompt gives: a new generation, or the unfinished one with its fingerprint;
    and the tables it leaves. *)
Definition submitted_prompt (db : DB) (i : uuid) (db1 : DB) : Prop :=
  let input := confirm_input principal payload in
  duplicate_of input db = None /\ race db !! new_id = None /\ i = new_id /\
    (exists t, db1 = <[new_id := inserted_row new_id input t]> (race db)) \/
  (db1 = db \/ db1 = race db) /\ duplicate_of input db1 = Some i.
(** Where the generation that is started comes from, and the tables before it is: the one asked for;
    otherwise the submission of the prompt. *)
Definition origin (db : DB) (asked i : uuid) (db1 : DB) : Prop :=
  i = asked /\ db1 = db /\ (exists g0, own_row db asked g0 /\ over (status g0) = false) \/
  (forall g, ¬ own_row db asked g) /\ submitted_prompt db i db1.
(** What a failure after the checks leaves. *)
Definition interrupted (db : DB) (asked : uuid) (db' : DB) : Prop :=
  db' = db \/ (forall g, ¬ own_row db asked g) /\ db' = race db \/
  exists i db1, origin db asked i db1 /\
    half_restarted (cq_enriched_prompt payload) false (confirmed_state payload) i db1 db'.
(** Why a confirmation is answered with an error, and what it leaves. *)
Definition not_confirmed (w : World) (e : AppError) (w' : World) : Prop :=
  jobs w' = jobs w /\
  if decide (role principal = lit "teacher") then
    if bool_decide (trim (cq_enriched_prompt payload) = []) then
      e = Validation (lit "enriched_prompt tidak boleh kosong") /\ w' = w
    else match parse_uuid_str (cq_generation_id payload) with
    | None => e = Validation (lit "generation_id tidak valid: " ++ uuid_error_text (cq_generation_id payload)) /\ w' = w
    | Some asked =>
        (exists msg, e = Internal msg) /\ interrupted (committed (pg w)) asked (committed (pg w')) /\
        (healthy (pg w) -> sound (committed (pg w)) -> sound (race (committed (pg w))) ->
           (forall g, ¬ own_row (committed (pg w)) asked g) /\
           insert_refused race new_id (confirm_input principal payload) (committed (pg w)))
    end
  else e = Forbidden (lit "requires role 'teacher', user has '" ++ role principal ++ lit "'") /\ w' = w.
Definition confirmed (w : World) (o : outcome AppError Response) (w' : World) : Prop :=
  match o with
  | Ok r =>
      role principal = lit "teacher" /\ trim (cq_enriched_prompt payload) <> [] /\
      exists asked, parse_uuid_str (cq_generation_id payload) = Some asked /\
        ((exists g, own_row (committed (pg w)) asked g /\ over (status g) = true /\ r = already_over g job_id /\
            committed (pg w') = committed (pg w) /\ jobs w' = jobs w) \/
         exists i db1 g0 g,
           r = response.accepted_with_message (lit "Generasi media berhasil dibuat dan sedang diproses.")
                 (tracking i job_id (lit "pending")) /\
           origin (committed (pg w)) asked i db1 /\ db1 !! i = Some g0 /\
           restarted job_id (cq_enriched_prompt payload) false (confirmed_state payload) g0 g /\
           committed (pg w') = <[i := g]> db1 /\ one_job cfg i job_id w w')
  | Err e => not_confirmed w e w'
  | Panic => False
  end.

(** A failure after the checks. *)
Lemma confirm_fails w w' asked msg :
  role principal = lit "teacher" -> trim (cq_enriched_prompt payload) <> [] ->
  parse_uuid_str (cq_generation_id payload) = Some asked -> jobs w' = jobs w ->
  interrupted (committed (pg w)) asked (committed (pg w')) ->
  (healthy (pg w) -> sound (committed (pg w)) -> sound (race (committed (pg w))) ->
     (forall g, ¬ own_row (committed (pg w)) asked g) /\
     insert_refused race new_id (confirm_input principal payload) (committed (pg w))) ->
  confirmed w (Err (Internal msg)) w'.
Proof.
  intros Hrole Hblank Hasked Hj Hleft Hwhy. split; [done|]. rewrite decide_True, bool_decide_false, Hasked by done.
  split; [by eexists|]. by split.
Qed.

(** Starting the generation that was found or submitted. *)
Lemma runs_confirm_restart w w1 asked i db1 :
  role principal = lit "teacher" -> trim (cq_enriched_prompt payload) <> [] ->
  parse_uuid_str (cq_generation_id payload) = Some asked -> jobs w1 = jobs w -> committed (pg w1) = db1 ->
  origin (committed (pg w)) asked i db1 ->
  (healthy (pg w) -> healthy (pg w1)) ->
  (sound (committed (pg w)) -> sound (race (committed (pg w))) -> exists g, db1 !! i = Some g /\ row_ok g = true) ->
  runs (restart cfg i job_id (cq_enriched_prompt payload) false (confirmed_state payload)
          (lit "Generasi media berhasil dibuat dan sedang diproses.")) (confirmed w) w1.
Proof.
  intros Hrole Hblank Hasked Hj1 Hdb1 Horig Hh Hrow. apply runs_restart; rewrite Hdb1.
  - intros w' g0 g Hg0 Hr Hdb Hj. split; [done|]. split; [done|]. exists asked. split; [done|]. right.
    exists i, db1, g0, g. split; [reflexivity|]. do 4 (split; [done|]). unfold one_job in *. by rewrite <- Hj1.
  - intros msg w' Hhalf Hj Hno. apply (confirm_fails w w' asked); [done..|by rewrite Hj| |].
    + right. right. by exists i, db1.
    + intros Hhealthy Hs Hsr. destruct Hno. split; [by apply Hh|]. rewrite Hdb1. by apply Hrow.
Qed.

Lemma runs_confirm w : well_keyed (committed (pg w)) ->
  runs (confirm cfg tables race new_id job_id principal payload) (confirmed w) w.
Proof.
  intros Hkeys. unfold confirm. apply runs_bind, runs_settled. unfold require_teacher.
  case_decide as Hrole; [|split; [done|]; by rewrite decide_False].
  apply runs_bind, runs_settled. case_bool_decide as Hblank.
  { split; [done|]. by rewrite decide_True, bool_decide_true. }
  apply runs_bind, runs_settled.
  destruct (parse_uuid_str (cq_generation_id payload)) as [asked|] eqn:Hasked.
  2: { split; [done|]. by rewrite decide_True, bool_decide_false, Hasked. }
  apply runs_bind. unfold internal_repo. apply runs_pg_or. eapply wp_mono; [apply wp_find_for_teacher|].
  intros [[gen|]|e|] s [Hc [Hh Hgen]]; cbn [map_err]; [| | |done].
  - destruct Hgen as (g & Hg & Ht & ->). apply runs_bind, runs_ret. cbn [Repo.generation related].
    destruct (over (status g)) eqn:Hover.
    + apply runs_ret. split; [done|]. split; [done|]. exists asked. split; [done|]. left. by exists g.
    + rewrite (Hkeys _ _ Hg). apply (runs_confirm_restart w _ asked _ (committed (pg w))); [done..| | |].
      * left. split; [done|]. split; [done|]. by exists g.
      * exact Hh.
      * intros [_ Hs] _. exists g. split; [done|]. by eapply Hs.
  - assert (Hnone : forall g, ¬ own_row (committed (pg w)) asked g) by (intros g [Hg Ht]; by eapply Hgen).
    apply runs_bind, runs_bind, runs_pg_or. eapply wp_mono; [apply wp_submission|]. cbn [pg update].
    rewrite Hc. intros [res|e|] s1 [Hh1 Hres]; cbn [map_err]; [| |done].
    + apply runs_ret. apply (runs_confirm_restart w _ asked _ (committed s1)); [done..| | |].
      * right. split; [done|]. unfold submitted_prompt. destruct Hres as [(_ & -> & Hd & Hf & t & _ & Hdb)|(_ & Hd & Hdb)].
        -- left. do 3 (split; [done|]). by exists t.
        -- by right.
      * intros Hhealthy. apply Hh1, Hh, Hhealthy.
      * intros Hs Hsr. destruct Hres as [(_ & -> & _ & _ & t & Hrow & Hdb)|(_ & Hd & Hdb)].
        -- rewrite Hdb, lookup_insert_eq. by eexists.
        -- assert (Hs1 : sound (committed s1)) by (by destruct Hdb as [->| ->]). destruct Hs1 as [Hk Hrows].
           destruct (duplicate_row _ _ _ Hd Hk) as (x & Hx & _). exists x. split; [done|]. by eapply Hrows.
    + destruct Hres as [Hdb Hwhy]. apply (confirm_fails w _ asked); [done..| |].
      * cbn [pg update]. destruct Hdb as [->| ->]; [by left|right; by left].
      * intros Hhealthy _ _. split; [done|]. by apply Hwhy, Hh.
  - apply (confirm_fails w _ asked); [done..|by left|]. intros Hhealthy. by destruct Hgen.
Qed.
End Confirming.

(** ** Lemmas: skipping and asking *)

Section Asking.
Context `{CaseTables} `{Regexes}.
Context (api_key model : str) (complete : CompletionRequest -> answer) (parse_value : str -> option value).

Lemma push_slides d slides :
  foldl push_slide d slides =
  d <| pd_gaps := pd_gaps d ++ (slide_gap <$> slides) |>
    <| pd_total_recommended_gaps := (pd_total_recommended_gaps d + length slides)%nat |>.
Proof.
  revert d. induction slides as [|s slides IH]; intros d; cbn [foldl length fmap list_fmap].
  - rewrite app_nil_r, Nat.add_0_r. by destruct d.
  - rewrite IH. unfold push_slide, update. cbn. by rewrite <- app_assoc, Nat.add_succ_r.
Qed.

Lemma priority_total_app p l l' : priority_total p (l ++ l') = (priority_total p l + priority_total p l')%nat.
Proof. unfold priority_total. by rewrite filter_app, length_app. Qed.
Lemma slide_totals slides :
  priority_total Required (slide_gap <$> slides) = 0%nat /\
  priority_total Recommended (slide_gap <$> slides) = length slides.
Proof.
  induction slides as [|[[i t] c] slides [IHr IHc]]; [done|]. unfold priority_total in *. cbn [fmap list_fmap].
  rewrite !filter_cons. split.
  - rewrite decide_False by (vm_compute; discriminate). exact IHr.
  - rewrite decide_True by reflexivity. cbn [length]. f_equal. exact IHc.
Qed.

(** What a reply may add. *)
Definition usable_slide (s : slide) : Prop := 0 < s.1.1 /\ s.1.2 <> [] /\ s.2 <> [].
Lemma slide_of_usable j : Forall usable_slide (slide_of j).
Proof.
  unfold slide_of. destruct (0 <? _) eqn:Ei; [|constructor]. apply Z.ltb_lt in Ei.
  do 2 (case_bool_decide; [constructor|]; cbn [negb andb]). by repeat constructor.
Qed.
Lemma llm_slides_usable reply : Forall usable_slide (llm_slides parse_value reply).
Proof.
  unfold llm_slides. destruct reply as [|resp]; [constructor|]. do 2 (case_match; [|constructor]).
  apply Forall_bind, Forall_forall. intros j _. apply slide_of_usable.
Qed.
Lemma fallback_index topic i : (fallback_slide topic i).1.1 = i.
Proof. unfold fallback_slide. by repeat case_match. Qed.
Lemma fallback_indices topic n : (λ s : slide, s.1.1) <$> fallback_slides topic n = Z.of_nat <$> seq 1 (Z.to_nat n).
Proof.
  unfold fallback_slides. rewrite <- list_fmap_compose. apply list_fmap_ext. intros k x _. apply fallback_index.
Qed.

(** The questions come from a usable reply, or there is one for each slide. *)
Definition slides_asked (raw_prompt : str) (detected : DetectedInfo) (slides : list slide) : Prop :=
  let count := slide_count raw_prompt in
  (exists topic, api_key <> [] /\ slides <> [] /\ Forall usable_slide slides /\
     slides = llm_slides parse_value (complete (slides_request model topic detected count))) \/
  ((λ s : slide, s.1.1) <$> slides) = Z.of_nat <$> seq 1 (Z.to_nat count).
Lemma slide_questions_asked raw_prompt detected slides :
  slide_questions api_key model complete parse_value raw_prompt detected = Some slides ->
  slides_asked raw_prompt detected slides.
Proof.
  unfold slide_questions. destruct (extract_topic raw_prompt) as [topic|]; [|done]. intros [= <-]. unfold slides_asked.
  case_bool_decide as Hkey; [right; apply fallback_indices|].
  destruct (llm_slides _ _) as [|s l] eqn:El; [right; apply fallback_indices|].
  left. exists (default raw_prompt topic). rewrite <- El. split; [done|]. split; [by rewrite El|].
  split; [apply llm_slides_usable|done].
Qed.

Definition standards_gaps (payload : PreflightRequest) : list ContentGap :=
  compute_gaps (get_clarification_fields (detect_content_type (pq_raw_prompt payload)).1) (pq_raw_prompt payload)
    (detect_target_audience (pq_raw_prompt payload))
    (option_or (chosen_output_type (pq_preferred_output_type payload)) (detect_output_type (pq_raw_prompt payload)))
    (pq_subject_id payload).
(** The questions of an answer: those of the standards, then those about slides; the totals count them. *)
Definition asked_data (new_id : str) (payload : PreflightRequest) (d : PreflightResponseData) : Prop :=
  pd_generation_id d = new_id /\
  pd_total_required_gaps d = priority_total Required (pd_gaps d) /\
  pd_total_recommended_gaps d = priority_total Recommended (pd_gaps d) /\
  if decide (di_output_type (pd_detected d) = Some (lit "pptx")) then
    pd_is_ready d = false /\ exists slides,
      pd_gaps d = standards_gaps payload ++ (slide_gap <$> slides) /\
      slides_asked (pq_raw_prompt payload) (pd_detected d) slides
  else pd_gaps d = standards_gaps payload /\ pd_is_ready d = (pd_total_required_gaps d =? 0)%nat.

Lemma with_slides_asked new_id payload r detected d :
  Clarification.preflight new_id
    {| pf_raw_prompt := pq_raw_prompt payload; pf_preferred_output_type := pq_preferred_output_type payload;
       pf_subject_id := pq_subject_id payload; pf_sub_subject_id := pq_sub_subject_id payload |} = Some r ->
  with_slides api_key model complete parse_value (pq_raw_prompt payload) (response_data r detected) = Some d ->
  asked_data new_id payload d.
Proof.
  unfold Clarification.preflight. cbn [pf_raw_prompt pf_preferred_output_type pf_subject_id].
  destruct (detect_content_type (pq_raw_prompt payload)) as [ct confidence] eqn:Ect.
  destruct (extract_topic (pq_raw_prompt payload)) as [topic|]; [|done]. intros [= <-].
  unfold with_slides, asked_data, standards_gaps, response_data. cbn [pd_detected]. rewrite Ect. cbn [fst].
  set (gaps := compute_gaps _ _ _ _ _). case_decide as Hpptx.
  - destruct (slide_questions _ _ _ _ _ _) as [slides|] eqn:Es; [|done]. apply slide_questions_asked in Es.
    intros [= <-]. rewrite push_slides. unfold update. cbn -[priority_total Nat.add app].
    destruct (slide_totals slides) as [Hr Hc]. rewrite !priority_total_app, Hr, Hc, decide_True by done.
    split; [done|]. split; [by rewrite Nat.add_0_r|]. split; [done|]. split; [done|]. by exists slides.
  - intros [= <-]. cbn -[priority_total]. by rewrite decide_False.
Qed.
End Asking.

Section Preflights.
Context `{CaseTables} `{Regexes} `{DbErrorText} `{UuidPrint} `{RedisU32}.
Context (api_key model : str) (complete : CompletionRequest -> answer) (parse_value : str -> option value).
Context (tables : RelatedTables).

Lemma runs_resolve i (Q : outcome AppError (option str) -> World -> Prop) w :
  (forall name w', committed (pg w') = committed (pg w) -> jobs w' = jobs w -> Q (Ok name) w') ->
  runs (resolve_subject_name tables i) Q w.
Proof.
  intros HQ. unfold resolve_subject_name. apply runs_bind, runs_on_pg. wp_step.
  - apply runs_ret, HQ; [|done]. cbn [pg update]. by same_data_simpl.
  - apply runs_ret, HQ; [|done]. cbn [pg update]. by same_data_simpl.
Qed.

Lemma runs_preflight_data new_id payload w :
  runs (preflight_data api_key model complete parse_value tables new_id payload)
    (λ o w', committed (pg w') = committed (pg w) /\ jobs w' = jobs w /\
       match o with
       | Ok d => trim (pq_raw_prompt payload) <> [] /\
           asked_data api_key model complete parse_value (uuid_to_string new_id) payload d
       | _ => True end) w.
Proof.
  unfold preflight_data. apply runs_bind, runs_settled. case_bool_decide as Hblank; [done|]. apply runs_bind, runs_settled.
  destruct (Clarification.preflight _ _) as [r|] eqn:Er; [|done]. cbn [of_panicking].
  assert (Hend : forall detected w', committed (pg w') = committed (pg w) -> jobs w' = jobs w ->
    runs (settled (of_panicking (with_slides api_key model complete parse_value (pq_raw_prompt payload) (response_data r detected))))
      (λ o w', committed (pg w') = committed (pg w) /\ jobs w' = jobs w /\
       match o with
       | Ok d => trim (pq_raw_prompt payload) <> [] /\
           asked_data api_key model complete parse_value (uuid_to_string new_id) payload d
       | _ => True end) w').
  { intros detected w' Hc Hj. apply runs_settled. split; [done|]. split; [done|].
    destruct (with_slides _ _ _ _ _ _) as [d|] eqn:Ed; [|done]. split; [done|]. by eapply with_slides_asked. }
  apply runs_bind. destruct (di_subject_id (cl_detected r)).
  - apply runs_bind, runs_resolve. intros name w' Hc Hj. apply runs_ret. by apply Hend.
  - apply runs_ret. by apply Hend.
Qed.
End Preflights.

(** ** Properties *)

(** What a preflight answers, whatever the model replies: the totals count the questions of each
    priority. The questions are those of the content standards that the prompt leaves open; a
    presentation is never ready, and is asked about its slides besides: what a usable reply of the model
    proposes, or else one question for each of the slides the prompt speaks of, however many. Nothing is
    stored and no job is started, so the id of the answer names no generation. *)
Lemma preflight_only_asks `{CaseTables} `{Regexes} `{DbErrorText} `{UuidPrint} `{RedisU32}
    api_key model complete parse_value tables new_id payload w :
  let '(o, w') := preflight_data api_key model complete parse_value tables new_id payload w in
  committed (pg w') = committed (pg w) /\ jobs w' = jobs w /\
  match o with
  | Ok d => trim (pq_raw_prompt payload) <> [] /\
      asked_data api_key model complete parse_value (uuid_to_string new_id) payload d
  | _ => True
  end.
Proof.
  pose proof (runs_preflight_data api_key model complete parse_value tables new_id payload w) as Hr. unfold runs in Hr.
  by destruct (preflight_data _ _ _ _ _ _ _ _).
Qed.

(** C8. What confirming answers and does ([confirmed]), whatever fails, whoever else submits. A generation
    of the teacher that is over is answered as it is. Any other, even one being processed, starts over:
    its row is the old one with the columns of the pipeline cleared, the new prompt, the answers and a
    new pending job, and at most one entry goes onto the stream. When the id is not one of the teacher's
    generations, the prompt is submitted: a new generation, or the unfinished one with its fingerprint,
    starts over. No other row is touched. A request of anyone but a teacher, a blank prompt and a bad id
    are refused, each with its error, and nothing is done. What else fails is answered as an internal
    error and starts no job. It leaves the tables as they were, or what others commit, or the row reset
    with the job it had, with the answers or without them ([half_restarted]). On a healthy database
    with rows in order, that is only when the id is none of the teacher's generations and the database
    refuses the new row. *)
Theorem confirming_starts_over `{DbErrorText} `{UuidPrint} `{UuidText} `{UuidErrorText} `{HeapScanLaws} `{ForeignKeys}
    `{CaseTables} `{Sha256Hex} `{Rfc3339} `{RedisU32} cfg tables race new_id job_id principal payload w
  (Hkeys : well_keyed (committed (pg w))) :
  let '(o, w') := confirm cfg tables race new_id job_id principal payload w in
  confirmed cfg race new_id job_id principal payload w o w'.
Proof.
  pose proof (runs_confirm cfg tables race new_id job_id principal payload w Hkeys) as Hr. unfold runs in Hr.
  by destruct (confirm _ _ _ _ _ _ _ _).
Qed.

(** C19. Confirming a generation that is being processed drops the job under way: the generation is queued
    again for the new job, and a genuine report of the old job, whenever it comes, changes nothing. *)
Theorem confirming_drops_the_running_job `{DbErrorText} `{UuidPrint} `{UuidText} `{UuidErrorText} `{HeapScanLaws}
    `{ForeignKeys} `{CaseTables} `{Sha256Hex} `{Rfc3339} `{RedisU32} `{HmacSha256Hex} `{WebhookJson} `{NaiveText}
    cfg tables race new_id job_id principal payload i g old w r w'
  (Hkeys : well_keyed (committed (pg w))) (Hasked : parse_uuid_str (cq_generation_id payload) = Some i)
  (Hg : committed (pg w) !! i = Some g) (Hmine : teacher_id g = user_id principal) (Hopen : over (status g) = false)
  (Hold : generation_job_id g = Some old) (Hfresh : job_id <> old)
  (Huniq : forall k x, committed (pg w) !! k = Some x -> generation_job_id x = Some old -> k = i)
  (Hrun : confirm cfg tables race new_id job_id principal payload w = (Ok r, w')) :
  (exists g', committed (pg w') !! i = Some g' /\ status g' = lit "queued" /\
     generation_job_id g' = Some job_id /\ generation_status g' = Some (lit "pending") /\
     interpretation_payload g' = None /\ generation_spec_payload g' = None /\ delivery_payload g' = None) /\
  forall secret header body p s,
    authenticate secret header body = Ok p -> wh_job_id p = old -> committed s = committed (pg w') ->
    committed (webhook_handler secret header body s).2 = committed s.
Proof.
  pose proof (runs_confirm cfg tables race new_id job_id principal payload w Hkeys) as Hr.
  unfold runs in Hr. rewrite Hrun in Hr. cbn [fst snd] in Hr. destruct Hr as (_ & _ & asked & Ha & Hr).
  rewrite Hasked in Ha. injection Ha as <-.
  destruct Hr as [(x & [Hx _] & Hx' & _)|(k & db1 & g0 & g' & _ & Horig & Hg0 & (t & t' & Hres) & Hdb & _)].
  { assert (x = g) as -> by congruence. congruence. }
  destruct Horig as [(-> & -> & _)|[Hnone _]]; [|by destruct (Hnone g)].
  split.
  - exists g'. rewrite Hdb, lookup_insert_eq. split; [done|]. by rewrite Hres.
  - intros secret header body p s Hp Hj Hs. eapply webhook_ignored; [exact Hp|]. intros k x Hk Hx. rewrite Hs in Hk.
    destruct (decide (k = i)) as [->|Hne].
    + rewrite Hdb, lookup_insert_eq in Hk. apply Some_inj in Hk as <-.
      assert (Hjob : generation_job_id g' = Some job_id) by (by rewrite Hres). congruence.
    + rewrite Hdb, lookup_insert_ne in Hk by done. destruct Hne. rewrite Hj in Hx. by eapply Huniq.
Qed.

Module ClarificationApiWitness.
#[local] Existing Instances decimal_uuid decimal_uuid_error decimal_print decimal_time plain_case table_scan table_scan_laws no_foreign_keys.
#[local] Instance no_text : DbErrorText := λ _, lit "down".
#[local] Instance first_chars : Sha256Hex := λ s, take 64 (s ++ replicate 64 48).
#[local] Instance joined : HmacSha256Hex := λ key data, key ++ data.
#[local] Instance plain_u32 : RedisU32 := λ v, match v with RInt n => inr n | _ => inl (lit "not a number") end.
#[local] Instance decimal_naive : NaiveText := z_to_string.
#[local] Instance no_report : WebhookJson := λ _, inl (lit "expected value").
(** One pattern: a number directly before the word, as the regular expressions read it in these prompts. *)
#[local] Instance three_slides : Regexes :=
  {| re_is_match _ _ := false;
     re_captures1 re s := if decide (re = lit "(\d+)\s*(?:slides?)") then
                            if str_contains s (lit "3 slide") then Some (lit "3") else None
                          else None |}.

Definition config : ApiConfig := mkApiConfig true 5 3600 (lit "transit") (lit "https://renderer") (lit "https://gateway") (lit "k").
Definition nothing_else : RelatedTables := Build_RelatedTables [] [] [] [] [].
Definition rini : Principal := mkPrincipal 7 (lit "teacher").
Definition answering (db : DB) (conns : list (str + unit)) (answers : list (str + redis_value)) : World :=
  mkWorld (sample_state db 0) conns answers [] 0 0 0.
Definition undisturbed : DB -> DB := λ db, db.

(** A presentation of three slides: three questions, and it is not ready. *)
Definition slides_prompt3 : PreflightRequest :=
  {| pq_raw_prompt := lit "Presentasi tentang siklus air, 3 slide pptx"; pq_preferred_output_type := None;
     pq_subject_id := None; pq_sub_subject_id := None |}.
Example three_questions :
  match (preflight_data [] [] (λ _, inl (Config [])) (λ _, None) nothing_else 4 slides_prompt3 (answering ∅ [] [])).1 with
  | Ok d => (take 3 (reverse (gap_field_id <$> pd_gaps d)), pd_is_ready d) =
            ([lit "slide_3"; lit "slide_2"; lit "slide_1"], false)
  | _ => False
  end.
Proof. vm_compute. reflexivity. Qed.

Definition confirmation : ConfirmRequest :=
  {| cq_generation_id := lit "1"; cq_enriched_prompt := lit "a quiz on fractions, ten questions";
     cq_answers := [(lit "question_count", lit "10")]; cq_subject_id := None; cq_sub_subject_id := None |}.
(** A generation whose renderer is at work. *)
Definition rendering : MediaGeneration :=
  sample_row <| status := lit "generating" |> <| generation_job_id := Some 9 |> <| generation_status := Some (lit "processing") |>.
Definition rendering_db : DB := {[ 1 := rendering ]}.
Lemma rendering_keyed : well_keyed rendering_db.
Proof. intros i r Hr. unfold rendering_db in Hr. apply lookup_singleton_Some in Hr as [<- <-]. reflexivity. Qed.
Definition confirming : World := answering rendering_db [inr ()] [inr (RBulk [49])].

Lemma confirming_starts_over_witness :
  let '(o, w') := confirm config nothing_else undisturbed 5 50 rini confirmation confirming in
  confirmed config undisturbed 5 50 rini confirmation confirming o w'.
Proof. exact (confirming_starts_over config nothing_else undisturbed 5 50 rini confirmation confirming rendering_keyed). Defined.

(** The second statement of the start fails: the generation is reset, under the job it had. *)
Definition interrupted_confirming : World :=
  mkWorld (mkSt rendering_db rendering_db 0 0 [mkTick false 0; mkTick false 0; mkTick true 0]) [inr ()] [inr (RBulk [49])] [] 0 0 0.
Example reset_but_not_started :
  let '(o, w') := confirm config nothing_else undisturbed 5 50 rini confirmation interrupted_confirming in
  is_ok o = false /\ jobs w' = [] /\
  (λ g, (status g, generation_job_id g, generation_status g)) <$> committed (pg w') !! 1 = Some (lit "queued", Some 9, None).
Proof. vm_compute. repeat split. Qed.

Lemma confirming_drops_the_running_job_witness :
  exists r w', confirm config nothing_else undisturbed 5 50 rini confirmation confirming = (Ok r, w') /\
    exists g', committed (pg w') !! 1 = Some g' /\ status g' = lit "queued".
Proof.
  destruct (confirm config nothing_else undisturbed 5 50 rini confirmation confirming) as [o w'] eqn:E.
  assert (exists r, o = Ok r) as [r ->].
  { apply (f_equal fst) in E. destruct o as [r|e|]; [by exists r|vm_compute in E; discriminate..]. }
  exists r, w'. split; [reflexivity|].
  pose proof (confirming_drops_the_running_job config nothing_else undisturbed 5 50 rini confirmation 1 rendering 9 confirming r w'
    rendering_keyed) as Hdrops.
  destruct Hdrops as [(g' & Hg' & Hst & _) _]; [vm_compute; reflexivity..|discriminate| |exact E|by exists g'].
  intros k x Hk _. change (rendering_db !! k = Some x) in Hk. unfold rendering_db in Hk.
  apply lookup_singleton_Some in Hk as [<- _]. reflexivity.
Defined.
End ClarificationApiWitness.
