(* ===== verification/Providers.v ===== *)
(** * The provider clients (src/src/providers/openrouter.rs, fallback.rs)

    The two clients the router may call: OpenRouter, and the Python adapter behind signed requests. Both
    post a completion request until a reply settles it or the attempts are used up. The network is a list
    of the replies to come; what is posted and slept is recorded. *)

From stdpp Require Import base list option strings sets.
From Stdlib Require Import ZArith Lia Floats.SpecFloat.
From S2P Require Import Prelude RustStr Utf8 Json Floats Canon Interpretation Taxonomy Text Store Samples Webhook PythonClient Router.
#[local] Open Scope Z_scope.

(** ** The network *)

(** A reply with its status and its body, or the text of the error of reading it. *)
Inductive http_reply := NotSent (error : str) | Replied (status : Z) (body : str + str).
Record Post := mkPost { po_url : str; po_headers : list (str * str); po_body : list Z; po_timeout_seconds : Z }.
Record Net := mkNet {
  incoming : list http_reply;
  posted : list Post;
  pauses : list Z;             (* milliseconds *)
  clock : Z;                   (* nanoseconds *)
  uuids : list uuid            (* to be drawn *)
}.
#[export] Instance Net_eta : Eta Net := λ s, mkNet (incoming s) (posted s) (pauses s) (clock s) (uuids s).

Definition exchange (p : Post) (s : Net) : http_reply * Net :=
  (default (NotSent []) (head (incoming s)), s <| incoming := tail (incoming s) |> <| posted := posted s ++ [p] |>).
Definition pause (ms : Z) (s : Net) : Net := s <| pauses := pauses s ++ [ms] |> <| clock := clock s + ms * 1000000 |>.
Definition draw (s : Net) : uuid * Net := (default 0 (head (uuids s)), s <| uuids := tail (uuids s) |>).

(** ** Bodies *)

Definition message_value (m : ChatMessage) : value :=
  obj [("role", String (role m)); ("content", String (content m))]%string.
(** [Serialize for CompletionRequest]. *)
Definition request_value (r : CompletionRequest) : value :=
  obj ((if bool_decide (rq_model r = []) then [] else [("model"%string, String (rq_model r))])
       ++ match rq_models r with Some l => [("models"%string, Array (String <$> l))] | None => [] end
       ++ [("messages"%string, Array (message_value <$> rq_messages r))]
       ++ match rq_response_format r with
          | Some f => [("response_format"%string, obj [("type"%string, String (format_type f))])]
          | None => [] end
       ++ match rq_max_tokens r with Some n => [("max_tokens"%string, jint n)] | None => [] end
       ++ match rq_temperature r with Some f => [("temperature"%string, Number (NFloat f))] | None => [] end).

(** A text between the first brace and the last, or else without its fence. *)
Definition clean_markdown_json (raw : str) : str :=
  let trimmed := trim raw in
  let unfenced :=
    let stripped :=
      if starts_with (lit "```json") trimmed then trim (trim_start_matches (lit "```json") trimmed)
      else if starts_with (lit "```") trimmed then trim (trim_start_matches (lit "```") trimmed)
      else trimmed in
    if ends_with (lit "```") stripped then trim (trim_end_matches (lit "```") stripped) else stripped in
  match find trimmed (lit "{"), rfind_char trimmed 125 with
  | Some start, Some end_ =>
      if (start <? end_)%nat then default trimmed (slice_to (end_ + 1) trimmed ≫= slice_from start) else unfenced
  | _, _ => unfenced
  end.

(** A string with characters. *)
Definition text_of (v : option value) : option str :=
  match v ≫= Json.as_str with Some [] | None => None | Some s => Some s end.
(** The first entry of an object that is such a string. *)
Definition first_text (skipped : list string) (v : value) : option str :=
  match v with
  | Object m => head (omap (λ '(k, x), if bool_decide (k ∈ lit <$> skipped) then None else text_of (Some x)) m)
  | _ => None
  end.
Definition first_choice (raw : value) : option value := arr ← (get (lit "choices") raw ≫= as_array); head arr.
Definition content_parts (raw : value) : option str :=
  match get (lit "content") raw ≫= as_array with
  | Some arr =>
      match omap (λ item, match Json.as_str item with
                          | Some _ => text_of (Some item)
                          | None => text_of (get (lit "text") item)
                          end) arr with
      | [] => None
      | parts => Some (join [10] parts)
      end
  | None => None
  end.
(** The first of the sources that has one. *)
Definition extract_content (raw : value) : option str :=
  let message := first_choice raw ≫= get (lit "message") in
  clean_markdown_json <$>
    foldr option_or None
      [ text_of (message ≫= get (lit "content"));
        text_of (message ≫= get (lit "reasoning_content"));
        message ≫= first_text ["role"];
        text_of (get (lit "output_text") raw);
        content_parts raw;
        text_of (first_choice raw ≫= get (lit "text"));
        first_text ["model"; "id"; "object"] raw ]%string.

(** ** Reading a response *)

(** The reading of a text by serde_json: an object with all its entries in their order, repeated keys
    included; or the text of the error. *)
Class JsonReader := read_json : str -> str + value.
(** The text of the error of a body that is not of the type. *)
Class SerdeErrorText := serde_error_text : str -> str.

(** A [serde_json::Value] keeps the last of the entries with a key. *)
Fixpoint collapsed (v : value) : value :=
  match v with
  | Array l => Array (map collapsed l)
  | Object m => Object (foldl (λ acc e, map_insert e.1 e.2 acc) [] (map (λ e, (e.1, collapsed e.2)) m))
  | _ => v
  end.
(** The field of a struct: a repeated one is an error. *)
Definition entry_once (m : list (str * value)) (name : string) : option (option value) :=
  match List.filter (λ e, bool_decide (e.1 = lit name)) m with
  | [] => Some None
  | [e] => Some (Some e.2)
  | _ => None
  end.
(** The derived [Deserialize] of a struct: an object by name, or an array by position, where only a field
    after [least] may be left out. *)
Definition entries (names : list string) (least : nat) (v : value) : option (list (option value)) :=
  match v with
  | Object m => mapM (entry_once m) names
  | Array l =>
      if ((least <=? length l) && (length l <=? length names))%nat
      then Some ((Some <$> l) ++ replicate (length names - length l) None) else None
  | _ => None
  end.
Definition d_u32 (v : value) : option Z :=
  match v with Number (NInt n) => if (0 <=? n) && (n <? 2 ^ 32) then Some n else None | _ => None end.

Definition decode_Usage (v : value) : option Usage :=
  fs ← entries ["prompt_tokens"; "completion_tokens"; "total_tokens"]%string 3 v;
  match fs with
  | [f0; f1; f2] =>
      prompt ← defaulted None (d_opt d_u32) f0;
      completion ← defaulted None (d_opt d_u32) f1;
      total ← defaulted None (d_opt d_u32) f2;
      Some {| prompt_tokens := prompt; completion_tokens := completion; total_tokens := total |}
  | _ => None
  end.
Definition decode_ChatMessage (v : value) : option ChatMessage :=
  fs ← entries ["role"; "content"]%string 2 v;
  match fs with
  | [f0; f1] => r ← required d_string f0; c ← required d_string f1; Some {| role := r; content := c |}
  | _ => None
  end.
Definition decode_Choice (v : value) : option Choice :=
  fs ← entries ["message"; "finish_reason"; "index"]%string 2 v;
  match fs with
  | [f0; f1; f2] =>
      m ← required decode_ChatMessage f0;
      reason ← defaulted None (d_opt d_string) f1;
      i ← defaulted 0 d_u32 f2;
      Some {| message := m; finish_reason := reason; index := i |}
  | _ => None
  end.
Definition decode_CompletionResponse (v : value) : option CompletionResponse :=
  fs ← entries ["choices"; "usage"; "model"]%string 3 v;
  match fs with
  | [f0; f1; f2] =>
      cs ← defaulted [] (d_vec decode_Choice) f0;
      u ← defaulted None (d_opt decode_Usage) f1;
      name ← defaulted None (d_opt d_string) f2;
      Some {| choices := cs; usage := u; rs_model := name |}
  | _ => None
  end.
(** [serde_json::from_str] at the response and at any value. *)
Definition response_from_str `{JsonReader} `{SerdeErrorText} (body : str) : str + CompletionResponse :=
  match read_json body with
  | inl e => inl e
  | inr v => match decode_CompletionResponse v with Some r => inr r | None => inl (serde_error_text body) end
  end.
Definition value_from_str `{JsonReader} (body : str) : option value :=
  match read_json body with inr v => Some (collapsed v) | inl _ => None end.

(** ** The attempts *)

Section Clients.
(** [serde_json::from_str] at a response and at any value, [from_value] at a usage. *)
Context (decode_response : str -> str + CompletionResponse) (parse_value : str -> option value).
Context (decode_usage : value -> option Usage).
Context `{UuidPrint} `{HmacSha256Hex} `{JsonLex}.

Definition extracted_response (raw_value : value) (text : str) : CompletionResponse :=
  {| choices := [{| message := {| role := lit "assistant"; content := text |}; finish_reason := Some (lit "stop");
                    index := 0 |}];
     usage := get (lit "usage") raw_value ≫= decode_usage;
     rs_model := get (lit "model") raw_value ≫= Json.as_str |}.

(** What an attempt comes to: an answer, an error at once, or an error that is retried. *)
Inductive verdict := Answered (r : CompletionResponse) | Refused (e : ProviderError) | Failed (e : ProviderError).
Definition judge (reply : http_reply) : verdict :=
  match reply with
  | NotSent e => Failed (Http e)
  | Replied status body =>
      if (200 <=? status) && (status <? 300) then
        match body with
        | inl e => Failed (Deserialization (lit "failed to read response body: " ++ e))
        | inr body_text =>
            match decode_response body_text with
            | inr completion => Answered completion
            | inl deser_err =>
                let failed := Failed (Deserialization (lit "error decoding response body: " ++ deser_err)) in
                match parse_value body_text with
                | Some raw_value =>
                    match extract_content raw_value with
                    | Some text => Answered (extracted_response raw_value text)
                    | None => failed
                    end
                | None => failed
                end
            end
        end
      else
        let e := Api status (match body with inr b => b | inl _ => [] end) in
        if (status <? 500) && negb (status =? 429) then Refused e else Failed e
  end.

(** The attempts left, from [attempt] on; [n] counts them. [request] makes the next post. *)
Fixpoint attempts_from (who : string) (request : Net -> Post * Net) (retry_attempts backoff : Z) (n : nat) (attempt : Z)
    (last_error : option ProviderError) (s : Net) : answer * Net :=
  match n with
  | O => (inl (default (AllExhausted retry_attempts (lit who ++ lit ": all retry attempts exhausted")) last_error), s)
  | S n =>
      let '(p, s) := request s in
      let '(reply, s) := exchange p s in
      match judge reply with
      | Answered r => (inr r, s)
      | Refused e => (inl e, s)
      | Failed e =>
          attempts_from who request retry_attempts backoff n (attempt + 1) (Some e)
            (if attempt <? Z.max retry_attempts 1 then pause (backoff_ms backoff attempt) s else s)
      end
  end.
Definition all_attempts (who : string) (request : Net -> Post * Net) (retry_attempts backoff : Z) : Net -> answer * Net :=
  attempts_from who request retry_attempts backoff (Z.to_nat (Z.max retry_attempts 1)) 1 None.

(** ** OpenRouter *)

Record OpenRouterConfig := mkOpenRouterConfig {
  or_api_key : str;
  or_model : str;
  or_base_url : str;
  or_timeout_seconds : Z;
  or_retry_attempts : Z;
  or_retry_backoff_ms : Z;
  or_fallback_models : list str
}.
(** [OpenRouterConfig::from_app_config], of the four settings it reads. *)
Definition openrouter_config (api_key model base_url fallback_models : str) : OpenRouterConfig :=
  mkOpenRouterConfig api_key model base_url 90 1 500
    (filter (λ s, s <> []) (trim <$> split_char 44 fallback_models)).

Definition completions_url (base_url : str) : str := trim_end_matches (lit "/") base_url ++ lit "/chat/completions".
Definition OPENROUTER_MAX_MODELS : nat := 3.
(** The loop over the fallback models, which stops when the list is full. *)
Fixpoint add_models (fallback_models models : list str) : list str :=
  match fallback_models with
  | [] => models
  | m :: rest =>
      let models := if bool_decide (m ∈ models) then models else models ++ [m] in
      if (OPENROUTER_MAX_MODELS <=? length models)%nat then models else add_models rest models
  end.
Definition prepare_request (config : OpenRouterConfig) (request : CompletionRequest) : CompletionRequest :=
  let request := if bool_decide (rq_model request = []) then request <| rq_model := or_model config |> else request in
  match rq_models request, or_fallback_models config with
  | None, _ :: _ => request <| rq_models := Some (add_models (or_fallback_models config) [rq_model request]) |>
  | _, _ => request
  end.
Definition openrouter_post (config : OpenRouterConfig) (request : CompletionRequest) : Post :=
  mkPost (completions_url (or_base_url config))
    [ (lit "Authorization", lit "Bearer " ++ or_api_key config); (lit "HTTP-Referer", lit "klass-mobile");
      (lit "X-Title", lit "klass-gateway"); (lit "Content-Type", lit "application/json") ]
    (utf8_encode (json_text (request_value request))) (or_timeout_seconds config).
Definition openrouter_complete (config : OpenRouterConfig) : Provider (Env:=Net) := λ request,
  let request := prepare_request config request in
  all_attempts "openrouter" (λ s, (openrouter_post config request, s)) (or_retry_attempts config) (or_retry_backoff_ms config).

(** ** The Python adapter *)

Record FallbackProviderConfig := mkFallbackConfig {
  fb_base_url : str;
  fb_hmac_secret : str;
  fb_timeout_seconds : Z;
  fb_retry_attempts : Z;
  fb_retry_backoff_ms : Z
}.
Definition fallback_config (llm_adapter_fallback_url hmac_secret : str) : option FallbackProviderConfig :=
  let url := trim llm_adapter_fallback_url in
  if bool_decide (url = []) then None else Some (mkFallbackConfig url hmac_secret 90 2 500).
Definition is_configured (llm_adapter_fallback_url : str) : bool :=
  negb (bool_decide (trim llm_adapter_fallback_url = [])).

(** A request of its own for each attempt, signed. *)
Definition fallback_post (config : FallbackProviderConfig) (request : CompletionRequest) (s : Net) : Post * Net :=
  let body_bytes := utf8_encode (json_text (request_value request)) in
  let '(generation_id, s) := draw s in
  let '(request_id, s) := draw s in
  let signed := build (fb_hmac_secret config) request_id (clock s) (uuid_to_string generation_id) body_bytes in
  (mkPost (completions_url (fb_base_url config))
     [ (lit "Content-Type", lit "application/json"); (lit "X-Request-Id", sr_request_id signed);
       (lit "X-Klass-Generation-Id", sr_generation_id signed); (lit "X-Klass-Request-Timestamp", sr_timestamp signed);
       (lit "X-Klass-Signature-Algorithm", sr_signature_algorithm signed); (lit "X-Klass-Signature", sr_signature signed) ]
     body_bytes (fb_timeout_seconds config), s).
Definition fallback_complete (config : FallbackProviderConfig) : Provider (Env:=Net) := λ request,
  all_attempts "fallback-adapter" (fallback_post config request) (fb_retry_attempts config) (fb_retry_backoff_ms config).
End Clients.

(** ** Lemmas: texts *)

Lemma find_char_app a c b : c ∉ a -> find (a ++ c :: b) [c] = Some (str_len a).
Proof.
  induction a as [|d a IH]; cbn [app find starts_with].
  - intros _. by rewrite Z.eqb_refl.
  - rewrite not_elem_of_cons. intros [Hne Ha]. rewrite (proj2 (Z.eqb_neq _ _)) by congruence. cbn. by rewrite (IH Ha).
Qed.
Lemma rfind_char_none b c : c ∉ b -> rfind_char b c = None.
Proof.
  induction b as [|d b IH]; [done|]. rewrite not_elem_of_cons. intros [Hne Hb]. cbn. rewrite (IH Hb).
  by rewrite (proj2 (Z.eqb_neq _ _)) by congruence.
Qed.
Lemma rfind_char_app a c b : c ∉ b -> rfind_char (a ++ c :: b) c = Some (str_len a).
Proof.
  intros Hb. induction a as [|d a IH]; cbn [app rfind_char str_len]; [|by rewrite IH].
  by rewrite (rfind_char_none b c Hb), Z.eqb_refl.
Qed.
Lemma trim_start_around a c b : is_whitespace c = false -> trim_start (a ++ c :: b) = trim_start a ++ c :: b.
Proof.
  intros Hc. induction a as [|d a IH]; cbn [app]; [by apply trim_start_nonws|].
  cbn [trim_start]. by destruct (is_whitespace d).
Qed.
Lemma trim_end_around a c b : is_whitespace c = false -> trim_end (a ++ c :: b) = a ++ c :: trim_end b.
Proof.
  intros Hc. induction a as [|d a IH]; cbn [app trim_end].
  - destruct (trim_end b); [by rewrite Hc|done].
  - rewrite IH. by destruct a.
Qed.

(** What surrounds a JSON object is cut off. *)
Lemma json_is_cut_out a middle b :
  123 ∉ a -> 125 ∉ b -> clean_markdown_json (a ++ [123] ++ middle ++ [125] ++ b) = [123] ++ middle ++ [125].
Proof.
  intros Ha Hb. assert (Htrim : trim (a ++ [123] ++ middle ++ [125] ++ b) =
    trim_start a ++ 123 :: middle ++ 125 :: trim_end b).
  { unfold trim. cbn [app]. rewrite (trim_end_around a) by done. cbn [app].
    change (123 :: middle ++ 125 :: b) with ((123 :: middle) ++ 125 :: b) in *.
    replace (trim_end (middle ++ 125 :: b)) with (middle ++ 125 :: trim_end b) by (by rewrite trim_end_around).
    by rewrite trim_start_around. }
  assert (Hstart : 123 ∉ trim_start a).
  { destruct (trim_infix a) as (x & y & Hxy). clear -Ha. induction a as [|d a IH]; [done|]. cbn [trim_start].
    rewrite not_elem_of_cons in Ha. destruct (is_whitespace d); [apply IH, Ha|by rewrite not_elem_of_cons]. }
  assert (Hend : 125 ∉ trim_end b).
  { destruct (trim_end_prefix b) as [y Hy]. rewrite Hy, not_elem_of_app in Hb. apply Hb. }
  unfold clean_markdown_json. rewrite Htrim. change (lit "{") with [123].
  rewrite find_char_app by done.
  change (123 :: middle ++ 125 :: trim_end b) with ((123 :: middle) ++ 125 :: trim_end b). rewrite app_assoc, rfind_char_app by done.
  rewrite (proj2 (Nat.ltb_lt _ _)) by (rewrite str_len_app; cbn; lia).
  replace (str_len (trim_start a ++ 123%Z :: middle) + 1)%nat with (str_len ((trim_start a ++ 123 :: middle) ++ [125]))
    by (rewrite str_len_app; cbn; lia).
  change (125 :: trim_end b) with ([125] ++ trim_end b). rewrite (app_assoc _ [125]), slice_to_app. cbn [mbind option_bind].
  rewrite <- (app_assoc (trim_start a)). by rewrite slice_from_app.
Qed.

(** ** Lemmas: the models *)

Lemma add_models_spec fallbacks models :
  (length models < OPENROUTER_MAX_MODELS)%nat -> NoDup models ->
  let l := add_models fallbacks models in
  models `prefix_of` l /\ NoDup l /\ (length l <= OPENROUTER_MAX_MODELS)%nat /\
  forall m, m ∈ l -> m ∈ models \/ m ∈ fallbacks.
Proof.
  cbv zeta. revert models. induction fallbacks as [|m rest IH]; intros models Hlen Hnd; cbn [add_models].
  { split; [done|]. split; [done|]. split; [lia|auto]. }
  set (next := if bool_decide (m ∈ models) then models else models ++ [m]).
  assert (Hn : models `prefix_of` next /\ NoDup next /\ (length next <= S (length models))%nat /\
    forall x, x ∈ next -> x ∈ models \/ x = m).
  { unfold next. case_bool_decide as Hm; [split; [done|]; split; [done|]; split; [lia|auto]|].
    split; [by apply prefix_app_r|]. split; [|split; [rewrite length_app; simpl; lia|intros x; set_solver]].
    apply NoDup_app. split; [done|]. split; [intros x Hx; set_solver|apply NoDup_singleton]. }
  destruct Hn as (Hpre & Hnd' & Hlen' & Hin). destruct (_ <=? length next)%nat eqn:Ele.
  - split; [done|]. split; [done|]. split; [lia|]. intros x [?| ->]%Hin; [by left|right; by constructor].
  - apply Nat.leb_gt in Ele. destruct (IH next Ele Hnd') as (Hp & Hd & Hl & Hm).
    split; [by etransitivity|]. split; [done|]. split; [done|]. intros x [[?| ->]%Hin|?]%Hm; [by left|right; by constructor|right; by constructor].
Qed.
Lemma prepare_request_models config request models :
  rq_models request = None -> rq_models (prepare_request config request) = Some models ->
  head models = Some (rq_model (prepare_request config request)) /\ NoDup models /\ (length models <= OPENROUTER_MAX_MODELS)%nat.
Proof.
  intros Hnone. unfold prepare_request. set (r := if bool_decide _ then _ else request).
  assert (rq_models r = None) as Hr by (unfold r; by case_bool_decide). rewrite Hr.
  destruct (or_fallback_models config) as [|m rest]; [by rewrite Hr|].
  intros Hm. change (Some (add_models (m :: rest) [rq_model r]) = Some models) in Hm. apply Some_inj in Hm as <-.
  destruct (add_models_spec (m :: rest) [rq_model r]) as ([k Hk] & Hnd & Hlen & _); [cbn; unfold OPENROUTER_MAX_MODELS; lia|apply NoDup_singleton|].
  split; [|split; [exact Hnd|exact Hlen]]. by rewrite Hk.
Qed.

(** ** Lemmas: the attempts *)

Section ClientFacts.
Context (decode_response : str -> str + CompletionResponse) (parse_value : str -> option value).
Context (decode_usage : value -> option Usage).
Context `{UuidPrint} `{HmacSha256Hex} `{JsonLex}.

Local Notation judge := (judge decode_response parse_value decode_usage).
(** The reply to the post after [k] others. *)
Definition reply_at (s : Net) (k : nat) : http_reply := default (NotSent []) (incoming s !! k).
Definition is_failed (v : verdict) : bool := match v with Failed _ => true | _ => false end.
Definition settle (v : verdict) : answer := match v with Answered r => inr r | Refused e | Failed e => inl e end.
(** A request that leaves the network alone but for what it draws. *)
Definition makes_request (request : Net -> Post * Net) : Prop :=
  forall s, let s' := (request s).2 in
    incoming s' = incoming s /\ posted s' = posted s /\ pauses s' = pauses s /\ clock s' = clock s.

(** [m] attempts are allowed, the first has number [attempt]: the verdict on the first reply that does
    not fail, or on the last, is the answer. *)
Definition settled_by (backoff attempt : Z) (m : nat) (s : Net) (o : answer) (s' : Net) : Prop :=
  exists k, (k < m)%nat /\ (forall j, (j < k)%nat -> is_failed (judge (reply_at s j)) = true) /\
    (is_failed (judge (reply_at s k)) = true -> S k = m) /\
    o = settle (judge (reply_at s k)) /\
    length (posted s') = (length (posted s) + S k)%nat /\
    pauses s' = pauses s ++ ((λ j, backoff_ms backoff (attempt + Z.of_nat j)) <$> seq 0 k).

Lemma reply_at_tail s s' k : incoming s' = tail (incoming s) -> reply_at s' k = reply_at s (S k).
Proof. unfold reply_at. intros ->. by destruct (incoming s). Qed.

Lemma attempts_settle who request retry_attempts backoff m : makes_request request -> forall attempt last s,
  (0 < m)%nat -> Z.of_nat m = Z.max retry_attempts 1 - attempt + 1 ->
  let '(o, s') := attempts_from decode_response parse_value decode_usage who request retry_attempts backoff m attempt last s in
  settled_by backoff attempt m s o s'.
Proof.
  intros Hreq. induction m as [|m IH]; intros attempt last s Hpos Hm; [lia|]. cbn [attempts_from].
  pose proof (Hreq s) as Hs. destruct (request s) as [p s1]. cbn [snd] in Hs. destruct Hs as (Hin & Hpo & Hpa & Hcl).
  unfold exchange. rewrite Hin, Hpo.
  set (s2 := s1 <| incoming := tail (incoming s) |> <| posted := posted s ++ [p] |>).
  replace (default (NotSent []) (head (incoming s))) with (reply_at s 0) by (unfold reply_at; by destruct (incoming s)).
  assert (Hfirst : is_failed (judge (reply_at s 0)) = false \/ m = 0%nat ->
    settled_by backoff attempt (S m) s (settle (judge (reply_at s 0))) s2).
  { intros Hor. exists 0%nat. split; [lia|]. split; [lia|]. split; [intros Hf; destruct Hor; congruence|]. split; [done|].
    split; [unfold s2; cbn; rewrite length_app; done|]. unfold s2. cbn. by rewrite app_nil_r, Hpa. }
  destruct (judge (reply_at s 0)) as [r|e|e] eqn:Ej; [apply Hfirst; by left..|].
  destruct m as [|m].
  { rewrite (proj2 (Z.ltb_ge _ _)) by lia. cbn [attempts_from]. apply Hfirst. by right. }
  rewrite (proj2 (Z.ltb_lt _ _)) by lia.
  specialize (IH (attempt + 1) (Some e) (pause (backoff_ms backoff attempt) s2) ltac:(lia) ltac:(lia)).
  set (s3 := pause (backoff_ms backoff attempt) s2) in *.
  destruct (attempts_from _ _ _ _ _ _ _ (S m) _ _ s3) as [o s'].
  destruct IH as (k & Hk & Hfail & Hlast & Ho & Hlen & Hpauses).
  assert (Hr : forall j, reply_at s3 j = reply_at s (S j)) by (intros j; apply reply_at_tail; done).
  rewrite Hr in Hlast, Ho. exists (S k). split; [lia|]. split.
  { intros [|j] Hj; [by rewrite Ej|]. rewrite <- Hr. apply Hfail. lia. }
  split; [intros Hf; f_equal; by apply Hlast|]. split; [done|]. split.
  - rewrite Hlen. unfold s3, s2. cbn. rewrite length_app. cbn. lia.
  - rewrite Hpauses. unfold s3, s2. cbn [pause pauses update]. cbn. rewrite Hpa, <- app_assoc. cbn. f_equal. f_equal.
    + f_equal. lia.
    + rewrite <- (fmap_S_seq 0 k), <- list_fmap_compose. apply list_fmap_ext. intros i x _. cbn. f_equal. lia.
Qed.

Lemma all_attempts_settle who request retry_attempts backoff s :
  makes_request request ->
  let '(o, s') := all_attempts decode_response parse_value decode_usage who request retry_attempts backoff s in
  settled_by backoff 1 (Z.to_nat (Z.max retry_attempts 1)) s o s'.
Proof. intros Hreq. apply attempts_settle; [done|lia|lia]. Qed.

Lemma openrouter_makes_request config request : makes_request (λ s, (openrouter_post config request, s)).
Proof. done. Qed.
Lemma fallback_makes_request config request : makes_request (fallback_post config request).
Proof. done. Qed.
End ClientFacts.

(** ** Lemmas: responses without choices *)

(** What the other fields of a response read as. *)
Definition other_fields (m : list (str * value)) : option (option Usage * option str) :=
  f1 ← entry_once m "usage"; f2 ← entry_once m "model";
  u ← defaulted None (d_opt decode_Usage) f1;
  name ← defaulted None (d_opt d_string) f2;
  Some (u, name).
Lemma entry_absent m name : lit name ∉ m.*1 -> entry_once m name = Some None.
Proof.
  intros Hno. unfold entry_once. assert (List.filter (λ e : str * value, bool_decide (e.1 = lit name)) m = []) as ->; [|done].
  induction m as [|[k v] m IH]; [done|]. cbn in Hno |- *. apply not_elem_of_cons in Hno as [Hk Hm].
  rewrite bool_decide_false by congruence. by apply IH.
Qed.
Lemma decode_without_choices m : lit "choices" ∉ m.*1 ->
  decode_CompletionResponse (Object m) =
    (λ f, {| choices := []; usage := f.1; rs_model := f.2 |}) <$> other_fields m.
Proof.
  intros Hno. unfold decode_CompletionResponse, other_fields, entries. cbn [mapM]. rewrite (entry_absent _ _ Hno).
  cbn [mbind option_bind]. destruct (entry_once m "usage") as [f1|]; [|done]. cbn [mbind option_bind].
  destruct (entry_once m "model") as [f2|]; [|done]. cbn [mbind option_bind mret option_ret defaulted].
  destruct (defaulted None (d_opt decode_Usage) f1) as [u|]; [|done]. cbn [mbind option_bind].
  by destruct (defaulted None (d_opt d_string) f2).
Qed.

(** ** Properties *)

(** C34. A client, OpenRouter or the adapter, answers with the verdict on the first reply that does not
    fail, or on the last reply allowed: the transport and the reading of the body, a status of 500 or
    more, 429 and a body that cannot be used fail and are tried again; another status below 500 is
    refused at once. It posts once for each reply, sleeps between two posts for a time that doubles, and
    always posts at least once. *)
Theorem client_answers_the_first_settled_reply decode_response parse_value decode_usage `{UuidPrint} `{HmacSha256Hex}
    `{JsonLex} openrouter adapter request s :
  (let '(o, s') := openrouter_complete decode_response parse_value decode_usage openrouter request s in
   settled_by decode_response parse_value decode_usage (or_retry_backoff_ms openrouter) 1
     (Z.to_nat (Z.max (or_retry_attempts openrouter) 1)) s o s') /\
  (let '(o, s') := fallback_complete decode_response parse_value decode_usage adapter request s in
   settled_by decode_response parse_value decode_usage (fb_retry_backoff_ms adapter) 1
     (Z.to_nat (Z.max (fb_retry_attempts adapter) 1)) s o s').
Proof. split; apply all_attempts_settle; done. Qed.

(** C33. A reply without choices counts as a success. A successful reply whose body is an object without the
    key choices, and in which usage and model read as their types or are absent, decodes to a response
    with no choice, since that field has a default: whatever else it says, an error or a text under
    another key, the client answers it after one post, without content, and neither its own search for a
    text nor another attempt nor the router's fallback is reached. Only when usage or model do not read
    does the search get its turn. *)
Theorem replies_without_choices_succeed `{JsonReader} `{SerdeErrorText} `{UuidPrint} `{HmacSha256Hex} `{JsonLex}
    config r request s failures body m status
  (Hreply : head (incoming s) = Some (Replied status (inr body))) (Hok : 200 <= status < 300)
  (Hbody : read_json body = inr (Object m)) (Hkeys : lit "choices" ∉ m.*1)
  (Hprimary : primary r = openrouter_complete response_from_str value_from_str decode_Usage config)
  (Hattempts : 1 <= max_attempts (retry_config r)) (Hclosed : failures < circuit_breaker_threshold r) :
  match other_fields m with
  | Some (u, name) =>
      let response := {| choices := []; usage := u; rs_model := name |} in
      first_choice_content response = None /\
      exists s', complete r request (mkRouterState s [] failures) = (inr response, s') /\ trace s' = [Called false] /\
        length (posted (env s')) = S (length (posted s)) /\ Router.consecutive_failures s' = 0
  | None =>
      judge response_from_str value_from_str decode_Usage (Replied status (inr body)) =
        match extract_content (collapsed (Object m)) with
        | Some text => Answered (extracted_response decode_Usage (collapsed (Object m)) text)
        | None => Failed (Deserialization (lit "error decoding response body: " ++ serde_error_text body))
        end
  end.
Proof.
  assert (Hst : (200 <=? status) && (status <? 300) = true) by lia.
  pose proof (decode_without_choices m Hkeys) as Hdec.
  destruct (other_fields m) as [[u name]|]; cbn [fmap option_fmap option_map fst snd] in Hdec.
  2: { unfold judge. rewrite Hst. unfold response_from_str, value_from_str. by rewrite Hbody, Hdec. }
  set (response := {| choices := []; usage := u; rs_model := name |}) in *. split; [done|].
  assert (Hresp : response_from_str body = inr response) by (unfold response_from_str; by rewrite Hbody, Hdec).
  assert (Hrun : openrouter_complete response_from_str value_from_str decode_Usage config request s =
    (inr response,
     s <| incoming := tail (incoming s) |> <| posted := posted s ++ [openrouter_post config (prepare_request config request)] |>)).
  { unfold openrouter_complete, all_attempts. destruct (Z.to_nat (Z.max (or_retry_attempts config) 1)) as [|n] eqn:En; [lia|].
    cbn [attempts_from]. unfold exchange. rewrite Hreply. cbn [default from_option id]. unfold judge.
    cbn [Datatypes.id]. by rewrite Hst, Hresp. }
  eexists. split; [|split; [|split]].
  - unfold complete, is_circuit_open. cbn [Router.consecutive_failures]. rewrite (proj2 (Z.leb_gt _ _)) by lia.
    unfold try_provider_with_retry. destruct (Z.to_nat (max_attempts (retry_config r))) as [|n] eqn:En; [lia|].
    cbn [try_attempts env]. rewrite Hprimary, Hrun. reflexivity.
  - reflexivity.
  - cbn. rewrite length_app. cbn. lia.
  - reflexivity.
Qed.

Module ProvidersWitness.
#[local] Existing Instances Samples.plain_lex Samples.decimal_print.
#[local] Instance joined : HmacSha256Hex := λ key data, key ++ data.

(** A reader that knows two bodies: an error, and a text under another key beside a usage that is no usage. *)
Definition error_body : str := lit "{error}".
Definition odd_body : str := lit "{usage}".
Definition error_entries : list (str * value) := [(lit "error", obj [("code", jint 402); ("message", jstr "no credit")]%string)].
Definition odd_entries : list (str * value) := [(lit "usage", jstr "n/a"); (lit "output_text", jstr "x")].
#[local] Instance two_bodies : JsonReader := λ body,
  if decide (body = error_body) then inr (Object error_entries)
  else if decide (body = odd_body) then inr (Object odd_entries) else inl (lit "expected value").
#[local] Instance one_error : SerdeErrorText := λ _, lit "invalid type".
Definition lenient : str -> str + CompletionResponse := response_from_str.
Definition known : str -> option value := value_from_str.

Definition or_config : OpenRouterConfig := openrouter_config (lit "sk") (lit "m") (lit "https://openrouter.ai/api/v1/") (lit "a, b,,c").
Definition hello : CompletionRequest := new_request [] [].
Definition net (l : list http_reply) : Net := mkNet l [] [] 0 [].

Definition asking : ProviderRouter := new_router (openrouter_complete response_from_str value_from_str decode_Usage or_config).
(** The error counts as a success; of the other body the search finds the text. *)
Lemma replies_without_choices_succeed_witness :
  (exists s', complete asking hello (mkRouterState (net [Replied 200 (inr error_body)]) [] 0)
     = (inr {| choices := []; usage := None; rs_model := None |}, s') /\ trace s' = [Called false]) /\
  exists response, judge response_from_str value_from_str decode_Usage (Replied 200 (inr odd_body)) = Answered response /\
    first_choice_content response = Some (lit "x").
Proof.
  split.
  - pose proof (replies_without_choices_succeed or_config asking hello (net [Replied 200 (inr error_body)]) 0 error_body
      error_entries 200 eq_refl ltac:(lia) eq_refl
      ltac:(intros Hk; apply list_elem_of_singleton in Hk; vm_compute in Hk; discriminate)
      eq_refl ltac:(vm_compute; discriminate) ltac:(vm_compute; reflexivity)) as Hr.
    destruct Hr as (_ & s' & Hrun & Htrace & _). by exists s'.
  - pose proof (replies_without_choices_succeed or_config asking hello (net [Replied 200 (inr odd_body)]) 0 odd_body
      odd_entries 200 eq_refl ltac:(lia) eq_refl
      ltac:(intros Hk; apply elem_of_cons in Hk as [Hk|Hk%list_elem_of_singleton]; vm_compute in Hk; discriminate)
      eq_refl ltac:(vm_compute; discriminate) ltac:(vm_compute; reflexivity)) as Hr.
    eexists. split; [exact Hr|]. vm_compute. reflexivity.
Defined.
(** A completion is read; choices that are null are no choices. *)
Example readings :
  (first_choice_content <$> decode_CompletionResponse (obj [("id", jstr "gen-1");
     ("choices", Array [obj [("index", jint 0); ("message", obj [("role", jstr "assistant"); ("content", jstr "hi")])]]);
     ("usage", obj [("prompt_tokens", jint 3)])])%string) = Some (Some (lit "hi")) /\
  decode_CompletionResponse (obj [("choices", Null)])%string = None.
Proof. split; vm_compute; reflexivity. Qed.

Example three_models : rq_models (prepare_request or_config hello) = Some [lit "m"; lit "a"; lit "b"].
Proof. reflexivity. Qed.
(** A message without content: the name of the provider is taken for it. *)
Example provider_name_for_content :
  extract_content (obj [("id", jstr "gen-1"); ("provider", jstr "Novita");
    ("choices", Array [obj [("message", obj [("role", jstr "assistant"); ("content", Null)])]])])%string = Some (lit "Novita").
Proof. reflexivity. Qed.
(** A refusal ends the attempts, an overload does not. *)
Example retried :
  let config := mkFallbackConfig (lit "http://adapter") (lit "k") 90 2 500 in
  (length (posted (fallback_complete lenient known (λ _, None) config hello
     (net [Replied 503 (inr []); Replied 400 (inr [])])).2), pauses (fallback_complete lenient known (λ _, None) config hello
     (net [Replied 503 (inr []); Replied 400 (inr [])])).2) = (2%nat, [500]).
Proof. reflexivity. Qed.
End ProvidersWitness.
