(* ===== verification/HomepageApi.v ===== *)
(** * The homepage endpoint (src/src/api/rest/homepage_recommendations.rs, db/repositories/assignments.rs,
    homepage_sections.rs, recommended_projects.rs)

    [index] reads the tables the feed is made of, builds it with the functions of Personalization.v and
    Feed.v, records what was shown to whom, and answers. A column that was TIMESTAMP when the service was
    ported is TIMESTAMPTZ in the migrations: which of the two it is, is an argument. *)

From stdpp Require Import base gmap list option strings fin_maps.
From Stdlib Require Import ZArith Lia.
From S2P Require Import Prelude RustStr Json Interpretation Decision Order Personalization Feed Text Store StateM Rest Auth Samples.
#[local] Open Scope Z_scope.

(** ** Rows and state *)

Record HomepageSection := mkSection {
  hs_id : uuid;
  hs_key : str;
  hs_label : str;
  hs_position : Z;
  hs_is_enabled : bool;
  hs_data_source : option str;
  hs_created_at : Z;
  hs_updated_at : Z
}.
Record SubjectRow := mkSubjectRow { sj_id : Z; sj_name : str; sj_slug : str }.
Record SubSubjectRow := mkSubSubjectRow { sr_id : Z; sr_subject_id : Z; sr_name : str; sr_slug : str }.
Record TopicRow := mkTopicRow {
  tr_id : uuid;
  tr_title : str;
  tr_teacher_id : str;
  tr_sub_subject_id : option Z;
  tr_thumbnail_url : option str;
  tr_is_published : bool;
  tr_order : Z;
  tr_owner_user_id : option Z;
  tr_ownership_status : str;
  tr_created_at : option Z;
  tr_updated_at : option Z
}.
Record ContentRow := mkContentRow { cr_topic_id : uuid; cr_type : str; cr_is_published : bool }.
Record RecommendedProject := mkProjectRow {
  pj_id : Z;
  pj_title : str;
  pj_description : option str;
  pj_thumbnail_url : option str;
  pj_project_file_url : option str;
  pj_ratio : str;
  pj_project_type : option str;
  pj_tags : option value;
  pj_modules : option value;
  pj_source_type : str;
  pj_source_reference : option str;
  pj_source_payload : option value;
  pj_display_priority : Z;
  pj_is_active : bool;
  pj_starts_at : option Z;
  pj_ends_at : option Z;
  pj_created_by : option Z;
  pj_updated_by : option Z;
  pj_created_at : Z;
  pj_updated_at : Z
}.
Record SystemRecommendationAssignment := mkAssignment {
  sa_id : Z;
  sa_recommendation_item_id : str;
  sa_source_type : str;
  sa_source_reference : str;
  sa_subject_id : option Z;
  sa_sub_subject_id : option Z;
  sa_first_distributed_at : Z;
  sa_last_distributed_at : Z;
  sa_created_at : Z;
  sa_updated_at : Z
}.

(** The tables, their rows in the order a scan gives them. An assignment is found by its user and its
    key: they have a unique index. *)
Record HomeDb := mkHomeDb {
  hd_users : gmap Z User;
  hd_sections : list HomepageSection;
  hd_subjects : list SubjectRow;
  hd_sub_subjects : list SubSubjectRow;
  hd_topics : list TopicRow;
  hd_contents : list ContentRow;
  hd_projects : list RecommendedProject;
  hd_assignments : gmap (Z * str) SystemRecommendationAssignment;
  hd_assignment_seq : Z
}.
#[export] Instance HomeDb_eta : Eta HomeDb := λ d,
  mkHomeDb (hd_users d) (hd_sections d) (hd_subjects d) (hd_sub_subjects d) (hd_topics d) (hd_contents d)
    (hd_projects d) (hd_assignments d) (hd_assignment_seq d).
Record HomeSt := mkHomeSt { hdb : HomeDb; h_clock : Z; h_ticks : list tick }.
#[export] Instance HomeSt_eta : Eta HomeSt := λ s, mkHomeSt (hdb s) (h_clock s) (h_ticks s).
Notation HM := (ST HomeSt).

(** A statement, as in Auth.v: one that does not reach the server changes nothing. *)
Definition home_sql {A} (q : Z -> HomeDb -> outcome db_error A * HomeDb) : HM db_error A := λ s,
  let '(t, rest) := match h_ticks s with t :: rest => (t, rest) | [] => (mkTick false 0, []) end in
  let s := s <| h_ticks := rest |> <| h_clock := h_clock s + Z.of_N (elapsed t) |> in
  if fails t then (Err Unavailable, s)
  else let '(r, db) := q (h_clock s) (hdb s) in (r, s <| hdb := db |>).
Definition read {A} (f : Z -> HomeDb -> outcome db_error A) : HM db_error A := home_sql (λ now db, (f now db, db)).
Definition moment_now {E} : HM E Z := λ s, (Ok (h_clock s), s).

(** The type of a column of instants, and reading it into a [NaiveDateTime]: only TIMESTAMP has the type,
    NULL is read whatever the type. *)
Inductive column_type := Timestamp | Timestamptz.
Definition as_naive (columns : column_type) (t : option Z) : outcome db_error (option Z) :=
  match t, columns with
  | None, _ => Ok None
  | Some t, Timestamp => Ok (Some t)
  | Some _, Timestamptz => Err ColumnDecode
  end.
(** Each row of a result. *)
Fixpoint decode_rows {A B} (f : A -> outcome db_error B) (rows : list A) : outcome db_error (list B) :=
  match rows with
  | [] => Ok []
  | r :: rows => outcome_bind (f r) (λ b, outcome_bind (decode_rows f rows) (λ l, Ok (b :: l)))
  end.
(** [ORDER BY]. *)
Definition ordered {A} (cmp : A -> A -> comparison) : list A -> list A := sort_by cmp.
Definition by_option (a b : option Z) : comparison :=
  match a, b with Some x, Some y => x ?= y | Some _, None => Lt | None, Some _ => Gt | None, None => Eq end.
(** [SELECT DISTINCT], [GROUP BY]: the first occurrences. *)
Definition distinct `{EqDecision A} (l : list A) : list A := reverse (remove_dups (reverse l)).

(** ** Sections, projects, assignments *)

Section Homepage.
Context `{DbErrorText} `{UuidPrint} `{UuidText} `{Rfc3339} `{Rfc3339Millis} `{Timestamps}.
Context (columns : column_type).

Definition home_failed (what why : string) (e : db_error) : AppError :=
  Internal (lit what ++ lit ": " ++ (if decide (why = EmptyString) then [] else lit why ++ lit ": ") ++ db_error_text e).
Arguments home_failed (what why)%_string e.

Definition PROJECT_RECOMMENDATIONS : str := lit "project_recommendations".
(** A row of homepage_sections, whose two instants are NOT NULL. *)
Definition decode_section (s : HomepageSection) : outcome db_error HomepageSection :=
  outcome_bind (as_naive columns (Some (hs_created_at s))) (λ _,
    outcome_bind (as_naive columns (Some (hs_updated_at s))) (λ _, Ok s)).
Definition section_row (key : str) (db : HomeDb) : option HomepageSection :=
  head (filter (λ s, hs_key s = key) (hd_sections db)).
Definition find_by_key (key : str) : HM db_error (option HomepageSection) :=
  read (λ _ db, match section_row key db with
                | None => Ok None
                | Some s => outcome_bind (decode_section s) (λ s, Ok (Some s))
                end).

Definition visible (now : Z) (p : RecommendedProject) : bool :=
  pj_is_active p && match pj_starts_at p with Some t => t <=? now | None => true end
  && match pj_ends_at p with Some t => now <=? t | None => true end.
Definition by_display (a b : RecommendedProject) : comparison :=
  then_with (pj_display_priority b ?= pj_display_priority a) (pj_created_at b ?= pj_created_at a).
Definition visible_projects (now : Z) (db : HomeDb) : list RecommendedProject :=
  ordered by_display (List.filter (visible now) (hd_projects db)).
Definition find_visible : HM db_error (list RecommendedProject) := read (λ now db, Ok (visible_projects now db)).

Record AssignmentDistributionRow := mkDistributionRow {
  dr_source_type : str;
  dr_source_reference : str;
  dr_subject_id : option Z;
  dr_sub_subject_id : option Z;
  dr_distinct_user_count : Z;
  dr_latest_distribution_at : option Z
}.
Definition group_of (a : SystemRecommendationAssignment) : str * str * option Z * option Z :=
  (sa_source_type a, sa_source_reference a, sa_subject_id a, sa_sub_subject_id a).
(** The rows of a summary: a group, its users and its latest distribution. *)
Definition distribution_rows (source_types : list str) (minimum : Z) (db : HomeDb) : list AssignmentDistributionRow :=
  let rows := filter (λ r : Z * str * SystemRecommendationAssignment,
                 sa_source_type r.2 ∈ source_types /\ is_Some (sa_sub_subject_id r.2)) (map_to_list (hd_assignments db)) in
  omap (λ g : str * str * option Z * option Z,
    let members := filter (λ r : Z * str * SystemRecommendationAssignment, group_of r.2 = g) rows in
    let users := distinct ((λ r : Z * str * SystemRecommendationAssignment, r.1.1) <$> members) in
    let count := Z.of_nat (length users) in
    if minimum <=? count then
      Some (mkDistributionRow g.1.1.1 g.1.1.2 g.1.2 g.2 count
        (foldr (λ (r : Z * str * SystemRecommendationAssignment) acc,
           Some (match acc with Some t => Z.max t (sa_last_distributed_at r.2) | None => sa_last_distributed_at r.2 end)) None members))
    else None)
    (distinct ((λ r : Z * str * SystemRecommendationAssignment, group_of r.2) <$> rows)).
Definition find_distribution_summary (source_types : list str) (minimum : Z) :
    HM db_error (list AssignmentDistributionRow) := read (λ _ db, Ok (distribution_rows source_types minimum db)).

Record TrackableFeedItem := mkTrackable {
  tf_id : str;
  tf_source_type : str;
  tf_source_reference : option str;
  tf_source_payload_topic_id : option str;
  tf_source_payload_source_reference : option str;
  tf_subject_id : option Z;
  tf_sub_subject_id : option Z
}.
Definition default_trackable_source_types : list str := [SOURCE_SYSTEM_TOPIC; SOURCE_AI_GENERATED].
Definition extract_topic_reference_from_item_id (item_id : str) : option str :=
  match strip_prefix (lit "system_topic_") item_id with Some (c :: t) => Some (c :: t) | _ => None end.
Definition nonempty_text (o : option str) : option str := match o with Some (c :: t) => Some (c :: t) | _ => None end.
Definition resolve_source_reference (item : TrackableFeedItem) : str :=
  default (tf_id item)
    (option_or (nonempty_text (tf_source_reference item))
      (option_or (if decide (tf_source_type item = SOURCE_SYSTEM_TOPIC)
                  then option_or (nonempty_text (tf_source_payload_topic_id item)) (extract_topic_reference_from_item_id (tf_id item))
                  else None)
        (nonempty_text (tf_source_payload_source_reference item)))).
Definition make_recommendation_key (source_type source_reference : str) : str := source_type ++ lit ":" ++ source_reference.
Definition recommendation_key (item : TrackableFeedItem) : str :=
  make_recommendation_key (tf_source_type item) (resolve_source_reference item).

(** The row proposed for an item, and what a conflict makes of the old one. *)
Definition proposed (i : Z) (item : TrackableFeedItem) (moment : Z) : SystemRecommendationAssignment :=
  mkAssignment i (tf_id item) (tf_source_type item) (resolve_source_reference item) (tf_subject_id item)
    (tf_sub_subject_id item) moment moment moment moment.
Definition excluded (old new : SystemRecommendationAssignment) : SystemRecommendationAssignment :=
  mkAssignment (sa_id old) (sa_recommendation_item_id new) (sa_source_type new) (sa_source_reference new)
    (sa_subject_id new) (sa_sub_subject_id new) (sa_first_distributed_at old) (sa_last_distributed_at new)
    (sa_created_at old) (sa_updated_at new).
Definition assignment_ok (user_id : Z) (key : str) (a : SystemRecommendationAssignment) (db : HomeDb) : outcome db_error unit :=
  if negb (varchar 255 key && varchar 255 (sa_recommendation_item_id a) && varchar 255 (sa_source_type a)
           && varchar 255 (sa_source_reference a)) then Err CheckViolation
  else if bool_decide (is_Some (hd_users db !! user_id))
          && match sa_subject_id a with Some i => existsb (λ s, sj_id s =? i) (hd_subjects db) | None => true end
          && match sa_sub_subject_id a with Some i => existsb (λ s, sr_id s =? i) (hd_sub_subjects db) | None => true end
  then Ok () else Err ForeignKeyViolation.
(** [INSERT ... ON CONFLICT (user_id, recommendation_key) DO UPDATE]. *)
Definition upsert_assignment (user_id : Z) (item : TrackableFeedItem) (moment : Z) (db : HomeDb) :
    outcome db_error unit * HomeDb :=
  let key := recommendation_key item in
  let new := proposed (hd_assignment_seq db) item moment in
  let db' := db <| hd_assignment_seq := hd_assignment_seq db + 1 |> in
  match assignment_ok user_id key new db with
  | Ok _ =>
      let row := match hd_assignments db !! (user_id, key) with Some old => excluded old new | None => new end in
      (Ok (), db' <| hd_assignments := <[(user_id, key) := row]> (hd_assignments db) |>)
  | Err e => (Err e, db')
  | Panic => (Panic, db')
  end.
Definition upsert (user_id : Z) (item : TrackableFeedItem) (moment : Z) : HM db_error unit :=
  home_sql (λ _ db, upsert_assignment user_id item moment db).

(** The loop of [track_served]; [seen] are the keys already written. *)
Fixpoint track_items (user_id : Z) (items : list TrackableFeedItem) (trackable_source_types seen : list str)
    (moment : Z) : HM db_error unit :=
  match items with
  | [] => mret ()
  | item :: items =>
      if decide (tf_source_type item ∈ trackable_source_types) then
        let key := recommendation_key item in
        if decide (key ∈ seen) then track_items user_id items trackable_source_types seen moment
        else _ ← upsert user_id item moment;
             track_items user_id items trackable_source_types (key :: seen) moment
      else track_items user_id items trackable_source_types seen moment
  end.
Definition track_served (user_id : Z) (items : list TrackableFeedItem) (trackable_source_types : list str)
    (moment : Z) : HM db_error unit := track_items user_id items trackable_source_types [] moment.

(** ** The inputs of the feed *)

Definition subject_of (db : HomeDb) (i : Z) : option SubjectRow := List.find (λ s, sj_id s =? i) (hd_subjects db).
Definition sub_subject_of (db : HomeDb) (i : Z) : option SubSubjectRow := List.find (λ s, sr_id s =? i) (hd_sub_subjects db).

(** A row of the join of topics, sub_subjects and subjects. *)
Record PublishedTopicRow := mkPublishedTopic {
  pt_topic : TopicRow;
  pt_subject_id : option Z;
  pt_sub_subject : option SubSubjectRow;
  pt_subject : option SubjectRow
}.
Definition by_order (a b : TopicRow) : comparison :=
  then_with (tr_order a ?= tr_order b) (by_option (tr_created_at b) (tr_created_at a)).
Definition published_rows (db : HomeDb) : list PublishedTopicRow :=
  (λ t, let ss := tr_sub_subject_id t ≫= sub_subject_of db in
        mkPublishedTopic t (sr_subject_id <$> ss) ss (ss ≫= λ ss, subject_of db (sr_subject_id ss)))
  <$> ordered by_order (List.filter (λ t, tr_is_published t && bool_decide (is_Some (tr_sub_subject_id t))) (hd_topics db)).
Definition decode_topic (r : PublishedTopicRow) : outcome db_error PublishedTopicRow :=
  outcome_bind (as_naive columns (tr_created_at (pt_topic r))) (λ _,
    outcome_bind (as_naive columns (tr_updated_at (pt_topic r))) (λ _, Ok r)).

(** The distinct content types of a topic, in their order. *)
Definition modules_of (db : HomeDb) (uuids : list uuid) : gmap str (list str) :=
  let rows := ordered (λ a b : uuid * str, Canon.str_cmp a.2 b.2)
    (distinct ((λ c, (cr_topic_id c, cr_type c)) <$>
       List.filter (λ c, bool_decide (cr_topic_id c ∈ uuids) && cr_is_published c) (hd_contents db))) in
  foldl (λ lookup '(i, ty), <[uuid_to_string i := default [] (lookup !! uuid_to_string i) ++ [ty]]> lookup) ∅ rows.
Definition query_topic_modules (topic_ids : list str) : HM AppError (gmap str (list str)) :=
  match omap parse_uuid_str topic_ids with
  | [] => mret ∅
  | uuids => erring (home_failed "Failed to fetch topic modules" "") (read (λ _ db, Ok (modules_of db uuids)))
  end.

Definition topic_taxonomy (r : PublishedTopicRow) : option TaxonomyInfo :=
  match tr_sub_subject_id (pt_topic r), pt_subject_id r with
  | Some ss_id, Some s_id =>
      Some (mkTaxonomyInfo
        (Some (mkSubjectTaxonomy s_id (default [] (sj_name <$> pt_subject r)) (default [] (sj_slug <$> pt_subject r))))
        (mkSubSubjectTaxonomy ss_id s_id (default [] (sr_name <$> pt_sub_subject r)) (default [] (sr_slug <$> pt_sub_subject r)) None))
  | _, _ => None
  end.
Definition topic_item (module_lookup : gmap str (list str)) (r : PublishedTopicRow) : TopicItemInput :=
  let t := pt_topic r in
  mkTopicItemInput (uuid_to_string (tr_id t)) (tr_title t) (tr_thumbnail_url t) (tr_sub_subject_id t) (pt_subject_id r)
    (topic_taxonomy r) (Some true) None None (bool_decide (tr_ownership_status t = lit "normalized"))
    (default [] (module_lookup !! uuid_to_string (tr_id t))) (Some (tr_teacher_id t)) (tr_owner_user_id t)
    (Some (tr_ownership_status t)) (Some (tr_order t)) (to_rfc3339_millis <$> tr_created_at t)
    (to_rfc3339_millis <$> tr_updated_at t).
Definition query_published_topics : HM AppError (list TopicItemInput) :=
  rows ← erring (home_failed "Failed to fetch published topics" "") (read (λ _ db, decode_rows decode_topic (published_rows db)));
  module_lookup ← match rows with
                  | [] => mret ∅
                  | _ => query_topic_modules ((λ r, uuid_to_string (tr_id (pt_topic r))) <$> rows)
                  end;
  mret (topic_item module_lookup <$> rows).

Definition sub_subject_taxonomy (db : HomeDb) (r : SubSubjectRow) : SubSubjectTaxonomy :=
  mkSubSubjectTaxonomy (sr_id r) (sr_subject_id r) (sr_name r) (sr_slug r)
    ((λ s, mkSubjectTaxonomy (sj_id s) (sj_name s) (sj_slug s)) <$> subject_of db (sr_subject_id r)).
Definition sub_subject_lookup (db : HomeDb) : gmap Z SubSubjectTaxonomy :=
  foldl (λ lookup r, <[sr_id r := sub_subject_taxonomy db r]> lookup) ∅ (ordered (λ a b, sr_id a ?= sr_id b) (hd_sub_subjects db)).
Definition query_subject_lookups : HM AppError (gmap Z SubSubjectTaxonomy) :=
  erring (home_failed "Failed to fetch sub_subjects" "") (read (λ _ db, Ok (sub_subject_lookup db))).

Definition query_subject_by_id (subject_id : Z) : HM AppError (option SubjectInfo) :=
  erring (home_failed "Failed to fetch subject" "")
    (read (λ _ db, Ok ((λ s, mkSubjectInfo (sj_id s) (sj_name s) (sj_slug s) None) <$> subject_of db subject_id))).

(** The published topics of an author by sub-subject, the most numerous first. *)
Definition activity_row (db : HomeDb) (topics : list TopicRow) (ss_id : Z) : option (Z * Z * option Z * SubSubjectRow * option SubjectRow) :=
  ss ← sub_subject_of db ss_id;
  let members := List.filter (λ t, bool_decide (tr_sub_subject_id t = Some ss_id)) topics in
  Some (ss_id, Z.of_nat (length members),
        foldr (λ t acc, match tr_updated_at t, acc with
                        | Some x, Some y => Some (Z.max x y) | Some x, None => Some x | None, _ => acc end) None members,
        ss, subject_of db (sr_subject_id ss)).
Definition by_activity (a b : Z * Z * option Z * SubSubjectRow * option SubjectRow) : comparison :=
  then_with (b.1.1.1.2 ?= a.1.1.1.2) (then_with (by_option b.1.1.2 a.1.1.2) (a.1.1.1.1 ?= b.1.1.1.1)).
Definition activity_rows (teacher_id : str) (db : HomeDb) : list (Z * Z * option Z * SubSubjectRow * option SubjectRow) :=
  let topics := List.filter (λ t, bool_decide (tr_teacher_id t = teacher_id) && tr_is_published t) (hd_topics db) in
  ordered by_activity (omap (activity_row db topics) (distinct (omap tr_sub_subject_id topics))).
Definition decode_activity (r : Z * Z * option Z * SubSubjectRow * option SubjectRow) : outcome db_error ActivityRow :=
  let '(ss_id, count, latest, ss, subject) := r in
  outcome_bind (as_naive columns latest) (λ latest,
    Ok (mkActivityRow ss_id (sr_subject_id ss) count (to_rfc3339_millis <$> latest)
          (Some (mkSubSubjectInfo ss_id (sr_subject_id ss) (sr_name ss) (sr_slug ss)))
          (Some (mkSubjectInfo (sr_subject_id ss) (default [] (sj_name <$> subject)) (default [] (sj_slug <$> subject)) None)))).
Definition query_authored_topic_activity (teacher_id : str) : HM AppError (list ActivityRow) :=
  erring (home_failed "Failed to fetch authored topic activity" "")
    (read (λ _ db, decode_rows decode_activity (activity_rows teacher_id db))).

Definition build_personalization_context (user_id : option Z) : HM AppError (option PersonalizationContext) :=
  match user_id with
  | None => mret None
  | Some i =>
      found ← erring (home_failed "Failed to find user" "failed to find user by id") (read (λ _ db, Ok (hd_users db !! i)));
      user ← ok_or (NotFound (lit "User not found")) found;
      primary_subject ← match u_primary_subject_id user with Some s => query_subject_by_id s | None => mret None end;
      authored_activity ← query_authored_topic_activity (u_email user);
      mret (Some (resolve_context (mkPersonalizationInput (Some i) primary_subject authored_activity)))
  end.

(** [serde_json::from_value::<Vec<String>>] of an optional column. *)
Definition strings_of (v : option value) : list str := default [] (v ≫= d_vec d_string).
Definition map_curated_item (p : RecommendedProject) : CuratedItemInput :=
  mkCuratedItemInput (z_to_string (pj_id p)) (pj_title p) (pj_description p) (pj_thumbnail_url p) (Some (pj_ratio p))
    (pj_project_type p) (strings_of (pj_tags p)) (strings_of (pj_modules p)) (pj_source_type p) (pj_source_reference p)
    (default (Object []) (pj_source_payload p)) (pj_display_priority p) (pj_is_active p) (to_rfc3339 <$> pj_starts_at p)
    (to_rfc3339 <$> pj_ends_at p) (Some (to_rfc3339 (pj_created_at p))) (Some (to_rfc3339 (pj_updated_at p))).
Definition suppressed_keys (curated_items : list CuratedItemInput) : list str :=
  omap (λ c, if negb (bool_decide (cu_source_type c = SOURCE_ADMIN_UPLOAD))
                || bool_decide (cu_source_type c = SOURCE_AI_GENERATED) && bool_decide (is_Some (cu_source_reference c))
             then (λ sr, cu_source_type c ++ lit ":" ++ sr) <$> cu_source_reference c else None) curated_items.
Definition assignment_input (r : AssignmentDistributionRow) : SystemAssignmentInput :=
  mkSystemAssignmentInput (dr_source_type r) (dr_source_reference r) (dr_subject_id r) (default 0 (dr_sub_subject_id r))
    (dr_distinct_user_count r) (to_rfc3339 <$> dr_latest_distribution_at r).
Definition aggregation_input (projects : list RecommendedProject) (topics : list TopicItemInput)
    (lookup : gmap Z SubSubjectTaxonomy) (distribution : list AssignmentDistributionRow) (ctx : option PersonalizationContext) :
    AggregationInput :=
  let curated_items := map_curated_item <$> projects in
  mkAggregationInput curated_items (suppressed_keys curated_items) topics (assignment_input <$> distribution) lookup ∅ ∅ ctx 2 1
    [SOURCE_SYSTEM_TOPIC; SOURCE_AI_GENERATED].

(** ** The answer *)

(** The query takes a client's [limit]. *)
Record HomepageRecommendationsQuery := mkHomepageQuery { hq_limit : option Z }.

(** A [PersonalizationResource] and a [VisibilityResource] have the fields of the feed's own records. *)
Record RecommendedProjectResource := mkProjectResource {
  hp_id : str;
  hp_title : str;
  hp_description : option str;
  hp_thumbnail_url : option str;
  hp_ratio : str;
  hp_project_type : option str;
  hp_tags : list str;
  hp_modules : list str;
  hp_sub_subject_id : option Z;
  hp_subject_id : option Z;
  hp_taxonomy : option TaxonomyInfo;
  hp_personalization : option PersonalizationInfo;
  hp_source_type : str;
  hp_source_reference : option str;
  hp_feed_origin : str;
  hp_display_priority : Z;
  hp_visibility : VisibilityInfo;
  hp_created_at : option str;
  hp_updated_at : option str
}.
Definition map_feed_item_to_resource (i : FeedItem) : RecommendedProjectResource :=
  mkProjectResource (fi_id i) (fi_title i) (fi_description i) (fi_thumbnail_url i) (fi_ratio i) (fi_project_type i)
    (fi_tags i) (fi_modules i) (fi_sub_subject_id i) (fi_subject_id i) (fi_taxonomy i) (fi_personalization i)
    (fi_source_type i) (fi_source_reference i) (fi_feed_origin i) (fi_display_priority i) (fi_visibility i)
    (fi_created_at i) (fi_updated_at i).

(** The constants of the answer (the key, the endpoint, the configurator's path, the policy's version)
    are left out of the two records. *)
Record SectionMeta := mkSectionMeta { sm_label : option str; sm_enabled : bool; sm_position : Z }.
Record PersonalizationMeta := mkPersonalizationMeta {
  pm_audience : string;
  pm_mode : string;
  pm_tracks_assignments : bool;
  pm_description : string;
  pm_persona : option value
}.
Record HomeResponse := mkHomeResponse {
  hr_data : list RecommendedProjectResource;
  hr_total : nat;
  hr_section : SectionMeta;
  hr_requested : option Z;
  hr_applied : nat;
  hr_personalization : PersonalizationMeta;
  hr_source_status : gmap str SourceStatusInfo;
  hr_personalization_detail : option PersonalizationSummary
}.

Definition section_meta (section : option HomepageSection) : SectionMeta :=
  mkSectionMeta (hs_label <$> section) (default false (hs_is_enabled <$> section)) (default 0 (hs_position <$> section)).
Definition audience_of (is_authenticated : bool) : string := if is_authenticated then "authenticated" else "guest".
Definition DEFAULT_MODE : string := "default_global_feed".

Definition empty_response (requested_limit : option Z) (section : SectionMeta) (is_authenticated : bool) : HomeResponse :=
  let disabled := mkSourceStatusInfo "disabled" None in
  mkHomeResponse [] 0 section requested_limit 0
    (mkPersonalizationMeta (audience_of is_authenticated) DEFAULT_MODE is_authenticated
       "Section is disabled — no recommendations served." None)
    (list_to_map [(SOURCE_ADMIN_UPLOAD, disabled); (SOURCE_SYSTEM_TOPIC, disabled); (SOURCE_AI_GENERATED, disabled)]) None.

Definition build_persona_json (summary : PersonalizationSummary) : option value :=
  if negb (sm_applied summary) then None
  else
    let persona := ((λ m, (lit "mode", jstr m)) <$> option_list (sm_mode summary))
      ++ ((λ d, (lit "description", jstr d)) <$> option_list (sm_description summary))
      ++ ((λ ids, (lit "matched_sub_subject_ids", Array (jint <$> ids))) <$> option_list (sm_matched_sub_subject_ids summary)) in
    match persona with [] => None | _ => Some (Object persona) end.

Definition trackable (i : FeedItem) : TrackableFeedItem :=
  mkTrackable (fi_id i) (fi_source_type i) (fi_source_reference i) None None (fi_subject_id i) (fi_sub_subject_id i).

Definition missing_status (status : gmap str SourceStatusInfo) (source : str) : gmap str SourceStatusInfo :=
  match status !! source with Some _ => status | None => <[source := mkSourceStatusInfo "not_evaluated" None]> status end.
Definition MAX_ITEMS : Z := 50.
Definition respond (section : SectionMeta) (query : HomepageRecommendationsQuery) (is_authenticated : bool)
    (snapshot : FeedSnapshot) : HomeResponse :=
  let limit := Z.min (default MAX_ITEMS (hq_limit query)) MAX_ITEMS in
  let data := map_feed_item_to_resource <$> take (Z.to_nat limit) (fs_items snapshot) in
  let summary := fs_personalization snapshot in
  mkHomeResponse data (length (fs_items snapshot)) section (hq_limit query) (length data)
    (mkPersonalizationMeta (audience_of is_authenticated) (default DEFAULT_MODE (Feed.sm_mode summary)) is_authenticated
      (default (if is_authenticated
                then "Serve the current safe mixed homepage feed when subject profile or authored-topic signals are still insufficient."
                else "Guests remain on the current non-personalized homepage feed until an authenticated context exists.")%string
         (Feed.sm_description summary))
      (build_persona_json summary))
    (foldl missing_status (fs_source_status snapshot) [SOURCE_ADMIN_UPLOAD; SOURCE_SYSTEM_TOPIC; SOURCE_AI_GENERATED])
    (if sm_applied summary then Some summary else None).

(** ** The handler *)

(** Step 4: everything the feed is made of. *)
Definition gather (ctx : option PersonalizationContext) : HM AppError AggregationInput :=
  projects ← erring (home_failed "Failed to fetch recommended projects" "failed to fetch visible recommended projects") find_visible;
  topics ← query_published_topics;
  lookup ← query_subject_lookups;
  distribution ← erring (home_failed "Failed to fetch distribution summary" "failed to fetch distribution summary")
    (find_distribution_summary [SOURCE_SYSTEM_TOPIC; SOURCE_AI_GENERATED] 2);
  mret (aggregation_input projects topics lookup distribution ctx).

Definition index (principal : option Principal) (query : HomepageRecommendationsQuery) : HM AppError HomeResponse :=
  moment ← moment_now;
  section ← erring (home_failed "Failed to fetch homepage section" "failed to fetch homepage section by key")
    (find_by_key PROJECT_RECOMMENDATIONS);
  let is_authenticated := bool_decide (is_Some principal) in
  ctx ← build_personalization_context (user_id <$> principal);
  if negb (default false (hs_is_enabled <$> section)) then
    mret (empty_response (hq_limit query) (section_meta section) is_authenticated)
  else
    input ← gather ctx;
    let snapshot := build_feed_snapshot input in
    _ ← match principal with
        | Some p =>
            _ ← attempt (track_served (user_id p) (trackable <$> fs_items snapshot) default_trackable_source_types moment);
            mret ()
        | None => mret ()
        end;
    mret (respond (section_meta section) query is_authenticated snapshot).
End Homepage.

(** ** Lemmas: reading *)

(** The next statements reach the server. *)
Definition reached (s : HomeSt) : Prop := Forall (λ t, fails t = false) (h_ticks s).
(** Only time has passed. *)
Record quiet (s s' : HomeSt) : Prop := {
  qu_db : hdb s' = hdb s;
  qu_clock : h_clock s <= h_clock s';
  qu_reached : reached s -> reached s'
}.
#[export] Instance quiet_preorder : PreOrder quiet.
Proof. split; [by split|]. intros ??? [] []. split; [congruence|lia|auto]. Qed.

Lemma holds_home_sql {A} (q : Z -> HomeDb -> outcome db_error A * HomeDb) (Q : outcome db_error A -> HomeSt -> Prop) s :
  (forall s', quiet s s' ->
     (¬ reached s -> Q (Err Unavailable) s') /\
     Q (q (h_clock s') (hdb s)).1 (s' <| hdb := (q (h_clock s') (hdb s)).2 |>)) ->
  holds (home_sql q) Q s.
Proof.
  intros H. unfold holds, home_sql.
  destruct (match h_ticks s with [] => _ | _ => _ end) as [t rest] eqn:Et. cbn zeta.
  destruct (H (s <| h_ticks := rest |> <| h_clock := h_clock s + Z.of_N (elapsed t) |>)) as [Hf Hq].
  { split; [done|cbn; lia|]. unfold reached. destruct (h_ticks s); injection Et as <- <-; [done|]. by inversion 1. }
  destruct (fails t) eqn:Ef.
  - apply Hf. unfold reached. destruct (h_ticks s); injection Et as <- <-; [done|]. inversion 1. congruence.
  - cbn [hdb h_clock update] in Hq |- *. by destruct (q _ (hdb s)).
Qed.
Lemma holds_home_read {A} (f : Z -> HomeDb -> outcome db_error A) (Q : outcome db_error A -> HomeSt -> Prop) s :
  (forall s', quiet s s' -> (¬ reached s -> Q (Err Unavailable) s') /\ Q (f (h_clock s') (hdb s)) s') ->
  holds (read f) Q s.
Proof.
  intros H. apply holds_home_sql. intros s' Hs. destruct (H s' Hs) as [Hf Hq]. split; [done|].
  cbn [fst snd]. rewrite <- (qu_db _ _ Hs) in Hq |- *. by destruct s'.
Qed.
Lemma holds_moment {E} (Q : outcome E Z -> HomeSt -> Prop) s : Q (Ok (h_clock s)) s -> holds moment_now Q s.
Proof. done. Qed.

(** A computation that returns, and only reads. *)
Definition calm {E A} (m : HM E A) : Prop := forall s, (m s).1 <> Panic /\ quiet s (m s).2.
Lemma calm_read {A} (f : Z -> HomeDb -> outcome db_error A) : (forall now db, f now db <> Panic) -> calm (read f).
Proof. intros Hf s. apply (holds_home_read f (λ r s', r <> Panic /\ quiet s s')). intros s' Hs. by split; [intros _|]. Qed.
Lemma calm_ret {E A} (a : A) : calm (mret a : HM E A).
Proof. by intros s. Qed.
Lemma calm_ok_or {E A} (e : E) (o : option A) : calm (ok_or e o).
Proof. intros s. by destruct o. Qed.
Lemma calm_erring {F E A} (f : E -> F) (m : HM E A) : calm m -> calm (erring f m).
Proof. intros Hm s. specialize (Hm s). unfold erring. by destruct (m s) as [[] ?]; destruct Hm. Qed.
Lemma calm_bind {E A B} (m : HM E A) (k : A -> HM E B) : calm m -> (forall a, calm (k a)) -> calm (m ≫= k).
Proof.
  intros Hm Hk s. destruct (Hm s) as [Hp Hq]. unfold mbind, ST_bind. destruct (m s) as [[a|e|] s']; [|done..].
  destruct (Hk a s') as [Hp' Hq']. split; [done|]. by transitivity s'.
Qed.
Lemma decode_rows_returns {A B} (f : A -> outcome db_error B) rows :
  (forall a, f a <> Panic) -> decode_rows f rows <> Panic.
Proof.
  intros Hf. induction rows as [|a rows IH]; [done|]. cbn. specialize (Hf a). destruct (f a); [|done..].
  cbn. by destruct (decode_rows f rows).
Qed.
Ltac calm_step :=
  lazymatch goal with
  | |- calm (mbind _ _) => apply calm_bind; [|intros ?]
  | |- calm (mret _) => apply calm_ret
  | |- calm (ok_or _ _) => apply calm_ok_or
  | |- calm (erring _ _) => apply calm_erring
  | |- calm (read _) => apply calm_read; intros ??
  | |- calm (match ?x with _ => _ end) => destruct x eqn:?
  end.

(** A step of the handler. *)
Ltac home_step :=
  lazymatch goal with
  | |- holds (erring _ _) _ _ => apply holds_erring
  | |- holds moment_now _ _ => apply holds_moment
  | |- holds (read _) _ _ => apply holds_home_read; intros ??; split; [intros ?|]
  | |- _ => st_step
  end; cbn beta iota.

Lemma decode_rows_ok {A B} (f : A -> outcome db_error B) (g : A -> B) rows :
  (forall a, f a = Ok (g a)) -> decode_rows f rows = Ok (g <$> rows).
Proof. intros Hf. induction rows as [|a rows IH]; [done|]. cbn. by rewrite Hf, IH. Qed.

Section Reading.
Context `{DbErrorText} `{UuidPrint} `{UuidText} `{Rfc3339} `{Rfc3339Millis} `{Timestamps}.

Lemma decode_topic_returns columns r : decode_topic columns r <> Panic.
Proof. destruct columns, r as [[?????????[] []] ???]; done. Qed.
Lemma decode_activity_returns columns r : decode_activity columns r <> Panic.
Proof. destruct columns, r as [[[[??] []] ?] ?]; done. Qed.
Lemma context_calm columns user_id : calm (build_personalization_context columns user_id).
Proof.
  unfold build_personalization_context, query_subject_by_id, query_authored_topic_activity.
  repeat calm_step; try done. apply decode_rows_returns, decode_activity_returns.
Qed.
Lemma gather_calm columns ctx : calm (gather columns ctx).
Proof.
  unfold gather, find_visible, query_published_topics, query_topic_modules, query_subject_lookups, find_distribution_summary.
  repeat calm_step; try done. apply decode_rows_returns, decode_topic_returns.
Qed.
Lemma section_calm columns : calm (find_by_key columns PROJECT_RECOMMENDATIONS).
Proof. unfold find_by_key. repeat calm_step. case_match; [|done]. by destruct columns. Qed.
Lemma holds_calm {E A} (m : HM E A) (Q : outcome E A -> HomeSt -> Prop) s :
  calm m -> (forall r s', r <> Panic -> quiet s s' -> Q r s') -> holds m Q s.
Proof. intros Hm HQ. by apply HQ; apply Hm. Qed.

(** What the handler finds, when every statement is answered. *)
Definition activity_of (r : Z * Z * option Z * SubSubjectRow * option SubjectRow) : ActivityRow :=
  let '(ss_id, count, latest, ss, subject) := r in
  mkActivityRow ss_id (sr_subject_id ss) count (to_rfc3339_millis <$> latest)
    (Some (mkSubSubjectInfo ss_id (sr_subject_id ss) (sr_name ss) (sr_slug ss)))
    (Some (mkSubjectInfo (sr_subject_id ss) (default [] (sj_name <$> subject)) (default [] (sj_slug <$> subject)) None)).
Definition subject_info (db : HomeDb) (i : Z) : option SubjectInfo :=
  (λ s, mkSubjectInfo (sj_id s) (sj_name s) (sj_slug s) None) <$> subject_of db i.
Definition context_of (db : HomeDb) (i : Z) (u : User) : PersonalizationContext :=
  resolve_context (mkPersonalizationInput (Some i) (u_primary_subject_id u ≫= subject_info db)
    (activity_of <$> activity_rows (u_email u) db)).
Definition home_context (db : HomeDb) (principal : option Principal) : option PersonalizationContext :=
  p ← principal; u ← hd_users db !! user_id p; Some (context_of db (user_id p) u).
Definition topic_modules (db : HomeDb) : gmap str (list str) :=
  modules_of db (omap parse_uuid_str ((λ r, uuid_to_string (tr_id (pt_topic r))) <$> published_rows db)).
Definition home_topics (db : HomeDb) : list TopicItemInput := topic_item (topic_modules db) <$> published_rows db.
(** The feed of a moment: of the lookups and the distribution it needs none. *)
Definition home_feed (now : Z) (db : HomeDb) (ctx : option PersonalizationContext) : FeedSnapshot :=
  build_feed_snapshot (aggregation_input (visible_projects now db) (home_topics db) ∅ [] ctx).

Lemma feed_ignores projects topics lookup distribution ctx :
  build_feed_snapshot (aggregation_input projects topics lookup distribution ctx)
  = build_feed_snapshot (aggregation_input projects topics ∅ [] ctx).
Proof. reflexivity. Qed.

Lemma modules_of_none db : modules_of db [] = ∅.
Proof.
  unfold modules_of. replace (List.filter _ (hd_contents db)) with (@nil ContentRow); [done|].
  induction (hd_contents db) as [|c l IH]; [done|]. cbn. by rewrite bool_decide_false by set_solver.
Qed.

Lemma holds_answered {A} (f : Z -> HomeDb -> outcome db_error A) (Q : outcome db_error A -> HomeSt -> Prop) s0 s :
  reached s0 -> quiet s0 s -> (forall s', quiet s0 s' -> h_clock s <= h_clock s' -> Q (f (h_clock s') (hdb s0)) s') ->
  holds (read f) Q s.
Proof.
  intros Hs Hq HQ. apply holds_home_read. intros s' Hs'. assert (quiet s0 s') as Hq' by (by transitivity s). split.
  - intros []. by apply (qu_reached _ _ Hq).
  - rewrite (qu_db _ _ Hq). apply HQ; [done|apply Hs'].
Qed.
Lemma decode_topic_timestamp r : decode_topic Timestamp r = Ok r.
Proof. by destruct r as [[?????????[] []] ???]. Qed.
Lemma decode_published rows : decode_rows (decode_topic Timestamp) rows = Ok rows.
Proof. etransitivity; [exact (decode_rows_ok _ (λ r, r) rows decode_topic_timestamp)|]. f_equal. apply list_fmap_id. Qed.
Lemma decode_activity_timestamp r : decode_activity Timestamp r = Ok (activity_of r).
Proof. by destruct r as [[[[??] []] ?] ?]. Qed.

Lemma context_spec i u (Q : outcome AppError (option PersonalizationContext) -> HomeSt -> Prop) s0 s :
  reached s0 -> quiet s0 s -> hd_users (hdb s0) !! i = Some u ->
  (forall s', quiet s0 s' -> Q (Ok (Some (context_of (hdb s0) i u))) s') ->
  holds (build_personalization_context Timestamp (Some i)) Q s.
Proof.
  intros Hs Hq Hu HQ. unfold build_personalization_context, query_subject_by_id, query_authored_topic_activity.
  st_step. apply holds_erring, (holds_answered _ _ _ _ Hs Hq). intros s1 Hq1 _. rewrite Hu. cbn. do 2 st_step. cbn.
  assert (forall s2, quiet s0 s2 -> holds (query_authored_topic_activity Timestamp (u_email u) ≫= λ a,
    mret (Some (resolve_context (mkPersonalizationInput (Some i) (u_primary_subject_id u ≫= subject_info (hdb s0)) a)))) Q s2) as Hrest.
  { intros s2 Hq2. unfold query_authored_topic_activity. st_step. apply holds_erring, (holds_answered _ _ _ _ Hs Hq2).
    intros s3 Hq3 _. rewrite (decode_rows_ok _ activity_of) by apply decode_activity_timestamp. cbn. st_step. by apply HQ. }
  st_step. destruct (u_primary_subject_id u) as [sj|]; [|by st_step; apply Hrest].
  apply holds_erring, (holds_answered _ _ _ _ Hs Hq1). intros s2 Hq2 _. by apply Hrest.
Qed.

Lemma published_spec (Q : outcome AppError (list TopicItemInput) -> HomeSt -> Prop) s0 s :
  reached s0 -> quiet s0 s -> (forall s', quiet s0 s' -> h_clock s <= h_clock s' -> Q (Ok (home_topics (hdb s0))) s') ->
  holds (query_published_topics Timestamp) Q s.
Proof.
  intros Hs Hq HQ. unfold query_published_topics. unfold home_topics, topic_modules in HQ.
  st_step. apply holds_erring, (holds_answered _ _ _ _ Hs Hq). intros s1 Hq1 Hc1. cbn beta.
  rewrite decode_published. cbn. st_step.
  revert HQ. destruct (published_rows (hdb s0)) as [|r rows]; intros HQ; [by do 2 st_step; apply HQ|].
  unfold query_topic_modules. revert HQ. destruct (omap parse_uuid_str _) as [|i l]; intros HQ.
  - rewrite modules_of_none in HQ. do 2 st_step. by apply HQ.
  - apply holds_erring, (holds_answered _ _ _ _ Hs Hq1). intros s2 Hq2 Hc2. cbn. st_step. apply HQ; [done|lia].
Qed.

(** The feed is that of the moment the projects were read. *)
Lemma gather_spec ctx (Q : outcome AppError AggregationInput -> HomeSt -> Prop) s0 s :
  reached s0 -> quiet s0 s ->
  (forall now input s', quiet s0 s' -> h_clock s <= now <= h_clock s' ->
     build_feed_snapshot input = home_feed now (hdb s0) ctx -> Q (Ok input) s') ->
  holds (gather Timestamp ctx) Q s.
Proof.
  intros Hs Hq HQ. unfold gather, find_visible, query_subject_lookups, find_distribution_summary.
  st_step. apply holds_erring, (holds_answered _ _ _ _ Hs Hq). intros s1 Hq1 Hc1. cbn.
  st_step. apply (published_spec _ _ _ Hs Hq1). intros s2 Hq2 Hc2. cbn.
  st_step. apply holds_erring, (holds_answered _ _ _ _ Hs Hq2). intros s3 Hq3 Hc3. cbn.
  st_step. apply holds_erring, (holds_answered _ _ _ _ Hs Hq3). intros s4 Hq4 Hc4. cbn. st_step.
  apply (HQ (h_clock s1)); [done|lia|]. apply feed_ignores.
Qed.
End Reading.

(** ** Lemmas: recording *)

Section Recording.


(** The row of an item served at a moment, over what was there. *)
Definition stamped (moment : Z) (item : TrackableFeedItem) (old : option SystemRecommendationAssignment)
    (a : SystemRecommendationAssignment) : Prop :=
  a = match old with Some o => excluded o (proposed 0 item moment) | None => proposed (sa_id a) item moment end.
(** The items of a list that are written: of the types, the first with its key. *)
Fixpoint pending (types seen : list str) (items : list TrackableFeedItem) : list TrackableFeedItem :=
  match items with
  | [] => []
  | item :: items =>
      if decide (tf_source_type item ∈ types) then
        if decide (recommendation_key item ∈ seen) then pending types seen items
        else item :: pending types (recommendation_key item :: seen) items
      else pending types seen items
  end.
Definition storable (user_id : Z) (db : HomeDb) (item : TrackableFeedItem) : bool :=
  match assignment_ok user_id (recommendation_key item) (proposed 0 item 0) db with Ok _ => true | _ => false end.
(** Up to the first the table refuses. *)
Fixpoint accepted (user_id : Z) (db : HomeDb) (items : list TrackableFeedItem) : list TrackableFeedItem :=
  match items with
  | [] => []
  | item :: items => if storable user_id db item then item :: accepted user_id db items else []
  end.

(** Nothing but assignments differs. *)
Definition same_tables (db db' : HomeDb) : Prop :=
  db' = db <| hd_assignments := hd_assignments db' |> <| hd_assignment_seq := hd_assignment_seq db' |>.
(** The rows of these items are stamped, the others are untouched. *)
Record recorded (user_id moment : Z) (items : list TrackableFeedItem) (db db' : HomeDb) : Prop := {
  re_tables : same_tables db db';
  re_stamped item : item ∈ items -> exists a,
    hd_assignments db' !! (user_id, recommendation_key item) = Some a
    /\ stamped moment item (hd_assignments db !! (user_id, recommendation_key item)) a;
  re_others u key : (u = user_id -> key ∉ recommendation_key <$> items) ->
    hd_assignments db' !! (u, key) = hd_assignments db !! (u, key)
}.

Lemma accepted_tables u db db' items : same_tables db db' -> accepted u db' items = accepted u db items.
Proof. intros ->. induction items as [|i l IH]; [done|]. cbn [accepted]. by rewrite IH. Qed.
Lemma recorded_nothing u moment db : recorded u moment [] db db.
Proof. split; [by destruct db|by intros ? ?%elem_of_nil|done]. Qed.
Lemma pending_elem types seen items i :
  i ∈ pending types seen items -> i ∈ items /\ tf_source_type i ∈ types /\ recommendation_key i ∉ seen.
Proof.
  revert seen. induction items as [|j l IH]; intros seen; cbn [pending]; [by intros ?%elem_of_nil|].
  do 2 try case_decide; [|intros [->|Hi]%elem_of_cons|]; try (intros (? & ? & ?)%IH; set_solver).
  - set_solver.
  - apply IH in Hi. set_solver.
Qed.
Lemma accepted_prefix u db items : accepted u db items `prefix_of` items.
Proof.
  induction items as [|i l IH]; [done|]. cbn. case_match; [by apply prefix_cons|apply prefix_nil].
Qed.

Lemma upsert_spec u item moment db :
  (storable u db item = true ->
     (upsert_assignment u item moment db).1 = Ok () /\ recorded u moment [item] db (upsert_assignment u item moment db).2)
  /\ (storable u db item = false ->
     (exists e, (upsert_assignment u item moment db).1 = Err e) /\ recorded u moment [] db (upsert_assignment u item moment db).2).
Proof.
  unfold storable, upsert_assignment.
  change (assignment_ok u (recommendation_key item) (proposed (hd_assignment_seq db) item moment) db)
    with (assignment_ok u (recommendation_key item) (proposed 0 item 0) db).
  assert (assignment_ok u (recommendation_key item) (proposed 0 item 0) db <> Panic) as Hp.
  { unfold assignment_ok. by repeat case_match. }
  destruct (assignment_ok _ _ _ db) as [[]|e|] eqn:Ea; [..|done]; split; try done; intros _; (split; [by eauto|]).
  - split; [by destruct db| |].
    + intros i ->%list_elem_of_singleton. cbn -[recommendation_key]. eexists. split; [apply lookup_insert_eq|].
      unfold stamped. by destruct (hd_assignments db !! _).
    + intros v key Hv. cbn -[recommendation_key]. apply lookup_insert_ne. intros [= <- <-]. apply Hv; [done|]. left.
  - split; [by destruct db|by intros ? ?%elem_of_nil|done].
Qed.

Lemma recorded_cons u moment item items db db1 db2 :
  recorded u moment [item] db db1 -> recorded u moment items db1 db2 ->
  recommendation_key item ∉ recommendation_key <$> items -> recorded u moment (item :: items) db db2.
Proof.
  intros [Ht1 Hs1 Ho1] [Ht2 Hs2 Ho2] Hk. split.
  - unfold same_tables in *. rewrite Ht2, Ht1. by destruct db.
  - intros i Hi. destruct (decide (recommendation_key i = recommendation_key item)) as [Hik|Hik].
    + apply elem_of_cons in Hi as [->|Hi]; [|by destruct Hk; rewrite <- Hik; apply list_elem_of_fmap_2].
      destruct (Hs1 item) as (a & Ha & Hst); [by apply list_elem_of_singleton|]. exists a. by rewrite Ho2.
    + apply elem_of_cons in Hi as [->|Hi]; [done|]. destruct (Hs2 i Hi) as (a & Ha & Hst). exists a. split; [done|].
      by rewrite <- Ho1 by (intros _ ?%list_elem_of_singleton; congruence).
  - intros v key Hv. rewrite Ho2, Ho1; [done|..]; intros Hvu; specialize (Hv Hvu); set_solver.
Qed.

(** Whatever fails, what is recorded is an initial part of what the table accepts, and all of it when
    every statement reaches. *)
Lemma track_spec u items types moment seen s :
  holds (track_items u items types seen moment) (λ r s', r <> Panic /\ h_clock s <= h_clock s' /\ exists written,
    written `prefix_of` accepted u (hdb s) (pending types seen items)
    /\ (reached s -> written = accepted u (hdb s) (pending types seen items))
    /\ recorded u moment written (hdb s) (hdb s')) s.
Proof.
  revert seen s. induction items as [|item items IH]; intros seen s; cbn [track_items pending].
  { split; [done|]. split; [cbn; lia|]. exists []. split; [done|]. split; [done|]. apply recorded_nothing. }
  do 2 try case_decide; [apply IH| |apply IH]. st_step. apply holds_home_sql. intros s1 Hq.
  split; [intros Hn; split; [done|]; split; [apply Hq|]; exists []; split; [apply prefix_nil|]; split; [done|];
          rewrite (qu_db _ _ Hq); apply recorded_nothing|].
  cbn [accepted]. destruct (upsert_spec u item moment (hdb s)) as [Hok Herr].
  destruct (storable u (hdb s) item).
  - destruct Hok as [-> Hrec]; [done|]. cbv iota. set (db1 := (upsert_assignment u item moment (hdb s)).2) in *.
    eapply holds_mono; [apply IH|]. cbn [hdb update]. intros r s2 (Hr & Hc & written & Hw & Hall & Hrec2).
    split; [done|]. split; [cbn [h_clock update] in Hc; pose proof (qu_clock _ _ Hq); lia|].
    rewrite (accepted_tables _ _ _ _ (re_tables _ _ _ _ _ Hrec)) in Hw, Hall. exists (item :: written).
    split; [by apply prefix_cons|]. split.
    + intros Hs. f_equal. apply Hall. by apply (qu_reached _ _ Hq).
    + apply (recorded_cons _ _ _ _ _ _ _ Hrec Hrec2). intros (i & Hk & Hi)%list_elem_of_fmap.
      assert (i ∈ pending types (recommendation_key item :: seen) items) as (_ & _ & Hno)%pending_elem.
      { eapply elem_of_prefix; [|apply accepted_prefix]. by eapply elem_of_prefix. }
      apply Hno. rewrite <- Hk. left.
  - destruct Herr as [[e ->] Hrec]; [done|]. split; [done|]. split; [apply Hq|]. exists []. split; [done|]. by split.
Qed.
End Recording.

(** ** Lemmas: the handler *)

Section Theorems.
Context `{DbErrorText} `{UuidPrint} `{UuidText} `{Rfc3339} `{Rfc3339Millis} `{Timestamps}.

(** What an answer recorded of a feed: nothing for a guest. *)
Definition recorded_for (principal : option Principal) (moment : Z) (db db' : HomeDb)
    (written : list TrackableFeedItem) : Prop :=
  match principal with Some p => recorded (user_id p) moment written db db' | None => written = [] /\ db' = db end.
Definition served (snapshot : FeedSnapshot) : list TrackableFeedItem :=
  pending default_trackable_source_types [] (trackable <$> fs_items snapshot).
Definition accepted_for (principal : option Principal) (db : HomeDb) (snapshot : FeedSnapshot) : list TrackableFeedItem :=
  match principal with Some p => accepted (user_id p) db (served snapshot) | None => [] end.

(** The end of the handler, from the feed on. *)
Lemma tracking_spec principal moment snapshot answer (Q : outcome AppError HomeResponse -> HomeSt -> Prop) s :
  (forall s' written, (reached s -> written = accepted_for principal (hdb s) snapshot) ->
     written `prefix_of` accepted_for principal (hdb s) snapshot ->
     recorded_for principal moment (hdb s) (hdb s') written -> h_clock s <= h_clock s' -> Q (Ok answer) s') ->
  holds (match principal with
         | Some p =>
             attempt (track_served (user_id p) (trackable <$> fs_items snapshot) default_trackable_source_types moment)
               ≫= (λ _, mret ())
         | None => mret ()
         end ≫= λ _, mret answer) Q s.
Proof.
  intros HQ. destruct principal as [p|].
  - do 2 st_step. apply holds_attempt. pose proof (track_spec (user_id p) (trackable <$> fs_items snapshot)
      default_trackable_source_types moment [] s) as (Hr & Hc & written & Hw & Hall & Hrec).
    unfold track_served. destruct (track_items _ _ _ _ _ s) as [r s']. cbn [fst snd] in *.
    destruct r; [..|done]; do 2 st_step; by apply (HQ _ written).
  - do 3 st_step. apply (HQ _ []); [done..|lia].
Qed.

(** Where every statement reaches the server: what is answered, and what is recorded. *)
Definition stranger (principal : option Principal) (db : HomeDb) : bool :=
  match principal with Some p => negb (bool_decide (is_Some (hd_users db !! user_id p))) | None => false end.
Definition homepage_answered (columns : column_type) (principal : option Principal) (query : HomepageRecommendationsQuery)
    (s : HomeSt) (r : outcome AppError HomeResponse) (s' : HomeSt) : Prop :=
  let section := section_row PROJECT_RECOMMENDATIONS (hdb s) in
  let signed_in := bool_decide (is_Some principal) in
  match columns with
  | Timestamptz => hdb s' = hdb s /\
      match section with
      | Some _ => exists e, r = Err e /\ re_status (into_response e) = 500
      | None => (exists e, r = Err e) \/ r = Ok (empty_response (hq_limit query) (section_meta None) signed_in)
      end
  | Timestamp =>
      if stranger principal (hdb s) then r = Err (NotFound (lit "User not found")) /\ hdb s' = hdb s
      else if default false (hs_is_enabled <$> section) then
        exists now, h_clock s <= now <= h_clock s'
          /\ let feed := home_feed now (hdb s) (home_context (hdb s) principal) in
             r = Ok (respond (section_meta section) query signed_in feed)
             /\ recorded_for principal (h_clock s) (hdb s) (hdb s') (accepted_for principal (hdb s) feed)
      else r = Ok (empty_response (hq_limit query) (section_meta section) signed_in) /\ hdb s' = hdb s
  end.

Lemma stranger_context i (Q : outcome AppError (option PersonalizationContext) -> HomeSt -> Prop) s0 s :
  reached s0 -> quiet s0 s -> hd_users (hdb s0) !! i = None ->
  (forall s', quiet s0 s' -> Q (Err (NotFound (lit "User not found"))) s') ->
  holds (build_personalization_context Timestamp (Some i)) Q s.
Proof.
  intros Hs Hq Hu HQ. unfold build_personalization_context.
  st_step. apply holds_erring, (holds_answered _ _ _ _ Hs Hq). intros s1 Hq1 _. rewrite Hu. cbn. do 2 st_step. by apply HQ.
Qed.

(** The handler once the section and the context are read. *)
Lemma homepage_served principal query section s s1 :
  reached s -> quiet s s1 -> section_row PROJECT_RECOMMENDATIONS (hdb s) = section -> stranger principal (hdb s) = false ->
  holds (if negb (default false (hs_is_enabled <$> section)) then
      mret (empty_response (hq_limit query) (section_meta section) (bool_decide (is_Some principal)))
    else
      input ← gather Timestamp (home_context (hdb s) principal);
      let snapshot := build_feed_snapshot input in
      _ ← match principal with
          | Some p =>
              _ ← attempt (track_served (user_id p) (trackable <$> fs_items snapshot) default_trackable_source_types (h_clock s));
              mret ()
          | None => mret ()
          end;
      mret (respond (section_meta section) query (bool_decide (is_Some principal)) snapshot))
    (homepage_answered Timestamp principal query s) s1.
Proof.
  intros Hs Hq1 Hsection Hknown. unfold homepage_answered. rewrite Hsection, Hknown.
  destruct (default false _); cbn [negb]; [|st_step; split; [done|apply Hq1]].
  st_step. apply (gather_spec _ _ s s1 Hs Hq1). intros now input s3 Hq3 Hnow Hfeed. rewrite Hfeed.
  apply tracking_spec. rewrite (qu_db _ _ Hq3). intros s4 written Hall _ Hrec Hc. exists now.
  pose proof (qu_clock _ _ Hq1). split; [lia|]. split; [done|]. rewrite <- Hall; [done|]. by apply (qu_reached _ _ Hq3).
Qed.

(** The homepage is out of service on a database whose instants are TIMESTAMPTZ, as the migrations
    declare them: where the section exists every request fails with an internal error, signed in or
    not, whatever the tables hold; where it does not, no request is answered with an item. Nothing is
    recorded. *)
Lemma timestamptz_homepage_is_out_of_service principal query s :
  holds (index Timestamptz principal query) (λ r s', hdb s' = hdb s
    /\ match section_row PROJECT_RECOMMENDATIONS (hdb s) with
       | Some _ => exists e, r = Err e /\ re_status (into_response e) = 500
       | None => (exists e, r = Err e)
                 \/ r = Ok (empty_response (hq_limit query) (section_meta None) (bool_decide (is_Some principal)))
       end) s.
Proof.
  unfold index, find_by_key. do 2 home_step. st_step. apply holds_erring, holds_home_read. intros s1 Hq1. split.
  - intros _. split; [apply Hq1|]. case_match; [|left]; by eexists.
  - destruct (section_row _ _); cbn; [split; [apply Hq1|]; by eexists|].
    st_step. apply holds_calm; [apply context_calm|]. intros r s2 Hp Hq2.
    assert (hdb s2 = hdb s) as Hd by (rewrite (qu_db _ _ Hq2); apply Hq1).
    destruct r; [st_step; cbn; split; [done|by right]|split; [done|left; by eexists]|done].
Qed.

(** ** Theorems *)

(** C26. What the homepage answers where every statement reaches the server, on both types the columns of
    instants may have ([homepage_answered]). On columns of the type the code reads: a principal without a
    user is answered that there is none; with the section off or missing the answer is the empty one; else
    it is made of the feed of the moment at which the projects are read, personalized by the user's primary
    subject and the topics of the author with the user's email; the lookups and the distribution summary
    have no part in it. A guest leaves nothing behind; for a user every item of the whole feed that is not
    an upload is stamped with the moment of the request, those the answer's limit cuts off as well, up to
    the first one the table refuses. On TIMESTAMPTZ columns, as the migrations declare them, every request
    fails with an internal error where the section exists; where it does not, none is answered with an
    item; nothing is recorded. *)
Theorem homepage_serves_the_feed columns principal query s r s'
    (Hrun : index columns principal query s = (r, s')) (Hs : reached s) :
  homepage_answered columns principal query s r s'.
Proof.
  revert r s' Hrun. cut (holds (index columns principal query) (homepage_answered columns principal query s) s).
  { intros Hw r s' Hrun. exact (holds_run _ _ _ _ _ Hw Hrun). }
  destruct columns; [|exact (timestamptz_homepage_is_out_of_service principal query s)].
  unfold index, find_by_key. do 2 home_step. st_step. apply holds_erring, (holds_answered _ _ s s Hs); [reflexivity|].
  intros s1 Hq1 _. set (section := section_row PROJECT_RECOMMENDATIONS (hdb s)).
  assert (match section with None => Ok None | Some x => outcome_bind (decode_section Timestamp x) (λ x, Ok (Some x)) end
    = Ok section :> outcome db_error (option HomepageSection)) as -> by (by destruct section).
  cbn [map_err]. cbv zeta. st_step. destruct (stranger principal (hdb s)) eqn:Hknown.
  - unfold homepage_answered. rewrite Hknown. destruct principal as [p|]; [|done]. cbn [fmap option_fmap option_map].
    apply (stranger_context _ _ s s1 Hs Hq1); [|intros s2 Hq2; split; [done|apply Hq2]].
    cbn in Hknown. apply negb_true_iff, bool_decide_eq_false in Hknown. by apply eq_None_not_Some.
  - destruct principal as [p|]; cbn [fmap option_fmap option_map].
    + assert (is_Some (hd_users (hdb s) !! user_id p)) as [u Hu] by (cbn in Hknown; by apply negb_false_iff, bool_decide_eq_true in Hknown).
      apply (context_spec _ u _ _ _ Hs Hq1 Hu). intros s2 Hq2.
      replace (Some (context_of (hdb s) (user_id p) u)) with (home_context (hdb s) (Some p)) by (cbn; by rewrite Hu).
      by apply homepage_served.
    + unfold build_personalization_context. st_step. by apply (homepage_served None).
Qed.

(** Serving the homepage only adds to what is remembered, whatever fails and whatever the columns are:
    a guest changes nothing, and for a user no row is lost, of a row that changes only the item, its
    place and the moment of the last distribution are new, the moment being that of the request, and
    every row that is new or changed is of the user and of an item that is not an upload. *)
Lemma homepage_only_remembers columns principal query s :
  holds (index columns principal query) (λ _ s', same_tables (hdb s) (hdb s')
    /\ forall u key, hd_assignments (hdb s') !! (u, key) = hd_assignments (hdb s) !! (u, key)
       \/ (user_id <$> principal) = Some u
          /\ exists new, hd_assignments (hdb s') !! (u, key) = Some new
             /\ sa_last_distributed_at new = h_clock s
             /\ sa_source_type new ∈ default_trackable_source_types
             /\ match hd_assignments (hdb s) !! (u, key) with
                | Some old => sa_id new = sa_id old /\ sa_first_distributed_at new = sa_first_distributed_at old
                              /\ sa_created_at new = sa_created_at old
                | None => sa_first_distributed_at new = h_clock s
                end) s.
Proof.
  set (Q := λ (_ : outcome AppError HomeResponse) s', _). assert (forall r s', hdb s' = hdb s -> Q r s') as Hsame.
  { intros r s' Hd. subst Q. cbn beta. rewrite Hd. split; [by destruct (hdb s)|]. by left. }
  unfold index. do 2 home_step. st_step. apply holds_erring, holds_calm; [apply section_calm|]. intros r s1 Hp1 Hq1.
  assert (hdb s1 = hdb s) as Hd1 by apply Hq1. destruct r as [section|e|]; [|by apply Hsame|done].
  cbn -[build_personalization_context gather respond empty_response]. st_step.
  apply holds_calm; [apply context_calm|]. intros r s2 Hp2 Hq2.
  assert (hdb s2 = hdb s) as Hd2 by (rewrite (qu_db _ _ Hq2); done). destruct r as [ctx|e|]; [|by apply Hsame|done].
  destruct (negb _); [by st_step; apply Hsame|]. st_step. apply holds_calm; [apply gather_calm|]. intros r s3 Hp3 Hq3.
  assert (hdb s3 = hdb s) as Hd3 by (rewrite (qu_db _ _ Hq3); done). destruct r as [input|e|]; [|by apply Hsame|done].
  apply tracking_spec. rewrite Hd3. intros s4 written _ Hw Hrec _. destruct principal as [p|]; [|by apply Hsame, Hrec].
  destruct Hrec as [Ht Hst Ho]. split; [done|]. intros u key.
  destruct (decide (u = user_id p /\ key ∈ recommendation_key <$> written)) as [[-> (item & -> & Hi)%list_elem_of_fmap]|Hn];
    [right|left; apply Ho; tauto].
  split; [done|]. destruct (Hst item Hi) as (a & Ha & Hsa). exists a. split; [done|].
  assert (item ∈ served (build_feed_snapshot input)) as (_ & Hty & _)%pending_elem.
  { eapply elem_of_prefix; [|apply accepted_prefix]. by eapply elem_of_prefix. }
  unfold stamped in Hsa. by destruct (hd_assignments (hdb s) !! _); rewrite Hsa.
Qed.
End Theorems.

(** ** Witnesses *)

Module HomepageWitness.
#[local] Existing Instances decimal_uuid decimal_print decimal_time.
#[local] Instance no_text : DbErrorText := λ _, lit "down".
#[local] Instance decimal_millis : Rfc3339Millis := z_to_string.
#[local] Instance seconds : Timestamps := {| rfc3339_seconds := λ s, Some (Z.of_nat (length s)); naive_seconds := λ _, None |}.

Definition section_on : HomepageSection :=
  mkSection 1 PROJECT_RECOMMENDATIONS (lit "Rekomendasi Project") 1 true None 0 0.
Definition ana : User :=
  mkUser 7 (lit "Ana") (lit "ana@x.id") None (lit "-") None None (lit "teacher") None None None (Some 0) (Some 0).
Definition project (i : Z) (source : string) (reference : option str) (payload : option value) (priority : Z) : RecommendedProject :=
  mkProjectRow i (lit "Pecahan") None None None (lit "16:9") None None None (lit source) reference payload priority true
    None None None None 0 0.
Definition topic : TopicRow :=
  mkTopicRow 21 (lit "Aljabar") (lit "ana@x.id") (Some 11) None true 0 (Some 7) (lit "normalized") (Some 0) (Some 0).
Definition tables : HomeDb :=
  mkHomeDb {[ 7 := ana ]} [section_on] [mkSubjectRow 1 (lit "Matematika") (lit "matematika")]
    [mkSubSubjectRow 11 1 (lit "Aljabar") (lit "aljabar")] [topic] [mkContentRow 21 (lit "modul") true]
    [project 1 "admin_upload" None None 70; project 2 "ai_generated" (Some (lit "m2")) None 5] ∅ 1.
Definition home : HomeSt := mkHomeSt tables 100 [mkTick false 1; mkTick false 2].
Definition one_item : HomepageRecommendationsQuery := mkHomepageQuery (Some 1).
Definition signed_in : option Principal := Some (mkPrincipal 7 (lit "teacher")).

(** Ana's own topic is chosen and recorded, although the answer holds the upload only. *)
Lemma homepage_serves_the_feed_witness :
  exists s', (index Timestamp signed_in one_item home).2 = s'
    /\ (hp_id <$> match (index Timestamp signed_in one_item home).1 with Ok r => hr_data r | _ => [] end) = [lit "1"]
    /\ exists now, 100 <= now <= h_clock s' /\
       recorded 7 100 (accepted_for signed_in tables (home_feed now tables (home_context tables signed_in))) tables (hdb s')
       /\ is_Some (hd_assignments (hdb s') !! (7, lit "system_topic:21")).
Proof.
  exists (index Timestamp signed_in one_item home).2. split; [reflexivity|]. split; [vm_compute; reflexivity|].
  pose proof (homepage_serves_the_feed Timestamp signed_in one_item home _ _ (surjective_pairing _)) as Hserves.
  destruct Hserves as (now & Hnow & _ & Hrec).
  - apply bool_decide_unpack with (dec := Forall_dec (λ t : tick, fails t = false) (h_ticks home)). vm_compute. exact I.
  - exists now. split; [exact Hnow|]. split; [exact Hrec|]. vm_compute. eauto.
Defined.

(** The same tables with the columns of the migrations. *)
Example nothing_is_served : (index Timestamptz signed_in one_item home).1
  = Err (Internal (lit "Failed to fetch homepage section: failed to fetch homepage section by key: down")).
Proof. vm_compute. reflexivity. Qed.

(** An item of a sub-subject that does not exist is refused by the table, and what follows it in the feed
    is not recorded. *)
Definition orphan : RecommendedProject :=
  project 3 "ai_generated" (Some (lit "m3"))
    (Some (obj [("subject_id", jint 1); ("sub_subject_id", jint 12)]%string)) 90.
Definition with_projects (l : list RecommendedProject) : HomeSt :=
  mkHomeSt (mkHomeDb {[ 7 := ana ]} [section_on] (hd_subjects tables) (hd_sub_subjects tables) [] [] l ∅ 1) 100 [].
Definition plain_project : RecommendedProject := project 2 "ai_generated" (Some (lit "m2")) None 5.
Example refused_items_hide_the_rest :
  (map_to_list (hd_assignments (hdb (index Timestamp signed_in one_item (with_projects [plain_project])).2))).*1
    = [(7, lit "ai_generated:m2")]
  /\ hd_assignments (hdb (index Timestamp signed_in one_item (with_projects [orphan; plain_project])).2) = ∅.
Proof. split; vm_compute; reflexivity. Qed.
End HomepageWitness.
