(* ===== verification/Topics.v ===== *)
(** * Topics (src/src/api/rest/topics.rs, api/rest/admin/topics.rs, db/repositories/topics.rs, governance/activity_log.rs)

    Listing and showing topics with their contents and tasks, and what an administrator does to a topic:
    updating, publishing, moving it among its neighbours, deleting it. Every such action is written to
    the activity log after it is done. The type of the columns of instants is an argument, as in
    HomepageApi.v. *)

From stdpp Require Import base gmap list option strings fin_maps sets.
From Stdlib Require Import ZArith Lia.
From S2P Require Import Prelude RustStr Json Interpretation Decision Order Personalization Feed Text Store StateM GenerationApi Auth HomepageApi Rest Samples.
#[local] Open Scope Z_scope.

#[export] Instance TopicRow_eta : Eta TopicRow := λ t,
  mkTopicRow (tr_id t) (tr_title t) (tr_teacher_id t) (tr_sub_subject_id t) (tr_thumbnail_url t) (tr_is_published t)
    (tr_order t) (tr_owner_user_id t) (tr_ownership_status t) (tr_created_at t) (tr_updated_at t).

Record Content := mkContent {
  co_id : uuid;
  co_topic_id : uuid;
  co_content_type : str;
  co_title : option str;
  co_data : option value;
  co_media_url : option str;
  co_is_published : bool;
  co_order : Z;
  co_created_at : option Z;
  co_updated_at : option Z
}.
Record MarketplaceTask := mkTask {
  mt_id : uuid;
  mt_content_id : uuid;
  mt_status : str;
  mt_task_type : str;
  mt_description : option str;
  mt_creator_id : option str;
  mt_suggested_freelancer_id : option Z;
  mt_attachment_url : option str;
  mt_media_generation_id : option uuid;
  mt_created_at : option Z;
  mt_updated_at : option Z
}.
(** A row of activity_logs. *)
Record Activity := mkActivity {
  ac_id : uuid;
  ac_actor_id : option Z;
  ac_action : str;
  ac_subject_type : option str;
  ac_subject_id : option Z;
  ac_metadata : option value;
  ac_at : Z
}.
Record ContentWithTasks := mkContentWithTasks { cwt_content : Content; cwt_tasks : list MarketplaceTask }.
Record TopicWithContents := mkTopicWithContents { twc_topic : TopicRow; twc_contents : list ContentWithTasks }.
Record TopicFilters := mkTopicFilters {
  tf_search : option str;
  tf_teacher_id : option str;
  tf_subject : option Z;
  tf_sub_subject : option Z;
  tf_is_published : option bool
}.
(** A field is left alone, set to NULL, or set. *)
Record UpdateTopicPayload := mkUpdateTopic {
  ut_title : option str;
  ut_sub_subject_id : option (option Z);
  ut_thumbnail_url : option (option str)
}.

Record TopicDb := mkTopicDb {
  tb_topics : gmap uuid TopicRow;
  tb_contents : gmap uuid Content;
  tb_tasks : gmap uuid MarketplaceTask;
  tb_subjects : gmap Z SubjectRow;
  tb_sub_subjects : gmap Z SubSubjectRow;
  tb_users : gset Z;
  tb_generations : gset uuid;   (* the ids of media_generations *)
  tb_activity : list Activity
}.
#[export] Instance TopicDb_eta : Eta TopicDb := λ d,
  mkTopicDb (tb_topics d) (tb_contents d) (tb_tasks d) (tb_subjects d) (tb_sub_subjects d) (tb_users d)
    (tb_generations d) (tb_activity d).
(** What is committed, what an open transaction sees. *)
Record TopicSt := mkTopicSt {
  tdb : TopicDb;
  open_tx : option (Z * TopicDb);   (* with the NOW() of the transaction *)
  t_clock : Z;
  t_ticks : list tick;
  t_uuids : list uuid
}.
#[export] Instance TopicSt_eta : Eta TopicSt := λ s, mkTopicSt (tdb s) (open_tx s) (t_clock s) (t_ticks s) (t_uuids s).
Notation TM := (ST TopicSt).

(** The order in which a scan meets the rows of a table. *)
Class RowScan := row_scan : forall A : Type, gmap uuid A -> list A.
Class RowScanLaws `{RowScan} := row_scan_perm : forall (A : Type) (m : gmap uuid A), row_scan A m ≡ₚ (map_to_list m).*2.
(** PostgreSQL's ILIKE. *)
Class Ilike := ilike : str -> str -> bool.

(** ** Statements *)

(** One statement: it may not reach the server, or be answered by [q]. *)
Definition reaching {A} (q : TopicSt -> outcome str A * TopicSt) : TM str A := λ s,
  let '(t, rest) := match t_ticks s with t :: rest => (t, rest) | [] => (mkTick false 0, []) end in
  let s := s <| t_ticks := rest |> <| t_clock := t_clock s + Z.of_N (elapsed t) |> in
  if fails t then (Err (lit "unavailable"), s) else q s.
Definition new_id {E} : TM E uuid := λ s,
  match t_uuids s with i :: l => (Ok i, s <| t_uuids := l |>) | [] => (Ok 0, s) end.

Section Repository.
Context `{DbErrorText} `{UuidPrint} `{RowScan} `{Ilike}.
Context (columns : column_type).

(** On the pool, every statement is a transaction of its own. *)
Definition pool_sql {A} (q : Z -> TopicDb -> outcome db_error A * TopicDb) : TM str A := reaching (λ s,
  let '(r, db) := q (t_clock s) (tdb s) in (map_err db_error_text r, s <| tdb := db |>)).
(** In a transaction. An error of the server ends it: the handler drops it. *)
Definition tx_sql {A} (q : Z -> TopicDb -> outcome db_error A * TopicDb) : TM str A := reaching (λ s,
  match open_tx s with
  | Some (began, db) => let '(r, db') := q began db in (map_err db_error_text r, s <| open_tx := Some (began, db') |>)
  | None => (Err (lit "no transaction"), s)
  end).
Definition begin_tx : TM str unit := reaching (λ s, (Ok (), s <| open_tx := Some (t_clock s, tdb s) |>)).
Definition commit_tx : TM str unit := reaching (λ s,
  match open_tx s with
  | Some (_, db) => (Ok (), s <| tdb := db |> <| open_tx := None |>)
  | None => (Err (lit "no transaction"), s)
  end).
(** A transaction that is dropped is rolled back. *)
Definition scoped {A} (m : TM str A) : TM str A := λ s, let '(r, s') := m s in (r, s' <| open_tx := None |>).
Definition pool_read {A} (f : TopicDb -> outcome db_error A) : TM str A := pool_sql (λ _ db, (f db, db)).
Definition tx_read {A} (f : TopicDb -> outcome db_error A) : TM str A := tx_sql (λ _ db, (f db, db)).
(** [.map_err(|e| anyhow!("failed to ...: {e}"))]. *)
Definition context {A} (what : string) (m : TM str A) : TM str A := erring (λ e, lit what ++ lit ": " ++ e) m.
Arguments context {A} what%_string m.

(** The two instants of a row, read into [NaiveDateTime]s. *)
Definition decode_instants {A} (created updated : option Z) (a : A) : outcome db_error A :=
  outcome_bind (as_naive columns created) (λ _, outcome_bind (as_naive columns updated) (λ _, Ok a)).
Definition decode_Topic (t : TopicRow) : outcome db_error TopicRow := decode_instants (tr_created_at t) (tr_updated_at t) t.
Definition decode_Content (c : Content) : outcome db_error Content := decode_instants (co_created_at c) (co_updated_at c) c.
Definition decode_Task (t : MarketplaceTask) : outcome db_error MarketplaceTask :=
  decode_instants (mt_created_at t) (mt_updated_at t) t.

(** ** The repository *)

Definition optionally {A} (f : A -> bool) (o : option A) : bool := match o with Some a => f a | None => true end.
Definition search_pattern (s : str) : str := lit "%" ++ s ++ lit "%".
Definition selected (f : TopicFilters) (db : TopicDb) (t : TopicRow) : bool :=
  optionally (λ s, ilike (tr_title t) (search_pattern s)) (tf_search f)
  && optionally (λ i, bool_decide (tr_teacher_id t = i)) (tf_teacher_id f)
  && optionally (λ i, bool_decide (sr_subject_id <$> (tr_sub_subject_id t ≫= λ ss, tb_sub_subjects db !! ss) = Some i)) (tf_subject f)
  && optionally (λ i, bool_decide (tr_sub_subject_id t = Some i)) (tf_sub_subject f)
  && optionally (λ b, Bool.eqb (tr_is_published t) b) (tf_is_published f).
Definition selection (f : TopicFilters) (db : TopicDb) : list TopicRow :=
  List.filter (selected f db) (row_scan TopicRow (tb_topics db)).
Definition listing (f : TopicFilters) (db : TopicDb) : list TopicRow := ordered by_order (selection f db).
Definition find_many (f : TopicFilters) (pagination : PaginationQuery) : TM str (list TopicRow * Z) :=
  total ← context "failed to count topics" (pool_read (λ db, Ok (Z.of_nat (length (selection f db)))));
  topics ← context "failed to fetch topics" (pool_read (λ db,
    match page_of pagination (listing f db) with
    | Some rows => decode_rows decode_Topic rows
    | None => Err (Protocol (lit "OFFSET must not be negative"))
    end));
  mret (topics, total).

Definition by_content_order (a b : Content) : comparison :=
  then_with (co_order a ?= co_order b) (by_option (co_created_at a) (co_created_at b)).
Definition contents_of (topics : list uuid) (db : TopicDb) : list Content :=
  ordered by_content_order (List.filter (λ c, bool_decide (co_topic_id c ∈ topics)) (row_scan Content (tb_contents db))).
Definition tasks_of (contents : list uuid) (db : TopicDb) : list MarketplaceTask :=
  List.filter (λ t, bool_decide (mt_content_id t ∈ contents)) (row_scan MarketplaceTask (tb_tasks db)).
Definition with_tasks (tasks : list MarketplaceTask) (c : Content) : ContentWithTasks :=
  mkContentWithTasks c (List.filter (λ t, bool_decide (mt_content_id t = co_id c)) tasks).
Definition optional_row {A} (decode : A -> outcome db_error A) (o : option A) : outcome db_error (option A) :=
  match o with Some a => outcome_bind (decode a) (λ a, Ok (Some a)) | None => Ok None end.
Definition find_by_id (i : uuid) : TM str (option TopicWithContents) :=
  topic ← context "failed to fetch topic" (pool_read (λ db, optional_row decode_Topic (tb_topics db !! i)));
  match topic with
  | None => mret None
  | Some topic =>
      contents ← context "failed to fetch contents" (pool_read (λ db, decode_rows decode_Content (contents_of [i] db)));
      tasks ← match contents with
              | [] => mret []
              | _ => context "failed to fetch tasks" (pool_read (λ db, decode_rows decode_Task (tasks_of (co_id <$> contents) db)))
              end;
      mret (Some (mkTopicWithContents topic (with_tasks tasks <$> contents)))
  end.

Definition TOPIC_NOT_FOUND : str := lit "topic not found".
Definition topic_fits (t : TopicRow) (db : TopicDb) : outcome db_error unit :=
  if negb (varchar 255 (tr_title t)) then Err CheckViolation
  else if optionally (λ ss, bool_decide (is_Some (tb_sub_subjects db !! ss))) (tr_sub_subject_id t) then Ok ()
  else Err ForeignKeyViolation.
(** [UPDATE topics SET ... WHERE id = $1 RETURNING ...]: the row is decoded after it is written. *)
Definition update_topic {A} (f : TopicRow -> TopicRow) (decode : TopicRow -> outcome db_error A) (i : uuid) (now : Z)
    (db : TopicDb) : outcome db_error (option A) * TopicDb :=
  match tb_topics db !! i with
  | None => (Ok None, db)
  | Some t =>
      let t' := (f t) <| tr_updated_at := Some now |> in
      match topic_fits t' db with
      | Ok _ => (outcome_bind (decode t') (λ a, Ok (Some a)), db <| tb_topics := <[i := t']> (tb_topics db) |>)
      | Err e => (Err e, db)
      | Panic => (Panic, db)
      end
  end.
Definition one_row {A} (r : outcome db_error (option A)) : outcome db_error A :=
  outcome_bind r (λ o, match o with Some a => Ok a | None => Err RowNotFound end).
Definition update (i : uuid) (payload : UpdateTopicPayload) : TM str TopicRow :=
  found ← pool_read (λ db, optional_row decode_Topic (tb_topics db !! i));
  current ← ok_or TOPIC_NOT_FOUND found;
  let new_title := default (tr_title current) (ut_title payload) in
  let new_sub_subject_id := default (tr_sub_subject_id current) (ut_sub_subject_id payload) in
  let new_thumbnail_url := default (tr_thumbnail_url current) (ut_thumbnail_url payload) in
  context "failed to update topic" (pool_sql (λ now db,
    let '(r, db') := update_topic (λ t, t <| tr_title := new_title |> <| tr_sub_subject_id := new_sub_subject_id |>
                                          <| tr_thumbnail_url := new_thumbnail_url |>) decode_Topic i now db in
    (one_row r, db'))).

(** [ON DELETE CASCADE] from a topic to its contents and from a content to its tasks. *)
Definition under (i : uuid) (db : TopicDb) (t : MarketplaceTask) : bool :=
  match tb_contents db !! mt_content_id t with Some c => bool_decide (co_topic_id c = i) | None => false end.
Definition delete_topic (i : uuid) (db : TopicDb) : TopicDb :=
  let contents := filter (λ r : uuid * Content, co_topic_id r.2 <> i) (tb_contents db) in
  db <| tb_topics := base.delete i (tb_topics db) |> <| tb_contents := contents |>
     <| tb_tasks := filter (λ r : uuid * MarketplaceTask, under i db r.2 = false) (tb_tasks db) |>.
Definition delete (i : uuid) : TM str bool :=
  context "failed to delete topic" (pool_sql (λ _ db, (Ok (bool_decide (is_Some (tb_topics db !! i))), delete_topic i db))).

Definition set_publish (i : uuid) (is_published : bool) : TM str bool :=
  row ← context "failed to set topic publish" (pool_sql (λ now db,
          update_topic (λ t, t <| tr_is_published := is_published |>) (λ t, Ok (tr_is_published t)) i now db));
  ok_or TOPIC_NOT_FOUND row.

(** Moving a topic: its neighbour is the first of those strictly before it (after it) in the order of the
    statement. *)
Definition before (order : Z) (db : TopicDb) : option TopicRow :=
  head (ordered (λ a b, tr_order b ?= tr_order a) (List.filter (λ t, tr_order t <? order) (row_scan TopicRow (tb_topics db)))).
Definition after (order : Z) (db : TopicDb) : option TopicRow :=
  head (ordered (λ a b, tr_order a ?= tr_order b) (List.filter (λ t, order <? tr_order t) (row_scan TopicRow (tb_topics db)))).
Definition set_order (i : uuid) (order : Z) : TM str unit :=
  tx_sql (λ now db, let '(r, db') := update_topic (λ t, t <| tr_order := order |>) (λ _, Ok ()) i now db in
                    (outcome_bind r (λ _, Ok ()), db')).
Definition AT_THE_EDGE : str := lit " further " ++ [8212] ++ lit " already at the edge".
Definition move_topic (i : uuid) (direction : str) : TM str unit :=
  _ ← context "failed to begin transaction" begin_tx;
  found ← tx_read (λ db, Ok (tr_order <$> tb_topics db !! i));
  current_order ← ok_or TOPIC_NOT_FOUND found;
  neighbor ← (if decide (direction = lit "up") then tx_read (λ db, Ok (before current_order db))
              else if decide (direction = lit "down") then tx_read (λ db, Ok (after current_order db))
              else failing (lit "invalid direction '" ++ direction ++ lit "': must be 'up' or 'down'"));
  neighbor ← ok_or (lit "cannot move " ++ direction ++ AT_THE_EDGE) neighbor;
  _ ← set_order i (tr_order neighbor);
  _ ← set_order (tr_id neighbor) current_order;
  context "failed to commit reorder transaction" commit_tx.
Definition reorder (i : uuid) (direction : str) : TM str unit := scoped (move_topic i direction).

(** ** The activity log *)

Definition activity_fits (a : Activity) (db : TopicDb) : bool :=
  optionally (λ u, bool_decide (u ∈ tb_users db)) (ac_actor_id a).
Definition record_activity (actor_id : option Z) (action : str) (subject_type : option str) (subject_id : option Z)
    (metadata : option value) : TM str Activity :=
  i ← new_id;
  context "failed to record activity log" (pool_sql (λ now db,
    let a := mkActivity i actor_id action subject_type subject_id metadata now in
    if activity_fits a db
    then (decode_instants (Some now) (Some now) a, db <| tb_activity := tb_activity db ++ [a] |>)
    else (Err ForeignKeyViolation, db))).
End Repository.

(** ** Resources *)

Definition eq_ignore_ascii_case (a b : str) : bool :=
  let low := fmap (λ c, if (65 <=? c) && (c <=? 90) then c + 32 else c) in bool_decide (low a = low b).

Record TopicQueryParams := mkTopicQuery {
  tq_filters : TopicFilters;
  tq_include_contents : option str;
  tq_page : option Z;
  tq_per_page : option Z
}.

Section Handlers.
Context `{DbErrorText} `{UuidPrint} `{RowScan} `{Ilike} `{CaseTables} `{GenerationApi.MicrosText}.
Context (columns : column_type).

Definition uuid_value (i : uuid) : value := String (uuid_to_string i).
Definition instant_value (t : option Z) : value := jopt (λ t, String (GenerationApi.micros_text t)) t.

Definition build_personalization (t : TopicRow) : value :=
  let has_adequate_taxonomy := bool_decide (is_Some (tr_sub_subject_id t)) in
  let has_normalized_ownership :=
    bool_decide (is_Some (tr_owner_user_id t)) && bool_decide (tr_ownership_status t = lit "normalized") in
  let eligible := has_adequate_taxonomy && has_normalized_ownership in
  obj [("eligible", Bool eligible);
       ("mode", jstr (if eligible then "candidate" else "general_feed_only"));
       ("has_adequate_taxonomy", Bool has_adequate_taxonomy);
       ("has_normalized_ownership", Bool has_normalized_ownership);
       ("excluded_reason", if negb has_adequate_taxonomy then jstr "missing_sub_subject"
                           else if negb has_normalized_ownership then jstr "unresolved_ownership" else Null)]%string.
Definition subject_resource (s : SubjectRow) : value :=
  obj [("id", jint (sj_id s)); ("name", String (sj_name s)); ("slug", String (sj_slug s))]%string.
Definition taxonomy_resource (subject : option SubjectRow) (ss : SubSubjectRow) : value :=
  obj [("subject", jopt subject_resource subject);
       ("sub_subject", obj [("id", jint (sr_id ss)); ("subject_id", jint (sr_subject_id ss)); ("name", String (sr_name ss));
                            ("slug", String (sr_slug ss))])]%string.
Definition task_resource (t : MarketplaceTask) : value :=
  obj [("id", uuid_value (mt_id t)); ("content_id", uuid_value (mt_content_id t)); ("status", String (mt_status t));
       ("creator_id", jopt String (mt_creator_id t)); ("attachment_url", jopt String (mt_attachment_url t));
       ("created_at", instant_value (mt_created_at t)); ("updated_at", instant_value (mt_updated_at t))]%string.
(** The tasks are left out where there are none to show. *)
Definition content_resource (c : Content) (tasks : option (list MarketplaceTask)) : value :=
  obj ([("id", uuid_value (co_id c)); ("topic_id", uuid_value (co_topic_id c)); ("type", String (co_content_type c));
        ("title", jopt String (co_title c)); ("data", jopt (λ v, v) (co_data c)); ("media_url", jopt String (co_media_url c))]%string
       ++ ((λ ts, ("tasks"%string, Array (task_resource <$> ts))) <$> option_list tasks)
       ++ [("created_at", instant_value (co_created_at c)); ("updated_at", instant_value (co_updated_at c))]%string).
(** The three builders differ in what they say of the contents. *)
Definition topic_resource (t : TopicRow) (ss : option SubSubjectRow) (subject : option SubjectRow)
    (contents : string * value) : value :=
  obj ([("id", uuid_value (tr_id t)); ("title", String (tr_title t)); ("teacher_id", String (tr_teacher_id t));
        ("owner_user_id", jopt jint (tr_owner_user_id t)); ("ownership_status", String (tr_ownership_status t));
        ("sub_subject_id", jopt jint (tr_sub_subject_id t));
        ("subject_id", jopt jint (option_or (sj_id <$> subject) (sr_subject_id <$> ss)));
        ("taxonomy", jopt (taxonomy_resource subject) ss); ("personalization", build_personalization t);
        ("thumbnail_url", jopt String (tr_thumbnail_url t)); ("is_published", Bool (tr_is_published t));
        ("order", jint (tr_order t)); contents;
        ("created_at", instant_value (tr_created_at t)); ("updated_at", instant_value (tr_updated_at t))])%string.
Definition build_topic_resource_with_count (t : TopicRow) ss subject (contents_count : Z) : value :=
  topic_resource t ss subject ("contents_count"%string, jint contents_count).
Definition build_topic_resource_with_contents (t : TopicRow) ss subject (contents : list Content) : value :=
  topic_resource t ss subject ("contents"%string, Array ((λ c, content_resource c None) <$> contents)).
Definition build_topic_resource_from_twc (twc : TopicWithContents) ss subject : value :=
  topic_resource (twc_topic twc) ss subject
    ("contents"%string, Array ((λ c, content_resource (cwt_content c) (Some (cwt_tasks c))) <$> twc_contents twc)).

(** ** Reading *)

Definition load_sub_subjects (ids : list Z) : TM AppError (gmap Z SubSubjectRow) :=
  match ids with
  | [] => mret ∅
  | _ => erring Internal (context "failed to load sub_subjects"
           (pool_read (λ db, Ok (filter (λ r : Z * SubSubjectRow, r.1 ∈ ids) (tb_sub_subjects db)))))
  end.
Definition load_subjects (ids : list Z) : TM AppError (gmap Z SubjectRow) :=
  match ids with
  | [] => mret ∅
  | _ => erring Internal (context "failed to load subjects"
           (pool_read (λ db, Ok (filter (λ r : Z * SubjectRow, r.1 ∈ ids) (tb_subjects db)))))
  end.
Definition count_of (db : TopicDb) (i : uuid) : Z :=
  Z.of_nat (length (List.filter (λ c, bool_decide (co_topic_id c = i)) (row_scan Content (tb_contents db)))).
(** Groups exist for topics with contents only. *)
Definition load_contents_counts (topic_ids : list uuid) : TM AppError (gmap uuid Z) :=
  match topic_ids with
  | [] => mret ∅
  | _ => erring Internal (context "failed to load contents counts" (pool_read (λ db,
           Ok (list_to_map ((λ i, (i, count_of db i)) <$> filter (λ i, count_of db i <> 0) topic_ids)))))
  end.
Definition group_contents (rows : list Content) : gmap uuid (list Content) :=
  foldl (λ m c, <[co_topic_id c := default [] (m !! co_topic_id c) ++ [c]]> m) ∅ rows.
Definition load_contents_for_topics (topic_ids : list uuid) : TM AppError (gmap uuid (list Content)) :=
  match topic_ids with
  | [] => mret ∅
  | _ => rows ← erring Internal (context "failed to load contents"
           (pool_read (λ db, decode_rows (decode_Content columns) (contents_of topic_ids db))));
         mret (group_contents rows)
  end.

Definition wants_contents (o : option str) : bool :=
  match o with Some v => bool_decide (v = lit "1") || eq_ignore_ascii_case v (lit "true") | None => false end.
(** The moment of the answer is an argument. *)
Definition index (timestamp : str) (params : TopicQueryParams) : TM AppError Response :=
  let pq := parse_pagination {| pp_page := tq_page params; pp_per_page := tq_per_page params |} in
  '(topics, total) ← erring Internal (find_many columns (tq_filters params) pq);
  let topic_ids := tr_id <$> topics in
  sub_subjects ← load_sub_subjects (remove_dups (omap tr_sub_subject_id topics));
  subjects ← load_subjects (remove_dups ((sr_subject_id ∘ snd) <$> map_to_list sub_subjects));
  let ss_of t := tr_sub_subject_id t ≫= λ i, sub_subjects !! i in
  let subject_of ss := ss ≫= λ s, subjects !! sr_subject_id s in
  resources ← (if wants_contents (tq_include_contents params) then
                 contents_by_topic ← load_contents_for_topics topic_ids;
                 mret ((λ t, build_topic_resource_with_contents t (ss_of t) (subject_of (ss_of t))
                               (default [] (contents_by_topic !! tr_id t))) <$> topics)
               else
                 counts ← load_contents_counts topic_ids;
                 mret ((λ t, build_topic_resource_with_count t (ss_of t) (subject_of (ss_of t))
                               (default 0 (counts !! tr_id t))) <$> topics));
  meta ← stepping (λ s, (of_panicking (from_query pq total), s));
  mret (response.paginated timestamp resources meta).

Definition show (i : uuid) : TM AppError Response :=
  found ← erring Internal (find_by_id columns i);
  twc ← ok_or (NotFound TOPIC_NOT_FOUND) found;
  sub_subject ← match tr_sub_subject_id (twc_topic twc) with
                | Some ss_id => erring Internal (context "failed to load sub_subject" (pool_read (λ db, Ok (tb_sub_subjects db !! ss_id))))
                | None => mret None
                end;
  subject ← match sub_subject with
            | Some ss => erring Internal (context "failed to load subject" (pool_read (λ db, Ok (tb_subjects db !! sr_subject_id ss))))
            | None => mret None
            end;
  mret (response.ok_with_message (lit "Detail topik berhasil diambil.") (build_topic_resource_from_twc twc sub_subject subject)).

(** ** Administration *)

Definition require_admin (principal : Principal) : TM AppError unit :=
  ok_or (Forbidden (lit "requires role 'admin', user has '" ++ Rest.role principal ++ lit "'"))
    (if decide (Rest.role principal = lit "admin") then Some () else None).

(** serde reads a null of an [Option<Option<T>>] as the outer [None]. *)
Definition d_double_opt {A} (dec : value -> option A) (v : value) : option (option (option A)) :=
  match d_opt dec v with Some (Some a) => Some (Some (Some a)) | Some None => Some None | None => None end.
Definition decode_update (v : value) : option UpdateTopicPayload :=
  fs ← plain_fields ["title"; "sub_subject_id"; "thumbnail_url"]%string v;
  match fs with
  | [f0; f1; f2] =>
      title ← defaulted None (d_opt d_string) f0;
      sub_subject_id ← defaulted None (d_double_opt d_i64) f1;
      thumbnail_url ← defaulted None (d_double_opt d_string) f2;
      Some (mkUpdateTopic title sub_subject_id thumbnail_url)
  | _ => None
  end.

(** What follows every action. *)
Definition logged (principal : Principal) (action : string) (metadata : value) : TM AppError unit :=
  _ ← erring Internal (context "failed to record activity"
        (record_activity columns (Some (user_id principal)) (lit action) (Some (lit "topic")) None (Some metadata)));
  mret ().
Definition or_not_found (what : string) (e : str) : AppError :=
  if str_contains e (lit "not found") then NotFound TOPIC_NOT_FOUND else Internal (lit what ++ lit ": " ++ e).
Arguments or_not_found what%_string e.

Definition admin_update (principal : Principal) (i : uuid) (payload : UpdateTopicPayload) : TM AppError Response :=
  _ ← require_admin principal;
  topic ← erring (or_not_found "failed to update topic") (update columns i payload);
  _ ← logged principal "update_topic"
        (obj [("topic_id", uuid_value (tr_id topic)); ("topic_title", String (tr_title topic))]%string);
  mret (response.ok_with_message (lit "Topik berhasil diperbarui.")
    (obj [("id", uuid_value (tr_id topic)); ("title", String (tr_title topic));
          ("sub_subject_id", jopt jint (tr_sub_subject_id topic)); ("thumbnail_url", jopt String (tr_thumbnail_url topic));
          ("is_published", Bool (tr_is_published topic)); ("order", jint (tr_order topic))]%string)).

Definition admin_delete (principal : Principal) (i : uuid) : TM AppError Response :=
  _ ← require_admin principal;
  deleted ← erring (λ e, Internal (lit "failed to delete topic: " ++ e)) (delete i);
  _ ← ok_or (NotFound TOPIC_NOT_FOUND) (if deleted : bool then Some () else None);
  _ ← logged principal "delete_topic" (obj [("topic_id", uuid_value i)]%string);
  mret (response.ok_with_message (lit "Topik berhasil dihapus.") (obj [])).

Definition reorder_failed (e : str) : AppError :=
  if str_contains e (lit "not found") || str_contains e (lit "already at the edge") then Validation e
  else Internal (lit "failed to reorder topic: " ++ e).
Definition admin_reorder (principal : Principal) (i : uuid) (requested : str) : TM AppError Response :=
  _ ← require_admin principal;
  let direction := to_lowercase requested in
  _ ← ok_or (Validation (lit "invalid direction '" ++ requested ++ lit "': must be 'up' or 'down'"))
        (if decide (direction = lit "up" \/ direction = lit "down") then Some () else None);
  _ ← erring reorder_failed (reorder i direction);
  _ ← logged principal "reorder_topic" (obj [("topic_id", uuid_value i); ("direction", String direction)]%string);
  mret (response.ok_with_message
    (lit "Topik berhasil dipindahkan ke " ++ (if decide (direction = lit "up") then lit "atas" else lit "bawah") ++ lit ".")
    (obj [])).

Definition admin_publish (principal : Principal) (i : uuid) (is_published : bool) : TM AppError Response :=
  _ ← require_admin principal;
  new_is_published ← erring (or_not_found "failed to set publish status") (set_publish i is_published);
  _ ← logged principal (if new_is_published : bool then "publish_topic" else "unpublish_topic")
        (obj [("topic_id", uuid_value i); ("is_published", Bool new_is_published)]%string);
  mret (response.ok_with_message
    (lit "Topik berhasil " ++ (if new_is_published : bool then lit "dipublikasikan" else lit "ditangguhkan") ++ lit ".")
    (obj [("is_published", Bool new_is_published)]%string)).
End Handlers.

(** ** Lemmas: statements *)

Definition answered (s : TopicSt) : Prop := Forall (λ t, fails t = false) (t_ticks s).
(** Only time has passed. *)
Record waited (s s' : TopicSt) : Prop := {
  wt_db : tdb s' = tdb s;
  wt_open : open_tx s' = open_tx s;
  wt_clock : t_clock s <= t_clock s';
  wt_answered : answered s -> answered s'
}.
#[export] Instance waited_preorder : PreOrder waited.
Proof. split; [by split|]. intros ??? [] []. split; [congruence|congruence|lia|auto]. Qed.

Lemma holds_reaching {A} (q : TopicSt -> outcome str A * TopicSt) (Q : outcome str A -> TopicSt -> Prop) s :
  (forall s', waited s s' -> (¬ answered s -> Q (Err (lit "unavailable")) s') /\ Q (q s').1 (q s').2) ->
  holds (reaching q) Q s.
Proof.
  intros H. unfold holds, reaching.
  destruct (match t_ticks s with [] => _ | _ => _ end) as [t rest] eqn:Et. cbn zeta.
  destruct (H (s <| t_ticks := rest |> <| t_clock := t_clock s + Z.of_N (elapsed t) |>)) as [Hf Hq].
  { split; [done|done|cbn; lia|]. unfold answered. destruct (t_ticks s); injection Et as <- <-; [done|]. by inversion 1. }
  destruct (fails t) eqn:Ef; [|done].
  apply Hf. unfold answered. destruct (t_ticks s); injection Et as <- <-; [done|]. inversion 1. congruence.
Qed.
Lemma holds_scoped {A} (m : TM str A) (Q : outcome str A -> TopicSt -> Prop) s :
  holds m (λ r s', Q r (s' <| open_tx := None |>)) s -> holds (scoped m) Q s.
Proof. unfold holds, scoped. by destruct (m s). Qed.

Section Statements.
Context `{DbErrorText} `{UuidPrint} `{RowScan} `{Ilike}.

Lemma holds_pool {A} (q : Z -> TopicDb -> outcome db_error A * TopicDb) (Q : outcome str A -> TopicSt -> Prop) s :
  (forall s', waited s s' -> (¬ answered s -> Q (Err (lit "unavailable")) s') /\
     Q (map_err db_error_text (q (t_clock s') (tdb s)).1) (s' <| tdb := (q (t_clock s') (tdb s)).2 |>)) ->
  holds (pool_sql q) Q s.
Proof.
  intros HQ. apply holds_reaching. intros s' Hs. destruct (HQ s' Hs) as [Hf Hq]. split; [done|].
  rewrite (wt_db _ _ Hs). by destruct (q (t_clock s') (tdb s)).
Qed.
Lemma holds_pool_read {A} (f : TopicDb -> outcome db_error A) (Q : outcome str A -> TopicSt -> Prop) s :
  (forall s', waited s s' -> (¬ answered s -> Q (Err (lit "unavailable")) s') /\ Q (map_err db_error_text (f (tdb s))) s') ->
  holds (pool_read f) Q s.
Proof.
  intros HQ. apply holds_pool. intros s' Hs. destruct (HQ s' Hs) as [Hf Hq]. split; [done|].
  cbn [fst snd]. rewrite <- (wt_db _ _ Hs) in Hq |- *. by destruct s'.
Qed.
Lemma holds_tx {A} (q : Z -> TopicDb -> outcome db_error A * TopicDb) (Q : outcome str A -> TopicSt -> Prop) began db s :
  open_tx s = Some (began, db) ->
  (forall s', waited s s' -> (¬ answered s -> Q (Err (lit "unavailable")) s') /\
     Q (map_err db_error_text (q began db).1) (s' <| open_tx := Some (began, (q began db).2) |>)) ->
  holds (tx_sql q) Q s.
Proof.
  intros Ho HQ. apply holds_reaching. intros s' Hs. destruct (HQ s' Hs) as [Hf Hq]. split; [done|].
  rewrite (wt_open _ _ Hs), Ho. by destruct (q began db).
Qed.
Lemma holds_tx_read {A} (f : TopicDb -> outcome db_error A) (Q : outcome str A -> TopicSt -> Prop) began db s :
  open_tx s = Some (began, db) ->
  (forall s', waited s s' -> (¬ answered s -> Q (Err (lit "unavailable")) s') /\ Q (map_err db_error_text (f db)) s') ->
  holds (tx_read f) Q s.
Proof.
  intros Ho HQ. apply (holds_tx _ _ began db); [done|]. intros s' Hs. destruct (HQ s' Hs) as [Hf Hq]. split; [done|].
  cbn [fst snd]. assert (open_tx s' = Some (began, db)) as Ho' by (by rewrite (wt_open _ _ Hs)). rewrite <- Ho'. by destruct s'.
Qed.
Lemma holds_context {A} (what : string) (m : TM str A) (Q : outcome str A -> TopicSt -> Prop) s :
  holds m (λ r s', Q (map_err (λ e, lit what ++ lit ": " ++ e) r) s') s -> holds (context what m) Q s.
Proof. apply holds_erring. Qed.

(** ** Lemmas: the log *)

(** The entry is written and can be read back on TIMESTAMP columns only, or nothing is written. *)
Lemma holds_record_activity columns actor_id action subject_type subject_id metadata (Q : outcome str Activity -> TopicSt -> Prop) s :
  (forall e s', tdb s' = tdb s -> (answered s -> exists u, actor_id = Some u /\ u ∉ tb_users (tdb s)) -> Q (Err e) s') ->
  (forall s' a, tdb s' = (tdb s) <| tb_activity := tb_activity (tdb s) ++ [a] |> -> (answered s -> answered s') ->
     ac_actor_id a = actor_id -> ac_action a = action -> ac_subject_type a = subject_type -> ac_metadata a = metadata ->
     match columns with Timestamp => Q (Ok a) s' | Timestamptz => forall e, Q (Err e) s' end) ->
  holds (record_activity columns actor_id action subject_type subject_id metadata) Q s.
Proof.
  intros Hno Hok. unfold record_activity. st_step. unfold holds at 1.
  assert (exists j s1, new_id (E:=str) s = (Ok j, s1) /\ tdb s1 = tdb s /\ (answered s -> answered s1)) as (j & s1 & -> & Hd1 & Ha1)
    by (unfold new_id; destruct (t_uuids s); eauto). cbn [fst snd].
  apply holds_context, holds_pool. intros s2 W. assert (tdb s2 = tdb s) as Hd2 by (by rewrite (wt_db _ _ W)).
  split; [intros Hna; apply Hno; [done|]; intros Ha; destruct Hna; by apply Ha1|]. rewrite Hd1.
  set (a := mkActivity j actor_id action subject_type subject_id metadata (t_clock s2)).
  destruct (activity_fits a (tdb s)) eqn:Hfits; cbn [fst snd].
  - specialize (Hok (s2 <| tdb := (tdb s) <| tb_activity := tb_activity (tdb s) ++ [a] |> |>) a eq_refl
      (λ Ha, wt_answered _ _ W (Ha1 Ha)) eq_refl eq_refl eq_refl eq_refl).
    unfold decode_instants, as_naive. destruct columns; cbn [outcome_bind map_err]; [exact Hok|apply Hok].
  - cbn [map_err]. apply Hno; [done|]. intros _. unfold activity_fits in Hfits. cbn in Hfits.
    destruct actor_id as [u|]; [|done]. exists u. split; [done|]. by apply bool_decide_eq_false in Hfits.
Qed.

(** ** Lemmas: neighbours *)

Lemma head_sort {A} (cmp : A -> A -> comparison) `{!Good cmp} l :
  match head (sort_by cmp l) with
  | Some a => a ∈ l /\ forall b, b ∈ l -> cmp a b <> Gt
  | None => l = []
  end.
Proof.
  pose proof (sort_by_sorted cmp l) as Hs. pose proof (sort_by_perm cmp l) as Hp. destruct (sort_by cmp l) as [|a l'].
  - by apply Permutation_nil.
  - cbn [head]. split; [rewrite <- Hp; left|]. intros b Hb. rewrite <- Hp in Hb. apply elem_of_cons in Hb as [->|Hb].
    + by rewrite good_refl.
    + inversion Hs as [|? ? _ Hall]. rewrite Forall_forall in Hall. by apply Hall.
Qed.

(** The rows know their keys and meet the constraints. *)
Record topics_ok (db : TopicDb) : Prop := {
  tk_key i t : tb_topics db !! i = Some t -> tr_id t = i;
  tk_fits i t : tb_topics db !! i = Some t -> topic_fits t db = Ok ()
}.

Context `{!RowScanLaws}.
Lemma scan_topics db t : topics_ok db -> (t ∈ row_scan TopicRow (tb_topics db) <-> tb_topics db !! tr_id t = Some t).
Proof.
  intros Hok. rewrite (row_scan_perm TopicRow), list_elem_of_fmap. split.
  - intros ([i t'] & -> & Hi). apply elem_of_map_to_list in Hi. cbn. by rewrite (tk_key _ Hok i t').
  - intros Ht. exists (tr_id t, t). split; [done|]. by apply elem_of_map_to_list.
Qed.

Definition neighbour (direction : str) (order : Z) (db : TopicDb) : option TopicRow :=
  if decide (direction = lit "up") then before order db else after order db.
(** [n] is next to [t]: on that side, and no topic is between them. *)
Definition next_to (direction : str) (t n : TopicRow) (db : TopicDb) : Prop :=
  tb_topics db !! tr_id n = Some n /\
  if decide (direction = lit "up")
  then tr_order n < tr_order t /\ forall i m, tb_topics db !! i = Some m -> ¬ tr_order n < tr_order m < tr_order t
  else tr_order t < tr_order n /\ forall i m, tb_topics db !! i = Some m -> ¬ tr_order t < tr_order m < tr_order n.
Lemma neighbour_spec direction t db : topics_ok db ->
  match neighbour direction (tr_order t) db with
  | Some n => next_to direction t n db
  | None => forall i m, tb_topics db !! i = Some m ->
              if decide (direction = lit "up") then tr_order t <= tr_order m else tr_order m <= tr_order t
  end.
Proof.
  intros Hok. unfold neighbour, next_to.
  assert (forall i m, tb_topics db !! i = Some m -> m ∈ row_scan TopicRow (tb_topics db)) as Hin.
  { intros i m Hm. apply scan_topics; [done|]. by rewrite (tk_key _ Hok i m). }
  case_decide; unfold before, after, ordered.
  - pose proof (head_sort (λ a b, tr_order b ?= tr_order a)
      (List.filter (λ m, tr_order m <? tr_order t) (row_scan TopicRow (tb_topics db)))) as Hh.
    destruct (head _) as [n|].
    + destruct Hh as [[Hn Hlt]%list_elem_of_In%List.filter_In Hmin]. apply list_elem_of_In, scan_topics in Hn; [|done].
      split; [done|]. split; [lia|]. intros i m Hm Hb. apply (Hmin m); [|apply Z.compare_gt_iff; lia].
      apply list_elem_of_In, List.filter_In. split; [by apply list_elem_of_In, (Hin i)|lia].
    + intros i m Hm. destruct (Z.le_gt_cases (tr_order t) (tr_order m)); [done|]. exfalso.
      assert (m ∈ List.filter (λ m, tr_order m <? tr_order t) (row_scan TopicRow (tb_topics db))) as Hf.
      { apply list_elem_of_In, List.filter_In. split; [by apply list_elem_of_In, (Hin i)|lia]. }
      rewrite Hh in Hf. by apply elem_of_nil in Hf.
  - pose proof (head_sort (λ a b, tr_order a ?= tr_order b)
      (List.filter (λ m, tr_order t <? tr_order m) (row_scan TopicRow (tb_topics db)))) as Hh.
    destruct (head _) as [n|].
    + destruct Hh as [[Hn Hlt]%list_elem_of_In%List.filter_In Hmin]. apply list_elem_of_In, scan_topics in Hn; [|done].
      split; [done|]. split; [lia|]. intros i m Hm Hb. apply (Hmin m); [|apply Z.compare_gt_iff; lia].
      apply list_elem_of_In, List.filter_In. split; [by apply list_elem_of_In, (Hin i)|lia].
    + intros i m Hm. destruct (Z.le_gt_cases (tr_order m) (tr_order t)); [done|]. exfalso.
      assert (m ∈ List.filter (λ m, tr_order t <? tr_order m) (row_scan TopicRow (tb_topics db))) as Hf.
      { apply list_elem_of_In, List.filter_In. split; [by apply list_elem_of_In, (Hin i)|lia]. }
      rewrite Hh in Hf. by apply elem_of_nil in Hf.
Qed.

(** ** Lemmas: moving a topic *)

Definition reordered (t : TopicRow) (order moment : Z) : TopicRow :=
  t <| tr_order := order |> <| tr_updated_at := Some moment |>.
(** The two topics have changed places. *)
Definition swapped (t n : TopicRow) (db db' : TopicDb) : Prop :=
  exists moment, db' = db <| tb_topics :=
    <[tr_id n := reordered n (tr_order t) moment]> (<[tr_id t := reordered t (tr_order n) moment]> (tb_topics db)) |>.

Lemma update_order_spec t order now db : topics_ok db -> tb_topics db !! tr_id t = Some t ->
  update_topic (λ t, t <| tr_order := order |>) (λ _, Ok ()) (tr_id t) now db
  = (Ok (Some ()), db <| tb_topics := <[tr_id t := reordered t order now]> (tb_topics db) |>).
Proof.
  intros Hok Ht. unfold update_topic. rewrite Ht.
  cbv zeta. pose proof (tk_fits _ Hok _ t Ht : topic_fits (reordered t order now) db = Ok ()) as Hf.
  unfold reordered in Hf. by rewrite Hf.
Qed.
Lemma reordered_ok t order moment db : topics_ok db -> tb_topics db !! tr_id t = Some t ->
  topics_ok (db <| tb_topics := <[tr_id t := reordered t order moment]> (tb_topics db) |>).
Proof.
  intros Hok Ht. split; intros i m; cbn [tb_topics Prelude.update].
  - destruct (decide (tr_id t = i)) as [<-|Hi]; [|by rewrite lookup_insert_ne by done; apply Hok].
    rewrite lookup_insert_eq. by intros [= <-].
  - destruct (decide (tr_id t = i)) as [<-|Hi]; [|rewrite lookup_insert_ne by done; exact (tk_fits _ Hok i m)].
    rewrite lookup_insert_eq. intros [= <-]. exact (tk_fits _ Hok _ t Ht).
Qed.
Lemma swapped_ok t n db db' : topics_ok db -> tb_topics db !! tr_id t = Some t -> tb_topics db !! tr_id n = Some n ->
  tr_id n <> tr_id t -> swapped t n db db' -> topics_ok db'.
Proof.
  intros Hok Ht Hn Hne (m & ->).
  assert (topics_ok (db <| tb_topics := <[tr_id t := reordered t (tr_order n) m]> (tb_topics db) |>)) as Hok1
    by by apply reordered_ok.
  apply (reordered_ok n (tr_order t) m) in Hok1; [exact Hok1|]. cbn. by rewrite lookup_insert_ne.
Qed.

(** Where every statement is answered, why a topic is not moved. *)
Definition unmovable (i : uuid) (direction : str) (db : TopicDb) : option str :=
  match tb_topics db !! i with
  | None => Some TOPIC_NOT_FOUND
  | Some t => match neighbour direction (tr_order t) db with
              | None => Some (lit "cannot move " ++ direction ++ AT_THE_EDGE)
              | Some _ => None
              end
  end.
Definition reorder_answers (i : uuid) (direction : str) (s : TopicSt) (r : outcome str unit) (s' : TopicSt) : Prop :=
  match r with
  | Ok _ => unmovable i direction (tdb s) = None /\ exists t n, tb_topics (tdb s) !! i = Some t /\ next_to direction t n (tdb s)
            /\ swapped t n (tdb s) (tdb s')
  | Err e => tdb s' = tdb s /\ (answered s -> unmovable i direction (tdb s) = Some e)
  | Panic => False
  end.

Lemma holds_reorder i direction s : topics_ok (tdb s) -> direction = lit "up" \/ direction = lit "down" ->
  holds (reorder i direction) (λ r s', reorder_answers i direction s r s' /\ (answered s -> answered s')) s.
Proof.
  intros Hok Hd. apply holds_scoped. set (Q := λ r s', _ /\ _).
  assert (forall s', tdb s' = tdb s -> (answered s -> False) -> Q (Err (lit "unavailable")) s') as Hlost
    by (intros s' Hs1 Hs; split; [split; [exact Hs1|tauto]|tauto]).
  assert (forall what (s' : TopicSt), tdb s' = tdb s -> (answered s -> False) -> Q (Err (lit what ++ lit ": " ++ lit "unavailable")) s')
    as Hlost' by (intros what s' Hs1 Hs; split; [split; [exact Hs1|tauto]|tauto]).
  unfold move_topic, begin_tx. st_step. apply holds_context, holds_reaching. intros s1 W1.
  split; [intros Hs; apply (Hlost' "failed to begin transaction" s1); [apply W1|done]|].
  cbn. set (moment := t_clock s1). set (s2 := s1 <| open_tx := Some (moment, tdb s1) |>).
  set (inside := λ s' : TopicSt, tdb s' = tdb s /\ open_tx s' = Some (moment, tdb s) /\ (answered s -> answered s')).
  assert (forall s' s'', inside s' -> waited s' s'' -> inside s'') as Hstep.
  { intros s' s'' (Hd1 & Ho1 & Ha1) W. unfold inside. rewrite (wt_db _ _ W), (wt_open _ _ W).
    split; [done|]. split; [done|]. intros Hs. by apply W, Ha1. }
  assert (inside s2) as I2.
  { subst s2. unfold inside. cbn. rewrite (wt_db _ _ W1). split; [done|]. split; [done|]. apply W1. }
  st_step. apply (holds_tx_read _ _ moment (tdb s)); [apply I2|]. intros s3 W3. pose proof (Hstep _ _ I2 W3) as I3.
  split; [intros Hs; apply Hlost; [apply I3|]; intros Ha; by apply Hs, I2|]. cbn. do 2 st_step.
  destruct (tb_topics (tdb s) !! i) as [t|] eqn:Et; cbn [fmap option_fmap option_map].
  2: { split; [|apply I3]. split; [apply I3|]. intros _. unfold unmovable. by rewrite Et. }
  assert ((if decide (direction = lit "up") then tx_read (λ db, Ok (before (tr_order t) db))
           else if decide (direction = lit "down") then tx_read (λ db, Ok (after (tr_order t) db))
           else failing (lit "invalid direction '" ++ direction ++ lit "': must be 'up' or 'down'"))
          = tx_read (λ db, Ok (neighbour direction (tr_order t) db))) as ->.
  { unfold neighbour. destruct Hd as [->| ->]; reflexivity. }
  st_step. apply (holds_tx_read _ _ moment (tdb s)); [apply I3|]. intros s4 W4. pose proof (Hstep _ _ I3 W4) as I4.
  split; [intros Hs; apply Hlost; [apply I4|]; intros Ha; by apply Hs, I3|]. cbn. do 2 st_step.
  pose proof (neighbour_spec direction t (tdb s) Hok) as Hn.
  destruct (neighbour direction (tr_order t) (tdb s)) as [n|] eqn:En.
  2: { split; [|apply I4]. split; [apply I4|]. intros _. unfold unmovable. by rewrite Et, En. }
  pose proof (tk_key _ Hok _ _ Et) as Hi. subst i.
  assert (tr_id n <> tr_id t) as Hne.
  { destruct Hn as [Hln Hside]. intros Heq. rewrite Heq, Et in Hln. injection Hln as ->. case_decide; lia. }
  st_step. apply (holds_tx _ _ moment (tdb s)); [apply I4|]. intros s5 W5. pose proof (Hstep _ _ I4 W5) as I5.
  split; [intros Hs; apply Hlost; [apply I5|]; intros Ha; by apply Hs, I4|].
  rewrite update_order_spec by done. cbn. set (db1 := (tdb s) <| tb_topics := _ |>).
  assert (topics_ok db1) as Hok1 by by apply reordered_ok.
  assert (tb_topics db1 !! tr_id n = Some n) as Hn1 by (cbn; by rewrite lookup_insert_ne; [apply Hn|]).
  set (s6 := s5 <| open_tx := Some (moment, db1) |>). st_step.
  apply (holds_tx _ _ moment db1); [done|]. intros s7 W7.
  split; [intros Hs; apply Hlost; [by rewrite (wt_db _ _ W7); apply I5|]; intros Ha; by apply Hs, I5|].
  rewrite update_order_spec by done. cbn. set (db2 := db1 <| tb_topics := _ |>).
  apply holds_context, holds_reaching. intros s8 W8.
  split; [intros Hs; apply (Hlost' "failed to commit reorder transaction" s8);
            [by rewrite (wt_db _ _ W8); cbn; rewrite (wt_db _ _ W7); apply I5
            |intros Ha; apply Hs; cbn; by apply W7, I5]|].
  assert (open_tx s8 = Some (moment, db2)) as Ho8 by (by rewrite (wt_open _ _ W8)). rewrite Ho8. cbn.
  split; [|intros Ha; cbn; by apply W8, W7, I5].
  split; [unfold unmovable; by rewrite Et, En|]. exists t, n. split; [done|]. split; [done|].
  exists moment. reflexivity.
Qed.

Definition orders (db : TopicDb) : gmap uuid Z := tr_order <$> tb_topics db.
Definition distinct_orders (db : TopicDb) : Prop :=
  forall a b ta tb, tb_topics db !! a = Some ta -> tb_topics db !! b = Some tb -> tr_order ta = tr_order tb -> a = b.
Definition opposite (direction : str) : str := if decide (direction = lit "up") then lit "down" else lit "up".

Lemma down_is_not_up : lit "down" <> lit "up".
Proof. vm_compute. discriminate. Qed.

Lemma opposite_up : opposite (lit "up") = lit "down".
Proof. reflexivity. Qed.
Lemma opposite_down : opposite (lit "down") = lit "up".
Proof. reflexivity. Qed.

Lemma swapped_orders t n db db' : tb_topics db !! tr_id t = Some t -> tb_topics db !! tr_id n = Some n -> tr_id n <> tr_id t ->
  swapped t n db db' -> forall i, orders db' !! i
    = if decide (i = tr_id t) then Some (tr_order n) else if decide (i = tr_id n) then Some (tr_order t) else orders db !! i.
Proof.
  intros Ht Hn Hne (m & ->) i. unfold orders. rewrite !lookup_fmap. cbn [tb_topics Prelude.update].
  repeat case_decide; subst.
  - by rewrite lookup_insert_ne, lookup_insert_eq.
  - by rewrite lookup_insert_eq.
  - by rewrite !lookup_insert_ne.
Qed.
Lemma next_to_differs direction t n db : tb_topics db !! tr_id t = Some t -> next_to direction t n db -> tr_id n <> tr_id t.
Proof. intros Ht [Hn Hside] Heq. rewrite Heq, Ht in Hn. injection Hn as ->. case_decide; lia. Qed.
Lemma orders_row db i o : orders db !! i = Some o -> exists t, tb_topics db !! i = Some t /\ tr_order t = o.
Proof. unfold orders. rewrite lookup_fmap. destruct (tb_topics db !! i) as [t|]; [|done]. intros [= <-]. eauto. Qed.
Lemma row_orders db i t : tb_topics db !! i = Some t -> orders db !! i = Some (tr_order t).
Proof. intros Ht. unfold orders. by rewrite lookup_fmap, Ht. Qed.

(** After a move the topic's neighbour on the other side is the one it was exchanged with. *)
Lemma back_neighbour direction t n t' n' db db' :
  direction = lit "up" \/ direction = lit "down" -> topics_ok db -> distinct_orders db ->
  tb_topics db !! tr_id t = Some t -> next_to direction t n db -> swapped t n db db' ->
  tb_topics db' !! tr_id t = Some t' -> next_to (opposite direction) t' n' db' -> topics_ok db' ->
  tr_id n' = tr_id n.
Proof.
  intros Hd Hok Hdist Ht Hnext Hsw Ht' [Hn' Hside'] Hok'. pose proof (next_to_differs _ _ _ _ Ht Hnext) as Hne.
  destruct Hnext as [Hn Hside]. pose proof (swapped_orders _ _ _ _ Ht Hn Hne Hsw) as Ho.
  pose proof (Ho (tr_id t)) as Hot. rewrite decide_True in Hot by done. apply orders_row in Hot as (x & Hx & Hxo).
  assert (x = t') as -> by congruence. clear Hx.
  pose proof (Ho (tr_id n)) as Hon. rewrite decide_False, decide_True in Hon by done.
  apply orders_row in Hon as (n1 & Hn1 & Hn1o).
  destruct (decide (tr_id n' = tr_id n)) as [|Hdiff]; [done|exfalso].
  pose proof (Ho (tr_id n')) as Hon'. rewrite (row_orders _ _ _ Hn') in Hon'.
  assert (tr_id n' <> tr_id t) as Hnt.
  { intros Heq. rewrite Heq, Ht' in Hn'. injection Hn' as ->. destruct (decide (opposite direction = lit "up")); lia. }
  rewrite decide_False, decide_False in Hon' by done. symmetry in Hon'. apply orders_row in Hon' as (m & Hm & Hmo).
  assert (tr_order m <> tr_order t) as Hmt by (intros Heq; apply Hnt; by apply (Hdist _ _ m t)).
  destruct Hd as [-> | ->].
  - rewrite decide_True in Hside by done. rewrite opposite_up, decide_False in Hside' by exact down_is_not_up.
    destruct Hside as [Hlt Hno], Hside' as [Hlt' Hno']. specialize (Hno _ _ Hm). specialize (Hno' _ _ Hn1). lia.
  - rewrite decide_False in Hside by exact down_is_not_up. rewrite opposite_down, decide_True in Hside' by done.
    destruct Hside as [Hlt Hno], Hside' as [Hlt' Hno']. specialize (Hno _ _ Hm). specialize (Hno' _ _ Hn1). lia.
Qed.
Lemma movable_back direction t n t' db db' :
  direction = lit "up" \/ direction = lit "down" -> tb_topics db !! tr_id t = Some t -> next_to direction t n db ->
  swapped t n db db' -> tb_topics db' !! tr_id t = Some t' -> topics_ok db' ->
  unmovable (tr_id t) (opposite direction) db' = None.
Proof.
  intros Hd Ht Hnext Hsw Ht' Hok'. pose proof (next_to_differs _ _ _ _ Ht Hnext) as Hne. destruct Hnext as [Hn Hside].
  pose proof (swapped_orders _ _ _ _ Ht Hn Hne Hsw) as Ho.
  pose proof (Ho (tr_id t)) as Hot. rewrite decide_True, (row_orders _ _ _ Ht') in Hot by done. injection Hot as Hto.
  pose proof (Ho (tr_id n)) as Hon. rewrite decide_False, decide_True in Hon by done.
  apply orders_row in Hon as (n1 & Hn1 & Hn1o).
  unfold unmovable. rewrite Ht'. pose proof (neighbour_spec (opposite direction) t' db' Hok') as Hnb.
  destruct (neighbour _ _ _); [done|]. specialize (Hnb _ _ Hn1). exfalso.
  destruct Hd as [-> | ->].
  - rewrite decide_True in Hside by done. rewrite opposite_up, decide_False in Hnb by exact down_is_not_up. lia.
  - rewrite decide_False in Hside by exact down_is_not_up. rewrite opposite_down, decide_True in Hnb by done. lia.
Qed.
End Statements.


Section Answers.
Context `{DbErrorText} `{UuidPrint} `{RowScan} `{Ilike} `{CaseTables} `{GenerationApi.MicrosText}.

Definition refused {A} (r : outcome AppError A) : Prop := exists msg, r = Err (Internal msg).

(** The activity log refuses the row it has just written. *)
Lemma logged_fails principal action metadata s : refused (logged Timestamptz principal action metadata s).1.
Proof.
  unfold logged, record_activity, context, erring, pool_sql, reaching, mbind, ST_bind.
  assert (exists j s1, new_id (E:=str) s = (Ok j, s1)) as (j & s1 & ->) by (unfold new_id; destruct (t_uuids s); eauto).
  cbn -[activity_fits]. destruct (match t_ticks s1 with [] => _ | _ => _ end) as [t rest]. cbn -[activity_fits]. destruct (fails t); [by eexists|].
  match goal with |- context [activity_fits ?a ?b] => destruct (activity_fits a b) end; by eexists.
Qed.
Lemma logged_state c c' principal action metadata s :
  (logged c principal action metadata s).2 = (logged c' principal action metadata s).2.
Proof.
  unfold logged, record_activity, context, erring, pool_sql, reaching, mbind, ST_bind.
  destruct (new_id s) as [[j|e|] s1]; [|done..]. cbn -[activity_fits].
  destruct (match t_ticks s1 with [] => _ | _ => _ end) as [t rest]. cbn -[activity_fits]. destruct (fails t); [done|].
  match goal with |- context [activity_fits ?a ?b] => destruct (activity_fits a b) end; [|done]. by destruct c, c'.
Qed.
(** A handler that leaves behind the same state whatever the columns are, and with TIMESTAMPTZ never
    answers with a success. *)
Definition hides (h : column_type -> TM AppError Response) : Prop :=
  forall s, (h Timestamptz s).2 = (h Timestamp s).2 /\ forall response, (h Timestamptz s).1 <> Ok response.
Lemma hides_bind {A} (m : TM AppError A) (k : column_type -> A -> TM AppError Response) :
  (forall a, hides (λ c, k c a)) -> hides (λ c, m ≫= k c).
Proof. intros Hk s. unfold mbind, ST_bind. destruct (m s) as [[a|e|] s1]; [apply Hk|done..]. Qed.
Lemma hides_logged principal action metadata answer :
  hides (λ c, logged c principal action metadata ≫= λ _, mret answer).
Proof.
  intros s. pose proof (logged_state Timestamptz Timestamp principal action metadata s) as Hs.
  destruct (logged_fails principal action metadata s) as [msg Hmsg]. unfold mbind, ST_bind.
  destruct (logged Timestamptz _ _ _ s) as [r s2]. cbn [fst snd] in *. subst r s2.
  by destruct (logged Timestamp _ _ _ s) as [[] ?].
Qed.

(** The instants of a row of topics are NOT NULL. *)
Definition instants_set (db : TopicDb) : Prop := forall i t, tb_topics db !! i = Some t -> is_Some (tr_created_at t).
Lemma topic_undecodable db i t : instants_set db -> tb_topics db !! i = Some t -> decode_Topic Timestamptz t = Err ColumnDecode.
Proof. intros Hset Ht. destruct (Hset _ _ Ht) as [c Hc]. unfold decode_Topic, decode_instants. by rewrite Hc. Qed.

Lemma find_by_id_fails i s : instants_set (tdb s) -> is_Some (tb_topics (tdb s) !! i) ->
  holds (find_by_id Timestamptz i) (λ r s', (exists msg, r = Err msg) /\ tdb s' = tdb s) s.
Proof.
  intros Hset [t Ht]. unfold find_by_id. st_step. apply holds_context, holds_pool_read. intros s1 W. rewrite Ht. cbn.
  rewrite (topic_undecodable _ _ _ Hset Ht). split; [intros _|]; (split; [by eexists|apply W]).
Qed.
Lemma update_fails i payload s : instants_set (tdb s) ->
  holds (update Timestamptz i payload) (λ r s', (exists msg, r = Err msg) /\ tdb s' = tdb s) s.
Proof.
  intros Hset. unfold update. st_step. apply holds_pool_read. intros s1 W.
  split; [intros _; split; [by eexists|apply W]|]. destruct (tb_topics (tdb s) !! i) as [t|] eqn:Ht; cbn.
  - rewrite (topic_undecodable _ _ _ Hset Ht). split; [by eexists|apply W].
  - do 2 st_step. split; [by eexists|apply W].
Qed.
Lemma decode_rows_fails {A B} (f : A -> outcome db_error B) rows :
  (forall a, a ∈ rows -> exists e, f a = Err e) -> rows <> [] -> exists e, decode_rows f rows = Err e.
Proof. destruct rows as [|a rows]; [done|]. intros Hf _. destruct (Hf a) as [e He]; [left|]. exists e. cbn. by rewrite He. Qed.
Lemma find_many_fails `{!RowScanLaws} f pq s : instants_set (tdb s) ->
  holds (find_many Timestamptz f pq) (λ r s', tdb s' = tdb s /\
    ((exists msg, r = Err msg) \/ page_of pq (listing f (tdb s)) = Some [] /\ exists total, r = Ok ([], total))) s.
Proof.
  intros Hset. unfold find_many. st_step. apply holds_context, holds_pool_read. intros s1 W1.
  split; [intros _; split; [apply W1|by left; eexists]|]. cbn. st_step. apply holds_context, holds_pool_read. intros s2 W2.
  assert (tdb s2 = tdb s) as Hd by (rewrite (wt_db _ _ W2); apply W1).
  split; [intros _; split; [done|by left; eexists]|]. rewrite (wt_db _ _ W1).
  destruct (page_of pq (listing f (tdb s))) as [[|t rows]|] eqn:Ep; cbn.
  - st_step. split; [done|]. right. split; [done|]. by eexists.
  - destruct (decode_rows_fails (decode_Topic Timestamptz) (t :: rows)) as [e He]; [|done|].
    + intros x Hx. exists ColumnDecode.
      assert (x ∈ row_scan TopicRow (tb_topics (tdb s))) as Hscan.
      { unfold page_of in Ep. case_match; [done|]. injection Ep as Ep. rewrite <- Ep in Hx.
        assert (x ∈ listing f (tdb s)) as Hl.
        { rewrite <- (take_drop (Z.to_nat (offset pq)) (listing f (tdb s))). apply elem_of_app. right.
          rewrite <- (take_drop (Z.to_nat (limit pq)) (drop _ _)). apply elem_of_app. by left. }
        clear Hx. rename Hl into Hx. unfold listing, ordered in Hx. rewrite sort_by_perm in Hx.
        by apply list_elem_of_In, List.filter_In, proj1, list_elem_of_In in Hx. }
      rewrite (row_scan_perm TopicRow), list_elem_of_fmap in Hscan. destruct Hscan as ([i y] & -> & Hi).
      apply elem_of_map_to_list in Hi. by apply (topic_undecodable _ i y Hset).
    + cbn in He. rewrite He. cbn. split; [done|]. by left; eexists.
  - split; [done|]. by left; eexists.
Qed.

(** What an action did to the tables, with its entry of the log; and the answer says that it failed. *)
Definition done_but_refused (principal : Principal) (action : string) (metadata : value) (acted : TopicDb -> Prop)
    (r : outcome AppError Response) (s' : TopicSt) : Prop :=
  refused r /\ exists db1 a, acted db1 /\ tdb s' = db1 <| tb_activity := tb_activity db1 ++ [a] |> /\
    ac_actor_id a = Some (user_id principal) /\ ac_action a = lit action /\ ac_subject_type a = Some (lit "topic") /\
    ac_metadata a = Some metadata.
Arguments done_but_refused principal action%_string metadata acted r s'.

Lemma logged_refused principal action metadata answer (acted : TopicDb -> Prop) s :
  user_id principal ∈ tb_users (tdb s) -> answered s -> acted (tdb s) ->
  holds (logged Timestamptz principal action metadata ≫= λ _, mret answer)
    (done_but_refused principal action metadata acted) s.
Proof.
  intros Huser Ha Hacted. unfold logged. st_step. st_step. apply holds_erring, holds_context, holds_record_activity.
  - intros e s' _ Hno. destruct (Hno Ha) as (u & [= <-] & Hu). done.
  - intros s' a Hd _ Hactor Haction Htype Hmeta e. cbn [map_err]. split; [by eexists|].
    exists (tdb s), a. split; [done|]. split; [exact Hd|]. by repeat split.
Qed.

(** The topic, its contents and their tasks are gone, and nothing else. *)
Definition deleted (i : uuid) (db db1 : TopicDb) : Prop :=
  db1 = db <| tb_topics := base.delete i (tb_topics db) |> <| tb_contents := tb_contents db1 |> <| tb_tasks := tb_tasks db1 |> /\
  (forall j c, tb_contents db1 !! j = Some c <-> tb_contents db !! j = Some c /\ co_topic_id c <> i) /\
  (forall j t, tb_tasks db1 !! j = Some t <-> tb_tasks db !! j = Some t /\
     forall c, tb_contents db !! mt_content_id t = Some c -> co_topic_id c <> i).
Lemma delete_topic_deletes i db : deleted i db (delete_topic i db).
Proof.
  split; [by destruct db|]. split.
  - intros j c. cbn. by rewrite map_lookup_filter_Some.
  - intros j t. cbn. rewrite map_lookup_filter_Some. cbn. unfold under.
    destruct (tb_contents db !! mt_content_id t) as [c|]; [|split; intros [? ?]; split; done].
    rewrite bool_decide_eq_false. split; intros [Ht Hc]; (split; [done|]); [by intros ? [= <-]|by apply Hc].
Qed.
Definition published (i : uuid) (t : TopicRow) (b : bool) (db db1 : TopicDb) : Prop :=
  exists moment, db1 = db <| tb_topics := <[i := t <| tr_is_published := b |> <| tr_updated_at := Some moment |>]> (tb_topics db) |>.

(** An administrator who is a user, and a database that answers. *)
Record acting (principal : Principal) (s : TopicSt) : Prop := {
  ag_admin : Rest.role principal = lit "admin";
  ag_user : user_id principal ∈ tb_users (tdb s);
  ag_answered : answered s;
  ag_topics : topics_ok (tdb s)
}.

Lemma delete_done principal i s : acting principal s -> is_Some (tb_topics (tdb s) !! i) ->
  holds (admin_delete Timestamptz principal i)
    (done_but_refused principal "delete_topic" (obj [("topic_id", uuid_value i)])%string (deleted i (tdb s))) s.
Proof.
  intros [Hrole Huser Ha Hok] Hi. unfold admin_delete, require_admin. do 2 st_step. rewrite decide_True by done. st_step.
  apply holds_erring. unfold delete. apply holds_context, holds_pool. intros s1 W1. split; [done|].
  cbn [fst snd map_err]. do 2 st_step. rewrite bool_decide_true by done.
  apply logged_refused; [exact Huser|exact (wt_answered _ _ W1 Ha)|apply delete_topic_deletes].
Qed.
Lemma publish_done principal i b s t : acting principal s -> tb_topics (tdb s) !! i = Some t ->
  holds (admin_publish Timestamptz principal i b)
    (done_but_refused principal (if b then "publish_topic" else "unpublish_topic")
       (obj [("topic_id", uuid_value i); ("is_published", Bool b)])%string (published i t b (tdb s))) s.
Proof.
  intros [Hrole Huser Ha Hok] Ht. unfold admin_publish, require_admin. do 2 st_step. rewrite decide_True by done. st_step.
  apply holds_erring. unfold set_publish. st_step. apply holds_context, holds_pool. intros s1 W1. split; [done|].
  unfold update_topic. rewrite Ht. cbv beta zeta.
  match goal with |- context [topic_fits ?x ?d] => assert (topic_fits x d = Ok ()) as Hf by exact (tk_fits _ Hok _ t Ht) end.
  rewrite Hf. cbn -[logged uuid_value done_but_refused].
  apply logged_refused; [exact Huser|exact (wt_answered _ _ W1 Ha)|]. by eexists.
Qed.
(** Moving: exchanged with its neighbour, or told why it cannot be. *)
Lemma reorder_done `{!RowScanLaws} principal i requested s : acting principal s ->
  to_lowercase requested = lit "up" \/ to_lowercase requested = lit "down" ->
  holds (admin_reorder Timestamptz principal i requested) (λ r s',
    match unmovable i (to_lowercase requested) (tdb s) with
    | Some e => r = Err (reorder_failed e) /\ tdb s' = tdb s
    | None => done_but_refused principal "reorder_topic"
        (obj [("topic_id", uuid_value i); ("direction", String (to_lowercase requested))])%string
        (λ db1, exists t n, tb_topics (tdb s) !! i = Some t /\ next_to (to_lowercase requested) t n (tdb s) /\
           swapped t n (tdb s) db1) r s'
    end) s.
Proof.
  intros [Hrole Huser Ha Hok] Hd. unfold admin_reorder, require_admin. do 2 st_step. rewrite decide_True by done. st_step.
  cbv zeta. st_step. rewrite decide_True by done. st_step. apply holds_erring.
  eapply holds_mono; [by apply holds_reorder|]. intros r s1 [Hr Hgo]. destruct r as [[]|e|]; cbn [map_err reorder_answers] in *; [| |done].
  - destruct Hr as (-> & t & n & Ht & Hnext & Hsw). apply logged_refused; [|by apply Hgo|by exists t, n].
    destruct Hsw as [m ->]. exact Huser.
  - destruct Hr as [Hs1 Hwhy]. rewrite (Hwhy Ha). by split.
Qed.

(** Everyone is shown what the filters select, unpublished topics included, a page at a time. *)
Lemma find_many_spec f pq s : answered s ->
  holds (find_many Timestamp f pq) (λ r s', tdb s' = tdb s /\
    match page_of pq (listing f (tdb s)) with
    | Some rows => r = Ok (rows, Z.of_nat (length (listing f (tdb s))))
    | None => exists e, r = Err e
    end) s.
Proof.
  intros Ha. unfold find_many. st_step. apply holds_context, holds_pool_read. intros s1 W1. split; [done|]. cbn.
  st_step. apply holds_context, holds_pool_read. intros s2 W2.
  assert (tdb s2 = tdb s) as Hd by (rewrite (wt_db _ _ W2); apply W1). split; [intros []; by apply W1|].
  rewrite (wt_db _ _ W1). replace (length (selection f (tdb s))) with (length (listing f (tdb s)))
    by (unfold listing, ordered; by rewrite sort_by_perm).
  destruct (page_of pq (listing f (tdb s))) as [rows|]; [|split; [done|by eexists]].
  assert (decode_rows (decode_Topic Timestamp) rows = Ok rows) as ->.
  { etransitivity; [apply (decode_rows_ok _ (λ r, r))|f_equal; apply list_fmap_id]. by intros [?????????[] []]. }
  cbn. st_step. by split.
Qed.
(** A null in the body leaves a column alone: no request clears one. *)
Lemma null_clears_nothing v payload : decode_update v = Some payload ->
  ut_sub_subject_id payload <> Some None /\ ut_thumbnail_url payload <> Some None.
Proof.
  assert (forall A (dec : value -> option A) o x, defaulted None (d_double_opt dec) o = Some x -> x <> Some None) as Hd.
  { intros A dec [w|] x; cbn; [|by intros [= <-]]. unfold d_double_opt. by destruct (d_opt dec w) as [[]|]; intros [= <-]. }
  unfold decode_update. destruct (plain_fields _ v) as [[|f0 [|f1 [|f2 []]]]|]; try done. cbn.
  destruct (defaulted None (d_opt d_string) f0); [|done]. cbn.
  destruct (defaulted None (d_double_opt d_i64) f1) eqn:E1; [|done]. cbn.
  destruct (defaulted None (d_double_opt d_string) f2) eqn:E2; [|done]. cbn. intros [= <-].
  split; [exact (Hd _ _ _ _ E1)|exact (Hd _ _ _ _ E2)].
Qed.
(** Who is not an administrator changes nothing. *)
Lemma only_admins_act c principal i payload direction b s : Rest.role principal <> lit "admin" ->
  let refusal := Err (Forbidden (lit "requires role 'admin', user has '" ++ Rest.role principal ++ lit "'")) in
  admin_update c principal i payload s = (refusal, s) /\ admin_delete c principal i s = (refusal, s)
  /\ admin_reorder c principal i direction s = (refusal, s) /\ admin_publish c principal i b s = (refusal, s).
Proof.
  intros Hr. unfold admin_update, admin_delete, admin_reorder, admin_publish, require_admin, mbind, ST_bind, ok_or.
  by rewrite decide_False.
Qed.
End Answers.
(** ** Theorems *)

(** C27. Moving a topic up or down exchanges it with its neighbour: the places taken before and after are
    the same, no topic lies between the two, and no other row changes. A topic at the edge or one that
    does not exist is refused, and whatever refuses or fails changes nothing. Where all places differ and
    every statement is answered, moving it back restores the order. Topics that share a place, as all
    that publication creates do, cannot be moved past each other. *)
Theorem reordering_exchanges_neighbours `{DbErrorText} `{RowScan} `{!RowScanLaws} i direction s r s'
    (Hok : topics_ok (tdb s)) (Hd : direction = lit "up" \/ direction = lit "down")
    (Hrun : reorder i direction s = (r, s')) :
  reorder_answers i direction s r s'
  /\ (answered s -> distinct_orders (tdb s) -> r = Ok () ->
      exists s'', reorder i (opposite direction) s' = (Ok (), s'') /\ orders (tdb s'') = orders (tdb s))
  /\ ((forall j t t', tb_topics (tdb s) !! i = Some t -> tb_topics (tdb s) !! j = Some t' -> tr_order t' = tr_order t) ->
      r <> Ok () /\ tdb s' = tdb s).
Proof.
  destruct (holds_run _ _ _ _ _ (holds_reorder i direction s Hok Hd) Hrun) as [Hans Hgo]. split; [exact Hans|]. split.
  - intros Ha Hdist ->. destruct Hans as (_ & t & n & Ht & Hnext & Hsw). pose proof (tk_key _ Hok _ _ Ht) as <-.
    pose proof (next_to_differs _ _ _ _ Ht Hnext) as Hne. pose proof (proj1 Hnext) as Hn.
    pose proof (swapped_ok _ _ _ _ Hok Ht Hn Hne Hsw) as Hok'.
    pose proof (swapped_orders _ _ _ _ Ht Hn Hne Hsw) as Ho.
    pose proof (Ho (tr_id t)) as Hot. rewrite decide_True in Hot by done. apply orders_row in Hot as (t' & Ht' & Hto).
    assert (opposite direction = lit "up" \/ opposite direction = lit "down") as Hd'
      by (unfold opposite; case_decide; tauto).
    pose proof (holds_reorder (tr_id t) (opposite direction) s' Hok' Hd') as Hback. unfold holds in Hback.
    destruct (reorder (tr_id t) (opposite direction) s') as [r2 s2]. cbn [fst snd] in Hback. destruct Hback as [Hback _].
    destruct r2 as [[]|e|]; [|exfalso|done].
    + destruct Hback as (_ & x & n' & Hx & Hnext' & Hsw'). assert (x = t') as -> by congruence.
      exists s2. split; [done|]. assert (tr_id t' = tr_id t) as Hid by (by apply (tk_key _ Hok')).
      assert (tr_id n' = tr_id n) as Hidn by (by apply (back_neighbour direction t n t' n' (tdb s) (tdb s'))).
      assert (tb_topics (tdb s') !! tr_id t' = Some t') as Ht'' by (by rewrite Hid).
      pose proof (swapped_orders _ _ _ _ Ht'' (proj1 Hnext') ltac:(congruence) Hsw') as Ho'.
      pose proof (Ho (tr_id n)) as Hon. rewrite decide_False, decide_True in Hon by done.
      pose proof (row_orders _ _ _ (proj1 Hnext')) as Hon'. rewrite Hidn, Hon in Hon'. injection Hon' as Hon'.
      apply map_eq. intros j. rewrite Ho', Hid, Hidn. repeat case_decide; subst; [| |by rewrite Ho, !decide_False].
      * by rewrite (row_orders _ _ _ Ht), Hon'.
      * by rewrite (row_orders _ _ _ Hn), Hto.
    + destruct Hback as [_ Hback]. specialize (Hback (Hgo Ha)).
      by rewrite (movable_back direction t n t' (tdb s) (tdb s')) in Hback.
  - intros Hsame. destruct r as [[]|e|]; [exfalso|by destruct Hans|done].
    destruct Hans as (_ & t & n & Ht & [Hn Hside] & _). specialize (Hsame _ _ _ Ht Hn). case_decide; lia.
Qed.

(** C28. On a database whose instants are TIMESTAMPTZ, as the migrations declare them, what an administrator
    does to a topic is done and then reported as a failure. Where every statement is answered: deleting
    takes away the topic, its contents and their tasks, publishing sets the flag, moving exchanges the
    topic with its neighbour, nothing else changes but the log, which has the entry of the action, and
    the answer is an internal error, because the log's own row cannot be read back; a topic that
    cannot be moved is refused as ever. Whatever fails, these three leave behind what they leave with
    columns of the expected type, and are never answered with a success. Updating changes nothing, and
    nobody is shown a topic: the listing answers with empty pages only. *)
Theorem timestamptz_hides_what_was_done `{DbErrorText} `{UuidPrint} `{RowScan} `{!RowScanLaws} `{Ilike} `{CaseTables}
    `{GenerationApi.MicrosText} principal :
  (forall i, hides (λ c, admin_delete c principal i))
  /\ (forall i direction, hides (λ c, admin_reorder c principal i direction))
  /\ (forall i b, hides (λ c, admin_publish c principal i b))
  /\ (forall i s, acting principal s -> is_Some (tb_topics (tdb s) !! i) ->
      holds (admin_delete Timestamptz principal i)
        (done_but_refused principal "delete_topic" (obj [("topic_id", uuid_value i)])%string (deleted i (tdb s))) s)
  /\ (forall i requested s, acting principal s ->
      to_lowercase requested = lit "up" \/ to_lowercase requested = lit "down" ->
      holds (admin_reorder Timestamptz principal i requested) (λ r s',
        match unmovable i (to_lowercase requested) (tdb s) with
        | Some e => r = Err (reorder_failed e) /\ tdb s' = tdb s
        | None => done_but_refused principal "reorder_topic"
            (obj [("topic_id", uuid_value i); ("direction", String (to_lowercase requested))])%string
            (λ db1, exists t n, tb_topics (tdb s) !! i = Some t /\ next_to (to_lowercase requested) t n (tdb s) /\
               swapped t n (tdb s) db1) r s'
        end) s)
  /\ (forall i b s t, acting principal s -> tb_topics (tdb s) !! i = Some t ->
      holds (admin_publish Timestamptz principal i b)
        (done_but_refused principal (if b then "publish_topic" else "unpublish_topic")
           (obj [("topic_id", uuid_value i); ("is_published", Bool b)])%string (published i t b (tdb s))) s)
  /\ (forall i payload s, instants_set (tdb s) ->
      holds (admin_update Timestamptz principal i payload) (λ r s', tdb s' = tdb s /\ exists e, r = Err e) s)
  /\ (forall i s, instants_set (tdb s) -> is_Some (tb_topics (tdb s) !! i) ->
      holds (show Timestamptz i) (λ r s', tdb s' = tdb s /\ refused r) s)
  /\ (forall timestamp params s, instants_set (tdb s) ->
      holds (index Timestamptz timestamp params) (λ r s', tdb s' = tdb s /\ forall response, r = Ok response ->
        page_of (parse_pagination {| pp_page := tq_page params; pp_per_page := tq_per_page params |})
          (listing (tq_filters params) (tdb s)) = Some []) s).
Proof.
  split; [|split; [|split; [|split; [|split; [|split; [|split; [|split]]]]]]].
  - intros i. unfold admin_delete. repeat (apply hides_bind; intros ?). apply hides_logged.
  - intros i direction. unfold admin_reorder. apply hides_bind; intros ?. cbv zeta.
    repeat (apply hides_bind; intros ?). apply hides_logged.
  - intros i b. unfold admin_publish. do 2 (apply hides_bind; intros ?). apply hides_logged.
  - intros i s. apply delete_done.
  - intros i requested s. apply reorder_done.
  - intros i b s t. apply publish_done.
  - intros i payload s Hset. unfold admin_update. st_step. unfold require_admin. st_step. case_decide; [|by split; [|eexists]].
    st_step. apply holds_erring. eapply holds_mono; [by apply update_fails|].
    intros r s' [[msg ->] Hs']. split; [done|by eexists].
  - intros i s Hset Hi. unfold show. st_step. apply holds_erring. eapply holds_mono; [by apply find_by_id_fails|].
    intros r s' [[msg ->] Hs']. split; [done|by eexists].
  - intros timestamp params s Hset. unfold index. cbv zeta. st_step. apply holds_erring.
    eapply holds_mono; [by apply find_many_fails|]. intros r s' [Hs' [[msg ->]|(Hp & total & ->)]]; [by split|].
    cbn -[parse_pagination of_panicking from_query]. st_step. cbn -[parse_pagination of_panicking from_query].
    rewrite map_to_list_empty. destruct (wants_contents _);
      repeat (first [st_step|apply holds_stepping]; cbn -[parse_pagination of_panicking from_query]).
    all: destruct (of_panicking _); cbn; by split.
Qed.

(** ** Witnesses *)

Module TopicsWitness.
#[local] Existing Instances decimal_print plain_case.
#[local] Instance no_text : DbErrorText := λ _, lit "down".
#[local] Instance by_key : RowScan := λ A m, (map_to_list m).*2.
#[local] Instance by_key_laws : RowScanLaws.
Proof. intros A m. reflexivity. Qed.

Definition titled (i order : Z) : TopicRow :=
  mkTopicRow i (lit "Topik") (lit "7") None None true order (Some 7) (lit "owned") (Some 0) (Some 0).
Definition shelf (l : list (Z * Z)) : TopicSt :=
  mkTopicSt (mkTopicDb (list_to_map ((λ r, (r.1, titled r.1 r.2)) <$> l)) ∅ ∅ ∅ ∅ {[ 7 ]} ∅ []) None 0 [] [].
Definition three : TopicSt := shelf [(1, 10); (2, 20); (3, 30)].

Lemma shelf_ok l : topics_ok (tdb (shelf l)).
Proof.
  split; intros i t Hi; cbn [tdb shelf tb_topics] in Hi; apply elem_of_list_to_map_2 in Hi;
    apply list_elem_of_fmap in Hi as ([j o] & [= -> ->] & _); [done|]. reflexivity.
Qed.

(** The last of three topics moves up and down again. *)
Lemma reordering_exchanges_neighbours_witness :
  exists s', reorder 3 (lit "up") three = (Ok (), s') /\ orders (tdb s') = list_to_map [(1, 10); (2, 30); (3, 20)]
  /\ exists s'', reorder 3 (lit "down") s' = (Ok (), s'') /\ orders (tdb s'') = orders (tdb three).
Proof.
  exists (reorder 3 (lit "up") three).2. split; [vm_compute; reflexivity|]. split; [vm_compute; reflexivity|].
  destruct (reordering_exchanges_neighbours 3 (lit "up") three (Ok ()) (reorder 3 (lit "up") three).2 (shelf_ok _)) as (_ & Hback & _).
  - left. reflexivity.
  - vm_compute. reflexivity.
  - apply Hback; [apply Forall_nil; exact I| |reflexivity].
    intros a b ta tb Ha Hb Heq. cbn [tdb three shelf tb_topics] in Ha, Hb.
    apply elem_of_list_to_map_2, list_elem_of_fmap in Ha as ([i o] & [= -> ->] & Ha).
    apply elem_of_list_to_map_2, list_elem_of_fmap in Hb as ([j o'] & [= -> ->] & Hb). cbn in Heq. subst o'.
    set_unfold in Ha. set_unfold in Hb. intuition congruence.
Defined.

#[local] Instance anything : Ilike := λ _ _, true.
#[local] Instance decimal_micros : GenerationApi.MicrosText := z_to_string.
Definition admin : Principal := mkPrincipal 7 (lit "admin").
(** The topic is taken down, another moved up and a third deleted, and the administrator is told each time
    that it failed. *)
Lemma admin_acts : acting admin three.
Proof.
  split; [reflexivity| |apply Forall_nil; exact I|apply shelf_ok].
  change (7 ∈ ({[7]} : gset Z)). by apply elem_of_singleton.
Qed.
Lemma timestamptz_hides_what_was_done_witness :
  done_but_refused admin "unpublish_topic" (obj [("topic_id", uuid_value 1); ("is_published", Bool false)])%string
    (published 1 (titled 1 10) false (tdb three))
    (admin_publish Timestamptz admin 1 false three).1 (admin_publish Timestamptz admin 1 false three).2
  /\ refused (admin_reorder Timestamptz admin 3 (lit "up") three).1
  /\ orders (tdb (admin_reorder Timestamptz admin 3 (lit "up") three).2) = list_to_map [(1, 10); (2, 30); (3, 20)]
  /\ done_but_refused admin "delete_topic" (obj [("topic_id", uuid_value 2)])%string (deleted 2 (tdb three))
       (admin_delete Timestamptz admin 2 three).1 (admin_delete Timestamptz admin 2 three).2.
Proof.
  destruct (timestamptz_hides_what_was_done admin) as (_ & _ & _ & Hdelete & Hmove & Hpublish & _).
  split; [exact (Hpublish 1 false three (titled 1 10) admin_acts eq_refl)|].
  split; [|split; [vm_compute; reflexivity|apply (Hdelete 2 three admin_acts); vm_compute; by eexists]].
  pose proof (Hmove 3 (lit "up") three admin_acts (or_introl eq_refl)) as Hm. unfold holds in Hm.
  assert (unmovable 3 (to_lowercase (lit "up")) (tdb three) = None) as Hcan by (vm_compute; reflexivity).
  rewrite Hcan in Hm. exact (proj1 Hm).
Defined.

(** Topics as publication creates them. *)
Example published_topics_stay : (reorder 2 (lit "up") (shelf [(1, 0); (2, 0)])).1 = Err (lit "cannot move up" ++ AT_THE_EDGE)
  /\ (reorder 2 (lit "down") (shelf [(1, 0); (2, 0)])).1 = Err (lit "cannot move down" ++ AT_THE_EDGE).
Proof. split; vm_compute; reflexivity. Qed.
End TopicsWitness.
