(* ===== verification/Marketplace.v ===== *)
(** * The marketplace (db/repositories/marketplace_tasks.rs, api/rest/marketplace_tasks.rs, api/rest/admin/marketplace_tasks.rs)

    Listing and showing tasks with their contents, and what an administrator does to them, over the tables
    of Topics.v. Tasks are also created by hiring (Freelancers.v). The type of the columns of instants is an
    argument, as in HomepageApi.v; a body is taken as serde has read it. *)

From stdpp Require Import base gmap list option strings fin_maps sets.
From Stdlib Require Import ZArith Lia.
From S2P Require Import Prelude RustStr Json Floats Interpretation Decision Order Text Store StateM Repo GenerationApi Auth HomepageApi Topics Rest Samples.
#[local] Open Scope Z_scope.

Record MarketplaceTaskWithContent := mkTaskWithContent { twc_task : MarketplaceTask; twc_content : Content }.
Record MarketplaceTaskFilters := mkTaskFilters {
  mf_search : option str;
  mf_status : option str;
  mf_content_id : option uuid
}.
Record CreateMarketplaceTaskPayload := mkCreateTask {
  cm_content_id : uuid;
  cm_status : str;
  cm_task_type : str;
  cm_description : option str;
  cm_creator_id : option str;
  cm_suggested_freelancer_id : option Z;
  cm_attachment_url : option str;
  cm_media_generation_id : option uuid
}.
(** A field is left alone, set to NULL, or set. *)
Record UpdateMarketplaceTaskPayload := mkUpdateTask {
  um_content_id : option uuid;
  um_task_type : option str;
  um_description : option (option str);
  um_creator_id : option (option str);
  um_suggested_freelancer_id : option (option Z);
  um_attachment_url : option (option str);
  um_media_generation_id : option (option uuid)
}.
#[export] Instance MarketplaceTask_eta : Eta MarketplaceTask := λ t,
  mkTask (mt_id t) (mt_content_id t) (mt_status t) (mt_task_type t) (mt_description t) (mt_creator_id t)
    (mt_suggested_freelancer_id t) (mt_attachment_url t) (mt_media_generation_id t) (mt_created_at t) (mt_updated_at t).

(** ** The repository *)

Section Repository.
Context `{DbErrorText} `{UuidPrint} `{RowScan} `{Ilike}.
Context (columns : column_type).

(** A content without a title matches no search. *)
Definition titled_like (s : str) (db : TopicDb) (i : uuid) : bool :=
  match tb_contents db !! i ≫= co_title with Some title => ilike title (search_pattern s) | None => false end.
Definition task_selected (f : MarketplaceTaskFilters) (db : TopicDb) (t : MarketplaceTask) : bool :=
  optionally (λ s, titled_like s db (mt_content_id t)) (mf_search f)
  && optionally (λ st, bool_decide (mt_status t = st)) (mf_status f)
  && optionally (λ i, bool_decide (mt_content_id t = i)) (mf_content_id f).
Definition task_selection (f : MarketplaceTaskFilters) (db : TopicDb) : list MarketplaceTask :=
  List.filter (task_selected f db) (row_scan MarketplaceTask (tb_tasks db)).
Definition task_listing (f : MarketplaceTaskFilters) (db : TopicDb) : list MarketplaceTask :=
  ordered (λ a b, by_option (mt_created_at b) (mt_created_at a)) (task_selection f db).
Definition contents_with_ids (ids : list uuid) (db : TopicDb) : list Content :=
  List.filter (λ c, bool_decide (co_id c ∈ ids)) (row_scan Content (tb_contents db)).
Definition with_content (contents : list Content) (t : MarketplaceTask) : option MarketplaceTaskWithContent :=
  mkTaskWithContent t <$> List.find (λ c, bool_decide (co_id c = mt_content_id t)) contents.
Definition find_many (f : MarketplaceTaskFilters) (pagination : PaginationQuery) : TM str (list MarketplaceTaskWithContent * Z) :=
  total ← context "failed to count marketplace tasks" (pool_read (λ db, Ok (Z.of_nat (length (task_selection f db)))));
  tasks ← context "failed to fetch marketplace tasks" (pool_read (λ db,
    match page_of pagination (task_listing f db) with
    | Some rows => decode_rows (decode_Task columns) rows
    | None => Err (Protocol (lit "OFFSET must not be negative"))
    end));
  contents ← match mt_content_id <$> tasks with
             | [] => mret []
             | ids => context "failed to fetch contents"
                        (pool_read (λ db, decode_rows (decode_Content columns) (contents_with_ids ids db)))
             end;
  mret (omap (with_content contents) tasks, total).
Definition find_by_id (i : uuid) : TM str (option MarketplaceTaskWithContent) :=
  task ← context "failed to fetch marketplace task" (pool_read (λ db, optional_row (decode_Task columns) (tb_tasks db !! i)));
  match task with
  | None => mret None
  | Some task =>
      content ← context "failed to fetch content"
        (pool_read (λ db, optional_row (decode_Content columns) (tb_contents db !! mt_content_id task)));
      mret (mkTaskWithContent task <$> content)
  end.

(** The columns have their widths; the content, the freelancer and the generation exist. *)
Definition task_fits (t : MarketplaceTask) (db : TopicDb) : outcome db_error unit :=
  if negb (varchar 20 (mt_status t) && varchar 20 (mt_task_type t) && optionally (varchar 255) (mt_creator_id t)
           && optionally (varchar 2048) (mt_attachment_url t)) then Err CheckViolation
  else if bool_decide (is_Some (tb_contents db !! mt_content_id t))
          && optionally (λ j, bool_decide (j ∈ tb_users db)) (mt_suggested_freelancer_id t)
          && optionally (λ g, bool_decide (g ∈ tb_generations db)) (mt_media_generation_id t) then Ok ()
  else Err ForeignKeyViolation.
Definition created_task (i : uuid) (p : CreateMarketplaceTaskPayload) (now : Z) : MarketplaceTask :=
  mkTask i (cm_content_id p) (cm_status p) (cm_task_type p) (cm_description p) (cm_creator_id p)
    (cm_suggested_freelancer_id p) (cm_attachment_url p) (cm_media_generation_id p) (Some now) (Some now).
Definition store_task (i : uuid) (t : MarketplaceTask) (db : TopicDb) : outcome db_error MarketplaceTask * TopicDb :=
  match task_fits t db with
  | Ok _ => (decode_Task columns t, db <| tb_tasks := <[i := t]> (tb_tasks db) |>)
  | Err e => (Err e, db)
  | Panic => (Panic, db)
  end.
Definition insert (p : CreateMarketplaceTaskPayload) : TM str MarketplaceTask :=
  i ← new_id;
  context "failed to insert marketplace task" (pool_sql (λ now db,
    if bool_decide (is_Some (tb_tasks db !! i)) then (Err UniqueViolation, db) else store_task i (created_task i p now) db)).
(** [UPDATE marketplace_tasks SET ... WHERE id = $1 RETURNING ...]. *)
Definition update_task (f : MarketplaceTask -> MarketplaceTask) (i : uuid) (now : Z) (db : TopicDb) :
    outcome db_error (option MarketplaceTask) * TopicDb :=
  match tb_tasks db !! i with
  | None => (Ok None, db)
  | Some t => let '(r, db') := store_task i ((f t) <| mt_updated_at := Some now |>) db in
              (outcome_bind r (λ t, Ok (Some t)), db')
  end.
Definition TASK_NOT_FOUND : str := lit "marketplace task not found".
(** The columns are set to what the current row has where the payload leaves them alone. *)
Definition overlay (p : UpdateMarketplaceTaskPayload) (current t : MarketplaceTask) : MarketplaceTask :=
  mkTask (mt_id t) (default (mt_content_id current) (um_content_id p)) (mt_status t)
    (default (mt_task_type current) (um_task_type p)) (default (mt_description current) (um_description p))
    (default (mt_creator_id current) (um_creator_id p))
    (default (mt_suggested_freelancer_id current) (um_suggested_freelancer_id p))
    (default (mt_attachment_url current) (um_attachment_url p))
    (default (mt_media_generation_id current) (um_media_generation_id p)) (mt_created_at t) (mt_updated_at t).
Definition update (i : uuid) (p : UpdateMarketplaceTaskPayload) : TM str MarketplaceTask :=
  found ← pool_read (λ db, optional_row (decode_Task columns) (tb_tasks db !! i));
  current ← ok_or TASK_NOT_FOUND found;
  context "failed to update marketplace task" (pool_sql (λ now db,
    let '(r, db') := update_task (overlay p current) i now db in (one_row r, db'))).
Definition delete (i : uuid) : TM str bool :=
  context "failed to delete marketplace task" (pool_sql (λ _ db,
    (Ok (bool_decide (is_Some (tb_tasks db !! i))), db <| tb_tasks := base.delete i (tb_tasks db) |>))).
Definition update_status (i : uuid) (st : str) : TM str MarketplaceTask :=
  updated ← context "failed to update marketplace task status" (pool_sql (update_task (λ t, t <| mt_status := st |>) i));
  ok_or TASK_NOT_FOUND updated.
End Repository.

(** ** The endpoints *)

Record MarketplaceTaskQueryParams := mkTaskQuery {
  mq_filters : MarketplaceTaskFilters;
  mq_page : option Z;
  mq_per_page : option Z
}.
Record CreateMarketplaceTaskRequest := mkCreateTaskRequest {
  rq_content_id : uuid;
  rq_status : option str;
  rq_task_type : option str;
  rq_description : option str;
  rq_creator_id : option str;
  rq_suggested_freelancer_id : option Z;
  rq_attachment_url : option str;
  rq_media_generation_id : option uuid
}.

Section Endpoints.
Context `{DbErrorText} `{UuidPrint} `{RowScan} `{Ilike} `{CaseTables} `{GenerationApi.MicrosText}.
Context (columns : column_type).

Definition build_content_resource (c : Content) : value :=
  obj [("id", uuid_value (co_id c)); ("topic_id", uuid_value (co_topic_id c)); ("type", String (co_content_type c));
       ("title", jopt String (co_title c)); ("data", jopt (λ v, v) (co_data c)); ("media_url", jopt String (co_media_url c));
       ("created_at", instant_value (co_created_at c)); ("updated_at", instant_value (co_updated_at c))]%string.
Definition build_marketplace_task_resource (t : MarketplaceTask) (c : Content) : value :=
  obj [("id", uuid_value (mt_id t)); ("content_id", uuid_value (mt_content_id t)); ("status", String (mt_status t));
       ("creator_id", jopt String (mt_creator_id t)); ("attachment_url", jopt String (mt_attachment_url t));
       ("content", build_content_resource c);
       ("created_at", instant_value (mt_created_at t)); ("updated_at", instant_value (mt_updated_at t))]%string.
(** The moment of the answer is an argument. *)
Definition index (timestamp : str) (params : MarketplaceTaskQueryParams) : TM AppError Response :=
  let pq := parse_pagination {| pp_page := mq_page params; pp_per_page := mq_per_page params |} in
  '(rows, total) ← erring Internal (find_many columns (mq_filters params) pq);
  meta ← returning (of_panicking (from_query pq total));
  mret (response.paginated timestamp ((λ r, build_marketplace_task_resource (twc_task r) (twc_content r)) <$> rows) meta).
Definition show (i : uuid) : TM AppError Response :=
  found ← erring Internal (find_by_id columns i);
  r ← ok_or (NotFound TASK_NOT_FOUND) found;
  mret (response.ok_with_message (lit "Detail task berhasil diambil.") (build_marketplace_task_resource (twc_task r) (twc_content r))).

(** ** Administration *)

Definition VALID_STATUSES : list str := [lit "open"; lit "taken"; lit "done"].
Definition VALID_TASK_TYPES : list str := [lit "bid"; lit "suggestion"].
Definition checked_status (given st : str) : TM AppError unit :=
  ok_or (Validation (lit "invalid status '" ++ given ++ lit "': must be one of open, taken, done"))
    (if decide (st ∈ VALID_STATUSES) then Some () else None).
Definition checked_type (task_type : str) : TM AppError unit :=
  ok_or (Validation (lit "invalid task_type '" ++ task_type ++ lit "': must be one of bid, suggestion"))
    (if decide (task_type ∈ VALID_TASK_TYPES) then Some () else None).
Definition task_logged (principal : Principal) (action : string) (metadata : value) : TM AppError unit :=
  _ ← erring Internal (context "failed to record activity"
        (record_activity columns (Some (user_id principal)) (lit action) (Some (lit "marketplace_task")) None (Some metadata)));
  mret ().
Definition failed_to (what : string) (e : str) : AppError := Internal (lit "failed to " ++ lit what ++ lit ": " ++ e).
Arguments failed_to what%_string e.
Definition logged_task (t : MarketplaceTask) : value :=
  obj [("task_id", uuid_value (mt_id t)); ("content_id", uuid_value (mt_content_id t)); ("status", String (mt_status t));
       ("task_type", String (mt_task_type t))]%string.
Definition task_value (t : MarketplaceTask) : value :=
  obj [("id", uuid_value (mt_id t)); ("content_id", uuid_value (mt_content_id t)); ("status", String (mt_status t));
       ("task_type", String (mt_task_type t)); ("description", jopt String (mt_description t));
       ("creator_id", jopt String (mt_creator_id t)); ("suggested_freelancer_id", jopt jint (mt_suggested_freelancer_id t));
       ("attachment_url", jopt String (mt_attachment_url t));
       ("media_generation_id", jopt uuid_value (mt_media_generation_id t))]%string.

Definition admin_create (principal : Principal) (payload : CreateMarketplaceTaskRequest) : TM AppError Response :=
  _ ← require_admin principal;
  let st := default (lit "open") (rq_status payload) in
  let task_type := default (lit "bid") (rq_task_type payload) in
  _ ← checked_status st st;
  _ ← checked_type task_type;
  task ← erring (failed_to "create marketplace task") (insert columns
    (mkCreateTask (rq_content_id payload) st task_type (rq_description payload) (rq_creator_id payload)
       (rq_suggested_freelancer_id payload) (rq_attachment_url payload) (rq_media_generation_id payload)));
  _ ← task_logged principal "create_marketplace_task" (logged_task task);
  mret (response.created_with_message (lit "Task berhasil dibuat.") (task_value task)).
Definition admin_update (principal : Principal) (i : uuid) (payload : UpdateMarketplaceTaskPayload) : TM AppError Response :=
  _ ← require_admin principal;
  _ ← match um_task_type payload with Some task_type => checked_type task_type | None => mret () end;
  task ← erring (λ e, if str_contains e (lit "not found") then NotFound TASK_NOT_FOUND
                      else failed_to "update marketplace task" e) (update columns i payload);
  _ ← task_logged principal "update_marketplace_task" (logged_task task);
  mret (response.ok_with_message (lit "Task berhasil diperbarui.") (task_value task)).
Definition admin_delete (principal : Principal) (i : uuid) : TM AppError Response :=
  _ ← require_admin principal;
  deleted ← erring (failed_to "delete marketplace task") (delete i);
  _ ← ok_or (NotFound TASK_NOT_FOUND) (if deleted : bool then Some () else None);
  _ ← task_logged principal "delete_marketplace_task" (obj [("task_id", uuid_value i)]%string);
  mret (response.ok_with_message (lit "Task berhasil dihapus.") (obj [])).
Definition admin_update_status (principal : Principal) (i : uuid) (requested : str) : TM AppError Response :=
  _ ← require_admin principal;
  let new_status := to_lowercase requested in
  _ ← checked_status requested new_status;
  found ← erring (failed_to "fetch task") (find_by_id columns i);
  current ← ok_or (NotFound TASK_NOT_FOUND) found;
  let previous_status := mt_status (twc_task current) in
  task ← erring (failed_to "update task status") (update_status columns i new_status);
  _ ← task_logged principal "update_task_status"
        (obj [("task_id", uuid_value (mt_id task)); ("content_id", uuid_value (mt_content_id task));
              ("previous_status", String previous_status); ("new_status", String new_status)]%string);
  mret (response.ok_with_message (lit "Status task berhasil diubah ke '" ++ new_status ++ lit "'.")
    (obj [("id", uuid_value (mt_id task)); ("content_id", uuid_value (mt_content_id task)); ("status", String (mt_status task));
          ("task_type", String (mt_task_type task))]%string)).
End Endpoints.

(** ** Lemmas: what an action leaves alone *)

(** Only tasks change, and a task keeps its status or gets a valid one. *)
Record task_moved (db db' : TopicDb) : Prop := {
  mv_topics : tb_topics db' = tb_topics db;
  mv_contents : tb_contents db' = tb_contents db;
  mv_subjects : tb_subjects db' = tb_subjects db;
  mv_sub_subjects : tb_sub_subjects db' = tb_sub_subjects db;
  mv_users : tb_users db' = tb_users db;
  mv_generations : tb_generations db' = tb_generations db;
  mv_activity : tb_activity db' = tb_activity db;
  mv_status i t' : tb_tasks db' !! i = Some t' ->
    mt_status t' ∈ VALID_STATUSES \/ exists t, tb_tasks db !! i = Some t /\ mt_status t' = mt_status t
}.
#[export] Instance task_moved_preorder : PreOrder task_moved.
Proof.
  split; [intros db; split; try done; intros i t Ht; right; by exists t|].
  intros db1 db2 db3 [] []. split; [congruence..|]. intros i t3 Ht3.
  destruct (mv_status1 _ _ Ht3) as [|(t2 & Ht2 & Hs)]; [by left|]. rewrite Hs. by apply mv_status0.
Qed.
Definition moved (s s' : TopicSt) : Prop := task_moved (tdb s) (tdb s').
#[export] Instance moved_preorder : PreOrder moved.
Proof. split; [intros s; unfold moved; done|]. intros s1 s2 s3. unfold moved. apply transitivity. Qed.

Section Moves.
Context `{DbErrorText} `{UuidPrint} `{RowScan} `{Ilike}.
Context (columns : column_type).

Lemma moves_pool {A} (q : Z -> TopicDb -> outcome db_error A * TopicDb) :
  (forall now db, task_moved db (q now db).2) -> moves moved (pool_sql q).
Proof.
  intros Hq s. assert (holds (pool_sql q) (λ _ s', moved s s') s) as Hh; [|exact Hh].
  apply holds_pool. intros s' W. unfold moved. split; [intros _; by rewrite (wt_db _ _ W)|]. apply Hq.
Qed.
Lemma moves_pool_read {A} (f : TopicDb -> outcome db_error A) : moves moved (pool_read f).
Proof. by apply moves_pool. Qed.
Lemma moves_new_id {E} : moves moved (new_id (E:=E)).
Proof. intros s. unfold new_id, moved. by destruct (t_uuids s). Qed.

Lemma stored_moved i t db : mt_status t ∈ VALID_STATUSES \/ (exists t0, tb_tasks db !! i = Some t0 /\ mt_status t = mt_status t0) ->
  task_moved db (store_task columns i t db).2.
Proof.
  intros Ht. unfold store_task. destruct (task_fits t db); [|done..]. split; try done. intros j t' Hj. cbn in Hj.
  destruct (decide (i = j)) as [<-|Hij].
  - rewrite lookup_insert_eq in Hj. injection Hj as <-. done.
  - rewrite lookup_insert_ne in Hj by done. right. by exists t'.
Qed.
Lemma updated_moved f i now db :
  (forall t, mt_status (f t) ∈ VALID_STATUSES \/ mt_status (f t) = mt_status t) -> task_moved db (update_task columns f i now db).2.
Proof.
  intros Hf. unfold update_task. destruct (tb_tasks db !! i) as [t|] eqn:Ht; [|done].
  pose proof (stored_moved i ((f t) <| mt_updated_at := Some now |>) db) as Hs.
  destruct (store_task columns i _ db) as [r db']. apply Hs. destruct (Hf t); [by left|]. right. by exists t.
Qed.
Lemma insert_moves p : cm_status p ∈ VALID_STATUSES -> moves moved (insert columns p).
Proof.
  intros Hp. apply moves_bind; [apply _|apply moves_new_id|]. intros i. apply moves_erring, moves_pool. intros now db.
  case_bool_decide; [done|]. apply stored_moved. by left.
Qed.
Lemma update_moves i p : moves moved (update columns i p).
Proof.
  apply moves_bind; [apply _|apply moves_pool_read|]. intros found. apply moves_bind; [apply _|apply moves_ok_or; apply _|].
  intros current. apply moves_erring, moves_pool. intros now db.
  pose proof (updated_moved (overlay p current) i now db (λ t, or_intror eq_refl)) as Hu.
  by destruct (update_task columns (overlay p current) i now db).
Qed.
Lemma delete_moves i : moves moved (delete i).
Proof.
  apply moves_erring, moves_pool. intros _ db. split; try done. cbn. intros j t [_ Hj]%lookup_delete_Some. right. by exists t.
Qed.
Lemma update_status_moves i st : st ∈ VALID_STATUSES -> moves moved (update_status columns i st).
Proof.
  intros Hst. apply moves_bind; [apply _|apply moves_erring, moves_pool|intros; apply moves_ok_or; apply _].
  intros now db. apply updated_moved. intros t. by left.
Qed.
Lemma find_by_id_moves i : moves moved (find_by_id columns i).
Proof.
  apply moves_bind; [apply _|apply moves_erring, moves_pool_read|]. intros [t|]; [|apply moves_ret; apply _].
  apply moves_bind; [apply _|apply moves_erring, moves_pool_read|]. intros o. apply moves_ret; apply _.
Qed.
End Moves.

(** ** Lemmas: the actions of an administrator *)

Inductive TaskAction :=
| Create (payload : CreateMarketplaceTaskRequest)
| Update (i : uuid) (payload : UpdateMarketplaceTaskPayload)
| Delete (i : uuid)
| SetStatus (i : uuid) (requested : str).

Section Actions.
Context `{DbErrorText} `{UuidPrint} `{RowScan} `{Ilike} `{CaseTables} `{GenerationApi.MicrosText}.
Context (columns : column_type).

Definition act (principal : Principal) (a : TaskAction) : TM AppError Response :=
  match a with
  | Create payload => admin_create columns principal payload
  | Update i payload => admin_update columns principal i payload
  | Delete i => admin_delete columns principal i
  | SetStatus i requested => admin_update_status columns principal i requested
  end.
(** One request after the other. *)
Definition acts (l : list (Principal * TaskAction)) (s : TopicSt) : TopicSt := foldl (λ s a, (act a.1 a.2 s).2) s l.

(** The tasks have moved, and at most the entry of the action is in the log; a success has written it. *)
Definition acted (principal : Principal) (s : TopicSt) (r : outcome AppError Response) (s' : TopicSt) : Prop :=
  exists db, task_moved (tdb s) db /\ (tdb s' = db /\ (forall response, r <> Ok response)
    \/ exists a, ac_actor_id a = Some (user_id principal) /\ ac_subject_type a = Some (lit "marketplace_task")
       /\ tdb s' = db <| tb_activity := tb_activity db ++ [a] |> /\ Rest.role principal = lit "admin"
       /\ forall response, r = Ok response -> columns = Timestamp).

Lemma holds_task_logged principal action metadata answer s0 s : Rest.role principal = lit "admin" -> moved s0 s ->
  holds (_ ← task_logged columns principal action metadata; mret answer) (acted principal s0) s.
Proof.
  intros Hrole Hs. unfold task_logged. st_step. st_step. apply holds_erring, holds_context, holds_record_activity.
  - intros e s' Hd _. exists (tdb s'). rewrite Hd. split; [done|]. left. by split.
  - intros s' a Hd _ Hactor _ Htype _. destruct columns eqn:Ec; [cbn [map_err]; do 2 st_step|intros e]; exists (tdb s); (split; [done|]); right;
      exists a; repeat (split; [done|]); congruence.
Qed.

Lemma holds_moves {A} (m : TM AppError A) (Q : outcome AppError A -> TopicSt -> Prop) s :
  moves moved m -> (forall r s', moved s s' -> Q r s') -> holds m Q s.
Proof. intros Hm HQ. unfold holds. apply HQ, Hm. Qed.
(** Before the log nothing is answered with a success. *)
Lemma acted_bind {A} principal (m : TM AppError A) (k : A -> TM AppError Response) s0 s : moved s0 s -> moves moved m ->
  (forall a s', moved s0 s' -> holds (k a) (acted principal s0) s') -> holds (m ≫= k) (acted principal s0) s.
Proof.
  intros Hs Hm Hk. st_step. apply holds_moves; [done|]. intros r s' Hs'.
  assert (moved s0 s') as Hs2 by (by etrans). destruct r as [a|e|]; [by apply Hk|..]; exists (tdb s'); split; auto.
Qed.
Lemma acted_refused principal s0 s e : moved s0 s -> acted principal s0 (Err e) s.
Proof. exists (tdb s). split; [done|]. left. by split. Qed.
(** A check stops with an error, or its condition holds. *)
Lemma acted_when principal (P : Prop) `{!Decision P} e (k : unit -> TM AppError Response) s0 s : moved s0 s ->
  (P -> holds (k ()) (acted principal s0) s) -> holds (ok_or e (if decide P then Some () else None) ≫= k) (acted principal s0) s.
Proof. intros Hs Hp. do 2 st_step. case_decide; [by apply Hp|by apply acted_refused]. Qed.

Lemma acted_act principal a s : holds (act principal a) (acted principal s) s.
Proof.
  assert (moved s s) as Hs by done.
  destruct a as [payload|i payload|i|i requested]; cbn [act].
  - unfold admin_create. apply acted_when; [done|]. intros Hrole. apply acted_when; [done|]. intros Hst.
    apply acted_when; [done|]. intros _. apply acted_bind; [done|by apply moves_erring, insert_moves|].
    intros t s' Hs'. by apply holds_task_logged.
  - unfold admin_update. apply acted_when; [done|]. intros Hrole. apply acted_bind; [done| |].
    { destruct (um_task_type payload); [apply moves_ok_or|apply moves_ret]; apply _. }
    intros _ s1 Hs1. apply acted_bind; [done|apply moves_erring, update_moves|]. intros t s' Hs'. by apply holds_task_logged.
  - unfold admin_delete. apply acted_when; [done|]. intros Hrole.
    apply acted_bind; [done|apply moves_erring, delete_moves|]. intros deleted s1 Hs1.
    apply acted_bind; [done|apply moves_ok_or; apply _|]. intros _ s' Hs'. by apply holds_task_logged.
  - unfold admin_update_status. apply acted_when; [done|]. intros Hrole. apply acted_when; [done|]. intros Hst.
    apply acted_bind; [done|apply moves_erring, find_by_id_moves|]. intros found s1 Hs1.
    apply acted_bind; [done|apply moves_ok_or; apply _|]. intros current s2 Hs2.
    apply acted_bind; [done|by apply moves_erring, update_status_moves|]. intros t s' Hs'. by apply holds_task_logged.
Qed.
End Actions.

(** Only tasks and the log change, the log only grows, and a status is kept or valid. *)
Record administered (db db' : TopicDb) : Prop := {
  ad_topics : tb_topics db' = tb_topics db;
  ad_contents : tb_contents db' = tb_contents db;
  ad_users : tb_users db' = tb_users db;
  ad_activity : tb_activity db `prefix_of` tb_activity db';
  ad_status i t' : tb_tasks db' !! i = Some t' -> mt_status t' ∉ VALID_STATUSES ->
    exists t, tb_tasks db !! i = Some t /\ mt_status t = mt_status t'
}.
#[export] Instance administered_preorder : PreOrder administered.
Proof.
  split; [intros db; split; try done; intros i t Ht _; by exists t|].
  intros db1 db2 db3 [] []. split; [congruence..|by etrans|]. intros i t3 Ht3 Hs3.
  destruct (ad_status1 _ _ Ht3 Hs3) as (t2 & Ht2 & Hs2). rewrite <- Hs2 in Hs3 |- *. by apply ad_status0.
Qed.

Section Sequences.
Context `{DbErrorText} `{UuidPrint} `{RowScan} `{Ilike} `{CaseTables} `{GenerationApi.MicrosText}.
Context (columns : column_type).

Lemma acted_administered principal s r s' : acted columns principal s r s' -> administered (tdb s) (tdb s').
Proof.
  intros (db & [] & Hs').
  assert (administered (tdb s) db) as Hdb.
  { split; [done|done|done|by rewrite mv_activity0|]. intros i t' Ht' Hinv.
    destruct (mv_status0 _ _ Ht') as [|(t & Ht & Heq)]; [done|]. by exists t. }
  destruct Hs' as [[-> _]|(e & _ & _ & -> & _)]; [done|]. destruct Hdb. split; try done. cbn. by apply prefix_app_r.
Qed.
Lemma acts_administered l s : administered (tdb s) (tdb (acts columns l s)).
Proof.
  revert s. induction l as [|[principal a] l IH]; intros s; [done|]. cbn [acts foldl fst snd].
  etrans; [|apply IH]. eapply acted_administered, (acted_act columns principal a s).
Qed.
End Sequences.

(** ** Properties *)

(** C32. Whatever administrators do to tasks, in any number of requests and whatever fails, only tasks and the
    log change, the log only grows, and a task that has another status than open, taken and done has had it
    all along: an administrator can take a task out of the statuses that hiring gives, assigned and
    open_for_bid, and none can put it back. An answered action is an administrator's, on TIMESTAMP columns
    only, and stands in the log with its actor. *)
Theorem administrators_set_three_statuses `{DbErrorText} `{UuidPrint} `{RowScan} `{Ilike} `{CaseTables} `{GenerationApi.MicrosText}
    columns l s :
  let s' := acts columns l s in
  administered (tdb s) (tdb s')
  /\ lit "assigned" ∉ VALID_STATUSES /\ lit "open_for_bid" ∉ VALID_STATUSES
  /\ forall principal a response, (act columns principal a s').1 = Ok response ->
       Rest.role principal = lit "admin" /\ columns = Timestamp
       /\ exists entry, tb_activity (tdb (act columns principal a s').2) = tb_activity (tdb s') ++ [entry]
            /\ ac_actor_id entry = Some (user_id principal).
Proof.
  intros s'. split; [apply acts_administered|]. split; [vm_compute; set_solver|]. split; [vm_compute; set_solver|].
  intros principal a response Hr. pose proof (acted_act columns principal a s') as Ha. unfold holds in Ha. rewrite Hr in Ha.
  destruct Ha as (db & Hm & [[_ Hno]|(e & He & _ & Hdb & Hrole & Hok)]); [by destruct (Hno response)|].
  split; [done|]. split; [by apply (Hok response)|]. exists e. rewrite Hdb. cbn. by rewrite (mv_activity _ _ Hm).
Qed.

Section Answers.
Context `{DbErrorText} `{UuidPrint} `{RowScan} `{Ilike} `{CaseTables} `{GenerationApi.MicrosText}.

(** The body of an update is laid over the row; a field it leaves alone keeps its value. *)
Lemma overlay_spec i p t s : answered s -> tb_tasks (tdb s) !! i = Some t ->
  holds (update Timestamp i p) (λ r s', exists moment, let t' := (overlay p t t) <| mt_updated_at := Some moment |> in
    match task_fits t' (tdb s) with
    | Ok _ => r = Ok t' /\ tdb s' = (tdb s) <| tb_tasks := <[i := t']> (tb_tasks (tdb s)) |>
    | _ => (exists e, r = Err e) /\ tdb s' = tdb s
    end) s.
Proof.
  intros Ha Ht. unfold update. st_step. apply holds_pool_read. intros s1 W1. split; [done|]. rewrite Ht. cbn [optional_row].
  assert (forall t, decode_Task Timestamp t = Ok t) as Hdec by (by intros [?????????[] []]).
  rewrite Hdec. cbn [outcome_bind map_err]. do 2 st_step. apply holds_context, holds_pool. intros s2 W2.
  split; [intros []; by apply W1|]. rewrite (wt_db _ _ W1). unfold update_task. rewrite Ht.
  set (t' := _ <| mt_updated_at := _ |>). exists (t_clock s2). fold t'. unfold store_task.
  assert (tdb s2 = tdb s) as Hd by (rewrite (wt_db _ _ W2); apply W1).
  destruct (task_fits t' (tdb s)) as [[]|e|] eqn:E; [rewrite Hdec; by split|cbn; split; [by eexists|by destruct s2]|].
  unfold task_fits in E. repeat case_match; done.
Qed.

(** On TIMESTAMPTZ columns creating and deleting are done and reported as failures, and a task whose
    instants are set can neither be changed nor shown. *)
Lemma store_task_state c c' i t db : (store_task c i t db).2 = (store_task c' i t db).2.
Proof. unfold store_task. by destruct (task_fits t db). Qed.
Lemma show_fails i t s : tb_tasks (tdb s) !! i = Some t -> is_Some (mt_created_at t) ->
  holds (find_by_id Timestamptz i) (λ r s', (exists msg, r = Err msg) /\ tdb s' = tdb s) s
  /\ forall p, holds (update Timestamptz i p) (λ r s', (exists msg, r = Err msg) /\ tdb s' = tdb s) s.
Proof.
  intros Ht [moment Hm].
  assert (decode_Task Timestamptz t = Err ColumnDecode) as Hdec by (unfold decode_Task, decode_instants; by rewrite Hm).
  split; [unfold find_by_id|intros p; unfold update]; st_step; [apply holds_context|]; apply holds_pool_read; intros s1 W;
    rewrite Ht; cbn [optional_row]; rewrite Hdec; (split; [intros _|]; (split; [by eexists|apply W])).
Qed.
End Answers.

(** ** Witnesses *)

Module MarketplaceWitness.
#[local] Existing Instances decimal_print plain_case.
#[local] Instance no_text : DbErrorText := λ _, lit "down".
#[local] Instance by_key : RowScan := λ A m, (map_to_list m).*2.
#[local] Instance anything : Ilike := λ _ _, true.
#[local] Instance decimal_micros : GenerationApi.MicrosText := z_to_string.

Definition module_1 : Content := mkContent 60 1 (lit "module") (Some (lit "Pecahan")) None None true 0 (Some 0) (Some 0).
Definition hired : MarketplaceTask :=
  mkTask 40 60 (lit "assigned") (lit "suggestion") None (Some (lit "7")) (Some 3) None (Some 1) (Some 0) (Some 0).
Definition market (ticks : list tick) : TopicSt := mkTopicSt (mkTopicDb ∅ {[ 60 := module_1 ]} {[ 40 := hired ]} ∅ ∅ {[ 3; 7 ]} {[ 1 ]} []) None 0 ticks [90; 41; 91; 92].
Definition admin : Principal := mkPrincipal 7 (lit "admin").
Definition statuses (s : TopicSt) : gmap uuid str := mt_status <$> tb_tasks (tdb s).

(** The task is taken; what hiring had given cannot be given back, nor to a new task. *)
Definition requests : list (Principal * TaskAction) :=
  [(admin, SetStatus 40 (lit "TAKEN")); (admin, SetStatus 40 (lit "assigned"));
   (admin, Create (mkCreateTaskRequest 60 (Some (lit "assigned")) None None None None None None));
   (admin, Create (mkCreateTaskRequest 60 None None None None None None None))].
Lemma administrators_set_three_statuses_witness :
  statuses (acts Timestamp requests (market [])) = {[ 40 := lit "taken"; 41 := lit "open" ]}
  /\ administered (tdb (market [])) (tdb (acts Timestamp requests (market [])))
  /\ length (tb_activity (tdb (acts Timestamp requests (market [])))) = 2%nat
  /\ exists response, (act Timestamp admin (Delete 41) (acts Timestamp requests (market []))).1 = Ok response
       /\ Rest.role admin = lit "admin".
Proof.
  split; [vm_compute; reflexivity|].
  destruct (administrators_set_three_statuses Timestamp requests (market [])) as (Hadm & _ & _ & Hok).
  split; [exact Hadm|]. split; [vm_compute; reflexivity|].
  destruct (act Timestamp admin (Delete 41) (acts Timestamp requests (market []))).1 as [response|e|] eqn:E.
  - exists response. split; [reflexivity|]. exact (proj1 (Hok admin (Delete 41) response E)).
  - vm_compute in E. discriminate E.
  - vm_compute in E. discriminate E.
Defined.

(** Where the status is set and the log is out of reach, the change stays. *)
Example a_lost_entry_of_the_log :
  let r := act Timestamp admin (SetStatus 40 (lit "done")) (market [mkTick false 0; mkTick false 0; mkTick false 0; mkTick true 0]) in
  r.1 = Err (Internal (lit "failed to record activity: failed to record activity log: unavailable"))
  /\ statuses r.2 = {[ 40 := lit "done" ]} /\ tb_activity (tdb r.2) = [].
Proof. vm_compute. repeat split; reflexivity. Qed.
End MarketplaceWitness.
