(* ===== verification/Freelancers.v ===== *)
(** * Freelancers (src/src/matching/mod.rs, api/rest/freelancer.rs, db/repositories/freelancer_matches.rs)

    The profiles of freelancers, the suggestion of freelancers for a generation with its scores drawn from
    SHA-256, and hiring: the task a teacher creates for the content of a finished generation. The type of
    the columns of instants is an argument, as in HomepageApi.v. *)

From stdpp Require Import base gmap list option strings fin_maps sets sorting.
From Stdlib Require Import ZArith Lia Floats.SpecFloat.
From S2P Require Import Prelude RustStr Json Floats Interpretation Decision Order Text Store StateM Repo Submission GenerationApi Auth HomepageApi Topics Rest Samples.
#[local] Open Scope Z_scope.

(** A row of users with the columns of its profile; the rating is the double its NUMERIC is cast to. *)
Record FreelancerRow := mkFreelancerRow {
  fr_user : User;
  fr_bio : str;
  fr_location : str;
  fr_verified : bool;
  fr_rating : option f64;
  fr_job_count : option Z;
  fr_hourly_rate : option str;
  fr_skills : option value;
  fr_response_time : option str
}.
Record PortfolioItem := mkPortfolioItem {
  pf_id : Z;
  pf_freelancer_user_id : Z;
  pf_title : str;
  pf_description : str;
  pf_image_url : option str;
  pf_category : str;
  pf_sort_order : Z
}.
Record FreelancerMatchScore := mkMatchScore {
  portfolio_relevance_score : f64;
  success_rate : f64;
  availability_score : f64;
  match_score : f64
}.
Record FreelancerMatch := mkMatch { fm_freelancer : User; fm_scores : FreelancerMatchScore }.
(** A row of freelancer_matches; its key is a unique index. *)
Record MatchRow := mkMatchRow {
  mr_id : Z;
  mr_match_score : f64;
  mr_portfolio_relevance_score : f64;
  mr_success_rate : f64;
  mr_created_at : Z;
  mr_updated_at : Z
}.
Record FreelancerDb := mkFreelancerDb {
  fb_users : list FreelancerRow;       (* in the order of a scan *)
  fb_portfolio : list PortfolioItem;
  fb_contents : gset uuid;
  fb_matches : gmap (uuid * Z) MatchRow;
  fb_match_seq : Z;
  fb_tasks : gmap uuid MarketplaceTask
}.
#[export] Instance FreelancerDb_eta : Eta FreelancerDb := λ d,
  mkFreelancerDb (fb_users d) (fb_portfolio d) (fb_contents d) (fb_matches d) (fb_match_seq d) (fb_tasks d).
(** The generations with the clock and the schedule of the statements, and the other tables. *)
Record FreelancerSt := mkFreelancerSt { fl_pg : St; fldb : FreelancerDb; fl_uuids : list uuid }.
#[export] Instance FreelancerSt_eta : Eta FreelancerSt := λ s, mkFreelancerSt (fl_pg s) (fldb s) (fl_uuids s).
Notation FM := (ST FreelancerSt).

(** SHA-256, from bytes to bytes. *)
Class Sha256 := sha256 : list Z -> list Z.

(** ** Scores *)

Definition le_bytes (n : nat) (z : Z) : list Z := (λ k, (z / 256 ^ k) mod 256) <$> seqZ 0 (Z.of_nat n).
Definition be_value (bytes : list Z) : Z := foldl (λ acc b, acc * 256 + b) 0 bytes.
(** [i64::to_le_bytes], the label, [Uuid::as_bytes]. *)
Definition build_seed (user_id : Z) (label : string) (gen_bytes : list Z) : list Z :=
  le_bytes 8 user_id ++ lit label ++ gen_bytes.
Arguments build_seed user_id label%_string gen_bytes.
Definition uuid_bytes (i : uuid) : list Z := reverse (le_bytes 16 i).

Section Scores.
Context `{Sha256}.
(** [u64::MAX as f64] is 2^64. *)
Definition deterministic_score (seed : list Z) (min max : f64) : f64 :=
  let val := be_value (take 8 (sha256 seed)) in
  let normalized := f64_div (f64_of_z val) (f64_of_z (2 ^ 64 - 1)) in
  f64_add min (f64_mul normalized (f64_sub max min)).
Definition round2 (v : f64) : f64 := f64_div (f64_round (f64_mul v (f64_of_z 100))) (f64_of_z 100).
Definition compute_scores (freelancer : User) (generation_id : uuid) : FreelancerMatchScore :=
  let gen_bytes := uuid_bytes generation_id in
  let portfolio := deterministic_score (build_seed (u_id freelancer) ":portfolio" gen_bytes) (f64_lit 4 1) (f64_of_z 1) in
  let success := deterministic_score (build_seed (u_id freelancer) ":success" gen_bytes) (f64_lit 7 1) (f64_of_z 1) in
  let availability := deterministic_score (build_seed (u_id freelancer) ":availability" gen_bytes) (f64_lit 5 1) (f64_of_z 1) in
  let score := f64_add (f64_add (f64_mul (f64_lit 5 1) portfolio) (f64_mul (f64_lit 3 1) success))
                 (f64_mul (f64_lit 2 1) availability) in
  mkMatchScore (round2 portfolio) (round2 success) (round2 availability) (round2 score).
Definition by_score (a b : FreelancerMatch) : comparison :=
  default Eq (f64_cmp (match_score (fm_scores b)) (match_score (fm_scores a))).
Definition is_freelancer (r : FreelancerRow) : bool := bool_decide (u_role (fr_user r) = lit "freelancer").
Definition freelancers (db : FreelancerDb) : list FreelancerRow := List.filter is_freelancer (fb_users db).
Definition ranking (generation_id : uuid) (users : list User) (limit : nat) : list FreelancerMatch :=
  take limit (sort_by by_score ((λ f, mkMatch f (compute_scores f generation_id)) <$> users)).
End Scores.

(** ** Statements *)

(** A statement on these tables takes its turn in the schedule of the pool. *)
Definition fl_sql {A} (q : Z -> DB -> FreelancerDb -> outcome db_error A * FreelancerDb) : FM db_error A := λ s,
  match take_tick (fl_pg s) with
  | (Ok _, p) => let '(r, db) := q (time p) (committed p) (fldb s) in (r, s <| fl_pg := p |> <| fldb := db |>)
  | (Err e, p) => (Err e, s <| fl_pg := p |>)
  | (Panic, p) => (Panic, s <| fl_pg := p |>)
  end.
Definition fl_read {A} (f : FreelancerDb -> outcome db_error A) : FM db_error A := fl_sql (λ _ _ db, (f db, db)).
Definition fresh_id {E} : FM E uuid := λ s,
  match fl_uuids s with i :: l => (Ok i, s <| fl_uuids := l |>) | [] => (Ok 0, s) end.

Section Freelancers.
Context `{DbErrorText} `{UuidPrint} `{Sha256}.
Context (columns : column_type) (tables : RelatedTables).

Definition failing_with {A} (what : string) (m : FM db_error A) : FM AppError A :=
  erring (λ e, Internal (lit what ++ lit ": " ++ db_error_text e)) m.
Arguments failing_with {A} what%_string m.

(** ** Profiles *)

Definition strings (v : value) : list str := default [] (d_vec d_string v).
Definition freelancer_resource (r : FreelancerRow) : value :=
  let u := fr_user r in
  let tags := Array (String <$> strings (default (Array []) (fr_skills r))) in
  let rate := default (lit "120K") (fr_hourly_rate r) in
  let jobs := jint (default 0 (fr_job_count r)) in
  obj [("id", jint (u_id u)); ("name", String (u_name u)); ("email", String (u_email u));
       ("avatar_url", jopt String (u_avatar_url u)); ("role", String (u_role u));
       ("rating", jfloat (default (f64_lit 48 1) (fr_rating r))); ("jobs", jobs); ("job_count", jobs);
       ("rate", String rate); ("price", String (lit "Rp " ++ rate ++ lit "/topik")); ("tags", tags); ("skills", tags);
       ("verified", Bool true); ("responseTime", String (default (lit "< 30m") (fr_response_time r)))]%string.
Definition list_freelancers : FM AppError Response :=
  rows ← failing_with "failed to fetch freelancers"
    (fl_read (λ db, Ok (ordered (λ a b, u_id (fr_user a) ?= u_id (fr_user b)) (freelancers db))));
  mret (response.ok (Array (freelancer_resource <$> rows))).

(** The statement of the profile has a parameter, and nothing is bound to it: the server refuses it. *)
Definition UNBOUND : db_error := Protocol (lit "bind message supplies 0 parameters, but prepared statement requires 1").
Definition fetch_freelancer_profile_base (freelancer_id : Z) : FM AppError (FreelancerRow * list str) :=
  found ← failing_with "failed to fetch freelancer profile" (fl_read (λ _, (Err UNBOUND : outcome db_error (option FreelancerRow))));
  row ← ok_or (NotFound (lit "Freelancer not found")) found;
  mret (row, strings (default (Array []) (fr_skills row))).
Definition portfolio_resource (p : PortfolioItem) : value :=
  obj [("id", jint (pf_id p)); ("title", String (pf_title p)); ("description", String (pf_description p));
       ("image_url", jopt String (pf_image_url p)); ("category", String (pf_category p))]%string.
Definition profile_from_row (r : FreelancerRow) (skills : list str) (portfolio : list PortfolioItem) : value :=
  let u := fr_user r in
  obj [("id", jint (u_id u)); ("user_id", jint (u_id u)); ("display_name", String (u_name u)); ("role", String (u_role u));
       ("bio", String (fr_bio r)); ("location", String (fr_location r)); ("avatar_url", jopt String (u_avatar_url u));
       ("price", String (default (lit "--") (fr_hourly_rate r))); ("rating", jfloat (default (f64_of_z 0) (fr_rating r)));
       ("job_count", jint (default 0 (fr_job_count r))); ("response_time", String (default (lit "-") (fr_response_time r)));
       ("verified", Bool (fr_verified r)); ("skills", Array (String <$> skills));
       ("portfolio", Array (portfolio_resource <$> portfolio))]%string.
Definition portfolio_of (freelancer_id : Z) (db : FreelancerDb) : list PortfolioItem :=
  ordered (λ a b, pf_sort_order a ?= pf_sort_order b)
    (List.filter (λ p, pf_freelancer_user_id p =? freelancer_id) (fb_portfolio db)).
Definition get_freelancer_profile (freelancer_id : Z) : FM AppError Response :=
  '(row, skills) ← fetch_freelancer_profile_base freelancer_id;
  portfolio ← failing_with "failed to fetch portfolio items" (fl_read (λ db, Ok (portfolio_of freelancer_id db)));
  mret (response.ok (profile_from_row row skills portfolio)).
Definition get_freelancer_profile_basic (freelancer_id : Z) : FM AppError Response :=
  '(row, skills) ← fetch_freelancer_profile_base freelancer_id;
  mret (response.ok (profile_from_row row skills [])).

(** ** Suggesting *)

(** Only the role and the owner of the generation are looked at. *)
Definition teachers_only (principal : Principal) : FM AppError unit := returning (require_teacher principal).
Definition own (i : uuid) (principal : Principal) : FM AppError MediaGeneration :=
  found ← zoom fl_pg (λ p s, s <| fl_pg := p |>) (λ e, Internal (repo_error_text e))
            (find_by_id_for_teacher tables i (user_id principal));
  g ← ok_or (NotFound (lit "media generation not found")) found;
  mret (generation g).
Definition fetch_freelancers : FM AppError (list User) :=
  failing_with "failed to find freelancer matches: failed to fetch freelancers" (fl_read (λ db, Ok (fr_user <$> freelancers db))).

(** [INSERT ... ON CONFLICT (media_generation_id, freelancer_id) DO UPDATE ... RETURNING]. *)
Definition match_row (seq : Z) (scores : FreelancerMatchScore) (old : option MatchRow) (now : Z) : MatchRow :=
  mkMatchRow (default seq (mr_id <$> old)) (match_score scores) (portfolio_relevance_score scores) (success_rate scores)
    (default now (mr_created_at <$> old)) now.
Definition upsert_match (i : uuid) (freelancer_id : Z) (scores : FreelancerMatchScore) (now : Z) (generations : DB)
    (db : FreelancerDb) : outcome db_error MatchRow * FreelancerDb :=
  let db' := db <| fb_match_seq := fb_match_seq db + 1 |> in
  if bool_decide (is_Some (generations !! i)) && bool_decide (freelancer_id ∈ u_id ∘ fr_user <$> fb_users db) then
    let row := match_row (fb_match_seq db) scores (fb_matches db !! (i, freelancer_id)) now in
    (outcome_bind (as_naive columns (Some (mr_created_at row))) (λ _, Ok row),
     db' <| fb_matches := <[(i, freelancer_id) := row]> (fb_matches db) |>)
  else (Err ForeignKeyViolation, db').
Definition upsert (i : uuid) (m : FreelancerMatch) : FM AppError unit :=
  let j := u_id (fm_freelancer m) in
  _ ← erring (λ e, Internal (lit "failed to upsert freelancer match: failed to upsert freelancer match (gen="
                ++ uuid_to_string i ++ lit ", freelancer=" ++ z_to_string j ++ lit "): " ++ db_error_text e))
        (fl_sql (upsert_match i j (fm_scores m)));
  mret ().
Fixpoint upsert_all (i : uuid) (matches : list FreelancerMatch) : FM AppError unit :=
  match matches with
  | [] => mret ()
  | m :: matches => _ ← upsert i m; upsert_all i matches
  end.
Definition match_resource (m : FreelancerMatch) : value :=
  let u := fm_freelancer m in
  let s := fm_scores m in
  obj [("freelancer_id", jint (u_id u)); ("name", String (u_name u)); ("email", String (u_email u));
       ("avatar_url", jopt String (u_avatar_url u)); ("primary_subject_id", jopt jint (u_primary_subject_id u));
       ("portfolio_relevance_score", jfloat (portfolio_relevance_score s)); ("success_rate", jfloat (success_rate s));
       ("availability_score", jfloat (availability_score s)); ("match_score", jfloat (match_score s))]%string.
(** A body without the number asks for five. *)
Definition DEFAULT_SUGGESTIONS : Z := 5.
Definition suggestion_limit (max_suggestions : option Z) : nat :=
  Z.to_nat (clamp (default DEFAULT_SUGGESTIONS max_suggestions) 1 10).
Definition suggest_freelancers (principal : Principal) (i : uuid) (max_suggestions : option Z) : FM AppError Response :=
  _ ← teachers_only principal;
  g ← own i principal;
  users ← fetch_freelancers;
  let matches := ranking (id g) users (suggestion_limit max_suggestions) in
  _ ← upsert_all i matches;
  mret (response.ok (Array (match_resource <$> matches))).

(** ** Hiring *)

Inductive HireMode := AutoSuggest | ManualTask.
Record HireFreelancerRequest := mkHireRequest { hf_mode : HireMode; hf_freelancer_id : option Z }.

(** [generations] are the rows of media_generations. *)
Definition task_ok (t : MarketplaceTask) (generations : DB) (db : FreelancerDb) : outcome db_error unit :=
  if negb (varchar 20 (mt_status t) && varchar 20 (mt_task_type t)) then Err CheckViolation
  else if bool_decide (is_Some (fb_tasks db !! mt_id t)) then Err UniqueViolation
  else if bool_decide (mt_content_id t ∈ fb_contents db)
          && optionally (λ j, bool_decide (j ∈ u_id ∘ fr_user <$> fb_users db)) (mt_suggested_freelancer_id t)
          && optionally (λ g, bool_decide (is_Some (generations !! g))) (mt_media_generation_id t) then Ok ()
  else Err ForeignKeyViolation.
(** [PgMarketplaceTasksRepo::insert]. *)
Definition insert_task (t : MarketplaceTask) : FM AppError MarketplaceTask :=
  erring (λ e, Internal (lit "failed to create marketplace task: failed to insert marketplace task: " ++ db_error_text e))
    (fl_sql (λ now generations db,
      let t := mkTask (mt_id t) (mt_content_id t) (mt_status t) (mt_task_type t) (mt_description t) (mt_creator_id t)
                 (mt_suggested_freelancer_id t) (mt_attachment_url t) (mt_media_generation_id t) (Some now) (Some now) in
      match task_ok t generations db with
      | Ok _ => (decode_Task columns t, db <| fb_tasks := <[mt_id t := t]> (fb_tasks db) |>)
      | Err e => (Err e, db)
      | Panic => (Panic, db)
      end)).
(** The type and status of the new task, and whom it suggests. *)
Definition hire_mode (payload : HireFreelancerRequest) : outcome AppError (str * str * option Z) :=
  match hf_mode payload with
  | AutoSuggest => match hf_freelancer_id payload with
                   | Some j => Ok (lit "suggestion", lit "assigned", Some j)
                   | None => Err (Validation (lit "freelancer_id is required for auto_suggest mode"))
                   end
  | ManualTask => Ok (lit "bid", lit "open_for_bid", None)
  end.
Definition hired_resource (i content_id : uuid) (t : MarketplaceTask) : value :=
  obj [("task_id", uuid_value (mt_id t)); ("media_generation_id", uuid_value i); ("content_id", uuid_value content_id);
       ("status", String (mt_status t)); ("task_type", String (mt_task_type t));
       ("suggested_freelancer_id", jopt jint (mt_suggested_freelancer_id t))]%string.
Definition not_terminal (st : str) : AppError :=
  Validation (lit "generation status '" ++ st ++ lit "' is not terminal " ++ [8212] ++ lit " must be completed, failed, or cancelled").
Definition hire_freelancer (principal : Principal) (i : uuid) (payload : HireFreelancerRequest) : FM AppError Response :=
  _ ← teachers_only principal;
  g ← own i principal;
  _ ← ok_or (not_terminal (status g)) (if is_terminal_status (status g) then Some () else None);
  content_id ← ok_or (Validation (lit "generation has no content (not yet published)")) (content_id g);
  '(task_type, task_status, suggested) ← returning (hire_mode payload);
  j ← fresh_id;
  task ← insert_task (mkTask j content_id task_status task_type None (Some (z_to_string (user_id principal))) suggested None
                        (Some i) None None);
  mret (response.created (hired_resource i content_id task)).
End Freelancers.

(** ** Lemmas: statements *)

(** Only time has passed. *)
Record later (s s' : FreelancerSt) : Prop := {
  lt_db : fldb s' = fldb s;
  lt_generations : committed (fl_pg s') = committed (fl_pg s);
  lt_uuids : fl_uuids s' = fl_uuids s;
  lt_healthy : healthy (fl_pg s) -> healthy (fl_pg s')
}.
#[export] Instance later_preorder : PreOrder later.
Proof. split; [by split|]. intros ??? [] []. split; [congruence..|auto]. Qed.

Lemma holds_fl_sql {A} (q : Z -> DB -> FreelancerDb -> outcome db_error A * FreelancerDb)
    (Q : outcome db_error A -> FreelancerSt -> Prop) s :
  (forall s', later s s' -> (¬ healthy (fl_pg s) -> Q (Err Unavailable) s') /\
     Q (q (time (fl_pg s')) (committed (fl_pg s)) (fldb s)).1
       (s' <| fldb := (q (time (fl_pg s')) (committed (fl_pg s)) (fldb s)).2 |>)) ->
  holds (fl_sql q) Q s.
Proof.
  intros H. unfold holds, fl_sql. destruct s as [[c w b t sched] db us]. cbn [fl_pg fldb].
  unfold take_tick. cbn [schedule].
  destruct sched as [|k rest].
  - destruct (H (mkFreelancerSt (mkSt c w b t []) db us)) as [_ Hq]; [by split|]. cbn in Hq |- *. by destruct (q t c db).
  - destruct (H (mkFreelancerSt (mkSt c w b (t + Z.of_N (elapsed k)) rest) db us)) as [Hf Hq].
    { split; [done..|]. unfold healthy. cbn. by inversion 1. }
    cbn in Hf, Hq |- *. destruct (fails k) eqn:Ek; cbn.
    + apply Hf. unfold healthy. cbn. inversion 1. congruence.
    + by destruct (q (t + Z.of_N (elapsed k)) c db).
Qed.
Lemma holds_fl_read {A} (f : FreelancerDb -> outcome db_error A) (Q : outcome db_error A -> FreelancerSt -> Prop) s :
  (forall s', later s s' -> (¬ healthy (fl_pg s) -> Q (Err Unavailable) s') /\ Q (f (fldb s)) s') -> holds (fl_read f) Q s.
Proof.
  intros H. apply holds_fl_sql. intros s' Hs. destruct (H s' Hs) as [Hf Hq]. split; [done|].
  cbn [fst snd]. rewrite <- (lt_db _ _ Hs) in Hq |- *. by destruct s'.
Qed.

(** Who may ask: a teacher, for a generation of the own. *)
Definition may_ask (principal : Principal) (i : uuid) (s : FreelancerSt) (g : MediaGeneration) : Prop :=
  Rest.role principal = lit "teacher" /\ committed (fl_pg s) !! i = Some g /\ teacher_id g = user_id principal.

Section Asking.
Context `{DbErrorText} `{UuidPrint} `{Sha256}.

Lemma holds_teachers principal (Q : outcome AppError unit -> FreelancerSt -> Prop) s :
  (Rest.role principal = lit "teacher" -> Q (Ok ()) s) -> (Rest.role principal <> lit "teacher" -> forall e, Q (Err e) s) ->
  holds (teachers_only principal) Q s.
Proof. intros Ht Hf. apply holds_returning. unfold require_teacher. case_decide; [by apply Ht|by apply Hf]. Qed.
Lemma holds_own tables i principal (Q : outcome AppError MediaGeneration -> FreelancerSt -> Prop) s :
  (forall s' g, later s s' -> committed (fl_pg s) !! i = Some g -> teacher_id g = user_id principal -> Q (Ok g) s') ->
  (forall s' e, later s s' ->
     (healthy (fl_pg s) -> forall g, committed (fl_pg s) !! i = Some g -> teacher_id g <> user_id principal) -> Q (Err e) s') ->
  holds (own tables i principal) Q s.
Proof.
  intros Hok Herr. unfold own. st_step. apply holds_zoom.
  pose proof (GenerationApi.wp_find_for_teacher tables i (user_id principal) (fl_pg s)) as Hwp. unfold wp in Hwp.
  destruct (find_by_id_for_teacher tables i (user_id principal) (fl_pg s)) as [r p] eqn:Ep. cbn [fst snd].
  destruct Hwp as (Hc & Hh & Hwp).
  assert (later s (s <| fl_pg := p |>)) as Hs by (by split).
  destruct r as [[r|]|e|]; cbn [map_err]; [| |by apply Herr; [|intros ?%Hwp]|done].
  - destruct Hwp as (g & Hg & Ht & ->). st_step. st_step. st_step. by apply (Hok _ g).
  - st_step. st_step. by apply Herr.
Qed.
End Asking.

(** ** Lemmas: the ranking *)

Section Ranking.
Context `{Sha256}.
Implicit Types (users : list User) (m : FreelancerMatch).

(** Everybody with a score; the scores are numbers. *)
Definition candidates (i : uuid) users : list FreelancerMatch := (λ f, mkMatch f (compute_scores f i)) <$> users.
Definition scored (i : uuid) users : Prop := forall f, f ∈ users -> match_score (compute_scores f i) <> S754_nan.
Definition by_score_key (a b : FreelancerMatch) : comparison :=
  key_cmp (f64_key (match_score (fm_scores b))) (f64_key (match_score (fm_scores a))).
#[local] Instance good_by_score : Good by_score_key.
Proof. apply (good_desc key_cmp (λ m, f64_key (match_score (fm_scores m)))), _. Qed.
Lemma by_score_keyed a b : match_score (fm_scores a) <> S754_nan -> match_score (fm_scores b) <> S754_nan ->
  by_score a b = by_score_key a b.
Proof. intros Ha Hb. unfold by_score, by_score_key. by rewrite f64_cmp_key. Qed.

Lemma elem_of_ranking i users n m : m ∈ ranking i users n -> fm_freelancer m ∈ users /\ fm_scores m = compute_scores (fm_freelancer m) i.
Proof.
  unfold ranking. intros Hm. apply elem_of_take in Hm as (k & Hm%list_elem_of_lookup_2 & _).
  rewrite sort_by_perm in Hm. by apply list_elem_of_fmap in Hm as (f & -> & Hf).
Qed.
Lemma length_ranking i users n : length (ranking i users n) = (n `min` length users)%nat.
Proof. unfold ranking. by rewrite length_take, (sort_by_perm _ _), length_fmap. Qed.

(** The suggestions come first among all who could be suggested, the best of them first. *)
Definition best_first (i : uuid) users (suggestions : list FreelancerMatch) : Prop :=
  exists others, suggestions ++ others ≡ₚ candidates i users
  /\ StronglySorted (λ a b, f64_cmp (match_score (fm_scores a)) (match_score (fm_scores b)) <> Some Lt) (suggestions ++ others).
Lemma ranking_best_first i users n : scored i users -> best_first i users (ranking i users n).
Proof.
  intros Hs. exists (drop n (sort_by by_score (candidates i users))). unfold ranking. rewrite take_drop.
  split; [apply sort_by_perm|].
  assert (forall m, m ∈ candidates i users -> match_score (fm_scores m) <> S754_nan) as Hm.
  { intros m (f & -> & Hf)%list_elem_of_fmap. by apply Hs. }
  fold (candidates i users). rewrite (sort_by_ext by_score by_score_key) by (intros a b Ha Hb; apply by_score_keyed; auto).
  pose proof (sort_by_sorted by_score_key (candidates i users)) as Hsort.
  assert (Forall (λ m, match_score (fm_scores m) <> S754_nan) (sort_by by_score_key (candidates i users))) as Hall.
  { rewrite sort_by_perm. by apply Forall_forall. }
  induction Hsort as [|a l Hl IH Ha]; [constructor|]. apply Forall_cons in Hall as [Hna Hall].
  constructor; [by apply IH|]. apply Forall_forall. intros b Hb.
  rewrite f64_cmp_key by (rewrite Forall_forall in Hall; auto). rewrite Forall_forall in Ha. specialize (Ha b Hb).
  unfold by_score_key in Ha. rewrite (good_sym (cmp := key_cmp)) in Ha. intros [= E]. by rewrite E in Ha.
Qed.
End Ranking.

(** ** Lemmas: storing the suggestions *)

(** Nothing but the rows of [D] in freelancer_matches, and its sequence. *)
Record rescored (i : uuid) (D : list Z) (db db' : FreelancerDb) : Prop := {
  rs_users : fb_users db' = fb_users db;
  rs_portfolio : fb_portfolio db' = fb_portfolio db;
  rs_contents : fb_contents db' = fb_contents db;
  rs_tasks : fb_tasks db' = fb_tasks db;
  rs_others : forall j f, j <> i \/ f ∉ D -> fb_matches db' !! (j, f) = fb_matches db !! (j, f)
}.
Lemma rescored_none i D db : rescored i D db db.
Proof. by split. Qed.
Lemma rescored_trans i D db1 db2 db3 : rescored i D db1 db2 -> rescored i D db2 db3 -> rescored i D db1 db3.
Proof. intros [] []. split; try congruence. intros j f Hd. rewrite rs_others1, rs_others0; done. Qed.
Lemma rescored_more i D D' db db' : D ⊆ D' -> rescored i D db db' -> rescored i D' db db'.
Proof. intros Hd []. split; try done. intros j f [Hj|Hf]; apply rs_others0; [by left|right; set_solver]. Qed.

Definition keys (l : list FreelancerMatch) : list Z := u_id ∘ fm_freelancer <$> l.
(** The row of the freelancer has the scores. *)
Definition stored (i : uuid) (db : FreelancerDb) (m : FreelancerMatch) : Prop :=
  exists row, fb_matches db !! (i, u_id (fm_freelancer m)) = Some row
  /\ mr_match_score row = match_score (fm_scores m)
  /\ mr_portfolio_relevance_score row = portfolio_relevance_score (fm_scores m)
  /\ mr_success_rate row = success_rate (fm_scores m).
(** What stands in a list of suggestions for the generation [j]. *)
Definition suggestible `{Sha256} (j : uuid) (s : FreelancerSt) (m : FreelancerMatch) : Prop :=
  fm_freelancer m ∈ fr_user <$> fb_users (fldb s) /\ fm_scores m = compute_scores (fm_freelancer m) j.

Section Storing.
Context `{DbErrorText} `{UuidPrint} `{Sha256}.
Context (columns : column_type).

Lemma holds_upsert i j m (Q : outcome AppError unit -> FreelancerSt -> Prop) s :
  is_Some (committed (fl_pg s) !! i) -> suggestible j s m ->
  (forall s' e, later s s' -> ¬ healthy (fl_pg s) -> Q (Err e) s') ->
  (forall s' r, committed (fl_pg s') = committed (fl_pg s) -> (healthy (fl_pg s) -> healthy (fl_pg s')) ->
     rescored i [u_id (fm_freelancer m)] (fldb s) (fldb s') -> stored i (fldb s') m ->
     match r with Ok _ => columns = Timestamp | Err _ => columns = Timestamptz | Panic => False end -> Q r s') ->
  holds (upsert columns i m) Q s.
Proof.
  intros Hi [Hm Hs] Hdown Hdone. unfold upsert. st_step. apply holds_erring, holds_fl_sql. intros s' Hl.
  split; [intros Hh; cbn [map_err]; by apply Hdown|]. unfold upsert_match.
  rewrite (bool_decide_true (is_Some _)) by done.
  rewrite bool_decide_true by (rewrite list_fmap_compose; by apply list_elem_of_fmap_2). cbn [andb fst snd].
  set (row := match_row _ _ _ _). set (s2 := s' <| fldb := _ |>).
  assert (forall r, match r with Ok _ => columns = Timestamp | Err _ => columns = Timestamptz | Panic => False end -> Q r s2) as Hq.
  { intros r. apply Hdone; [apply Hl|apply Hl| |].
    - split; try done. intros k f Hd. cbn. apply lookup_insert_ne. intros [= <- <-]. set_solver.
    - exists row. split; [apply lookup_insert_eq|done]. }
  unfold as_naive. destruct columns; cbn [outcome_bind map_err]; [apply holds_ret|]; by apply Hq.
Qed.

(** The part of a list that is stored: all of it, or on TIMESTAMPTZ at most its first. *)
Definition attempted {A} (l : list A) : list A := match columns with Timestamp => l | Timestamptz => take 1 l end.

Lemma stored_kept i j l db db' m : rescored i (keys l) db db' -> (forall m', m' ∈ l -> stored i db' m') ->
  (forall m', m' ∈ m :: l -> fm_scores m' = compute_scores (fm_freelancer m') j) -> stored i db m -> stored i db' m.
Proof.
  intros Hk Hall Hs (row & Hrow & Hscores). destruct (decide (u_id (fm_freelancer m) ∈ keys l)) as [Hin|Hin].
  - apply list_elem_of_fmap in Hin as (m' & Heq & Hm'). destruct (Hall m' Hm') as (row' & Hrow' & Hs').
    exists row'. cbn in Heq. rewrite Heq. split; [done|].
    assert (fm_scores m = fm_scores m') as ->; [|done].
    rewrite (Hs m), (Hs m') by (by left || by right). unfold compute_scores. cbv zeta. by rewrite Heq.
  - exists row. by rewrite (rs_others _ _ _ _ Hk) by by right.
Qed.

Lemma holds_upsert_all i j l (Q : outcome AppError unit -> FreelancerSt -> Prop) s :
  is_Some (committed (fl_pg s) !! i) -> (forall m, m ∈ l -> suggestible j s m) ->
  (forall r s', committed (fl_pg s') = committed (fl_pg s) -> rescored i (keys (attempted l)) (fldb s) (fldb s') ->
     match r with
     | Ok _ => (forall m, m ∈ l -> stored i (fldb s') m) /\ (columns = Timestamptz -> l = [])
     | Err _ => healthy (fl_pg s) -> columns = Timestamptz /\ forall m, m ∈ take 1 l -> stored i (fldb s') m
     | Panic => False
     end -> Q r s') ->
  holds (upsert_all columns i l) Q s.
Proof.
  revert Q s. induction l as [|m l IH]; intros Q s Hi Hl HQ; cbn [upsert_all].
  - apply holds_ret, HQ; [done|apply rescored_none|]. split; [intros ? ?%not_elem_of_nil|]; done.
  - apply holds_bind, (holds_upsert i j); [done|apply Hl; by left| |].
    + intros s' e Hs Hh. apply HQ; [apply Hs|rewrite (lt_db _ _ Hs); apply rescored_none|done].
    + intros s' r Hc Hh Hk Hm Hr.
      assert (rescored i (keys (attempted (m :: l))) (fldb s) (fldb s')) as Hk1.
      { eapply rescored_more, Hk. unfold attempted. destruct columns; set_solver. }
      destruct r as [u|e|]; [|apply HQ; [done..|]|done].
      * unfold attempted in *. rewrite Hr in *. apply IH; [by rewrite Hc| |].
        { intros m' Hm'. unfold suggestible. rewrite (rs_users _ _ _ _ Hk). apply Hl. by right. }
        intros r' s2 Hc2 Hk2 Hr2. apply HQ; [congruence| |].
        { eapply rescored_trans; [done|]. eapply rescored_more, Hk2. set_solver. }
        destruct r' as [u'|e'|]; [|intros Hh0; by destruct (Hr2 (Hh Hh0))|done]. split; [|done].
        intros m' [->|Hm']%elem_of_cons; [|by apply Hr2]. apply (stored_kept i j l (fldb s')); [done|by apply Hr2| |done].
        intros m2 Hm2. by apply Hl.
      * intros _. split; [done|]. intros m' Hm'. cbn in Hm'. apply elem_of_cons in Hm' as [->|?%not_elem_of_nil]; done.
Qed.
End Storing.

(** ** Lemmas: asking, hiring *)

Section Handlers.
Context `{DbErrorText} `{UuidPrint} `{Sha256}.
Context (columns : column_type) (tables : RelatedTables).

(** The suggestions for a generation. *)
Definition suggestions (g : MediaGeneration) (max_suggestions : option Z) (s : FreelancerSt) : list FreelancerMatch :=
  ranking (id g) (fr_user <$> freelancers (fldb s)) (suggestion_limit max_suggestions).
Lemma suggestions_suggestible g n s m : m ∈ suggestions g n s -> suggestible (id g) s m.
Proof.
  intros [Hm Hs]%elem_of_ranking. split; [|done]. apply list_elem_of_fmap in Hm as (r & -> & Hr).
  apply list_elem_of_fmap_2. unfold freelancers in Hr. apply list_elem_of_In, List.filter_In in Hr as [Hr _].
  by apply list_elem_of_In.
Qed.
Lemma no_suggestions g n s : suggestions g n s = [] -> freelancers (fldb s) = [].
Proof.
  intros E%(f_equal length). unfold suggestions in E. rewrite length_ranking, length_fmap in E. cbn in E.
  apply nil_length_inv. unfold suggestion_limit, clamp in E. destruct (_ <? 1) eqn:E1 in E; [lia|]. destruct (_ <? _) in E; lia.
Qed.

(** What asking for suggestions leaves behind. *)
Definition suggesting principal i n (s : FreelancerSt) (r : outcome AppError Response) (s' : FreelancerSt) : Prop :=
  committed (fl_pg s') = committed (fl_pg s) /\ match r with
  | Ok response => exists g, may_ask principal i s g
      /\ response = response.ok (Array (match_resource <$> suggestions g n s))
      /\ rescored i (keys (suggestions g n s)) (fldb s) (fldb s') /\ (forall m, m ∈ suggestions g n s -> stored i (fldb s') m)
      /\ (columns = Timestamptz -> freelancers (fldb s) = [])
  | Err _ => fldb s' = fldb s
      /\ (healthy (fl_pg s) -> forall g, ¬ may_ask principal i s g)
      \/ exists g, may_ask principal i s g /\ rescored i (keys (attempted columns (suggestions g n s))) (fldb s) (fldb s')
         /\ (healthy (fl_pg s) -> columns = Timestamptz /\ forall m, m ∈ take 1 (suggestions g n s) -> stored i (fldb s') m)
  | Panic => False
  end.
Lemma suggest_holds principal i n s : holds (suggest_freelancers columns tables principal i n) (suggesting principal i n s) s.
Proof.
  unfold suggest_freelancers. st_step. apply holds_teachers; intros Hrole.
  2: { intros e. split; [done|]. left. split; [done|]. intros _ g [? _]. done. }
  st_step. apply holds_own; [|intros s1 e Hl Hno; split; [apply Hl|]; left; split; [apply Hl|]].
  2: { intros Hh g (_ & Hg & Ht). by destruct (Hno Hh g). }
  intros s1 g Hl Hg Ht. assert (may_ask principal i s g) as Hmay by done.
  st_step. unfold fetch_freelancers, failing_with. apply holds_erring, holds_fl_read. intros s2 Hl2.
  assert (later s s2) as Hl3 by (by etrans). split; cbn [map_err].
  { intros Hh. split; [apply Hl3|]. right. exists g. split; [done|]. split.
    - rewrite (lt_db _ _ Hl3). apply rescored_none.
    - intros Hh0. exfalso. by apply Hh, (lt_healthy _ _ Hl). }
  cbv zeta. rewrite (lt_db _ _ Hl). fold (suggestions g n s). st_step.
  apply (holds_upsert_all _ i (id g)).
  - rewrite (lt_generations _ _ Hl3). by eexists.
  - intros m Hm. unfold suggestible. rewrite (lt_db _ _ Hl3). by apply (suggestions_suggestible _ n).
  - rewrite (lt_generations _ _ Hl3), (lt_db _ _ Hl3). intros [u|e|] s3 Hc Hk Hr; [| |done].
    + st_step. split; [done|]. exists g. destruct Hr as [Hr Hnone]. split; [done|]. split; [done|]. split; [|split; [done|]].
      * eapply rescored_more, Hk. unfold attempted. destruct columns; [done|]. by rewrite Hnone.
      * intros Hz. by apply (no_suggestions g n), Hnone.
    + split; [done|]. right. exists g. split; [done|]. split; [done|]. intros Hh. by apply Hr, (lt_healthy _ _ Hl3).
Qed.

(** The task that hiring creates. *)
Definition hired_task (i j c moment : Z) (principal : Principal) (mode : str * str * option Z) : MarketplaceTask :=
  mkTask j c mode.1.2 mode.1.1 None (Some (z_to_string (user_id principal))) mode.2 None (Some i) (Some moment) (Some moment).
(** The row may be stored. *)
Definition task_fits (t : MarketplaceTask) (db : FreelancerDb) : Prop :=
  fb_tasks db !! mt_id t = None /\ mt_content_id t ∈ fb_contents db
  /\ forall j, mt_suggested_freelancer_id t = Some j -> exists r, r ∈ fb_users db /\ u_id (fr_user r) = j.
Lemma task_ok_fits t gens db : task_ok t gens db = Ok () -> task_fits t db.
Proof.
  unfold task_ok. destruct (negb _); [done|]. case_bool_decide as Hnew; [done|].
  destruct (_ && _) eqn:E; [|done]. intros _. apply andb_true_iff in E as [[Hc%bool_decide_eq_true Hj]%andb_true_iff _].
  split; [by apply eq_None_not_Some|]. split; [done|]. intros j Ej. rewrite Ej in Hj. cbn in Hj.
  apply bool_decide_eq_true, list_elem_of_fmap in Hj as (r & -> & Hr). by exists r.
Qed.
Lemma fits_task_ok i j c moment principal payload mode gens db : hire_mode payload = Ok mode -> is_Some (gens !! i) ->
  task_fits (hired_task i j c moment principal mode) db -> task_ok (hired_task i j c moment principal mode) gens db = Ok ().
Proof.
  intros Hm Hgen (Hnew & Hc & Hj). unfold task_ok.
  assert (negb (varchar 20 (mt_status (hired_task i j c moment principal mode))
    && varchar 20 (mt_task_type (hired_task i j c moment principal mode))) = false) as ->.
  { unfold hire_mode in Hm. destruct (hf_mode payload); [destruct (hf_freelancer_id payload); [|done]|];
      injection Hm as <-; vm_compute; done. }
  rewrite bool_decide_false by (by intros [? Hx]; rewrite Hnew in Hx). rewrite bool_decide_true by done. cbn [andb].
  cbn [hired_task mt_media_generation_id optionally]. rewrite (bool_decide_true _ Hgen), andb_true_r.
  destruct (mt_suggested_freelancer_id _) as [f|]; [|done]. cbn [optionally].
  destruct (Hj f eq_refl) as (r & Hr & <-). rewrite bool_decide_true; [done|]. rewrite list_fmap_compose. by do 2 apply list_elem_of_fmap_2.
Qed.

(** A teacher's own generation that is over and has content, and the task its content is offered with. *)
Definition may_hire principal i payload (s : FreelancerSt) c mode : Prop :=
  exists g, may_ask principal i s g /\ is_terminal_status (status g) = true /\ content_id g = Some c /\ hire_mode payload = Ok mode.
Definition hiring principal i payload (s : FreelancerSt) (r : outcome AppError Response) (s' : FreelancerSt) : Prop :=
  committed (fl_pg s') = committed (fl_pg s) /\
  ((exists e, r = Err e) /\ fldb s' = fldb s /\ (healthy (fl_pg s) -> forall c mode, may_hire principal i payload s c mode ->
      forall moment, ¬ task_fits (hired_task i (default 0 (head (fl_uuids s))) c moment principal mode) (fldb s))
   \/ exists c mode moment, may_hire principal i payload s c mode
      /\ let t := hired_task i (default 0 (head (fl_uuids s))) c moment principal mode in
         task_fits t (fldb s) /\ fldb s' = (fldb s) <| fb_tasks := <[mt_id t := t]> (fb_tasks (fldb s)) |>
         /\ match columns with
            | Timestamp => r = Ok (response.created (hired_resource i c t))
            | Timestamptz => exists e, r = Err (Internal e)
            end).

Lemma holds_insert_task t (Q : outcome AppError MarketplaceTask -> FreelancerSt -> Prop) s :
  let dated := λ now, mkTask (mt_id t) (mt_content_id t) (mt_status t) (mt_task_type t) (mt_description t) (mt_creator_id t)
                        (mt_suggested_freelancer_id t) (mt_attachment_url t) (mt_media_generation_id t) (Some now) (Some now) in
  (forall s' e, committed (fl_pg s') = committed (fl_pg s) -> fldb s' = fldb s ->
     (healthy (fl_pg s) -> forall now, task_ok (dated now) (committed (fl_pg s)) (fldb s) <> Ok ()) -> Q (Err (Internal e)) s') ->
  (forall s' now, committed (fl_pg s') = committed (fl_pg s) -> task_ok (dated now) (committed (fl_pg s)) (fldb s) = Ok () ->
     fldb s' = (fldb s) <| fb_tasks := <[mt_id t := dated now]> (fb_tasks (fldb s)) |> ->
     match columns with
     | Timestamp => Q (Ok (dated now)) s'
     | Timestamptz => forall e, Q (Err (Internal e)) s'
     end) ->
  holds (insert_task columns t) Q s.
Proof.
  intros dated Hno Hok. unfold insert_task. apply holds_erring, holds_fl_sql. intros s' Hl.
  split; [intros Hh; cbn [map_err]; by apply Hno; [apply Hl..|]|].
  cbv zeta. change (mkTask (mt_id t) _ _ _ _ _ _ _ _ (Some ?now) _) with (dated now).
  set (now := time (fl_pg s')) in *. change (mt_id (dated now)) with (mt_id t).
  set (gens := committed (fl_pg s)) in *.
  assert (forall a b, task_ok (dated a) gens (fldb s) = task_ok (dated b) gens (fldb s)) as Hsame by done.
  destruct (task_ok (dated now) gens (fldb s)) as [[]|e|] eqn:E; cbn [fst snd].
  - set (s2 := s' <| fldb := _ |>). specialize (Hok s2 now (lt_generations _ _ Hl) E eq_refl).
    unfold decode_Task, decode_instants, as_naive. destruct columns; cbn [outcome_bind map_err]; exact Hok || apply Hok.
  - cbn [map_err]. apply Hno; [apply Hl|done|]. intros _ a. by rewrite (Hsame a now), E.
  - exfalso. unfold task_ok in E. repeat case_match; congruence.
Qed.
Lemma holds_fresh_id {E} (Q : outcome E uuid -> FreelancerSt -> Prop) s :
  (forall s', committed (fl_pg s') = committed (fl_pg s) -> fldb s' = fldb s -> (healthy (fl_pg s) -> healthy (fl_pg s')) ->
     Q (Ok (default 0 (head (fl_uuids s)))) s') -> holds fresh_id Q s.
Proof. intros HQ. unfold holds, fresh_id. destruct (fl_uuids s); by apply HQ. Qed.
Lemma hire_holds principal i payload s : holds (hire_freelancer columns tables principal i payload) (hiring principal i payload s) s.
Proof.
  assert (forall s' e, later s s' ->
    (healthy (fl_pg s) -> forall c mode, may_hire principal i payload s c mode -> False) -> hiring principal i payload s (Err e) s') as Hno.
  { intros s' e Hl Hno. split; [apply Hl|]. left. split; [by eexists|]. split; [apply Hl|]. intros Hh c mode Hm. exfalso. by apply (Hno Hh c mode). }
  unfold hire_freelancer. st_step. apply holds_teachers; intros Hrole.
  2: { intros e. apply Hno; [done|]. intros _ c mode (g & [? _] & _). done. }
  st_step. apply holds_own; [|intros s1 e Hl Hnot; apply Hno; [done|]].
  2: { intros Hh c mode (g & (_ & Hg & Ht) & _). by destruct (Hnot Hh g). }
  intros s1 g Hl Hg Ht. assert (may_ask principal i s g) as Hmay by done.
  assert (forall c mode, may_hire principal i payload s c mode ->
    is_terminal_status (status g) = true /\ content_id g = Some c /\ hire_mode payload = Ok mode) as Hself.
  { intros c mode (g' & (_ & Hg' & _) & Hrest). assert (g' = g) as -> by congruence. done. }
  st_step. st_step. destruct (is_terminal_status (status g)) eqn:Hover.
  2: { apply Hno; [done|]. by intros _ c mode [? _]%Hself. }
  st_step. st_step. destruct (content_id g) as [c|] eqn:Hcontent.
  2: { apply Hno; [done|]. by intros _ c mode (_ & ? & _)%Hself. }
  st_step. st_step. destruct (hire_mode payload) as [[[task_type task_status] suggested]|e|] eqn:Hmode.
  2: { apply Hno; [done|]. by intros _ c' mode (_ & _ & ?)%Hself. }
  2: { unfold hire_mode in Hmode. repeat case_match; done. }
  set (mode := (task_type, task_status, suggested)) in *.
  assert (may_hire principal i payload s c mode) as Hhire by (by exists g).
  st_step. apply holds_fresh_id. rewrite (lt_uuids _ _ Hl). set (j := default 0 (head (fl_uuids s))). intros s2 Hc2 Hd2 Hh2.
  st_step. apply holds_insert_task; cbn [mt_id mt_content_id mt_status mt_task_type mt_description mt_creator_id
    mt_suggested_freelancer_id mt_attachment_url mt_media_generation_id].
  - intros s3 e Hc3 Hd3 Hunfit. split; [rewrite Hc3, Hc2; apply Hl|]. left. split; [by eexists|].
    split; [rewrite Hd3, Hd2; apply Hl|]. intros Hh c' mode' Hhire' moment Hfits.
    destruct (Hself _ _ Hhire') as (_ & [= <-] & [= <-]). rewrite Hd2, (lt_db _ _ Hl) in Hunfit.
    apply (Hunfit (Hh2 (lt_healthy _ _ Hl Hh)) moment). apply (fits_task_ok i j c moment principal payload mode); [done| |done].
    rewrite Hc2, (lt_generations _ _ Hl), Hg. by eexists.
  - rewrite Hd2, (lt_db _ _ Hl). intros s3 now Hc3 Hok Hd3.
    assert (committed (fl_pg s3) = committed (fl_pg s)) as Hc by (rewrite Hc3, Hc2; apply Hl).
    destruct columns eqn:Ecolumns.
    + st_step. split; [done|]. right. exists c, mode, now. split; [done|]. split; [by eapply task_ok_fits|]. split; [exact Hd3|by rewrite Ecolumns].
    + intros e. split; [done|]. right. exists c, mode, now. split; [done|]. split; [by eapply task_ok_fits|]. split; [exact Hd3|rewrite Ecolumns; by eexists].
Qed.
End Handlers.

(** ** Properties *)

(** C30. Suggesting freelancers, whatever fails and whatever the columns are ([suggesting]). Only a teacher
    is answered, for a generation of the own. The answer is the ranking of the freelancers, as many as are
    asked for between 1 and 10, and where the scores are numbers the best of all freelancers come first; every
    suggestion is stored with its scores, and nothing else changes. An error leaves everything as it was, or
    has stored a part of the ranking; on a reachable database with TIMESTAMP columns there is none. On
    TIMESTAMPTZ columns, as the migrations declare them, a single suggestion is stored and the request fails:
    it is answered only where there are no freelancers to suggest. *)
Theorem suggestions_are_ranked_and_stored `{DbErrorText} `{UuidPrint} `{Sha256} columns tables principal i n s :
  holds (suggest_freelancers columns tables principal i n) (suggesting columns principal i n s) s
  /\ forall g, let users := fr_user <$> freelancers (fldb s) in
     length (suggestions g n s) = (suggestion_limit n `min` length users)%nat /\ (1 <= suggestion_limit n <= 10)%nat
     /\ (scored (id g) users -> best_first (id g) users (suggestions g n s)).
Proof.
  split; [apply suggest_holds|]. intros g users. split; [apply length_ranking|]. split.
  - unfold suggestion_limit, clamp. generalize (default DEFAULT_SUGGESTIONS n). intros x.
    destruct (Z.ltb_spec x 1), (Z.ltb_spec 10 x); lia.
  - apply ranking_best_first.
Qed.

(** C31. Hiring for a generation, whatever fails and whatever the columns are ([hiring]): one task is created
    or nothing changes. It is created only for a teacher, for a generation of the own that is over and has
    content, as the mode says: assigned to the freelancer that the request names, who only has to be a user,
    or open for bids. On a reachable database it is created whenever it fits the table, however many tasks
    the generation already has. On TIMESTAMPTZ columns, as the migrations declare them, the task is created
    and the request is answered with an error. A body without the freelancer it needs is turned away. *)
Theorem hiring_creates_one_task `{DbErrorText} `{UuidPrint} `{Sha256} columns tables principal i payload s :
  holds (hire_freelancer columns tables principal i payload) (hiring columns principal i payload s) s
  /\ (hire_mode payload = Ok (lit "suggestion", lit "assigned", hf_freelancer_id payload)
        /\ hf_mode payload = AutoSuggest /\ is_Some (hf_freelancer_id payload)
      \/ hire_mode payload = Ok (lit "bid", lit "open_for_bid", None) /\ hf_mode payload = ManualTask
      \/ (exists e, hire_mode payload = Err e) /\ hf_mode payload = AutoSuggest /\ hf_freelancer_id payload = None).
Proof.
  split; [apply hire_holds|]. unfold hire_mode. destruct (hf_mode payload), (hf_freelancer_id payload); eauto 10.
Qed.

(** The profile of a freelancer is never answered: its statement has a parameter that nothing is bound to. *)
Theorem profiles_are_never_answered `{DbErrorText} f s :
  holds (get_freelancer_profile f) (λ r s', fldb s' = fldb s /\ exists e, r = Err (Internal e)) s
  /\ holds (get_freelancer_profile_basic f) (λ r s', fldb s' = fldb s /\ exists e, r = Err (Internal e)) s.
Proof.
  assert (forall Q : outcome AppError (FreelancerRow * list str) -> FreelancerSt -> Prop,
    (forall s' e, later s s' -> Q (Err (Internal e)) s') -> holds (fetch_freelancer_profile_base f) Q s) as Hbase.
  { intros Q HQ. unfold fetch_freelancer_profile_base, failing_with. st_step. apply holds_erring, holds_fl_read. intros s' Hl.
    split; [intros _|]; by apply HQ. }
  split; [unfold get_freelancer_profile|unfold get_freelancer_profile_basic]; apply holds_bind, Hbase;
    intros s' e Hl; (split; [apply Hl|by eexists]).
Qed.

(** ** Witnesses *)

Module FreelancersWitness.
#[local] Existing Instances decimal_print.
#[local] Instance no_text : DbErrorText := λ _, lit "down".
(** A digest that depends on the freelancer. *)
#[local] Instance spread : Sha256 := λ bytes, (λ k, (97 * k + 61 * (bytes !!! 0%nat)) mod 256) <$> seqZ 1 32.

Definition named (i : Z) (role : str) : FreelancerRow :=
  mkFreelancerRow (mkUser i (lit "Agus") (lit "agus@klass") None [] None None role None None None (Some 0) (Some 0))
    [] [] false None None None None None.
Definition staff : list FreelancerRow :=
  [named 1 (lit "freelancer"); named 2 (lit "freelancer"); named 3 (lit "freelancer"); named 7 (lit "teacher")].
Definition nothing_else : RelatedTables := Build_RelatedTables [] [] [] [] [].
Definition rini : Principal := mkPrincipal 7 (lit "teacher").
Definition finished : MediaGeneration := sample_row <| status := lit "completed" |> <| content_id := Some 60 |>.
Definition market : FreelancerSt :=
  mkFreelancerSt (sample_state {[ 1 := finished ]} 0) (mkFreelancerDb staff [] {[ 60 ]} ∅ 1 ∅) [40; 41].

Definition asked (columns : column_type) := suggest_freelancers columns nothing_else rini 1 (Some 2) market.
Lemma suggestions_are_ranked_and_stored_witness :
  u_id ∘ fm_freelancer <$> suggestions finished (Some 2) market = [2; 1]
  /\ best_first (id finished) (fr_user <$> freelancers (fldb market)) (suggestions finished (Some 2) market)
  /\ suggesting Timestamp rini 1 (Some 2) market (asked Timestamp).1 (asked Timestamp).2
  /\ (exists response, (asked Timestamp).1 = Ok response) /\ size (fb_matches (fldb (asked Timestamp).2)) = 2%nat
  /\ (exists e, (asked Timestamptz).1 = Err e) /\ size (fb_matches (fldb (asked Timestamptz).2)) = 1%nat.
Proof.
  split; [vm_compute; reflexivity|].
  destruct (suggestions_are_ranked_and_stored Timestamp nothing_else rini 1 (Some 2) market) as [Hholds Hbest].
  split.
  { destruct (Hbest finished) as (_ & _ & Hb). apply Hb. intros f Hf.
    assert (Forall (λ f, match_score (compute_scores f (id finished)) <> S754_nan) (fr_user <$> freelancers (fldb market))) as Hall
      by (repeat apply Forall_cons_2; [vm_compute; discriminate..|apply Forall_nil_2]).
    exact (proj1 (Forall_forall _ _) Hall f Hf). }
  split; [exact Hholds|]. split; [eexists; vm_compute; reflexivity|]. split; [vm_compute; reflexivity|].
  split; [eexists; vm_compute; reflexivity|vm_compute; reflexivity].
Defined.

Definition hire (columns : column_type) (freelancer : option Z) (s : FreelancerSt) :=
  hire_freelancer columns nothing_else rini 1 (mkHireRequest AutoSuggest freelancer) s.
(** The teacher assigns the content to the own account, and again; on TIMESTAMPTZ both are reported as failed. *)
Lemma hiring_creates_one_task_witness :
  hiring Timestamp rini 1 (mkHireRequest AutoSuggest (Some 7)) market (hire Timestamp (Some 7) market).1 (hire Timestamp (Some 7) market).2
  /\ (exists response, (hire Timestamp (Some 7) market).1 = Ok response)
  /\ (exists response, (hire Timestamp (Some 7) (hire Timestamp (Some 7) market).2).1 = Ok response)
  /\ mt_suggested_freelancer_id <$> fb_tasks (fldb (hire Timestamp (Some 7) (hire Timestamp (Some 7) market).2).2)
     = {[ 40 := Some 7; 41 := Some 7 ]}
  /\ (exists e, (hire Timestamptz (Some 7) market).1 = Err (Internal e))
  /\ fb_tasks (fldb (hire Timestamptz (Some 7) market).2) = fb_tasks (fldb (hire Timestamp (Some 7) market).2).
Proof.
  split; [exact (proj1 (hiring_creates_one_task Timestamp nothing_else rini 1 (mkHireRequest AutoSuggest (Some 7)) market))|].
  split; [eexists; vm_compute; reflexivity|]. split; [eexists; vm_compute; reflexivity|].
  split; [vm_compute; reflexivity|]. split; [eexists; vm_compute; reflexivity|vm_compute; reflexivity].
Defined.
End FreelancersWitness.
