(* ===== verification/Settings.v ===== *)
(** * System settings (db/repositories/system_settings.rs, api/rest/admin/system_settings.rs)

    The settings by their keys, the coercion of boolean values, the bulk update in one transaction, and the
    answers grouped as the table groups them. Statements and the activity log are those of Topics.v; the
    type of the columns of instants is an argument, as in HomepageApi.v. *)

From stdpp Require Import base gmap list option strings fin_maps sets.
From Stdlib Require Import ZArith Lia.
From S2P Require Import Prelude RustStr Json Canon Floats Interpretation Decision Order Text Store StateM Repo GenerationApi Auth HomepageApi Topics Rest Samples.
#[local] Open Scope Z_scope.

(** A row of system_settings; its key is the key of the table. *)
Record SystemSetting := mkSetting {
  sg_id : Z;
  sg_value : option str;
  sg_type : str;
  sg_group : str;
  sg_description : option str;
  sg_created_at : option Z;
  sg_updated_at : option Z
}.
#[export] Instance SystemSetting_eta : Eta SystemSetting := λ s,
  mkSetting (sg_id s) (sg_value s) (sg_type s) (sg_group s) (sg_description s) (sg_created_at s) (sg_updated_at s).
Record BulkUpdateItem := mkBulkItem { bu_key : str; bu_value : option str; bu_type_hint : option str }.
Notation Settings := (gmap str SystemSetting).
(** The tables of Topics.v with the log, the schedule and the clock; the settings that are committed and those
    that an open transaction sees, with its NOW(); the next number of the rows. *)
Record SettingSt := mkSettingSt {
  st_base : TopicSt;
  st_settings : Settings;
  st_tx : option (Z * Settings);
  st_seq : Z
}.
#[export] Instance SettingSt_eta : Eta SettingSt := λ s, mkSettingSt (st_base s) (st_settings s) (st_tx s) (st_seq s).
Notation SM := (ST SettingSt).

(** The order in which a HashMap gives its entries. *)
Class MapOrder := map_order : forall A : Type, gmap str A -> list (str * A).
Class MapOrderLaws `{MapOrder} := map_order_perm : forall (A : Type) (m : gmap str A), map_order A m ≡ₚ map_to_list m.

(** ** Coercion *)

Section Coercion.
Context `{CaseTables}.
Definition TRUTHY : list str := [lit "true"; lit "1"; lit "yes"; lit "on"].
Definition truthy (value : str) : bool := bool_decide (to_lowercase (trim value) ∈ TRUTHY).
Definition coerce_setting_value (value type_hint : str) : str :=
  if bool_decide (type_hint = lit "boolean") then (if truthy value then lit "true" else lit "false") else value.
Definition parse_bool_setting (value : option str) (type_hint : str) : option bool :=
  if negb (bool_decide (type_hint = lit "boolean")) then None else truthy <$> value.
End Coercion.

(** ** The repository *)

Section Repository.
Context `{DbErrorText} `{MapOrder}.
Context (columns : column_type).

(** A statement on the settings takes its turn with the others. *)
Definition settings_reaching {A} (q : Z -> SettingSt -> outcome db_error A * SettingSt) : SM str A := λ s,
  match reaching (λ b, (Ok (t_clock b), b)) (st_base s) with
  | (Ok now, b) => let '(r, s') := q now (s <| st_base := b |>) in (map_err db_error_text r, s')
  | (Err e, b) => (Err e, s <| st_base := b |>)
  | (Panic, b) => (Panic, s <| st_base := b |>)
  end.
Definition said {A} (what : string) (m : SM str A) : SM str A := erring (λ e, lit what ++ lit ": " ++ e) m.
Arguments said {A} what%_string m.
Definition decode_Setting (s : SystemSetting) : outcome db_error SystemSetting :=
  decode_instants columns (sg_created_at s) (sg_updated_at s) s.

Definition get (key : str) (default : option str) : SM str (option str) :=
  row ← said "failed to get system setting" (settings_reaching (λ _ s, (Ok (sg_value <$> st_settings s !! key), s)));
  mret (match row with Some value => value | None => default end).
(** [COALESCE]. *)
Definition upserted (seq : Z) (old : option SystemSetting) (value type_hint setting_group description : option str) (now : Z) :
    SystemSetting :=
  match old with
  | None => mkSetting seq value (default (lit "text") type_hint) (default (lit "general") setting_group) description (Some now) (Some now)
  | Some o => mkSetting (sg_id o) value (default (sg_type o) type_hint) (default (sg_group o) setting_group)
                (option_or description (sg_description o)) (sg_created_at o) (Some now)
  end.
Definition SETTING_TYPES : list str := [lit "text"; lit "boolean"; lit "number"; lit "json"].
Definition setting_ok (key : str) (s : SystemSetting) : bool :=
  varchar 255 key && bool_decide (sg_type s ∈ SETTING_TYPES) && varchar 50 (sg_group s)
  && optionally (varchar 255) (sg_description s).
Definition set (key : str) (value type_hint setting_group description : option str) : SM str SystemSetting :=
  said "failed to upsert system setting" (settings_reaching (λ now s,
    let row := upserted (st_seq s) (st_settings s !! key) value type_hint setting_group description now in
    let s := s <| st_seq := st_seq s + 1 |> in
    if setting_ok key row then (decode_Setting row, s <| st_settings := <[key := row]> (st_settings s) |>)
    else (Err CheckViolation, s))).

(** The rows of a group keep the order of their keys. *)
Definition rows_in_order (m : Settings) : list (str * SystemSetting) :=
  ordered (λ a b, then_with (str_cmp (sg_group a.2) (sg_group b.2)) (str_cmp a.1 b.1)) (map_to_list m).
Definition group_rows (rows : list (str * SystemSetting)) : gmap str (list (str * SystemSetting)) :=
  foldl (λ grouped row, <[sg_group row.2 := default [] (grouped !! sg_group row.2) ++ [row]]> grouped) ∅ rows.
Definition find_grouped : SM str (gmap str (list (str * SystemSetting))) :=
  rows ← said "failed to fetch system settings" (settings_reaching (λ _ s,
    (decode_rows (λ row, outcome_bind (decode_Setting row.2) (λ _, Ok row)) (rows_in_order (st_settings s)), s)));
  mret (group_rows rows).

Definition begin_tx : SM str unit := settings_reaching (λ now s, (Ok (), s <| st_tx := Some (now, st_settings s) |>)).
Definition commit_tx : SM str unit := settings_reaching (λ _ s,
  match st_tx s with
  | Some (_, m) => (Ok (), s <| st_settings := m |> <| st_tx := None |>)
  | None => (Err (Protocol (lit "no transaction")), s)
  end).
Definition tx_scoped {A} (m : SM str A) : SM str A := λ s, let '(r, s') := m s in (r, s' <| st_tx := None |>).
(** [UPDATE system_settings SET ... WHERE key = $3]: a key that does not exist updates nothing. *)
Definition updated_setting (item : BulkUpdateItem) (now : Z) (o : SystemSetting) : SystemSetting :=
  o <| sg_value := bu_value item |> <| sg_type := default (sg_type o) (bu_type_hint item) |> <| sg_updated_at := Some now |>.
Definition update_setting (item : BulkUpdateItem) : SM str unit := settings_reaching (λ _ s,
  match st_tx s with
  | None => (Err (Protocol (lit "no transaction")), s)
  | Some (began, m) =>
      match m !! bu_key item with
      | None => (Ok (), s)
      | Some o => let row := updated_setting item began o in
                  if setting_ok (bu_key item) row then (Ok (), s <| st_tx := Some (began, <[bu_key item := row]> m) |>)
                  else (Err CheckViolation, s)
      end
  end).
Fixpoint update_each (updates : list BulkUpdateItem) : SM str unit :=
  match updates with
  | [] => mret ()
  | item :: updates =>
      _ ← erring (λ e, lit "failed to bulk-update setting '" ++ bu_key item ++ lit "': " ++ e) (update_setting item);
      update_each updates
  end.
Definition bulk_update (updates : list BulkUpdateItem) : SM str unit :=
  match updates with
  | [] => mret ()
  | _ => tx_scoped (
      _ ← said "failed to begin transaction" begin_tx;
      _ ← update_each updates;
      said "failed to commit bulk update transaction" commit_tx)
  end.
End Repository.

(** ** The endpoints *)

Section Endpoints.
Context `{DbErrorText} `{UuidPrint} `{MapOrder} `{CaseTables}.
Context (columns : column_type).

Definition parsed_value (s : SystemSetting) : option value :=
  if bool_decide (sg_type s = lit "boolean") then Bool <$> parse_bool_setting (sg_value s) (sg_type s) else String <$> sg_value s.
(** A value and a description that are absent are left out. *)
Definition setting_resource (key : str) (s : SystemSetting) : value :=
  obj ([("key", String key)]%string ++ ((λ v, ("value"%string, v)) <$> option_list (parsed_value s))
       ++ [("type", String (sg_type s))]%string ++ ((λ d, ("description"%string, String d)) <$> option_list (sg_description s))).
Definition grouped_resource (grouped : gmap str (list (str * SystemSetting))) : value :=
  Object ((λ g, (g.1, Array ((λ row, setting_resource row.1 row.2) <$> g.2))) <$> map_order _ grouped).

Definition administrators_only (principal : Principal) : SM AppError unit :=
  zoom st_base (λ b s, s <| st_base := b |>) (λ e, e) (require_admin principal).
Definition fetched (m : SM str (gmap str (list (str * SystemSetting)))) : SM AppError (gmap str (list (str * SystemSetting))) :=
  erring (λ e, Internal (lit "gagal mengambil pengaturan: " ++ e)) m.
Definition index (principal : Principal) : SM AppError Response :=
  _ ← administrators_only principal;
  grouped ← fetched (find_grouped columns);
  mret {| re_status := 200; re_headers := []; re_body := obj [("data", grouped_resource grouped)]%string |}.

(** The types of the settings by their keys. *)
Definition type_map (grouped : gmap str (list (str * SystemSetting))) : gmap str str :=
  list_to_map ((λ row, (row.1, sg_type row.2)) <$> ((map_order _ grouped).*2 ≫= λ l, l)).
Definition coerced_item (types : gmap str str) (setting : str * str) : BulkUpdateItem :=
  mkBulkItem setting.1 (Some (coerce_setting_value setting.2 (default (lit "text") (types !! setting.1)))) None.
Definition update_logged (principal : Principal) (metadata : option value) : SM AppError Activity :=
  zoom st_base (λ b s, s <| st_base := b |>) (λ e, Internal (lit "gagal mencatat aktivitas: " ++ e))
    (record_activity columns (Some (user_id principal)) (lit "update_system_settings") (Some (lit "system_setting")) None metadata).
Definition update_settings (principal : Principal) (settings : gmap str str) : SM AppError Response :=
  _ ← administrators_only principal;
  _ ← ok_or (Validation (lit "Map 'settings' tidak boleh kosong.")) (if decide (settings = ∅) then None else Some ());
  grouped ← fetched (find_grouped columns);
  let updates := coerced_item (type_map grouped) <$> map_order _ settings in
  _ ← erring (λ e, Internal (lit "gagal memperbarui pengaturan: " ++ e)) (bulk_update updates);
  _ ← update_logged principal (Some (obj [("updated_keys", Array ((String ∘ bu_key) <$> updates))]%string));
  updated ← fetched (find_grouped columns);
  mret (response.ok_with_message (z_to_string (Z.of_nat (length updates)) ++ lit " pengaturan berhasil diperbarui.")
    (grouped_resource updated)).
End Endpoints.

(** ** Lemmas: types and updates *)

(** What the update of [requested] makes of the settings: the known keys have the new value, coerced by the
    type that the setting has; nothing else changes. *)
Definition settled `{CaseTables} (requested : gmap str str) (moment : Z) (m : Settings) : Settings :=
  map_imap (λ key o, Some match requested !! key with
    | Some v => o <| sg_value := Some (coerce_setting_value v (sg_type o)) |> <| sg_updated_at := Some moment |>
    | None => o
    end) m.

Section Pure.
Context `{CaseTables} `{MapOrderLaws}.
Implicit Types (m : Settings) (rows : list (str * SystemSetting)).

Definition in_group (grouped : gmap str (list (str * SystemSetting))) (row : str * SystemSetting) : Prop :=
  exists g l, grouped !! g = Some l /\ row ∈ l.
Lemma group_rows_elem rows row : in_group (group_rows rows) row <-> row ∈ rows.
Proof.
  unfold group_rows.
  assert (forall acc, in_group (foldl (λ grouped row, <[sg_group row.2 := default [] (grouped !! sg_group row.2) ++ [row]]> grouped)
    acc rows) row <-> in_group acc row \/ row ∈ rows) as Hgen.
  { induction rows as [|x rows IH]; intros acc; cbn [foldl].
    - split; [by left|]. by intros [?|?%not_elem_of_nil].
    - rewrite IH, elem_of_cons.
      assert (in_group (<[sg_group x.2 := default [] (acc !! sg_group x.2) ++ [x]]> acc) row <-> in_group acc row \/ row = x) as ->;
        [|tauto].
      unfold in_group. split.
      + intros (g & l & Hl & Hin). destruct (decide (sg_group x.2 = g)) as [<-|Hg].
        * rewrite lookup_insert_eq in Hl. injection Hl as <-. apply elem_of_app in Hin as [Hin|Hin%list_elem_of_singleton]; [|by right].
          destruct (acc !! sg_group x.2) as [l|] eqn:El; [|by apply not_elem_of_nil in Hin]. left. by exists (sg_group x.2), l.
        * rewrite lookup_insert_ne in Hl by done. left. by exists g, l.
      + intros [(g & l & Hl & Hin)| ->].
        * destruct (decide (sg_group x.2 = g)) as [<-|Hg].
          -- exists (sg_group x.2), (l ++ [x]). rewrite lookup_insert_eq, Hl. split; [done|]. apply elem_of_app. by left.
          -- exists g, l. by rewrite lookup_insert_ne.
        * exists (sg_group x.2). eexists. rewrite lookup_insert_eq. split; [done|]. apply elem_of_app. right. by left. }
  rewrite Hgen. split; [|by right]. intros [(g & l & Hl & _)|]; [by rewrite lookup_empty in Hl|done].
Qed.
Lemma rows_in_order_elem m key s : (key, s) ∈ rows_in_order m <-> m !! key = Some s.
Proof. unfold rows_in_order, ordered. by rewrite sort_by_perm, elem_of_map_to_list. Qed.
Lemma type_map_lookup m key : type_map (group_rows (rows_in_order m)) !! key = sg_type <$> m !! key.
Proof.
  unfold type_map. set (l := _ <$> _).
  assert (forall k t, (k, t) ∈ l <-> exists s, m !! k = Some s /\ t = sg_type s) as Hl.
  { intros k t. subst l. rewrite list_elem_of_fmap. split.
    - intros ([k' s] & [= -> ->] & Hin). apply list_elem_of_bind in Hin as (rows & Hin & Hr).
      apply list_elem_of_fmap in Hr as ([g rows'] & -> & Hg). rewrite (map_order_perm _ _) in Hg. apply elem_of_map_to_list in Hg.
      exists s. split; [|done]. apply rows_in_order_elem, group_rows_elem. by exists g, rows'.
    - intros (s & Hs & ->). exists (k, s). split; [done|]. apply rows_in_order_elem, group_rows_elem in Hs as (g & rows & Hg & Hin).
      apply list_elem_of_bind. exists rows. split; [done|]. apply list_elem_of_fmap. exists (g, rows). split; [done|].
      rewrite (map_order_perm _ _). by apply elem_of_map_to_list. }
  destruct (list_to_map l !! key) as [t|] eqn:E.
  - apply elem_of_list_to_map_2, Hl in E as (s & -> & ->). done.
  - apply not_elem_of_list_to_map_2 in E. destruct (m !! key) as [s|] eqn:Es; [|done]. destruct E.
    apply list_elem_of_fmap. exists (key, sg_type s). split; [done|]. apply Hl. eauto.
Qed.

(** The statements of one update, and of all. *)
Definition apply_item (moment : Z) (m : Settings) (item : BulkUpdateItem) : Settings :=
  match m !! bu_key item with Some o => <[bu_key item := updated_setting item moment o]> m | None => m end.
Lemma apply_item_lookup moment m item key :
  apply_item moment m item !! key = if decide (bu_key item = key) then updated_setting item moment <$> m !! key else m !! key.
Proof.
  unfold apply_item. case_decide as Hk; [subst key|]; destruct (m !! bu_key item) as [o|] eqn:Ho.
  - by rewrite lookup_insert_eq.
  - by rewrite Ho.
  - by rewrite lookup_insert_ne.
  - done.
Qed.
Lemma apply_items_lookup moment l m key : NoDup (bu_key <$> l) ->
  foldl (apply_item moment) m l !! key
  = match List.find (λ item, bool_decide (bu_key item = key)) l with
    | Some item => updated_setting item moment <$> m !! key
    | None => m !! key
    end.
Proof.
  revert m. induction l as [|item l IH]; intros m Hnd; [done|]. cbn in Hnd. apply NoDup_cons in Hnd as [Hout Hnd].
  cbn [foldl List.find]. rewrite IH by done. case_bool_decide as Hk.
  - destruct (List.find _ l) as [item'|] eqn:Ef.
    + apply List.find_some in Ef as [Hin%list_elem_of_In Heq%bool_decide_eq_true]. destruct Hout. rewrite Hk, <- Heq.
      by apply list_elem_of_fmap_2.
    + rewrite apply_item_lookup. by rewrite decide_True.
  - rewrite apply_item_lookup, decide_False by done. done.
Qed.
Lemma apply_all requested moment m :
  foldl (apply_item moment) m (coerced_item (type_map (group_rows (rows_in_order m))) <$> map_order _ requested)
  = settled requested moment m.
Proof.
  assert (NoDup (bu_key <$> (coerced_item (type_map (group_rows (rows_in_order m))) <$> map_order _ requested))) as Hnd.
  { rewrite <- list_fmap_compose. rewrite (map_order_perm _ requested). apply NoDup_fst_map_to_list. }
  apply map_eq. intros key. rewrite apply_items_lookup by done. unfold settled. rewrite map_lookup_imap.
  destruct (List.find _ _) as [item|] eqn:Ef.
  - apply List.find_some in Ef as [Hin%list_elem_of_In Hk%bool_decide_eq_true].
    apply list_elem_of_fmap in Hin as ([k v] & -> & Hin). cbn in Hk. subst k.
    rewrite (map_order_perm _ requested) in Hin. apply elem_of_map_to_list in Hin.
    destruct (m !! key) as [o|] eqn:Ho; [|done]. cbn. rewrite Hin. f_equal.
    unfold updated_setting, coerced_item. cbn [bu_key bu_value bu_type_hint fst snd default].
    rewrite type_map_lookup, Ho. by destruct o.
  - destruct (m !! key) as [o|] eqn:Ho; [|done]. cbn.
    destruct (requested !! key) as [v|] eqn:Hv; [|done]. exfalso.
    pose proof (List.find_none _ _ Ef (coerced_item (type_map (group_rows (rows_in_order m))) (key, v))) as Hnone.
    cbv beta in Hnone. rewrite bool_decide_true in Hnone by done. enough (true = false) by done. apply Hnone, list_elem_of_In, list_elem_of_fmap_2.
    rewrite (map_order_perm _ requested). by apply elem_of_map_to_list.
Qed.

(** A boolean is stored in one of two forms, and read back as it was meant. *)
Lemma truthy_true : truthy (lit "true") = true.
Proof. unfold truthy. apply bool_decide_eq_true. vm_compute. left. Qed.
Lemma truthy_false : truthy (lit "false") = false.
Proof.
  unfold truthy. apply bool_decide_eq_false. change (to_lowercase (trim (lit "false"))) with (lit "false").
  unfold TRUTHY. intros Hin.
  repeat (apply elem_of_cons in Hin as [Heq|Hin]; [vm_compute in Heq; discriminate Heq|]). by apply not_elem_of_nil in Hin.
Qed.
Lemma coerced_boolean v : parse_bool_setting (Some (coerce_setting_value v (lit "boolean"))) (lit "boolean") = Some (truthy v)
  /\ coerce_setting_value v (lit "boolean") ∈ [lit "true"; lit "false"].
Proof.
  unfold coerce_setting_value, parse_bool_setting. rewrite bool_decide_true by done. cbn [negb fmap option_fmap option_map].
  destruct (truthy v); [rewrite truthy_true|rewrite truthy_false]; (split; [done|set_solver]).
Qed.
End Pure.

(** ** Lemmas: statements *)

(** Only time has passed. *)
Record sat_by (s s' : SettingSt) : Prop := {
  sb_base : waited (st_base s) (st_base s');
  sb_settings : st_settings s' = st_settings s;
  sb_tx : st_tx s' = st_tx s
}.
#[export] Instance sat_by_preorder : PreOrder sat_by.
Proof. split; [by split|]. intros ??? [] []. split; [by etrans|congruence..]. Qed.

Section Statements.
Context `{DbErrorText} `{MapOrder}.

Lemma holds_settings {A} (q : Z -> SettingSt -> outcome db_error A * SettingSt) (Q : outcome str A -> SettingSt -> Prop) s :
  (forall s', sat_by s s' -> (¬ answered (st_base s) -> Q (Err (lit "unavailable")) s') /\
     forall now, Q (map_err db_error_text (q now s').1) (q now s').2) ->
  holds (settings_reaching q) Q s.
Proof.
  intros HQ. unfold holds, settings_reaching.
  assert (holds (reaching (λ b, (Ok (t_clock b), b))) (λ r b, waited (st_base s) b /\
    match r with Ok _ => True | Err e => e = lit "unavailable" /\ ¬ answered (st_base s) | Panic => False end) (st_base s)) as Hr.
  { apply holds_reaching. intros b W. by split. }
  unfold holds in Hr. destruct (reaching _ _) as [[now|e|] b]; cbn [fst snd] in Hr; [| |by destruct Hr].
  - destruct Hr as [W _]. destruct (HQ (s <| st_base := b |>)) as [_ Hq]; [by split|].
    specialize (Hq now). by destruct (q now _).
  - destruct Hr as (W & -> & Hn). destruct (HQ (s <| st_base := b |>)) as [Hq _]; [by split|]. by apply Hq.
Qed.
Lemma holds_said {A} (what : string) (m : SM str A) (Q : outcome str A -> SettingSt -> Prop) s :
  holds m (λ r s', Q (map_err (λ e, lit what ++ lit ": " ++ e) r) s') s -> holds (said what m) Q s.
Proof. apply holds_erring. Qed.

(** The rows meet the constraints of the table, their instants are set. *)
Definition rows_fit (m : Settings) : Prop := forall key o, m !! key = Some o -> setting_ok key o = true.
Definition dated (m : Settings) : Prop := forall key o, m !! key = Some o -> is_Some (sg_created_at o).
Lemma apply_item_fits moment m item : bu_type_hint item = None -> rows_fit m -> rows_fit (apply_item moment m item).
Proof.
  intros Hh Hm key o. rewrite apply_item_lookup. case_decide as Hk; [|apply Hm].
  destruct (m !! key) as [o'|] eqn:Ho; [|done]. intros [= <-]. specialize (Hm _ _ Ho).
  unfold setting_ok, updated_setting in *. rewrite Hh. by destruct o'.
Qed.

Lemma holds_find_grouped (columns : column_type) (Q : outcome str (gmap str (list (str * SystemSetting))) -> SettingSt -> Prop) s :
  (forall s', sat_by s s' ->
     (¬ answered (st_base s) \/ columns = Timestamptz -> forall e, Q (Err e) s') /\
     ((columns = Timestamptz -> dated (st_settings s) -> st_settings s = ∅) -> Q (Ok (group_rows (rows_in_order (st_settings s)))) s')) ->
  holds (find_grouped columns) Q s.
Proof.
  intros HQ. unfold find_grouped. st_step. apply holds_said, holds_settings. intros s' Hs. destruct (HQ s' Hs) as [Hno Hok].
  split; [intros Hn; apply Hno; by left|]. intros _. cbn [fst snd]. rewrite (sb_settings _ _ Hs). set (rows := rows_in_order _).
  set (f := λ row : str * SystemSetting, outcome_bind (decode_Setting columns row.2) (λ _, Ok row)).
  assert (forall row, (exists e, f row = Err e) /\ columns = Timestamptz
    \/ f row = Ok row /\ (columns = Timestamptz -> ¬ is_Some (sg_created_at row.2))) as Hf.
  { intros row. subst f. cbv beta. unfold decode_Setting, decode_instants, as_naive.
    destruct columns, (sg_created_at row.2), (sg_updated_at row.2); cbn; (try (left; split; [by eexists|done]));
      right; (split; [done|]); intros Hc; [done..|by intros [? ?]]. }
  assert ((exists e, decode_rows f rows = Err e) /\ columns = Timestamptz
    \/ decode_rows f rows = Ok rows /\ (columns = Timestamptz -> forall row, row ∈ rows -> ¬ is_Some (sg_created_at row.2)))
    as [[[e ->] Hc]|[-> Hc]].
  { clear -Hf. induction rows as [|row rows IH]; cbn; [right; split; [done|]; by intros _ row ?%not_elem_of_nil|].
    destruct (Hf row) as [[[e ->] Hc]|[-> Hc]]; [left; split; [by eexists|done]|]. cbn.
    destruct IH as [[[e ->] Hc']|[-> Hc']]; [left; split; [by eexists|done]|]. right. split; [done|].
    intros Hz x [->|Hx]%elem_of_cons; [by apply Hc|by apply Hc']. }
  - cbn [map_err]. apply Hno. by right.
  - cbn [map_err]. st_step. apply Hok. intros Hz Hd. apply map_empty. intros key.
    destruct (st_settings s !! key) as [o|] eqn:Ho; [|done]. exfalso.
    apply (Hc Hz (key, o)); [by apply rows_in_order_elem|by apply (Hd key)].
Qed.

(** The statements of a transaction, one after the other. *)
Lemma holds_update_each moment updates (Q : outcome str unit -> SettingSt -> Prop) s m :
  st_tx s = Some (moment, m) -> Forall (λ item, bu_type_hint item = None) updates ->
  (forall s', waited (st_base s) (st_base s') -> st_settings s' = st_settings s ->
     (¬ answered (st_base s) \/ ¬ rows_fit m -> forall e, Q (Err e) s') /\
     (st_tx s' = Some (moment, foldl (apply_item moment) m updates) -> Q (Ok ()) s')) ->
  holds (update_each updates) Q s.
Proof.
  revert Q s m. induction updates as [|item updates IH]; intros Q s m Htx Hh HQ; cbn [update_each].
  - apply holds_ret. by apply HQ.
  - apply Forall_cons in Hh as [Hhint Hh]. st_step. apply holds_erring. unfold update_setting. apply holds_settings.
    intros s1 Hs1. assert (st_tx s1 = Some (moment, m)) as Htx1 by (by rewrite (sb_tx _ _ Hs1)).
    split; [intros Hn; cbn [map_err]; apply HQ; [apply Hs1..|by left]|]. intros _. rewrite Htx1.
    assert (forall s2, waited (st_base s) (st_base s2) -> st_settings s2 = st_settings s -> (answered (st_base s) -> answered (st_base s2)) ->
      st_tx s2 = Some (moment, apply_item moment m item) -> holds (update_each updates) Q s2) as Hgo.
    { intros s2 W2 Hd2 Ha2 Htx2. apply (IH _ _ (apply_item moment m item)); [done|done|]. intros s' W' Hd'.
      destruct (HQ s') as [Hno Hok]; [by etrans|congruence|]. split; [|exact Hok].
      intros Hbad. apply Hno. destruct Hbad as [Hbad|Hbad]; [left; intros Ha; by apply Hbad, Ha2|].
      right. intros Hm. by apply Hbad, apply_item_fits. }
    destruct (m !! bu_key item) as [o|] eqn:Ho; cbn [fst snd].
    + destruct (setting_ok (bu_key item) (updated_setting item moment o)) eqn:Hok; cbn [fst snd map_err].
      * apply Hgo; [apply Hs1|apply Hs1|apply Hs1|]. unfold apply_item. by rewrite Ho.
      * apply HQ; [apply Hs1..|]. right. intros Hm. specialize (Hm _ _ Ho).
        unfold setting_ok, updated_setting in *. rewrite Hhint in Hok. destruct o; cbn in *. congruence.
    + apply Hgo; [apply Hs1|apply Hs1|apply Hs1|]. unfold apply_item. by rewrite Ho.
Qed.

(** All of the updates or none. *)
Lemma holds_bulk_update updates (Q : outcome str unit -> SettingSt -> Prop) s :
  updates <> [] -> Forall (λ item, bu_type_hint item = None) updates ->
  (forall s', waited (st_base s) (st_base s') ->
     (st_settings s' = st_settings s -> (¬ answered (st_base s) \/ ¬ rows_fit (st_settings s)) -> forall e, Q (Err e) s') /\
     forall moment, st_settings s' = foldl (apply_item moment) (st_settings s) updates -> Q (Ok ()) s') ->
  holds (bulk_update updates) Q s.
Proof.
  intros Hne Hh HQ. destruct updates as [|item updates]; [done|]. unfold bulk_update.
  assert (forall (m : SM str unit), holds m (λ r s', Q r (s' <| st_tx := None |>)) s -> holds (tx_scoped m) Q s) as Hscoped
    by (intros m Hm; unfold holds, tx_scoped in *; by destruct (m s)).
  apply Hscoped. unfold begin_tx. st_step. apply holds_said, holds_settings. intros s1 Hs1.
  split; [intros Hn; cbn [map_err]; apply HQ; [apply Hs1..|by left]|]. intros moment. cbn [fst snd map_err].
  st_step. apply (holds_update_each moment _ _ _ (st_settings s)); [cbn; by rewrite (sb_settings _ _ Hs1)|done|].
  cbn [st_base st_settings Prelude.update]. intros s2 W2 Hd2. split.
  - intros Hbad e. apply HQ; [by etrans; [apply Hs1|]|cbn; rewrite Hd2; apply Hs1|].
    destruct Hbad as [Hbad|Hbad]; [left; intros Ha; by apply Hbad, (wt_answered _ _ (sb_base _ _ Hs1))|by right].
  - intros Htx2. apply holds_said. unfold commit_tx. apply holds_settings. intros s3 Hs3.
    assert (waited (st_base s) (st_base s3)) as W3 by (etrans; [apply Hs1|etrans; [exact W2|apply Hs3]]).
    split.
    + intros Hn. cbn [map_err]. apply HQ; [done|cbn; rewrite (sb_settings _ _ Hs3), Hd2; apply Hs1|].
      left. intros Ha. exact (Hn (wt_answered _ _ W2 (wt_answered _ _ (sb_base _ _ Hs1) Ha))).
    + intros _. rewrite (sb_tx _ _ Hs3), Htx2. cbn [fst snd map_err]. set (s4 := s3 <| st_settings := _ |> <| st_tx := None |>).
      refine (proj2 (HQ _ _) moment _); [exact W3|reflexivity].
Qed.
End Statements.

(** ** Lemmas: administration *)

Lemma holds_administrators principal (Q : outcome AppError unit -> SettingSt -> Prop) s :
  (Rest.role principal = lit "admin" -> Q (Ok ()) s) -> (Rest.role principal <> lit "admin" -> forall e, Q (Err e) s) ->
  holds (administrators_only principal) Q s.
Proof.
  intros Hok Hno. apply holds_zoom. unfold require_admin, ok_or.
  assert (s <| st_base := st_base s |> = s) as Hs by (by destruct s).
  case_decide; cbn [fst snd map_err]; rewrite Hs; [by apply Hok|by apply Hno].
Qed.
(** What happens to the settings around the log. *)
Lemma items_have_no_hint `{CaseTables} types (l : list (str * str)) :
  Forall (λ item, bu_type_hint item = None) (coerced_item types <$> l).
Proof. apply Forall_fmap, Forall_forall. by intros [k v] _. Qed.

(** Everything an update needs. *)
Definition ready (principal : Principal) (s : SettingSt) : Prop :=
  Rest.role principal = lit "admin" /\ user_id principal ∈ tb_users (tdb (st_base s)) /\ answered (st_base s)
  /\ rows_fit (st_settings s).

(** The entry of the log, in the larger state. *)
Lemma holds_update_logged `{DbErrorText} columns principal metadata (Q : outcome AppError Activity -> SettingSt -> Prop) s s2 :
  tdb (st_base s2) = tdb (st_base s) -> (answered (st_base s) -> answered (st_base s2)) ->
  (forall e s', st_settings s' = st_settings s2 -> (columns = Timestamp -> ready principal s -> False) -> Q (Err e) s') ->
  (forall s' a, columns = Timestamp -> st_settings s' = st_settings s2 -> (answered (st_base s) -> answered (st_base s')) ->
     ac_actor_id a = Some (user_id principal) -> tb_activity (tdb (st_base s')) = tb_activity (tdb (st_base s)) ++ [a] -> Q (Ok a) s') ->
  holds (update_logged columns principal metadata) Q s2.
Proof.
  intros Hd2 Ha2 Hno Hok. apply holds_zoom.
  set (R := λ (r : outcome str Activity) b,
    Q (map_err (λ e, Internal (lit "gagal mencatat aktivitas: " ++ e)) r) (s2 <| st_base := b |>)).
  assert (holds (record_activity columns (Some (user_id principal)) (lit "update_system_settings") (Some (lit "system_setting"))
    None metadata) R (st_base s2)) as HR; [|exact HR].
  apply holds_record_activity.
  - intros e b Hb Hun. apply Hno; [done|]. intros _ (_ & Huser & Ha & _).
    destruct (Hun (Ha2 Ha)) as (u & [= <-] & Hu). by rewrite Hd2 in Hu.
  - intros b a Hb Hab Hactor _ _ _. rewrite Hd2 in Hb. destruct columns; [|intros e; by apply Hno].
    apply Hok; [done|done|intros Ha; by apply Hab, Ha2|done|]. cbn. by rewrite Hb.
Qed.

(** What an update answers and leaves behind. *)
Definition updating `{DbErrorText} `{MapOrder} `{CaseTables} (columns : column_type) (principal : Principal) (requested : gmap str str)
    (s : SettingSt) (r : outcome AppError Response) (s' : SettingSt) : Prop :=
  (st_settings s' = st_settings s /\ tb_activity (tdb (st_base s')) = tb_activity (tdb (st_base s))
   \/ Rest.role principal = lit "admin" /\ exists moment, st_settings s' = settled requested moment (st_settings s))
  /\ (dated (st_settings s) -> st_settings s <> ∅ -> columns = Timestamptz ->
        st_settings s' = st_settings s /\ forall response, r <> Ok response)
  /\ (forall response, r = Ok response ->
        Rest.role principal = lit "admin" /\ (exists moment, st_settings s' = settled requested moment (st_settings s))
        /\ (exists entry, tb_activity (tdb (st_base s')) = tb_activity (tdb (st_base s)) ++ [entry]
              /\ ac_actor_id entry = Some (user_id principal))
        /\ response = response.ok_with_message (z_to_string (Z.of_nat (size requested)) ++ lit " pengaturan berhasil diperbarui.")
                        (grouped_resource (group_rows (rows_in_order (st_settings s')))))
  /\ (columns = Timestamp -> requested <> ∅ -> ready principal s -> exists response, r = Ok response).

Section Outcomes.
Context `{DbErrorText} `{MapOrder} `{CaseTables}.
Context (columns : column_type) (principal : Principal) (requested : gmap str str) (s : SettingSt).

(** An error before the commit, and one after it. *)
Lemma updating_nothing e s' : st_settings s' = st_settings s -> tdb (st_base s') = tdb (st_base s) ->
  (columns = Timestamp -> requested <> ∅ -> ready principal s -> False) -> updating columns principal requested s (Err e) s'.
Proof.
  intros Hs Hd Hn. split; [left; by rewrite Hs, Hd|]. split; [by intros _ _ _|]. split; [done|].
  intros Hc Hr Hready. by destruct (Hn Hc Hr Hready).
Qed.
Lemma updating_done e moment s' : Rest.role principal = lit "admin" ->
  (columns = Timestamptz -> dated (st_settings s) -> st_settings s = ∅) ->
  st_settings s' = settled requested moment (st_settings s) -> (columns = Timestamp -> ready principal s -> False) ->
  updating columns principal requested s (Err e) s'.
Proof.
  intros Hrole Htz Hs' Hn. split; [right; split; [done|by exists moment]|]. split; [|split; [done|]].
  - intros Hdated Hnonempty Hc. by destruct Hnonempty, (Htz Hc Hdated).
  - intros Hc _ Hready. by destruct (Hn Hc Hready).
Qed.
End Outcomes.

Section Updates.
Context `{DbErrorText} `{UuidPrint} `{MapOrderLaws} `{CaseTables}.
Context (columns : column_type) (principal : Principal) (requested : gmap str str) (s : SettingSt).

(** The items an update is made of. *)
Lemma coerced_items types : let updates := coerced_item types <$> map_order _ requested in
  length updates = size requested /\ (requested <> ∅ -> updates <> []).
Proof.
  intros updates. assert (length updates = size requested) as Hlen.
  { subst updates. rewrite length_fmap, (map_order_perm _ requested). apply length_map_to_list. }
  split; [done|]. intros Hne E. rewrite E in Hlen. cbn in Hlen. symmetry in Hlen. by apply map_size_empty_inv in Hlen.
Qed.

Lemma updating_holds : holds (update_settings columns principal requested) (updating columns principal requested s) s.
Proof.
  unfold update_settings. st_step. apply holds_administrators; intros Hrole.
  2: { intros e. apply updating_nothing; [done|done|]. by intros _ _ [? _]. }
  do 2 st_step. case_decide as Hempty; [apply updating_nothing; [done|done|]; by intros _ ? _|].
  st_step. unfold fetched. apply holds_erring, holds_find_grouped. intros s1 Hs1. split.
  { intros Hbad e. cbn [map_err]. apply updating_nothing; [apply Hs1|by rewrite (wt_db _ _ (sb_base _ _ Hs1))|].
    intros -> _ (_ & _ & Ha & _). by destruct Hbad. }
  intros Htz. cbn [map_err]. cbv zeta.
  destruct (coerced_items (type_map (group_rows (rows_in_order (st_settings s))))) as [Hlen Hne].
  st_step. apply holds_erring, holds_bulk_update; [by apply Hne|apply items_have_no_hint|]. intros s2 W2.
  assert (tdb (st_base s2) = tdb (st_base s)) as Hd2 by (by rewrite (wt_db _ _ W2), (wt_db _ _ (sb_base _ _ Hs1))).
  assert (answered (st_base s) -> answered (st_base s2)) as Ha2 by (intros Ha; apply W2, (sb_base _ _ Hs1), Ha).
  rewrite (sb_settings _ _ Hs1). split.
  { intros Hs2 Hbad e. cbn [map_err]. apply updating_nothing; [done|done|]. intros _ _ (_ & _ & Ha & Hfit).
    destruct Hbad as [Hbad|Hbad]; [apply Hbad, (sb_base _ _ Hs1), Ha|done]. }
  intros moment Hs2. cbn [map_err]. rewrite apply_all in Hs2.
  st_step. apply (holds_update_logged _ _ _ _ s); [done|done|intros e s' Hs' Hn; apply (updating_done _ _ _ _ _ moment); [done|done|congruence|done]|].
  intros s3 a Hc Hs3 Ha3 Hactor Hact. st_step. apply holds_erring, holds_find_grouped. intros s4 Hs4.
  assert (st_settings s4 = settled requested moment (st_settings s)) as Hset by (rewrite (sb_settings _ _ Hs4); congruence).
  split.
  { intros Hbad e. cbn [map_err]. apply (updating_done _ _ _ _ _ moment); [done|done|done|].
    intros _ (_ & _ & Ha & _). destruct Hbad as [Hbad|Hbad]; [by apply Hbad, Ha3|by rewrite Hbad in Hc]. }
  intros _. cbn [map_err]. st_step.
  split; [right; split; [done|by exists moment]|]. split; [by intros _ _ ->|]. split; [|intros _ _ _; by eexists].
  intros response [= <-]. split; [done|]. split; [by exists moment|]. split.
  - exists a. split; [|done]. by rewrite (wt_db _ _ (sb_base _ _ Hs4)).
  - rewrite (sb_settings _ _ Hs4), Hlen. reflexivity.
Qed.
End Updates.

(** ** Properties *)

(** C29. Updating the settings ([updating]) is all or nothing, whatever fails and in whatever order the entries of the body
    come: either no setting changes, or every setting the body names that exists has its new value, coerced by
    the type the setting has, and nothing else changes. Only an administrator changes anything. On TIMESTAMP
    columns, with every statement answered and the rows within their constraints, the update succeeds; an
    answered update has been applied, is in the log, and shows the settings as they are. On TIMESTAMPTZ
    columns, as the migrations declare them, nothing can be updated once there is a setting. *)
Theorem settings_change_together `{DbErrorText} `{UuidPrint} `{MapOrderLaws} `{CaseTables} columns principal requested s :
  holds (update_settings columns principal requested) (updating columns principal requested s) s
  /\ forall moment key, settled requested moment (st_settings s) !! key
     = (λ o, match requested !! key with
             | Some v => o <| sg_value := Some (coerce_setting_value v (sg_type o)) |> <| sg_updated_at := Some moment |>
             | None => o
             end) <$> st_settings s !! key.
Proof.
  split; [apply updating_holds|]. intros moment key. unfold settled. rewrite map_lookup_imap. by destruct (st_settings s !! key).
Qed.

(** ** Witnesses *)

Module SettingsWitness.
#[local] Existing Instances decimal_print plain_case.
#[local] Instance no_text : DbErrorText := λ _, lit "down".
#[local] Instance by_key : MapOrder := λ A m, map_to_list m.
#[local] Instance by_key_laws : MapOrderLaws.
Proof. intros A m. reflexivity. Qed.

Definition setting (ty v : string) : SystemSetting := mkSetting 1 (Some (lit v)) (lit ty) (lit "general") None (Some 0) (Some 0).
Definition site : Settings := {[ lit "name" := setting "text" "Klass"; lit "open" := setting "boolean" "false" ]}.
Definition admin : Principal := mkPrincipal 7 (lit "admin").
Definition office (ticks : list tick) : SettingSt := mkSettingSt (mkTopicSt (mkTopicDb ∅ ∅ ∅ ∅ ∅ {[ 7 ]} ∅ []) None 0 ticks [90]) site None 3.
Definition requested : gmap str str := {[ lit "name" := lit "Klass 2"; lit "open" := lit " YES "; lit "nothing" := lit "1" ]}.
Definition values (s : SettingSt) : gmap str (option str) := sg_value <$> st_settings s.
Definition changed (columns : column_type) (ticks : list tick) := update_settings columns admin requested (office ticks).
Definition up : tick := mkTick false 0.
Definition down : tick := mkTick true 0.

(** Where the third update, or the commit, does not reach the server, nothing is changed. *)
Lemma settings_change_together_witness :
  (exists response, (changed Timestamp []).1 = Ok response)
  /\ values (changed Timestamp []).2 = {[ lit "name" := Some (lit "Klass 2"); lit "open" := Some (lit "true") ]}
  /\ st_settings (changed Timestamp [up; up; up; up; down]).2 = site
  /\ st_settings (changed Timestamp [up; up; up; up; up; down]).2 = site
  /\ st_settings (changed Timestamptz []).2 = site /\ forall response, (changed Timestamptz []).1 <> Ok response.
Proof.
  split.
  { destruct (settings_change_together Timestamp admin requested (office [])) as [(_ & _ & _ & Hok) _].
    apply Hok; [reflexivity|vm_compute; discriminate|]. split; [reflexivity|]. split; [|split; [apply Forall_nil; exact I|]].
    - change (7 ∈ ({[7]} : gset Z)). by apply elem_of_singleton.
    - intros key o Ho. cbn [st_settings office] in Ho. unfold site in Ho.
      apply lookup_insert_Some in Ho as [[<- <-]|[_ Ho]]; [vm_compute; reflexivity|].
      apply lookup_singleton_Some in Ho as [<- <-]. vm_compute. reflexivity. }
  split; [vm_compute; reflexivity|]. split; [vm_compute; reflexivity|]. split; [vm_compute; reflexivity|].
  destruct (settings_change_together Timestamptz admin requested (office [])) as [(_ & Htz & _) _].
  apply Htz; [|vm_compute; discriminate|reflexivity].
  intros key o Ho. cbn [st_settings office] in Ho. unfold site in Ho.
  apply lookup_insert_Some in Ho as [[<- <-]|[_ Ho]]; [by eexists|]. apply lookup_singleton_Some in Ho as [<- <-]. by eexists.
Defined.

(** The message counts the keys of the body, the unknown one too. *)
Example unknown_keys_are_counted :
  exists data, (changed Timestamp []).1 = Ok (response.ok_with_message (lit "3 pengaturan berhasil diperbarui.") data).
Proof. eexists. vm_compute. reflexivity. Qed.
(** The log is out of reach after the commit: the settings are changed and the answer is an error. *)
Example a_change_reported_as_failed :
  (changed Timestamp [up; up; up; up; up; up; down]).1 = Err (Internal (lit "gagal mencatat aktivitas: failed to record activity log: unavailable"))
  /\ values (changed Timestamp [up; up; up; up; up; up; down]).2 = values (changed Timestamp []).2.
Proof. split; vm_compute; reflexivity. Qed.
End SettingsWitness.
